(* ===== verification/_CoqProject ===== *)
-Q . S2P
Prelude.v
GoNet.v
GoStrings.v
K8s.v
Cidr.v
Endpoint.v
NatDiscovery.v
CableEngine.v
Metrics.v
Netlink.v
Vxlan.v
Tunnel.v
Pinger.v
Syncer.v
PacketFilter.v
Iptables.v
IpSet.v
Nftables.v
GlobalnetBase.v
GlobalEgress.v
GlobalCluster.v
GlobalGateway.v
GlobalIngress.v
Event.v
PublicIP.v
LocalEndpoint.v
DatastoreSyncer.v
Gateway.v
WireGuard.v
AmneziaOptions.v
AmneziaWG.v
RouteAgent.v
KubeProxy.v
AgentHealth.v
Calico.v
OvnRoutes.v
OvnHost.v
OvnConnection.v
GatewayMonitor.v
ServiceExport.v
Libreswan.v
CertHandler.v
