(* ===== verification/Prelude.v ===== *)
(** * Submariner: a model of the program and its theorems

    Submariner connects the networks of Kubernetes clusters.  On one node of each
    cluster, the gateway, a gateway process publishes the cluster's endpoint
    through a broker and builds tunnels (cables) to the endpoints of the other
    clusters; on every node a route agent programs the routes and packet filter
    rules that lead traffic to the gateway; globalnet gives services and pods
    addresses that do not clash when the clusters' networks overlap.  This library
    translates the Go code under src/pkg into executable definitions and proves
    what makes it correct.

    ** How the code is modelled

    A Go function that returns an error gives a [result]; a handler that changes
    state is a computation [eff W E A] over its world, which keeps the changes
    made before a failure, as Go does.  A panic is an error whose text starts with
    panic, or an error type of its own.  Interfaces of the source are type classes
    or records of operations ([Driver], [PFDriver], [Event.handler], ...), and the
    promises one component makes to another are classes of laws ([DriverLaws],
    [PFDriverLaws], ...): clients are proved against the laws, implementations
    discharge them.  Third-party code (the Kubernetes API and its clients, admiral,
    netlink, nftables, iptables, wgctrl, pluto, Prometheus) is a class without a
    definition; its laws state documented behaviour and a concrete instance in the
    file that uses it shows that they can hold.  Goroutines and callbacks whose order
    is free are steps of a relation or events of a run, and the theorems quantify
    over every run.  Integers have Go's width where the code can overflow.  Slices
    whose array is shared and pointers to shared objects are modelled as such where
    a behaviour depends on it (the connections of the drivers, the pingers, the
    conditions of a status).  The texts of errors, conditions and statuses are fixed
    texts without the values that are formatted into them.

    ** The files, in order, and the code they model

    Foundations.  [Prelude] (results, effects, frame reasoning, tactics), [GoNet]
    (strconv, net, net/netip), [GoStrings] (strings, the quoting of fmt), [K8s] (helpers of k8s.io/utils/net and admiral as
    classes), [Cidr] (pkg/cidr), [Endpoint] (the API types of pkg/apis and the
    accessors of an endpoint).

    The gateway process.  [NatDiscovery] (pkg/natdiscovery): which address of an
    endpoint answers.  [CableEngine] (pkg/cableengine): installs and removes cables
    over any [Driver]; it asks NAT discovery for the address first.  [Metrics]
    (pkg/cable/metrics.go).  [Netlink] (pkg/netlink, pkg/cni).  The drivers are
    [Vxlan] (pkg/vxlan, pkg/cable/vxlan), [WireGuard] (pkg/cable/wireguard, psk),
    [AmneziaWG] with [AmneziaOptions] (pkg/cable/amneziawg) and [Libreswan] with
    [CertHandler] (pkg/cable/libreswan); each is an instance of [Driver] and keeps
    [DriverLaws].  [Tunnel] (pkg/controllers/tunnel) feeds the
    engine with endpoint events, [Pinger] (pkg/pinger, the engine's health checker)
    measures the cables, [Syncer] publishes the Gateway object.  [PublicIP] and
    [LocalEndpoint] (pkg/endpoint) make the local endpoint, [DatastoreSyncer]
    (pkg/controllers/datastoresyncer) exchanges endpoints with the broker, [Gateway]
    (pkg/gateway, pkg/pod) starts and stops all of this with the leader election.

    Packet filter.  [PacketFilter] (pkg/packetfilter): rules, the driver interface
    and the adapter; [Iptables] and [Nftables] its drivers, the first with the named sets
    of [IpSet] (pkg/ipset).

    Globalnet (pkg/globalnet).  [GlobalnetBase] (chains, gauges, conditions),
    [GlobalEgress], [GlobalCluster], [GlobalGateway] and [GlobalIngress] (the
    controllers that allocate addresses and program their rules), [ServiceExport] (the
    controllers of exported services, which create the GlobalIngressIPs) and
    [GatewayMonitor] (its leader election starts and stops them).

    Route agent.  [Event] (pkg/event: handlers, registry, controller), [RouteAgent]
    (chains, the MTU handler), [KubeProxy], [AgentHealth], [Calico], [OvnRoutes] and
    [OvnHost] (handlers under pkg/routeagent_driver, registered with the controller of
    [Event]; the last two are those for OVN, the routes in its database and the rules of
    the host) and [OvnConnection] (how that database is found, and
    pkg/util/clusterfiles).

    ** What the theorems show

    Cables.  However events interleave, the engine gives its driver at most one cable
    per remote cluster and family and does not reinstall removed ones (CableEngine);
    this holds over each driver, whose contract is proved, and WireGuard lists
    exactly the peers it knows, with a status that follows their counters.  AmneziaWG
    keeps a connection only with its peer on the device, leaves nothing open when its
    creation fails and takes exactly the options that are well formed.  The two
    ends of a libreswan tunnel agree on who dials whom, as what and for which subnets;
    disconnecting undoes connecting, but for deletions that fail, which the driver does
    not report; connections lost at three refreshes in a row are loaded again and others
    left alone.  NAT discovery keeps its invariant over every run, its listeners started
    or not, and a probe, its answer and the selection compose end to end.  The statistics
    of the round-trip times stay within bounds of the exact ones where they cannot
    overflow, and an example shows that they can.

    Endpoints.  The local endpoint is the server's copy; endpoints that are let in
    have disjoint subnets and exactly such are let in; a clean-up removes what is ours
    and nothing else; cables run only under leadership, except for a start that begins
    after its leadership ended, and lost leadership recovers; the labels of the pod are
    set in finitely many rounds when the server answers.

    Packet filter.  The nftables driver refines the interface; updating a chain leaves
    exactly the wanted rules; iptables arguments are parsed back; the named sets of the
    iptables driver are finite sets, whatever the ipset command prints them as.

    Globalnet.  No two objects share an address in any run (and one in which a
    stale cache lets them); rules, statuses and chains hold exactly what is
    allocated; the GlobalIngressIPs of pods and endpoints are exactly the wanted ones;
    controllers run only on the gateway and only for exports.

    Route agent.  Transitions alternate and endpoint events are in order for every
    handler; the MTU sets, the routes of a node, Calico's pools, OVN's rules and the rows
    of its database are those of the endpoints once the handlers report no error, under
    the conditions that the theorems name: a MTU set loses a subnet that a removed
    endpoint shared with another one, and OVN's rules presume canonical subnets and
    tables in which no failure left a subnet half done.

    ** Bounds

    Loops that the code bounds have that bound: three attempts of whack, the polls of
    pluto's socket and the backoff of pod labels (a number given by the class).
    Other fuel is shown or seen to be enough: eight rounds for the groups of an IPv6
    address; the binary length of a number for its digits; ten rounds of the loose
    reverse-path mode and twelve of the CNI discovery, the code's own retries; the
    number of terms for parsing iptables arguments; the length of the list for
    trimming conditions; the length of the data for PEM blocks and for init packets.

    ** What is taken as given, and what is not modelled

    The callback of a start may begin at any time after the leadership began, also after
    the callback of its stop, but each of them runs in one piece, the components that it
    starts apart; the gateway
    monitor's shutdown comes between two handler calls; nobody else changes API
    objects between the calls of one handler of the service controllers; the
    WireGuard driver copies the configuration map it shares with its caller; the
    libreswan driver is initialised before it connects.

    Not modelled: generated code (deep copies, clients, the protobuf codec), test
    doubles, process start-up and flags, constants and wrappers without logic, the
    constructors that only wire informers, the goroutines that only serve a library
    (the configuration socket of AmneziaWG, the subscription to address changes), and
    the access to the local node, which is polling of the API server; its outcome is a
    parameter where it is used. *)
From stdpp Require Import base gmap list strings fin_maps.
From Stdlib Require String.
From Stdlib Require Import ZArith Lia.

(** ** Shared vocabulary

    Go results and errors, the state-and-error monad in which handlers that mutate a
    world are written, zero-valued map reads, list lemmas and tactics used by every
    component. *)

(** * Results

    A Go function returning [(T, error)] is modelled by [result E T]: [Ok v]
    for [(v, nil)], [Err e] for a non-nil error. *)
Inductive result (E A : Type) : Type :=
| Ok (a : A)
| Err (e : E).
Arguments Ok {E A} a.
Arguments Err {E A} e.

#[global] Instance result_eq_dec {E A} `{EqDecision E, EqDecision A} :
  EqDecision (result E A).
Proof. solve_decision. Defined.

#[global] Instance result_ret {E} : MRet (result E) := fun A a => Ok a.
#[global] Instance result_bind {E} : MBind (result E) :=
  fun A B f r => match r with Ok a => f a | Err e => Err e end.
#[global] Instance result_fmap {E} : FMap (result E) :=
  fun A B f r => match r with Ok a => Ok (f a) | Err e => Err e end.

Definition is_ok {E A} (r : result E A) : bool :=
  match r with Ok _ => true | Err _ => false end.

Definition is_err {E A} (r : result E A) : bool := negb (is_ok r).

(** [errors.Wrap]: change the error, keep the value. *)
Definition map_err {E E' A} (f : E -> E') (r : result E A) : result E' A :=
  match r with Ok a => Ok a | Err e => Err (f e) end.

Definition from_result {E A} (d : A) (r : result E A) : A :=
  match r with Ok a => a | Err _ => d end.

(** * The effect monad

    [eff W E A] is a computation over a world [W] that may fail.  As in Go, a
    failing computation keeps the mutations made before the failure. *)
Definition eff (W E A : Type) : Type := W -> result E A * W.

#[global] Instance eff_ret {W E} : MRet (eff W E) := fun A a w => (Ok a, w).
#[global] Instance eff_bind {W E} : MBind (eff W E) :=
  fun A B f m w =>
    match m w with
    | (Ok a, w') => f a w'
    | (Err e, w') => (Err e, w')
    end.

Definition fail {W E A} (e : E) : eff W E A := fun w => (Err e, w).
Definition getw {W E} : eff W E W := fun w => (Ok w, w).
Definition modifyw {W E} (f : W -> W) : eff W E unit := fun w => (Ok tt, f w).
Definition lift_result {W E A} (r : result E A) : eff W E A := fun w => (r, w).

(** [if err := m(); err != nil { ... }]: the outcome as a value. *)
Definition attempt {W E E' A} (m : eff W E A) : eff W E' (result E A) :=
  fun w => let '(r, w') := m w in (Ok r, w').

(** [_ = m()]: the error is dropped. *)
Definition ignore {W E E' A} (m : eff W E A) : eff W E' unit :=
  fun w => (Ok tt, (m w).2).

(** A [for range] loop that returns at the first error. *)
Fixpoint for_each {W E A} (f : A -> eff W E unit) (l : list A) : eff W E unit :=
  match l with
  | [] => mret tt
  | x :: l => _ ← f x; for_each f l
  end.

(** * Maps read with the zero value, as Go does *)
Definition zget {K V} `{Countable K} (d : V) (m : gmap K V) (k : K) : V :=
  default d (m !! k).

(** * Machine integers *)

(** Conversion to a signed 32-bit integer. *)
Definition int32 (z : Z) : Z := ((z + 2 ^ 31) mod 2 ^ 32 - 2 ^ 31)%Z.

(** Conversion to a signed 64-bit integer, as the overflow of [+], [-], [*]. *)
Definition int64 (z : Z) : Z := ((z + 2 ^ 63) mod 2 ^ 64 - 2 ^ 63)%Z.

(** Unsigned 64-bit addition. *)
Definition uint64_add (a b : Z) : Z := ((a + b) mod 2 ^ 64)%Z.

(** * Boolean reflection of [decide] *)
Notation "x =?? y" := (bool_decide (x = y)) (at level 70, no associativity).

(** [strings.ToLower] on ASCII text. *)
Definition lower_char (c : Ascii.ascii) : Ascii.ascii :=
  let n := Ascii.nat_of_ascii c in
  if ((65 <=? n) && (n <=? 90))%nat then Ascii.ascii_of_nat (n + 32) else c.

Fixpoint ToLower (s : string) : string :=
  match s with
  | String.EmptyString => ""
  | String.String c s => String.String (lower_char c) (ToLower s)
  end.

(** * Tactics *)

(** Case analysis on every [match] of the goal, closing the trivial branches. *)
Ltac split_matches :=
  repeat (case_match; simplify_eq/=; try done).

(** Turn [bool_decide] equations into propositions. *)
Ltac bool_props :=
  repeat match goal with
  | H : bool_decide _ = true |- _ => apply bool_decide_eq_true in H
  | H : bool_decide _ = false |- _ => apply bool_decide_eq_false in H
  | H : _ && _ = true |- _ => apply andb_true_iff in H; destruct H
  | H : _ || _ = false |- _ => apply orb_false_iff in H; destruct H
  | H : negb _ = true |- _ => apply negb_true_iff in H
  | H : negb _ = false |- _ => apply negb_false_iff in H
  end.

(** * Generic lemmas *)

Create HintDb submariner.

Lemma is_ok_inv {E A} (r : result E A) : is_ok r = true -> exists a, r = Ok a.
Proof. destruct r; [eauto | done]. Qed.

Lemma bind_ok_inv {E A B} (f : A -> result E B) (r : result E A) (b : B) :
  (r ≫= f) = Ok b -> exists a, r = Ok a /\ f a = Ok b.
Proof. destruct r as [a|e]; simpl; [eauto | done]. Qed.

Lemma eff_bind_ok {W E A B} (m : eff W E A) (f : A -> eff W E B) w a w' :
  m w = (Ok a, w') -> (m ≫= f) w = f a w'.
Proof. intros H. unfold mbind, eff_bind. by rewrite H. Qed.

Lemma eff_bind_err {W E A B} (m : eff W E A) (f : A -> eff W E B) w e w' :
  m w = (Err e, w') -> (m ≫= f) w = (Err e, w').
Proof. intros H. unfold mbind, eff_bind. by rewrite H. Qed.

Lemma eff_bind_inv {W E A B} (m : eff W E A) (f : A -> eff W E B) w r w' :
  (m ≫= f) w = (r, w') ->
  (exists a w1, m w = (Ok a, w1) /\ f a w1 = (r, w')) \/ (exists e, m w = (Err e, w') /\ r = Err e).
Proof.
  unfold mbind, eff_bind. destruct (m w) as [[a|e] w1]; [by left; eauto|]. intros [= <- <-]. eauto.
Qed.

Lemma attempt_inv {W E E' A} (m : eff W E A) w (r : result E' (result E A)) w' :
  attempt m w = (r, w') -> exists r0, r = Ok r0 /\ m w = (r0, w').
Proof. unfold attempt. destruct (m w) as [r0 w1]. intros [= <- <-]. eauto. Qed.

(** What a run ends in, from its outcome. *)
Lemma run_pair {W E A} (m : eff W E A) w r : (m w).1 = r -> m w = (r, (m w).2).
Proof. intros <-. apply surjective_pairing. Qed.

Lemma keeps_run {W E A} (R : relation W) (m : eff W E A) w r w' :
  (forall w, R w (m w).2) -> m w = (r, w') -> R w w'.
Proof. intros HR Hm. specialize (HR w). by rewrite Hm in HR. Qed.

Lemma zget_insert_eq {K V} `{Countable K} (d v : V) (m : gmap K V) k :
  zget d (<[k:=v]> m) k = v.
Proof. unfold zget. by rewrite lookup_insert_eq. Qed.

Lemma zget_insert_ne {K V} `{Countable K} (d v : V) (m : gmap K V) k k' :
  k <> k' -> zget d (<[k:=v]> m) k' = zget d m k'.
Proof. intros. unfold zget. by rewrite lookup_insert_ne. Qed.

#[export] Hint Resolve zget_insert_eq zget_insert_ne : submariner.

Lemma filter_all {A} (P : A -> Prop) `{!forall x, Decision (P x)} l :
  Forall P l -> filter P l = l.
Proof.
  induction 1 as [|x l Hx _ IH]; [done|]. rewrite filter_cons, decide_True by done. by rewrite IH.
Qed.

Lemma filter_none {A} (P : A -> Prop) `{!forall x, Decision (P x)} l :
  Forall (fun x => ~ P x) l -> filter P l = [].
Proof.
  induction 1 as [|x l Hx _ IH]; [done|]. by rewrite filter_cons, decide_False.
Qed.

Lemma filter_ext_elem {A} (P Q : A -> Prop) `{!forall x, Decision (P x), !forall x, Decision (Q x)} (l : list A) :
  (forall x, x ∈ l -> P x <-> Q x) -> filter P l = filter Q l.
Proof.
  induction l as [|x l IH]; [done|]. intros Hpq. rewrite !filter_cons.
  rewrite IH by (intros y Hy; apply Hpq; by right).
  specialize (Hpq x ltac:(left)). repeat case_decide; tauto || done.
Qed.

(** ** Strings *)
Lemma string_app_nil (t : string) : String.append "" t = t.
Proof. done. Qed.

Lemma string_app_cons c (s t : string) :
  String.append (String.String c s) t = String.String c (String.append s t).
Proof. done. Qed.

Lemma string_app_assoc (a b c : string) :
  String.append (String.append a b) c = String.append a (String.append b c).
Proof. induction a as [|x a IH]; [done|]. rewrite !string_app_cons. by rewrite IH. Qed.

Lemma string_app_nil_r (s : string) : String.append s "" = s.
Proof. induction s as [|x s IH]; [done|]. by rewrite string_app_cons, IH. Qed.

Lemma int64_id z : (- 2 ^ 63 <= z < 2 ^ 63)%Z -> int64 z = z.
Proof. intros Hz. unfold int64. rewrite Z.mod_small; lia. Qed.

(** * Frame reasoning for effects

    [keeps R m]: whatever the world [m] starts from, it ends in an [R]-related
    one, on success and on failure. *)
Definition keeps {W E A} (R : relation W) (m : eff W E A) : Prop :=
  forall w, R w (m w).2.

Section keeps.
Context {W E : Type} (R : relation W) `{!PreOrder R}.

Lemma keeps_ret {A} (a : A) : keeps R (mret a : eff W E A).
Proof. intros w. simpl. reflexivity. Qed.

Lemma keeps_fail {A} (e : E) : keeps R (fail e : eff W E A).
Proof. intros w. simpl. reflexivity. Qed.

Lemma keeps_getw : keeps R (getw : eff W E W).
Proof. intros w. simpl. reflexivity. Qed.

Lemma keeps_lift {A} (r : result E A) : keeps R (lift_result r).
Proof. intros w. simpl. reflexivity. Qed.

Lemma keeps_modify f : (forall w, R w (f w)) -> keeps R (modifyw f : eff W E unit).
Proof. intros H w. apply H. Qed.

Lemma keeps_bind {A B} (m : eff W E A) (f : A -> eff W E B) :
  keeps R m -> (forall a, keeps R (f a)) -> keeps R (m ≫= f).
Proof.
  intros Hm Hf w. unfold mbind, eff_bind. specialize (Hm w).
  destruct (m w) as [[a|e] w']; [|done]. etrans; [done|apply Hf].
Qed.

Lemma keeps_attempt {E' A} (m : eff W E A) : keeps R m -> keeps R (attempt m : eff W E' _).
Proof. intros Hm w. specialize (Hm w). unfold attempt. by destruct (m w). Qed.

Lemma keeps_ignore {E' A} (m : eff W E A) : keeps R m -> keeps R (ignore m : eff W E' _).
Proof. intros Hm w. apply Hm. Qed.

Lemma keeps_for_each {A} (f : A -> eff W E unit) l :
  (forall x, keeps R (f x)) -> keeps R (for_each f l).
Proof.
  intros Hf. induction l as [|x l IH]; [apply keeps_ret|]. simpl.
  apply keeps_bind; [apply Hf|intros; apply IH].
Qed.
End keeps.

Create HintDb frames.
#[export] Hint Resolve keeps_ret keeps_fail keeps_getw keeps_lift : frames.

(** Walk through a computation, leaving its state updates as goals. *)
Ltac frames :=
  repeat first
    [ match goal with |- forall _, _ => intro end
    | apply keeps_bind
    | apply keeps_attempt
    | apply keeps_ignore
    | apply keeps_for_each
    | solve [eauto with frames typeclass_instances]
    | match goal with
      | |- keeps _ (match ?x with _ => _ end) => destruct x eqn:?
      | |- keeps _ (match ?x with _ => _ end _) => destruct x eqn:?
      end ].
