(* ===== verification/GoNet.v ===== *)
(** The parts of Go's standard library the modelled code relies on: decimal
    parsing and printing of package [strconv], and addresses, masks and CIDRs
    of packages [net] and [net/netip].  Addresses are byte slices, as
    [net.IP] is: 4 bytes for IPv4, 16 bytes otherwise; [nil] is []. *)
From stdpp Require Import base gmap list strings fin_maps.
From Stdlib Require String.
From Stdlib Require Import ZArith Lia Ascii.
From S2P Require Import Prelude.
Local Open Scope Z_scope.

Module Strconv.
(** Errors of [strconv]. *)
Inductive num_error := ErrSyntax | ErrRange.

#[global] Instance num_error_eq_dec : EqDecision num_error.
Proof. solve_decision. Defined.

Definition code (c : ascii) : Z := Z.of_N (N_of_ascii c).
Definition is_digit (c : ascii) : bool := (48 <=? code c) && (code c <=? 57).
Definition digit (c : ascii) : Z := code c - 48.

(** The value of a hexadecimal digit. *)
Definition hex_digit (c : ascii) : option Z :=
  let x := code c in
  if (48 <=? x) && (x <=? 57) then Some (x - 48)
  else if (97 <=? x) && (x <=? 102) then Some (x - 87)
  else if (65 <=? x) && (x <=? 70) then Some (x - 55)
  else None.

(** The loop of [ParseUint(s, 10, bitSize)]: [n] is the value so far. *)
Fixpoint parse_uint_loop (maxVal n : Z) (s : list ascii) : result num_error Z :=
  match s with
  | [] => Ok n
  | c :: s =>
      if is_digit c then
        let n1 := n * 10 + digit c in
        if maxVal <? n1 then Err ErrRange else parse_uint_loop maxVal n1 s
      else Err ErrSyntax
  end.

Definition ParseUint (s : string) (bitSize : Z) : result num_error Z :=
  match String.list_ascii_of_string s with
  | [] => Err ErrSyntax
  | l => parse_uint_loop (2 ^ bitSize - 1) 0 l
  end.

(** [ParseInt(s, 10, 64)] *)
Definition ParseInt (s : string) : result num_error Z :=
  let '(neg, digits) := match s with
                        | String.String c rest =>
                            if code c =? 43 then (false, rest)
                            else if code c =? 45 then (true, rest) else (false, s)
                        | String.EmptyString => (false, s)
                        end in
  match ParseUint digits 64 with
  | Err e => Err e
  | Ok un =>
      if negb neg && (2 ^ 63 <=? un) then Err ErrRange
      else if neg && (2 ^ 63 <? un) then Err ErrRange
      else Ok (if neg then - un else un)
  end.

Definition ParseBool (s : string) : result num_error bool :=
  if existsb (String.eqb s) ["1"; "t"; "T"; "true"; "TRUE"; "True"]%string then Ok true
  else if existsb (String.eqb s) ["0"; "f"; "F"; "false"; "FALSE"; "False"]%string then Ok false
  else Err ErrSyntax.

(** [strconv.Itoa] on non-negative numbers; the fuel bounds the digits. *)
Fixpoint digits_rev (fuel : nat) (n : Z) : list ascii :=
  match fuel with
  | O => []
  | S fuel =>
      let d := ascii_of_N (Z.to_N (48 + n mod 10)) in
      if n / 10 =? 0 then [d] else d :: digits_rev fuel (n / 10)
  end.

Definition Itoa (n : Z) : string :=
  let m := Z.abs n in
  let ds := String.string_of_list_ascii (rev (digits_rev (S (Z.to_nat (Z.log2 m))) m)) in
  if n <? 0 then String.append "-" ds else ds.
End Strconv.

Module Net.
Import Strconv.

(** [net.IP]: bytes, most significant first.  [nil] is the empty slice. *)
Abbreviation IP := (list Z).

Definition v4InV6Prefix : list Z := [0;0;0;0;0;0;0;0;0;0;255;255].

Definition To4 (ip : IP) : IP :=
  if (length ip =? 4)%nat then ip
  else if (length ip =? 16)%nat && bool_decide (take 12 ip = v4InV6Prefix) then drop 12 ip
  else [].

Definition To16 (ip : IP) : IP :=
  if (length ip =? 4)%nat then v4InV6Prefix ++ ip
  else if (length ip =? 16)%nat then ip
  else [].

(** [IP.Equal]: an IPv4 address and its IPv4-mapped form are equal. *)
Definition Equal (ip x : IP) : bool :=
  if (length ip =? length x)%nat then bool_decide (ip = x)
  else if (length ip =? 4)%nat && (length x =? 16)%nat then
    bool_decide (take 12 x = v4InV6Prefix) && bool_decide (ip = drop 12 x)
  else if (length ip =? 16)%nat && (length x =? 4)%nat then
    bool_decide (take 12 ip = v4InV6Prefix) && bool_decide (drop 12 ip = x)
  else false.

(** [netip.parseIPv4Fields]: dotted decimal, no leading zeros.  [val], [pos]
    and [digLen] are the Go locals, [acc] the fields stored so far (reversed);
    [first] is [i == 0] and [prevdot] is [s[i-1] == '.']. *)
Fixpoint parse_ipv4_fields (s : list ascii) (val : Z) (digLen : Z) (acc : list Z)
    (first prevdot : bool) : option (list Z) :=
  match s with
  | [] => if (length acc <? 3)%nat then None else Some (rev (val :: acc))
  | c :: s' =>
      if is_digit c then
        if (digLen =? 1) && (val =? 0) then None
        else
          let val' := val * 10 + digit c in
          if 255 <? val' then None
          else parse_ipv4_fields s' val' (digLen + 1) acc false false
      else if (code c =? 46)%Z then
        if first || bool_decide (s' = []) || prevdot then None
        else if (length acc =? 3)%nat then None
        else parse_ipv4_fields s' 0 0 (val :: acc) false true
      else None
  end.

Definition parse_ipv4 (s : list ascii) : option (list Z) :=
  parse_ipv4_fields s 0 0 [] true false.

(** The hexadecimal group at the head of [s]: its value, number of digits and
    what follows; [None] for more than four digits. *)
Fixpoint parse_group (s : list ascii) (off : Z) (acc : Z) : option (Z * Z * list ascii) :=
  match s with
  | [] => Some (acc, off, [])
  | c :: s' =>
      match hex_digit c with
      | Some d => if 3 <? off then None else parse_group s' (off + 1) (acc * 16 + d)
      | None => Some (acc, off, s)
      end
  end.

(** The loop of [netip.parseIPv6]: [ip] holds the bytes stored so far,
    [ell] the position of the ellipsis.  Every round stores at least two
    bytes, so eight rounds of fuel reach the bound [i < 16]. *)
Fixpoint parse_ipv6_loop (fuel : nat) (s : list ascii) (ip : list Z) (ell : option nat)
  : option (list ascii * list Z * option nat) :=
  match fuel with
  | O => Some (s, ip, ell)
  | S fuel =>
      match parse_group s 0 0 with
      | None => None
      | Some (acc, off, rest) =>
          if off =? 0 then None
          else
            let store := ip ++ [acc / 256; acc mod 256] in
            match rest with
            | [] => Some ([], store, ell)
            | c :: rest' =>
                if code c =? 46 then
                  if bool_decide (ell = None) && negb (length ip =? 12)%nat then None
                  else if (16 <? length ip + 4)%nat then None
                  else match parse_ipv4 s with
                       | Some f => Some ([], ip ++ f, ell)
                       | None => None
                       end
                else if negb (code c =? 58) then None
                else match rest' with
                     | [] => None
                     | c2 :: rest2 =>
                         if code c2 =? 58 then
                           match ell with
                           | Some _ => None
                           | None =>
                               match rest2 with
                               | [] => Some ([], store, Some (length store))
                               | _ => parse_ipv6_loop fuel rest2 store (Some (length store))
                               end
                           end
                         else parse_ipv6_loop fuel rest' store ell
                     end
            end
      end
  end.

(** [netip.parseIPv6] on a string with no zone. *)
Definition parse_ipv6 (s : list ascii) : option (list Z) :=
  let '(s', ell) :=
    match s with
    | a :: b :: t => if (code a =? 58) && (code b =? 58) then (t, Some O) else (s, None)
    | _ => (s, None)
    end in
  if bool_decide (ell = Some O) && bool_decide (s' = []) then Some (replicate 16 0)
  else
    match parse_ipv6_loop 8 s' [] ell with
    | Some ([], ip, ell) =>
        let i := length ip in
        if (i <? 16)%nat then
          match ell with
          | None => None
          | Some e => Some (take e ip ++ replicate (16 - i)%nat 0 ++ drop e ip)
          end
        else match ell with None => Some ip | Some _ => None end
    | _ => None
    end.

(** [netip.ParseAddr] restricted to the addresses [net] accepts (a zone is
    refused by [net.ParseIP] and [net.ParseCIDR]): the first of '.', ':' and
    '%' decides.  IPv4 gives 4 bytes, IPv6 16 bytes. *)
Fixpoint first_sep (s : list ascii) : Z :=
  match s with
  | [] => 0
  | c :: s =>
      if (code c =? 46) || (code c =? 58) || (code c =? 37) then code c else first_sep s
  end.

Definition parse_addr (s : list ascii) : option (list Z) :=
  if existsb (fun c => code c =? 37) s then None
  else if first_sep s =? 46 then parse_ipv4 s
  else if first_sep s =? 58 then parse_ipv6 s
  else None.

(** [net.ParseIP]: the 16-byte form, or nil. *)
Definition ParseIP (s : string) : IP :=
  match parse_addr (String.list_ascii_of_string s) with
  | Some a => To16 a
  | None => []
  end.

(** Byte [i] of the mask of [ones] leading ones. *)
Definition mask_byte (ones : Z) : Z :=
  if ones <=? 0 then 0
  else if 8 <=? ones then 255
  else 256 - 2 ^ (8 - ones).

(** [net.CIDRMask(ones, 8 * n)]. *)
Fixpoint CIDRMask (ones : Z) (n : nat) : list Z :=
  match n with
  | O => []
  | S n => mask_byte ones :: CIDRMask (ones - 8) n
  end.

Record IPNet := { net_IP : IP; net_Mask : list Z }.

#[global] Instance IPNet_eq_dec : EqDecision IPNet.
Proof. solve_decision. Defined.

Definition land_bytes (a m : list Z) : list Z := zip_with Z.land a m.

(** [IP.Mask]: nil when the lengths do not fit. *)
Definition ip_mask (ip : IP) (mask : list Z) : IP :=
  let mask := if (length mask =? 16)%nat && (length ip =? 4)%nat &&
                 bool_decide (take 12 mask = replicate 12 255) then drop 12 mask else mask in
  let ip := if (length mask =? 4)%nat && (length ip =? 16)%nat &&
               bool_decide (take 12 ip = v4InV6Prefix) then drop 12 ip else ip in
  if (length ip =? length mask)%nat then land_bytes ip mask else [].

(** [dtoi]: a decimal prefix below [0xFFFFFF]; the source asks that it is the
    whole text. *)
Fixpoint dtoi_all (s : list ascii) (n : Z) : option Z :=
  match s with
  | [] => Some n
  | c :: s =>
      if is_digit c then
        let n' := n * 10 + digit c in
        if 16777215 <=? n' then None else dtoi_all s n'
      else None
  end.

Definition dtoi (s : list ascii) : option Z :=
  match s with [] => None | _ => dtoi_all s 0 end.

(** [strings.Cut(s, "/")]. *)
Fixpoint cut_slash (s : list ascii) : option (list ascii * list ascii) :=
  match s with
  | [] => None
  | c :: s =>
      if code c =? 47 then Some ([], s)
      else match cut_slash s with Some (a, b) => Some (c :: a, b) | None => None end
  end.

(** [net.ParseCIDR], whose first result (the address itself) the modelled
    code drops. *)
Definition ParseCIDR (s : string) : option IPNet :=
  match cut_slash (String.list_ascii_of_string s) with
  | None => None
  | Some (addr, mask) =>
      match parse_addr addr, dtoi mask with
      | Some a, Some n =>
          let bytes := length a in
          if 8 * Z.of_nat bytes <? n then None
          else let m := CIDRMask n bytes in
               Some {| net_IP := ip_mask (To16 a) m; net_Mask := m |}
      | _, _ => None
      end
  end.

(** [networkNumberAndMask]: the network in its shortest form. *)
Definition networkNumberAndMask (n : IPNet) : list Z * list Z :=
  let ip4 := To4 (net_IP n) in
  let ip := if (length ip4 =? 4)%nat then ip4 else net_IP n in
  if negb (length ip =? 4)%nat && negb (length ip =? 16)%nat then ([], [])
  else
    let m := net_Mask n in
    if (length m =? 4)%nat then
      if (length ip =? 4)%nat then (ip, m) else ([], [])
    else if (length m =? 16)%nat then
      if (length ip =? 4)%nat then (ip, drop 12 m) else (ip, m)
    else ([], []).

(** [IPNet.Contains]. *)
Definition Contains (n : IPNet) (ip : IP) : bool :=
  let '(nn, m) := networkNumberAndMask n in
  let x := To4 ip in
  let ip := if (length x =? 4)%nat then x else ip in
  (length ip =? length nn)%nat && bool_decide (land_bytes nn m = land_bytes ip m).

(** Leading ones of a mask byte and of a mask, as [simpleMaskLength] counts
    them; [-1] for a mask that is not ones followed by zeros. *)
Fixpoint byte_ones (fuel : nat) (b : Z) : Z :=
  match fuel with
  | O => 0
  | S f => if 128 <=? b then 1 + byte_ones f ((b * 2) mod 256) else 0
  end.

Fixpoint mask_ones (m : list Z) : Z :=
  match m with
  | [] => 0
  | b :: m =>
      if b =? 255 then (let r := mask_ones m in if r <? 0 then -1 else 8 + r)
      else if bool_decide (b = mask_byte (byte_ones 8 b)) && forallb (Z.eqb 0) m
           then byte_ones 8 b else -1
  end.

(** [IPMask.Size]. *)
Definition mask_size (m : list Z) : Z * Z :=
  let ones := mask_ones m in
  if ones =? -1 then (0, 0) else (ones, 8 * Z.of_nat (length m)).

(** Textual form of addresses ([IP.String]). *)
Definition dec_byte (b : Z) : string := Itoa b.

Definition ipv4_string (a : list Z) : string :=
  match a with
  | [a; b; c; d] =>
      (dec_byte a ++ "." ++ dec_byte b ++ "." ++ dec_byte c ++ "." ++ dec_byte d)%string
  | _ => ""%string
  end.

Definition hex_char (d : Z) : ascii :=
  ascii_of_N (Z.to_N (if d <? 10 then 48 + d else 87 + d)).

(** [appendHex]: no leading zeros. *)
Definition hex_group (x : Z) : list ascii :=
  let d3 := x / 4096 in let d2 := (x / 256) mod 16 in
  let d1 := (x / 16) mod 16 in let d0 := x mod 16 in
  (if 4096 <=? x then [hex_char d3] else []) ++
  (if 256 <=? x then [hex_char d2] else []) ++
  (if 16 <=? x then [hex_char d1] else []) ++ [hex_char d0].

Fixpoint groups (a : list Z) : list Z :=
  match a with
  | hi :: lo :: a => hi * 256 + lo :: groups a
  | _ => []
  end.

Fixpoint zero_run (g : list Z) : nat :=
  match g with 0 :: g => S (zero_run g) | _ => O end.

(** The first longest run of at least two zero groups: its start and length. *)
Fixpoint longest_zero_run (g : list Z) (i : nat) (best : nat * nat) : nat * nat :=
  match g with
  | [] => best
  | _ :: g' =>
      let l := zero_run g in
      longest_zero_run g' (S i)
        (if (2 <=? l)%nat && (best.2 <? l)%nat then (i, l) else best)
  end.

Fixpoint join_groups (g : list Z) (first : bool) : list ascii :=
  match g with
  | [] => []
  | x :: g => (if first then [] else [":"%char]) ++ hex_group x ++ join_groups g false
  end.

Definition ipv6_string (a : list Z) : string :=
  let g := groups a in
  let '(st, ln) := longest_zero_run g 0 (0%nat, 0%nat) in
  String.string_of_list_ascii
    (if (ln =? 0)%nat then join_groups g true
     else join_groups (take st g) true ++ [":"; ":"]%char ++ join_groups (drop (st + ln) g) true).

Definition ip_string (ip : IP) : string :=
  if bool_decide (ip = []) then "<nil>"%string
  else let p4 := To4 ip in
       if (length p4 =? 4)%nat then ipv4_string p4
       else ipv6_string ip.

(** [IPNet.String]. *)
Definition net_string (n : IPNet) : string :=
  let '(nn, m) := networkNumberAndMask n in
  if bool_decide (nn = []) then "<nil>"%string
  else (ip_string nn ++ "/" ++ Itoa (mask_size m).1)%string.


(** [net.ParseMAC]: pairs of hexadecimal digits separated by [sep], or groups
    of four separated by dots; 6, 8 or 20 bytes. *)
Definition hex_pair (a b : ascii) : option Z :=
  match hex_digit a, hex_digit b with
  | Some x, Some y => Some (16 * x + y)
  | _, _ => None
  end.

Fixpoint mac_pairs (sep : ascii) (s : list ascii) : option (list Z) :=
  match s with
  | [a; b] => x ← hex_pair a b; Some [x]
  | a :: b :: c :: s =>
      if code c =? code sep then x ← hex_pair a b; l ← mac_pairs sep s; Some (x :: l) else None
  | _ => None
  end.

Fixpoint mac_quads (s : list ascii) : option (list Z) :=
  match s with
  | [a; b; c; d] => x ← hex_pair a b; y ← hex_pair c d; Some [x; y]
  | a :: b :: c :: d :: e :: s =>
      if code e =? 46
      then x ← hex_pair a b; y ← hex_pair c d; l ← mac_quads s; Some (x :: y :: l)
      else None
  | _ => None
  end.

Definition ParseMAC (s : string) : option (list Z) :=
  let l := String.list_ascii_of_string s in
  if (length l <? 14)%nat then None
  else
    let bytes := match l with
                 | _ :: _ :: c :: _ :: e :: _ =>
                     if (code c =? 58) || (code c =? 45) then mac_pairs c l
                     else if code e =? 46 then mac_quads l else None
                 | _ => None
                 end in
    hw ← bytes;
    if existsb (Nat.eqb (length hw)) [6; 8; 20]%nat then Some hw else None.

Example parse_mac_zero : ParseMAC "00:00:00:00:00:00" = Some [0;0;0;0;0;0].
Proof. reflexivity. Qed.
End Net.
