(* ===== verification/GoStrings.v ===== *)
(** Go's package [strings] and the quoting of [fmt] that the modelled code uses,
    on strings of ASCII characters. *)
From stdpp Require Import base list strings.
From Stdlib Require String.
From Stdlib Require Import ZArith Lia Ascii.
From S2P Require Import Prelude GoNet.
Local Open Scope Z_scope.

Module Strings.

Definition chars : string -> list ascii := String.list_ascii_of_string.
Definition text : list ascii -> string := String.string_of_list_ascii.

Definition newline : ascii := ascii_of_nat 10.
Definition quote : ascii := ascii_of_nat 34.

Fixpoint Split (sep : ascii) (s : string) : list string :=
  match s with
  | String.EmptyString => [""]
  | String.String c s =>
      if c =?? sep then "" :: Split sep s
      else match Split sep s with
           | x :: xs => String.String c x :: xs
           | [] => []
           end
  end.

(** The parts before and after the first [sep]. *)
Fixpoint Cut (sep : ascii) (s : string) : option (string * string) :=
  match s with
  | String.EmptyString => None
  | String.String c s =>
      if c =?? sep then Some ("", s)
      else match Cut sep s with Some (a, b) => Some (String.String c a, b) | None => None end
  end.

Definition is_space (c : ascii) : bool :=
  let n := nat_of_ascii c in ((n =? 32) || (9 <=? n) && (n <=? 13))%nat.

Fixpoint trim_left (p : ascii -> bool) (l : list ascii) : list ascii :=
  match l with
  | c :: l' => if p c then trim_left p l' else l
  | [] => []
  end.

Definition trim (p : ascii -> bool) (s : string) : string :=
  text (rev (trim_left p (rev (trim_left p (chars s))))).

Definition TrimSpace : string -> string := trim is_space.

(** [strings.HasPrefix] *)
Definition HasPrefix (s pre : string) : bool := String.prefix pre s.

(** [strings.Contains] *)
Fixpoint Contains (s sub : string) : bool :=
  String.prefix sub s || match s with String.EmptyString => false | String.String _ s => Contains s sub end.

(** [strings.ReplaceAll] of one character by a text. *)
Fixpoint replace_char (old : ascii) (new : string) (s : string) : string :=
  match s with
  | String.EmptyString => ""
  | String.String c s =>
      if c =?? old then new +:+ replace_char old new s else String.String c (replace_char old new s)
  end.

(** [strings.Join] *)
Fixpoint Join (l : list string) (sep : string) : string :=
  match l with
  | [] => ""
  | [s] => s
  | s :: l => s +:+ sep +:+ Join l sep
  end.

(** The characters before and after the first one for which [p] holds. *)
Fixpoint break (p : ascii -> bool) (l : list ascii) : list ascii * list ascii :=
  match l with
  | [] => ([], [])
  | c :: l' => if p c then ([], l) else let '(a, b) := break p l' in (c :: a, b)
  end.

(** The index of the first element for which [p] holds. *)
Fixpoint IndexFunc {T} (p : T -> bool) (l : list T) : option nat :=
  match l with
  | [] => None
  | x :: l => if p x then Some 0%nat else Datatypes.S <$> IndexFunc p l
  end.

(** The verb [%q]: quotes and backslashes are escaped, and so are the characters
    that are not printable. *)
Definition hex_char (n : nat) : ascii := ascii_of_nat (if (n <? 10)%nat then 48 + n else 87 + n).

Definition quote_char (c : ascii) : list ascii :=
  let n := nat_of_ascii c in
  if ((n =? 34) || (n =? 92))%nat then ["\"%char; c]
  else if ((32 <=? n) && (n <=? 126))%nat then [c]
  else match n with
       | 7 => chars "\a" | 8 => chars "\b" | 9 => chars "\t" | 10 => chars "\n"
       | 11 => chars "\v" | 12 => chars "\f" | 13 => chars "\r"
       | _ => chars "\x" ++ [hex_char (n / 16); hex_char (n mod 16)]
       end%nat.

Definition Quote (s : string) : string := text (quote :: flat_map quote_char (chars s) ++ [quote]).

(** * Lemmas *)
Lemma chars_app a b : chars (a +:+ b) = chars a ++ chars b.
Proof. induction a as [|c a IH]; [done|]. rewrite string_app_cons. cbn. by rewrite IH. Qed.

Lemma text_chars n : text (chars n) = n.
Proof. apply String.string_of_list_ascii_of_string. Qed.

Lemma chars_text l : chars (text l) = l.
Proof. apply String.list_ascii_of_string_of_list_ascii. Qed.

Lemma chars_inj a b : chars a = chars b -> a = b.
Proof. intros He. rewrite <- (text_chars a), <- (text_chars b). by f_equal. Qed.

Lemma break_at (p : ascii -> bool) l c t : (forall x, x ∈ l -> p x = false) -> p c = true -> break p (l ++ c :: t) = (l, c :: t).
Proof.
  intros Hl Hc. induction l as [|x l IH]; cbn; [by rewrite Hc|]. rewrite (Hl x) by (by left).
  by rewrite IH by (intros y Hy; apply Hl; by right).
Qed.

Lemma IndexFunc_Some {T} (p : T -> bool) l j : IndexFunc p l = Some j ->
  exists l1 x l2, l = l1 ++ x :: l2 /\ length l1 = j /\ p x = true.
Proof.
  revert j. induction l as [|x l IH]; intros j; simpl; [done|].
  destruct (p x) eqn:Hp; [intros [= <-]; by exists [], x, l|].
  destruct (IndexFunc p l) as [k|]; simpl; [|done]. intros [= <-].
  destruct (IH k eq_refl) as (l1 & y & l2 & -> & <- & Hy). by exists (x :: l1), y, l2.
Qed.

(** Splitting lines that hold no separator, each ended by one, gives them back
    and an empty rest. *)
Definition no_char (c : ascii) (s : string) : Prop := c ∉ chars s.

#[global] Instance no_char_dec c s : Decision (no_char c s).
Proof. unfold no_char. apply _. Defined.

Definition join_ended (c : ascii) (lines : list string) : string :=
  foldr (fun l s => l +:+ String.String c s) "" lines.

Lemma Split_app c x s : no_char c x -> Split c (x +:+ String.String c s) = x :: Split c s.
Proof.
  unfold no_char. induction x as [|y x IH]; intros Hx.
  - rewrite string_app_nil. cbn. by rewrite bool_decide_true.
  - rewrite string_app_cons. cbn in Hx |- *. apply not_elem_of_cons in Hx as [Hy Hx].
    rewrite bool_decide_false by congruence. by rewrite IH.
Qed.

Lemma Split_join_ended c lines : Forall (no_char c) lines -> Split c (join_ended c lines) = lines ++ [""].
Proof. induction 1 as [|x lines Hx _ IH]; [done|]. cbn [join_ended foldr]. rewrite Split_app by done. cbn. by f_equal. Qed.

(** Text without spaces at its ends is left as it is. *)
Definition trimmed (s : string) : Prop := TrimSpace s = s.

#[global] Instance trimmed_dec s : Decision (trimmed s).
Proof. unfold trimmed. apply _. Defined.

Lemma no_space_trimmed s : Forall (fun c => is_space c = false) (chars s) -> trimmed s.
Proof.
  intros Hs. assert (Hl : forall l, Forall (fun c => is_space c = false) l -> trim_left is_space l = l).
  { intros l [|c l' Hc _]; [done|]. cbn. by rewrite Hc. }
  unfold trimmed, TrimSpace, trim. rewrite (Hl (chars s)) by done.
  rewrite Hl by (by apply Forall_rev). rewrite rev_involutive. apply text_chars.
Qed.

Lemma prefix_app s t : String.prefix s (s +:+ t) = true.
Proof.
  induction s as [|c s IH]; [by destruct t|]. rewrite string_app_cons. cbn.
  by destruct (ascii_dec c c).
Qed.

Lemma Contains_app a s b : Contains (a +:+ s +:+ b) s = true.
Proof.
  induction a as [|c a IH].
  - rewrite string_app_nil. pose proof (prefix_app s b) as Hp. revert Hp.
    generalize (s +:+ b). intros x Hp. destruct x; cbn [Contains]; by rewrite Hp.
  - rewrite string_app_cons. cbn [Contains]. rewrite IH. apply orb_true_r.
Qed.
End Strings.
