(* ===== verification/K8s.v ===== *)
(** Third-party functions the modelled code calls, as interfaces: the IP family
    helpers of [k8s.io/utils/net] and the slice helper of admiral.  Their code
    is not part of the repository, so they are fields of classes the model is
    parametrised by; the [*Laws] classes state their documented behaviour and
    the [*_ref] values are concrete functions showing the laws can hold. *)
From stdpp Require Import base gmap list strings.
From Stdlib Require Import ZArith Lia.
From S2P Require Import Prelude GoNet.

(** [k8snet.IPFamily], a string type with three values. *)
Inductive IPFamily := IPFamilyUnknown | IPv4 | IPv6.

#[global] Instance IPFamily_eq_dec : EqDecision IPFamily.
Proof. solve_decision. Defined.

Definition family_code (f : IPFamily) : nat :=
  match f with IPFamilyUnknown => 0 | IPv4 => 1 | IPv6 => 2 end.

Definition family_of_code (n : nat) : IPFamily :=
  match n with 1 => IPv4 | 2 => IPv6 | _ => IPFamilyUnknown end.

#[global] Instance IPFamily_countable : Countable IPFamily.
Proof. refine (inj_countable' family_code family_of_code _). by intros []. Defined.

(** [string(family)]. *)
Definition family_str (f : IPFamily) : string :=
  match f with IPFamilyUnknown => "" | IPv4 => "4" | IPv6 => "6" end.

Class K8sNet := {
  IPFamilyOfString : string -> IPFamily;
  IPFamilyOfCIDRString : string -> IPFamily;
  IPFamilyOfCIDR : Net.IPNet -> IPFamily;
  IPFamilyOf : Net.IP -> IPFamily;
}.

Class K8sNetLaws `{K8sNet} := {
  (** The empty string is no address. *)
  family_of_empty : IPFamilyOfString "" = IPFamilyUnknown;
  (** The family of an address is decided by its 4-byte form. *)
  family_of_ip4 : forall ip, length (Net.To4 ip) = 4%nat -> IPFamilyOf ip = IPv4;
  family_of_ip6 : forall ip, Net.To4 ip = [] -> length ip = 16%nat -> IPFamilyOf ip = IPv6;
}.

(** admiral's [slices.AppendIfNotPresent] at identity keys. *)
Class AdmiralSlices := {
  AppendIfNotPresent : list IPFamily -> IPFamily -> list IPFamily;
}.

Class AdmiralSlicesLaws `{AdmiralSlices} := {
  append_present : forall l f, f ∈ l -> AppendIfNotPresent l f = l;
  append_absent : forall l f, f ∉ l -> AppendIfNotPresent l f = l ++ [f];
}.

(** Concrete instances. *)
Definition family_of_ip_ref (ip : Net.IP) : IPFamily :=
  if (length (Net.To4 ip) =? 4)%nat then IPv4
  else if (length ip =? 16)%nat then IPv6 else IPFamilyUnknown.

Definition k8snet_ref : K8sNet := {|
  IPFamilyOfString s := family_of_ip_ref (Net.ParseIP s);
  IPFamilyOfCIDRString s :=
    match Net.ParseCIDR s with
    | Some n => family_of_ip_ref (Net.net_IP n)
    | None => IPFamilyUnknown
    end;
  IPFamilyOfCIDR n := family_of_ip_ref (Net.net_IP n);
  IPFamilyOf := family_of_ip_ref;
|}.

Definition slices_ref : AdmiralSlices := {|
  AppendIfNotPresent l f := if bool_decide (f ∈ l) then l else l ++ [f];
|}.

Lemma k8snet_ref_laws : @K8sNetLaws k8snet_ref.
Proof.
  split.
  - reflexivity.
  - intros ip H. simpl. unfold family_of_ip_ref. by rewrite H.
  - intros ip H H'. simpl. unfold family_of_ip_ref. by rewrite H, H'.
Qed.

Lemma slices_ref_laws : @AdmiralSlicesLaws slices_ref.
Proof.
  split; intros l f H; simpl.
  - by rewrite bool_decide_true.
  - by rewrite bool_decide_false.
Qed.
