(* ===== verification/Cidr.v ===== *)
(** CIDR arithmetic of [pkg/cidr/iputil.go]: overlap, containment and family
    filters over textual CIDR lists, with the proof that the comparisons of
    network addresses the code makes decide intersection and inclusion of the
    sets of addresses. *)
From stdpp Require Import base gmap list strings fin_maps.
From Stdlib Require Import ZArith Lia.
From S2P Require Import Prelude GoNet K8s.
Import Net.
Local Open Scope Z_scope.

Module Cidr.

(** Errors of the package: a CIDR that does not parse, a local CIDR that
    overlaps the remote subnets. *)
Inductive cidr_error :=
| ErrParsing (cidr : string)
| ErrServiceOverlap (cidr : string) (remote : list string)
| ErrPodOverlap (cidr : string) (remote : list string).

#[global] Instance cidr_error_eq_dec : EqDecision cidr_error.
Proof. solve_decision. Defined.

(** The loop of [IsOverlapping] over the list, [newNet] parsed. *)
Fixpoint overlap_loop (newNet : IPNet) (cidrList : list string) : result cidr_error bool :=
  match cidrList with
  | [] => Ok false
  | v :: rest =>
      match ParseCIDR v with
      | None => Err (ErrParsing v)
      | Some baseNet =>
          if Contains baseNet (net_IP newNet) || Contains newNet (net_IP baseNet)
          then Ok true else overlap_loop newNet rest
      end
  end.

Definition IsOverlapping (cidrList : list string) (cidr : string) : result cidr_error bool :=
  match ParseCIDR cidr with
  | None => Err (ErrParsing cidr)
  | Some newNet => overlap_loop newNet cidrList
  end.

(** One iteration of [IsContained]: mask widths equal, the outer prefix not
    longer, and the inner network address inside. *)
Definition contains_net (outer inner : IPNet) : bool :=
  let '(innerOnes, innerBits) := mask_size (net_Mask inner) in
  let '(outerOnes, outerBits) := mask_size (net_Mask outer) in
  (outerBits =? innerBits) && (outerOnes <=? innerOnes) && Contains outer (net_IP inner).

Fixpoint contain_loop (innerNet : IPNet) (outerList : list string) : result cidr_error bool :=
  match outerList with
  | [] => Ok false
  | o :: rest =>
      match ParseCIDR o with
      | None => Err (ErrParsing o)
      | Some outerNet =>
          if contains_net outerNet innerNet then Ok true else contain_loop innerNet rest
      end
  end.

Definition IsContained (outerList : list string) (inner : string) : result cidr_error bool :=
  match ParseCIDR inner with
  | None => Err (ErrParsing inner)
  | Some innerNet => contain_loop innerNet outerList
  end.

(** The two loops of [OverlappingSubnets]; a parse error is logged and the
    CIDR taken as not overlapping. *)
Fixpoint first_overlap (remoteSubnets cidrs : list string) : option string :=
  match cidrs with
  | [] => None
  | c :: rest =>
      if from_result false (IsOverlapping remoteSubnets c) then Some c
      else first_overlap remoteSubnets rest
  end.

Definition OverlappingSubnets (localServiceCIDRs localPodCIDRs remoteSubnets : list string)
  : result cidr_error unit :=
  match first_overlap remoteSubnets localServiceCIDRs with
  | Some c => Err (ErrServiceOverlap c remoteSubnets)
  | None =>
      match first_overlap remoteSubnets localPodCIDRs with
      | Some c => Err (ErrPodOverlap c remoteSubnets)
      | None => Ok tt
      end
  end.

Section families.
Context `{K8sNet} `{AdmiralSlices}.

Fixpoint ExtractSubnets (family : IPFamily) (cidrList : list string) : list string :=
  match cidrList with
  | [] => []
  | subnet :: rest =>
      if IPFamilyOfCIDRString subnet =?? family
      then subnet :: ExtractSubnets family rest
      else ExtractSubnets family rest
  end.

Definition add_family (ipFamilies : list IPFamily) (cidr : string) : list IPFamily :=
  let f := IPFamilyOfCIDRString cidr in
  if f =?? IPFamilyUnknown then ipFamilies else AppendIfNotPresent ipFamilies f.

Definition ExtractIPFamilies (fromCIDRs : list string) : list IPFamily :=
  foldl add_family [] fromCIDRs.
End families.

(** * Address sets

    The specification side: a network in its shortest form is the set of the
    addresses (byte strings of its length) that agree with it on its mask. *)
Definition is_byte (b : Z) : Prop := 0 <= b < 256.

Definition in_net (n : IPNet) (a : IP) : Prop :=
  let '(nn, m) := networkNumberAndMask n in
  Forall is_byte a /\ length a = length nn /\ land_bytes a m = nn.

(** The shape of a parsed network: [nn] masked by a prefix of [k] ones. *)
Record net_shape (n : IPNet) (nn : list Z) (k : Z) : Prop := {
  shape_norm : networkNumberAndMask n = (nn, CIDRMask k (length nn));
  shape_len : length nn = 4%nat \/ length nn = 16%nat;
  shape_masked : land_bytes nn (CIDRMask k (length nn)) = nn;
  shape_bytes : Forall is_byte nn;
  shape_short : length nn = 16%nat -> To4 nn = [];
  shape_ip : (if (length (To4 (net_IP n)) =? 4)%nat then To4 (net_IP n) else net_IP n) = nn;
  shape_ones : 0 <= k <= 8 * Z.of_nat (length nn);
}.

(** * Lemmas on masks *)

Lemma mask_byte_clamp i : exists j, 0 <= j <= 8 /\ mask_byte i = mask_byte j /\
  (forall k, mask_byte k = mask_byte (Z.max 0 (Z.min 8 k))) /\ j = Z.max 0 (Z.min 8 i).
Proof.
  exists (Z.max 0 (Z.min 8 i)).
  assert (forall k, mask_byte k = mask_byte (Z.max 0 (Z.min 8 k))) as Hc.
  { intros k. unfold mask_byte.
    destruct (Z.leb_spec k 0); [by rewrite Z.max_l by lia|].
    destruct (Z.leb_spec 8 k).
    - by replace (Z.max 0 (Z.min 8 k)) with 8 by lia.
    - replace (Z.max 0 (Z.min 8 k)) with k by lia.
      destruct (Z.leb_spec k 0); [lia|]. destruct (Z.leb_spec 8 k); [lia|done]. }
  repeat split; [lia|lia|apply Hc|done].
Qed.

Ltac byte_cases i :=
  let H := fresh in
  assert (i = 0 \/ i = 1 \/ i = 2 \/ i = 3 \/ i = 4 \/ i = 5 \/ i = 6 \/ i = 7 \/ i = 8) as H by lia;
  destruct H as [->|[->|[->|[->|[->|[->|[->|[->| ->]]]]]]]].

Lemma mask_byte_range i : is_byte (mask_byte i).
Proof.
  destruct (mask_byte_clamp i) as (j & Hj & -> & _).
  byte_cases j; unfold is_byte; vm_compute; split; congruence.
Qed.

Lemma mask_byte_mono a b : a <= b -> Z.land (mask_byte a) (mask_byte b) = mask_byte a.
Proof.
  intros Hab.
  destruct (mask_byte_clamp a) as (i & Hi & -> & _ & Ei).
  destruct (mask_byte_clamp b) as (j & Hj & -> & _ & Ej).
  assert (i <= j) by lia. clear Ei Ej Hab a b.
  byte_cases i; byte_cases j; first [lia | reflexivity].
Qed.

(** A byte mask that keeps the complement of another at zero is not longer. *)
Lemma mask_byte_order a b :
  Z.land (Z.lxor 255 (mask_byte a)) (mask_byte b) = 0 -> Z.max 0 (Z.min 8 b) <= Z.max 0 (Z.min 8 a).
Proof.
  destruct (mask_byte_clamp a) as (i & Hi & -> & _ & <-).
  destruct (mask_byte_clamp b) as (j & Hj & -> & _ & <-).
  intros H. revert H. byte_cases i; byte_cases j; vm_compute; congruence.
Qed.

Lemma length_CIDRMask k n : length (CIDRMask k n) = n.
Proof. revert k; induction n; intros; simpl; auto. Qed.

Lemma length_land a m : length a = length m -> length (land_bytes a m) = length a.
Proof. intros. unfold land_bytes. rewrite length_zip_with. lia. Qed.

(** Masking by a longer prefix first changes nothing. *)
Lemma land_prefix_trans a k1 k2 n : k1 <= k2 ->
  land_bytes (land_bytes a (CIDRMask k2 n)) (CIDRMask k1 n) = land_bytes a (CIDRMask k1 n).
Proof.
  revert a k1 k2; induction n as [|n IH]; intros [|x a] k1 k2 Hk; simpl; try done.
  f_equal.
  - rewrite <-Z.land_assoc, (Z.land_comm (mask_byte k2)), mask_byte_mono by done. done.
  - apply IH. lia.
Qed.

Lemma land_prefix_idem a k n :
  land_bytes (land_bytes a (CIDRMask k n)) (CIDRMask k n) = land_bytes a (CIDRMask k n).
Proof. apply land_prefix_trans. lia. Qed.

Lemma byte_land_255 x : is_byte x -> Z.land x 255 = x.
Proof. intros H. change 255 with (Z.ones 8). rewrite Z.land_ones by lia. by apply Z.mod_small. Qed.

Lemma byte_land x y : is_byte x -> is_byte (Z.land x y).
Proof.
  intros Hx. unfold is_byte. rewrite <-(byte_land_255 x) by done.
  rewrite <-Z.land_assoc, (Z.land_comm 255), Z.land_assoc.
  change 255 with (Z.ones 8). rewrite Z.land_ones by lia.
  apply Z.mod_pos_bound. lia.
Qed.

Lemma bytes_land a m : Forall is_byte a -> Forall is_byte (land_bytes a m).
Proof.
  intros Ha. revert m. induction Ha as [|x a Hx Ha IH]; intros [|y m]; simpl; constructor.
  - by apply byte_land.
  - apply IH.
Qed.

Lemma bytes_CIDRMask k n : Forall is_byte (CIDRMask k n).
Proof. revert k; induction n; intros; simpl; constructor; auto using mask_byte_range. Qed.

Lemma drop_CIDRMask d k n : drop d (CIDRMask k (d + n)) = CIDRMask (k - 8 * Z.of_nat d) n.
Proof.
  revert k; induction d as [|d IH]; intros k; cbn [CIDRMask drop Nat.add skipn].
  - by replace (k - 8 * Z.of_nat 0) with k by lia.
  - rewrite IH. f_equal. rewrite Nat2Z.inj_succ. lia.
Qed.

Lemma take_CIDRMask d k n : take d (CIDRMask k (d + n)) = CIDRMask k d.
Proof. revert k; induction d as [|d IH]; intros k; simpl; [done|]. by rewrite IH. Qed.
#[export] Hint Resolve bytes_land bytes_CIDRMask length_CIDRMask : submariner.

(** * Parsed addresses are 4 or 16 bytes *)

Lemma digit_range c : Strconv.is_digit c = true -> 0 <= Strconv.digit c <= 9.
Proof. unfold Strconv.is_digit, Strconv.digit. intros. bool_props. lia. Qed.

Lemma hex_digit_range c d : Strconv.hex_digit c = Some d -> 0 <= d <= 15.
Proof.
  unfold Strconv.hex_digit. repeat case_match; intros; simplify_eq; bool_props; lia.
Qed.

Lemma parse_ipv4_fields_wf s val dl acc fst pd r :
  parse_ipv4_fields s val dl acc fst pd = Some r ->
  is_byte val -> Forall is_byte acc -> (length acc <= 3)%nat ->
  length r = 4%nat /\ Forall is_byte r.
Proof.
  revert val dl acc fst pd. induction s as [|c s IH]; intros val dl acc fst pd; simpl.
  - destruct (Nat.ltb_spec (length acc) 3); [done|]. intros [= <-] Hv Ha Hl.
    rewrite length_app, length_rev. simpl. split; [lia|].
    apply Forall_app; split; [by apply Forall_rev | by constructor].
  - destruct (Strconv.is_digit c) eqn:Hd.
    + case_match; [done|].
      destruct (Z.ltb_spec 255 (val * 10 + Strconv.digit c)); [done|].
      intros Hr Hv Ha Hl. apply digit_range in Hd.
      eapply IH; eauto. unfold is_byte in *. lia.
    + case_match; [|done]. case_match; [done|].
      destruct (Nat.eqb_spec (length acc) 3); [done|].
      intros Hr Hv Ha Hl. eapply IH; eauto; [unfold is_byte; lia | simpl; lia].
Qed.

Lemma parse_group_range s off acc v off' rest :
  parse_group s off acc = Some (v, off', rest) ->
  0 <= off <= 4 -> 0 <= acc < 16 ^ off -> 0 <= v < 65536.
Proof.
  revert off acc. induction s as [|c s IH]; intros off acc; simpl.
  - intros [= <- <- <-] Ho Ha. assert (16 ^ off <= 16 ^ 4) by (apply Z.pow_le_mono_r; lia). lia.
  - destruct (Strconv.hex_digit c) as [d|] eqn:Hd.
    + destruct (Z.ltb_spec 3 off); [done|]. intros Hr Ho Ha. apply hex_digit_range in Hd.
      eapply IH; [done|lia|]. rewrite Z.pow_add_r by lia. lia.
    + intros [= <- <- <-] Ho Ha. assert (16 ^ off <= 16 ^ 4) by (apply Z.pow_le_mono_r; lia). lia.
Qed.

Lemma parse_ipv6_loop_wf fuel s ip ell s' ip' ell' :
  parse_ipv6_loop fuel s ip ell = Some (s', ip', ell') ->
  (length ip + 2 * fuel = 16)%nat -> Forall is_byte ip ->
  (length ip' <= 16)%nat /\ Forall is_byte ip'.
Proof.
  revert s ip ell. induction fuel as [|fuel IH]; intros s ip ell; simpl.
  { intros [= <- <- <-] Hl Hb. split; [lia|done]. }
  destruct (parse_group s 0 0) as [[[acc off] rest]|] eqn:Hg; [|done].
  apply parse_group_range in Hg; [|lia|lia].
  assert (forall ip, Forall is_byte ip -> Forall is_byte (ip ++ [acc / 256; acc mod 256])) as Hst.
  { intros l Hl. apply Forall_app; split; [done|].
    repeat constructor; try (apply Z.mod_pos_bound; lia);
      [apply Z.div_pos; lia | apply Z.div_lt_upper_bound; lia]. }
  assert (forall ip : list Z, length (ip ++ [acc / 256; acc mod 256]) = (length ip + 2)%nat) as Hlen.
  { intros l. by rewrite length_app. }
  case_match; [done|]. destruct rest as [|c rest].
  { intros [= <- <- <-] Hl Hb. rewrite Hlen. split; [lia|by apply Hst]. }
  case_match.
  { case_match; [done|]. destruct (Nat.ltb_spec 16 (length ip + 4)); [done|].
    destruct (parse_ipv4 s) as [f|] eqn:Hf; [|done]. intros [= <- <- <-] Hl Hb.
    eapply parse_ipv4_fields_wf in Hf as [Hf1 Hf2]; [|unfold is_byte; lia|constructor|simpl; lia].
    rewrite length_app. split; [lia|]. by apply Forall_app. }
  case_match; [done|]. destruct rest as [|c2 rest]; [done|]. case_match.
  - destruct ell; [done|]. destruct rest as [|c3 rest].
    + intros [= <- <- <-] Hl Hb. rewrite Hlen. split; [lia|by apply Hst].
    + intros Hr Hl Hb. eapply IH; [done| |by apply Hst]. rewrite Hlen. lia.
  - intros Hr Hl Hb. eapply IH; [done| |by apply Hst]. rewrite Hlen. lia.
Qed.

Lemma parse_ipv6_wf s r : parse_ipv6 s = Some r -> length r = 16%nat /\ Forall is_byte r.
Proof.
  unfold parse_ipv6. destruct (match s with [] => _ | _ => _ end) as [s' ell]. case_match.
  { intros [= <-]. split; [done|]. repeat constructor; unfold is_byte; lia. }
  destruct (parse_ipv6_loop 8 s' [] ell) as [[[s2 ip] ell2]|] eqn:Hl; [|done].
  destruct s2; [|done].
  apply parse_ipv6_loop_wf in Hl as [Hl Hb]; [|done|constructor].
  destruct (Nat.ltb_spec (length ip) 16).
  - destruct ell2 as [e|]; [|done]. intros [= <-].
    rewrite !length_app, length_replicate. split.
    + pose proof (take_drop e ip) as Ht. apply (f_equal length) in Ht.
      rewrite length_app in Ht. lia.
    + rewrite !Forall_app. repeat split; [by apply Forall_take| |by apply Forall_drop].
      apply Forall_replicate. unfold is_byte; lia.
  - destruct ell2; [done|]. intros [= <-]. split; [lia|done].
Qed.

Lemma parse_addr_wf s r :
  parse_addr s = Some r -> (length r = 4%nat \/ length r = 16%nat) /\ Forall is_byte r.
Proof.
  unfold parse_addr. case_match; [done|]. case_match; [|case_match; [|done]].
  - intros Hr. eapply parse_ipv4_fields_wf in Hr as [? ?]; [|unfold is_byte; lia|constructor|simpl; lia].
    auto.
  - intros Hr. apply parse_ipv6_wf in Hr as [? ?]. auto.
Qed.

Lemma dtoi_all_nonneg s n r : dtoi_all s n = Some r -> 0 <= n -> 0 <= r.
Proof.
  revert n. induction s as [|c s IH]; intros n; simpl; [by intros [= ->]|].
  destruct (Strconv.is_digit c) eqn:Hd; [|done]. apply digit_range in Hd.
  case_match; [done|]. intros Hr Hn. eapply IH; [done|lia].
Qed.

Lemma land_bytes_drop d a m : drop d (land_bytes a m) = land_bytes (drop d a) (drop d m).
Proof. unfold land_bytes. revert a m. induction d; intros [|x a] [|y m]; simpl; auto. by destruct drop. Qed.

Lemma To4_of4 ip : length ip = 4%nat -> To4 ip = ip.
Proof. intros H. unfold To4. by rewrite H. Qed.

Lemma To4_of16 ip : length ip = 16%nat ->
  (take 12 ip = v4InV6Prefix /\ To4 ip = drop 12 ip) \/ To4 ip = [].
Proof.
  intros H. unfold To4. rewrite H. simpl. case_bool_decide; [left; done|by right].
Qed.

(** A masked 16-byte address in the IPv4-mapped range has at least 96 ones. *)
Lemma mapped_ones a k : length a = 16%nat -> Forall is_byte a ->
  take 12 (land_bytes a (CIDRMask k 16)) = v4InV6Prefix -> 96 <= k.
Proof.
  intros Hl Hb Ht.
  assert (land_bytes a (CIDRMask k 16) !! 11%nat = Some 255) as Hi.
  { rewrite <-(lookup_take_lt _ 12) by lia. by rewrite Ht. }
  unfold land_bytes in Hi. rewrite lookup_zip_with in Hi.
  destruct (a !! 11%nat) as [x|] eqn:Hx; [|done]. simpl in Hi. injection Hi as Hi.
  destruct (mask_byte_clamp (k - 88)) as (j & Hj & Hm & _ & Ej).
  assert (k - 8 - 8 - 8 - 8 - 8 - 8 - 8 - 8 - 8 - 8 - 8 = k - 88) as Hk by lia.
  rewrite Hk, Hm in Hi.
  rewrite (Forall_lookup is_byte a) in Hb. specialize (Hb _ _ Hx).
  assert (j = 8); [|lia].
  assert (Z.land 255 (mask_byte j) = 255) as H255.
  { rewrite <-Hi at 1. rewrite <-Z.land_assoc, Z.land_diag. done. }
  byte_cases j; try done; exfalso; vm_compute in H255; congruence.
Qed.

Lemma CIDRMask_nil_ones k n : k <= 0 -> forallb (Z.eqb 0) (CIDRMask k n) = true.
Proof.
  revert k. induction n as [|n IH]; intros k Hk; simpl; [done|].
  rewrite IH by lia. unfold mask_byte. by destruct (Z.leb_spec k 0); [|lia].
Qed.

Lemma mask_ones_CIDRMask k n :
  mask_ones (CIDRMask k n) = Z.max 0 (Z.min k (8 * Z.of_nat n)).
Proof.
  revert k. induction n as [|n IH]; intros k; [simpl; lia|].
  cbn [CIDRMask mask_ones]. rewrite IH, Nat2Z.inj_succ.
  destruct (Z.le_gt_cases 8 k) as [Hk|Hk].
  - unfold mask_byte at 1. destruct (Z.leb_spec k 0); [lia|]. destruct (Z.leb_spec 8 k); [|lia].
    rewrite Z.eqb_refl. destruct (Z.ltb_spec (Z.max 0 (Z.min (k - 8) (8 * Z.of_nat n))) 0); lia.
  - rewrite CIDRMask_nil_ones by lia.
    assert (mask_byte k = mask_byte (Z.max 0 k)) as ->.
    { destruct (mask_byte_clamp k) as (j & _ & -> & _ & ->). f_equal. lia. }
    replace (Z.max 0 (Z.min k (8 * Z.succ (Z.of_nat n)))) with (Z.max 0 k) by lia.
    generalize (Z.max 0 k), (Z.le_max_l 0 k), (Z.max_lub_lt 0 k 8 eq_refl Hk).
    intros j H1 H2. byte_cases j; try lia; reflexivity.
Qed.

Lemma mask_size_CIDRMask k n : 0 <= k <= 8 * Z.of_nat n ->
  mask_size (CIDRMask k n) = (k, 8 * Z.of_nat n).
Proof.
  intros Hk. unfold mask_size. rewrite mask_ones_CIDRMask, length_CIDRMask.
  rewrite Z.min_l, Z.max_r by lia. destruct (Z.eqb_spec k (-1)); [lia|done].
Qed.

(** What parsing gives: a mask of [k'] ones on [w] bytes, and the network
    number [nn] in its shortest form with the ones it keeps. *)
Record parsed_net (n : IPNet) (nn : list Z) (k k' : Z) (w : nat) : Prop := {
  parsed_shape : net_shape n nn k;
  parsed_mask : net_Mask n = CIDRMask k' w;
  parsed_ones : 0 <= k' <= 8 * Z.of_nat w;
  parsed_shift : k = k' - 8 * (Z.of_nat w - Z.of_nat (length nn));
}.

(** Decide the length tests of the network code from known lengths. *)
Ltac lengths := repeat (progress match goal with
  | H : length ?l = _ |- context [length ?l] => rewrite H
  | H : To4 _ = _ |- _ => rewrite H
  | |- _ => progress cbn [Nat.eqb negb andb length]
  end).

Lemma norm_ipv4 ip m : length ip = 4%nat -> length m = 4%nat ->
  networkNumberAndMask {| net_IP := ip; net_Mask := m |} = (ip, m).
Proof.
  intros Hi Hm. unfold networkNumberAndMask. cbn [net_IP net_Mask].
  rewrite To4_of4 by done. by lengths.
Qed.

Lemma norm_ipv6 ip m : length ip = 16%nat -> length m = 16%nat -> To4 ip = [] ->
  networkNumberAndMask {| net_IP := ip; net_Mask := m |} = (ip, m).
Proof.
  intros Hi Hm H4. unfold networkNumberAndMask. cbn [net_IP net_Mask].
  by lengths.
Qed.

Lemma norm_mapped ip m : length ip = 16%nat -> length m = 16%nat -> To4 ip = drop 12 ip ->
  networkNumberAndMask {| net_IP := ip; net_Mask := m |} = (drop 12 ip, drop 12 m).
Proof.
  intros Hi Hm H4. unfold networkNumberAndMask. cbn [net_IP net_Mask].
  assert (length (drop 12 ip) = 4%nat) as Hd by (rewrite length_drop; lia).
  by lengths.
Qed.

Lemma parsed_net_of_ipv4 a k : length a = 4%nat -> Forall is_byte a -> 0 <= k <= 32 ->
  parsed_net {| net_IP := land_bytes a (CIDRMask k 4); net_Mask := CIDRMask k 4 |}
             (land_bytes a (CIDRMask k 4)) k k 4.
Proof.
  intros Hl Hb Hk.
  assert (length (land_bytes a (CIDRMask k 4)) = 4%nat) as Hl'.
  { rewrite length_land; [done|]. by rewrite length_CIDRMask. }
  split; [split|..]; cbn [net_IP net_Mask]; rewrite ?Hl'; try done; try lia.
  - apply norm_ipv4; [done|]. by rewrite length_CIDRMask.
  - apply land_prefix_idem.
  - by apply bytes_land.
  - rewrite To4_of4 by done. by rewrite Hl'.
Qed.

Lemma parsed_net_of_ipv6 a k : length a = 16%nat -> Forall is_byte a -> 0 <= k <= 128 ->
  exists nn k', parsed_net {| net_IP := land_bytes a (CIDRMask k 16); net_Mask := CIDRMask k 16 |}
             nn k' k 16.
Proof.
  intros Hl Hb Hk. set (ip := land_bytes a (CIDRMask k 16)).
  assert (length ip = 16%nat) as Hl'.
  { unfold ip. rewrite length_land; [done|]. by rewrite length_CIDRMask. }
  assert (Forall is_byte ip) as Hb' by (by apply bytes_land).
  assert (drop 12 (CIDRMask k 16) = CIDRMask (k - 96) 4) as Hd
    by (apply (drop_CIDRMask 12 k 4)).
  assert (land_bytes ip (CIDRMask k 16) = ip) as Hidem by (apply land_prefix_idem).
  destruct (To4_of16 ip Hl') as [[Ht H4]|H4].
  - exists (drop 12 ip), (k - 96). pose proof (mapped_ones a k Hl Hb Ht).
    assert (length (drop 12 ip) = 4%nat) as Hl4 by (rewrite length_drop; lia).
    split; [split|..]; cbn [net_IP net_Mask]; rewrite ?Hl4; try done; try lia.
    + rewrite norm_mapped; [by rewrite Hd|done|by rewrite length_CIDRMask|done].
    + rewrite <-Hd, <-land_bytes_drop. by rewrite Hidem.
    + by apply Forall_drop.
    + by rewrite H4, Hl4.
  - exists ip, k. split; [split|..]; cbn [net_IP net_Mask]; rewrite ?Hl'; try done; try lia.
    + apply norm_ipv6; [done| |done]. by rewrite length_CIDRMask.
    + by rewrite H4.
Qed.

Lemma ip_mask_v4 a m : length a = 4%nat -> length m = 4%nat ->
  ip_mask (To16 a) m = land_bytes a m.
Proof.
  intros Ha Hm. unfold ip_mask, To16. lengths.
  by destruct a as [|? [|? [|? [|? [|]]]]].
Qed.

Lemma ip_mask_v6 a m : length a = 16%nat -> length m = 16%nat ->
  ip_mask (To16 a) m = land_bytes a m.
Proof. intros Ha Hm. unfold ip_mask, To16. by lengths. Qed.

Lemma ParseCIDR_parsed s n : ParseCIDR s = Some n ->
  exists nn k k' w, parsed_net n nn k k' w.
Proof.
  unfold ParseCIDR. destruct (cut_slash _) as [[addr mask]|]; [|done].
  destruct (parse_addr addr) as [a|] eqn:Ha; [|done].
  destruct (dtoi mask) as [k|] eqn:Hk; [|done].
  assert (0 <= k) by (destruct mask; [done|]; eapply dtoi_all_nonneg; [done|lia]).
  apply parse_addr_wf in Ha as [Hl Hb].
  destruct (Z.ltb_spec (8 * Z.of_nat (length a)) k) as [|Hle]; [done|].
  intros <-%(inj Some).
  destruct Hl as [Hl|Hl]; rewrite Hl in *.
  - rewrite ip_mask_v4 by auto using length_CIDRMask.
    eexists _, _, _, _. apply parsed_net_of_ipv4; [done|done|lia].
  - rewrite ip_mask_v6 by auto using length_CIDRMask.
    destruct (parsed_net_of_ipv6 a k Hl Hb) as (nn & k1 & Hp); [lia|]. eauto.
Qed.

(** * Comparing networks is comparing address sets *)

(** The normalisation [Contains] applies to the address of a parsed network
    gives its network number. *)
Lemma Contains_net n b nn k k' w nb kb kb' wb :
  parsed_net n nn k k' w -> parsed_net b nb kb kb' wb ->
  Contains n (net_IP b) = true <-> in_net n nb.
Proof.
  intros [Hn _ _ _] [Hb _ _ _]. unfold Contains, in_net.
  rewrite (shape_norm _ _ _ Hn), (shape_ip _ _ _ Hb), (shape_masked _ _ _ Hn).
  split.
  - intros H. bool_props. apply Nat.eqb_eq in H.
    split; [apply Hb|]. split; [done|]. done.
  - intros (_ & Hl & Hm). rewrite Hl, Nat.eqb_refl. by rewrite bool_decide_true.
Qed.

Lemma in_net_self n nn k k' w : parsed_net n nn k k' w -> in_net n nn.
Proof.
  intros [Hn _ _ _]. unfold in_net. rewrite (shape_norm _ _ _ Hn).
  split; [apply Hn|]. split; [done|apply Hn].
Qed.

(** The network with the shorter prefix contains every address the other
    network shares with it. *)
Lemma in_net_shorter n b nn k k' w nb kb kb' wb a :
  parsed_net n nn k k' w -> parsed_net b nb kb kb' wb -> k <= kb ->
  in_net n a -> in_net b a -> in_net n nb.
Proof.
  intros [Hn _ _ _] [Hb _ _ _] Hk. unfold in_net.
  rewrite (shape_norm _ _ _ Hn), (shape_norm _ _ _ Hb).
  intros (Ha & Hl & Hm) (_ & Hl' & Hm'). rewrite Hl in Hl'.
  split; [apply Hb|]. split; [done|].
  rewrite <-Hm', <-Hl'. rewrite land_prefix_trans by done. done.
Qed.

Lemma overlap_iff n b nn k k' w nb kb kb' wb :
  parsed_net n nn k k' w -> parsed_net b nb kb kb' wb ->
  Contains b (net_IP n) || Contains n (net_IP b) = true <->
  exists a, in_net b a /\ in_net n a.
Proof.
  intros Hn Hb. rewrite orb_true_iff.
  rewrite (Contains_net b n _ _ _ _ _ _ _ _ Hb Hn), (Contains_net n b _ _ _ _ _ _ _ _ Hn Hb).
  split.
  - intros [H|H]; [exists nn | exists nb]; split; eauto using in_net_self.
  - intros (a & H1 & H2). destruct (Z.le_ge_cases k kb) as [Hk|Hk].
    + right. eapply (in_net_shorter n b); eauto.
    + left. eapply (in_net_shorter b n); eauto.
Qed.

(** The last address of a network: every bit outside the mask set. *)
Definition broadcast (nn m : list Z) : list Z := zip_with (fun x y => Z.lor x (Z.lxor 255 y)) nn m.

Lemma land_not x y : is_byte x -> Z.land x y = x -> Z.land x (Z.lxor 255 y) = 0.
Proof.
  intros Hx Hm. rewrite <-Hm, <-Z.land_assoc. apply Z.bits_inj'. intros i Hi.
  rewrite !Z.land_spec, Z.lxor_spec, Z.bits_0.
  destruct (Z.testbit y i), (Z.testbit x i) eqn:E; rewrite ?andb_false_r; try done.
  rewrite xorb_true_r. simpl. 
  rewrite <-(byte_land_255 x), Z.land_spec in E by done.
  apply andb_true_iff in E as [_ ->]. done.
Qed.

Lemma byte_lor_mask x i : is_byte x -> is_byte (Z.lor x (Z.lxor 255 (mask_byte i))).
Proof.
  intros Hx. assert (is_byte (Z.lxor 255 (mask_byte i))) as Hy.
  { destruct (mask_byte_clamp i) as (j & Hj & -> & _).
    byte_cases j; unfold is_byte; vm_compute; split; congruence. }
  unfold is_byte in *. split; [apply Z.lor_nonneg; lia|].
  rewrite <-(byte_land_255 x), <-(byte_land_255 (Z.lxor _ _)) by done.
  rewrite <-Z.land_lor_distr_l. change 255 with (Z.ones 8) at 2. rewrite Z.land_ones by lia.
  apply Z.mod_pos_bound. lia.
Qed.

Lemma broadcast_in nn k n : length nn = n -> Forall is_byte nn ->
  land_bytes nn (CIDRMask k n) = nn ->
  length (broadcast nn (CIDRMask k n)) = n /\ Forall is_byte (broadcast nn (CIDRMask k n)) /\
  land_bytes (broadcast nn (CIDRMask k n)) (CIDRMask k n) = nn.
Proof.
  intros <-. revert k. induction nn as [|x nn IH]; intros k Hb Hm; simpl; [done|].
  apply Forall_cons in Hb as [Hx Hb]. injection Hm as Hm1 Hm2.
  destruct (IH (k - 8) Hb Hm2) as (H1 & H2 & H3).
  split; [by rewrite H1|]. split.
  - constructor; [by apply byte_lor_mask|done].
  - f_equal; [|done]. rewrite Z.land_lor_distr_l, Hm1.
    replace (Z.land (Z.lxor 255 (mask_byte k)) (mask_byte k)) with 0; [apply Z.lor_0_r|].
    destruct (mask_byte_clamp k) as (j & Hj & -> & _). byte_cases j; reflexivity.
Qed.

(** A network whose first and last addresses agree on a prefix of [kb] ones
    has at least that many ones. *)
Lemma broadcast_order nn k kb n : length nn = n -> Forall is_byte nn ->
  land_bytes nn (CIDRMask k n) = nn ->
  land_bytes (broadcast nn (CIDRMask k n)) (CIDRMask kb n) = land_bytes nn (CIDRMask kb n) ->
  Z.max 0 (Z.min kb (8 * Z.of_nat n)) <= Z.max 0 (Z.min k (8 * Z.of_nat n)).
Proof.
  intros <-. revert k kb. induction nn as [|x nn IH]; intros k kb Hb Hm Hl; [simpl; lia|].
  apply Forall_cons in Hb as [Hx Hb]. cbn [length CIDRMask land_bytes broadcast zip_with] in *.
  injection Hm as Hm1 Hm2. injection Hl as Hl1 Hl2.
  specialize (IH (k - 8) (kb - 8) Hb Hm2 Hl2).
  assert (Z.land (Z.lxor 255 (mask_byte k)) (mask_byte kb) = 0) as H0.
  { rewrite Z.land_lor_distr_l in Hl1.
    apply (f_equal (fun z => Z.land z (Z.lxor 255 (mask_byte k)))) in Hl1.
    rewrite Z.land_lor_distr_l in Hl1.
    rewrite <-!(Z.land_assoc x), !(Z.land_comm (mask_byte kb)), !Z.land_assoc in Hl1.
    rewrite (land_not x) in Hl1 by done.
    rewrite Z.land_0_l, Z.lor_0_l, (Z.land_comm _ (mask_byte kb)), <-Z.land_assoc, Z.land_diag in Hl1.
    by rewrite Z.land_comm. }
  apply mask_byte_order in H0. rewrite Nat2Z.inj_succ. lia.
Qed.

Lemma contains_net_iff outer inner no ko ko' wo ni ki ki' wi :
  parsed_net outer no ko ko' wo -> parsed_net inner ni ki ki' wi ->
  contains_net outer inner = true <->
  length (net_Mask outer) = length (net_Mask inner) /\ (forall a, in_net inner a -> in_net outer a).
Proof.
  intros Ho Hi. pose proof (Contains_net outer inner _ _ _ _ _ _ _ _ Ho Hi) as Hc.
  unfold contains_net. destruct Ho as [Ho Hmo Hoo Hso], Hi as [Hi Hmi Hoi Hsi].
  rewrite Hmo, Hmi, !mask_size_CIDRMask, !length_CIDRMask by done.
  rewrite !andb_true_iff, Z.eqb_eq, Z.leb_le, Hc. unfold in_net in *.
  rewrite (shape_norm _ _ _ Ho), (shape_norm _ _ _ Hi) in *.
  split.
  - intros [[Hw Hk] (_ & Hl & Hm)]. split; [lia|]. intros a (Hab & Hal & Ham).
    split; [done|]. split; [congruence|]. rewrite Hl in Ham. etrans; [|apply Hm].
    rewrite <-Ham. by rewrite land_prefix_trans by lia.
  - intros [-> Hsub].
    destruct (Hsub ni) as (Hb1 & Hl1 & Hm1). { split; [apply Hi|]. split; [done|apply Hi]. }
    destruct (broadcast_in ni ki (length ni)) as (Hl2 & Hb2 & Hm2);
      [done|apply Hi|apply Hi|].
    destruct (Hsub (broadcast ni (CIDRMask ki (length ni)))) as (_ & _ & Hm3); [done|].
    rewrite <-Hl1 in Hm3, Hm1. rewrite <-Hm1 in Hm3.
    apply broadcast_order in Hm3; [|done|apply Hi|apply Hi].
    pose proof (shape_ones _ _ _ Ho). pose proof (shape_ones _ _ _ Hi).
    rewrite <-Hl1 in *. split; [split; [done|lia]|].
    split; [done|]. split; [done|]. done.
Qed.

(** * The list operations *)

(** Every entry of the list is a CIDR. *)
Definition all_parse (l : list string) : Prop := Forall (fun v => is_Some (ParseCIDR v)) l.

(** Two textual CIDRs share an address. *)
Definition share (u v : string) : Prop :=
  exists n b a, ParseCIDR u = Some n /\ ParseCIDR v = Some b /\ in_net n a /\ in_net b a.

(** The CIDR [inner] is one of the same width as [outer] and all its addresses
    are addresses of [outer]. *)
Definition inside (inner outer : string) : Prop :=
  exists n b, ParseCIDR inner = Some n /\ ParseCIDR outer = Some b /\
    length (net_Mask b) = length (net_Mask n) /\ forall a, in_net n a -> in_net b a.

Lemma overlap_loop_spec l u n : ParseCIDR u = Some n -> all_parse l ->
  exists r, overlap_loop n l = Ok r /\ (r = true <-> exists v, v ∈ l /\ share u v).
Proof.
  intros Hn. induction 1 as [|v l [b Hb] Hl IH]; simpl.
  { exists false. split; [done|]. split; [done|]. intros (v & Hv & _). by apply not_elem_of_nil in Hv. }
  destruct (ParseCIDR_parsed _ _ Hn) as (nn & k & k' & w & Hpn).
  destruct (ParseCIDR_parsed _ _ Hb) as (nb & kb & kb' & wb & Hpb).
  pose proof (overlap_iff n b _ _ _ _ _ _ _ _ Hpn Hpb) as Hov. rewrite Hb.
  destruct (Contains b (net_IP n) || Contains n (net_IP b)).
  - exists true. split; [done|]. split; [|done]. intros _. exists v. split; [left|].
    destruct Hov as [[a [H1 H2]] _]; [done|]. by exists n, b, a.
  - destruct IH as (r & Hr & Hiff). exists r. split; [done|]. rewrite Hiff. split.
    + intros (x & Hx & Hs). exists x. split; [by right|done].
    + intros (x & [->|Hx]%elem_of_cons & Hs); [|by exists x].
      destruct Hs as (n1 & b1 & a & E1 & E2 & H1 & H2). simplify_eq.
      destruct Hov as [_ Hov]. discriminate Hov. by exists a.
Qed.

Lemma contain_loop_spec l u n : ParseCIDR u = Some n -> all_parse l ->
  exists r, contain_loop n l = Ok r /\ (r = true <-> exists v, v ∈ l /\ inside u v).
Proof.
  intros Hn. induction 1 as [|v l [b Hb] Hl IH]; simpl.
  { exists false. split; [done|]. split; [done|]. intros (v & Hv & _). by apply not_elem_of_nil in Hv. }
  destruct (ParseCIDR_parsed _ _ Hn) as (nn & k & k' & w & Hpn).
  destruct (ParseCIDR_parsed _ _ Hb) as (nb & kb & kb' & wb & Hpb).
  pose proof (contains_net_iff b n _ _ _ _ _ _ _ _ Hpb Hpn) as Hc. rewrite Hb.
  destruct (contains_net b n).
  - exists true. split; [done|]. split; [|done]. intros _. exists v. split; [left|].
    destruct Hc as [Hc _]. destruct Hc as [H1 H2]; [done|]. by exists n, b.
  - destruct IH as (r & Hr & Hiff). exists r. split; [done|]. rewrite Hiff. split.
    + intros (x & Hx & Hs). exists x. split; [by right|done].
    + intros (x & [->|Hx]%elem_of_cons & Hs); [|by exists x].
      destruct Hs as (n1 & b1 & E1 & E2 & H1 & H2). simplify_eq.
      destruct Hc as [_ Hc]. discriminate Hc. done.
Qed.

Lemma share_sym u v : share u v -> share v u.
Proof. intros (n & b & a & H1 & H2 & H3 & H4). by exists b, n, a. Qed.

(** Without assumptions on the texts: the answer "no" is right. *)
Lemma IsOverlapping_false l u : IsOverlapping l u = Ok false -> all_parse l /\ forall v, v ∈ l -> ~ share u v.
Proof.
  unfold IsOverlapping. destruct (ParseCIDR u) as [n|] eqn:Hn; [|done]. intros Hl.
  assert (Hp : all_parse l).
  { revert Hl. induction l as [|v l IH]; [constructor|]. cbn. destruct (ParseCIDR v) eqn:Hv; [|done].
    destruct (_ || _); [done|]. intros Hl. constructor; [by rewrite Hv|by apply IH]. }
  split; [done|]. destruct (overlap_loop_spec l u n Hn Hp) as (r & Hr & Hiff). intros v Hv Hs.
  assert (Ht : r = true) by (apply Hiff; by exists v). rewrite Hr in Hl. congruence.
Qed.

(** Likewise the answer "yes" of [IsContained]. *)
Lemma IsContained_true l u : IsContained l u = Ok true -> exists o, o ∈ l /\ inside u o.
Proof.
  unfold IsContained. destruct (ParseCIDR u) as [n|] eqn:Hn; [|done].
  destruct (ParseCIDR_parsed _ _ Hn) as (nn & k & k' & w & Hpn).
  induction l as [|v l IH]; [done|]. cbn. destruct (ParseCIDR v) as [b|] eqn:Hb; [|done].
  destruct (ParseCIDR_parsed _ _ Hb) as (nb & kb & kb' & wb & Hpb).
  pose proof (contains_net_iff b n _ _ _ _ _ _ _ _ Hpb Hpn) as Hc. destruct (contains_net b n).
  - intros _. exists v. split; [left|]. destruct Hc as [Hc _]. destruct (Hc eq_refl) as [H1 H2]. by exists n, b.
  - intros Hl. destruct (IH Hl) as (o & Ho & Hi). exists o. split; [by right|done].
Qed.

Lemma overlapping_parsed l u : is_Some (ParseCIDR u) -> all_parse l ->
  exists r, IsOverlapping l u = Ok r /\ (r = true <-> exists v, v ∈ l /\ share u v).
Proof.
  intros [n Hn] Hl. unfold IsOverlapping. rewrite Hn. by apply overlap_loop_spec.
Qed.

Lemma first_overlap_None remote l : all_parse l -> all_parse remote ->
  first_overlap remote l = None <-> forall u v, u ∈ l -> v ∈ remote -> ~ share u v.
Proof.
  intros Hl Hr. induction Hl as [|u l Hu Hl IH]; simpl.
  { split; [|done]. intros _ u v Hu. by apply not_elem_of_nil in Hu. }
  destruct (overlapping_parsed remote u Hu Hr) as (r & -> & Hiff). simpl. destruct r.
  - split; [done|]. intros H. destruct Hiff as [(v & Hv & Hs) _]; [done|].
    exfalso. eapply H; [left|done|done].
  - rewrite IH. split.
    + intros H u' v [->|Hu']%elem_of_cons Hv Hs; [|by eapply H].
      destruct Hiff as [_ Hiff]. discriminate Hiff. by exists v.
    + intros H u' v Hu' Hv. apply H; [by right|done].
Qed.

(** C25: [IsOverlapping] decides whether the CIDR shares an address with some
    CIDR of the list, when every text parses: the comparison of the two
    network addresses under one prefix is exact. *)
Theorem IsOverlapping_correct (cidrList : list string) (cidr : string) :
  all_parse cidrList -> is_Some (ParseCIDR cidr) ->
  exists r, IsOverlapping cidrList cidr = Ok r /\
    (r = true <-> exists v, v ∈ cidrList /\ share cidr v).
Proof. intros Hl Hc. by apply overlapping_parsed. Qed.

(** [IsContained] decides whether all the addresses of the CIDR are
    addresses of one CIDR of the list of the same width. *)
Lemma IsContained_correct (outerList : list string) (inner : string) :
  all_parse outerList -> is_Some (ParseCIDR inner) ->
  exists r, IsContained outerList inner = Ok r /\
    (r = true <-> exists o, o ∈ outerList /\ inside inner o).
Proof.
  intros Hl [n Hn]. unfold IsContained. rewrite Hn. by apply contain_loop_spec.
Qed.

(** on CIDRs that parse, [OverlappingSubnets] reports no error exactly when
    no local service or pod CIDR shares an address with a remote subnet. *)
Lemma OverlappingSubnets_correct (services pods remote : list string) :
  all_parse services -> all_parse pods -> all_parse remote ->
  OverlappingSubnets services pods remote = Ok tt <->
  (forall u v, u ∈ services ++ pods -> v ∈ remote -> ~ share u v).
Proof.
  intros Hs Hp Hr. unfold OverlappingSubnets.
  pose proof (first_overlap_None remote services Hs Hr) as H1.
  pose proof (first_overlap_None remote pods Hp Hr) as H2.
  setoid_rewrite elem_of_app. split.
  - intros H u v [Hu|Hu] Hv.
    + destruct H1 as [H1 _]. apply H1; [|done..]. by destruct first_overlap.
    + destruct H2 as [H2 _]. apply H2; [|done..].
      destruct (first_overlap remote services); [done|]. by destruct first_overlap.
  - intros H. rewrite (proj2 H1) by (intros; apply H; auto).
    by rewrite (proj2 H2) by (intros; apply H; auto).
Qed.

Definition ex_local : list string := ["10.0.0.0/14"; "100.96.0.0/12"].
Definition ex_remote : list string := ["10.4.0.0/16"; "2002::1234:abcd:ffff:c0a8:101/64"].

Lemma ex_parse : all_parse ex_local /\ all_parse ex_remote.
Proof. split; repeat constructor; vm_compute; eauto. Qed.

Lemma IsOverlapping_correct_witness :
  exists r, IsOverlapping ex_remote "10.5.6.7/14" = Ok r /\
    (r = true <-> exists v, v ∈ ex_remote /\ share "10.5.6.7/14" v).
Proof.
  apply IsOverlapping_correct; [apply ex_parse|]. vm_compute. eauto.
Defined.

Lemma IsContained_correct_witness :
  exists r, IsContained ex_local "10.1.0.0/16" = Ok r /\
    (r = true <-> exists v, v ∈ ex_local /\ inside "10.1.0.0/16" v).
Proof.
  apply IsContained_correct; [apply ex_parse|]. vm_compute. eauto.
Defined.

Lemma OverlappingSubnets_correct_witness :
  OverlappingSubnets ex_local [] ex_remote = Ok tt <->
  (forall u v, u ∈ ex_local ++ [] -> v ∈ ex_remote -> ~ share u v).
Proof.
  apply OverlappingSubnets_correct; [apply ex_parse|constructor|apply ex_parse].
Defined.

(** The repository's own examples. *)
Example IsContained_ex1 : IsContained ["10.0.0.0/14"] "10.1.0.0/16" = Ok true.
Proof. reflexivity. Qed.
Example IsContained_ex2 : IsContained ["10.1.0.0/16"] "10.0.0.0/14" = Ok false.
Proof. reflexivity. Qed.
Example IsOverlapping_ex1 : IsOverlapping ["1.2.3.4/16"; "2002::1234:abcd:ffff:c0a8:101/64"] "5.6.7.8/16" = Ok false.
Proof. reflexivity. Qed.
Example IsOverlapping_ex2 : IsOverlapping ["bogus"] "1.2.3.4/16" = Err (ErrParsing "bogus").
Proof. reflexivity. Qed.

Section family_facts.
Context `{K8sNet} `{AdmiralSlices} `{!AdmiralSlicesLaws}.

Lemma ExtractIPFamilies_spec l acc : NoDup acc ->
  NoDup (foldl add_family acc l) /\
  forall f, f ∈ foldl add_family acc l <->
    f ∈ acc \/ (f <> IPFamilyUnknown /\ exists c, c ∈ l /\ IPFamilyOfCIDRString c = f).
Proof.
  revert acc. induction l as [|c l IH]; intros acc Hacc; simpl.
  { split; [done|]. intros f. split; [by left|].
    intros [?|(_ & c & Hc & _)]; [done|by apply not_elem_of_nil in Hc]. }
  assert (NoDup (add_family acc c) /\ forall f, f ∈ add_family acc c <->
    f ∈ acc \/ (f <> IPFamilyUnknown /\ IPFamilyOfCIDRString c = f)) as [Hnd Hadd].
  { unfold add_family. case_bool_decide as Hf.
    - split; [done|]. intros f. split; [by left|]. intros [?|[Hn <-]]; [done|]. by rewrite Hf in Hn.
    - destruct (decide (IPFamilyOfCIDRString c ∈ acc)) as [Hin|Hin].
      + rewrite append_present by done. split; [done|]. intros f. split; [by left|].
        by intros [?|[_ <-]].
      + rewrite append_absent by done. split.
        * apply NoDup_app. split; [done|]. split; [|apply NoDup_singleton].
          intros x Hx ->%list_elem_of_singleton. done.
        * intros f. rewrite elem_of_app, list_elem_of_singleton. clear -Hf. naive_solver. }
  destruct (IH _ Hnd) as [Hr1 Hr2]. split; [done|]. intros f. rewrite Hr2, Hadd.
  setoid_rewrite elem_of_cons. clear. naive_solver.
Qed.

(** [ExtractIPFamilies] lists, without repetition, exactly the families
    of the CIDRs whose family is known. *)
Lemma ExtractIPFamilies_correct (fromCIDRs : list string) :
  NoDup (ExtractIPFamilies fromCIDRs) /\
  forall f, f ∈ ExtractIPFamilies fromCIDRs <->
    f <> IPFamilyUnknown /\ exists c, c ∈ fromCIDRs /\ IPFamilyOfCIDRString c = f.
Proof.
  destruct (ExtractIPFamilies_spec fromCIDRs []) as [Hnd Hin]; [constructor|].
  split; [done|]. intros f. unfold ExtractIPFamilies. rewrite Hin.
  split; [|by right]. intros [Hf|Hf]; [by apply not_elem_of_nil in Hf|done].
Qed.
End family_facts.

Lemma ExtractIPFamilies_correct_witness :
  NoDup (@ExtractIPFamilies k8snet_ref slices_ref ex_remote) /\
  forall f, f ∈ @ExtractIPFamilies k8snet_ref slices_ref ex_remote <->
    f <> IPFamilyUnknown /\ exists c, c ∈ ex_remote /\ @IPFamilyOfCIDRString k8snet_ref c = f.
Proof. apply (@ExtractIPFamilies_correct k8snet_ref slices_ref slices_ref_laws). Defined.

End Cidr.
