(* ===== verification/Endpoint.v ===== *)
(** The endpoint API ([pkg/apis/submariner.io/v1/types.go], [endpoint.go]): the
    specification record, its backend configuration, its per-family addresses and
    the subnets it shows, and the connections.

    A nil map or slice and an empty one are the same value here. *)
From stdpp Require Import base gmap list strings fin_maps.
From Stdlib Require String.
From Stdlib Require Import ZArith Lia Ascii.
From S2P Require Import Prelude GoNet K8s Cidr.
Import Net.
Local Open Scope string_scope.

Module Endpoint.

(** * Data *)

Record EndpointSpec := mkSpec {
  ClusterID : string;
  CableName : string;
  HealthCheckIP : string;
  HealthCheckIPs : list string;
  Hostname : string;
  Subnets : list string;
  PrivateIP : string;
  PrivateIPs : list string;
  PublicIP : string;
  PublicIPs : list string;
  NATEnabled : bool;
  Backend : string;
  BackendConfig : gmap string string;
}.

#[global] Instance EndpointSpec_eq_dec : EqDecision EndpointSpec.
Proof. solve_decision. Defined.

(** [v1.Endpoint]: the object name and creation time of its metadata, and the
    specification. *)
Record EndpointObj := mkEndpoint {
  ep_name : string;
  CreationTimestamp : Z;
  Spec : EndpointSpec;
}.

#[global] Instance EndpointObj_eq_dec : EqDecision EndpointObj.
Proof. solve_decision. Defined.

Definition GatewayConfigPrefix := "gateway.submariner.io/".
Definition UDPPortConfig := "udp-port".
Definition NATTDiscoveryPortConfig := "natt-discovery-port".
Definition PreferredServerConfig := "preferred-server".
Definition PublicIPConfig := "public-ip".
Definition UsingLoadBalancer := "using-loadbalancer".
Definition TCPMssValue := "submariner.io/tcp-clamp-mss".
Definition LoadBalancer := "lb".

Definition ValidGatewayNodeConfig : list string :=
  [UDPPortConfig; NATTDiscoveryPortConfig; PublicIPConfig; PreferredServerConfig].

(** [StatusUnset] is the zero value of the string type. *)
Inductive ConnectionStatus := StatusUnset | Connected | Connecting | ConnectionError | ConnectionNone.

#[global] Instance ConnectionStatus_eq_dec : EqDecision ConnectionStatus.
Proof. solve_decision. Defined.

Record LatencyRTTSpec := mkLatency {
  Last : string; Min : string; Average : string; Max : string; StdDev : string }.

#[global] Instance LatencyRTTSpec_eq_dec : EqDecision LatencyRTTSpec.
Proof. solve_decision. Defined.

Record Connection := mkConnection {
  Status : ConnectionStatus;
  StatusMessage : string;
  conn_Endpoint : EndpointSpec;
  UsingIP : string;
  UsingNAT : bool;
  LatencyRTT : option LatencyRTTSpec;
}.

#[global] Instance Connection_eq_dec : EqDecision Connection.
Proof. solve_decision. Defined.

Inductive HAStatus := HAStatusActive | HAStatusPassive.

(** * Errors of the specification's methods *)
Inductive spec_error :=
| ErrParsePort (e : Strconv.num_error)
| ErrPortTooSmall
| ErrBackendConfig (configName : string) (cause : spec_error)
| ErrParseBool (configName : string)
| ErrEmptyClusterID
| ErrEmptyCableName.

(** * Backend configuration *)

(** [ep.BackendConfig[configName]]: the empty string when absent. *)
Definition config_get (ep : EndpointSpec) (configName : string) : string :=
  zget "" (BackendConfig ep) configName.

Definition parsePort (port : string) : Z * option spec_error :=
  match Strconv.ParseUint port 16 with
  | Err e => ((-1)%Z, Some (ErrParsePort e))
  | Ok portInt => if (portInt <? 1)%Z then ((-1)%Z, Some ErrPortTooSmall) else (portInt, None)
  end.

Definition GetBackendPort (ep : EndpointSpec) (configName : string) (defaultValue : Z)
  : Z * option spec_error :=
  let portStr := config_get ep configName in
  if portStr =?? "" then (defaultValue, None)
  else match parsePort portStr with
       | (_, Some err) => (defaultValue, Some (ErrBackendConfig configName err))
       | (port, None) => (port, None)
       end.

Definition GetBackendBool (ep : EndpointSpec) (configName : string) (defaultValue : bool)
  : bool * option spec_error :=
  let boolStr := config_get ep configName in
  if boolStr =?? "" then (defaultValue, None)
  else match Strconv.ParseBool boolStr with
       | Err _ => (defaultValue, Some (ErrParseBool configName))
       | Ok boolValue => (boolValue, None)
       end.

(** * Identity *)

Definition hasSameBackendConfig (ep other : EndpointSpec) : bool :=
  if (config_get ep UsingLoadBalancer =?? "true") && (config_get other UsingLoadBalancer =?? "true")
  then true
  else BackendConfig ep =?? BackendConfig other.

(** [Equals] on pointers: [None] is nil. *)
Definition Equals (ep other : option EndpointSpec) : bool :=
  match ep, other with
  | None, None => true
  | None, Some _ | Some _, None => false
  | Some ep, Some other =>
      (ClusterID ep =?? ClusterID other) && (CableName ep =?? CableName other) &&
      (Hostname ep =?? Hostname other) && (Backend ep =?? Backend other) &&
      hasSameBackendConfig ep other
  end.

Definition GetFamilyCableName (ep : EndpointSpec) (family : IPFamily) : string :=
  CableName ep ++ "-v" ++ family_str family.

(** * Per-family addresses *)
Section ips.
Context `{K8sNet}.

Fixpoint getIPFrom (family : IPFamily) (ips : list string) (ipv4Fallback : string) : string :=
  match ips with
  | [] => if family =?? IPv4 then ipv4Fallback else ""
  | ip :: rest =>
      if IPFamilyOfString ip =?? family then ip else getIPFrom family rest ipv4Fallback
  end.

(** The loop of [setIP]: replace the first entry of the family, else append. *)
Fixpoint replace_ip (family : IPFamily) (ips : list string) (newIP : string) : list string :=
  match ips with
  | [] => [newIP]
  | ip :: rest =>
      if IPFamilyOfString ip =?? family then newIP :: rest
      else ip :: replace_ip family rest newIP
  end.

Definition setIP (ips : list string) (ipv4Fallback newIP : string) : list string * string :=
  if newIP =?? "" then (ips, ipv4Fallback)
  else
    let family := IPFamilyOfString newIP in
    if family =?? IPFamilyUnknown then (ips, ipv4Fallback)
    else
      let ipv4Fallback := if family =?? IPv4 then newIP else ipv4Fallback in
      (replace_ip family ips newIP, ipv4Fallback).

Definition GetHealthCheckIP (ep : EndpointSpec) (family : IPFamily) : string :=
  getIPFrom family (HealthCheckIPs ep) (HealthCheckIP ep).

Definition SetHealthCheckIP (ip : string) (ep : EndpointSpec) : EndpointSpec :=
  let '(ips, fb) := setIP (HealthCheckIPs ep) (HealthCheckIP ep) ip in
  {| ClusterID := ClusterID ep; CableName := CableName ep; HealthCheckIP := fb;
     HealthCheckIPs := ips; Hostname := Hostname ep; Subnets := Subnets ep;
     PrivateIP := PrivateIP ep; PrivateIPs := PrivateIPs ep; PublicIP := PublicIP ep;
     PublicIPs := PublicIPs ep; NATEnabled := NATEnabled ep; Backend := Backend ep;
     BackendConfig := BackendConfig ep |}.

Definition GetPublicIP (ep : EndpointSpec) (family : IPFamily) : string :=
  getIPFrom family (PublicIPs ep) (PublicIP ep).

Definition SetPublicIP (ip : string) (ep : EndpointSpec) : EndpointSpec :=
  let '(ips, fb) := setIP (PublicIPs ep) (PublicIP ep) ip in
  {| ClusterID := ClusterID ep; CableName := CableName ep; HealthCheckIP := HealthCheckIP ep;
     HealthCheckIPs := HealthCheckIPs ep; Hostname := Hostname ep; Subnets := Subnets ep;
     PrivateIP := PrivateIP ep; PrivateIPs := PrivateIPs ep; PublicIP := fb;
     PublicIPs := ips; NATEnabled := NATEnabled ep; Backend := Backend ep;
     BackendConfig := BackendConfig ep |}.

Definition GetPrivateIP (ep : EndpointSpec) (family : IPFamily) : string :=
  getIPFrom family (PrivateIPs ep) (PrivateIP ep).

Definition SetPrivateIP (ip : string) (ep : EndpointSpec) : EndpointSpec :=
  let '(ips, fb) := setIP (PrivateIPs ep) (PrivateIP ep) ip in
  {| ClusterID := ClusterID ep; CableName := CableName ep; HealthCheckIP := HealthCheckIP ep;
     HealthCheckIPs := HealthCheckIPs ep; Hostname := Hostname ep; Subnets := Subnets ep;
     PrivateIP := fb; PrivateIPs := ips; PublicIP := PublicIP ep;
     PublicIPs := PublicIPs ep; NATEnabled := NATEnabled ep; Backend := Backend ep;
     BackendConfig := BackendConfig ep |}.

Definition GetIPFamilies `{AdmiralSlices} (ep : EndpointSpec) : list IPFamily :=
  Cidr.ExtractIPFamilies (Subnets ep).

(** [ParseSubnets] panics ([utilruntime.Must]) on a subnet that is no CIDR. *)
Inductive panic := PanicBadSubnet (subnet : string).

Fixpoint parse_subnets (family : IPFamily) (subnets : list string) : result panic (list IPNet) :=
  match subnets with
  | [] => Ok []
  | s :: rest =>
      match ParseCIDR s with
      | None => Err (PanicBadSubnet s)
      | Some n =>
          l ← parse_subnets family rest;
          Ok (if IPFamilyOfCIDR n =?? family then n :: l else l)
      end
  end.

Definition ParseSubnets (ep : EndpointSpec) (family : IPFamily) : result panic (list IPNet) :=
  parse_subnets family (Subnets ep).

Fixpoint exclude_ip (ipFamily : IPFamily) (subnetPrefix : string) (subnets : list IPNet)
  : list string :=
  match subnets with
  | [] => []
  | subnet :: rest =>
      let subnetStr := net_string subnet in
      if negb (String.prefix subnetPrefix subnetStr) &&
         (IPFamilyOfCIDRString subnetStr =?? ipFamily)
      then subnetStr :: exclude_ip ipFamily subnetPrefix rest
      else exclude_ip ipFamily subnetPrefix rest
  end.

Definition ExtractSubnetsExcludingIP (ep : EndpointSpec) (excIP : string)
  : result panic (list string) :=
  let ipFamily := IPFamilyOfString excIP in
  subnets ← ParseSubnets ep ipFamily;
  Ok (exclude_ip ipFamily (excIP ++ "/") subnets).

Definition GatewayIP (ep : EndpointSpec) (family : IPFamily) : IP :=
  let publicIP := GetPublicIP ep family in
  if publicIP =?? "" then ParseIP (GetPrivateIP ep family) else ParseIP publicIP.

(** * Connections ([types.go]) *)
Definition NewConnection (endpointSpec : EndpointSpec) (usedIP : string) (nat : bool) : Connection :=
  {| Status := StatusUnset; StatusMessage := ""; conn_Endpoint := endpointSpec;
     UsingIP := usedIP; UsingNAT := nat; LatencyRTT := None |}.

Definition SetStatus (status : ConnectionStatus) (message : string) (c : Connection) : Connection :=
  {| Status := status; StatusMessage := message; conn_Endpoint := conn_Endpoint c;
     UsingIP := UsingIP c; UsingNAT := UsingNAT c; LatencyRTT := LatencyRTT c |}.

Definition GetFamily (c : Connection) : IPFamily := IPFamilyOfString (UsingIP c).
End ips.

(** [GenerateName]: admiral's [resource.EnsureValidName] is a parameter. *)
Definition GenerateName (EnsureValidName : string -> string) (ep : EndpointSpec)
  : result spec_error string :=
  if ClusterID ep =?? "" then Err ErrEmptyClusterID
  else if CableName ep =?? "" then Err ErrEmptyCableName
  else Ok (EnsureValidName (ClusterID ep ++ "-" ++ CableName ep)).

(** * Lemmas *)

Lemma ascii_digit k : (0 <= k <= 9)%Z ->
  Strconv.is_digit (Ascii.ascii_of_N (Z.to_N (48 + k))) = true /\
  Strconv.digit (Ascii.ascii_of_N (Z.to_N (48 + k))) = k.
Proof.
  intros Hk.
  assert (k = 0 \/ k = 1 \/ k = 2 \/ k = 3 \/ k = 4 \/ k = 5 \/ k = 6 \/ k = 7 \/ k = 8 \/ k = 9)%Z
    as [->|[->|[->|[->|[->|[->|[->|[->|[->| ->]]]]]]]]] by lia; by vm_compute.
Qed.

Lemma parse_uint_loop_app max l1 l2 n :
  Strconv.parse_uint_loop max n (l1 ++ l2) =
  (v ← Strconv.parse_uint_loop max n l1; Strconv.parse_uint_loop max v l2).
Proof.
  revert n. induction l1 as [|c l1 IH]; intros n; [done|]. cbn [app Strconv.parse_uint_loop].
  destruct (Strconv.is_digit c); [|done]. destruct (_ <? _)%Z; [done|]. apply IH.
Qed.

Lemma parse_digits_rev max fuel n : (0 <= n <= max)%Z -> (n < 10 ^ Z.of_nat fuel)%Z ->
  Strconv.parse_uint_loop max 0 (rev (Strconv.digits_rev fuel n)) = Ok n.
Proof.
  revert n. induction fuel as [|fuel IH]; intros n Hn Hf; [simpl in *; f_equal; lia|].
  rewrite Nat2Z.inj_succ, Z.pow_succ_r in Hf by lia. cbn [Strconv.digits_rev].
  pose proof (Z.mod_pos_bound n 10 ltac:(lia)). pose proof (Z.div_mod n 10 ltac:(lia)).
  destruct (ascii_digit (n mod 10)) as [H1 H2]; [lia|].
  destruct (Z.eqb_spec (n / 10) 0) as [E|E].
  - cbn [rev app Strconv.parse_uint_loop]. rewrite H1, H2.
    destruct (Z.ltb_spec max (0 * 10 + n mod 10)); [lia|]. f_equal. lia.
  - cbn [rev]. rewrite parse_uint_loop_app, IH.
    + cbn. rewrite H1, H2. destruct (Z.ltb_spec max (n / 10 * 10 + n mod 10)); [lia|].
      f_equal. lia.
    + lia.
    + apply Z.div_lt_upper_bound; lia.
Qed.

Lemma digits_rev_nonempty fuel n : Strconv.digits_rev (S fuel) n <> [].
Proof. cbn. by case_match. Qed.

(** Printing a number and parsing it back. *)
Lemma ParseUint_Itoa n bits : (0 <= n <= 2 ^ bits - 1)%Z ->
  Strconv.ParseUint (Strconv.Itoa n) bits = Ok n.
Proof.
  intros Hn. unfold Strconv.ParseUint, Strconv.Itoa. rewrite Z.abs_eq by lia.
  destruct (Z.ltb_spec n 0); [lia|]. rewrite String.list_ascii_of_string_of_list_ascii.
  set (fuel := Z.to_nat (Z.log2 n)).
  destruct (rev (Strconv.digits_rev (S fuel) n)) as [|c l] eqn:E.
  { apply (f_equal (@rev _)) in E. rewrite rev_involutive in E. by apply digits_rev_nonempty in E. }
  rewrite <-E. apply parse_digits_rev; [lia|].
  unfold fuel. pose proof (Z.log2_nonneg n). rewrite Nat2Z.inj_succ, Z2Nat.id by lia.
  destruct (Z.eq_dec n 0) as [->|Hnz]; [done|].
  pose proof (Z.log2_spec n ltac:(lia)).
  assert (2 ^ Z.succ (Z.log2 n) <= 10 ^ Z.succ (Z.log2 n))%Z by (apply Z.pow_le_mono_l; lia).
  lia.
Qed.

Lemma Itoa_inj a b : (0 <= a)%Z -> (0 <= b)%Z -> Strconv.Itoa a = Strconv.Itoa b -> a = b.
Proof.
  intros Ha Hb He. set (bits := Z.max a b).
  assert (Hm : (Z.max a b + 1 <= 2 ^ bits)%Z) by (pose proof (Z.pow_gt_lin_r 2 bits); lia).
  pose proof (ParseUint_Itoa a bits ltac:(lia)) as H1. pose proof (ParseUint_Itoa b bits ltac:(lia)) as H2.
  rewrite He, H2 in H1. by injection H1.
Qed.

Lemma digits_rev_digits fuel n : Forall (fun c => Strconv.is_digit c = true) (Strconv.digits_rev fuel n).
Proof.
  revert n. induction fuel as [|fuel IH]; intros n; [constructor|]. cbn [Strconv.digits_rev].
  pose proof (Z.mod_pos_bound n 10 ltac:(lia)). destruct (ascii_digit (n mod 10)) as [Hd _]; [lia|].
  case_match; constructor; done || constructor.
Qed.

Lemma Itoa_digits n : (0 <= n)%Z ->
  Forall (fun c => Strconv.is_digit c = true) (String.list_ascii_of_string (Strconv.Itoa n)).
Proof.
  intros Hn. unfold Strconv.Itoa. destruct (Z.ltb_spec n 0); [lia|].
  rewrite String.list_ascii_of_string_of_list_ascii. apply Forall_rev, digits_rev_digits.
Qed.

Lemma ParseInt_Itoa n : (0 <= n < 2 ^ 63)%Z -> Strconv.ParseInt (Strconv.Itoa n) = Ok n.
Proof.
  intros Hn. pose proof (ParseUint_Itoa n 64 ltac:(lia)) as Hp. unfold Strconv.ParseInt.
  assert (Hs : match Strconv.Itoa n with
               | String.String c _ => Strconv.is_digit c = true
               | String.EmptyString => False
               end).
  { unfold Strconv.ParseUint in Hp. destruct (Strconv.Itoa n) as [|c s]; [done|]. cbn in Hp.
    by destruct (Strconv.is_digit c). }
  destruct (Strconv.Itoa n) as [|c s] eqn:Hi; [done|]. unfold Strconv.is_digit in Hs.
  apply andb_true_iff in Hs as [H1 H2]. apply Z.leb_le in H1, H2.
  rewrite (proj2 (Z.eqb_neq _ 43)), (proj2 (Z.eqb_neq _ 45)) by lia. rewrite Hp. cbn [negb andb].
  destruct (Z.leb_spec (2 ^ 63) n); [lia|done].
Qed.

Lemma Itoa_nonempty n : Strconv.Itoa n <> "".
Proof.
  unfold Strconv.Itoa. intros H.
  assert (forall l, String.string_of_list_ascii l = "" -> l = []) as Hl by (by intros []).
  case_match; [done|]. apply Hl in H. apply (f_equal (@rev _)) in H.
  rewrite rev_involutive in H. by apply digits_rev_nonempty in H.
Qed.

Lemma parse_uint_loop_bound max n s v : (0 <= n <= max)%Z ->
  Strconv.parse_uint_loop max n s = Ok v -> (0 <= v <= max)%Z.
Proof.
  revert n. induction s as [|c s IH]; intros n Hn; simpl; [intros [= <-]; lia|].
  destruct (Strconv.is_digit c) eqn:Hd; [|done]. apply Cidr.digit_range in Hd.
  destruct (Z.ltb_spec max (n * 10 + Strconv.digit c)); [done|]. apply IH. lia.
Qed.

Lemma parsePort_bound port p : parsePort port = (p, None) -> (1 <= p <= 65535)%Z.
Proof.
  unfold parsePort, Strconv.ParseUint. destruct (String.list_ascii_of_string port) as [|c l]; [done|].
  destruct (Strconv.parse_uint_loop _ _ _) as [v|] eqn:Hp; [|done].
  apply parse_uint_loop_bound in Hp; [|lia].
  destruct (Z.ltb_spec v 1); [done|]. intros [= <-]. lia.
Qed.

(** Appending the same number of characters is injective. *)
Lemma string_length_app (s t : string) :
  String.length (s ++ t) = (String.length s + String.length t)%nat.
Proof. induction s as [|c s IH]; [done|]. rewrite string_app_cons. cbn. by rewrite IH. Qed.

Lemma string_app_inv (s1 s2 t1 t2 : string) : String.length t1 = String.length t2 ->
  s1 ++ t1 = s2 ++ t2 -> s1 = s2 /\ t1 = t2.
Proof.
  revert s2. induction s1 as [|c s1 IH]; intros [|c2 s2] Hl;
    rewrite ?string_app_cons, ?string_app_nil.
  - done.
  - intros ->. cbn in Hl. rewrite string_length_app in Hl. lia.
  - intros <-. cbn in Hl. rewrite string_length_app in Hl. lia.
  - intros [= -> He]. destruct (IH s2 Hl He) as [-> ->]. done.
Qed.

(** Replacing an address of family [f] keeps the first match of the others. *)
Section ip_lemmas.
Context `{K8sNet}.

Lemma getIPFrom_replace_same f ips fb ip : IPFamilyOfString ip = f ->
  getIPFrom f (replace_ip f ips ip) fb = ip.
Proof.
  intros Hf. induction ips as [|x ips IH]; simpl.
  - by rewrite bool_decide_true.
  - case_bool_decide as Hx; simpl; [by rewrite bool_decide_true|].
    by rewrite bool_decide_false.
Qed.

Lemma getIPFrom_replace_other f g ips fb fb' ip :
  IPFamilyOfString ip = f -> g <> f -> (g = IPv4 -> fb' = fb) ->
  getIPFrom g (replace_ip f ips ip) fb' = getIPFrom g ips fb.
Proof.
  intros Hf Hg Hfb. induction ips as [|x ips IH]; simpl.
  - rewrite bool_decide_false by congruence. case_bool_decide; auto.
  - case_bool_decide as Hx; simpl.
    + rewrite bool_decide_false by congruence.
      rewrite (bool_decide_false (IPFamilyOfString x = g)) by congruence.
      clear IH. induction ips as [|y ips IH]; simpl; case_bool_decide; auto.
    + by rewrite IH.
Qed.
End ip_lemmas.

(** * Properties *)

Section properties.
Context `{K8sNet}.

(** setting an address of a known family is read back for that family and
    leaves the address of every other family, the deprecated IPv4 field
    included, as it was. *)
Lemma setIP_getIP (ips : list string) (fb ip : string) (f : IPFamily) :
  IPFamilyOfString ip = f -> f <> IPFamilyUnknown -> ip <> "" ->
  let '(ips', fb') := setIP ips fb ip in
  getIPFrom f ips' fb' = ip /\ (f = IPv4 -> fb' = ip) /\
  forall g, g <> f -> getIPFrom g ips' fb' = getIPFrom g ips fb.
Proof.
  intros Hf Hu Hne. unfold setIP. rewrite bool_decide_false, Hf by done.
  rewrite bool_decide_false by done. split; [by apply getIPFrom_replace_same|].
  split; [by intros ->; rewrite bool_decide_true|].
  intros g Hg. apply getIPFrom_replace_other; [done..|].
  intros ->. by rewrite bool_decide_false.
Qed.
End properties.

Lemma setIP_getIP_witness :
  let K := k8snet_ref in
  let '(ips', fb') := setIP ["fd00::1"; "10.0.0.1"] "10.0.0.1" "10.9.9.9" in
  getIPFrom IPv4 ips' fb' = "10.9.9.9" /\ (IPv4 = IPv4 -> fb' = "10.9.9.9") /\
  forall g, g <> IPv4 -> getIPFrom g ips' fb' = getIPFrom g ["fd00::1"; "10.0.0.1"] "10.0.0.1".
Proof.
  intros K. apply (@setIP_getIP K ["fd00::1"; "10.0.0.1"] "10.0.0.1" "10.9.9.9" IPv4);
    [reflexivity|discriminate|discriminate].
Defined.

(** [GetBackendPort] yields the default for an unset value, the number for
    the decimal text of a port, never a number outside 1..65535 without an
    error, and the default together with an error for anything else. *)
Lemma GetBackendPort_spec (ep : EndpointSpec) (name : string) (d : Z) :
  (config_get ep name = "" -> GetBackendPort ep name d = (d, None)) /\
  (forall p, (1 <= p <= 65535)%Z -> config_get ep name = Strconv.Itoa p ->
     GetBackendPort ep name d = (p, None)) /\
  (forall p, config_get ep name <> "" -> GetBackendPort ep name d = (p, None) ->
     (1 <= p <= 65535)%Z) /\
  (forall p e, GetBackendPort ep name d = (p, Some e) -> p = d).
Proof.
  unfold GetBackendPort. split; [by intros ->|]. split; [|split].
  - intros p Hp ->. rewrite bool_decide_false by apply Itoa_nonempty.
    unfold parsePort. rewrite ParseUint_Itoa by (simpl; lia).
    destruct (Z.ltb_spec p 1); [lia|done].
  - intros p Hne. rewrite bool_decide_false by done.
    destruct (parsePort _) as [q [e|]] eqn:Hp; [done|]. intros [= <-]. by eapply parsePort_bound.
  - intros p e. case_bool_decide; [done|]. destruct (parsePort _) as [q [e'|]]; congruence.
Qed.

Lemma hasSameBackendConfig_refl a : hasSameBackendConfig a a = true.
Proof. unfold hasSameBackendConfig. case_match; [done|]. by apply bool_decide_eq_true. Qed.

Lemma hasSameBackendConfig_sym a b :
  hasSameBackendConfig a b = true -> hasSameBackendConfig b a = true.
Proof.
  unfold hasSameBackendConfig. rewrite (andb_comm (_ =?? _)).
  case_match; [done|]. intros Hb%bool_decide_eq_true. by apply bool_decide_eq_true.
Qed.

Lemma config_get_same a b n : BackendConfig a = BackendConfig b -> config_get a n = config_get b n.
Proof. unfold config_get. by intros ->. Qed.

Lemma hasSameBackendConfig_trans a b c : hasSameBackendConfig a b = true ->
  hasSameBackendConfig b c = true -> hasSameBackendConfig a c = true.
Proof.
  unfold hasSameBackendConfig.
  destruct (decide (config_get a UsingLoadBalancer = "true")) as [Ha|Ha];
  destruct (decide (config_get b UsingLoadBalancer = "true")) as [Hb|Hb];
  destruct (decide (config_get c UsingLoadBalancer = "true")) as [Hc|Hc];
    rewrite ?(bool_decide_true _ Ha), ?(bool_decide_true _ Hb), ?(bool_decide_true _ Hc),
      ?(bool_decide_false _ Ha), ?(bool_decide_false _ Hb), ?(bool_decide_false _ Hc);
    cbn [andb]; rewrite ?bool_decide_eq_true; intros H1 H2; try done;
    try (apply (config_get_same _ _ UsingLoadBalancer) in H1; congruence);
    try (apply (config_get_same _ _ UsingLoadBalancer) in H2; congruence);
    congruence.
Qed.

(** [Equals] is an equivalence on specifications, although in
    load-balancer mode it ignores the rest of the backend configuration. *)
Lemma Equals_equivalence :
  (forall a, Equals a a = true) /\
  (forall a b, Equals a b = true -> Equals b a = true) /\
  (forall a b c, Equals a b = true -> Equals b c = true -> Equals a c = true).
Proof.
  split; [|split].
  - intros [a|]; [|done]. simpl. rewrite hasSameBackendConfig_refl.
    by rewrite !bool_decide_true.
  - intros [a|] [b|]; unfold Equals; try done. intros He. bool_props.
    rewrite !bool_decide_true by done. by apply hasSameBackendConfig_sym.
  - intros [a|] [b|] [c|]; unfold Equals; try done. intros H1 H2. bool_props.
    rewrite !bool_decide_true by congruence. by eapply hasSameBackendConfig_trans.
Qed.

Lemma known_suffix_ne l r d : d <> "v"%char ->
  l ++ "-v" ++ String.String d "" <> r ++ "-v" ++ "".
Proof.
  intros Hd He.
  assert ((l ++ "-v") ++ String.String d "" = (r ++ "-") ++ "v") as He'
    by (rewrite !string_app_assoc; exact He).
  apply string_app_inv in He' as [_ He']; [congruence|done].
Qed.

(** The family cable name determines the cable name and the family; the maps
    of the cable engine and of NAT discovery use it as their key. *)
Lemma GetFamilyCableName_inj a b f g :
  GetFamilyCableName a f = GetFamilyCableName b g -> CableName a = CableName b /\ f = g.
Proof.
  unfold GetFamilyCableName. intros He.
  destruct f, g; try (by apply string_app_inv in He as [-> ?]); exfalso;
    first [ apply string_app_inv in He as [_ He]; [discriminate|done]
          | eapply known_suffix_ne; [|exact He]; done
          | eapply known_suffix_ne; [|symmetry; exact He]; done ].
Qed.

End Endpoint.
