(* ===== verification/NatDiscovery.v ===== *)
(** NAT discovery ([pkg/natdiscovery]): the per-endpoint state machine, the
    server that probes remote endpoints and answers their probes, and the
    protocol messages.

    Times are nanoseconds read from one clock; each operation takes the time
    [now] its calls of [time.Now] see.  Protobuf encoding, the UDP sockets and
    the lookup of the source address are parameters.  The ready channel is the
    list of the values sent on it; its capacity (100) is not modelled. *)
From stdpp Require Import base gmap list strings fin_maps.
From Stdlib Require Import ZArith Lia.
From S2P Require Import Prelude GoNet K8s Cidr Endpoint.
Import Net Endpoint.
Local Open Scope Z_scope.

(** * The state of one remote endpoint ([remote_endpoint.go]) *)
Module RemoteNAT.

Inductive endpointState :=
| testingPrivateAndPublicIPs
| waitingForResponse
| selectedPublicIP
| selectedPrivateIP.

#[global] Instance endpointState_eq_dec : EqDecision endpointState.
Proof. solve_decision. Defined.

(** The package variables holding the delays. *)
Record Timers := mkTimers {
  RecheckTime : Z;
  TotalTimeout : Z;
  TotalTimeoutLoadBalancer : Z;
  PublicToPrivateFailoverTimeout : Z;
}.

Definition second : Z := 1000000000.

(** The values [init] stores. *)
Definition init_timers : Timers := {|
  RecheckTime := 2 * second;
  TotalTimeout := 60 * second;
  TotalTimeoutLoadBalancer := 6 * second;
  PublicToPrivateFailoverTimeout := second;
|}.

Record remoteEndpointNAT := mkRemote {
  endpoint : EndpointObj;
  family : IPFamily;
  state : endpointState;
  lastCheck : Z;
  lastTransition : Z;
  started : Z;
  timeout : Z;
  useIP : string;
  lastPublicIPRequestID : Z;
  lastPrivateIPRequestID : Z;
  useNAT : bool;
  usingLoadBalancer : bool;
}.

#[global] Instance remoteEndpointNAT_eq_dec : EqDecision remoteEndpointNAT.
Proof. solve_decision. Defined.

Record NATEndpointInfo := mkInfo {
  info_Endpoint : EndpointObj;
  UseNAT : bool;
  UseIP : string;
  UseFamily : IPFamily;
}.

#[global] Instance NATEndpointInfo_eq_dec : EqDecision NATEndpointInfo.
Proof. solve_decision. Defined.

(** The zero [time.Time], long before any reading of the clock. *)
Definition zeroTime : Z := -(2 ^ 63).

Definition toNATEndpointInfo (rn : remoteEndpointNAT) : NATEndpointInfo :=
  {| info_Endpoint := endpoint rn; UseNAT := useNAT rn; UseIP := useIP rn; UseFamily := family rn |}.

Definition newRemoteEndpointNAT (T : Timers) (now : Z) (ep : EndpointObj) (fam : IPFamily)
  : remoteEndpointNAT :=
  let usingLB := fst (GetBackendBool (Spec ep) UsingLoadBalancer false) in
  {| endpoint := ep; family := fam; state := testingPrivateAndPublicIPs;
     lastCheck := zeroTime; lastTransition := now; started := now;
     timeout := if usingLB then TotalTimeoutLoadBalancer T else TotalTimeout T;
     useIP := ""; lastPublicIPRequestID := 0; lastPrivateIPRequestID := 0;
     useNAT := false; usingLoadBalancer := usingLB |}.

(** Field updates: the selection of an address, and a transition. *)
Definition select (ip : string) (nat : bool) (rn : remoteEndpointNAT) : remoteEndpointNAT :=
  {| endpoint := endpoint rn; family := family rn; state := state rn;
     lastCheck := lastCheck rn; lastTransition := lastTransition rn; started := started rn;
     timeout := timeout rn; useIP := ip; lastPublicIPRequestID := lastPublicIPRequestID rn;
     lastPrivateIPRequestID := lastPrivateIPRequestID rn; useNAT := nat;
     usingLoadBalancer := usingLoadBalancer rn |}.

Definition transitionToState (now : Z) (newState : endpointState) (rn : remoteEndpointNAT)
  : remoteEndpointNAT :=
  {| endpoint := endpoint rn; family := family rn; state := newState;
     lastCheck := lastCheck rn; lastTransition := now; started := started rn;
     timeout := timeout rn; useIP := useIP rn; lastPublicIPRequestID := lastPublicIPRequestID rn;
     lastPrivateIPRequestID := lastPrivateIPRequestID rn; useNAT := useNAT rn;
     usingLoadBalancer := usingLoadBalancer rn |}.

Definition checkSent (now : Z) (rn : remoteEndpointNAT) : remoteEndpointNAT :=
  {| endpoint := endpoint rn; family := family rn;
     state := if state rn =?? testingPrivateAndPublicIPs then waitingForResponse else state rn;
     lastCheck := now; lastTransition := lastTransition rn; started := started rn;
     timeout := timeout rn; useIP := useIP rn; lastPublicIPRequestID := lastPublicIPRequestID rn;
     lastPrivateIPRequestID := lastPrivateIPRequestID rn; useNAT := useNAT rn;
     usingLoadBalancer := usingLoadBalancer rn |}.

(** Which of the two request numbers a probe stores: [&lastPrivateIPRequestID]
    or [&lastPublicIPRequestID]. *)
Inductive probe := ProbePrivate | ProbePublic.

Definition set_request_id (p : probe) (n : Z) (rn : remoteEndpointNAT) : remoteEndpointNAT :=
  {| endpoint := endpoint rn; family := family rn; state := state rn;
     lastCheck := lastCheck rn; lastTransition := lastTransition rn; started := started rn;
     timeout := timeout rn; useIP := useIP rn;
     lastPublicIPRequestID := match p with ProbePublic => n | ProbePrivate => lastPublicIPRequestID rn end;
     lastPrivateIPRequestID := match p with ProbePrivate => n | ProbePublic => lastPrivateIPRequestID rn end;
     useNAT := useNAT rn; usingLoadBalancer := usingLoadBalancer rn |}.

Definition sinceLastTransition (now : Z) (rn : remoteEndpointNAT) : Z := now - lastTransition rn.

Definition hasTimedOut (now : Z) (rn : remoteEndpointNAT) : bool :=
  timeout rn <? now - started rn.

Definition isDiscoveryComplete (rn : remoteEndpointNAT) : bool :=
  (state rn =?? selectedPublicIP) || (state rn =?? selectedPrivateIP).

Definition shouldCheck (T : Timers) (now : Z) (rn : remoteEndpointNAT) : bool :=
  match state rn with
  | testingPrivateAndPublicIPs => true
  | waitingForResponse => RecheckTime T <? now - lastCheck rn
  | selectedPublicIP => false
  | selectedPrivateIP => false
  end.

Section addresses.
Context `{K8sNet}.

Definition useLegacyNATSettings (now : Z) (rn : remoteEndpointNAT) : remoteEndpointNAT :=
  if usingLoadBalancer rn then
    transitionToState now selectedPublicIP
      (select (GetPublicIP (Spec (endpoint rn)) (family rn)) true rn)
  else if NATEnabled (Spec (endpoint rn)) then
    transitionToState now selectedPublicIP
      (select (GetPublicIP (Spec (endpoint rn)) (family rn)) true rn)
  else
    transitionToState now selectedPrivateIP
      (select (GetPrivateIP (Spec (endpoint rn)) (family rn)) false rn).

(** The boolean tells whether the transition took place. *)
Definition transitionToPublicIP (now : Z) (nat : bool) (rn : remoteEndpointNAT)
  : bool * remoteEndpointNAT :=
  match state rn with
  | waitingForResponse =>
      (true, transitionToState now selectedPublicIP
               (select (GetPublicIP (Spec (endpoint rn)) (family rn)) nat rn))
  | selectedPrivateIP => (false, rn)
  | testingPrivateAndPublicIPs => (false, rn)
  | selectedPublicIP => (false, rn)
  end.

Definition transitionToPrivateIP (T : Timers) (now : Z) (nat : bool) (rn : remoteEndpointNAT)
  : bool * remoteEndpointNAT :=
  match state rn with
  | waitingForResponse =>
      (true, transitionToState now selectedPrivateIP
               (select (GetPrivateIP (Spec (endpoint rn)) (family rn)) nat rn))
  | selectedPublicIP =>
      if PublicToPrivateFailoverTimeout T <? sinceLastTransition now rn then (false, rn)
      else
        (true, transitionToState now selectedPrivateIP
                 (select (GetPrivateIP (Spec (endpoint rn)) (family rn)) nat rn))
  | testingPrivateAndPublicIPs => (false, rn)
  | selectedPrivateIP => (false, rn)
  end.
End addresses.
End RemoteNAT.

(** * Protocol messages ([proto/natdiscovery.proto]) *)
Module Proto.

Record EndpointDetails := mkDetails { ClusterId : string; EndpointId : string }.
Record IPPortPair := mkPair { pair_IP : string; pair_Port : Z }.

(** An open enumeration: unknown numbers are kept. *)
Inductive ResponseType :=
| OK | NAT_DETECTED | UNKNOWN_DST_CLUSTER | UNKNOWN_DST_ENDPOINT | MALFORMED
| OtherResponse (n : Z).

#[global] Instance ResponseType_eq_dec : EqDecision ResponseType.
Proof. solve_decision. Defined.

Record Request := mkRequest {
  req_Number : Z;
  req_Sender : option EndpointDetails;
  req_Receiver : option EndpointDetails;
  req_UsingSrc : option IPPortPair;
  req_UsingDst : option IPPortPair;
}.

Record Response := mkResponse {
  resp_Number : Z;
  resp_Response : ResponseType;
  resp_Sender : option EndpointDetails;
  resp_Receiver : option EndpointDetails;
  SrcIpNatDetected : bool;
  SrcPortNatDetected : bool;
  DstIpNatDetected : bool;
  ReceivedSrc : option IPPortPair;
}.

Inductive Payload := MRequest (r : Request) | MResponse (r : Response) | MNone.
Record Message := mkMessage { Version : Z; payload : Payload }.

(** Messages form a countable type; the witnesses use it as an encoding. *)
#[global] Instance EndpointDetails_eq_dec : EqDecision EndpointDetails.
Proof. solve_decision. Defined.
#[global] Instance IPPortPair_eq_dec : EqDecision IPPortPair.
Proof. solve_decision. Defined.
#[global] Instance Request_eq_dec : EqDecision Request.
Proof. solve_decision. Defined.
#[global] Instance Response_eq_dec : EqDecision Response.
Proof. solve_decision. Defined.
#[global] Instance Payload_eq_dec : EqDecision Payload.
Proof. solve_decision. Defined.
#[global] Instance Message_eq_dec : EqDecision Message.
Proof. solve_decision. Defined.

#[global] Instance EndpointDetails_countable : Countable EndpointDetails.
Proof.
  refine (inj_countable' (fun d => (ClusterId d, EndpointId d))
            (fun '(c, e) => mkDetails c e) _). by intros [].
Defined.
#[global] Instance IPPortPair_countable : Countable IPPortPair.
Proof.
  refine (inj_countable' (fun p => (pair_IP p, pair_Port p)) (fun '(i, p) => mkPair i p) _).
  by intros [].
Defined.
#[global] Instance ResponseType_countable : Countable ResponseType.
Proof.
  refine (inj_countable'
    (fun t => match t with OK => inl 0 | NAT_DETECTED => inl 1 | UNKNOWN_DST_CLUSTER => inl 2
              | UNKNOWN_DST_ENDPOINT => inl 3 | MALFORMED => inl 4 | OtherResponse n => inr n end)
    (fun c : Z + Z => match c with inl 0 => OK | inl 1 => NAT_DETECTED | inl 2 => UNKNOWN_DST_CLUSTER
              | inl 3 => UNKNOWN_DST_ENDPOINT | inl _ => MALFORMED | inr n => OtherResponse n end) _).
  by intros [].
Defined.
#[global] Instance Request_countable : Countable Request.
Proof.
  refine (inj_countable'
    (fun r => (req_Number r, req_Sender r, req_Receiver r, req_UsingSrc r, req_UsingDst r))
    (fun '(n, s, r, u, d) => mkRequest n s r u d) _). by intros [].
Defined.
#[global] Instance Response_countable : Countable Response.
Proof.
  refine (inj_countable'
    (fun r => (resp_Number r, resp_Response r, resp_Sender r, resp_Receiver r,
               SrcIpNatDetected r, SrcPortNatDetected r, DstIpNatDetected r, ReceivedSrc r))
    (fun '(n, t, s, r, a, b, c, p) => mkResponse n t s r a b c p) _). by intros [].
Defined.
#[global] Instance Payload_countable : Countable Payload.
Proof.
  refine (inj_countable'
    (fun p => match p with MRequest r => inl r | MResponse r => inr (Some r) | MNone => inr None end)
    (fun c : Request + option Response =>
       match c with inl r => MRequest r | inr (Some r) => MResponse r | inr None => MNone end) _).
  by intros [].
Defined.
#[global] Instance Message_countable : Countable Message.
Proof.
  refine (inj_countable' (fun m => (Version m, payload m)) (fun '(v, p) => mkMessage v p) _).
  by intros [].
Defined.

(** Getters on a nil message give the zero value. *)
Definition GetClusterId (d : option EndpointDetails) : string :=
  match d with Some d => ClusterId d | None => "" end.
Definition GetEndpointId (d : option EndpointDetails) : string :=
  match d with Some d => EndpointId d | None => "" end.
Definition GetIP (p : option IPPortPair) : string :=
  match p with Some p => pair_IP p | None => "" end.
Definition GetPort (p : option IPPortPair) : Z :=
  match p with Some p => pair_Port p | None => 0 end.

Definition version : Z := 1.
End Proto.

Module NatDiscovery.
Import RemoteNAT Proto.

Record UDPAddr := mkAddr { addr_IP : IP; addr_Port : Z }.

(** The bytes of a datagram. *)
Abbreviation bytes := (list Z).

Inductive nd_error :=
| ErrMarshal
| ErrUnmarshal
| ErrNoMessage
| ErrWrite
| ErrShortWrite (sent expected : Z)
| PanicNoWriter (f : IPFamily)
| ErrMalformedResponse
| ErrRemoteResponse (endpoint : string) (t : ResponseType)
| ErrUnknownEndpoint (endpoint : string)
| ErrPrivateIPMismatch (endpoint : string)
| ErrUnknownRequest (number : Z)
| ErrNoNATDiscoveryPort
| ErrPort (e : spec_error)
| ErrFindSource (target : string)
| ErrBoth (public private : nd_error)
| ErrPrivate (e : nd_error)
| ErrPublic (e : nd_error)
| ErrListen (f : IPFamily).

(** A datagram handed to a socket: the family of the socket, bytes, target. *)
Record Datagram := mkDatagram { d_family : IPFamily; d_bytes : bytes; d_addr : UDPAddr }.

Record natDiscovery := mkND {
  LocalSpec : EndpointSpec;
  remoteEndpoints : gmap string remoteEndpointNAT;
  requestCounter : Z;
  serverUDPWrite : list IPFamily;
  serverPort : Z;
  readyChannel : list NATEndpointInfo;
  wire : list Datagram;
}.

Definition with_remotes (f : gmap string remoteEndpointNAT -> gmap string remoteEndpointNAT)
    (nd : natDiscovery) : natDiscovery :=
  {| LocalSpec := LocalSpec nd; remoteEndpoints := f (remoteEndpoints nd);
     requestCounter := requestCounter nd; serverUDPWrite := serverUDPWrite nd;
     serverPort := serverPort nd; readyChannel := readyChannel nd; wire := wire nd |}.

Definition with_counter (n : Z) (nd : natDiscovery) : natDiscovery :=
  {| LocalSpec := LocalSpec nd; remoteEndpoints := remoteEndpoints nd;
     requestCounter := n; serverUDPWrite := serverUDPWrite nd;
     serverPort := serverPort nd; readyChannel := readyChannel nd; wire := wire nd |}.

(** [nd.readyChannel <- info]. *)
Definition send_ready (info : NATEndpointInfo) (nd : natDiscovery) : natDiscovery :=
  {| LocalSpec := LocalSpec nd; remoteEndpoints := remoteEndpoints nd;
     requestCounter := requestCounter nd; serverUDPWrite := serverUDPWrite nd;
     serverPort := serverPort nd; readyChannel := readyChannel nd ++ [info]; wire := wire nd |}.

Definition put_wire (d : Datagram) (nd : natDiscovery) : natDiscovery :=
  {| LocalSpec := LocalSpec nd; remoteEndpoints := remoteEndpoints nd;
     requestCounter := requestCounter nd; serverUDPWrite := serverUDPWrite nd;
     serverPort := serverPort nd; readyChannel := readyChannel nd; wire := wire nd ++ [d] |}.

Definition add_writer (f : IPFamily) (nd : natDiscovery) : natDiscovery :=
  {| LocalSpec := LocalSpec nd; remoteEndpoints := remoteEndpoints nd;
     requestCounter := requestCounter nd; serverUDPWrite := f :: serverUDPWrite nd;
     serverPort := serverPort nd; readyChannel := readyChannel nd; wire := wire nd |}.

(** [err := m()]: the error of a call as a value; a panic is not caught. *)
Definition if_err {W A} (m : eff W nd_error A) : eff W nd_error (result nd_error A) :=
  fun w => match m w with
           | (Err (PanicNoWriter f), w') => (Err (PanicNoWriter f), w')
           | (r, w') => (Ok r, w')
           end.

(** [extractNATDiscoveryPort]; the port accompanies the error. *)
Definition extractNATDiscoveryPort (endPoint : EndpointSpec) : Z * option nd_error :=
  match GetBackendPort endPoint NATTDiscoveryPortConfig 0 with
  | (p, Some err) => (p, Some (ErrPort err))
  | (p, None) => if p =? 0 then (p, Some ErrNoNATDiscoveryPort) else (p, None)
  end.

Section server.
Context `{K8sNet}.
Variable T : Timers.
(** Protobuf encoding and decoding. *)
Variable Marshal : Message -> option bytes.
Variable Unmarshal : bytes -> option Message.
(** [WriteToUDP] of the socket of a family: bytes written, or an error. *)
Variable WriteToUDP : IPFamily -> bytes -> UDPAddr -> option Z.
(** [Config.FindSourceIP]. *)
Variable FindSourceIP : string -> IPFamily -> option string.
(** [Config.CreateServerConnection] succeeds. *)
Variable CreateServerConnection : Z -> IPFamily -> bool.

Definition NewWithConfig (localSpec : EndpointSpec) (rand : Z) : result nd_error natDiscovery :=
  match GetBackendPort localSpec NATTDiscoveryPortConfig 0 with
  | (_, Some err) => Err (ErrPort err)
  | (ndPort, None) =>
      Ok {| LocalSpec := localSpec; remoteEndpoints := ∅; requestCounter := rand;
            serverUDPWrite := []; serverPort := ndPort; readyChannel := []; wire := [] |}
  end.

(** [nd.serverUDPWrite[f](buf, addr)] and the two checks that follow it; a
    family without a listener is a nil function. *)
Definition udp_write (f : IPFamily) (buf : bytes) (addr : UDPAddr)
  : eff natDiscovery nd_error unit :=
  nd ← getw;
  if negb (bool_decide (f ∈ serverUDPWrite nd)) then fail (PanicNoWriter f)
  else
    _ ← modifyw (put_wire {| d_family := f; d_bytes := buf; d_addr := addr |});
    match WriteToUDP f buf addr with
    | None => fail ErrWrite
    | Some n => if n =? Z.of_nat (length buf) then mret tt
                else fail (ErrShortWrite n (Z.of_nat (length buf)))
    end.

(** ** Answering ([request_handle.go]) *)
Definition sendResponseToAddress (response : Response) (addr : UDPAddr)
  : eff natDiscovery nd_error unit :=
  match Marshal {| Version := version; payload := MResponse response |} with
  | None => fail ErrMarshal
  | Some buf => udp_write (IPFamilyOf (addr_IP addr)) buf addr
  end.

Definition addr_family (addr : UDPAddr) : IPFamily :=
  if bool_decide (To4 (addr_IP addr) = []) then IPv6 else IPv4.

(** The response before the verdict: header fields only. *)
Definition base_response (localSpec : EndpointSpec) (req : Request) (addr : UDPAddr) : Response :=
  {| resp_Number := req_Number req;
     resp_Response := OK;
     resp_Sender := Some {| ClusterId := ClusterID localSpec;
                            EndpointId := GetFamilyCableName localSpec (addr_family addr) |};
     resp_Receiver := req_Sender req;
     SrcIpNatDetected := false; SrcPortNatDetected := false; DstIpNatDetected := false;
     ReceivedSrc := Some {| pair_IP := ip_string (addr_IP addr); pair_Port := int32 (addr_Port addr) |} |}.

Definition set_verdict (t : ResponseType) (srcIP srcPort dstIP : bool) (r : Response) : Response :=
  {| resp_Number := resp_Number r; resp_Response := t; resp_Sender := resp_Sender r;
     resp_Receiver := resp_Receiver r; SrcIpNatDetected := srcIP; SrcPortNatDetected := srcPort;
     DstIpNatDetected := dstIP; ReceivedSrc := ReceivedSrc r |}.

Definition respond_to (localSpec : EndpointSpec) (req : Request) (addr : UDPAddr) : Response :=
  let family := addr_family addr in
  let response := base_response localSpec req addr in
  match req_Receiver req, req_Sender req, req_UsingDst req, req_UsingSrc req with
  | Some receiver, Some _, Some dst, Some src =>
      if negb (ClusterId receiver =?? ClusterID localSpec) then
        set_verdict UNKNOWN_DST_CLUSTER false false false response
      else if negb (EndpointId receiver =?? GetFamilyCableName localSpec family) then
        set_verdict UNKNOWN_DST_ENDPOINT false false false response
      else
        let srcIP := negb (pair_IP src =?? "") && negb (pair_IP src =?? ip_string (addr_IP addr)) in
        let srcPort := negb (pair_Port src =? addr_Port addr) in
        let dstIP := negb (pair_IP dst =?? GetPrivateIP localSpec family) in
        set_verdict (if srcPort || srcIP || dstIP then NAT_DETECTED else OK) srcIP srcPort dstIP response
  | _, _, _, _ => set_verdict MALFORMED false false false response
  end.

Definition handleRequestFromAddress (req : Request) (addr : UDPAddr)
  : eff natDiscovery nd_error unit :=
  nd ← getw;
  sendResponseToAddress (respond_to (LocalSpec nd) req addr) addr.

(** ** Receiving answers ([response_handle.go]) *)

(** Store the remote endpoint a pointer leads to. *)
Definition put_remote (key : string) (rn : remoteEndpointNAT) : eff natDiscovery nd_error unit :=
  modifyw (with_remotes (insert key rn)).

Definition handleResponseFromAddress (now : Z) (resp : Response) (addr : UDPAddr)
  : eff natDiscovery nd_error unit :=
  match resp_Sender resp, resp_Receiver resp, ReceivedSrc resp with
  | Some sender, Some _, Some _ =>
      if negb (resp_Response resp =?? OK) && negb (resp_Response resp =?? NAT_DETECTED)
      then fail (ErrRemoteResponse (EndpointId sender) (resp_Response resp))
      else
        let id := EndpointId sender in
        nd ← getw;
        match remoteEndpoints nd !! id with
        | None => fail (ErrUnknownEndpoint id)
        | Some remoteNAT =>
            let nat := resp_Response resp =?? NAT_DETECTED in
            if lastPublicIPRequestID remoteNAT =? resp_Number resp then
              match transitionToPublicIP now nat remoteNAT with
              | (false, _) => mret tt
              | (true, rn) =>
                  _ ← put_remote id rn; modifyw (send_ready (toNATEndpointInfo rn))
              end
            else if lastPrivateIPRequestID remoteNAT =? resp_Number resp then
              if negb (Equal (addr_IP addr)
                         (ParseIP (GetPrivateIP (Spec (endpoint remoteNAT)) (family remoteNAT))))
              then fail (ErrPrivateIPMismatch id)
              else
                match transitionToPrivateIP T now nat remoteNAT with
                | (false, _) => mret tt
                | (true, rn) =>
                    _ ← put_remote id rn; modifyw (send_ready (toNATEndpointInfo rn))
                end
            else fail (ErrUnknownRequest (resp_Number resp))
        end
  | _, _, _ => fail ErrMalformedResponse
  end.

(** ** Probing ([request_send.go]) *)

Definition build_request (localSpec : EndpointSpec) (rn : remoteEndpointNAT) (number : Z)
    (sourceIP : string) (serverPort : Z) (targetIP : string) (targetPort : Z) : Request :=
  {| req_Number := number;
     req_Sender := Some {| ClusterId := ClusterID localSpec;
                           EndpointId := GetFamilyCableName localSpec (family rn) |};
     req_Receiver := Some {| ClusterId := ClusterID (Spec (endpoint rn));
                             EndpointId := GetFamilyCableName (Spec (endpoint rn)) (family rn) |};
     req_UsingSrc := Some {| pair_IP := sourceIP; pair_Port := serverPort |};
     req_UsingDst := Some {| pair_IP := targetIP; pair_Port := targetPort |} |}.

(** One probe: the world carries the server and the endpoint probed. *)
Definition probe_world : Type := natDiscovery * remoteEndpointNAT.

Definition on_server {A} (m : eff natDiscovery nd_error A) : eff probe_world nd_error A :=
  fun '(nd, rn) => let '(r, nd') := m nd in (r, (nd', rn)).

Definition on_remote (f : remoteEndpointNAT -> remoteEndpointNAT) : eff probe_world nd_error unit :=
  modifyw (fun '(nd, rn) => (nd, f rn)).

Definition sendCheckRequestToTargetIP (now : Z) (targetIP : string) (reqNumber : probe)
  : eff probe_world nd_error unit :=
  '(nd, rn) ← getw;
  match extractNATDiscoveryPort (Spec (endpoint rn)) with
  | (_, Some err) => fail err
  | (targetPort, None) =>
      match FindSourceIP targetIP (family rn) with
      | None => fail (ErrFindSource targetIP)
      | Some sourceIP =>
          let number := uint64_add (requestCounter nd) 1 in
          _ ← on_server (modifyw (with_counter number));
          let request := build_request (LocalSpec nd) rn number sourceIP (serverPort nd)
                           targetIP targetPort in
          match Marshal {| Version := version; payload := MRequest request |} with
          | None => fail ErrMarshal
          | Some buf =>
              let addr := {| addr_IP := ParseIP targetIP; addr_Port := targetPort |} in
              _ ← on_remote (set_request_id reqNumber number);
              r ← if_err (on_server (udp_write (family rn) buf addr));
              match r with
              | Err e => _ ← on_remote (set_request_id reqNumber 0); fail e
              | Ok _ => on_remote (checkSent now)
              end
          end
      end
  end.

(** The probes whose address is known, private first; errors are collected. *)
Definition sendCheckRequest (now : Z) : eff probe_world nd_error unit :=
  '(_, rn) ← getw;
  let private := GetPrivateIP (Spec (endpoint rn)) (family rn) in
  let public := GetPublicIP (Spec (endpoint rn)) (family rn) in
  errPrivate ← (if private =?? "" then mret (Ok tt)
                else if_err (sendCheckRequestToTargetIP now private ProbePrivate));
  errPublic ← (if public =?? "" then mret (Ok tt)
               else if_err (sendCheckRequestToTargetIP now public ProbePublic));
  match errPrivate, errPublic with
  | Err e1, Err e2 => fail (ErrBoth e2 e1)
  | Err e1, Ok _ => fail (ErrPrivate e1)
  | Ok _, Err e2 => fail (ErrPublic e2)
  | Ok _, Ok _ => mret tt
  end.

(** ** The registry of remote endpoints ([natdiscovery.go]) *)

Definition AddEndpoint (now : Z) (endPoint : EndpointObj) (fam : IPFamily) (nd : natDiscovery)
  : natDiscovery :=
  let remoteNAT := newRemoteEndpointNAT T now endPoint fam in
  let '(_, perr) := extractNATDiscoveryPort (Spec endPoint) in
  let legacy := bool_decide (is_Some perr) || (serverPort nd =? 0) in
  let remoteNAT := if legacy then useLegacyNATSettings now remoteNAT else remoteNAT in
  let nd := if legacy then send_ready (toNATEndpointInfo remoteNAT) nd else nd in
  let cableName := GetFamilyCableName (Spec endPoint) fam in
  match remoteEndpoints nd !! cableName with
  | None => with_remotes (insert cableName remoteNAT) nd
  | Some existing =>
      if Spec (endpoint existing) =?? Spec endPoint then
        if isDiscoveryComplete existing then send_ready (toNATEndpointInfo existing) nd else nd
      else with_remotes (insert cableName remoteNAT) nd
  end.

Definition RemoveEndpoint (endpointName : string) (nd : natDiscovery) : natDiscovery :=
  with_remotes (delete endpointName) nd.

(** The body of the iteration of [checkEndpointList] on one endpoint. *)
Definition check_endpoint (now : Z) (key : string) (nd : natDiscovery) : natDiscovery :=
  match remoteEndpoints nd !! key with
  | None => nd
  | Some rn =>
      if shouldCheck T now rn then
        if hasTimedOut now rn then
          let rn := useLegacyNATSettings now rn in
          send_ready (toNATEndpointInfo rn) (with_remotes (insert key rn) nd)
        else
          let '(_, (nd', rn')) := sendCheckRequest now (nd, rn) in
          with_remotes (insert key rn') nd'
      else nd
  end.

(** [sync.Map.Range] visits the keys in an order it chooses. *)
Definition checkEndpointList (now : Z) (order : list string) (nd : natDiscovery) : natDiscovery :=
  foldl (fun nd key => check_endpoint now key nd) nd order.

(** ** Listening ([listener.go]) *)
Definition runListener (fam : IPFamily) : eff natDiscovery nd_error unit :=
  nd ← getw;
  if serverPort nd =? 0 then mret tt
  else if CreateServerConnection (serverPort nd) fam then modifyw (add_writer fam)
  else fail (ErrListen fam).

Definition runListeners `{AdmiralSlices} : eff natDiscovery nd_error unit :=
  nd ← getw; for_each runListener (GetIPFamilies (LocalSpec nd)).

(** [Run] starts the listeners; the loop it then starts calls [checkEndpointList]. *)
Definition Run `{AdmiralSlices} : eff natDiscovery nd_error unit := runListeners.

Definition parseAndHandleMessageFromAddress (now : Z) (buf : bytes) (addr : UDPAddr)
  : eff natDiscovery nd_error unit :=
  match Unmarshal buf with
  | None => fail ErrUnmarshal
  | Some msg =>
      match payload msg with
      | MRequest request => handleRequestFromAddress request addr
      | MResponse response => handleResponseFromAddress now response addr
      | MNone => fail ErrNoMessage
      end
  end.

(** What [ReadFromUDP] returns: a datagram, the closed socket, another error. *)
Inductive read_result :=
| ReadOk (buf : bytes) (addr : UDPAddr)
| ReadClosed
| ReadError.

(** The loop runs on the reads it makes; handling errors are logged. *)
Fixpoint listenerLoop (reads : list (Z * read_result)) (nd : natDiscovery) : natDiscovery :=
  match reads with
  | [] => nd
  | (now, ReadOk buf addr) :: reads =>
      let nd := if (0 <? length buf)%nat
                then snd (parseAndHandleMessageFromAddress now buf addr nd) else nd in
      listenerLoop reads nd
  | (_, ReadClosed) :: _ => nd
  | (_, ReadError) :: reads => listenerLoop reads nd
  end.
End server.

(** * Runs of the server *)
Section runs.
Context `{K8sNet} `{AdmiralSlices}.
Variable T : Timers.
Variable Marshal : Message -> option bytes.
Variable Unmarshal : bytes -> option Message.
Variable WriteToUDP : IPFamily -> bytes -> UDPAddr -> option Z.
Variable FindSourceIP : string -> IPFamily -> option string.
Variable CreateServerConnection : Z -> IPFamily -> bool.

(** What happens to a server: its start, calls of the cable engine, ticks of the
    run loop, datagrams. *)
Inductive nd_event :=
| EvRun
| EvAdd (now : Z) (ep : EndpointObj) (fam : IPFamily)
| EvRemove (name : string)
| EvCheck (now : Z) (order : list string)
| EvRead (now : Z) (buf : bytes) (addr : UDPAddr).

Definition nd_step (nd : natDiscovery) (ev : nd_event) : natDiscovery :=
  match ev with
  | EvRun => snd (Run CreateServerConnection nd)
  | EvAdd now ep fam => AddEndpoint T now ep fam nd
  | EvRemove name => RemoveEndpoint name nd
  | EvCheck now order => checkEndpointList T Marshal WriteToUDP FindSourceIP now order nd
  | EvRead now buf addr =>
      snd (parseAndHandleMessageFromAddress T Marshal Unmarshal WriteToUDP now buf addr nd)
  end.

Definition nd_run (nd : natDiscovery) (evs : list nd_event) : natDiscovery := foldl nd_step nd evs.

(** A selected address is the one the state names. *)
Definition rn_wf (rn : remoteEndpointNAT) : Prop :=
  (state rn = selectedPublicIP -> useIP rn = GetPublicIP (Spec (endpoint rn)) (family rn)) /\
  (state rn = selectedPrivateIP -> useIP rn = GetPrivateIP (Spec (endpoint rn)) (family rn)).

Definition info_wf (i : NATEndpointInfo) : Prop :=
  UseIP i = GetPublicIP (Spec (info_Endpoint i)) (UseFamily i) \/
  UseIP i = GetPrivateIP (Spec (info_Endpoint i)) (UseFamily i).

(** The key an endpoint is stored under. *)
Definition rn_key (rn : remoteEndpointNAT) : string :=
  GetFamilyCableName (Spec (endpoint rn)) (family rn).

Definition nd_wf (nd : natDiscovery) : Prop :=
  map_Forall (fun key rn => key = rn_key rn /\ rn_wf rn) (remoteEndpoints nd) /\
  Forall info_wf (readyChannel nd).

(** The event re-registers [key] with another specification, or removes it. *)
Definition resets (ev : nd_event) (key : string) (rn : remoteEndpointNAT) : Prop :=
  match ev with
  | EvAdd _ ep fam => GetFamilyCableName (Spec ep) fam = key /\ Spec ep <> Spec (endpoint rn)
  | EvRemove name => name = key
  | _ => False
  end.
End runs.

(** * Lemmas *)

Section lemmas.
Context `{K8sNet} `{AdmiralSlices}.
Variable T : Timers.
Variable Marshal : Message -> option bytes.
Variable Unmarshal : bytes -> option Message.
Variable WriteToUDP : IPFamily -> bytes -> UDPAddr -> option Z.
Variable FindSourceIP : string -> IPFamily -> option string.
Variable CreateServerConnection : Z -> IPFamily -> bool.
Implicit Types (nd : natDiscovery) (rn : remoteEndpointNAT).

(** What a probe leaves alone. *)
Definition same_server nd nd' : Prop :=
  LocalSpec nd' = LocalSpec nd /\ remoteEndpoints nd' = remoteEndpoints nd /\
  readyChannel nd' = readyChannel nd /\ serverUDPWrite nd' = serverUDPWrite nd /\
  serverPort nd' = serverPort nd.

Definition same_remote rn rn' : Prop :=
  endpoint rn' = endpoint rn /\ family rn' = family rn /\ useIP rn' = useIP rn /\
  (isDiscoveryComplete rn = true -> state rn' = state rn) /\
  (isDiscoveryComplete rn = false -> isDiscoveryComplete rn' = false).

#[local] Instance same_server_pre : PreOrder same_server.
Proof.
  split; [intros nd; by repeat split|].
  intros a b c (?&?&?&?&?) (?&?&?&?&?); repeat split; congruence.
Qed.

Lemma complete_state rn rn' : state rn' = state rn ->
  isDiscoveryComplete rn' = isDiscoveryComplete rn.
Proof. unfold isDiscoveryComplete. by intros ->. Qed.

#[local] Instance same_remote_pre : PreOrder same_remote.
Proof.
  split; [intros rn; by repeat split|].
  intros a b c (Ea&Eb&Ec&H1&H2) (Fa&Fb&Fc&H3&H4). repeat split; try congruence.
  - intros Ha. rewrite H3, H1; try done. by rewrite (complete_state _ _ (H1 Ha)).
  - auto.
Qed.

Definition same_world (w w' : probe_world) : Prop :=
  same_server (fst w) (fst w') /\ same_remote (snd w) (snd w').

#[local] Instance same_world_pre : PreOrder same_world.
Proof.
  split; [by split|]. intros a b c [H1 H2] [H3 H4]. split; by etrans.
Qed.

Lemma keeps_if_err {W A} (R : relation W) (m : eff W nd_error A) :
  keeps R m -> keeps R (if_err m).
Proof. intros Hm w. specialize (Hm w). unfold if_err. by destruct (m w) as [[|[]] ?]. Qed.

Lemma udp_write_frame f buf addr : keeps same_server (udp_write WriteToUDP f buf addr).
Proof. unfold udp_write. frames. by apply keeps_modify. Qed.

Lemma keeps_on_server {A} (m : eff natDiscovery nd_error A) :
  keeps same_server m -> keeps same_world (on_server m).
Proof.
  intros Hm [nd rn]. specialize (Hm nd). unfold on_server. by destruct (m nd).
Qed.

Lemma keeps_on_remote f :
  (forall rn, same_remote rn (f rn)) -> keeps same_world (on_remote f).
Proof. intros Hf. apply keeps_modify. intros [nd rn]. split; [done|apply Hf]. Qed.

Lemma checkSent_same now rn : same_remote rn (checkSent now rn).
Proof.
  unfold same_remote, checkSent, isDiscoveryComplete. simpl. repeat split.
  - destruct (state rn); simpl; intros; done.
  - destruct (state rn); simpl; done.
Qed.

Lemma set_request_id_same p n rn : same_remote rn (set_request_id p n rn).
Proof. by repeat split. Qed.

(** A probe changes only the counter, the wire and the bookkeeping of the
    endpoint probed. *)
Lemma sendCheckRequestToTargetIP_frame now ip p :
  keeps same_world (sendCheckRequestToTargetIP Marshal WriteToUDP FindSourceIP now ip p).
Proof.
  unfold sendCheckRequestToTargetIP. frames.
  all: try (apply keeps_on_remote; intros; first [apply checkSent_same | apply set_request_id_same]).
  - apply keeps_on_server. by apply keeps_modify.
  - apply keeps_if_err, keeps_on_server, udp_write_frame.
Qed.

Lemma sendCheckRequest_frame now :
  keeps same_world (sendCheckRequest Marshal WriteToUDP FindSourceIP now).
Proof.
  unfold sendCheckRequest. frames.
  all: apply keeps_if_err, sendCheckRequestToTargetIP_frame.
Qed.

(** ** Well-formedness *)

Lemma useLegacy_wf now rn : rn_wf (useLegacyNATSettings now rn).
Proof. unfold useLegacyNATSettings. repeat case_match; by split. Qed.

Lemma useLegacy_same now rn : endpoint (useLegacyNATSettings now rn) = endpoint rn /\
  family (useLegacyNATSettings now rn) = family rn /\
  isDiscoveryComplete (useLegacyNATSettings now rn) = true.
Proof. unfold useLegacyNATSettings. repeat case_match; by repeat split. Qed.

Lemma info_of_complete rn : rn_wf rn -> isDiscoveryComplete rn = true ->
  info_wf (toNATEndpointInfo rn).
Proof.
  intros [H1 H2]. unfold isDiscoveryComplete, info_wf, toNATEndpointInfo. simpl.
  rewrite orb_true_iff, !bool_decide_eq_true. intros [?|?]; auto.
Qed.

Lemma transitionToPublicIP_spec now nat rn rn' : transitionToPublicIP now nat rn = (true, rn') ->
  state rn = waitingForResponse /\ state rn' = selectedPublicIP /\ endpoint rn' = endpoint rn /\
  family rn' = family rn /\ useNAT rn' = nat /\ rn_wf rn'.
Proof.
  unfold transitionToPublicIP. destruct (state rn) eqn:Hs; try done. intros [= <-].
  by repeat split.
Qed.

Lemma transitionToPrivateIP_spec now nat rn rn' :
  transitionToPrivateIP T now nat rn = (true, rn') ->
  (state rn = waitingForResponse \/ (state rn = selectedPublicIP /\
     now - lastTransition rn <= PublicToPrivateFailoverTimeout T)) /\
  state rn' = selectedPrivateIP /\ endpoint rn' = endpoint rn /\
  family rn' = family rn /\ useNAT rn' = nat /\ rn_wf rn'.
Proof.
  unfold transitionToPrivateIP, sinceLastTransition.
  destruct (state rn) eqn:Hs; try done; [intros [= <-]; split; [by left|by repeat split]|].
  destruct (Z.ltb_spec (PublicToPrivateFailoverTimeout T) (now - lastTransition rn)); [done|].
  intros [= <-]. split; [by right|]. by repeat split.
Qed.

Lemma complete_of_public rn : state rn = selectedPublicIP -> isDiscoveryComplete rn = true.
Proof. unfold isDiscoveryComplete. by intros ->. Qed.
Lemma complete_of_private rn : state rn = selectedPrivateIP -> isDiscoveryComplete rn = true.
Proof. unfold isDiscoveryComplete. by intros ->. Qed.

Lemma put_wf key rn nd : nd_wf nd -> key = rn_key rn -> rn_wf rn ->
  nd_wf (with_remotes (insert key rn) nd).
Proof.
  intros [Hm Hc] Hk Hr. split; [|done]. simpl. by apply map_Forall_insert_2.
Qed.

Lemma send_wf i nd : nd_wf nd -> info_wf i -> nd_wf (send_ready i nd).
Proof. intros [Hm Hc] Hi. split; [done|]. simpl. apply Forall_app; split; [done|by constructor]. Qed.

Lemma get_wf key rn nd : nd_wf nd -> remoteEndpoints nd !! key = Some rn ->
  key = rn_key rn /\ rn_wf rn.
Proof. intros [Hm _] Hl. by apply (Hm key rn). Qed.

Lemma same_server_wf nd nd' : same_server nd nd' -> nd_wf nd -> nd_wf nd'.
Proof. intros (_ & H1 & H2 & _) [Hm Hc]. split; [by rewrite H1|by rewrite H2]. Qed.

Lemma same_remote_wf rn rn' : same_remote rn rn' -> rn_wf rn -> rn_wf rn'.
Proof.
  intros (He & Hf & Hu & Hc & Hn) Hw. unfold rn_wf. rewrite He, Hf, Hu.
  destruct (isDiscoveryComplete rn) eqn:Hd; [by rewrite Hc|].
  specialize (Hn eq_refl). unfold isDiscoveryComplete in Hn.
  apply orb_false_iff in Hn as [H1%bool_decide_eq_false H2%bool_decide_eq_false]. done.
Qed.

Lemma AddEndpoint_wf now ep fam nd : nd_wf nd -> nd_wf (AddEndpoint T now ep fam nd).
Proof.
  intros Hw. unfold AddEndpoint. destruct (extractNATDiscoveryPort _) as [p perr].
  set (legacy := _ || _). set (rn0 := newRemoteEndpointNAT _ _ _ _).
  set (rn := if legacy then _ else rn0).
  assert (rn_key rn = GetFamilyCableName (Spec ep) fam /\ rn_wf rn) as [Hk Hr].
  { unfold rn. destruct legacy; [|done]. split; [|apply useLegacy_wf].
    unfold rn_key. by destruct (useLegacy_same now rn0) as (-> & -> & _). }
  set (nd1 := if legacy then _ else nd).
  assert (nd_wf nd1 /\ remoteEndpoints nd1 = remoteEndpoints nd) as [Hw1 He].
  { unfold nd1, rn. destruct legacy; [|done]. split; [|done]. apply send_wf; [done|].
    apply info_of_complete; [apply useLegacy_wf|apply useLegacy_same]. }
  destruct (remoteEndpoints nd1 !! _) as [ex|] eqn:Hl; [|by apply put_wf].
  case_bool_decide; [|by apply put_wf]. destruct (isDiscoveryComplete ex) eqn:Hd; [|done].
  apply send_wf; [done|]. apply info_of_complete; [|done]. by eapply get_wf.
Qed.

Lemma check_endpoint_wf now key nd : nd_wf nd ->
  nd_wf (check_endpoint T Marshal WriteToUDP FindSourceIP now key nd).
Proof.
  intros Hw. unfold check_endpoint. destruct (remoteEndpoints nd !! key) as [rn|] eqn:Hl; [|done].
  destruct (get_wf _ _ _ Hw Hl) as [Hk Hr]. destruct (shouldCheck _ _ _); [|done].
  destruct (hasTimedOut _ _).
  - destruct (useLegacy_same now rn) as (He & Hf & Hc).
    apply send_wf; [apply put_wf|]; [done| |apply useLegacy_wf|].
    + unfold rn_key. by rewrite He, Hf.
    + apply info_of_complete; [apply useLegacy_wf|done].
  - pose proof (sendCheckRequest_frame now (nd, rn)) as Hs.
    destruct (sendCheckRequest _ _ _ _ _) as [r [nd' rn']]. destruct Hs as [Hs1 Hs2]. simpl in *.
    apply put_wf; [by eapply same_server_wf| |by eapply same_remote_wf].
    destruct Hs2 as (He & Hf & _). unfold rn_key. by rewrite He, Hf.
Qed.

Lemma handleResponse_wf now resp addr nd : nd_wf nd ->
  nd_wf (handleResponseFromAddress T now resp addr nd).2.
Proof.
  intros Hw. unfold handleResponseFromAddress, getw, fail, mbind, eff_bind, mret, eff_ret.
  destruct (resp_Sender resp) as [sd|]; [|done]. destruct (resp_Receiver resp); [|done].
  destruct (ReceivedSrc resp); [|done]. case_match; [done|].
  destruct (remoteEndpoints nd !! _) as [rn|] eqn:Hl; [|done].
  destruct (get_wf _ _ _ Hw Hl) as [Hk Hr].
  assert (forall rn', endpoint rn' = endpoint rn -> family rn' = family rn -> rn_wf rn' ->
    isDiscoveryComplete rn' = true ->
    nd_wf (send_ready (toNATEndpointInfo rn') (with_remotes (insert (EndpointId sd) rn') nd))) as Hput.
  { intros rn' He Hf Hr' Hc. apply send_wf; [|by apply info_of_complete].
    apply put_wf; [done| |done]. unfold rn_key. by rewrite He, Hf. }
  case_match.
  - destruct (transitionToPublicIP _ _ _) as [[] rn'] eqn:Ht; [|done].
    apply transitionToPublicIP_spec in Ht as (_ & Hs & He & Hf & _ & Hr').
    apply Hput; try done. by apply complete_of_public.
  - case_match; [|done]. case_match; [done|].
    destruct (transitionToPrivateIP _ _ _ _) as [[] rn'] eqn:Ht; [|done].
    apply transitionToPrivateIP_spec in Ht as (_ & Hs & He & Hf & _ & Hr').
    apply Hput; try done. by apply complete_of_private.
Qed.

Lemma sendResponse_frame r addr :
  keeps same_server (sendResponseToAddress Marshal WriteToUDP r addr).
Proof. unfold sendResponseToAddress. case_match; [apply udp_write_frame|apply keeps_fail, _]. Qed.

Lemma handleRequest_frame req addr :
  keeps same_server (handleRequestFromAddress Marshal WriteToUDP req addr).
Proof. unfold handleRequestFromAddress. frames. apply sendResponse_frame. Qed.

(** Starting the listeners only adds writers. *)
Definition same_registry nd nd' : Prop :=
  remoteEndpoints nd' = remoteEndpoints nd /\ readyChannel nd' = readyChannel nd.

#[local] Instance same_registry_pre : PreOrder same_registry.
Proof. split; [by repeat split|]. intros a b c [] []; split; congruence. Qed.

Lemma Run_frame : keeps same_registry (Run CreateServerConnection).
Proof.
  unfold Run, runListeners. frames. unfold runListener. frames. by apply keeps_modify.
Qed.

Lemma nd_step_wf nd ev : nd_wf nd ->
  nd_wf (nd_step T Marshal Unmarshal WriteToUDP FindSourceIP CreateServerConnection nd ev).
Proof.
  intros Hw. destruct ev as [|now ep fam|name|now order|now buf addr]; simpl.
  - destruct (Run_frame nd) as [H1 H2]. unfold nd_wf. by rewrite H1, H2.
  - by apply AddEndpoint_wf.
  - destruct Hw as [Hm Hc]. split; [|done]. simpl. by apply map_Forall_delete.
  - unfold checkEndpointList. revert nd Hw. induction order as [|k l IH]; intros nd Hw; [done|].
    simpl. apply IH. by apply check_endpoint_wf.
  - unfold parseAndHandleMessageFromAddress. destruct (Unmarshal buf) as [m|]; [|done].
    destruct (payload m) as [r|r|]; [|by apply handleResponse_wf|done].
    eapply same_server_wf; [apply handleRequest_frame|done].
Qed.

Lemma nd_run_preserves nd evs : nd_wf nd ->
  nd_wf (nd_run T Marshal Unmarshal WriteToUDP FindSourceIP CreateServerConnection nd evs).
Proof.
  revert nd. induction evs as [|ev evs IH]; intros nd Hw; [done|]. simpl. by apply IH, nd_step_wf.
Qed.

(** ** Stability of a selection *)

(** [rn'] is [rn], or [rn] moved from its public to its private address. *)
Definition settles rn rn' : Prop :=
  rn' = rn \/ (state rn = selectedPublicIP /\ state rn' = selectedPrivateIP /\
               endpoint rn' = endpoint rn /\ family rn' = family rn).

Lemma settles_complete rn rn' : settles rn rn' -> isDiscoveryComplete rn = true ->
  isDiscoveryComplete rn' = true.
Proof. intros [->|(_ & Hs & _)]; [done|]. intros. by apply complete_of_private. Qed.

Lemma settles_trans a b c : settles a b -> settles b c -> settles a c.
Proof.
  intros [->|(H1 & H2 & H3 & H4)]; [done|]. intros [->|(H5 & _)].
  - right. done.
  - congruence.
Qed.

Lemma settles_endpoint rn rn' : settles rn rn' -> endpoint rn' = endpoint rn.
Proof. by intros [->|(_ & _ & ? & _)]. Qed.

Lemma shouldCheck_complete now rn : isDiscoveryComplete rn = true -> shouldCheck T now rn = false.
Proof.
  unfold isDiscoveryComplete, shouldCheck. destruct (state rn); simpl; intros; done.
Qed.

Lemma check_endpoint_other now key k nd : k <> key ->
  remoteEndpoints (check_endpoint T Marshal WriteToUDP FindSourceIP now k nd) !! key =
  remoteEndpoints nd !! key.
Proof.
  intros Hne. unfold check_endpoint. destruct (remoteEndpoints nd !! k) as [r|]; [|done].
  destruct (shouldCheck _ _ _); [|done]. destruct (hasTimedOut _ _).
  - simpl. by rewrite lookup_insert_ne.
  - pose proof (sendCheckRequest_frame now (nd, r)) as Hs.
    destruct (sendCheckRequest _ _ _ _ _) as [x [nd' r']]. destruct Hs as [(_ & Hs & _) _].
    simpl in *. rewrite lookup_insert_ne by done. by rewrite Hs.
Qed.

Lemma check_endpoint_complete now k key rn nd : remoteEndpoints nd !! key = Some rn ->
  isDiscoveryComplete rn = true ->
  remoteEndpoints (check_endpoint T Marshal WriteToUDP FindSourceIP now k nd) !! key = Some rn.
Proof.
  intros Hl Hc. destruct (decide (k = key)) as [->|Hne]; [|by rewrite check_endpoint_other].
  unfold check_endpoint. rewrite Hl. by rewrite shouldCheck_complete.
Qed.

Lemma checkEndpointList_complete now order key rn nd : remoteEndpoints nd !! key = Some rn ->
  isDiscoveryComplete rn = true ->
  remoteEndpoints (checkEndpointList T Marshal WriteToUDP FindSourceIP now order nd) !! key = Some rn.
Proof.
  intros Hl Hc. unfold checkEndpointList. revert nd Hl.
  induction order as [|k l IH]; intros nd Hl; [done|]. simpl. apply IH.
  by apply check_endpoint_complete.
Qed.

Lemma handleResponse_settles now resp addr nd key rn : remoteEndpoints nd !! key = Some rn ->
  isDiscoveryComplete rn = true ->
  exists rn', remoteEndpoints (handleResponseFromAddress T now resp addr nd).2 !! key = Some rn' /\
    settles rn rn'.
Proof.
  intros Hl Hc. unfold handleResponseFromAddress, getw, fail, mbind, eff_bind, mret, eff_ret.
  assert (settles rn rn) as Hrefl by (by left).
  destruct (resp_Sender resp) as [sd|]; [|by eauto]. destruct (resp_Receiver resp); [|by eauto].
  destruct (ReceivedSrc resp); [|by eauto]. case_match; [by eauto|].
  destruct (remoteEndpoints nd !! EndpointId sd) as [r|] eqn:Hr; [|by eauto].
  destruct (decide (EndpointId sd = key)) as [Hk|Hne].
  - rewrite Hk in *. rewrite Hl in Hr. injection Hr as <-. case_match.
    + destruct (transitionToPublicIP _ _ _) as [[] rn'] eqn:Ht; [|by eauto].
      apply transitionToPublicIP_spec in Ht as (Hs & _).
      unfold isDiscoveryComplete in Hc. by rewrite Hs in Hc.
    + case_match; [|by eauto]. case_match; [by eauto|].
      destruct (transitionToPrivateIP _ _ _ _) as [[] rn'] eqn:Ht; [|by eauto].
      apply transitionToPrivateIP_spec in Ht as (Hs & Hs' & He & Hf & _).
      exists rn'. simpl. rewrite lookup_insert_eq. split; [done|].
      destruct Hs as [Hs|[Hs _]]; [|by right].
      unfold isDiscoveryComplete in Hc. by rewrite Hs in Hc.
  - case_match; [|case_match; [case_match|]]; try by eauto.
    all: match goal with |- context [match ?t with _ => _ end] => destruct t as [[] ?] end.
    all: simpl; rewrite ?lookup_insert_ne by done; by eauto.
Qed.

Lemma nd_step_settles nd ev key rn : remoteEndpoints nd !! key = Some rn ->
  isDiscoveryComplete rn = true -> ~ resets ev key rn ->
  exists rn', remoteEndpoints (nd_step T Marshal Unmarshal WriteToUDP FindSourceIP CreateServerConnection nd ev) !! key = Some rn' /\
    settles rn rn'.
Proof.
  intros Hl Hc Hr. assert (settles rn rn) as Hrefl by (by left).
  destruct ev as [|now ep fam|name|now order|now buf addr]; simpl in *.
  - destruct (Run_frame nd) as [-> _]. eauto.
  - unfold AddEndpoint. destruct (extractNATDiscoveryPort _) as [p perr].
    set (legacy := _ || _). set (rn1 := if legacy then _ else newRemoteEndpointNAT _ _ _ _).
    set (nd1 := if legacy then _ else nd).
    assert (remoteEndpoints nd1 = remoteEndpoints nd) as He by (by unfold nd1; destruct legacy).
    destruct (decide (GetFamilyCableName (Spec ep) fam = key)) as [Hk|Hne].
    + rewrite Hk, He, Hl. case_bool_decide as Hs; [|exfalso; apply Hr; split; congruence].
      destruct (isDiscoveryComplete rn); simpl; rewrite He; eauto.
    + destruct (remoteEndpoints nd1 !! GetFamilyCableName (Spec ep) fam) as [ex|].
      * case_bool_decide; [destruct (isDiscoveryComplete ex)|];
          simpl; rewrite ?lookup_insert_ne by done; rewrite He; eauto.
      * simpl. rewrite lookup_insert_ne, He by done. eauto.
  - rewrite lookup_delete_ne by done. eauto.
  - exists rn. split; [|done]. by apply checkEndpointList_complete.
  - unfold parseAndHandleMessageFromAddress. destruct (Unmarshal buf) as [m|]; [|by eauto].
    destruct (payload m) as [r|r|]; [|by apply handleResponse_settles|by eauto].
    destruct (handleRequest_frame r addr nd) as (_ & -> & _). eauto.
Qed.

(** The channel only grows. *)
Lemma check_endpoint_channel now k nd i : i ∈ readyChannel nd ->
  i ∈ readyChannel (check_endpoint T Marshal WriteToUDP FindSourceIP now k nd).
Proof.
  intros Hi. unfold check_endpoint. destruct (remoteEndpoints nd !! k) as [r|]; [|done].
  destruct (shouldCheck _ _ _); [|done]. destruct (hasTimedOut _ _).
  - simpl. apply elem_of_app. by left.
  - pose proof (sendCheckRequest_frame now (nd, r)) as Hs.
    destruct (sendCheckRequest _ _ _ _ _) as [x [nd' r']]. destruct Hs as [(_ & _ & Hs & _) _].
    simpl in *. by rewrite Hs.
Qed.

Lemma checkEndpointList_channel now order nd i : i ∈ readyChannel nd ->
  i ∈ readyChannel (checkEndpointList T Marshal WriteToUDP FindSourceIP now order nd).
Proof.
  unfold checkEndpointList. revert nd. induction order as [|k l IH]; intros nd Hi; [done|].
  simpl. by apply IH, check_endpoint_channel.
Qed.

(** ** One probe and its answer *)

Lemma udp_write_ok f buf addr nd : f ∈ serverUDPWrite nd ->
  WriteToUDP f buf addr = Some (Z.of_nat (length buf)) ->
  udp_write WriteToUDP f buf addr nd =
  (Ok tt, put_wire {| d_family := f; d_bytes := buf; d_addr := addr |} nd).
Proof.
  intros Hf Hw. unfold udp_write, getw, modifyw, mbind, eff_bind. simpl.
  rewrite bool_decide_true by done. simpl. by rewrite Hw, Z.eqb_refl.
Qed.

Lemma probe_ok now ip p nd rn port src buf :
  extractNATDiscoveryPort (Spec (endpoint rn)) = (port, None) ->
  FindSourceIP ip (family rn) = Some src -> family rn ∈ serverUDPWrite nd ->
  Marshal {| Version := version; payload := MRequest
    (build_request (LocalSpec nd) rn (uint64_add (requestCounter nd) 1) src (serverPort nd) ip port) |}
    = Some buf ->
  WriteToUDP (family rn) buf {| addr_IP := ParseIP ip; addr_Port := port |}
    = Some (Z.of_nat (length buf)) ->
  sendCheckRequestToTargetIP Marshal WriteToUDP FindSourceIP now ip p (nd, rn) =
  (Ok tt, (put_wire {| d_family := family rn; d_bytes := buf;
                       d_addr := {| addr_IP := ParseIP ip; addr_Port := port |} |}
             (with_counter (uint64_add (requestCounter nd) 1) nd),
           checkSent now (set_request_id p (uint64_add (requestCounter nd) 1) rn))).
Proof.
  intros Hp Hs Hf Hm Hw. unfold sendCheckRequestToTargetIP, getw, mbind, eff_bind.
  rewrite Hp, Hs. unfold on_server at 1. unfold modifyw at 1. rewrite Hm.
  unfold on_remote at 1. unfold modifyw at 1. unfold if_err, on_server.
  rewrite udp_write_ok; done.
Qed.

(** The header of an answer does not depend on the verdict. *)
Lemma respond_to_fields localSpec req addr :
  let r := respond_to localSpec req addr in
  resp_Number r = req_Number req /\ resp_Receiver r = req_Sender req /\
  resp_Sender r = Some {| ClusterId := ClusterID localSpec;
                          EndpointId := GetFamilyCableName localSpec (addr_family addr) |} /\
  is_Some (ReceivedSrc r).
Proof.
  assert (forall t a b c, let r := set_verdict t a b c (base_response localSpec req addr) in
    resp_Number r = req_Number req /\ resp_Receiver r = req_Sender req /\
    resp_Sender r = Some {| ClusterId := ClusterID localSpec;
                            EndpointId := GetFamilyCableName localSpec (addr_family addr) |} /\
    is_Some (ReceivedSrc r)) as Hv by (intros; repeat split; by eexists).
  unfold respond_to. repeat case_match; apply Hv.
Qed.

Lemma respond_ok buf req addr nd :
  IPFamilyOf (addr_IP addr) ∈ serverUDPWrite nd ->
  Marshal {| Version := version; payload := MResponse (respond_to (LocalSpec nd) req addr) |} = Some buf ->
  WriteToUDP (IPFamilyOf (addr_IP addr)) buf addr = Some (Z.of_nat (length buf)) ->
  handleRequestFromAddress Marshal WriteToUDP req addr nd =
  (Ok tt, put_wire {| d_family := IPFamilyOf (addr_IP addr); d_bytes := buf; d_addr := addr |} nd).
Proof.
  intros Hf Hm Hw. unfold handleRequestFromAddress, getw, mbind, eff_bind, sendResponseToAddress.
  rewrite Hm. by apply udp_write_ok.
Qed.

Lemma private_response_ok now resp addr nd sd rn :
  resp_Sender resp = Some sd -> is_Some (resp_Receiver resp) -> is_Some (ReceivedSrc resp) ->
  resp_Response resp = OK \/ resp_Response resp = NAT_DETECTED ->
  remoteEndpoints nd !! EndpointId sd = Some rn -> state rn = waitingForResponse ->
  lastPublicIPRequestID rn <> resp_Number resp -> lastPrivateIPRequestID rn = resp_Number resp ->
  Equal (addr_IP addr) (ParseIP (GetPrivateIP (Spec (endpoint rn)) (family rn))) = true ->
  let rn' := transitionToState now selectedPrivateIP
    (select (GetPrivateIP (Spec (endpoint rn)) (family rn)) (resp_Response resp =?? NAT_DETECTED) rn) in
  handleResponseFromAddress T now resp addr nd =
  (Ok tt, send_ready (toNATEndpointInfo rn') (with_remotes (insert (EndpointId sd) rn') nd)).
Proof.
  intros Hs [rc Hr] [rs Hrs] Hv Hl Hst Hpub Hpriv Heq rn'.
  unfold handleResponseFromAddress, getw, mbind, eff_bind, mret, eff_ret. rewrite Hs, Hr, Hrs.
  replace (negb (resp_Response resp =?? OK) && negb (resp_Response resp =?? NAT_DETECTED)) with false
    by (destruct Hv as [-> | ->]; done).
  rewrite Hl. destruct (Z.eqb_spec (lastPublicIPRequestID rn) (resp_Number resp)); [done|].
  rewrite Hpriv, Z.eqb_refl, Heq. simpl. unfold transitionToPrivateIP. by rewrite Hst.
Qed.
End lemmas.

(** * Properties *)

Section properties.
Context `{K8sNet} `{AdmiralSlices}.
Variable T : Timers.
Variable Marshal : Message -> option bytes.
Variable Unmarshal : bytes -> option Message.
Variable WriteToUDP : IPFamily -> bytes -> UDPAddr -> option Z.
Variable FindSourceIP : string -> IPFamily -> option string.
Variable CreateServerConnection : Z -> IPFamily -> bool.

Abbreviation run := (nd_run T Marshal Unmarshal WriteToUDP FindSourceIP CreateServerConnection).

(** C12: in every state the server reaches, an endpoint is stored under its
    family cable name, a selected address is the public or private address the
    state names, and every value sent on the ready channel carries one of the
    two addresses of its endpoint. *)
Theorem nd_run_wf (localSpec : EndpointSpec) (rand : Z) (nd : natDiscovery) (evs : list nd_event) :
  NewWithConfig localSpec rand = Ok nd -> nd_wf (run nd evs).
Proof.
  intros Hn. apply nd_run_preserves. unfold NewWithConfig in Hn.
  destruct (GetBackendPort _ _ _) as [p [e|]]; [done|]. injection Hn as <-.
  split; [apply map_Forall_empty|constructor].
Qed.

(** once discovery of an endpoint is complete, no event except its removal
    or its registration with another specification takes the selection back;
    it can only move from the public to the private address. *)
Lemma nd_selection_stable (nd : natDiscovery) (evs : list nd_event) (key : string)
    (rn : remoteEndpointNAT) :
  remoteEndpoints nd !! key = Some rn -> isDiscoveryComplete rn = true ->
  Forall (fun ev => ~ resets ev key rn) evs ->
  exists rn', remoteEndpoints (run nd evs) !! key = Some rn' /\ settles rn rn'.
Proof.
  intros Hl Hc Hevs. revert nd rn Hl Hc Hevs.
  induction evs as [|ev evs IH]; intros nd rn Hl Hc Hevs; [exists rn; split; [done|by left]|].
  apply Forall_cons in Hevs as [Hev Hevs].
  destruct (nd_step_settles T Marshal Unmarshal WriteToUDP FindSourceIP CreateServerConnection nd ev key rn Hl Hc Hev)
    as (rn1 & Hl1 & Hs1).
  destruct (IH _ rn1 Hl1) as (rn2 & Hl2 & Hs2).
  - by eapply settles_complete.
  - eapply Forall_impl; [done|]. intros e He Hr. apply He. destruct e; simpl in *; try done.
    by rewrite <-(settles_endpoint _ _ Hs1).
  - exists rn2. split; [done|]. by eapply settles_trans.
Qed.

(** discovery terminates: a tick that finds an endpoint past its timeout
    and due for a check selects the legacy address, and sends it on the ready
    channel, whatever the network did. *)
Lemma nd_timeout_completes (nd : natDiscovery) (now : Z) (order : list string) (key : string)
    (rn : remoteEndpointNAT) :
  remoteEndpoints nd !! key = Some rn -> isDiscoveryComplete rn = false -> key ∈ order ->
  timeout rn < now - started rn -> RecheckTime T < now - lastCheck rn ->
  let nd' := checkEndpointList T Marshal WriteToUDP FindSourceIP now order nd in
  remoteEndpoints nd' !! key = Some (useLegacyNATSettings now rn) /\
  isDiscoveryComplete (useLegacyNATSettings now rn) = true /\
  toNATEndpointInfo (useLegacyNATSettings now rn) ∈ readyChannel nd'.
Proof.
  intros Hl Hc Ho Ht Hr. simpl. revert nd Hl. induction order as [|k l IH]; intros nd Hl.
  { by apply not_elem_of_nil in Ho. }
  destruct (useLegacy_same now rn) as (_ & _ & Hd).
  destruct (decide (k = key)) as [->|Hne].
  - assert (shouldCheck T now rn = true) as Hs.
    { unfold shouldCheck, isDiscoveryComplete in *. destruct (state rn); try done.
      by apply Z.ltb_lt. }
    assert (hasTimedOut now rn = true) as Hto by (by apply Z.ltb_lt).
    set (nd1 := check_endpoint T Marshal WriteToUDP FindSourceIP now key nd).
    assert (remoteEndpoints nd1 !! key = Some (useLegacyNATSettings now rn) /\
            toNATEndpointInfo (useLegacyNATSettings now rn) ∈ readyChannel nd1) as [H1 H2].
    { unfold nd1, check_endpoint. rewrite Hl, Hs, Hto. simpl. split.
      - by rewrite lookup_insert_eq.
      - apply elem_of_app. right. by left. }
    split; [|split; [done|]].
    + by apply (checkEndpointList_complete T Marshal WriteToUDP FindSourceIP now l key).
    + by apply (checkEndpointList_channel T Marshal WriteToUDP FindSourceIP now l).
  - apply elem_of_cons in Ho as [->|Ho]; [done|].
    apply (IH Ho). simpl. by rewrite check_endpoint_other.
Qed.

(** the verdict on a probe. It is malformed when a part is missing,
    refused for another cluster or another endpoint, and otherwise reports NAT
    exactly when the source address or port seen differs from the one the
    sender used, or the address used is not the private address. *)
Lemma respond_to_verdict (localSpec : EndpointSpec) (req : Request) (addr : UDPAddr) :
  let r := respond_to localSpec req addr in
  let fam := addr_family addr in
  resp_Number r = req_Number req /\
  (forall rc sd dst src, req_Receiver req = Some rc -> req_Sender req = Some sd ->
     req_UsingDst req = Some dst -> req_UsingSrc req = Some src ->
     resp_Response r =
       (if decide (ClusterId rc <> ClusterID localSpec) then UNKNOWN_DST_CLUSTER
        else if decide (EndpointId rc <> GetFamilyCableName localSpec fam) then UNKNOWN_DST_ENDPOINT
        else if decide ((pair_IP src <> "" /\ pair_IP src <> ip_string (addr_IP addr)) \/
                        pair_Port src <> addr_Port addr \/
                        pair_IP dst <> GetPrivateIP localSpec fam)
             then NAT_DETECTED else OK)) /\
  (req_Receiver req = None \/ req_Sender req = None \/ req_UsingDst req = None \/
     req_UsingSrc req = None -> resp_Response r = MALFORMED).
Proof.
  simpl. unfold respond_to. split; [by repeat case_match|]. split.
  - intros rc sd dst src -> -> -> ->.
    destruct (decide (ClusterId rc = ClusterID localSpec)) as [Hc|Hc];
      [rewrite (bool_decide_true _ Hc), decide_False by tauto
      |by rewrite (bool_decide_false _ Hc), decide_True by tauto]. simpl.
    destruct (decide (EndpointId rc = GetFamilyCableName localSpec (addr_family addr))) as [He|He];
      [rewrite (bool_decide_true _ He), decide_False by tauto
      |by rewrite (bool_decide_false _ He), decide_True by tauto]. simpl.
    case_decide as Hd; case_match eqn:Hb; try done; exfalso.
    + apply orb_false_iff in Hb as [Hb H3%negb_false_iff%bool_decide_eq_true].
      apply orb_false_iff in Hb as [H1%negb_false_iff%Z.eqb_eq H2].
      apply andb_false_iff in H2 as [H2%negb_false_iff%bool_decide_eq_true
                                    |H2%negb_false_iff%bool_decide_eq_true]; tauto.
    + apply Hd. rewrite !orb_true_iff, andb_true_iff, !negb_true_iff, !bool_decide_eq_false,
        Z.eqb_neq in Hb. tauto.
  - intros Hn. destruct (req_Receiver req), (req_Sender req), (req_UsingDst req), (req_UsingSrc req);
      try done; by destruct Hn as [|[|[|]]].
Qed.

(** What the other end answers to a probe of this node. *)
Lemma probe_verdict (nda ndb : natDiscovery) (rn : remoteEndpointNAT) number (src : UDPAddr) srcIP target port :
  Spec (endpoint rn) = LocalSpec ndb -> addr_family src = family rn -> target = GetPrivateIP (LocalSpec ndb) (family rn) ->
  resp_Response (respond_to (LocalSpec ndb) (build_request (LocalSpec nda) rn number srcIP (serverPort nda) target port) src) =
    if bool_decide ((srcIP <> "" /\ srcIP <> ip_string (addr_IP src)) \/ serverPort nda <> addr_Port src)
    then NAT_DETECTED else OK.
Proof.
  intros Hspec Hfam ->. assert (Hkey : GetFamilyCableName (LocalSpec ndb) (family rn) = rn_key rn) by (unfold rn_key; by rewrite Hspec).
  set (req := build_request _ _ _ _ _ _ _).
  unfold respond_to, req, build_request. cbn [req_Receiver req_Sender req_UsingDst req_UsingSrc].
  simpl. rewrite Hfam, Hspec, Hkey, !(bool_decide_true _ eq_refl). simpl.
  rewrite orb_false_r.
  destruct (decide (serverPort nda = addr_Port src)) as [->|Hne].
  - rewrite Z.eqb_refl. simpl. f_equal.
    rewrite !(bool_decide_ext (_ \/ _ <> _) (srcIP <> "" /\ srcIP <> ip_string (addr_IP src)))
      by (split; [by intros [|]|by left]).
    rewrite bool_decide_and, !bool_decide_not. done.
  - rewrite (proj2 (Z.eqb_neq _ _) Hne). simpl. rewrite bool_decide_true by by right. done.
Qed.

(** C14: the protocol end to end. A probe of the private address reaches the
    other gateway from [src], its answer comes back from the probed address:
    the prober selects the private address, uses NAT exactly when the source
    address or port was rewritten on the way, and hands the cable engine the
    result. *)
Theorem natdiscovery_end_to_end (nda ndb : natDiscovery) (rn : remoteEndpointNAT)
    (src from : UDPAddr) (now1 now2 port : Z) (srcIP : string) :
  (forall m b, Marshal m = Some b -> Unmarshal b = Some m) ->
  (forall m, is_Some (Marshal m)) ->
  (forall f b a, WriteToUDP f b a = Some (Z.of_nat (length b))) ->
  let target := GetPrivateIP (LocalSpec ndb) (family rn) in
  Spec (endpoint rn) = LocalSpec ndb -> isDiscoveryComplete rn = false ->
  extractNATDiscoveryPort (LocalSpec ndb) = (port, None) ->
  FindSourceIP target (family rn) = Some srcIP ->
  lastPublicIPRequestID rn <> uint64_add (requestCounter nda) 1 ->
  family rn ∈ serverUDPWrite nda ->
  addr_family src = family rn -> IPFamilyOf (addr_IP src) ∈ serverUDPWrite ndb ->
  Equal (addr_IP from) (ParseIP target) = true ->
  exists nda1 rn1 d1 ndb1 d2 nda2 rn2,
    sendCheckRequestToTargetIP Marshal WriteToUDP FindSourceIP now1 target ProbePrivate (nda, rn)
      = (Ok tt, (nda1, rn1)) /\
    wire nda1 = wire nda ++ [d1] /\ addr_Port (d_addr d1) = port /\
    parseAndHandleMessageFromAddress T Marshal Unmarshal WriteToUDP now2 (d_bytes d1) src ndb
      = (Ok tt, ndb1) /\
    wire ndb1 = wire ndb ++ [d2] /\ d_addr d2 = src /\
    parseAndHandleMessageFromAddress T Marshal Unmarshal WriteToUDP now2 (d_bytes d2) from
      (with_remotes (insert (rn_key rn) rn1) nda1) = (Ok tt, nda2) /\
    remoteEndpoints nda2 !! rn_key rn = Some rn2 /\
    state rn2 = selectedPrivateIP /\ useIP rn2 = target /\
    useNAT rn2 = bool_decide ((srcIP <> "" /\ srcIP <> ip_string (addr_IP src)) \/
                              serverPort nda <> addr_Port src) /\
    readyChannel nda2 = readyChannel nda ++ [toNATEndpointInfo rn2].
Proof.
  intros Hcodec Htot Hwr target Hspec Hinc Hport Hsrc Hpub Hf Hfam Hfb Hfrom.
  set (number := uint64_add (requestCounter nda) 1) in *.
  set (req := build_request (LocalSpec nda) rn number srcIP (serverPort nda) target port).
  destruct (Htot {| Version := version; payload := MRequest req |}) as [b1 Hb1].
  set (resp := respond_to (LocalSpec ndb) req src).
  destruct (Htot {| Version := version; payload := MResponse resp |}) as [b2 Hb2].
  set (rn1 := checkSent now1 (set_request_id ProbePrivate number rn)).
  set (nda1 := put_wire {| d_family := family rn; d_bytes := b1;
    d_addr := {| addr_IP := ParseIP target; addr_Port := port |} |} (with_counter number nda)).
  assert (GetFamilyCableName (LocalSpec ndb) (family rn) = rn_key rn) as Hkey
    by (unfold rn_key; by rewrite Hspec).
  pose proof (probe_verdict nda ndb rn number src srcIP target port Hspec Hfam eq_refl) as Hverdict. fold req resp in Hverdict.
  destruct (respond_to_fields (LocalSpec ndb) req src) as (Hf1 & Hf2 & Hf3 & Hf4).
  fold resp in Hf1, Hf2, Hf3, Hf4.
  assert (state rn1 = waitingForResponse) as Hst.
  { unfold rn1, checkSent, isDiscoveryComplete in *. simpl. destruct (state rn); done. }
  exists nda1, rn1, {| d_family := family rn; d_bytes := b1;
    d_addr := {| addr_IP := ParseIP target; addr_Port := port |} |},
    (put_wire {| d_family := IPFamilyOf (addr_IP src); d_bytes := b2; d_addr := src |} ndb),
    {| d_family := IPFamilyOf (addr_IP src); d_bytes := b2; d_addr := src |}.
  eexists _, _.
  split. { apply probe_ok with (src := srcIP); try done. by rewrite Hspec. }
  split; [done|]. split; [done|].
  split. { unfold parseAndHandleMessageFromAddress. cbn [d_bytes]. rewrite (Hcodec _ _ Hb1). simpl.
           by apply respond_ok. }
  split; [done|]. split; [done|].
  split. { unfold parseAndHandleMessageFromAddress. cbn [d_bytes]. rewrite (Hcodec _ _ Hb2). simpl.
    apply (private_response_ok T now2 resp from _
      {| ClusterId := ClusterID (LocalSpec ndb); EndpointId := rn_key rn |} rn1); try done.
    - rewrite Hf3, Hfam. by rewrite Hkey.
    - rewrite Hf2. by eexists.
    - rewrite Hverdict. case_match; auto.
    - simpl. by rewrite lookup_insert_eq.
    - by rewrite Hf1.
    - simpl. rewrite Hspec. exact Hfrom. }
  simpl. rewrite lookup_insert_eq. split; [done|]. split; [done|]. split; [by rewrite Hspec|].
  split; [|done]. simpl. rewrite Hverdict. by case_bool_decide.
Qed.

(** a response numbered 0 passes for the answer to the public probe of an
    endpoint that was sent none (it has no public address, or the send
    failed): the endpoint selects its public address, be it the empty string,
    whoever sent the response. *)
Lemma response_zero_selects_public (nd : natDiscovery) (now : Z) (addr : UDPAddr)
    (rn : remoteEndpointNAT) (resp : Response) (sd : EndpointDetails) :
  resp_Number resp = 0 -> resp_Response resp = OK -> resp_Sender resp = Some sd ->
  is_Some (resp_Receiver resp) -> is_Some (ReceivedSrc resp) ->
  remoteEndpoints nd !! EndpointId sd = Some rn -> state rn = waitingForResponse ->
  lastPublicIPRequestID rn = 0 ->
  exists rn', remoteEndpoints (snd (handleResponseFromAddress T now resp addr nd)) !! EndpointId sd = Some rn' /\
    state rn' = selectedPublicIP /\ useIP rn' = GetPublicIP (Spec (endpoint rn)) (family rn) /\
    readyChannel (snd (handleResponseFromAddress T now resp addr nd)) =
      readyChannel nd ++ [toNATEndpointInfo rn'].
Proof.
  intros Hn Hv Hs [rc Hr] [rs Hrs] Hl Hst Hid.
  unfold handleResponseFromAddress, getw, mbind, eff_bind. rewrite Hs, Hr, Hrs, Hv. simpl.
  rewrite Hl, Hid, Hn. simpl. unfold transitionToPublicIP. rewrite Hst. simpl.
  rewrite lookup_insert_eq. eexists. split; [done|]. by repeat split.
Qed.

End properties.

(** * Witnesses *)

(** A concrete encoding of messages. *)
Definition Marshal_ref (m : Message) : option bytes := Some [Z.pos (encode m)].
Definition Unmarshal_ref (b : bytes) : option Message :=
  match b with [Z.pos p] => decode p | _ => None end.

Lemma codec_ref m b : Marshal_ref m = Some b -> Unmarshal_ref b = Some m.
Proof. intros [= <-]. simpl. apply decode_encode. Qed.

Definition write_ref (f : IPFamily) (b : bytes) (a : UDPAddr) : option Z := Some (Z.of_nat (length b)).
Definition source_ref (ip : string) (f : IPFamily) : option string := Some "10.0.0.1"%string.

Definition ex_spec (cluster cable private : string) : EndpointSpec :=
  {| ClusterID := cluster; CableName := cable; HealthCheckIP := ""; HealthCheckIPs := [];
     Hostname := ""; Subnets := []; PrivateIP := private; PrivateIPs := []; PublicIP := "";
     PublicIPs := []; NATEnabled := true; Backend := "libreswan";
     BackendConfig := {[NATTDiscoveryPortConfig := "4490"%string]} |}.

Definition ex_west : EndpointSpec := ex_spec "west" "submariner-cable-west" "10.0.0.1".
Definition ex_east : EndpointSpec := ex_spec "east" "submariner-cable-east" "10.0.0.2".

Definition ex_nd (localSpec : EndpointSpec) : natDiscovery :=
  add_writer IPv4 (from_result (mkND localSpec ∅ 0 [] 0 [] []) (NewWithConfig localSpec 41)).

Definition ex_endpoint : EndpointObj := mkEndpoint "east" 7 ex_east.
Definition ex_rn : remoteEndpointNAT := newRemoteEndpointNAT init_timers 100 ex_endpoint IPv4.
Definition ex_addr (ip : string) : UDPAddr := mkAddr (ParseIP ip) 4490.

Definition ex_key : string := GetFamilyCableName ex_east IPv4.

Definition listen_ref (port : Z) (f : IPFamily) : bool := true.

Definition ex_step := @nd_step k8snet_ref slices_ref init_timers Marshal_ref Unmarshal_ref write_ref source_ref listen_ref.
Definition ex_run := @nd_run k8snet_ref slices_ref init_timers Marshal_ref Unmarshal_ref write_ref source_ref listen_ref.

(** The gateway of cluster west with the endpoint of cluster east under test. *)
Definition ex_started : natDiscovery := ex_step (ex_nd ex_west) (EvAdd 100 ex_endpoint IPv4).

(** The listeners are started, the endpoint is added and probed, and the answer
    to the probe of its private address comes back. *)
Definition ex_local : EndpointSpec :=
  {| ClusterID := "west"; CableName := "submariner-cable-west"; HealthCheckIP := ""; HealthCheckIPs := [];
     Hostname := ""; Subnets := ["10.1.0.0/16"%string]; PrivateIP := "10.0.0.1"; PrivateIPs := []; PublicIP := "";
     PublicIPs := []; NATEnabled := true; Backend := "libreswan";
     BackendConfig := {[NATTDiscoveryPortConfig := "4490"%string]} |}.
Definition ex_nd0 : natDiscovery := from_result (ex_nd ex_west) (NewWithConfig ex_local 41).
Definition ex_probed : list nd_event := [EvRun; EvAdd 100 ex_endpoint IPv4; EvCheck 200 [ex_key]].
Definition ex_answer : bytes :=
  [Z.pos (encode (mkMessage 1 (MResponse (mkResponse 42 OK (Some (mkDetails "east" ex_key))
    (Some (mkDetails "west" (GetFamilyCableName ex_west IPv4))) false false false
    (Some (mkPair "10.0.0.1" 4490))))))].

Lemma nd_run_wf_witness :
  state <$> (remoteEndpoints (ex_run ex_nd0 ex_probed) !! ex_key) = Some waitingForResponse /\
  length (wire (ex_run ex_nd0 ex_probed)) = 1%nat /\
  state <$> (remoteEndpoints (ex_run ex_nd0 (ex_probed ++ [EvRead 300 ex_answer (ex_addr "10.0.0.2")])) !! ex_key)
    = Some selectedPrivateIP /\
  @nd_wf k8snet_ref (ex_run ex_nd0 (ex_probed ++ [EvRead 300 ex_answer (ex_addr "10.0.0.2")])).
Proof.
  split; [vm_compute; reflexivity|]. split; [vm_compute; reflexivity|]. split; [vm_compute; reflexivity|].
  apply (@nd_run_wf k8snet_ref slices_ref init_timers Marshal_ref Unmarshal_ref write_ref source_ref listen_ref
    ex_local 41). reflexivity.
Defined.

Definition ex_selected : remoteEndpointNAT := @useLegacyNATSettings k8snet_ref 300 ex_rn.

Lemma nd_selection_stable_witness :
  exists rn', remoteEndpoints (ex_run (with_remotes (insert ex_key ex_selected) ex_started)
    [EvCheck 500 [ex_key]; EvAdd 600 ex_endpoint IPv4]) !! ex_key = Some rn' /\ settles ex_selected rn'.
Proof.
  apply (@nd_selection_stable k8snet_ref).
  - vm_compute. reflexivity.
  - vm_compute. reflexivity.
  - repeat constructor; simpl; [auto|]. intros [_ Hne]. by apply Hne.
Defined.

Definition late : Z := 100 + 61 * second.

Lemma nd_timeout_completes_witness :
  remoteEndpoints (@checkEndpointList k8snet_ref init_timers Marshal_ref write_ref source_ref
    late [ex_key] ex_started) !! ex_key = Some (@useLegacyNATSettings k8snet_ref late ex_rn).
Proof.
  refine (proj1 (@nd_timeout_completes k8snet_ref init_timers Marshal_ref write_ref source_ref
    ex_started late [ex_key] ex_key ex_rn _ _ _ _ _)).
  - vm_compute. reflexivity.
  - reflexivity.
  - left.
  - vm_compute. reflexivity.
  - vm_compute. reflexivity.
Defined.

Lemma natdiscovery_end_to_end_witness :
  exists nda2 rn2, remoteEndpoints nda2 !! @rn_key ex_rn = Some rn2 /\
    state rn2 = selectedPrivateIP /\ useIP rn2 = "10.0.0.2"%string /\ useNAT rn2 = true.
Proof.
  destruct (@natdiscovery_end_to_end k8snet_ref init_timers Marshal_ref Unmarshal_ref write_ref
    source_ref ex_started (ex_nd ex_east) ex_rn (ex_addr "192.168.9.9") (ex_addr "10.0.0.2")
    200 300 4490 "10.0.0.1")
    as (nda1 & rn1 & d1 & ndb1 & d2 & nda2 & rn2 & _ & _ & _ & _ & _ & _ & _ & Hl & Hs & Hu & Hn & _).
  - intros m b. apply codec_ref.
  - intros m. by eexists.
  - reflexivity.
  - reflexivity.
  - reflexivity.
  - vm_compute. reflexivity.
  - reflexivity.
  - vm_compute. discriminate.
  - left.
  - vm_compute. reflexivity.
  - vm_compute. left.
  - vm_compute. reflexivity.
  - exists nda2, rn2. split; [exact Hl|]. split; [exact Hs|]. split; [exact Hu|].
    rewrite Hn. vm_compute. reflexivity.
Defined.

Lemma response_zero_selects_public_witness :
  exists rn', remoteEndpoints (snd (@handleResponseFromAddress k8snet_ref init_timers 300
      (mkResponse 0 OK (Some (mkDetails "east" ex_key)) (Some (mkDetails "" "")) false false false
         (Some (mkPair "" 0))) (ex_addr "203.0.113.66")
      (with_remotes (insert ex_key (checkSent 200 ex_rn)) ex_started))) !! ex_key = Some rn' /\
    useIP rn' = ""%string.
Proof.
  destruct (@response_zero_selects_public k8snet_ref init_timers
    (with_remotes (insert ex_key (checkSent 200 ex_rn)) ex_started) 300 (ex_addr "203.0.113.66")
    (checkSent 200 ex_rn)
    (mkResponse 0 OK (Some (mkDetails "east" ex_key)) (Some (mkDetails "" "")) false false false
         (Some (mkPair "" 0))) (mkDetails "east" ex_key)) as (rn' & Hl & Hs & Hu & _);
    [reflexivity|reflexivity|reflexivity|by eexists|by eexists|vm_compute; reflexivity
    |reflexivity|reflexivity|].
  exists rn'. split; [exact Hl|]. rewrite Hu. vm_compute. reflexivity.
Defined.

End NatDiscovery.
