(* ===== verification/CableEngine.v ===== *)
(** The cable engine ([pkg/cableengine/cableengine.go]) over the interfaces it
    uses: the cable driver ([pkg/cable/driver.go]) and NAT discovery.

    Creation timestamps are numbers; 0 is the zero [metav1.Time], which is also
    what reading a missing entry of [installedCables] gives. *)
From stdpp Require Import base gmap list strings fin_maps.
From Stdlib Require Import ZArith Lia.
From S2P Require Import Prelude GoNet K8s Cidr Endpoint NatDiscovery.
Import Net Endpoint RemoteNAT.
Local Open Scope Z_scope.

(** * Interfaces *)

(** [cable.Driver], on a driver state [D].  [GetActiveConnections] returns a
    slice that may share the driver's memory: a [handle], whose elements are
    read from the driver's current state. *)
Class Driver (D : Type) := {
  handle : Type;
  Init : eff D string unit;
  GetActiveConnections : eff D string handle;
  handle_len : handle -> nat;
  handle_read : D -> handle -> nat -> option Connection;
  GetConnections : eff D string (list Connection);
  ConnectToEndpoint : NATEndpointInfo -> eff D string string;
  DisconnectFromEndpoint : EndpointSpec -> IPFamily -> eff D string unit;
  DriverCleanup : eff D string unit;
}.

(** Two lists of the same cables, whose status may differ. *)
Definition same_cable (c c' : Connection) : Prop :=
  conn_Endpoint c' = conn_Endpoint c /\ UsingIP c' = UsingIP c /\ UsingNAT c' = UsingNAT c.

Definition same_cables (l l' : list Connection) : Prop := Forall2 same_cable l l'.

Lemma same_cables_refl l : same_cables l l.
Proof. by apply Forall_Forall2_diag, Forall_forall. Qed.

(** What the engine relies on: [conns] is the list of active connections, [valid]
    the states the driver reaches. *)
Class DriverLaws (D : Type) `{K8sNet} `{!Driver D} := {
  conns : D -> list Connection;
  valid : D -> Prop;
  init_valid : forall d, valid d -> valid (Init d).2;
  active_valid : forall d, valid d -> valid (GetActiveConnections d).2;
  list_valid : forall d, valid d -> valid (GetConnections d).2;
  connect_valid : forall d info, valid d -> valid (ConnectToEndpoint info d).2;
  disconnect_valid : forall d spec f, valid d -> valid (DisconnectFromEndpoint spec f d).2;
  cleanup_valid : forall d, valid d -> valid (DriverCleanup d).2;
  (** A fresh handle reads the active connections, and asking changes nothing. *)
  active_fresh : forall d h d', GetActiveConnections d = (Ok h, d') ->
    conns d' = conns d /\ handle_len h = length (conns d) /\
    forall j, (j < handle_len h)%nat -> handle_read d' h j = conns d !! j;
  active_err : forall d e d', GetActiveConnections d = (Err e, d') -> conns d' = conns d;
  (** A disconnection leaves every slot of a handle readable. *)
  disconnect_reads : forall d h spec f r d' j, DisconnectFromEndpoint spec f d = (r, d') ->
    is_Some (handle_read d h j) -> is_Some (handle_read d' h j);
  (** A disconnection removes at most one connection, of that cable and family. *)
  disconnect_conns : forall d spec f r d', DisconnectFromEndpoint spec f d = (r, d') ->
    conns d' = conns d \/
    exists l1 c l2, conns d = l1 ++ c :: l2 /\ conns d' = l1 ++ l2 /\
      CableName (conn_Endpoint c) = CableName spec /\ GetFamily c = f;
  (** Disconnecting an active connection removes one, when it succeeds. *)
  disconnect_gone : forall d d' c, valid d -> c ∈ conns d -> GetFamily c <> IPFamilyUnknown ->
    DisconnectFromEndpoint (conn_Endpoint c) (GetFamily c) d = (Ok tt, d') ->
    (length (conns d') < length (conns d))%nat;
  (** The other calls leave the connections, listing them may change their status; a
      clean-up may drop them all. *)
  init_conns : forall d r d', Init d = (r, d') -> conns d' = conns d;
  list_conns : forall d r d', GetConnections d = (r, d') -> same_cables (conns d) (conns d');
  cleanup_conns : forall d r d', DriverCleanup d = (r, d') -> conns d' = conns d \/ conns d' = [];
  (** A connection is added at the end, or there is none to self. *)
  connect_conns : forall d info r d', ConnectToEndpoint info d = (r, d') ->
    conns d' = conns d \/
    exists c, conns d' = conns d ++ [c] /\ conn_Endpoint c = Spec (info_Endpoint info) /\
      UsingIP c = UseIP info /\ UsingNAT c = UseNAT info;
}.

(** [natdiscovery.Interface], the calls the engine makes. *)
Class NATIface (N : Type) := {
  nat_AddEndpoint : EndpointObj -> IPFamily -> N -> N;
  nat_RemoveEndpoint : string -> N -> N;
}.

Module CableEngine.

(** * State *)

Record engine (D N : Type) := mkEngine {
  driver : option D;
  running : bool;
  localClusterID : string;
  localEndpoint : EndpointSpec;
  natDiscovery : N;
  natDiscoveryPending : gmap string Z;
  installedCables : gmap string Z;
}.
Arguments mkEngine {D N}.
Arguments driver {D N}.
Arguments running {D N}.
Arguments localClusterID {D N}.
Arguments localEndpoint {D N}.
Arguments natDiscovery {D N}.
Arguments natDiscoveryPending {D N}.
Arguments installedCables {D N}.

Inductive engine_error :=
| ErrCreateDriver (cause : string)
| ErrInitDriver (cause : string)
| ErrActiveConnections (cause : string)
| ErrDisconnectPrevious (cable : string)
| ErrInstalling (cable : string)
| ErrDisconnect (cable : string)
| ErrDriver (cause : string)
| PanicNilDriver
| PanicIndex.

Section engine_ops.
Context {D N : Type} `{K8sNet} `{!Driver D} `{!NATIface N}.
(** [cable.NewDriver]: looks the backend up and creates its driver. *)
Variable NewDriver : EndpointSpec -> string -> result string D.

Abbreviation eng := (engine D N).
Abbreviation M := (eff (engine D N) engine_error).

Definition set_driver (d : option D) (i : eng) : eng :=
  mkEngine d (running i) (localClusterID i) (localEndpoint i) (natDiscovery i)
    (natDiscoveryPending i) (installedCables i).
Definition set_running (b : bool) (i : eng) : eng :=
  mkEngine (driver i) b (localClusterID i) (localEndpoint i) (natDiscovery i)
    (natDiscoveryPending i) (installedCables i).
Definition with_nat (f : N -> N) (i : eng) : eng :=
  mkEngine (driver i) (running i) (localClusterID i) (localEndpoint i) (f (natDiscovery i))
    (natDiscoveryPending i) (installedCables i).
Definition with_pending (f : gmap string Z -> gmap string Z) (i : eng) : eng :=
  mkEngine (driver i) (running i) (localClusterID i) (localEndpoint i) (natDiscovery i)
    (f (natDiscoveryPending i)) (installedCables i).
Definition with_installed (f : gmap string Z -> gmap string Z) (i : eng) : eng :=
  mkEngine (driver i) (running i) (localClusterID i) (localEndpoint i) (natDiscovery i)
    (natDiscoveryPending i) (f (installedCables i)).

(** A call on [i.driver]; the wrapped error is the caller's. *)
Definition on_driver {A} (wrap : string -> engine_error) (m : eff D string A) : M A :=
  fun i => match driver i with
           | None => (Err PanicNilDriver, i)
           | Some d => let '(r, d') := m d in (map_err wrap r, set_driver (Some d') i)
           end.

Definition NewEngine (clusterID : string) (ep : EndpointSpec) (nd : N) : eng :=
  mkEngine None false clusterID ep nd ∅ ∅.

Definition startDriver : M unit :=
  i ← getw;
  match driver i with
  | Some _ => mret tt
  | None =>
      match NewDriver (localEndpoint i) (localClusterID i) with
      | Err e => fail (ErrCreateDriver e)
      | Ok d => _ ← modifyw (set_driver (Some d)); on_driver ErrInitDriver Init
      end
  end.

Definition StartEngine : M unit := _ ← startDriver; modifyw (set_running true).

Definition Stop (i : eng) : eng := set_running false i.

Definition shouldProceedWithInstallation (familyCableName : string) : M bool :=
  i ← getw;
  match natDiscoveryPending i !! familyCableName with
  | None => mret false
  | Some n =>
      _ ← modifyw (with_pending (insert familyCableName (n - 1)));
      _ ← (if n - 1 =? 0 then modifyw (with_pending (delete familyCableName)) else mret tt);
      mret true
  end.

(** The loop over the active connections from index [j]; [false] is the early
    [return nil], [true] the end of the loop. *)
Fixpoint install_loop (rnat : NATEndpointInfo) (familyCableName : string)
    (h : handle) (js : list nat) : M bool :=
  match js with
  | [] => mret true
  | j :: js =>
      i ← getw;
      match driver i ≫= (fun d => handle_read d h j) with
      | None => fail PanicIndex
      | Some active =>
          let endpoint := info_Endpoint rnat in
          let activeFamily := GetFamily active in
          let activeFamilyCableName := GetFamilyCableName (conn_Endpoint active) activeFamily in
          if negb (ClusterID (conn_Endpoint active) =?? ClusterID (Spec endpoint)) ||
             negb (activeFamily =?? UseFamily rnat)
          then install_loop rnat familyCableName h js
          else
            let prevTimestamp := zget 0 (installedCables i) activeFamilyCableName in
            if CreationTimestamp endpoint <? prevTimestamp then mret false
            else if (CreationTimestamp endpoint =? prevTimestamp) &&
                    (activeFamilyCableName =?? familyCableName) &&
                    ((UsingIP active =?? UseIP rnat) && (UsingNAT active =?? UseNAT rnat) &&
                     (BackendConfig (conn_Endpoint active) =?? BackendConfig (Spec endpoint)))
            then mret false
            else
              _ ← on_driver (fun _ => ErrDisconnectPrevious activeFamilyCableName)
                    (DisconnectFromEndpoint (conn_Endpoint active) (UseFamily rnat));
              install_loop rnat familyCableName h js
      end
  end.

Definition installCableWithNATInfo (rnat : NATEndpointInfo) : M unit :=
  let endpoint := info_Endpoint rnat in
  let familyCableName := GetFamilyCableName (Spec endpoint) (UseFamily rnat) in
  proceed ← shouldProceedWithInstallation familyCableName;
  if negb proceed then mret tt
  else
    i ← getw;
    if negb (running i) then mret tt
    else
      h ← on_driver ErrActiveConnections GetActiveConnections;
      install ← install_loop rnat familyCableName h (seq 0 (handle_len h));
      if negb install then mret tt
      else
        _ ← on_driver (fun _ => ErrInstalling (CableName (Spec endpoint))) (ConnectToEndpoint rnat);
        modifyw (with_installed (insert familyCableName (CreationTimestamp endpoint))).

Definition InstallCable (endpoint : EndpointObj) (family : IPFamily) (i : eng) : eng :=
  if ClusterID (Spec endpoint) =?? localClusterID i then i
  else if Spec endpoint =?? localEndpoint i then i
  else
    let name := GetFamilyCableName (Spec endpoint) family in
    let i := with_pending (fun p => <[name := zget 0 p name + 1]> p) i in
    with_nat (nat_AddEndpoint endpoint family) i.

Definition RemoveCable (endpoint : EndpointObj) (family : IPFamily) : M unit :=
  i ← getw;
  if ClusterID (Spec endpoint) =?? localClusterID i then mret tt
  else
    let familyCableName := GetFamilyCableName (Spec endpoint) family in
    _ ← modifyw (with_nat (nat_RemoveEndpoint familyCableName));
    _ ← modifyw (with_pending (delete familyCableName));
    i ← getw;
    match installedCables i !! familyCableName with
    | None => mret tt
    | Some _ =>
        _ ← on_driver (fun _ => ErrDisconnect familyCableName)
              (DisconnectFromEndpoint (Spec endpoint) family);
        modifyw (with_installed (delete familyCableName))
    end.

Definition GetHAStatus (i : eng) : HAStatus :=
  if running i then HAStatusActive else HAStatusPassive.

Definition ListCableConnections : M (list Connection) :=
  i ← getw;
  if running i then on_driver ErrDriver GetConnections else mret [].

Definition Cleanup : M unit :=
  i ← getw;
  match driver i with
  | Some _ => on_driver ErrDriver DriverCleanup
  | None => mret tt
  end.
End engine_ops.

(** Everything that happens to an engine: its callers' requests, a result read
    from the NAT discovery channel. *)
Inductive engine_event :=
| EvStart
| EvStop
| EvInstall (endpoint : EndpointObj) (family : IPFamily)
| EvRemove (endpoint : EndpointObj) (family : IPFamily)
| EvNATInfo (rnat : NATEndpointInfo)
| EvList
| EvCleanup.

Section engine_events.
Context {D N : Type} `{K8sNet} `{!Driver D} `{!NATIface N}.
Variable NewDriver : EndpointSpec -> string -> result string D.

Definition engine_step (e : engine_event) (i : engine D N) : engine D N :=
  match e with
  | EvStart => (StartEngine NewDriver i).2
  | EvStop => Stop i
  | EvInstall ep f => InstallCable ep f i
  | EvRemove ep f => (RemoveCable ep f i).2
  | EvNATInfo rnat => (installCableWithNATInfo rnat i).2
  | EvList => (ListCableConnections i).2
  | EvCleanup => (Cleanup i).2
  end.

Definition engine_run (es : list engine_event) (i : engine D N) : engine D N :=
  foldl (fun i e => engine_step e i) i es.
End engine_events.

(** NAT discovery as the engine sees it, at the time of the call. *)
Definition nat_iface `{K8sNet} (T : Timers) (now : Z) : NATIface NatDiscovery.natDiscovery := {|
  nat_AddEndpoint := NatDiscovery.AddEndpoint T now;
  nat_RemoveEndpoint := NatDiscovery.RemoveEndpoint;
|}.

(** The simplest driver that meets the contract: its state is the list of
    connections and a handle is a copy of it. *)
Definition list_remove `{K8sNet} (spec : EndpointSpec) (f : IPFamily) : list Connection -> list Connection :=
  fix go l := match l with
              | [] => []
              | c :: l => if (CableName (conn_Endpoint c) =?? CableName spec) && (GetFamily c =?? f)
                          then l else c :: go l
              end.

Definition list_driver `{K8sNet} : Driver (list Connection) := {|
  handle := list Connection;
  Init := mret tt;
  GetActiveConnections := getw;
  handle_len := length;
  handle_read := fun _ h j => h !! j;
  GetConnections := getw;
  ConnectToEndpoint := fun info d =>
    (Ok (UseIP info),
     d ++ [mkConnection Connected EmptyString (Spec (info_Endpoint info)) (UseIP info) (UseNAT info) None]);
  DisconnectFromEndpoint := fun spec f d => (Ok tt, list_remove spec f d);
  DriverCleanup := fun _ => (Ok tt, []);
|}.

(** * Invariants *)
Section invariants.
Context {D N : Type} `{K8sNet} `{!Driver D} `{!DriverLaws D}.

(** Results still expected: never zero, never negative. *)
Definition pending_wf (i : engine D N) : Prop :=
  map_Forall (fun _ n => 1 <= n) (natDiscoveryPending i).

(** Connections of one cluster and family. *)
Definition of_cluster (cluster : string) (f : IPFamily) (c : Connection) : bool :=
  (ClusterID (conn_Endpoint c) =?? cluster) && (GetFamily c =?? f).

Fixpoint count_cluster (cluster : string) (f : IPFamily) (l : list Connection) : nat :=
  match l with
  | [] => 0
  | c :: l => (if of_cluster cluster f c then 1 else 0) + count_cluster cluster f l
  end.

(** Cable names belong to one cluster: [owner] is the cluster of a name. *)
Definition owned (owner : string -> string) (ep : EndpointSpec) : Prop :=
  owner (CableName ep) = ClusterID ep.

(** At most one cable per remote cluster and family. *)
Definition single_cable (owner : string -> string) (d : D) : Prop :=
  valid d /\ Forall (fun c => owned owner (conn_Endpoint c)) (conns d) /\
  forall cluster f, f <> IPFamilyUnknown -> (count_cluster cluster f (conns d) <= 1)%nat.

(** A NAT result: the address is of the family it was found for. *)
Definition info_ok (owner : string -> string) (info : NATEndpointInfo) : Prop :=
  owned owner (Spec (info_Endpoint info)) /\
  IPFamilyOfString (UseIP info) = UseFamily info /\ UseFamily info <> IPFamilyUnknown.

Definition engine_wf (owner : string -> string) (i : engine D N) : Prop :=
  pending_wf i /\ match driver i with Some d => single_cable owner d | None => True end.

Definition event_ok (owner : string -> string) (e : engine_event) : Prop :=
  match e with EvNATInfo rnat => info_ok owner rnat | _ => True end.
End invariants.

(** * The connection list under driver operations *)
Section driver_lemmas.
Context {D : Type} `{K8sNet} `{!Driver D} `{!DriverLaws D}.

Lemma count_app cl f l1 l2 :
  count_cluster cl f (l1 ++ l2) = (count_cluster cl f l1 + count_cluster cl f l2)%nat.
Proof. induction l1; simpl; lia. Qed.

Lemma count_zero cl f l j c :
  count_cluster cl f l = 0%nat -> l !! j = Some c -> of_cluster cl f c = false.
Proof.
  intros Hz Hj. apply list_elem_of_lookup_2, list_elem_of_split in Hj as (l1 & l2 & ->).
  rewrite count_app in Hz. simpl in Hz. destruct (of_cluster cl f c); [lia|done].
Qed.

Lemma count_all cl f l :
  (forall j c, l !! j = Some c -> of_cluster cl f c = false) -> count_cluster cl f l = 0%nat.
Proof.
  induction l as [|c l IH]; intros Hl; [done|]. simpl.
  rewrite (Hl 0%nat c eq_refl), IH; [done|]. intros j. apply (Hl (S j)).
Qed.

Lemma disconnect_count d spec f r d' cl g :
  DisconnectFromEndpoint spec f d = (r, d') ->
  (count_cluster cl g (conns d') <= count_cluster cl g (conns d))%nat.
Proof.
  intros Hd. destruct (disconnect_conns _ _ _ _ _ Hd) as [-> | (l1 & c & l2 & -> & -> & _)];
    [done|]. rewrite !count_app. simpl. lia.
Qed.

Lemma disconnect_forall P d spec f r d' :
  DisconnectFromEndpoint spec f d = (r, d') -> Forall P (conns d) -> Forall P (conns d').
Proof.
  intros Hd. destruct (disconnect_conns _ _ _ _ _ Hd) as [-> | (l1 & c & l2 & -> & -> & _)];
    [done|]. rewrite !Forall_app, Forall_cons. tauto.
Qed.

Lemma disconnect_single owner d spec f r d' :
  DisconnectFromEndpoint spec f d = (r, d') -> single_cable owner d -> single_cable owner d'.
Proof.
  intros Hd (Hv & Ho & Hs). split; [|split; [by eapply disconnect_forall|]].
  { apply (disconnect_valid d spec f) in Hv. by rewrite Hd in Hv. }
  intros cl g Hg. etrans; [by eapply disconnect_count|by apply Hs].
Qed.

(** Disconnecting the only connection of its cluster and family. *)
Lemma disconnect_last owner d c d' :
  single_cable owner d -> c ∈ conns d -> GetFamily c <> IPFamilyUnknown ->
  DisconnectFromEndpoint (conn_Endpoint c) (GetFamily c) d = (Ok tt, d') ->
  count_cluster (ClusterID (conn_Endpoint c)) (GetFamily c) (conns d') = 0%nat.
Proof.
  intros (Hv & Ho & Hs) Hc Hf Hd. pose proof (disconnect_gone _ _ _ Hv Hc Hf Hd) as Hlen.
  specialize (Hs (ClusterID (conn_Endpoint c)) _ Hf).
  destruct (disconnect_conns _ _ _ _ _ Hd) as [E | (l1 & c' & l2 & E & E' & Hn & Hg)];
    [rewrite E in Hlen; lia|].
  rewrite E, count_app in Hs. rewrite E', count_app. simpl in Hs.
  assert (of_cluster (ClusterID (conn_Endpoint c)) (GetFamily c) c' = true) as Hof; [|rewrite Hof in Hs; lia].
  unfold of_cluster. rewrite andb_true_iff, !bool_decide_eq_true. split; [|done].
  rewrite Forall_forall in Ho. pose proof (Ho _ Hc) as H1.
  assert (c' ∈ conns d) as Hc' by (rewrite E; set_solver).
  pose proof (Ho _ Hc') as H2. unfold owned in *. congruence.
Qed.

Lemma connect_single owner d info r d' :
  info_ok owner info -> single_cable owner d ->
  count_cluster (ClusterID (Spec (info_Endpoint info))) (UseFamily info) (conns d) = 0%nat ->
  ConnectToEndpoint info d = (r, d') -> single_cable owner d'.
Proof.
  intros (Hi & Hf & _) (Hv & Ho & Hs) Hz Hd.
  assert (valid d') as Hv' by (apply (connect_valid d info) in Hv; by rewrite Hd in Hv).
  destruct (connect_conns _ _ _ _ Hd) as [E | (c & E & Hep & Hip & _)];
    unfold single_cable; rewrite E; [done|].
  split; [done|]. split; [by rewrite Forall_app, Forall_singleton, Hep|].
  intros cl f Hk. rewrite count_app. simpl. specialize (Hs cl f Hk).
  destruct (of_cluster cl f c) eqn:Hc; [|lia].
  unfold of_cluster, GetFamily in Hc. rewrite Hip, Hf, Hep in Hc. bool_props. subst. lia.
Qed.

Lemma same_conns_single owner d d' :
  conns d' = conns d -> valid d' -> single_cable owner d -> single_cable owner d'.
Proof. unfold single_cable. intros ->. tauto. Qed.

Lemma same_cables_count cl f l l' : same_cables l l' -> count_cluster cl f l' = count_cluster cl f l.
Proof.
  induction 1 as [|c c' l l' (He & Hi & _) Hl IH]; [done|]. simpl. rewrite IH.
  assert (Ho : of_cluster cl f c' = of_cluster cl f c) by (unfold of_cluster, GetFamily; by rewrite He, Hi).
  by rewrite Ho.
Qed.

Lemma same_cables_single owner d d' :
  same_cables (conns d) (conns d') -> valid d' -> single_cable owner d -> single_cable owner d'.
Proof.
  intros Hs Hv (_ & Ho & Hc). split; [done|]. split.
  - clear Hc Hv. induction Hs as [|c c' l l' (He & _) Hl IH]; [done|].
    apply Forall_cons in Ho as [Hh Ht]. constructor; [by rewrite He|by apply IH].
  - intros cl f Hf. rewrite (same_cables_count cl f (conns d) (conns d') Hs). by apply Hc.
Qed.
End driver_lemmas.

(** * The engine's operations *)
Section engine_lemmas.
Context {D N : Type} `{K8sNet} `{!Driver D} `{!DriverLaws D} `{!NATIface N}.
Implicit Types i : engine D N.

(** What is left of a handle from slot [k]: it still reads the connections and
    those before [k] are of other clusters, or none of the cluster is left. *)
Definition scanned (rnat : NATEndpointInfo) (h : handle) (k : nat) (d : D) : Prop :=
  let cl := ClusterID (Spec (info_Endpoint rnat)) in
  count_cluster cl (UseFamily rnat) (conns d) = 0%nat \/
  (handle_len h = length (conns d) /\
   (forall j, (j < handle_len h)%nat -> handle_read d h j = conns d !! j) /\
   forall j c, (j < k)%nat -> conns d !! j = Some c -> of_cluster cl (UseFamily rnat) c = false).

Lemma install_loop_spec owner rnat name h n : forall k i d r i',
  (k + n = handle_len h)%nat -> UseFamily rnat <> IPFamilyUnknown ->
  driver i = Some d -> single_cable owner d -> scanned rnat h k d ->
  install_loop rnat name h (seq k n) i = (r, i') ->
  exists d', i' = set_driver (Some d') i /\ single_cable owner d' /\
    (r = Ok true ->
     count_cluster (ClusterID (Spec (info_Endpoint rnat))) (UseFamily rnat) (conns d') = 0%nat).
Proof.
  induction n as [|n IH]; intros k i d r i' Hlen Hknown Hdr Hs Hscan Hrun; cbn [seq install_loop] in Hrun.
  - injection Hrun as <- <-. exists d. split; [by destruct i; simplify_eq/=|]. split; [done|].
    intros _. destruct Hscan as [|(Hl & _ & Hbefore)]; [done|].
    apply count_all. intros j c Hj. apply (Hbefore j c); [|done].
    apply lookup_lt_Some in Hj. lia.
  - unfold mbind, eff_bind, getw in Hrun. rewrite Hdr in Hrun. cbn [option_bind] in Hrun.
    assert (i = set_driver (Some d) i) as Hid by (destruct i; simplify_eq/=; done).
    destruct (handle_read d h k) as [c|] eqn:Hread;
      [|injection Hrun as <- <-; exists d; split; [done|split; [done|intros; discriminate]]].
    assert (count_cluster (ClusterID (Spec (info_Endpoint rnat))) (UseFamily rnat) (conns d) = 0%nat
            \/ conns d !! k = Some c) as Hck.
    { destruct Hscan as [|(_ & Hreads & _)]; [by left|]. right. rewrite <- Hread. symmetry. apply Hreads. lia. }
    destruct (negb _ || negb _) eqn:Hskip.
    + eapply (IH (S k)); [lia|done|done|done| |done].
      destruct Hscan as [|(Hl & Hreads & Hbefore)]; [by left|]. right. split; [done|split; [done|]].
      intros j c' Hj Hc'. destruct (decide (j = k)) as [->|]; [|apply (Hbefore j); [lia|done]].
      destruct Hck as [Hz|Hck]; [by eapply count_zero|]. simplify_eq.
      unfold of_cluster. destruct (_ =?? _), (_ =?? _); done.
    + apply orb_false_iff in Hskip as [Hcl Hfam]. bool_props.
      case_match; [injection Hrun as <- <-; exists d; done|].
      case_match; [injection Hrun as <- <-; exists d; done|].
      unfold on_driver in Hrun. rewrite Hdr in Hrun.
      destruct (DisconnectFromEndpoint _ _ d) as [[[]|e] d1] eqn:Hdis; simpl in Hrun.
      * destruct (IH (S k) (set_driver (Some d1) i) d1 r i') as (d' & -> & Hs' & Hc'); [lia|done|reflexivity| | |done|].
        -- by eapply disconnect_single.
        -- left. destruct Hck as [Hz|Hck].
           ++ apply (disconnect_count _ _ _ _ _ (ClusterID (Spec (info_Endpoint rnat))) (UseFamily rnat)) in Hdis. lia.
           ++ rewrite <- Hcl, <- Hfam. rewrite <- Hfam in Hdis, Hknown.
              eapply disconnect_last; [done| |done|done].
              by eapply list_elem_of_lookup_2.
        -- exists d'. done.
      * injection Hrun as <- <-. exists d1. split; [done|]. split; [by eapply disconnect_single|done].
Qed.

(** Until the connection of index [j] is met, the loop does nothing. *)
Lemma install_loop_skip rnat name h i d j n : forall k,
  driver i = Some d -> (k <= j)%nat -> (j < k + n)%nat ->
  (forall m, (k <= m < j)%nat -> exists c, handle_read d h m = Some c /\
     of_cluster (ClusterID (Spec (info_Endpoint rnat))) (UseFamily rnat) c = false) ->
  install_loop rnat name h (seq k n) i = install_loop rnat name h (seq j (k + n - j)) i.
Proof.
  induction n as [|n IH]; intros k Hdr Hk Hn Hskip; [lia|].
  destruct (decide (k = j)) as [->|Hkj]; [by replace (j + S n - j)%nat with (S n) by lia|].
  cbn [seq install_loop]. unfold mbind, eff_bind, getw. rewrite Hdr. cbn [option_bind].
  destruct (Hskip k) as (c & Hc & Hof); [lia|]. rewrite Hc. unfold of_cluster in Hof.
  replace (negb _ || negb _) with true by (destruct (_ =?? _), (_ =?? _); done).
  replace (k + S n - j)%nat with (S k + n - j)%nat by lia.
  apply IH; [done|lia|lia|]. intros m Hm. apply Hskip. lia.
Qed.

Lemma shouldProceed_pending name i r i' :
  pending_wf i -> shouldProceedWithInstallation name i = (r, i') ->
  pending_wf i' /\ driver i' = driver i /\ running i' = running i /\
  installedCables i' = installedCables i /\
  (forall k, natDiscoveryPending i !! k = None -> natDiscoveryPending i' !! k = None) /\
  r = Ok (match natDiscoveryPending i !! name with Some _ => true | None => false end).
Proof.
  intros Hwf. unfold shouldProceedWithInstallation, mbind, eff_bind, getw, modifyw.
  destruct (natDiscoveryPending i !! name) as [n|] eqn:Hp; simpl; [|by intros [= <- <-]].
  pose proof (Hwf _ _ Hp) as Hn. simpl in Hn.
  destruct (n - 1 =? 0) eqn:Hz; simpl; intros [= <- <-]; unfold pending_wf; simpl;
    split_and!; try done.
  - rewrite delete_insert_eq. by apply map_Forall_delete.
  - intros k Hk. rewrite lookup_delete_None. right. rewrite lookup_insert_ne; congruence.
  - apply map_Forall_insert_2; [|done]. apply Z.eqb_neq in Hz. lia.
  - intros k Hk. rewrite lookup_insert_ne; congruence.
Qed.

Lemma shouldProceed_some name i n : natDiscoveryPending i !! name = Some n ->
  exists i', shouldProceedWithInstallation name i = (Ok true, i') /\ driver i' = driver i /\
    running i' = running i /\ installedCables i' = installedCables i /\
    natDiscoveryPending i' !! name = (if n =? 1 then None else Some (n - 1)).
Proof.
  intros Hn. unfold shouldProceedWithInstallation, mbind, eff_bind, getw, modifyw. rewrite Hn.
  destruct (Z.eqb_spec (n - 1) 0), (Z.eqb_spec n 1); try lia; simpl;
    eexists; (split; [reflexivity|]); simpl; split_and!; try done.
  - apply lookup_delete_eq.
  - apply lookup_insert_eq.
Qed.

(** What an installation leaves: the driver keeps one cable per cluster, the
    rest of the state only gains this cable's timestamp. *)
Lemma install_spec owner rnat i r i' :
  info_ok owner rnat -> engine_wf owner i -> installCableWithNATInfo rnat i = (r, i') ->
  let name := GetFamilyCableName (Spec (info_Endpoint rnat)) (UseFamily rnat) in
  engine_wf owner i' /\
  (forall k, natDiscoveryPending i !! k = None -> natDiscoveryPending i' !! k = None) /\
  (installedCables i' = installedCables i \/
   r = Ok tt /\ is_Some (natDiscoveryPending i !! name) /\
   installedCables i' = <[name := CreationTimestamp (info_Endpoint rnat)]> (installedCables i)).
Proof.
  intros Hok [Hp Hs]. unfold installCableWithNATInfo. unfold mbind at 1, eff_bind at 1.
  destruct (shouldProceedWithInstallation _ i) as [r1 i1] eqn:Hsp.
  apply shouldProceed_pending in Hsp as (Hp1 & Hd1 & Hr1 & Hi1 & Hk1 & ->); [|done].
  assert (engine_wf owner i1) as Hwf1 by (split; [done|by rewrite Hd1]).
  destruct (natDiscoveryPending i !! _) as [n|] eqn:Hpend; simpl;
    [|intros [= <- <-]; split_and!; [done|done|by left]].
  unfold mbind, eff_bind, getw.
  destruct (negb (running i1)); [intros [= <- <-]; split_and!; [done|done|by left]|].
  unfold on_driver at 1. rewrite Hd1. clear Hwf1.
  destruct (driver i) as [d|] eqn:Hdr; [|intros [= <- <-]; split_and!; [split; [done|by rewrite Hd1]|done|by left]].
  destruct (GetActiveConnections d) as [[h|e] d1] eqn:Hact; simpl.
  2:{ intros [= <- <-]. split_and!; [|done|by left]. split; [done|]. simpl.
      eapply same_conns_single, Hs; [by eapply active_err|].
      pose proof (active_valid d (proj1 Hs)) as Hv. by rewrite Hact in Hv. }
  destruct (active_fresh _ _ _ Hact) as (Hc1 & Hlen & Hreads).
  pose proof (active_valid d (proj1 Hs)) as Hv1. rewrite Hact in Hv1. simpl in Hv1.
  destruct (install_loop _ _ _ _ _) as [rl i2] eqn:Hloop.
  destruct (install_loop_spec owner rnat _ h (handle_len h) 0 (set_driver (Some d1) i1) d1 _ _
    eq_refl (proj2 (proj2 Hok)) eq_refl (same_conns_single _ _ _ Hc1 Hv1 Hs)
    ltac:(right; rewrite Hc1; split; [done|split; [done|lia]]) Hloop) as (d2 & -> & Hs2 & Hz).
  destruct rl as [[]|e]; simpl;
    [|intros [= <- <-]; by split_and!; [split| |left]..].
  unfold on_driver. simpl. destruct (ConnectToEndpoint rnat d2) as [[ip|e] d3] eqn:Hcon; simpl;
    intros [= <- <-]; (split_and!; [split; [done|]|done|]).
  - eapply connect_single; [done|done|by apply Hz|done].
  - right. split; [done|split; [by eexists|by simpl; rewrite Hi1]].
  - eapply connect_single; [done|done|by apply Hz|done].
  - by left.
Qed.

Lemma remove_spec owner ep f i r i' :
  engine_wf owner i -> RemoveCable ep f i = (r, i') -> engine_wf owner i'.
Proof.
  intros [Hp Hs]. unfold RemoveCable, mbind, eff_bind, getw, modifyw.
  destruct (_ =?? _); simpl; [by intros [= <- <-]|].
  assert (pending_wf (with_pending (delete (GetFamilyCableName (Spec ep) f)) i))
    as Hp' by (unfold pending_wf; simpl; by apply map_Forall_delete).
  destruct (installedCables i !! _); [|by intros [= <- <-]; split].
  unfold on_driver. simpl.
  destruct (driver i) as [d|] eqn:Hd; [|intros [= <- <-]; split; [done|by simpl; rewrite Hd]].
  destruct (DisconnectFromEndpoint _ _ d) as [[[]|e] d1] eqn:Hdis; simpl; intros [= <- <-];
    (split; [done|by eapply disconnect_single]).
Qed.

Variable NewDriver : EndpointSpec -> string -> result string D.

Lemma start_spec owner i r i' :
  (forall spec id d, NewDriver spec id = Ok d -> valid d /\ conns d = []) ->
  engine_wf owner i -> StartEngine NewDriver i = (r, i') ->
  engine_wf owner i' /\ natDiscoveryPending i' = natDiscoveryPending i /\
  installedCables i' = installedCables i.
Proof.
  intros Hnew [Hp Hs]. unfold StartEngine, startDriver, mbind, eff_bind, getw, modifyw, on_driver.
  destruct (driver i) as [d|] eqn:Hd; simpl;
    [intros [= <- <-]; split; [split; [done|by simpl; rewrite Hd]|done]|].
  destruct (NewDriver _ _) as [d|e] eqn:Hn; simpl.
  2:{ intros [= <- <-]. split; [split; [done|by rewrite Hd]|done]. }
  destruct (Init d) as [ri d'] eqn:Hi.
  assert (single_cable owner d') as Hs'.
  { destruct (Hnew _ _ _ Hn) as [Hv Hc]. apply init_valid in Hv. rewrite Hi in Hv.
    unfold single_cable. rewrite (init_conns _ _ _ Hi), Hc.
    split; [done|]. split; [constructor|intros; simpl; lia]. }
  destruct ri as [[]|e]; simpl; intros [= <- <-]; (split; [split; [done|by simpl]|done]).
Qed.

Lemma list_spec owner i : engine_wf owner i ->
  engine_wf owner (ListCableConnections i).2 /\
  natDiscoveryPending (ListCableConnections i).2 = natDiscoveryPending i /\
  installedCables (ListCableConnections i).2 = installedCables i.
Proof.
  intros [Hp Hs]. unfold ListCableConnections, mbind, eff_bind, getw, on_driver.
  destruct (running i); simpl; [|done].
  destruct (driver i) as [d|] eqn:Hd; simpl; [|split; [split; [done|by rewrite Hd]|done]].
  destruct (GetConnections d) as [rl d'] eqn:Hl. simpl. split; [split; [done|]|done].
  simpl. eapply same_cables_single, Hs; [by eapply list_conns|].
  pose proof (list_valid d (proj1 Hs)) as Hv. by rewrite Hl in Hv.
Qed.

Lemma cleanup_spec owner i : engine_wf owner i ->
  engine_wf owner (Cleanup i).2 /\
  natDiscoveryPending (Cleanup i).2 = natDiscoveryPending i /\
  installedCables (Cleanup i).2 = installedCables i.
Proof.
  intros [Hp Hs]. unfold Cleanup, mbind, eff_bind, getw, on_driver.
  destruct (driver i) as [d|] eqn:Hd; simpl; [|split; [split; [done|by rewrite Hd]|done]]. rewrite Hd.
  destruct (DriverCleanup d) as [rl d'] eqn:Hl. simpl. split; [split; [done|]|done]. simpl.
  pose proof (cleanup_valid d (proj1 Hs)) as Hv. rewrite Hl in Hv. destruct Hs as (_ & Hs).
  unfold single_cable. destruct (cleanup_conns _ _ _ Hl) as [-> | ->]; [done|].
  split; [done|]. split; [constructor|intros; simpl; lia].
Qed.

Lemma engine_step_wf owner e i :
  (forall spec id d, NewDriver spec id = Ok d -> valid d /\ conns d = []) ->
  event_ok owner e -> engine_wf owner i -> engine_wf owner (engine_step NewDriver e i).
Proof.
  intros Hnew He Hwf. destruct e as [| |ep f|ep f|rnat| |]; simpl in *.
  - destruct (StartEngine NewDriver i) eqn:Hs. by eapply start_spec.
  - done.
  - unfold InstallCable. destruct (_ =?? _); [done|]. destruct (_ =?? _); [done|].
    destruct Hwf as [Hp Hs]. split; [|done]. unfold pending_wf. simpl.
    apply map_Forall_insert_2; [|done]. unfold zget.
    destruct (natDiscoveryPending i !! _) as [n|] eqn:Hl; simpl; [|lia].
    pose proof (Hp _ _ Hl) as Hn. simpl in Hn. lia.
  - destruct (RemoveCable ep f i) eqn:Hr. by eapply remove_spec.
  - destruct (installCableWithNATInfo rnat i) eqn:Hr. by eapply install_spec.
  - by apply list_spec.
  - by apply cleanup_spec.
Qed.

(** A cable neither expected nor installed stays so until it is asked for. *)
Lemma engine_step_gone owner name e i :
  (forall spec id d, NewDriver spec id = Ok d -> valid d /\ conns d = []) ->
  event_ok owner e -> engine_wf owner i ->
  (forall ep f, e = EvInstall ep f -> GetFamilyCableName (Spec ep) f <> name) ->
  natDiscoveryPending i !! name = None -> installedCables i !! name = None ->
  natDiscoveryPending (engine_step NewDriver e i) !! name = None /\
  installedCables (engine_step NewDriver e i) !! name = None.
Proof.
  intros Hnew He Hwf Hne Hp Hi. destruct e as [| |ep f|ep f|rnat| |]; simpl in *; [| done | | | | |].
  - destruct (StartEngine NewDriver i) eqn:Hs. simpl.
    destruct (start_spec owner _ _ _ Hnew Hwf Hs) as (_ & -> & ->). done.
  - unfold InstallCable. destruct (_ =?? _); [done|]. destruct (_ =?? _); [done|]. simpl.
    rewrite lookup_insert_ne; [done|by eapply Hne].
  - unfold RemoveCable, mbind, eff_bind, getw, modifyw, on_driver.
    destruct (_ =?? _); [done|]. simpl.
    destruct (installedCables i !! GetFamilyCableName (Spec ep) f); [|unfold mret, eff_ret; simpl; split; [rewrite lookup_delete_None|]; by eauto].
    simpl. destruct (driver i); [|unfold mret, eff_ret; simpl; split; [rewrite lookup_delete_None|]; by eauto]. simpl.
    destruct (DisconnectFromEndpoint _ _ _) as [[[]|] ]; simpl; rewrite !lookup_delete_None; by eauto.
  - destruct (installCableWithNATInfo rnat i) as [r i'] eqn:Hr. simpl.
    destruct (install_spec owner _ _ _ _ He Hwf Hr) as (_ & Hpend & [-> | (_ & [n Hn] & ->)]);
      (split; [by apply Hpend|]); [done|]. rewrite lookup_insert_ne; congruence.
  - destruct (list_spec owner i Hwf) as (_ & -> & ->). done.
  - destruct (cleanup_spec owner i Hwf) as (_ & -> & ->). done.
Qed.
End engine_lemmas.

(** The list driver keeps the contract. *)
Lemma list_remove_spec `{K8sNet} spec f l :
  list_remove spec f l = l \/
  exists l1 c l2, l = l1 ++ c :: l2 /\ list_remove spec f l = l1 ++ l2 /\
    CableName (conn_Endpoint c) = CableName spec /\ GetFamily c = f.
Proof.
  induction l as [|c l IH]; simpl; [by left|]. destruct (_ && _) eqn:Hc.
  - bool_props. right. by exists [], c, l.
  - destruct IH as [-> | (l1 & c' & l2 & -> & -> & ?)]; [by left|].
    right. by exists (c :: l1), c', l2.
Qed.

Lemma list_remove_gone `{K8sNet} c l : c ∈ l ->
  (length (list_remove (conn_Endpoint c) (GetFamily c) l) < length l)%nat.
Proof.
  induction 1 as [l|c' l Hc IH]; simpl; [|destruct (_ && _); simpl; lia].
  rewrite !bool_decide_true by done. simpl. lia.
Qed.

#[local] Instance list_driver_laws `{K8sNet} : @DriverLaws (list Connection) _ list_driver.
Proof.
  refine {| conns := (fun d => d) : list Connection -> list Connection; valid := fun _ => True |}; simpl;
    [done..| | | | | | | | |].
  - by intros d h d' [= <- <-].
  - done.
  - done.
  - intros d spec f r d' [= <- <-]. apply list_remove_spec.
  - intros d d' c _ Hc _ [= <-]. by apply list_remove_gone.
  - by intros d r d' [= <- <-].
  - intros d r d' [= <- <-]. apply same_cables_refl.
  - intros d r d' [= <- <-]. by right.
  - intros d info r d' [= <- <-]. right. by eexists.
Defined.

(** * Properties *)
Section properties.
Context {D N : Type} `{K8sNet} `{!Driver D} `{!DriverLaws D} `{!NATIface N}.
Variable NewDriver : EndpointSpec -> string -> result string D.

(** C1: whatever sequence of starts, stops, cable requests, removals and NAT
    results the engine goes through, the driver never holds two cables for the
    same remote cluster and family, and the counters of expected NAT results
    stay positive, for any driver that meets its contract. *)
Theorem engine_run_wf (owner : string -> string) (i : engine D N) (es : list engine_event) :
  (forall spec id d, NewDriver spec id = Ok d -> valid d /\ conns d = []) ->
  Forall (event_ok owner) es -> engine_wf owner i ->
  engine_wf owner (engine_run NewDriver es i).
Proof.
  intros Hnew Hes. unfold engine_run. revert i.
  induction Hes as [|e es He _ IH]; intros i Hi; [done|]. simpl. apply IH. by apply engine_step_wf.
Qed.

(** C13: once a cable was removed without error, no later event reinstalls it
    until it is asked for again; in particular NAT results that arrive late are
    dropped. *)
Theorem engine_removed_stays_removed (owner : string -> string) (i i' : engine D N)
    (es : list engine_event) (ep : EndpointObj) (f : IPFamily) :
  (forall spec id d, NewDriver spec id = Ok d -> valid d /\ conns d = []) ->
  engine_wf owner i -> ClusterID (Spec ep) <> localClusterID i ->
  RemoveCable ep f i = (Ok tt, i') ->
  Forall (fun e => event_ok owner e /\ forall ep' f', e = EvInstall ep' f' ->
            GetFamilyCableName (Spec ep') f' <> GetFamilyCableName (Spec ep) f) es ->
  natDiscoveryPending (engine_run NewDriver es i') !! GetFamilyCableName (Spec ep) f = None /\
  installedCables (engine_run NewDriver es i') !! GetFamilyCableName (Spec ep) f = None.
Proof.
  intros Hnew Hwf Hcl Hrem Hes. pose proof (remove_spec _ _ _ _ _ _ Hwf Hrem) as Hwf'.
  assert (natDiscoveryPending i' !! GetFamilyCableName (Spec ep) f = None /\
          installedCables i' !! GetFamilyCableName (Spec ep) f = None) as [Hp Hi].
  { revert Hrem. unfold RemoveCable, mbind, eff_bind, getw, modifyw, on_driver.
    rewrite bool_decide_false by done. simpl.
    destruct (installedCables i !! _) eqn:Hinst; [|intros [= <-]; simpl; by rewrite lookup_delete_eq].
    simpl. destruct (driver i); [|done].
    destruct (DisconnectFromEndpoint _ _ _) as [[[]|] ]; simpl; [|done].
    intros [= <-]. simpl. by rewrite !lookup_delete_eq. }
  clear Hrem Hwf. unfold engine_run. revert i' Hwf' Hp Hi.
  induction Hes as [|e es [He Hne] _ IH]; intros i' Hwf' Hp Hi; [done|]. simpl.
  destruct (engine_step_gone NewDriver owner (GetFamilyCableName (Spec ep) f) e i') as [Hp' Hi']; [done..|].
  apply IH; [by apply engine_step_wf|done|done].
Qed.

(** a cable whose endpoint is older than the installed cable of the same
    cluster and family does not replace it: the driver keeps its connections
    and nothing is recorded as installed. *)
Lemma engine_older_not_replacing (owner : string -> string) (i : engine D N) (d : D)
    (rnat : NATEndpointInfo) (c : Connection) (r : result engine_error unit) (i' : engine D N) :
  engine_wf owner i -> driver i = Some d -> info_ok owner rnat ->
  c ∈ conns d -> ClusterID (conn_Endpoint c) = ClusterID (Spec (info_Endpoint rnat)) ->
  GetFamily c = UseFamily rnat ->
  CreationTimestamp (info_Endpoint rnat) <
    zget 0 (installedCables i) (GetFamilyCableName (conn_Endpoint c) (GetFamily c)) ->
  installCableWithNATInfo rnat i = (r, i') ->
  installedCables i' = installedCables i /\
  exists d', driver i' = Some d' /\ conns d' = conns d.
Proof.
  intros [Hp Hs] Hdr Hok Hc Hcl Hf Hts. rewrite Hdr in Hs.
  unfold installCableWithNATInfo. unfold mbind at 1, eff_bind at 1.
  destruct (shouldProceedWithInstallation _ i) as [r1 i1] eqn:Hsp.
  apply shouldProceed_pending in Hsp as (_ & Hd1 & _ & Hi1 & _ & ->); [|done].
  rewrite Hdr in Hd1. destruct (natDiscoveryPending i !! _) eqn:Hpend; simpl;
    [|intros [= <- <-]; split; [done|by exists d]].
  unfold mbind, eff_bind, getw.
  destruct (negb (running i1)); [intros [= <- <-]; split; [done|by exists d]|].
  unfold on_driver at 1. rewrite Hd1.
  destruct (GetActiveConnections d) as [[h|e] d1] eqn:Hact; simpl.
  2:{ intros [= <- <-]. simpl. split; [done|]. exists d1. split; [done|]. by eapply active_err. }
  destruct (active_fresh _ _ _ Hact) as (Hc1 & Hlen & Hreads).
  destruct (list_elem_of_split _ _ Hc) as (l1 & l2 & E).
  assert (conns d !! length l1 = Some c) as Hj by (rewrite E; by apply list_lookup_middle).
  assert (length l1 < handle_len h)%nat as Hjl by (rewrite Hlen, E, length_app; simpl; lia).
  assert (count_cluster (ClusterID (Spec (info_Endpoint rnat))) (UseFamily rnat) l1 = 0%nat) as Hz.
  { pose proof (proj2 (proj2 Hs) (ClusterID (Spec (info_Endpoint rnat))) (UseFamily rnat) (proj2 (proj2 Hok))) as Hle.
    rewrite E, count_app in Hle. simpl in Hle.
    replace (of_cluster _ _ c) with true in Hle; [lia|].
    unfold of_cluster. by rewrite Hcl, Hf, !bool_decide_true. }
  rewrite (install_loop_skip rnat _ h _ d1 (length l1) (handle_len h) 0); [|done|lia|lia|].
  2:{ intros m Hm. destruct (l1 !! m) as [c'|] eqn:Hm'; [|apply lookup_ge_None in Hm'; lia].
      exists c'. split; [|by eapply count_zero].
      rewrite Hreads, E by lia. by rewrite lookup_app_l by lia. }
  replace (0 + handle_len h - length l1)%nat with (S (handle_len h - S (length l1))) by lia.
  cbn [seq install_loop]. unfold mbind, eff_bind, getw. cbn [driver set_driver option_bind].
  rewrite Hreads, Hj by lia. rewrite Hcl, Hf, !bool_decide_true by done. simpl.
  rewrite Hi1. rewrite Hf in Hts. replace (_ <? _) with true by (symmetry; by apply Z.ltb_lt).
  simpl. intros [= <- <-]. simpl. split; [done|]. by exists d1.
Qed.

(** an expected NAT result for a cluster and family without a cable makes a
    running engine connect with exactly that result: when the driver connects,
    the installation succeeds, the cable is recorded with the endpoint's
    timestamp and one result fewer is expected. *)
Lemma engine_installs_new_cable (i : engine D N) (d d1 d2 : D) (h : handle)
    (rnat : NATEndpointInfo) (n : Z) (ip : string) :
  let name := GetFamilyCableName (Spec (info_Endpoint rnat)) (UseFamily rnat) in
  natDiscoveryPending i !! name = Some n -> running i = true -> driver i = Some d ->
  GetActiveConnections d = (Ok h, d1) ->
  count_cluster (ClusterID (Spec (info_Endpoint rnat))) (UseFamily rnat) (conns d) = 0%nat ->
  ConnectToEndpoint rnat d1 = (Ok ip, d2) ->
  exists i', installCableWithNATInfo rnat i = (Ok tt, i') /\ driver i' = Some d2 /\
    installedCables i' = <[name := CreationTimestamp (info_Endpoint rnat)]> (installedCables i) /\
    natDiscoveryPending i' !! name = (if n =? 1 then None else Some (n - 1)).
Proof.
  intros name Hpend Hrun Hdr Hact Hz Hcon.
  destruct (active_fresh _ _ _ Hact) as (Hc1 & Hlen & Hreads).
  destruct (shouldProceed_some name i n Hpend) as (i2 & Hsp & Hd2 & Hr2 & Hi2 & Hp2).
  rewrite Hdr in Hd2. rewrite Hrun in Hr2.
  unfold installCableWithNATInfo. fold name. unfold mbind, eff_bind, getw, modifyw. rewrite Hsp.
  simpl. rewrite Hr2. simpl. unfold on_driver at 1. rewrite Hd2, Hact. simpl.
  assert (install_loop rnat name h (seq 0 (handle_len h)) (set_driver (Some d1) i2) =
          (Ok true, set_driver (Some d1) i2)) as ->.
  { destruct (handle_len h) as [|k] eqn:Hk; [done|].
    assert (forall j, (j < S k)%nat -> exists c, handle_read d1 h j = Some c /\
      of_cluster (ClusterID (Spec (info_Endpoint rnat))) (UseFamily rnat) c = false) as Hall.
    { intros j Hj. destruct (conns d !! j) as [c|] eqn:Hc; [|apply lookup_ge_None in Hc; lia].
      exists c. split; [rewrite Hreads by lia; done|by eapply count_zero]. }
    rewrite (install_loop_skip rnat name h _ d1 k (S k) 0) by (eauto with lia).
    replace (0 + S k - k)%nat with 1%nat by lia.
    cbn [seq install_loop]. unfold mbind, eff_bind, getw. cbn [driver set_driver option_bind].
    destruct (Hall k) as (c & -> & Hof); [lia|]. unfold of_cluster in Hof.
    replace (negb _ || negb _) with true by (destruct (_ =?? _), (_ =?? _); done). done. }
  simpl. unfold on_driver. simpl. rewrite Hcon. simpl.
  eexists. split; [reflexivity|]. simpl. rewrite Hi2. by rewrite Hp2.
Qed.
End properties.

(** * Witnesses *)
#[local] Existing Instance k8snet_ref.
#[local] Existing Instance list_driver.

Definition ex_nat : NATIface NatDiscovery.natDiscovery := nat_iface init_timers 100.
#[local] Existing Instance ex_nat.

Definition ex_owner (cable : string) : string :=
  if cable =?? "submariner-cable-east"%string then "east"%string else EmptyString.

Definition ex_new_driver (_ : EndpointSpec) (_ : string) : result string (list Connection) := Ok [].

Definition ex_info : NATEndpointInfo :=
  mkInfo NatDiscovery.ex_endpoint true "10.0.0.2" IPv4.

Definition ex_engine : engine (list Connection) NatDiscovery.natDiscovery :=
  NewEngine "west" NatDiscovery.ex_west (NatDiscovery.ex_nd NatDiscovery.ex_west).

(** Started, and waiting for the NAT result of the other cluster's gateway. *)
Definition ex_waiting := engine_run ex_new_driver [EvStart; EvInstall NatDiscovery.ex_endpoint IPv4] ex_engine.

(** The same with the cable installed. *)
Definition ex_installed :=
  engine_run ex_new_driver
    [EvStart; EvInstall NatDiscovery.ex_endpoint IPv4; EvNATInfo ex_info] ex_engine.

Lemma ex_info_ok : info_ok ex_owner ex_info.
Proof. split; [reflexivity|]. split; [reflexivity|discriminate]. Qed.

Lemma ex_new_driver_empty spec id d : ex_new_driver spec id = Ok d -> valid d /\ conns d = [].
Proof. intros E. injection E as <-. split; [exact I|reflexivity]. Qed.

Lemma ex_engine_wf : engine_wf ex_owner ex_engine.
Proof. split; [apply map_Forall_empty|done]. Qed.

Lemma ex_installed_wf : engine_wf ex_owner ex_installed.
Proof.
  unfold ex_installed, engine_run. cbn [foldl].
  repeat (apply engine_step_wf; [apply ex_new_driver_empty|try exact I; apply ex_info_ok|]).
  apply ex_engine_wf.
Qed.

Lemma engine_run_wf_witness :
  engine_wf ex_owner (engine_run ex_new_driver
    [EvStart; EvInstall NatDiscovery.ex_endpoint IPv4; EvNATInfo ex_info; EvNATInfo ex_info;
     EvRemove NatDiscovery.ex_endpoint IPv4] ex_engine).
Proof.
  apply (engine_run_wf ex_new_driver ex_owner ex_engine).
  - apply ex_new_driver_empty.
  - repeat constructor; discriminate.
  - apply ex_engine_wf.
Defined.

Lemma engine_removed_stays_removed_witness :
  exists i', RemoveCable NatDiscovery.ex_endpoint IPv4 ex_installed = (Ok tt, i') /\
    natDiscoveryPending (engine_run ex_new_driver [EvNATInfo ex_info] i')
      !! GetFamilyCableName NatDiscovery.ex_east IPv4 = None /\
    installedCables (engine_run ex_new_driver [EvNATInfo ex_info] i')
      !! GetFamilyCableName NatDiscovery.ex_east IPv4 = None.
Proof.
  eexists. split; [vm_compute; reflexivity|].
  apply (engine_removed_stays_removed ex_new_driver ex_owner ex_installed _ [EvNATInfo ex_info]
    NatDiscovery.ex_endpoint IPv4).
  - apply ex_new_driver_empty.
  - apply ex_installed_wf.
  - vm_compute. discriminate.
  - vm_compute. reflexivity.
  - constructor; [split; [apply ex_info_ok|intros; discriminate]|constructor].
Defined.

(** An older endpoint of the same cluster, under another cable name. *)
Definition ex_older_spec : EndpointSpec :=
  NatDiscovery.ex_spec "east" "submariner-cable-east" "10.0.0.3".
Definition ex_older : NATEndpointInfo :=
  mkInfo (mkEndpoint "east" 3 ex_older_spec) false "10.0.0.3" IPv4.
Definition ex_installed_waiting :=
  engine_run ex_new_driver [EvInstall (mkEndpoint "east" 3 ex_older_spec) IPv4] ex_installed.

Lemma engine_older_not_replacing_witness :
  exists i' d d', installCableWithNATInfo ex_older ex_installed_waiting = (Ok tt, i') /\
    driver ex_installed_waiting = Some d /\ driver i' = Some d' /\
    conns d' = conns d /\ length (conns d) = 1%nat.
Proof.
  destruct (installCableWithNATInfo ex_older ex_installed_waiting) as [r i'] eqn:E.
  assert (r = Ok tt) as -> by (vm_compute in E; congruence).
  destruct (driver ex_installed_waiting) as [d|] eqn:Hd; [|vm_compute in Hd; discriminate].
  exists i', d. destruct (engine_older_not_replacing ex_owner ex_installed_waiting d ex_older
    (mkConnection Connected EmptyString NatDiscovery.ex_east "10.0.0.2" true None) (Ok tt) i')
    as (_ & d' & Hd' & Hc).
  - apply (engine_step_wf ex_new_driver ex_owner _ ex_installed); [apply ex_new_driver_empty|exact I|apply ex_installed_wf].
  - exact Hd.
  - split; [reflexivity|]. split; [reflexivity|discriminate].
  - vm_compute in Hd. injection Hd as <-. left.
  - reflexivity.
  - reflexivity.
  - vm_compute. reflexivity.
  - exact E.
  - exists d'. split; [reflexivity|]. split; [reflexivity|]. split; [exact Hd'|]. split; [exact Hc|].
    vm_compute in Hd. injection Hd as <-. reflexivity.
Defined.

Lemma engine_installs_new_cable_witness :
  exists i', installCableWithNATInfo ex_info ex_waiting = (Ok tt, i') /\
    installedCables i' = <[GetFamilyCableName NatDiscovery.ex_east IPv4 := 7]> (installedCables ex_waiting).
Proof.
  destruct (@engine_installs_new_cable (list Connection) _ k8snet_ref list_driver list_driver_laws
    ex_waiting [] []
    [mkConnection Connected EmptyString NatDiscovery.ex_east "10.0.0.2" true None]
    ([] : list Connection) ex_info 1 "10.0.0.2")
    as (i' & Hi & _ & Hc & _).
  - vm_compute. reflexivity.
  - reflexivity.
  - reflexivity.
  - reflexivity.
  - reflexivity.
  - reflexivity.
  - exists i'. split; [exact Hi|exact Hc].
Defined.

End CableEngine.
