(* ===== verification/Metrics.v ===== *)
(** Cable metrics ([pkg/cable/metrics.go]): the published gauges and the map of
    recorded cables they must agree with.

    A Prometheus gauge vector is a parameter with the documented behaviour of
    its calls; measured values and times are numbers. *)
From stdpp Require Import base gmap list strings fin_maps fin_map_dom.
From Stdlib Require Import ZArith Lia.
From S2P Require Import Prelude GoNet K8s Cidr Endpoint.
Import Endpoint.
Local Open Scope Z_scope.

(** [prometheus.Labels] *)
Abbreviation Labels := (gmap string string).

(** [prometheus.GaugeVec]: one series per set of labels. *)
Class GaugeVec (G : Type) := {
  series : G -> gmap Labels Z;
  gauge_Set : Labels -> Z -> G -> G;
  gauge_Delete : Labels -> G -> G;
  gauge_DeletePartialMatch : Labels -> G -> G;
}.

Class GaugeVecLaws (G : Type) `{!GaugeVec G} := {
  series_Set : forall l v g, series (gauge_Set l v g) = <[l := v]> (series g);
  series_Delete : forall l g, series (gauge_Delete l g) = delete l (series g);
  (** Every series that has all the given labels goes. *)
  series_DeletePartialMatch : forall l g,
    series (gauge_DeletePartialMatch l g) = filter (fun p => ~ l ⊆ p.1) (series g);
}.

Module Metrics.

Definition cableDriverLabel : string := "cable_driver".
Definition localClusterLabel : string := "local_cluster".
Definition localHostnameLabel : string := "local_hostname".
Definition localEndpointIPLabel : string := "local_endpoint_ip".
Definition remoteClusterLabel : string := "remote_cluster".
Definition remoteHostnameLabel : string := "remote_hostname".
Definition remoteEndpointIPLabel : string := "remote_endpoint_ip".
Definition connectionsStatusLabel : string := "status".

(** * State *)

Record cableStatus := mkCableStatus {
  labels : Labels;
  status : string;
  cableName : string;
}.

(** [shortConnectionKey]: cable driver name and status. *)
Abbreviation shortConnectionKey := (string * string)%type.

(** The package's variables. *)
Record metrics (G : Type) := mkMetrics {
  rxGauge : G;
  txGauge : G;
  connectionsGauge : G;
  shortConnectionsGauge : G;
  connectionEstablishedTimestampGauge : G;
  connectionLatencySecondsGauge : G;
  cableStatuses : gmap string cableStatus;
  publishedShortConnections : gmap shortConnectionKey Z;
}.
Arguments mkMetrics {G}.
Arguments rxGauge {G}.
Arguments txGauge {G}.
Arguments connectionsGauge {G}.
Arguments shortConnectionsGauge {G}.
Arguments connectionEstablishedTimestampGauge {G}.
Arguments connectionLatencySecondsGauge {G}.
Arguments cableStatuses {G}.
Arguments publishedShortConnections {G}.

Section ops.
Context {G : Type} `{!GaugeVec G} `{K8sNet}.

Definition on_rx (f : G -> G) (m : metrics G) : metrics G :=
  mkMetrics (f (rxGauge m)) (txGauge m) (connectionsGauge m) (shortConnectionsGauge m)
    (connectionEstablishedTimestampGauge m) (connectionLatencySecondsGauge m) (cableStatuses m)
    (publishedShortConnections m).
Definition on_tx (f : G -> G) (m : metrics G) : metrics G :=
  mkMetrics (rxGauge m) (f (txGauge m)) (connectionsGauge m) (shortConnectionsGauge m)
    (connectionEstablishedTimestampGauge m) (connectionLatencySecondsGauge m) (cableStatuses m)
    (publishedShortConnections m).
Definition on_connections (f : G -> G) (m : metrics G) : metrics G :=
  mkMetrics (rxGauge m) (txGauge m) (f (connectionsGauge m)) (shortConnectionsGauge m)
    (connectionEstablishedTimestampGauge m) (connectionLatencySecondsGauge m) (cableStatuses m)
    (publishedShortConnections m).
Definition on_established (f : G -> G) (m : metrics G) : metrics G :=
  mkMetrics (rxGauge m) (txGauge m) (connectionsGauge m) (shortConnectionsGauge m)
    (f (connectionEstablishedTimestampGauge m)) (connectionLatencySecondsGauge m) (cableStatuses m)
    (publishedShortConnections m).
Definition on_latency (f : G -> G) (m : metrics G) : metrics G :=
  mkMetrics (rxGauge m) (txGauge m) (connectionsGauge m) (shortConnectionsGauge m)
    (connectionEstablishedTimestampGauge m) (f (connectionLatencySecondsGauge m)) (cableStatuses m)
    (publishedShortConnections m).
Definition with_statuses (f : gmap string cableStatus -> gmap string cableStatus) (m : metrics G)
    : metrics G :=
  mkMetrics (rxGauge m) (txGauge m) (connectionsGauge m) (shortConnectionsGauge m)
    (connectionEstablishedTimestampGauge m) (connectionLatencySecondsGauge m)
    (f (cableStatuses m)) (publishedShortConnections m).
Definition with_short (g : G) (p : gmap shortConnectionKey Z) (m : metrics G) : metrics G :=
  mkMetrics (rxGauge m) (txGauge m) (connectionsGauge m) g
    (connectionEstablishedTimestampGauge m) (connectionLatencySecondsGauge m) (cableStatuses m) p.

(** [strings.Join({driver, cluster, family}, "/")] *)
Definition cableKey (cableDriverName remoteClusterID : string) (family : IPFamily) : string :=
  String.append cableDriverName (String.append "/"
    (String.append remoteClusterID (String.append "/" (family_str family)))).

Definition shortLabels (key : shortConnectionKey) : Labels :=
  <[cableDriverLabel := key.1]> (<[connectionsStatusLabel := key.2]> ∅).

(** [withStatus]: a copy with the status added. *)
Definition withStatus (l : Labels) (s : string) : Labels := <[connectionsStatusLabel := s]> l.

Definition getLabels (cableDriverName : string) (localEndpoint remoteEndpoint : EndpointSpec)
    (family : IPFamily) : Labels :=
  list_to_map [
    (cableDriverLabel, cableDriverName);
    (localClusterLabel, ClusterID localEndpoint);
    (localHostnameLabel, Hostname localEndpoint);
    (localEndpointIPLabel, GetPublicIP localEndpoint family);
    (remoteClusterLabel, ClusterID remoteEndpoint);
    (remoteHostnameLabel, Hostname remoteEndpoint);
    (remoteEndpointIPLabel, GetPublicIP remoteEndpoint family)].

Definition short_key (cs : cableStatus) : shortConnectionKey :=
  (zget EmptyString (labels cs) cableDriverLabel, status cs).

(** The first loop of [recordShortConnections]. *)
Definition short_counts (l : list cableStatus) : gmap shortConnectionKey Z :=
  foldl (fun counts cs => <[short_key cs := zget 0 counts (short_key cs) + 1]> counts) ∅ l.

Definition recordShortConnections (m : metrics G) : metrics G :=
  let counts := short_counts (map_to_list (cableStatuses m)).*2 in
  let g := foldl (fun g kc => gauge_Set (shortLabels kc.1) kc.2 g)
             (shortConnectionsGauge m) (map_to_list counts) in
  let g := foldl (fun g kc => match counts !! kc.1 with
                              | Some _ => g
                              | None => gauge_Delete (shortLabels kc.1) g
                              end)
             g (map_to_list (publishedShortConnections m)) in
  with_short g counts m.

(** The replaced status, if it had one, and whether anything changed. *)
Definition setCableStatus (key : string) (current : cableStatus) (m : metrics G)
    : option cableStatus * bool * metrics G :=
  let previous := cableStatuses m !! key in
  let m := with_statuses (insert key current) m in
  if match previous with
     | Some p => (status p =?? status current) && (labels p =?? labels current)
     | None => false
     end
  then (None, false, m)
  else (previous, true, recordShortConnections m).

Definition deleteCableStatus (key cname : string) (l : Labels) (m : metrics G) : bool * metrics G :=
  match cableStatuses m !! key with
  | None => (true, m)
  | Some existing =>
      if negb (cableName existing =?? cname) || negb (labels existing =?? l) then (false, m)
      else (true, recordShortConnections (with_statuses (delete key) m))
  end.

Definition removeCableMetrics (l : Labels) (m : metrics G) : metrics G :=
  on_connections (gauge_DeletePartialMatch l)
    (on_tx (gauge_Delete l)
      (on_rx (gauge_Delete l)
        (on_established (gauge_Delete l)
          (on_latency (gauge_Delete l) m)))).

Definition RecordRxBytes (drv : string) (localEndpoint remoteEndpoint : EndpointSpec) (bytes : Z)
    (family : IPFamily) (m : metrics G) : metrics G :=
  on_rx (gauge_Set (getLabels drv localEndpoint remoteEndpoint family) bytes) m.

Definition RecordTxBytes (drv : string) (localEndpoint remoteEndpoint : EndpointSpec) (bytes : Z)
    (family : IPFamily) (m : metrics G) : metrics G :=
  on_tx (gauge_Set (getLabels drv localEndpoint remoteEndpoint family) bytes) m.

Definition RecordConnectionLatency (drv : string) (localEndpoint remoteEndpoint : EndpointSpec)
    (latencySeconds : Z) (family : IPFamily) (m : metrics G) : metrics G :=
  on_latency (gauge_Set (getLabels drv localEndpoint remoteEndpoint family) latencySeconds) m.

Definition RecordConnection (now : Z) (drv : string) (localEndpoint remoteEndpoint : EndpointSpec)
    (st : string) (isNew : bool) (family : IPFamily) (m : metrics G) : metrics G :=
  let l := getLabels drv localEndpoint remoteEndpoint family in
  let m := if isNew then on_established (gauge_Set l now) m else m in
  let '(previous, changed, m) :=
    setCableStatus (cableKey drv (ClusterID remoteEndpoint) family)
      (mkCableStatus l st (CableName remoteEndpoint)) m in
  let m := on_connections (gauge_Set (withStatus l st) 1) m in
  match previous with
  | Some p =>
      if negb changed then m
      else if labels p =?? l
      then on_connections (gauge_Delete (withStatus (labels p) (status p))) m
      else removeCableMetrics (labels p) m
  | None => m
  end.

Definition RecordDisconnected (drv : string) (localEndpoint remoteEndpoint : EndpointSpec)
    (family : IPFamily) (m : metrics G) : metrics G :=
  let l := getLabels drv localEndpoint remoteEndpoint family in
  let '(gone, m) := deleteCableStatus (cableKey drv (ClusterID remoteEndpoint) family)
                      (CableName remoteEndpoint) l m in
  if gone then removeCableMetrics l m else m.

(** What the cable drivers report. *)
Inductive metric_event :=
| EvRx (drv : string) (localEndpoint remoteEndpoint : EndpointSpec) (bytes : Z) (family : IPFamily)
| EvTx (drv : string) (localEndpoint remoteEndpoint : EndpointSpec) (bytes : Z) (family : IPFamily)
| EvLatency (drv : string) (localEndpoint remoteEndpoint : EndpointSpec) (s : Z) (family : IPFamily)
| EvConnection (now : Z) (drv : string) (localEndpoint remoteEndpoint : EndpointSpec) (st : string)
    (isNew : bool) (family : IPFamily)
| EvDisconnected (drv : string) (localEndpoint remoteEndpoint : EndpointSpec) (family : IPFamily).

Definition metric_step (m : metrics G) (e : metric_event) : metrics G :=
  match e with
  | EvRx drv le re n f => RecordRxBytes drv le re n f m
  | EvTx drv le re n f => RecordTxBytes drv le re n f m
  | EvLatency drv le re n f => RecordConnectionLatency drv le re n f m
  | EvConnection now drv le re st isNew f => RecordConnection now drv le re st isNew f m
  | EvDisconnected drv le re f => RecordDisconnected drv le re f m
  end.

Definition metric_run (m : metrics G) (es : list metric_event) : metrics G := foldl metric_step m es.

(** * Invariant *)

(** Recorded cables of one driver and status. *)
Definition count_key (k : shortConnectionKey) (l : list cableStatus) : nat :=
  length (filter (fun cs => short_key cs = k) l).

Definition recorded (m : metrics G) : list cableStatus := (map_to_list (cableStatuses m)).*2.

(** The summary gauge reports, for every driver and status with a cable, the
    number of its cables, and nothing else. *)
Definition short_wf (m : metrics G) : Prop :=
  publishedShortConnections m = short_counts (recorded m) /\
  forall L v, series (shortConnectionsGauge m) !! L = Some v <->
    exists k, L = shortLabels k /\ v = Z.of_nat (count_key k (recorded m)) /\ 1 <= v.

Definition cable_labels : list string :=
  [cableDriverLabel; localClusterLabel; localHostnameLabel; localEndpointIPLabel;
   remoteClusterLabel; remoteHostnameLabel; remoteEndpointIPLabel].

(** The labels of a cable, which determine its key by [key_of]. *)
Definition labels_ok (key_of : Labels -> string) (key : string) (l : Labels) : Prop :=
  (forall x, is_Some (l !! x) <-> x ∈ cable_labels) /\ key_of l = key.

(** The connections gauge has exactly one series per recorded cable, with its
    current status. *)
Definition connections_wf (key_of : Labels -> string) (m : metrics G) : Prop :=
  map_Forall (fun key cs => labels_ok key_of key (labels cs)) (cableStatuses m) /\
  forall L, is_Some (series (connectionsGauge m) !! L) <->
    exists key cs, cableStatuses m !! key = Some cs /\ L = withStatus (labels cs) (status cs).

(** The labels of what is reported tell cables of different remote clusters,
    drivers and families apart. *)
Definition event_ok (key_of : Labels -> string) (e : metric_event) : Prop :=
  match e with
  | EvConnection _ drv le re _ _ f | EvDisconnected drv le re f =>
      key_of (getLabels drv le re f) = cableKey drv (ClusterID re) f
  | _ => True
  end.
End ops.

(** * Counting *)
Section counting.

Lemma count_key_app k l1 l2 : count_key k (l1 ++ l2) = (count_key k l1 + count_key k l2)%nat.
Proof. unfold count_key. by rewrite filter_app, length_app. Qed.

Lemma count_key_single k cs : count_key k [cs] = if decide (short_key cs = k) then 1%nat else 0%nat.
Proof. unfold count_key. rewrite filter_cons. case_decide; by rewrite ?filter_nil. Qed.

Lemma count_key_perm k l1 l2 : l1 ≡ₚ l2 -> count_key k l1 = count_key k l2.
Proof. intros Hp. unfold count_key. by rewrite Hp. Qed.

Lemma short_counts_lookup l k :
  short_counts l !! k = match count_key k l with O => None | S n => Some (Z.of_nat (S n)) end.
Proof.
  induction l as [|cs l IH] using rev_ind; [done|]. unfold short_counts in *.
  rewrite foldl_app, count_key_app, count_key_single. simpl.
  destruct (decide (short_key cs = k)) as [<-|Hne].
  - rewrite lookup_insert_eq. unfold zget at 1. rewrite IH, Nat.add_1_r. f_equal.
    destruct (count_key _ l); simpl; lia.
  - rewrite lookup_insert_ne by done. by rewrite Nat.add_0_r.
Qed.

Lemma short_counts_ext l1 l2 : (forall k, count_key k l1 = count_key k l2) ->
  short_counts l1 = short_counts l2.
Proof. intros Hc. apply map_eq. intros k. by rewrite !short_counts_lookup, Hc. Qed.

Lemma short_labels_inj k1 k2 : shortLabels k1 = shortLabels k2 -> k1 = k2.
Proof.
  destruct k1 as [d1 s1], k2 as [d2 s2]. unfold shortLabels. intros E. simpl in E.
  pose proof (f_equal (lookup cableDriverLabel) E) as E1.
  pose proof (f_equal (lookup connectionsStatusLabel) E) as E2.
  rewrite !lookup_insert_eq in E1.
  rewrite !(lookup_insert_ne _ cableDriverLabel connectionsStatusLabel), !lookup_insert_eq in E2 by done.
  congruence.
Qed.

(** The recorded list after an insertion or a deletion. *)
Lemma count_insert_new k (m : gmap string cableStatus) key cs : m !! key = None ->
  count_key k (map_to_list (<[key := cs]> m)).*2 =
  (count_key k [cs] + count_key k (map_to_list m).*2)%nat.
Proof.
  intros Hn. rewrite <- count_key_app. apply count_key_perm.
  by rewrite (map_to_list_insert m key cs Hn).
Qed.

Lemma count_delete k (m : gmap string cableStatus) key cs : m !! key = Some cs ->
  count_key k (map_to_list m).*2 =
  (count_key k [cs] + count_key k (map_to_list (delete key m)).*2)%nat.
Proof.
  intros Hs. rewrite <- count_key_app. apply count_key_perm.
  by rewrite <- (map_to_list_delete m key cs Hs).
Qed.

Lemma count_replace k (m : gmap string cableStatus) key cs cs' : m !! key = Some cs ->
  short_key cs = short_key cs' ->
  count_key k (map_to_list (<[key := cs']> m)).*2 = count_key k (map_to_list m).*2.
Proof.
  intros Hs Hk. rewrite (count_delete k m key cs Hs), <- insert_delete_eq.
  rewrite count_insert_new by apply lookup_delete_eq. by rewrite !count_key_single, Hk.
Qed.
End counting.

(** * The summary gauge *)
Section summary.
Context {G : Type} `{!GaugeVec G} `{!GaugeVecLaws G} `{K8sNet}.
Implicit Types m : metrics G.

Lemma fold_set_lookup l : forall g, NoDup l.*1 ->
  (forall k v, (k, v) ∈ l ->
     series (foldl (fun g kc => gauge_Set (shortLabels kc.1) kc.2 g) g l) !! shortLabels k = Some v) /\
  (forall L, (forall k v, (k, v) ∈ l -> L <> shortLabels k) ->
     series (foldl (fun g kc => gauge_Set (shortLabels kc.1) kc.2 g) g l) !! L = series g !! L).
Proof.
  induction l as [|[k0 v0] l IH]; intros g Hnd; simpl; [by split; [set_solver|]|].
  apply NoDup_cons in Hnd as [Hk Hnd]. destruct (IH (gauge_Set (shortLabels k0) v0 g) Hnd) as [IH1 IH2].
  split.
  - intros k v [[= -> ->]|Hin]%elem_of_cons; [|by apply IH1].
    rewrite IH2, series_Set, lookup_insert_eq; [done|].
    intros k' v' Hin E. apply short_labels_inj in E as ->. apply Hk.
    apply list_elem_of_fmap. by exists (k', v').
  - intros L HL. rewrite IH2, series_Set, lookup_insert_ne; [done| |].
    + apply not_eq_sym, (HL k0 v0). by left.
    + intros k v Hin. apply (HL k v). by right.
Qed.

Lemma fold_delete_lookup (counts : gmap shortConnectionKey Z) l : forall g L,
  series (foldl (fun g kc => match counts !! kc.1 with
                             | Some _ => g
                             | None => gauge_Delete (shortLabels kc.1) g
                             end) g l) !! L =
  if decide (Exists (fun kc : shortConnectionKey * Z => counts !! kc.1 = None /\ L = shortLabels kc.1) l)
  then None else series g !! L.
Proof.
  induction l as [|[k0 v0] l IH]; intros g L; cbn [foldl fst].
  { rewrite decide_False; [done|]. by intros E%Exists_nil. }
  rewrite IH. destruct (decide (Exists _ l)) as [E|E], (decide (Exists _ (_ :: l))) as [E'|E'];
    [done|by destruct E'; apply Exists_cons; right| |].
  - apply Exists_cons in E' as [[Hc ->]|]; [|done]. simpl in Hc. rewrite Hc, series_Delete.
    apply lookup_delete_eq.
  - destruct (counts !! k0) eqn:Hc; [done|]. rewrite series_Delete, lookup_delete_ne; [done|].
    intros <-. apply E'. apply Exists_cons. by left.
Qed.

Lemma recordShort_wf m old :
  publishedShortConnections m = short_counts old ->
  (forall L v, series (shortConnectionsGauge m) !! L = Some v <->
     exists k, L = shortLabels k /\ v = Z.of_nat (count_key k old) /\ 1 <= v) ->
  short_wf (recordShortConnections m).
Proof.
  intros Hpub Hg. unfold recordShortConnections.
  change (map_to_list (cableStatuses m)).*2 with (recorded m).
  set (counts := short_counts (recorded m)). split; [done|].
  change (recorded (with_short _ _ _)) with (recorded m).
  destruct (fold_set_lookup (map_to_list counts) (shortConnectionsGauge m) (NoDup_fst_map_to_list _))
    as [Hset Hkeep].
  assert (forall k v, counts !! k = Some v <-> v = Z.of_nat (count_key k (recorded m)) /\ 1 <= v) as Hcounts.
  { intros k v. subst counts. rewrite short_counts_lookup.
    destruct (count_key k (recorded m)); split; [done|lia|intros [= <-]; lia|intros [-> _]; done]. }
  intros L v. simpl. rewrite fold_delete_lookup. case_decide as E.
  - split; [done|]. intros (k & -> & Hv). exfalso. apply Hcounts in Hv.
    apply Exists_exists in E as ([k' v'] & _ & Hnone & Hl). simpl in *.
    apply short_labels_inj in Hl as <-. congruence.
  - split.
    + intros HL. destruct (decide (Exists (fun kc => L = shortLabels kc.1) (map_to_list counts))) as [Ei|Ei].
      * apply Exists_exists in Ei as ([k v'] & Hin & ->). simpl in *.
        rewrite (Hset k v' Hin) in HL. injection HL as <-. exists k. split; [done|].
        by apply Hcounts, elem_of_map_to_list.
      * rewrite Hkeep in HL by (intros k v' Hin ->; apply Ei, Exists_exists; by eexists (k, v')).
        apply Hg in HL as (k & -> & Hv & Hpos).
        destruct (counts !! k) as [c|] eqn:Hc.
        { exfalso. apply Ei, Exists_exists. exists (k, c). split; [by apply elem_of_map_to_list|done]. }
        exfalso. apply E, Exists_exists. exists (k, v). split; [|done].
        apply elem_of_map_to_list. rewrite Hpub, short_counts_lookup.
        destruct (count_key k old); [lia|by subst v].
    + intros (k & -> & Hv). apply Hset. by apply elem_of_map_to_list, Hcounts.
Qed.

Lemma short_wf_frame m m' : cableStatuses m' = cableStatuses m ->
  publishedShortConnections m' = publishedShortConnections m ->
  shortConnectionsGauge m' = shortConnectionsGauge m -> short_wf m -> short_wf m'.
Proof. unfold short_wf, recorded. by intros -> -> ->. Qed.

Lemma setCableStatus_short key cs m p c m' :
  short_wf m -> setCableStatus key cs m = (p, c, m') -> short_wf m'.
Proof.
  intros [Hpub Hg] Hset. unfold setCableStatus in Hset.
  destruct (cableStatuses m !! key) as [prev|] eqn:Hk; [|].
  - destruct (_ && _) eqn:Hsame; injection Hset as <- <- <-.
    + bool_props. assert (short_key prev = short_key cs) as Hkey by (unfold short_key; congruence).
      assert (forall k, count_key k (recorded (with_statuses (insert key cs) m)) = count_key k (recorded m))
        as Hc by (intros k; by apply (count_replace k _ key prev)).
      split; simpl.
      * rewrite Hpub. by apply short_counts_ext.
      * intros L v. rewrite Hg. by setoid_rewrite Hc.
    + by apply (recordShort_wf _ (recorded m)).
  - injection Hset as <- <- <-. by apply (recordShort_wf _ (recorded m)).
Qed.

Lemma deleteCableStatus_short key n l m b m' :
  short_wf m -> deleteCableStatus key n l m = (b, m') -> short_wf m'.
Proof.
  intros [Hpub Hg]. unfold deleteCableStatus.
  destruct (cableStatuses m !! key) as [e|] eqn:Hk; [|by intros [= <- <-]].
  destruct (_ || _); intros [= <- <-]; [done|]. by apply (recordShort_wf _ (recorded m)).
Qed.
End summary.

(** * The connections gauge *)
Section connections.
Context {G : Type} `{!GaugeVec G} `{!GaugeVecLaws G} `{K8sNet}.
Implicit Types m : metrics G.
Variable key_of : Labels -> string.

Lemma status_not_label k l : labels_ok key_of k l -> l !! connectionsStatusLabel = None.
Proof.
  intros [Hdom _]. apply eq_None_not_Some. rewrite Hdom.
  intros Hin. apply (bool_decide_eq_true_2 _) in Hin. by vm_compute in Hin.
Qed.

Lemma withStatus_inj k k' l l' st st' : labels_ok key_of k l -> labels_ok key_of k' l' ->
  withStatus l st = withStatus l' st' -> l = l' /\ st = st'.
Proof.
  intros Hl%status_not_label Hl'%status_not_label E. unfold withStatus in E.
  pose proof (f_equal (lookup connectionsStatusLabel) E) as Es. rewrite !lookup_insert_eq in Es.
  split; [|congruence]. apply map_eq. intros x.
  destruct (decide (x = connectionsStatusLabel)) as [->|]; [congruence|].
  pose proof (f_equal (lookup x) E) as Ex. by rewrite !lookup_insert_ne in Ex by done.
Qed.

(** A partial match on the labels of a cable selects the series of that cable. *)
Lemma partial_match k k' l l' st : labels_ok key_of k l -> labels_ok key_of k' l' ->
  l ⊆ withStatus l' st <-> l = l'.
Proof.
  intros Hl Hl'. split; [|intros <-; by apply insert_subseteq, (status_not_label k)].
  intros Hsub. apply map_eq. intros x. destruct (l !! x) as [v|] eqn:Hx.
  - pose proof (lookup_weaken _ _ _ _ Hx Hsub) as Hw. unfold withStatus in Hw.
    rewrite lookup_insert_ne in Hw; [done|]. intros <-. by rewrite (status_not_label k l Hl) in Hx.
  - symmetry. apply eq_None_not_Some. rewrite (proj1 Hl' x), <- (proj1 Hl x), Hx. by intros [].
Qed.

Lemma getLabels_ok drv le re f k : key_of (getLabels drv le re f) = k ->
  labels_ok key_of k (getLabels drv le re f).
Proof.
  intros Hk. split; [|done]. intros x. rewrite <- not_eq_None_Some. unfold getLabels.
  rewrite <- not_elem_of_list_to_map. split.
  - intros Hn. destruct (decide (x ∈ cable_labels)) as [|Hni]; [done|]. by destruct Hn.
  - by intros Hin Hn.
Qed.

(** A cable recorded at its key: the series of the cable it replaces goes. *)
Lemma connections_wf_insert m m' key cs :
  connections_wf key_of m -> labels_ok key_of key (labels cs) ->
  cableStatuses m' = <[key := cs]> (cableStatuses m) ->
  (forall L, is_Some (series (connectionsGauge m') !! L) <->
     L = withStatus (labels cs) (status cs) \/
     (is_Some (series (connectionsGauge m) !! L) /\
      match cableStatuses m !! key with
      | Some p => L <> withStatus (labels p) (status p)
      | None => True
      end)) ->
  connections_wf key_of m'.
Proof.
  intros [Hok Hser] Hcs Hst Hg. split; [rewrite Hst; by apply map_Forall_insert_2|].
  intros L. rewrite Hg, Hser, Hst. split.
  - intros [->|[(k & c & Hk & ->) Hne]]; [exists key, cs; by rewrite lookup_insert_eq|].
    exists k, c. rewrite lookup_insert_ne; [done|]. intros ->. by rewrite Hk in Hne.
  - intros (k & c & Hk & ->). destruct (decide (k = key)) as [->|Hkk].
    + rewrite lookup_insert_eq in Hk. injection Hk as <-. by left.
    + rewrite lookup_insert_ne in Hk by done. right. split; [by exists k, c|].
      destruct (cableStatuses m !! key) as [p|] eqn:Hp; [|done]. intros E. apply Hkk. destruct (withStatus_inj k key _ _ _ _ (Hok _ _ Hk) (Hok _ _ Hp) E) as [El _].
      rewrite <- (proj2 (Hok _ _ Hk)), <- (proj2 (Hok _ _ Hp)). by rewrite El.
Qed.

Lemma remove_series l m L k : labels_ok key_of k l ->
  (forall L', is_Some (series (connectionsGauge m) !! L') ->
     exists k' l' st, L' = withStatus l' st /\ labels_ok key_of k' l') ->
  is_Some (series (connectionsGauge (removeCableMetrics l m)) !! L) <->
  is_Some (series (connectionsGauge m) !! L) /\ forall st, L <> withStatus l st.
Proof.
  intros Hl Hall. cbn [removeCableMetrics connectionsGauge on_connections on_tx on_rx on_established on_latency].
  rewrite series_DeletePartialMatch. split.
  - intros [v Hv]. apply map_lookup_filter_Some in Hv as [Hv Hn]. split; [by exists v|].
    intros st ->. apply Hn. by apply (partial_match k k l l st Hl Hl).
  - intros [[v Hv] Hne]. exists v. apply map_lookup_filter_Some. split; [done|]. simpl. intros Hsub.
    destruct (Hall L (mk_is_Some _ _ Hv)) as (k' & l' & st & -> & Hl').
    apply (partial_match k k' l l' st Hl Hl') in Hsub as <-. by apply (Hne st).
Qed.

Lemma is_Some_insert (g : gmap Labels Z) L L' v :
  is_Some (<[L' := v]> g !! L) <-> L = L' \/ is_Some (g !! L).
Proof.
  destruct (decide (L = L')) as [->|]; [rewrite lookup_insert_eq; split; [by left|by eexists]|].
  rewrite lookup_insert_ne by done. tauto.
Qed.

Lemma is_Some_delete (g : gmap Labels Z) L L' :
  is_Some (delete L' g !! L) <-> L <> L' /\ is_Some (g !! L).
Proof.
  destruct (decide (L = L')) as [->|].
  - rewrite lookup_delete_eq. split; [by intros []|tauto].
  - rewrite lookup_delete_ne by done. tauto.
Qed.

Lemma RecordConnection_connections now drv le re st isNew f m :
  key_of (getLabels drv le re f) = cableKey drv (ClusterID re) f ->
  connections_wf key_of m -> connections_wf key_of (RecordConnection now drv le re st isNew f m).
Proof.
  intros Hkey Hwf. unfold RecordConnection.
  set (l := getLabels drv le re f) in *. set (key := cableKey drv (ClusterID re) f) in *.
  set (cs := mkCableStatus l st (CableName re)).
  set (m1 := if isNew then _ else m).
  assert (connectionsGauge m1 = connectionsGauge m /\ cableStatuses m1 = cableStatuses m) as [Hg1 Hs1]
    by (subst m1; by destruct isNew).
  assert (labels_ok key_of key l) as Hl by by apply getLabels_ok.
  assert (connections_wf key_of m1) as Hwf1 by (unfold connections_wf; by rewrite Hg1, Hs1).
  clearbody m1. clear Hg1 Hs1 Hwf m. pose proof Hwf1 as [Hok Hser].
  unfold setCableStatus. destruct (cableStatuses m1 !! key) as [p|] eqn:Hp.
  - pose proof (Hok _ _ Hp) as Hlp. simpl in Hlp.
    destruct ((status p =?? status cs) && (labels p =?? labels cs)) eqn:Hsame.
    + bool_props. eapply (connections_wf_insert m1 _ key cs Hwf1 Hl); [done|].
      intros L. simpl. rewrite series_Set, is_Some_insert. rewrite Hp.
      simpl in *. destruct (decide (L = withStatus l st)); [tauto|].
      assert (L <> withStatus (labels p) (status p)) by congruence. tauto.
    + cbn [negb]. destruct (decide (labels p = l)) as [El|El].
      * rewrite bool_decide_true by done.
        eapply (connections_wf_insert m1 _ key cs Hwf1 Hl); [done|].
        intros L. simpl. rewrite series_Delete, is_Some_delete, series_Set, is_Some_insert, Hp.
        assert (status p <> st) as Hne.
        { intros Est. by rewrite El, Est, !bool_decide_true in Hsame. }
        rewrite El. destruct (decide (L = withStatus l st)) as [->|]; [|tauto].
        assert (withStatus l st <> withStatus l (status p)); [|tauto].
        intros E. by destruct (withStatus_inj key key l l _ _ Hl Hl E).
      * rewrite bool_decide_false by done.
        eapply (connections_wf_insert m1 _ key cs Hwf1 Hl); [done|].
        intros L. rewrite (remove_series (labels p) _ L key Hlp).
        -- simpl. rewrite series_Set, is_Some_insert, Hp. split.
           ++ intros [[->|HL] Hn]; [by left|right]. split; [done|]. apply Hn.
           ++ intros [->|[HL Hn]].
              ** split; [by left|]. intros st' E. by destruct (withStatus_inj key key _ _ _ _ Hl Hlp E).
              ** split; [by right|]. intros st' ->. apply Hser in HL as (k & c & Hc & E).
                 destruct (withStatus_inj key k _ _ _ _ Hlp (Hok _ _ Hc) E) as [El' ->].
                 assert (k = key) as ->
                   by (rewrite <- (proj2 (Hok _ _ Hc)), <- (proj2 Hlp); by rewrite El').
                 apply Hn. congruence.
        -- intros L' HL'. revert HL'. simpl. rewrite series_Set, is_Some_insert.
           intros [->|HL']; [by exists key, l, st|].
           apply Hser in HL' as (k & c & Hc & ->). exists k, (labels c), (status c). split; [done|by apply Hok].
  - eapply (connections_wf_insert m1 _ key cs Hwf1 Hl); [done|].
    intros L. simpl. rewrite series_Set, is_Some_insert, Hp. tauto.
Qed.

Lemma RecordDisconnected_connections drv le re f m :
  key_of (getLabels drv le re f) = cableKey drv (ClusterID re) f ->
  connections_wf key_of m -> connections_wf key_of (RecordDisconnected drv le re f m).
Proof.
  intros Hkey [Hok Hser]. unfold RecordDisconnected, deleteCableStatus.
  set (l := getLabels drv le re f) in *. set (key := cableKey drv (ClusterID re) f) in *.
  assert (labels_ok key_of key l) as Hl by by apply getLabels_ok.
  assert (forall m', connectionsGauge m' = connectionsGauge m ->
    forall L', is_Some (series (connectionsGauge m') !! L') ->
    exists k' l' st, L' = withStatus l' st /\ labels_ok key_of k' l') as Hall.
  { intros m' -> L' HL'. apply Hser in HL' as (k & c & Hc & ->).
    exists k, (labels c), (status c). split; [done|by apply Hok]. }
  destruct (cableStatuses m !! key) as [e|] eqn:He.
  - destruct (negb (cableName e =?? CableName re) || negb (labels e =?? l)) eqn:Hdiff; [by split|].
    bool_props. split; [by apply map_Forall_delete|]. intros L.
    rewrite (remove_series l _ L key Hl) by by apply Hall. simpl. rewrite Hser. split.
    + intros [(k & c & Hk & ->) Hn]. exists k, c. rewrite lookup_delete_ne; [done|].
      intros <-. apply (Hn (status c)). congruence.
    + intros (k & c & [Hkk Hk]%lookup_delete_Some & ->). split; [by exists k, c|].
      intros st' E. destruct (withStatus_inj k key _ _ _ _ (Hok _ _ Hk) Hl E) as [El _].
      apply Hkk. rewrite <- (proj2 (Hok _ _ Hk)), <- (proj2 Hl). by rewrite El.
  - split; [done|]. intros L. rewrite (remove_series l _ L key Hl) by by apply Hall.
    simpl. rewrite Hser. split; [by intros [? _]|]. intros (k & c & Hk & ->). split; [by exists k, c|].
    intros st' E. destruct (withStatus_inj k key _ _ _ _ (Hok _ _ Hk) Hl E) as [El _].
    assert (k = key) as -> by (rewrite <- (proj2 (Hok _ _ Hk)), <- (proj2 Hl); by rewrite El). congruence.
Qed.
End connections.

(** * Properties *)
Section properties.
Context {G : Type} `{!GaugeVec G} `{!GaugeVecLaws G} `{K8sNet}.

(** whatever the cable drivers report, the summary gauge shows for every
    driver and status exactly the number of recorded cables, and no series for
    a driver and status without cables. *)
Lemma metric_run_short (m : metrics G) (es : list metric_event) :
  short_wf m -> short_wf (metric_run m es).
Proof.
  unfold metric_run. revert m. induction es as [|e es IH]; intros m Hwf; [done|]. simpl. apply IH.
  destruct e as [| | |now drv le re st isNew f|drv le re f]; simpl;
    [by eapply short_wf_frame, Hwf..| |].
  - unfold RecordConnection. set (m1 := if isNew then _ else m).
    assert (short_wf m1) as Hwf1 by (subst m1; destruct isNew; [by eapply short_wf_frame, Hwf|done]).
    clearbody m1. destruct (setCableStatus _ _ m1) as [[p c] m2] eqn:Hset.
    apply setCableStatus_short in Hset; [|done].
    destruct p as [p|]; [|by eapply short_wf_frame, Hset].
    destruct (negb c); [by eapply short_wf_frame, Hset|].
    destruct (_ =?? _); by eapply short_wf_frame, Hset.
  - unfold RecordDisconnected. destruct (deleteCableStatus _ _ _ m) as [b m2] eqn:Hdel.
    apply deleteCableStatus_short in Hdel; [|done]. destruct b; [by eapply short_wf_frame, Hdel|done].
Qed.

(** when the reported labels tell the cables apart, the connections gauge
    has exactly one series per recorded cable, carrying its latest status:
    status changes and replaced cables leave no stale series behind. *)
Lemma metric_run_connections (key_of : Labels -> string) (m : metrics G) (es : list metric_event) :
  Forall (event_ok key_of) es -> connections_wf key_of m -> connections_wf key_of (metric_run m es).
Proof.
  intros Hes. unfold metric_run. revert m. induction Hes as [|e es He _ IH]; intros m Hwf; [done|].
  simpl. apply IH. destruct e as [| | |now drv le re st isNew f|drv le re f]; simpl in *; [done..| |].
  - by apply RecordConnection_connections.
  - by apply RecordDisconnected_connections.
Qed.

(** cables of both families between endpoints without public addresses
    carry the same labels; disconnecting one removes the connections series of
    the other, which is still recorded. *)
Lemma metric_family_collision (m : metrics G) (now : Z) (drv st : string) (le re : EndpointSpec)
    (f1 f2 : IPFamily) :
  cableKey drv (ClusterID re) f1 <> cableKey drv (ClusterID re) f2 ->
  getLabels drv le re f1 = getLabels drv le re f2 ->
  cableStatuses m !! cableKey drv (ClusterID re) f1 = None ->
  cableStatuses m !! cableKey drv (ClusterID re) f2 = None ->
  let m' := metric_run m [EvConnection now drv le re st true f1; EvConnection now drv le re st true f2;
                          EvDisconnected drv le re f1] in
  cableStatuses m' !! cableKey drv (ClusterID re) f2 =
    Some (mkCableStatus (getLabels drv le re f2) st (CableName re)) /\
  series (connectionsGauge m') !! withStatus (getLabels drv le re f2) st = None.
Proof.
  intros Hk Hl H1 H2. cbn [metric_run foldl metric_step].
  set (l := getLabels drv le re f2) in *.
  assert (labels_ok (fun _ => EmptyString) EmptyString l) as Hok by by apply getLabels_ok.
  unfold RecordDisconnected, deleteCableStatus, RecordConnection, setCableStatus.
  rewrite !Hl. fold l. clearbody l.
  set (k1 := cableKey drv (ClusterID re) f1) in *. set (k2 := cableKey drv (ClusterID re) f2) in *.
  clearbody k1 k2. simpl. rewrite H1. simpl. rewrite lookup_insert_ne by done. rewrite H2. simpl.
  rewrite lookup_insert_ne, lookup_insert_eq by done. simpl.
  rewrite !bool_decide_true by done. simpl. split.
  - rewrite lookup_delete_ne, lookup_insert_eq by done. done.
  - rewrite series_DeletePartialMatch. apply map_lookup_filter_None. right. intros v _ Hn.
    apply Hn. simpl. by apply (partial_match (fun _ => EmptyString) EmptyString EmptyString).
Qed.
End properties.

(** * Witnesses *)

(** Gauges as finite maps. *)
#[local] Instance gauge_ref : GaugeVec (gmap Labels Z) := {|
  series := fun g => g;
  gauge_Set := fun l v g => <[l := v]> g;
  gauge_Delete := fun l g => delete l g;
  gauge_DeletePartialMatch := fun l g => filter (fun p => ~ l ⊆ p.1) g;
|}.

#[local] Instance gauge_ref_laws : GaugeVecLaws (gmap Labels Z).
Proof. by split. Qed.

#[local] Existing Instance k8snet_ref.

Definition ex_metrics : metrics (gmap Labels Z) := mkMetrics ∅ ∅ ∅ ∅ ∅ ∅ ∅ ∅.

Definition ex_spec (cluster public : string) : EndpointSpec :=
  mkSpec cluster cluster EmptyString [] "host" [] EmptyString [] EmptyString
    (match public with EmptyString => [] | _ => [public] end) false "vxlan" ∅.

Definition ex_events : list metric_event :=
  [EvConnection 5 "vxlan" (ex_spec "west" "1.1.1.1") (ex_spec "east" "2.2.2.2") "connecting" true IPv4;
   EvConnection 6 "vxlan" (ex_spec "west" "1.1.1.1") (ex_spec "east" "2.2.2.2") "connected" false IPv4;
   EvDisconnected "vxlan" (ex_spec "west" "1.1.1.1") (ex_spec "east" "2.2.2.2") IPv4].

(** The key of a cable from its labels, for IPv4 cables. *)
Definition ex_key_of (l : Labels) : string :=
  cableKey (zget EmptyString l cableDriverLabel) (zget EmptyString l remoteClusterLabel) IPv4.

Lemma metric_run_short_witness : short_wf (metric_run ex_metrics ex_events).
Proof.
  apply (metric_run_short ex_metrics ex_events). split; [reflexivity|].
  intros L v. split; [discriminate|]. intros (k & _ & E & Hv). exfalso.
  vm_compute in E. subst v. apply Hv. reflexivity.
Defined.

Lemma metric_run_connections_witness : connections_wf ex_key_of (metric_run ex_metrics ex_events).
Proof.
  apply (metric_run_connections ex_key_of ex_metrics ex_events).
  - repeat constructor.
  - split; [apply map_Forall_empty|]. intros L. split; [intros [v E]; discriminate E|].
    intros (k & c & E & _). discriminate E.
Defined.

Lemma metric_family_collision_witness :
  series (connectionsGauge (metric_run ex_metrics
    [EvConnection 5 "vxlan" (ex_spec "west" "") (ex_spec "east" "") "connected" true IPv4;
     EvConnection 5 "vxlan" (ex_spec "west" "") (ex_spec "east" "") "connected" true IPv6;
     EvDisconnected "vxlan" (ex_spec "west" "") (ex_spec "east" "") IPv4]))
  !! withStatus (getLabels "vxlan" (ex_spec "west" "") (ex_spec "east" "") IPv6) "connected" = None.
Proof.
  apply (metric_family_collision ex_metrics 5 "vxlan" "connected" (ex_spec "west" "") (ex_spec "east" "")
    IPv4 IPv6).
  - vm_compute. discriminate.
  - vm_compute. reflexivity.
  - reflexivity.
  - reflexivity.
Defined.
End Metrics.
