(* ===== verification/Netlink.v ===== *)
(** The netlink layer ([pkg/netlink]): the kernel's links, routes, rules and
    policies behind the [Basic] interface, the adapter built on it, the sysctl
    files of an interface and the clean-up helpers. *)
From stdpp Require Import base gmap list strings fin_maps.
From Stdlib Require String.
From Stdlib Require Import ZArith Lia Ascii.
From S2P Require Import Prelude GoNet K8s.
Import Strconv Net.
Local Open Scope Z_scope.

(** * Kernel objects *)

(** [netlink.Vxlan], the fields the code sets or compares. *)
Record Vxlan := mkVxlan {
  link_Name : string;
  link_MTU : Z;
  link_HardwareAddr : list Z;
  link_Index : Z;
  VxlanId : Z;
  vx_SrcAddr : IP;
  vx_Group : IP;
  vx_Port : Z;
}.

(** [netlink.Link]: a VXLAN device or one of another type. *)
Inductive Link :=
| LVxlan (v : Vxlan)
| LOther (name : string) (index : Z).

(** [netlink.Neigh], for bridge entries. *)
Record Neigh := mkNeigh {
  neigh_LinkIndex : Z;
  neigh_IP : IP;
  neigh_HardwareAddr : list Z;
}.

Record Route := mkRoute {
  route_LinkIndex : Z;
  route_Src : IP;
  route_Dst : option IPNet;
  route_Gw : IP;
  route_Priority : Z;
  route_Table : Z;
  route_Scope : Z;
  route_Protocol : Z;
}.

#[global] Instance Vxlan_eq_dec : EqDecision Vxlan.
Proof. solve_decision. Defined.
#[global] Instance Neigh_eq_dec : EqDecision Neigh.
Proof. solve_decision. Defined.
#[global] Instance Route_eq_dec : EqDecision Route.
Proof. solve_decision. Defined.

Record Rule := mkRule {
  rule_Table : Z;
  rule_Priority : Z;
  rule_Family : Z;
  rule_Dst : option IPNet;
  rule_Src : option IPNet;
}.
Record XfrmPolicy := mkXfrm { xfrm_Dst : IPNet; xfrm_Src : IPNet; xfrm_Proto : Z }.
Record NetworkInterface := mkIface { iface_Index : Z; iface_MTU : Z; iface_Name : string }.

(** Errors, as the code tells them apart. *)
Inductive nl_error :=
| ErrExist
| ErrNotExist
| ErrLinkNotFound
| ErrOther (cause : string)
| ErrLooseMode
| ErrNoDefaultGateway
| ErrWrap (what : string) (cause : nl_error).

(** [errors.Is] looks through wrapped errors. *)
Fixpoint is_exist (e : nl_error) : bool :=
  match e with ErrExist => true | ErrWrap _ e => is_exist e | _ => false end.
Fixpoint is_not_exist (e : nl_error) : bool :=
  match e with ErrNotExist => true | ErrWrap _ e => is_not_exist e | _ => false end.

(** [netlink.Basic] and the files under /proc, on a kernel state [W]. *)
Class NetlinkBasic (W : Type) := {
  LinkAdd : Vxlan -> eff W nl_error Vxlan;
  LinkDel : Link -> eff W nl_error unit;
  LinkByName : string -> eff W nl_error Link;
  LinkSetUp : Vxlan -> eff W nl_error unit;
  AddrAdd : Vxlan -> IPNet -> eff W nl_error unit;
  NeighAppend : Neigh -> eff W nl_error unit;
  NeighDel : Neigh -> eff W nl_error unit;
  RouteAdd : Route -> eff W nl_error unit;
  RouteDel : Route -> eff W nl_error unit;
  RouteReplace : Route -> eff W nl_error unit;
  RouteList : option Link -> IPFamily -> eff W nl_error (list Route);
  RuleAdd : Rule -> eff W nl_error unit;
  RuleDel : Rule -> eff W nl_error unit;
  XfrmPolicyDel : XfrmPolicy -> eff W nl_error unit;
  XfrmPolicyList : IPFamily -> eff W nl_error (list XfrmPolicy);
  InterfaceByIndex : Z -> eff W nl_error NetworkInterface;
  ReadFile : string -> eff W nl_error (list ascii);
  WriteFile : string -> list ascii -> eff W nl_error unit;
}.

(** [netlink.RouteAdd] refuses a route whose key is taken, [RouteReplace] takes
    its place; the key is table, destination and priority. *)
Definition same_route_key (a b : Route) : Prop :=
  route_Table a = route_Table b /\ route_Dst a = route_Dst b /\ route_Priority a = route_Priority b.

#[global] Instance same_route_key_dec a b : Decision (same_route_key a b).
Proof. unfold same_route_key. apply _. Defined.

Class NetlinkLaws (W : Type) `{!NetlinkBasic W} := {
  routes : W -> list Route;
  files : W -> gmap string (list ascii);
  (** A new device is the one asked for, with the index the kernel gave it. *)
  link_add_ok : forall v w v' w', LinkAdd v w = (Ok v', w') -> exists i,
    v' = mkVxlan (link_Name v) (link_MTU v) (link_HardwareAddr v) i (VxlanId v) (vx_SrcAddr v)
           (vx_Group v) (vx_Port v);
  route_add_ok : forall r w w', RouteAdd r w = (Ok tt, w') ->
    r ∈ routes w' /\ forall r', ~ same_route_key r' r -> r' ∈ routes w' <-> r' ∈ routes w;
  route_add_err : forall r w e w', RouteAdd r w = (Err e, w') -> routes w' = routes w;
  route_replace_ok : forall r w w', RouteReplace r w = (Ok tt, w') ->
    r ∈ routes w' /\ forall r', ~ same_route_key r' r -> r' ∈ routes w' <-> r' ∈ routes w;
  route_replace_err : forall r w e w', RouteReplace r w = (Err e, w') -> routes w' = routes w;
  read_file : forall p w r w', ReadFile p w = (r, w') ->
    files w' = files w /\ forall c, r = Ok c -> files w !! p = Some c;
  write_file : forall p c w w', WriteFile p c w = (Ok tt, w') -> files w' = <[p := c]> (files w);
}.

(** A small kernel on which the hypotheses hold: devices, bridge entries, routes
    and files. *)
Record kernel := mkKernel {
  k_links : list Vxlan;
  k_neighs : list Neigh;
  k_routes : list Route;
  k_files : gmap string (list ascii);
}.

Definition with_routes (f : list Route -> list Route) (k : kernel) : kernel :=
  mkKernel (k_links k) (k_neighs k) (f (k_routes k)) (k_files k).
Definition with_neighs (f : list Neigh -> list Neigh) (k : kernel) : kernel :=
  mkKernel (k_links k) (f (k_neighs k)) (k_routes k) (k_files k).
Definition with_links (f : list Vxlan -> list Vxlan) (k : kernel) : kernel :=
  mkKernel (f (k_links k)) (k_neighs k) (k_routes k) (k_files k).

Definition route_replace (r : Route) (l : list Route) : list Route :=
  r :: filter (fun r' => ~ same_route_key r' r) l.

Definition kernel_ref : NetlinkBasic kernel := {|
  LinkAdd := fun v k =>
    if bool_decide (Exists (fun v' => link_Name v' = link_Name v) (k_links k)) then (Err ErrExist, k)
    else
      let v' := mkVxlan (link_Name v) (link_MTU v) (link_HardwareAddr v) (2 + Z.of_nat (length (k_links k))) (VxlanId v)
                  (vx_SrcAddr v) (vx_Group v) (vx_Port v) in
      (Ok v', with_links (cons v') k);
  LinkDel := fun l k =>
    match l with
    | LVxlan v => (Ok tt, with_links (filter (fun v' => link_Name v' <> link_Name v)) k)
    | LOther _ _ => (Err (ErrOther "no such device"), k)
    end;
  LinkByName := fun n k =>
    match List.find (fun v => link_Name v =?? n) (k_links k) with
    | Some v => (Ok (LVxlan v), k)
    | None => (Err ErrLinkNotFound, k)
    end;
  LinkSetUp := fun _ k => (Ok tt, k);
  AddrAdd := fun _ _ k => (Ok tt, k);
  NeighAppend := fun n k => (Ok tt, with_neighs (cons n) k);
  NeighDel := fun n k =>
    if bool_decide (n ∈ k_neighs k) then (Ok tt, with_neighs (filter (fun n' => n' <> n)) k)
    else (Err ErrNotExist, k);
  RouteAdd := fun r k =>
    if bool_decide (Exists (fun r' => same_route_key r' r) (k_routes k)) then (Err ErrExist, k)
    else (Ok tt, with_routes (cons r) k);
  RouteDel := fun r k =>
    if bool_decide (Exists (fun r' => same_route_key r' r) (k_routes k))
    then (Ok tt, with_routes (filter (fun r' => ~ same_route_key r' r)) k)
    else (Err ErrNotExist, k);
  RouteReplace := fun r k => (Ok tt, with_routes (route_replace r) k);
  RouteList := fun _ _ k => (Ok (k_routes k), k);
  RuleAdd := fun _ k => (Ok tt, k);
  RuleDel := fun _ k => (Ok tt, k);
  XfrmPolicyDel := fun _ k => (Ok tt, k);
  XfrmPolicyList := fun _ k => (Ok [], k);
  InterfaceByIndex := fun i k => (Ok (mkIface i 1500 "eth0"), k);
  ReadFile := fun p k =>
    match k_files k !! p with Some c => (Ok c, k) | None => (Err ErrNotExist, k) end;
  WriteFile := fun p c k =>
    (Ok tt, mkKernel (k_links k) (k_neighs k) (k_routes k) (<[p := c]> (k_files k)));
|}.

Module Netlink.

Definition MaxRetries : Z := 5.
Definition newline : ascii := ascii_of_N 10.

(** [bytes.Trim(s, "\n")] *)
Fixpoint trim_left (l : list ascii) : list ascii :=
  match l with
  | c :: l' => if c =?? newline then trim_left l' else l
  | [] => []
  end.
Definition trim_newlines (l : list ascii) : list ascii := rev (trim_left (rev (trim_left l))).

Definition allZeroesFamilyAddress (family : IPFamily) : string :=
  match family with
  | IPv4 => "0.0.0.0/0"
  | IPv6 => "::/0"
  | IPFamilyUnknown => ""
  end%string.

(** Linux address families. *)
Definition ToNetlinkFamily (family : IPFamily) : Z :=
  match family with IPv4 => 2 | IPv6 => 10 | IPFamilyUnknown => 0 end.

Definition NewTableRule (tableID : Z) (family : IPFamily) : Rule :=
  mkRule tableID tableID (ToNetlinkFamily family) None None.

Definition IsLinkNotFoundError (e : nl_error) : bool :=
  match e with ErrLinkNotFound => true | ErrOther "Link not found"%string => true | _ => false end.

Definition ipConfPath (interfaceName : string) (family : IPFamily) : string :=
  String.append "/proc/sys/net/ipv" (String.append (family_str family)
    (String.append "/conf/" interfaceName)).

Section ops.
Context {W : Type} `{!NetlinkBasic W}.
Abbreviation M := (eff W nl_error).

(** * Adapter *)

Definition RuleAddIfNotPresent (rule : Rule) : M unit :=
  r ← attempt (RuleAdd rule);
  match r with
  | Ok _ => mret tt
  | Err e => if is_exist e then mret tt else fail (ErrWrap "failed to add rule" e)
  end.

Definition RuleDelIfPresent (rule : Rule) : M unit :=
  r ← attempt (RuleDel rule);
  match r with
  | Ok _ => mret tt
  | Err e => if is_not_exist e then mret tt else fail (ErrWrap "failed to delete rule" e)
  end.

Definition RouteAddOrReplace (route : Route) : M unit :=
  r ← attempt (RouteAdd route);
  match r with
  | Ok _ => mret tt
  | Err e => if is_exist e then RouteReplace route else fail e
  end.

Definition is_default_route (family : IPFamily) (r : Route) : bool :=
  match route_Dst r with
  | None => true
  | Some d => net_string d =?? allZeroesFamilyAddress family
  end && (0 <? route_LinkIndex r).

Definition GetDefaultGatewayInterface (family : IPFamily) : M NetworkInterface :=
  routes ← RouteList None family;
  match List.find (is_default_route family) routes with
  | Some r => InterfaceByIndex (route_LinkIndex r)
  | None => fail ErrNoDefaultGateway
  end.

(** * Interface settings *)

Definition setSysctl (path : string) (contents : list ascii) : M unit :=
  existing ← ReadFile path;
  if trim_newlines existing =?? contents then mret tt else WriteFile path contents.

Definition EnableLooseModeReversePathFilter (interfaceName : string) (family : IPFamily) : M unit :=
  match family with
  | IPv6 => mret tt
  | _ =>
      r ← attempt (setSysctl (String.append (ipConfPath interfaceName family) "/rp_filter") ["2"%char]);
      match r with
      | Ok _ => mret tt
      | Err e => fail (ErrWrap "unable to update rp_filter proc entry" e)
      end
  end.

Definition getReversePathFilter (interfaceName : string) : M (list ascii) :=
  r ← attempt (ReadFile (String.append (ipConfPath interfaceName IPv4) "/rp_filter"));
  match r with
  | Ok existing => mret (trim_newlines existing)
  | Err e => fail (ErrWrap "unable to read proc entry" e)
  end.

(** The loop of [EnsureLooseModeIsConfigured], [n] rounds left. *)
Fixpoint loose_mode_loop (n : nat) (interfaceName : string) (family : IPFamily) : M unit :=
  match n with
  | O => fail ErrLooseMode
  | S n =>
      r ← attempt (getReversePathFilter interfaceName);
      match r with
      | Ok s =>
          if s =?? ["2"%char] then mret tt
          else
            _ ← EnableLooseModeReversePathFilter interfaceName family;
            loose_mode_loop n interfaceName family
      | Err _ =>
          _ ← EnableLooseModeReversePathFilter interfaceName family;
          loose_mode_loop n interfaceName family
      end
  end.

Definition EnsureLooseModeIsConfigured (interfaceName : string) (family : IPFamily) : M unit :=
  match family with
  | IPv6 => mret tt
  | _ => loose_mode_loop 10 interfaceName family
  end.

Definition EnableForwarding (interfaceName : string) (family : IPFamily) : M unit :=
  setSysctl (String.append (ipConfPath interfaceName family) "/forwarding") ["1"%char].

Definition ConfigureTCPMTUProbe (mtuProbe baseMss : list ascii) : M unit :=
  _ ← setSysctl "/proc/sys/net/ipv4/tcp_mtu_probing" mtuProbe;
  setSysctl "/proc/sys/net/ipv4/tcp_base_mss" baseMss.

(** * Clean-up *)

Definition link_index (l : Link) : Z :=
  match l with LVxlan v => link_Index v | LOther _ i => i end.

Definition DeleteIfaceAndAssociatedRoutes (iface : string) (tableID : Z) (family : IPFamily) : M unit :=
  rl ← attempt (LinkByName iface);
  match rl with
  | Err _ => mret tt
  | Ok link =>
      rr ← attempt (RouteList (Some link) family);
      _ ← match rr with
          | Err _ => mret tt
          | Ok currentRouteList =>
              for_each (fun r => if route_Table r =? tableID then ignore (RouteDel r) else mret tt)
                currentRouteList
          end;
      LinkDel link
  end.

Definition is_default_policy (family : IPFamily) (p : XfrmPolicy) : bool :=
  (net_string (xfrm_Dst p) =?? allZeroesFamilyAddress family) &&
  (net_string (xfrm_Src p) =?? allZeroesFamilyAddress family) && (xfrm_Proto p =? 0).

Definition DeleteXfrmRules (family : IPFamily) : M unit :=
  policies ← XfrmPolicyList family;
  for_each (fun p => if is_default_policy family p then mret tt else XfrmPolicyDel p) policies.
End ops.

(** * Lemmas *)
Section lemmas.
Context {W : Type} `{!NetlinkBasic W} `{!NetlinkLaws W}.

Lemma RouteAddOrReplace_ok r w w' : RouteAddOrReplace r w = (Ok tt, w') ->
  r ∈ routes w' /\ forall r', ~ same_route_key r' r -> r' ∈ routes w' <-> r' ∈ routes w.
Proof.
  unfold RouteAddOrReplace, mbind, eff_bind, attempt.
  destruct (RouteAdd r w) as [[[]|e] w1] eqn:Ha.
  - intros [= <-]. by apply route_add_ok.
  - destruct (is_exist e); [|done]. intros Hr.
    apply route_add_err in Ha. rewrite <- Ha. by apply route_replace_ok.
Qed.

Lemma RouteAddOrReplace_err r w e w' : RouteAddOrReplace r w = (Err e, w') -> routes w' = routes w.
Proof.
  unfold RouteAddOrReplace, mbind, eff_bind, attempt.
  destruct (RouteAdd r w) as [[[]|e1] w1] eqn:Ha; [done|]. apply route_add_err in Ha. rewrite <- Ha.
  destruct (is_exist e1); [by apply route_replace_err|]. by intros [= _ <-].
Qed.

Lemma trim_single c : trim_newlines [c] = if c =?? newline then [] else [c].
Proof.
  unfold trim_newlines, trim_left. destruct (decide (c = newline)) as [E|E].
  - by rewrite bool_decide_true.
  - rewrite bool_decide_false by done. simpl. by rewrite bool_decide_false.
Qed.

Lemma getReversePathFilter_ok name w s w' : getReversePathFilter name w = (Ok s, w') ->
  exists c, files w' !! String.append (ipConfPath name IPv4) "/rp_filter" = Some c /\ trim_newlines c = s.
Proof.
  unfold getReversePathFilter, mbind, eff_bind, attempt.
  destruct (ReadFile _ w) as [[c|e] w1] eqn:Hr; [|done]. intros [= <- <-].
  destruct (read_file _ _ _ _ Hr) as [-> Hc]. exists c. by rewrite (Hc c eq_refl).
Qed.
End lemmas.

(** * Properties *)
Section properties.
Context {W : Type} `{!NetlinkBasic W} `{!NetlinkLaws W}.

(** the retry loop that sets loose reverse-path filtering: when it reports
    success the setting of the interface reads 2; and it does report success,
    within its ten rounds, whenever the setting can be read and written. *)
Lemma loose_mode_configured (name : string) (w : W) :
  (forall w' r, EnsureLooseModeIsConfigured name IPv4 w = (r, w') -> r = Ok tt ->
     exists c, files w' !! String.append (ipConfPath name IPv4) "/rp_filter" = Some c /\
       trim_newlines c = ["2"%char]) /\
  ((forall w' p, is_Some (files w' !! p) -> is_ok (ReadFile p w').1 = true) ->
   (forall w' p c, is_Some (files w' !! p) -> is_ok (WriteFile p c w').1 = true) ->
   is_Some (files w !! String.append (ipConfPath name IPv4) "/rp_filter") ->
   is_ok (EnsureLooseModeIsConfigured name IPv4 w).1 = true).
Proof.
  set (path := String.append (ipConfPath name IPv4) "/rp_filter").
  split.
  - unfold EnsureLooseModeIsConfigured. generalize 10%nat as n. intros n. revert w.
    induction n as [|n IH]; intros w w' r Hrun ->; [done|].
    cbn [loose_mode_loop] in Hrun. unfold mbind, eff_bind in Hrun. unfold attempt at 1 in Hrun.
    destruct (getReversePathFilter name w) as [[s|e] w1] eqn:Hget.
    + destruct (bool_decide_reflect (s = ["2"%char])) as [->|].
      * injection Hrun as <-. by eapply getReversePathFilter_ok.
      * destruct (EnableLooseModeReversePathFilter name IPv4 w1) as [[[]|e] w2]; [|done]. by eapply IH.
    + destruct (EnableLooseModeReversePathFilter name IPv4 w1) as [[[]|e'] w2]; [|done]. by eapply IH.
  - intros Hread Hwrite Hfile. unfold EnsureLooseModeIsConfigured. cbn [loose_mode_loop].
    assert (forall w0, is_Some (files w0 !! path) -> exists c w1,
      ReadFile path w0 = (Ok c, w1) /\ files w1 = files w0 /\ files w0 !! path = Some c) as Hr.
    { intros w0 Hf. specialize (Hread w0 path Hf). destruct (ReadFile path w0) as [[c|] w1] eqn:E; [|done].
      destruct (read_file _ _ _ _ E) as [Hfs Hc]. exists c, w1. by rewrite (Hc c eq_refl). }
    assert (forall w0, is_Some (files w0 !! path) -> exists s w1,
      getReversePathFilter name w0 = (Ok s, w1) /\ files w1 = files w0 /\
      exists c, files w0 !! path = Some c /\ s = trim_newlines c) as Hg.
    { intros w0 Hf. destruct (Hr w0 Hf) as (c & w1 & E & Hfs & Hc). exists (trim_newlines c), w1.
      unfold getReversePathFilter, mbind, eff_bind, attempt. fold path. rewrite E. eauto. }
    destruct (Hg w Hfile) as (s & w1 & E1 & Hf1 & c1 & Hc1 & ->).
    unfold mbind at 1, eff_bind at 1, attempt at 1. rewrite E1. destruct (_ =?? _) eqn:Hs; [done|].
    unfold mbind at 1, eff_bind at 1.
    assert (exists w2, EnableLooseModeReversePathFilter name IPv4 w1 = (Ok tt, w2) /\
              files w2 !! path = Some ["2"%char]) as (w2 & -> & Hf2).
    { rewrite <- Hf1 in Hfile, Hc1. destruct (Hr w1 Hfile) as (c & w2 & E & Hfs & Hc). rewrite Hc1 in Hc. injection Hc as <-.
      unfold EnableLooseModeReversePathFilter, setSysctl, mbind, eff_bind, attempt. fold path.
      rewrite E, Hs. rewrite <- Hfs in Hfile. specialize (Hwrite w2 path ["2"%char] Hfile).
      destruct (WriteFile path _ w2) as [[[]|] w3] eqn:Ew; [|done]. exists w3. split; [done|].
      apply write_file in Ew as ->. apply lookup_insert_eq. }
    destruct (Hg w2) as (s & w3 & E3 & _ & c & Hc & ->); [by rewrite Hf2|].
    unfold mbind at 1, eff_bind at 1, attempt at 1. rewrite E3. rewrite Hf2 in Hc. injection Hc as <-.
    rewrite bool_decide_true; [done|]. rewrite trim_single. by rewrite bool_decide_false.
Qed.
End properties.

(** * Witnesses *)

#[local] Existing Instance kernel_ref.

Lemma kernel_ref_laws : NetlinkLaws kernel.
Proof.
  refine {| routes := k_routes; files := k_files |}; simpl.
  - intros v w v' w'. case_bool_decide; intros E; inversion E; subst. by eexists.
  - intros r w w'. case_bool_decide; intros E; inversion E; subst. simpl. split; [by left|].
    intros r' Hr'. rewrite elem_of_cons. split; [|by right]. by intros [->|]; [destruct Hr'; repeat split|].
  - intros r w e w'. by case_bool_decide; intros E; inversion E; subst.
  - intros r w w' E. inversion E; subst. simpl. split; [by left|]. intros r' Hr'.
    unfold route_replace. rewrite elem_of_cons, list_elem_of_filter. split; [|by right].
    by intros [->|[]]; [destruct Hr'; repeat split|].
  - intros r w e w' E. inversion E.
  - intros p w r w'. destruct (k_files w !! p) eqn:Hp; intros E; inversion E; subst; split; [done| |done|done].
    by intros c [= <-].
  - intros p c w w' E. by inversion E.
Defined.
#[local] Existing Instance kernel_ref_laws.

Definition ex_kernel : kernel :=
  mkKernel [] [] [] {[ "/proc/sys/net/ipv4/conf/eth0/rp_filter"%string := ["1"%char; newline] ]}.

Lemma loose_mode_configured_witness :
  is_ok (EnsureLooseModeIsConfigured "eth0" IPv4 ex_kernel).1 = true /\
  exists c, files (EnsureLooseModeIsConfigured "eth0" IPv4 ex_kernel).2
    !! "/proc/sys/net/ipv4/conf/eth0/rp_filter"%string = Some c /\ trim_newlines c = ["2"%char].
Proof.
  destruct (loose_mode_configured "eth0" ex_kernel) as [Hdone Hok]. split.
  - apply Hok.
    + intros w' p [c Hc]. simpl in *. by rewrite Hc.
    + done.
    + exists ["1"%char; newline]. vm_compute. reflexivity.
  - destruct (EnsureLooseModeIsConfigured "eth0" IPv4 ex_kernel) as [r w'] eqn:E.
    apply (Hdone w' r); [reflexivity|]. vm_compute in E. inversion E. reflexivity.
Defined.
End Netlink.

(** * The interface of the cluster network ([pkg/cni]) *)
Module Cni.

Record Interface := mkInterface { cni_Name : string; cni_IPAddress : string }.
Record HostInterface := mkHost { host_Name : string; host_Addr : IP }.

Inductive cni_error := ErrHostInterfaces | ErrNoInterface | PanicBadCIDR (cidr : string).

Section discover.
Context `{K8sNet}.

Definition in_network (family : IPFamily) (n : IPNet) (h : HostInterface) : bool :=
  (IPFamilyOf (host_Addr h) =?? family) && Contains n (host_Addr h).

Fixpoint discover_loop (hostInterfaces : list HostInterface) (family : IPFamily) (clusterCIDRs : list string)
    : result cni_error Interface :=
  match clusterCIDRs with
  | [] => Err ErrNoInterface
  | clusterCIDR :: rest =>
      if negb (IPFamilyOfCIDRString clusterCIDR =?? family) then discover_loop hostInterfaces family rest
      else match ParseCIDR clusterCIDR with
           | None => Err (PanicBadCIDR clusterCIDR)
           | Some clusterNetwork =>
               match List.find (in_network family clusterNetwork) hostInterfaces with
               | Some h => Ok (mkInterface (host_Name h) (ip_string (host_Addr h)))
               | None => discover_loop hostInterfaces family rest
               end
           end
  end.

(** [HostInterfaces], a variable of the package, is the argument. *)
Definition Discover (HostInterfaces : option (list HostInterface)) (clusterCIDRs : list string)
    (family : IPFamily) : result cni_error Interface :=
  match HostInterfaces with
  | None => Err ErrHostInterfaces
  | Some hostInterfaces => discover_loop hostInterfaces family clusterCIDRs
  end.
End discover.
End Cni.
