(* ===== verification/Vxlan.v ===== *)
(** VXLAN devices ([pkg/vxlan/vxlan.go]) and the VXLAN cable driver
    ([pkg/cable/vxlan/vxlan.go]), which keeps the contract of the cable engine. *)
From stdpp Require Import base gmap list strings fin_maps.
From Stdlib Require String.
From Stdlib Require Import ZArith Lia Ascii.
From S2P Require Import Prelude GoNet K8s Cidr Endpoint NatDiscovery CableEngine Metrics Netlink.
Import Net Endpoint RemoteNAT Netlink.
Local Open Scope Z_scope.

Module VxlanLink.

Record Attributes := mkAttributes {
  Name : string;
  VxlanID : Z;
  Group : IP;
  SrcAddr : IP;
  VtepPort : Z;
  Mtu : Z;
  HardwareAddr : list Z;
}.

Definition MTUOverhead : Z := 50.

Inductive vx_error :=
| ErrNetlink (what : string) (cause : nl_error)
| ErrMAC (mac : string)
| ErrInvalidIP (ip : string)
| ErrPrefix (cidr : string)
| ErrExpectedFamily (f : IPFamily)
| ErrUnsupportedFamily
| PanicNotVxlan (name : string).

(** FNV-1a, 64 bits ([hash/fnv]). *)
Definition fnv64a (bytes : list Z) : Z :=
  foldl (fun h b => (Z.lxor h b * 1099511628211) mod 2 ^ 64) 14695981039346656037 bytes.

Definition byte (z : Z) : Z := Z.land z 255.

Definition HardwareAddrFromIP (ip : IP) : list Z :=
  match To4 ip with
  | [a; b; c; d] => [2; 0; a; b; c; d]
  | _ =>
      match To16 ip with
      | [] => []
      | ip6 =>
          let sum := fnv64a ip6 in
          [2; byte (Z.shiftr sum 32); byte (Z.shiftr sum 24); byte (Z.shiftr sum 16);
           byte (Z.shiftr sum 8); byte sum]
      end
  end.

(** [net.IPv4]: the 16-byte form. *)
Definition IPv4_addr (a b c d : Z) : IP := v4InV6Prefix ++ [a; b; c; d].

Definition GetVtepIPAddressFrom (ipAddr prefixCIDR : string) (family : IPFamily) : result vx_error IP :=
  match ParseIP ipAddr with
  | [] => Err (ErrInvalidIP ipAddr)
  | ip =>
      match ParseCIDR prefixCIDR with
      | None => Err (ErrPrefix prefixCIDR)
      | Some prefixNet =>
          match family with
          | IPv4 =>
              match To4 ip, To4 (net_IP prefixNet) with
              | [_; s1; s2; s3], p0 :: _ => Ok (IPv4_addr p0 s1 s2 s3)
              | _, _ => Err (ErrExpectedFamily IPv4)
              end
          | IPv6 =>
              let src := To16 ip in
              let prefix := To16 (net_IP prefixNet) in
              if (length src =? 0)%nat || (length prefix =? 0)%nat then Err (ErrExpectedFamily IPv6)
              else Ok (take 12 prefix ++ drop 12 src)
          | IPFamilyUnknown => Err ErrUnsupportedFamily
          end
      end
  end.

(** [None] is the failed type assertion. *)
Definition isVxlanConfigTheSame (required : Vxlan) (currentLink : Link) : option bool :=
  match currentLink with
  | LOther _ _ => None
  | LVxlan existing => Some (
      (VxlanId required =? VxlanId existing) &&
      Equal (vx_Group required) (vx_Group existing) &&
      Equal (vx_SrcAddr required) (vx_SrcAddr existing) &&
      (vx_Port required =? vx_Port existing) &&
      ((length (link_HardwareAddr required) =? 0)%nat ||
       (link_HardwareAddr required =?? link_HardwareAddr existing)))
  end.

Section ops.
Context {W : Type} `{!NetlinkBasic W}.
Abbreviation M := (eff W vx_error).

Definition nl {A} (what : string) (m : eff W nl_error A) : M A :=
  fun w => let '(r, w') := m w in (map_err (ErrNetlink what) r, w').

Definition link_of (attrs : Attributes) : Vxlan :=
  mkVxlan (Name attrs) (Mtu attrs - MTUOverhead) (HardwareAddr attrs) 0 (VxlanID attrs)
    (SrcAddr attrs) (Group attrs) (VtepPort attrs).

(** The same function makes the device and the [Interface] around it. *)
Definition createLinkDevice (attrs : Attributes) : M Vxlan :=
  let link := link_of attrs in
  r ← attempt (LinkAdd link);
  match r with
  | Ok link => mret link
  | Err e =>
      if is_exist e then
        existing ← nl "error retrieving vxlan link" (LinkByName (link_Name link));
        match isVxlanConfigTheSame link existing, existing with
        | Some true, LVxlan v => mret v
        | Some _, _ =>
            _ ← nl "error deleting existing vxlan device" (LinkDel existing);
            nl "error re-creating vxlan device" (LinkAdd link)
        | None, _ => fail (PanicNotVxlan (link_Name link))
        end
      else fail (ErrNetlink "error creating vxlan device" e)
  end.

Definition NewInterface (attrs : Attributes) : M Vxlan := createLinkDevice attrs.

Definition ConfigureIPAddress (link : Vxlan) (ipAddress : IP) (mask : list Z) : M unit :=
  r ← attempt (AddrAdd link {| net_IP := ipAddress; net_Mask := mask |});
  match r with
  | Ok _ => mret tt
  | Err e => if is_exist e then mret tt else fail (ErrNetlink "unable to configure address" e)
  end.

Definition SetupLink (link : Vxlan) : M unit := nl "" (LinkSetUp link).

Definition DeleteLinkDevice (link : Vxlan) : M unit := nl "error deleting vxlan device" (LinkDel (LVxlan link)).

Definition AddFDB (link : Vxlan) (ipAddress : IP) (hwAddr : string) : M unit :=
  match ParseMAC hwAddr with
  | None => fail (ErrMAC hwAddr)
  | Some macAddr =>
      nl "unable to add the bridge fdb entry" (NeighAppend (mkNeigh (link_Index link) ipAddress macAddr))
  end.

Definition DelFDB (link : Vxlan) (ipAddress : IP) (hwAddr : string) : M unit :=
  match ParseMAC hwAddr with
  | None => fail (ErrMAC hwAddr)
  | Some macAddr =>
      nl "unable to delete the bridge fdb entry" (NeighDel (mkNeigh (link_Index link) ipAddress macAddr))
  end.

Definition add_route (link : Vxlan) (gwIP srcIP : IP) (tableID : Z) (dst : IPNet) : Route :=
  mkRoute (link_Index link) srcIP (Some dst) gwIP 100 tableID 0 0.

Definition AddRoutes (link : Vxlan) (gwIP srcIP : IP) (tableID : Z) (destCIDRs : list IPNet) : M unit :=
  for_each (fun dst => nl "unable to add the route entry"
                         (RouteAddOrReplace (add_route link gwIP srcIP tableID dst))) destCIDRs.

Definition DelRoutes (link : Vxlan) (tableID : Z) (destCIDRs : list IPNet) : M unit :=
  for_each (fun dst =>
    r ← attempt (RouteDel (add_route link [] [] tableID dst));
    match r with
    | Ok _ => mret tt
    | Err e => if is_not_exist e then mret tt else fail (ErrNetlink "unable to delete the route entry" e)
    end) destCIDRs.
End ops.

(** The bytes of an address that its VTEP address takes. *)
Definition host_part (family : IPFamily) (ip : IP) : list Z :=
  match family with
  | IPv4 => drop 1 (To4 ip)
  | IPv6 => drop 12 (To16 ip)
  | IPFamilyUnknown => []
  end.

(** * Lemmas *)

Lemma GetVtep_shape ipAddr prefix f v : GetVtepIPAddressFrom ipAddr prefix f = Ok v ->
  exists n, ParseCIDR prefix = Some n /\
    match f with
    | IPv4 => exists s0 s1 s2 s3 p0 p, To4 (ParseIP ipAddr) = [s0; s1; s2; s3] /\
                To4 (net_IP n) = p0 :: p /\ v = IPv4_addr p0 s1 s2 s3
    | IPv6 => length (To16 (ParseIP ipAddr)) <> 0%nat /\ v = take 12 (To16 (net_IP n)) ++ drop 12 (To16 (ParseIP ipAddr))
    | IPFamilyUnknown => False
    end.
Proof.
  unfold GetVtepIPAddressFrom. destruct (ParseIP ipAddr) as [|b bs]; [done|].
  destruct (ParseCIDR prefix) as [n|]; [|done]. intros E. exists n. split; [done|].
  destruct f; [done| |].
  - destruct (To4 (b :: bs)) as [|s0 [|s1 [|s2 [|s3 [|]]]]]; try done.
    destruct (To4 (net_IP n)) as [|p0 p]; [done|]. injection E as <-. repeat eexists.
  - destruct (length (To16 (b :: bs)) =? 0)%nat eqn:E1, (length (To16 (net_IP n)) =? 0)%nat eqn:E2; try done.
    injection E as <-. apply Nat.eqb_neq in E1. done.
Qed.

Lemma To16_length ip : length (To16 ip) = 0%nat \/ length (To16 ip) = 16%nat.
Proof.
  unfold To16. destruct (length ip =? 4)%nat eqn:E4.
  - right. apply Nat.eqb_eq in E4. by rewrite length_app, E4.
  - destruct (length ip =? 16)%nat eqn:E16; [right; by apply Nat.eqb_eq|by left].
Qed.

Lemma Equal_refl ip : Equal ip ip = true.
Proof. unfold Equal. rewrite Nat.eqb_refl. by apply bool_decide_true. Qed.

Lemma same_config_refl v i :
  isVxlanConfigTheSame v (LVxlan (mkVxlan (link_Name v) (link_MTU v) (link_HardwareAddr v) i (VxlanId v)
    (vx_SrcAddr v) (vx_Group v) (vx_Port v))) = Some true.
Proof. unfold isVxlanConfigTheSame. simpl. by rewrite !Z.eqb_refl, !Equal_refl, bool_decide_true, orb_true_r. Qed.

Lemma AddRoutes_spec {W} `{!NetlinkBasic W} `{!NetlinkLaws W} link gw src tbl l : forall w w',
  AddRoutes link gw src tbl l w = (Ok tt, w') ->
  (forall dst, dst ∈ l -> add_route link gw src tbl dst ∈ routes w') /\
  (forall r, (forall dst, dst ∈ l -> ~ same_route_key r (add_route link gw src tbl dst)) ->
     r ∈ routes w' <-> r ∈ routes w).
Proof.
  induction l as [|d l IH]; intros w w' Hrun; [injection Hrun as <-; split; [set_solver|done]|].
  apply eff_bind_inv in Hrun as [([] & w1 & Hadd & Hrun)|(e & _ & [=])].
  unfold nl in Hadd. destruct (RouteAddOrReplace _ w) as [[[]|] w2] eqn:Hr; [|done].
  injection Hadd as <-. apply RouteAddOrReplace_ok in Hr as [Hin Hother].
  destruct (IH _ _ Hrun) as [IH1 IH2]. split.
  - intros dst [->|Hd]%elem_of_cons; [|by apply IH1].
    destruct (decide (d ∈ l)) as [Hd|Hd]; [by apply IH1|]. apply IH2; [|done].
    intros dst Hdst (_ & E & _). injection E as <-. done.
  - intros r Hr. rewrite IH2 by (intros dst Hd; apply Hr; by right). apply Hother, Hr. by left.
Qed.

(** * Properties *)

(** VTEP addresses lie in the VTEP network of their family, and two private
    addresses share a VTEP address exactly when they agree on the bytes that
    are taken from them (three of IPv4, four of IPv6). *)
Lemma vtep_addresses (prefix ip1 ip2 : string) (f : IPFamily) (v1 v2 : IP) :
  GetVtepIPAddressFrom ip1 prefix f = Ok v1 -> GetVtepIPAddressFrom ip2 prefix f = Ok v2 ->
  (v1 = v2 <-> host_part f (ParseIP ip1) = host_part f (ParseIP ip2)) /\
  (prefix = match f with IPv4 => "241.0.0.0/8" | _ => "fd00:100:200::/96" end%string ->
   exists n, ParseCIDR prefix = Some n /\ Contains n v1 = true).
Proof.
  intros (n & Hn & H1)%GetVtep_shape (n' & Hn' & H2)%GetVtep_shape.
  rewrite Hn in Hn'. injection Hn' as <-. destruct f; [done| |].
  - destruct H1 as (s0 & s1 & s2 & s3 & p0 & p & E1 & Ep & ->).
    destruct H2 as (t0 & t1 & t2 & t3 & q0 & q & E2 & Eq & ->). rewrite Ep in Eq. injection Eq as <- <-.
    unfold host_part. rewrite E1, E2. split.
    + split; [intros E; by inversion E|]. cbn [drop]. intros E. injection E as <- <- <-. done.
    + intros ->. exists n. split; [done|]. vm_compute in Hn. injection Hn as <-. vm_compute in Ep.
      injection Ep as <- _. unfold Contains. simpl. by rewrite !Z.land_0_r.
  - destruct H1 as [L1 ->], H2 as [L2 ->].
    destruct (To16_length (ParseIP ip1)) as [?|E1]; [done|]. destruct (To16_length (ParseIP ip2)) as [?|E2]; [done|].
    unfold host_part. split; [split; [by intros ?%app_inv_head|by intros ->]|].
    intros ->. exists n. split; [done|]. vm_compute in Hn. injection Hn as <-.
    assert (length (drop 12 (To16 (ParseIP ip1))) = 4%nat) as Hl by (rewrite length_drop; lia).
    destruct (drop 12 (To16 (ParseIP ip1))) as [|a [|b [|c [|d [|]]]]]; try done.
    unfold Contains. simpl. by rewrite !Z.land_0_r.
Qed.

(** whether it is created, reused or deleted and created again, the device
    that [createLinkDevice] returns has the configuration asked for. *)
Lemma createLinkDevice_config {W} `{!NetlinkBasic W} `{!NetlinkLaws W} (attrs : Attributes)
    (w w' : W) (v : Vxlan) :
  createLinkDevice attrs w = (Ok v, w') -> isVxlanConfigTheSame (link_of attrs) (LVxlan v) = Some true.
Proof.
  unfold createLinkDevice, mbind, eff_bind, attempt, nl.
  destruct (LinkAdd (link_of attrs) w) as [[v1|e] w1] eqn:Ha.
  - intros [= <- _]. destruct (link_add_ok _ _ _ _ Ha) as [i ->]. exact (same_config_refl (link_of attrs) i).
  - destruct (is_exist e); [|done]. destruct (LinkByName _ w1) as [[existing|e1] w2]; [|done]. simpl.
    destruct (isVxlanConfigTheSame (link_of attrs) existing) as [[]|] eqn:Hsame; [| |done].
    + destruct existing as [u|]; [|done]. by intros [= <- _].
    + destruct existing as [u|]; [|done]. simpl.
      destruct (LinkDel _ w2) as [[[]|] w3]; [|done]. simpl.
      destruct (LinkAdd _ w3) as [[v2|] w4] eqn:Ha2; [|done]. intros [= <- _].
      destruct (link_add_ok _ _ _ _ Ha2) as [i ->]. exact (same_config_refl (link_of attrs) i).
Qed.

(** when routes were added without error every destination has its route
    through the gateway in the table, and routes to other destinations, of
    other priorities or tables are as they were. *)
Lemma AddRoutes_installs {W} `{!NetlinkBasic W} `{!NetlinkLaws W} (link : Vxlan) (gw src : IP)
    (tbl : Z) (dests : list IPNet) (w w' : W) :
  AddRoutes link gw src tbl dests w = (Ok tt, w') ->
  (forall dst, dst ∈ dests -> mkRoute (link_Index link) src (Some dst) gw 100 tbl 0 0 ∈ routes w') /\
  (forall r, route_Table r <> tbl \/ route_Priority r <> 100 \/
      (forall dst, dst ∈ dests -> route_Dst r <> Some dst) ->
     r ∈ routes w' <-> r ∈ routes w).
Proof.
  intros Hrun. destruct (AddRoutes_spec link gw src tbl dests w w' Hrun) as [Hall Hother].
  split; [exact Hall|]. intros r Hr. apply Hother. intros dst Hd (Ht & Hdst & Hp). simpl in *.
  destruct Hr as [Hr|[Hr|Hr]]; [done|done|]. by apply (Hr dst).
Qed.

(** * Witnesses *)
Lemma vtep_addresses_witness :
  (IPv4_addr 241 1 2 3 = IPv4_addr 241 1 2 3 <-> host_part IPv4 (ParseIP "10.1.2.3") = host_part IPv4 (ParseIP "192.1.2.3")).
Proof.
  apply (vtep_addresses "241.0.0.0/8" "10.1.2.3" "192.1.2.3" IPv4); vm_compute; reflexivity.
Defined.

#[local] Existing Instance kernel_ref.
#[local] Existing Instance kernel_ref_laws.

Definition ex_attrs : Attributes := mkAttributes "vxlan-tunnel" 1000 [] [] 4500 1500 [].

Lemma createLinkDevice_config_witness :
  exists v w', createLinkDevice ex_attrs ex_kernel = (Ok v, w') /\
    isVxlanConfigTheSame (link_of ex_attrs) (LVxlan v) = Some true.
Proof.
  eexists _, _. split; [vm_compute; reflexivity|].
  eapply (createLinkDevice_config ex_attrs ex_kernel). vm_compute. reflexivity.
Defined.

Definition ex_dests : list IPNet := omap ParseCIDR ["10.0.0.0/16"; "10.1.0.0/16"]%string.

Lemma AddRoutes_installs_witness :
  exists w', AddRoutes (link_of ex_attrs) [241;1;2;3] [] 100 ex_dests ex_kernel = (Ok tt, w') /\
    length ex_dests = 2%nat /\
    forall dst, dst ∈ ex_dests -> mkRoute 0 [] (Some dst) [241;1;2;3] 100 100 0 0 ∈ routes w'.
Proof.
  eexists. split; [vm_compute; reflexivity|]. split; [reflexivity|].
  apply (AddRoutes_installs (link_of ex_attrs) [241;1;2;3] [] 100 ex_dests ex_kernel).
  vm_compute. reflexivity.
Defined.
End VxlanLink.

Module VxlanDriver.
Import VxlanLink.

Definition VxlanIface : string := "vxlan-tunnel".
Definition CableDriverName : string := "vxlan".
Definition TableID : Z := 100.
Definition DefaultPort : Z := 4500.

Definition vtepPrefixCIDRByFamily (family : IPFamily) : string :=
  match family with
  | IPv4 => "241.0.0.0/8"
  | IPv6 => "fd00:100:200::/96"
  | IPFamilyUnknown => ""
  end%string.

Definition GetVxlanInterfaceName (ipFamily : IPFamily) : string :=
  match ipFamily with
  | IPv6 => String.append VxlanIface "-6"
  | _ => VxlanIface
  end.

(** [vxLan].  [v.connections] is a slice: its elements, and the slots of its
    array past them that earlier slices still see. *)
Record vxLan (W G : Type) := mkVxLan {
  localEndpoint : EndpointSpec;
  localClusterCIDR : list string;
  connections : list Connection;
  stale : list Connection;
  vxlanIfaces : gmap IPFamily Vxlan;
  netLink : W;
  vtepIPs : gmap IPFamily IP;
  recorded_metrics : Metrics.metrics G;
}.
Arguments mkVxLan {W G}.
Arguments localEndpoint {W G}.
Arguments localClusterCIDR {W G}.
Arguments connections {W G}.
Arguments stale {W G}.
Arguments vxlanIfaces {W G}.
Arguments netLink {W G}.
Arguments vtepIPs {W G}.
Arguments recorded_metrics {W G}.

Section driver.
Context {W G : Type} `{!NetlinkBasic W} `{!GaugeVec G} `{K8sNet}.
(** [cni.HostInterfaces] and the clock, read during the calls. *)
Variable HostInterfaces : option (list Cni.HostInterface).
Variable now : Z.

Abbreviation drv := (vxLan W G).
Abbreviation M := (eff (vxLan W G) string).

Definition with_connections (l s : list Connection) (v : drv) : drv :=
  mkVxLan (localEndpoint v) (localClusterCIDR v) l s (vxlanIfaces v) (netLink v) (vtepIPs v)
    (recorded_metrics v).
Definition with_iface (f : IPFamily) (i : Vxlan) (v : drv) : drv :=
  mkVxLan (localEndpoint v) (localClusterCIDR v) (connections v) (stale v) (<[f := i]> (vxlanIfaces v))
    (netLink v) (vtepIPs v) (recorded_metrics v).
Definition with_vtep (f : IPFamily) (ip : IP) (v : drv) : drv :=
  mkVxLan (localEndpoint v) (localClusterCIDR v) (connections v) (stale v) (vxlanIfaces v)
    (netLink v) (<[f := ip]> (vtepIPs v)) (recorded_metrics v).
Definition with_net (w : W) (v : drv) : drv :=
  mkVxLan (localEndpoint v) (localClusterCIDR v) (connections v) (stale v) (vxlanIfaces v) w
    (vtepIPs v) (recorded_metrics v).
Definition with_metrics (f : Metrics.metrics G -> Metrics.metrics G) (v : drv) : drv :=
  mkVxLan (localEndpoint v) (localClusterCIDR v) (connections v) (stale v) (vxlanIfaces v) (netLink v)
    (vtepIPs v) (f (recorded_metrics v)).

(** A call on the netlink layer, its error wrapped by the caller. *)
Definition on_net {E A} (what : string) (m : eff W E A) : M A :=
  fun v => let '(r, w') := m (netLink v) in (map_err (fun _ => what) r, with_net w' v).

Definition createVxlanInterface (port : Z) (family : IPFamily) : M unit :=
  v ← getw;
  let ipAddr := GetPrivateIP (localEndpoint v) family in
  let vtepPrefixCIDR := vtepPrefixCIDRByFamily family in
  match GetVtepIPAddressFrom ipAddr vtepPrefixCIDR family with
  | Err _ => fail "failed to derive the vxlan vtepIP"%string
  | Ok vtepIP =>
      _ ← modifyw (with_vtep family vtepIP);
      defaultHostIface ← on_net "Unable to find the default interface" (GetDefaultGatewayInterface family);
      let interfaceName := GetVxlanInterfaceName family in
      let attrs := mkAttributes interfaceName 1000 [] (match family with IPv6 => ParseIP ipAddr | _ => [] end)
                     port (iface_MTU defaultHostIface) [] in
      vxlanIface ← on_net "failed to create vxlan interface" (NewInterface attrs);
      _ ← modifyw (with_iface family vxlanIface);
      _ ← on_net "failed to setup link" (SetupLink vxlanIface);
      _ ← on_net "failed to add ip rule" (RuleAddIfNotPresent (NewTableRule TableID family));
      _ ← on_net "error while validating loose mode" (EnsureLooseModeIsConfigured interfaceName family);
      match ParseCIDR vtepPrefixCIDR with
      | None => fail "invalid VTEP CIDR"%string
      | Some ipNet =>
          _ ← on_net "failed to configure ipaddress" (ConfigureIPAddress vxlanIface vtepIP (net_Mask ipNet));
          on_net "error enabling forwarding" (EnableForwarding interfaceName family)
      end
  end.

(** [NewDriver], on the kernel [w] and the metrics [m] of the process. *)
Definition NewDriver `{AdmiralSlices} (spec : EndpointSpec) (clusterCIDR : list string) (w : W)
    (m : Metrics.metrics G) : result string drv :=
  let v := mkVxLan spec clusterCIDR [] [] ∅ w ∅ m in
  match GetBackendPort spec UDPPortConfig DefaultPort with
  | (_, Some _) => Err "failed to get the UDP port configuration"%string
  | (port, None) =>
      match for_each (createVxlanInterface port) (GetIPFamilies spec) v with
      | (Ok _, v) => Ok v
      | (Err e, _) => Err e
      end
  end.

Definition of_cable (spec : EndpointSpec) (family : IPFamily) (c : Connection) : bool :=
  (CableName (conn_Endpoint c) =?? CableName spec) && (GetFamily c =?? family).

(** [append]: a slot of the array that follows the slice is overwritten. *)
Definition append_connection (c : Connection) (v : drv) : drv :=
  with_connections (connections v ++ [c]) (drop 1 (stale v)) v.

Definition ConnectToEndpoint (endpointInfo : NATEndpointInfo) : M string :=
  v ← getw;
  let remote := Spec (info_Endpoint endpointInfo) in
  if ClusterID (localEndpoint v) =?? ClusterID remote then mret EmptyString
  else
    let family := UseFamily endpointInfo in
    match ParseIP (UseIP endpointInfo) with
    | [] => fail "failed to parse remote IP"%string
    | remoteIP =>
        match ParseSubnets remote family with
        | Err _ => fail "panic: bad subnet"%string
        | Ok allowedIPs =>
            match vxlanIfaces v !! family with
            | None => fail "no VXLAN interface configured"%string
            | Some vxlanIface =>
                _ ← modifyw (with_metrics (Metrics.RecordConnection now CableDriverName (localEndpoint v)
                                             remote "connected" true family));
                match GetVtepIPAddressFrom (GetPrivateIP remote family) (vtepPrefixCIDRByFamily family) family with
                | Err _ => fail "failed to derive the vxlan vtepIP"%string
                | Ok remoteVtepIP =>
                    _ ← on_net "failed to add remoteIP to the forwarding database"
                          (AddFDB vxlanIface remoteIP "00:00:00:00:00:00");
                    ipAddress ← match Cni.Discover HostInterfaces (localClusterCIDR v) family with
                                | Ok cniIface => mret (ParseIP (Cni.cni_IPAddress cniIface))
                                | Err (Cni.PanicBadCIDR _) => fail "panic: bad cluster CIDR"%string
                                | Err _ =>
                                    match localClusterCIDR v with
                                    | [] => fail "panic: index out of range"%string
                                    | _ => mret []
                                    end
                                end;
                    _ ← on_net "failed to add route" (AddRoutes vxlanIface remoteVtepIP ipAddress TableID allowedIPs);
                    _ ← modifyw (append_connection
                          (mkConnection Connected EmptyString remote (UseIP endpointInfo) (UseNAT endpointInfo) None));
                    mret (UseIP endpointInfo)
                end
            end
        end
    end.

(** [removeConnectionForEndpoint]: [copy] shifts the elements after the first
    match inside the array; its last slot keeps its value. *)
Fixpoint first_index {A} (p : A -> bool) (l : list A) : option nat :=
  match l with
  | [] => None
  | x :: l => if p x then Some 0%nat else S <$> first_index p l
  end.

Definition removeConnectionForEndpoint (spec : EndpointSpec) (family : IPFamily) (v : drv) : drv :=
  match first_index (of_cable spec family) (connections v) with
  | None => v
  | Some j =>
      let n := length (connections v) in
      let shifted := take j (connections v) ++ drop (S j) (connections v)
                       ++ drop (n - 1) (connections v) in
      with_connections (take (n - 1) shifted) (drop (n - 1) shifted ++ stale v) v
  end.

(** The address of the last connection of the cable, as the loop leaves it. *)
Definition connection_ip (spec : EndpointSpec) (family : IPFamily) (l : list Connection) : string :=
  foldl (fun ip c => if of_cable spec family c then UsingIP c else ip) EmptyString l.

Definition DisconnectFromEndpoint (remoteEndpoint : EndpointSpec) (family : IPFamily) : M unit :=
  v ← getw;
  if ClusterID (localEndpoint v) =?? ClusterID remoteEndpoint then mret tt
  else
    match vxlanIfaces v !! family with
    | None => fail "no VXLAN interface configured"%string
    | Some vxlanIface =>
        let ip := connection_ip remoteEndpoint family (connections v) in
        if ip =?? EmptyString then mret tt
        else match ParseIP ip with
             | [] => fail "failed to parse remote IP"%string
             | remoteIP =>
                 match ParseSubnets remoteEndpoint family with
                 | Err _ => fail "panic: bad subnet"%string
                 | Ok allowedIPs =>
                     _ ← on_net "failed to delete remoteIP from the forwarding database"
                           (DelFDB vxlanIface remoteIP "00:00:00:00:00:00");
                     _ ← on_net "failed to remove route" (DelRoutes vxlanIface TableID allowedIPs);
                     _ ← modifyw (removeConnectionForEndpoint remoteEndpoint family);
                     modifyw (with_metrics (Metrics.RecordDisconnected CableDriverName (localEndpoint v)
                                              remoteEndpoint family))
                 end
             end
    end.

Definition cleanup_families `{AdmiralSlices} (v : drv) : list IPFamily :=
  match GetIPFamilies (localEndpoint v) with
  | [] => [IPv4]
  | fs => fs
  end.

Definition Cleanup `{AdmiralSlices} : M unit :=
  v ← getw;
  for_each (fun family =>
    _ ← ignore (on_net "" (DeleteIfaceAndAssociatedRoutes (GetVxlanInterfaceName family) TableID family));
    ignore (on_net "" (RuleDelIfPresent (NewTableRule TableID family)))) (cleanup_families v).

(** A handle is the length of the slice that was returned; its elements are
    read from the array, until the next [append]. *)
Definition vxlan_driver `{AdmiralSlices} : Driver drv := {|
  handle := nat;
  Init := mret tt;
  GetActiveConnections := fun v => (Ok (length (connections v)), v);
  handle_len := fun n => n;
  handle_read := fun v n j => if (j <? n)%nat then (connections v ++ stale v) !! j else None;
  GetConnections := fun v => (Ok (connections v), v);
  CableEngine.ConnectToEndpoint := ConnectToEndpoint;
  CableEngine.DisconnectFromEndpoint := DisconnectFromEndpoint;
  DriverCleanup := Cleanup;
|}.
End driver.

(** * Lemmas *)
Section lemmas.
Context {W G : Type} `{!NetlinkBasic W} `{!GaugeVec G} `{K8sNet}.
Variable HostInterfaces : option (list Cni.HostInterface).
Variable now : Z.

Lemma first_index_Some {A} (p : A -> bool) l j : first_index p l = Some j ->
  exists l1 x l2, l = l1 ++ x :: l2 /\ length l1 = j /\ p x = true.
Proof.
  revert j. induction l as [|x l IH]; intros j; simpl; [done|].
  destruct (p x) eqn:Hp; [intros [= <-]; by exists [], x, l|].
  destruct (first_index p l) as [k|]; simpl; [|done]. intros [= <-].
  destruct (IH k eq_refl) as (l1 & y & l2 & -> & <- & Hy). by exists (x :: l1), y, l2.
Qed.

Lemma list_remove_first spec f l :
  CableEngine.list_remove spec f l = match first_index (of_cable spec f) l with
                         | Some j => take j l ++ drop (S j) l
                         | None => l
                         end.
Proof.
  induction l as [|c l IH]; simpl; [done|]. unfold of_cable at 1. destruct (_ && _); [done|].
  rewrite IH. by destruct (first_index _ l).
Qed.

(** The slice after the removal, and its array: nothing else moves. *)
Lemma removeConnection_spec spec f (v : vxLan W G) :
  connections (removeConnectionForEndpoint spec f v) = CableEngine.list_remove spec f (connections v) /\
  length (connections (removeConnectionForEndpoint spec f v) ++ stale (removeConnectionForEndpoint spec f v))
    = length (connections v ++ stale v) /\
  localEndpoint (removeConnectionForEndpoint spec f v) = localEndpoint v.
Proof.
  rewrite list_remove_first. unfold removeConnectionForEndpoint.
  destruct (first_index _ _) as [j|] eqn:Hj; [|done]. simpl.
  apply first_index_Some in Hj as (l1 & x & l2 & -> & <- & _). split_and!; [|  |done].
  - rewrite app_assoc, take_app_le.
    + apply take_ge. repeat rewrite ?length_app, ?length_take, ?length_drop. simpl. lia.
    + repeat rewrite ?length_app, ?length_take, ?length_drop. simpl. lia.
  - rewrite app_assoc, take_drop. repeat rewrite ?length_app, ?length_take, ?length_drop. simpl. lia.
Qed.

Lemma connection_ip_known `{!K8sNetLaws} spec f l c :
  f <> IPFamilyUnknown -> c ∈ l -> of_cable spec f c = true -> connection_ip spec f l <> EmptyString.
Proof.
  intros Hf Hc Hof. unfold connection_ip.
  assert (forall c, of_cable spec f c = true -> UsingIP c <> EmptyString) as Hip.
  { intros c' Hof' E. unfold of_cable, GetFamily in Hof'. bool_props.
    rewrite E, family_of_empty in *. congruence. }
  induction l as [|c' l IH] using rev_ind; [set_solver|]. rewrite foldl_app. simpl.
  destruct (of_cable spec f c') eqn:Hof'; [by apply Hip|].
  apply IH. apply elem_of_app in Hc as [|Hc]; [done|]. apply list_elem_of_singleton in Hc. congruence.
Qed.

(** The connections and the local endpoint stay. *)
Definition same_slice (v v' : vxLan W G) : Prop :=
  connections v' = connections v /\ stale v' = stale v /\ localEndpoint v' = localEndpoint v.

#[local] Instance same_slice_pre : PreOrder same_slice.
Proof.
  unfold same_slice. split; [done|]. intros a b c (? & ? & ?) (? & ? & ?). split_and!; congruence.
Qed.

Lemma on_net_slice {E A} what (m : eff W E A) : keeps same_slice (on_net what m).
Proof. intros v. unfold on_net. by destruct (m (netLink v)). Qed.

Lemma connect_shape info v r v' :
  ConnectToEndpoint HostInterfaces now info v = (r, v') ->
  (same_slice v v' /\ (is_ok r = true -> ClusterID (localEndpoint v) = ClusterID (Spec (info_Endpoint info)))) \/
  (ClusterID (localEndpoint v) <> ClusterID (Spec (info_Endpoint info)) /\ r = Ok (UseIP info) /\
   exists v1, same_slice v v1 /\
     v' = append_connection (mkConnection Connected EmptyString (Spec (info_Endpoint info))
                               (UseIP info) (UseNAT info) None) v1).
Proof.
  unfold ConnectToEndpoint. intros Hrun.
  apply eff_bind_inv in Hrun as [(a & w1 & [= <- <-] & Hrun)|(e & [=] & _)].
  case_bool_decide as Hself; [injection Hrun as <- <-; by left|].
  destruct (ParseIP (UseIP info)) as [|b bs]; [injection Hrun as <- <-; by left|].
  destruct (ParseSubnets _ _) as [allowed|]; [|injection Hrun as <- <-; by left].
  destruct (vxlanIfaces v !! _) as [iface|]; [|injection Hrun as <- <-; by left].
  apply eff_bind_inv in Hrun as [([] & v1 & [= <-] & Hrun)|(e & [=] & _)].
  match type of Hrun with _ ?v1 = _ => assert (same_slice v v1) as Hs by done; revert Hs; generalize dependent v1 end.
  intros v1 Hrun Hs1.
  destruct (GetVtepIPAddressFrom _ _ _) as [vtep|]; [|injection Hrun as <- <-; by left].
  apply eff_bind_inv in Hrun as [([] & v2 & Hm & Hrun)|(e & Hm & ->)];
    apply (keeps_run same_slice) in Hm; try apply on_net_slice; [|left; split; [by etrans|done]].
  apply eff_bind_inv in Hrun as [(src & v3 & Hm3 & Hrun)|(e & Hm3 & ->)].
  2:{ left. split; [|done]. etrans; [done|]. etrans; [done|].
      destruct (Cni.Discover _ _ _) as [|[]]; try destruct (localClusterCIDR v); injection Hm3; intros; subst; done. }
  assert (same_slice v2 v3) as Hs3.
  { destruct (Cni.Discover _ _ _) as [|[]]; try destruct (localClusterCIDR v); injection Hm3; intros; subst; done. }
  apply eff_bind_inv in Hrun as [([] & v4 & Hm4 & Hrun)|(e & Hm4 & ->)];
    apply (keeps_run same_slice) in Hm4; try apply on_net_slice; [|left; split; [by repeat (etrans; [done|])|done]].
  injection Hrun as <- <-. right. split; [done|split; [done|]]. exists v4. split; [|done].
  by repeat (etrans; [done|]).
Qed.

Lemma disconnect_shape spec f v r v' :
  DisconnectFromEndpoint spec f v = (r, v') ->
  (same_slice v v' /\ (r = Ok tt -> ClusterID (localEndpoint v) = ClusterID spec \/
                         connection_ip spec f (connections v) = EmptyString)) \/
  (r = Ok tt /\ exists v1 g, same_slice v v1 /\
     v' = with_metrics g (removeConnectionForEndpoint spec f v1)).
Proof.
  unfold DisconnectFromEndpoint. intros Hrun.
  apply eff_bind_inv in Hrun as [(a & w1 & [= <- <-] & Hrun)|(e & [=] & _)].
  case_bool_decide as Hself; [injection Hrun as <- <-; left; split; [done|by left]|].
  destruct (vxlanIfaces v !! _) as [iface|]; [|injection Hrun as <- <-; by left].
  case_bool_decide as Hip; [injection Hrun as <- <-; left; split; [done|by right]|].
  destruct (ParseIP _) as [|b bs]; [injection Hrun as <- <-; by left|].
  destruct (ParseSubnets _ _) as [allowed|]; [|injection Hrun as <- <-; by left].
  apply eff_bind_inv in Hrun as [([] & v2 & Hm & Hrun)|(e & Hm & ->)];
    apply (keeps_run same_slice) in Hm; try apply on_net_slice; [|left; by split].
  apply eff_bind_inv in Hrun as [([] & v3 & Hm3 & Hrun)|(e & Hm3 & ->)];
    apply (keeps_run same_slice) in Hm3; try apply on_net_slice; [|left; split; [by etrans|done]].
  injection Hrun as <- <-. right. split; [done|]. eexists v3, _. split; [by etrans|done].
Qed.

Lemma Cleanup_slice `{AdmiralSlices} : keeps same_slice (Cleanup (W:=W) (G:=G)).
Proof.
  unfold Cleanup. frames; apply on_net_slice.
Qed.

(** The driver never holds a connection to its own cluster. *)
Definition vxlan_valid (v : vxLan W G) : Prop :=
  Forall (fun c => ClusterID (conn_Endpoint c) <> ClusterID (localEndpoint v)) (connections v).

Lemma slice_valid v v' : same_slice v v' -> vxlan_valid v -> vxlan_valid v'.
Proof. unfold vxlan_valid. by intros (-> & _ & ->). Qed.

Lemma connect_keeps_valid info v : vxlan_valid v ->
  vxlan_valid (ConnectToEndpoint HostInterfaces now info v).2.
Proof.
  intros Hv. destruct (ConnectToEndpoint _ _ info v) as [r v'] eqn:E. simpl.
  apply connect_shape in E as [[Hs _]|(Hne & _ & v1 & Hs & ->)]; [by eapply slice_valid|].
  apply (slice_valid _ _ Hs) in Hv. destruct Hs as (Hc & _ & Hl).
  unfold vxlan_valid in *. simpl. rewrite Forall_app, Forall_singleton. simpl. split; [done|].
  rewrite Hl. congruence.
Qed.

Lemma remove_forall P spec f (v : vxLan W G) :
  Forall P (connections v) -> Forall P (connections (removeConnectionForEndpoint spec f v)).
Proof.
  rewrite (proj1 (removeConnection_spec spec f v)).
  destruct (CableEngine.list_remove_spec spec f (connections v)) as [-> | (l1 & c & l2 & -> & -> & _)];
    [done|]. rewrite !Forall_app, Forall_cons. tauto.
Qed.

Lemma disconnect_keeps_valid spec f v : vxlan_valid v -> vxlan_valid (DisconnectFromEndpoint spec f v).2.
Proof.
  intros Hv. destruct (DisconnectFromEndpoint spec f v) as [r v'] eqn:E. simpl.
  apply disconnect_shape in E as [[Hs _]|(_ & v1 & g & Hs & ->)]; [by eapply slice_valid|].
  apply (slice_valid _ _ Hs) in Hv. unfold vxlan_valid in *. simpl.
  rewrite (proj2 (proj2 (removeConnection_spec spec f v1))). by apply remove_forall.
Qed.
End lemmas.

(** The driver keeps the contract of the engine. *)
#[global] Instance vxlan_driver_laws {W G} `{!NetlinkBasic W} `{!GaugeVec G} `{K8sNet} `{!K8sNetLaws}
    `{AdmiralSlices} (HostInterfaces : option (list Cni.HostInterface)) (now : Z) :
  @DriverLaws (vxLan W G) _ (vxlan_driver HostInterfaces now).
Proof.
  refine {| conns := connections : vxLan W G -> _; valid := vxlan_valid |}; simpl; [done..| | | | | | | | | | | |].
  - intros v info. apply connect_keeps_valid.
  - intros v spec f. apply disconnect_keeps_valid.
  - intros v. apply slice_valid, Cleanup_slice.
  - intros v n v' [= <- <-]. split; [done|split; [done|]]. intros j Hj.
    rewrite (proj2 (Nat.ltb_lt _ _) Hj). by apply lookup_app_l.
  - done.
  - intros v n spec f r v' j Hd. destruct (j <? n)%nat; [|done]. rewrite !lookup_lt_is_Some.
    apply disconnect_shape in Hd as [[(Hc & Hs & _) _]|(_ & v1 & g & (Hc & Hs & _) & ->)];
      [by rewrite Hc, Hs|]. simpl. by rewrite (proj1 (proj2 (removeConnection_spec spec f v1))), Hc, Hs.
  - intros v spec f r v' Hd. apply disconnect_shape in Hd as [[(Hc & _) _]|(_ & v1 & g & (Hc & _) & ->)];
      [by left|]. simpl. rewrite (proj1 (removeConnection_spec spec f v1)), Hc.
    apply CableEngine.list_remove_spec.
  - intros v v' c Hv Hc Hf Hd. apply disconnect_shape in Hd as [[_ Hd]|(_ & v1 & g & (Hs & _) & ->)].
    + exfalso. destruct (Hd eq_refl) as [Hl|Hip].
      * unfold vxlan_valid in Hv. rewrite Forall_forall in Hv. by apply (Hv c Hc).
      * revert Hip. eapply connection_ip_known; [done|done|]. unfold of_cable. by rewrite !bool_decide_true.
    + simpl. rewrite (proj1 (removeConnection_spec _ _ v1)), Hs. by apply CableEngine.list_remove_gone.
  - by intros v r v' [= <- <-].
  - intros v r v' [= <- <-]. apply same_cables_refl.
  - intros v r v' Hc. left. apply (keeps_run same_slice) in Hc; [by apply Hc|apply Cleanup_slice].
  - intros v info r v' Hc. apply connect_shape in Hc as [[(Hs & _) _]|(_ & _ & v1 & (Hs & _) & ->)]; [by left|].
    right. eexists. split; [simpl; by rewrite Hs|done].
Defined.

#[local] Existing Instance same_slice_pre.

Section more_lemmas.
Context {W G : Type} `{!NetlinkBasic W} `{!GaugeVec G} `{K8sNet}.

Lemma createVxlanInterface_slice port f : keeps same_slice (createVxlanInterface (W:=W) (G:=G) port f).
Proof.
  unfold createVxlanInterface. frames; try apply on_net_slice.
  - by apply keeps_modify.
  - by apply keeps_modify.
Qed.

Lemma NewDriver_fresh `{AdmiralSlices} spec cidr (w : W) (m : Metrics.metrics G) v :
  NewDriver spec cidr w m = Ok v -> vxlan_valid v /\ connections v = [].
Proof.
  unfold NewDriver. destruct (GetBackendPort _ _ _) as [port [|]]; [done|].
  destruct (for_each _ _ _) as [[[]|] v'] eqn:E; [|done]. intros [= <-].
  apply (keeps_run same_slice) in E as (Hc & _);
    [|apply keeps_for_each; [apply _|]; intros f; apply createVxlanInterface_slice].
  simpl in Hc. unfold vxlan_valid. by rewrite Hc.
Qed.

Lemma list_remove_none spec f l : (forall c, c ∈ l -> of_cable spec f c = false) ->
  CableEngine.list_remove spec f l = l.
Proof.
  intros Hl. induction l as [|c l IH]; [done|]. simpl.
  pose proof (Hl c ltac:(by left)) as Hc. unfold of_cable in Hc. rewrite Hc, IH; [done|].
  intros c' Hc'. apply Hl. by right.
Qed.
End more_lemmas.

(** * Properties *)
Section properties.
Context {W G : Type} `{!NetlinkBasic W} `{!GaugeVec G} `{K8sNet} `{!K8sNetLaws} `{AdmiralSlices}.
Variable HostInterfaces : option (list Cni.HostInterface).
Variable now : Z.

(** the VXLAN driver implements the list of connections: connecting to
    another cluster appends the connection or, on an error, changes nothing;
    disconnecting removes the first connection of the cable and family or, on
    an error, none. *)
Lemma vxlan_refines_list (v : vxLan W G) (info : NATEndpointInfo) (spec : EndpointSpec) (f : IPFamily) :
  ClusterID (Spec (info_Endpoint info)) <> ClusterID (localEndpoint v) ->
  ClusterID spec <> ClusterID (localEndpoint v) -> f <> IPFamilyUnknown ->
  (let '(r, v') := ConnectToEndpoint HostInterfaces now info v in
   match r with
   | Ok ip => ip = UseIP info /\
       connections v' = connections v ++ [mkConnection Connected EmptyString (Spec (info_Endpoint info))
                                            (UseIP info) (UseNAT info) None]
   | Err _ => connections v' = connections v
   end) /\
  (let '(r, v') := DisconnectFromEndpoint spec f v in
   match r with
   | Ok _ => connections v' = CableEngine.list_remove spec f (connections v)
   | Err _ => connections v' = connections v
   end).
Proof.
  intros Hi Hs Hf. split.
  - destruct (ConnectToEndpoint _ _ info v) as [r v'] eqn:E.
    apply connect_shape in E as [[(Hc & _) Hself]|(_ & -> & v1 & (Hc & _) & ->)].
    + destruct r as [ip|]; [|done]. exfalso. by apply Hi; rewrite Hself.
    + simpl. by rewrite Hc.
  - destruct (DisconnectFromEndpoint spec f v) as [r v'] eqn:E.
    apply disconnect_shape in E as [[(Hc & _) Hr]|(-> & v1 & g & (Hc & _) & ->)].
    + destruct r as [[]|]; [|done]. rewrite Hc. symmetry. apply list_remove_none.
      intros c Hin. apply not_true_is_false. intros Hof.
      destruct (Hr eq_refl) as [Hl|Hip]; [congruence|]. revert Hip. by eapply connection_ip_known.
    + simpl. by rewrite (proj1 (removeConnection_spec spec f v1)), Hc.
Qed.

(** a cable engine over the VXLAN driver, from its creation and through any
    starts, stops, requests, removals and NAT results: the driver never has two
    connections to one cluster in a family, although the engine walks a slice
    whose array the driver modifies. *)
Lemma vxlan_engine_single {N} `{!NATIface N} (cidr : list string) (w : W) (m : Metrics.metrics G)
    (clusterID : string) (spec : EndpointSpec) (nd : N) (owner : string -> string)
    (es : list CableEngine.engine_event) (v : vxLan W G) (cluster : string) (f : IPFamily) :
  Forall (CableEngine.event_ok owner) es ->
  CableEngine.driver
    (CableEngine.engine_run (Driver0 := vxlan_driver HostInterfaces now)
       (fun spec _ => NewDriver spec cidr w m) es (CableEngine.NewEngine clusterID spec nd)) = Some v ->
  f <> IPFamilyUnknown -> (CableEngine.count_cluster cluster f (connections v) <= 1)%nat.
Proof.
  intros Hes Hdr Hf. set (laws := vxlan_driver_laws (W := W) (G := G) HostInterfaces now).
  set (new := fun (spec : EndpointSpec) (_ : string) => NewDriver spec cidr w m) in *.
  assert (forall es i, Forall (CableEngine.event_ok owner) es ->
    CableEngine.engine_wf (DriverLaws0 := laws) owner i ->
    CableEngine.engine_wf (DriverLaws0 := laws) owner
      (CableEngine.engine_run (Driver0 := vxlan_driver HostInterfaces now) new es i)) as Hrun.
  { clear. intros es i Hes. revert i. induction Hes as [|e es He _ IH]; intros i Hi; [done|].
    apply IH. apply CableEngine.engine_step_wf; [|done|done].
    intros spec id d Hd. by apply NewDriver_fresh in Hd. }
  specialize (Hrun es (CableEngine.NewEngine clusterID spec nd) Hes).
  destruct Hrun as [_ Hs]; [split; [apply map_Forall_empty|done]|].
  rewrite Hdr in Hs. by apply Hs.
Qed.
End properties.

(** * Witnesses *)
#[local] Existing Instance kernel_ref.
#[local] Existing Instance Metrics.gauge_ref.
#[local] Existing Instance k8snet_ref.
#[local] Existing Instance slices_ref.
#[local] Existing Instance k8snet_ref_laws.
#[local] Existing Instance CableEngine.ex_nat.

(** A kernel with a default route and the settings of the tunnel interface. *)
Definition ex_host : kernel :=
  mkKernel [] [] [mkRoute 1 [] None [10;0;0;254] 0 254 0 0]
    {[ "/proc/sys/net/ipv4/conf/vxlan-tunnel/rp_filter"%string := ["2"%char];
       "/proc/sys/net/ipv4/conf/vxlan-tunnel/forwarding"%string := ["0"%char] ]}.

Definition ex_gateway (cluster private : string) : EndpointSpec :=
  mkSpec cluster (String.append "submariner-cable-" cluster) EmptyString [] "host" ["10.0.0.0/16"%string]
    EmptyString [private] EmptyString [] false "vxlan" ∅.

Definition ex_info : NATEndpointInfo :=
  mkInfo (mkEndpoint "east" 7 (ex_gateway "east" "10.0.0.2")) false "10.0.0.2" IPv4.

Definition ex_owner (cable : string) : string :=
  if cable =?? "submariner-cable-east"%string then "east"%string else EmptyString.

Definition ex_driver : option (vxLan kernel (gmap Labels Z)) :=
  match NewDriver (ex_gateway "west" "10.0.0.1") ["10.1.0.0/16"%string] ex_host Metrics.ex_metrics with
  | Ok v => Some v
  | Err _ => None
  end.

(** What the witness needs of the concrete driver, decided. *)
Definition ex_driver_ok (v : vxLan kernel (gmap Labels Z)) : bool :=
  (ClusterID (localEndpoint v) =?? "west"%string) && (connections v =?? []) &&
  is_ok (ConnectToEndpoint None 5 ex_info v).1.

Lemma vxlan_refines_list_witness : exists v, ex_driver = Some v /\
  connections (ConnectToEndpoint None 5 ex_info v).2 =
    [mkConnection Connected EmptyString (ex_gateway "east" "10.0.0.2") "10.0.0.2" false None].
Proof.
  assert (match ex_driver with Some v => ex_driver_ok v | None => false end = true) as Hok
    by (vm_compute; reflexivity).
  destruct ex_driver as [v|]; [|discriminate]. exists v. split; [reflexivity|].
  unfold ex_driver_ok in Hok. apply andb_true_iff in Hok as [Hok Hr]. bool_props.
  destruct (vxlan_refines_list None 5 v ex_info (ex_gateway "east" "10.0.0.2") IPv4) as [Hc _];
    [simpl; congruence|simpl; congruence|discriminate|].
  destruct (ConnectToEndpoint None 5 ex_info v) as [[ip|e] v']; [|discriminate].
  destruct Hc as [_ Hc]. cbn [snd]. rewrite Hc, H0. reflexivity.
Defined.

Definition ex_events : list CableEngine.engine_event :=
  [CableEngine.EvStart; CableEngine.EvInstall (info_Endpoint ex_info) IPv4; CableEngine.EvNATInfo ex_info].

Definition ex_engine :=
  CableEngine.engine_run (Driver0 := vxlan_driver None 5)
    (fun spec _ => NewDriver spec ["10.1.0.0/16"%string] ex_host Metrics.ex_metrics) ex_events
    (CableEngine.NewEngine "west" (ex_gateway "west" "10.0.0.1") (NatDiscovery.ex_nd NatDiscovery.ex_west)).

Lemma vxlan_engine_single_witness : exists v, CableEngine.driver ex_engine = Some v /\
  length (connections v) = 1%nat /\ (CableEngine.count_cluster "east" IPv4 (connections v) <= 1)%nat.
Proof.
  assert (match CableEngine.driver ex_engine with
          | Some v => (length (connections v) =? 1)%nat | None => false end = true) as Hok
    by (vm_compute; reflexivity).
  destruct (CableEngine.driver ex_engine) as [v|] eqn:E; [|discriminate].
  exists v. split; [reflexivity|]. split; [by apply Nat.eqb_eq|].
  apply (vxlan_engine_single None 5 ["10.1.0.0/16"%string] ex_host Metrics.ex_metrics "west"
    (ex_gateway "west" "10.0.0.1") (NatDiscovery.ex_nd NatDiscovery.ex_west) ex_owner ex_events v "east" IPv4);
    [|exact E|discriminate].
  repeat constructor; discriminate.
Defined.
End VxlanDriver.
