(* ===== verification/Tunnel.v ===== *)
(** The tunnel controller ([pkg/controllers/tunnel/tunnel.go]): endpoint events
    become cable requests of the engine, one per IP family both sides have. *)
From stdpp Require Import base gmap list strings fin_maps.
From Stdlib Require Import ZArith Lia.
From S2P Require Import Prelude GoNet K8s Cidr Endpoint NatDiscovery CableEngine.
Import Endpoint RemoteNAT CableEngine.
Local Open Scope Z_scope.

(** admiral's [slices.Intersect] at identity keys. *)
Class AdmiralIntersect := {
  Intersect : list IPFamily -> list IPFamily -> list IPFamily;
}.

Class AdmiralIntersectLaws `{AdmiralIntersect} := {
  intersect_spec : forall a b f, f ∈ Intersect a b <-> f ∈ a /\ f ∈ b;
  intersect_nodup : forall a b, NoDup a -> NoDup b -> NoDup (Intersect a b);
}.

Module Tunnel.

Section controller.
Context {D N : Type} `{K8sNet} `{!Driver D} `{!NATIface N} `{AdmiralSlices} `{AdmiralIntersect}.

(** [controller]: the engine is the world of the handlers. *)
Record controller := mkController { localIPFamilies : list IPFamily }.

Definition findCommonIPFamilies (local remote : list IPFamily) : list IPFamily := Intersect local remote.

(** [StartController] reads the local families once. *)
Definition StartController (localSpec : EndpointSpec) : controller :=
  mkController (GetIPFamilies localSpec).

(** [InstallCable] of the engine never reports an error. *)
Definition handleCreatedOrUpdatedEndpoint (c : controller) (endpoint : EndpointObj) (e : engine D N)
    : bool * engine D N :=
  let commonIPFamilies := findCommonIPFamilies (localIPFamilies c) (GetIPFamilies (Spec endpoint)) in
  (false, foldl (fun e family => InstallCable endpoint family e) e commonIPFamilies).

(** The removal of every family is tried; any error asks for a retry. *)
Fixpoint remove_families (endpoint : EndpointObj) (families : list IPFamily) (e : engine D N)
    : bool * engine D N :=
  match families with
  | [] => (false, e)
  | family :: rest =>
      let '(r, e1) := RemoveCable endpoint family e in
      let '(retry, e2) := remove_families endpoint rest e1 in
      (is_err r || retry, e2)
  end.

Definition handleRemovedEndpoint (c : controller) (endpoint : EndpointObj) (e : engine D N)
    : bool * engine D N :=
  let commonIPFamilies := findCommonIPFamilies (localIPFamilies c) (GetIPFamilies (Spec endpoint)) in
  remove_families endpoint commonIPFamilies e.

(** The names of the cables of an endpoint in some families. *)
Definition cable_names (endpoint : EndpointObj) (families : list IPFamily) : list string :=
  map (GetFamilyCableName (Spec endpoint)) families.
End controller.

(** * Lemmas *)
Section lemmas.
Context {D N : Type} `{K8sNet} `{!Driver D} `{!DriverLaws D} `{!NATIface N}.
Implicit Types e : engine D N.

Lemma InstallCable_pending ep f e name :
  ClusterID (Spec ep) <> localClusterID e -> Spec ep <> localEndpoint e ->
  zget 0 (natDiscoveryPending (InstallCable ep f e)) name =
  zget 0 (natDiscoveryPending e) name + (if GetFamilyCableName (Spec ep) f =?? name then 1 else 0).
Proof.
  intros Hcl Hsp. unfold InstallCable. rewrite !bool_decide_false by done. simpl.
  case_bool_decide as Hn; [subst; by rewrite zget_insert_eq|].
  rewrite zget_insert_ne by done. lia.
Qed.

Lemma InstallCable_frame ep f e :
  localClusterID (InstallCable ep f e) = localClusterID e /\
  localEndpoint (InstallCable ep f e) = localEndpoint e /\
  installedCables (InstallCable ep f e) = installedCables e /\ driver (InstallCable ep f e) = driver e.
Proof. unfold InstallCable. by repeat case_bool_decide. Qed.

Lemma RemoveCable_ok ep f e e' : ClusterID (Spec ep) <> localClusterID e ->
  RemoveCable ep f e = (Ok tt, e') ->
  natDiscoveryPending e' !! GetFamilyCableName (Spec ep) f = None /\
  installedCables e' !! GetFamilyCableName (Spec ep) f = None.
Proof.
  intros Hcl. unfold RemoveCable, mbind, eff_bind, getw, modifyw, on_driver.
  rewrite bool_decide_false by done. simpl.
  destruct (installedCables e !! GetFamilyCableName (Spec ep) f) eqn:Hi;
    [|intros [= <-]; simpl; by rewrite lookup_delete_eq].
  simpl. destruct (driver e); [|done].
  destruct (DisconnectFromEndpoint _ _ _) as [[[]|] ]; simpl; [|done].
  intros [= <-]. simpl. by rewrite !lookup_delete_eq.
Qed.

(** A removal only takes things away. *)
Lemma RemoveCable_gone ep f e name :
  natDiscoveryPending e !! name = None -> installedCables e !! name = None ->
  localClusterID (RemoveCable ep f e).2 = localClusterID e /\
  natDiscoveryPending (RemoveCable ep f e).2 !! name = None /\
  installedCables (RemoveCable ep f e).2 !! name = None.
Proof.
  intros Hp Hi. unfold RemoveCable, mbind, eff_bind, getw, modifyw, on_driver.
  case_bool_decide; [done|]. simpl.
  assert (delete (GetFamilyCableName (Spec ep) f) (natDiscoveryPending e) !! name = None) as Hp'
    by (rewrite lookup_delete_None; by right).
  destruct (installedCables e !! GetFamilyCableName (Spec ep) f); [|done].
  simpl. destruct (driver e); [|done].
  destruct (DisconnectFromEndpoint _ _ _) as [[[]|] ]; simpl; split_and!; try done.
  rewrite lookup_delete_None. by right.
Qed.

Lemma RemoveCable_cluster ep f e : localClusterID (RemoveCable ep f e).2 = localClusterID e.
Proof.
  unfold RemoveCable, mbind, eff_bind, getw, modifyw, on_driver. case_bool_decide; [done|]. simpl.
  destruct (installedCables e !! GetFamilyCableName (Spec ep) f); [|done]. simpl.
  destruct (driver e); [|done]. by destruct (DisconnectFromEndpoint _ _ _) as [[[]|] ].
Qed.

Lemma remove_families_keeps ep fs name : forall e,
  natDiscoveryPending e !! name = None -> installedCables e !! name = None ->
  natDiscoveryPending (remove_families ep fs e).2 !! name = None /\
  installedCables (remove_families ep fs e).2 !! name = None.
Proof.
  induction fs as [|f fs IH]; intros e Hp Hi; [done|]. simpl.
  destruct (RemoveCable_gone ep f e name Hp Hi) as (_ & Hp' & Hi').
  destruct (RemoveCable ep f e) as [r e1]. simpl in *.
  specialize (IH e1 Hp' Hi'). by destruct (remove_families ep fs e1).
Qed.
End lemmas.

(** * Properties *)
Section properties.
Context {D N : Type} `{K8sNet} `{!Driver D} `{!DriverLaws D} `{!NATIface N} `{AdmiralSlices}
  `{AdmiralIntersect} `{!AdmiralIntersectLaws}.

(** an endpoint of another cluster makes the engine expect one more NAT
    result for its cable in each family that both endpoints have, and for no
    other cable; nothing is installed or connected by the handler itself. *)
Lemma created_endpoint_requests (c : controller) (ep : EndpointObj) (e : engine D N) (f : IPFamily) :
  NoDup (localIPFamilies c) -> NoDup (GetIPFamilies (Spec ep)) ->
  ClusterID (Spec ep) <> localClusterID e -> Spec ep <> localEndpoint e ->
  (forall f1 f2, GetFamilyCableName (Spec ep) f1 = GetFamilyCableName (Spec ep) f2 -> f1 = f2) ->
  let '(retry, e') := handleCreatedOrUpdatedEndpoint c ep e in
  retry = false /\ installedCables e' = installedCables e /\ driver e' = driver e /\
  zget 0 (natDiscoveryPending e') (GetFamilyCableName (Spec ep) f) =
    zget 0 (natDiscoveryPending e) (GetFamilyCableName (Spec ep) f) +
    (if bool_decide (f ∈ localIPFamilies c /\ f ∈ GetIPFamilies (Spec ep)) then 1 else 0).
Proof.
  intros Hn1 Hn2 Hcl Hsp Hinj. unfold handleCreatedOrUpdatedEndpoint. split; [done|].
  rewrite (bool_decide_ext _ _ (symmetry (intersect_spec (localIPFamilies c) (GetIPFamilies (Spec ep)) f))).
  pose proof (intersect_nodup _ _ Hn1 Hn2) as Hnd. unfold findCommonIPFamilies.
  revert e Hcl Hsp. induction Hnd as [|f' l Hf' _ IH]; intros e Hcl Hsp; simpl; [split_and!; [done|done|lia]|].
  destruct (InstallCable_frame ep f' e) as (E1 & E2 & E3 & E4).
  destruct (IH (InstallCable ep f' e)) as (IH1 & IH2 & IH3); [congruence|congruence|].
  rewrite IH1, IH2, IH3, E3, E4, InstallCable_pending by done. split_and!; [done|done|].
  destruct (decide (f = f')) as [->|Hne].
  - rewrite bool_decide_true by done. rewrite bool_decide_false by done.
    rewrite bool_decide_true by by left. lia.
  - rewrite bool_decide_false by (intros E; apply Hinj in E; congruence).
    assert (f ∈ f' :: l <-> f ∈ l) as Hiff by (rewrite elem_of_cons; tauto).
    rewrite (bool_decide_ext _ _ Hiff). lia.
Qed.

(** when the removal of an endpoint asks for no retry, none of its cables
    in the common families is installed or expected any more. *)
Lemma removed_endpoint_gone (c : controller) (ep : EndpointObj) (e e' : engine D N) (f : IPFamily) :
  ClusterID (Spec ep) <> localClusterID e ->
  handleRemovedEndpoint c ep e = (false, e') ->
  f ∈ localIPFamilies c -> f ∈ GetIPFamilies (Spec ep) ->
  natDiscoveryPending e' !! GetFamilyCableName (Spec ep) f = None /\
  installedCables e' !! GetFamilyCableName (Spec ep) f = None.
Proof.
  intros Hcl Hrun Hin1 Hin2. unfold handleRemovedEndpoint, findCommonIPFamilies in Hrun.
  assert (f ∈ Intersect (localIPFamilies c) (GetIPFamilies (Spec ep))) as Hf by by apply intersect_spec.
  revert e Hcl Hrun Hf. generalize (Intersect (localIPFamilies c) (GetIPFamilies (Spec ep))) as fs.
  induction fs as [|f' fs IH]; intros e Hcl Hrun Hf; [by apply not_elem_of_nil in Hf|]. simpl in Hrun.
  pose proof (RemoveCable_cluster ep f' e) as Hc1.
  destruct (RemoveCable ep f' e) as [[[]|err] e1] eqn:Hr; simpl in *.
  - destruct (remove_families ep fs e1) as [retry e2] eqn:Hrest. injection Hrun as -> ->.
    apply elem_of_cons in Hf as [->|Hf].
    + destruct (RemoveCable_ok ep f' e e1 Hcl Hr) as [Hp Hi].
      pose proof (remove_families_keeps ep fs _ e1 Hp Hi) as Hk. by rewrite Hrest in Hk.
    + apply (IH e1); [congruence|done|done].
  - by destruct (remove_families ep fs e1).
Qed.
End properties.

(** * Witnesses *)
#[local] Existing Instance k8snet_ref.
#[local] Existing Instance slices_ref.
#[local] Existing Instance list_driver.
#[local] Existing Instance list_driver_laws.
#[local] Existing Instance ex_nat.

#[local] Instance intersect_ref : AdmiralIntersect := {|
  Intersect := fun a b => filter (fun f => f ∈ b) a;
|}.

#[local] Instance intersect_ref_laws : AdmiralIntersectLaws.
Proof.
  split; simpl.
  - intros a b f. rewrite list_elem_of_filter. tauto.
  - intros a b Ha _. by apply NoDup_filter.
Qed.

Definition ex_gateway (cluster : string) (subnets : list string) : EndpointSpec :=
  mkSpec cluster (String.append "submariner-cable-" cluster) EmptyString [] "host" subnets
    EmptyString ["10.0.0.2"%string] EmptyString [] false "vxlan" ∅.

Definition ex_remote : EndpointObj :=
  mkEndpoint "east" 7 (ex_gateway "east" ["10.0.0.0/16"; "fd00::/64"]%string).

Definition ex_controller : controller := StartController (ex_gateway "west" ["10.1.0.0/16"%string]).

Definition ex_engine : engine (list Connection) NatDiscovery.natDiscovery :=
  NewEngine "west" (ex_gateway "west" ["10.1.0.0/16"%string]) (NatDiscovery.ex_nd NatDiscovery.ex_west).

(** The address family is a suffix of the cable's name. *)
Lemma ex_names_inj f1 f2 :
  GetFamilyCableName (Spec ex_remote) f1 = GetFamilyCableName (Spec ex_remote) f2 -> f1 = f2.
Proof. destruct f1, f2; intros E; vm_compute in E; try reflexivity; discriminate. Qed.

Lemma created_endpoint_requests_witness :
  zget 0 (natDiscoveryPending (handleCreatedOrUpdatedEndpoint ex_controller ex_remote ex_engine).2)
    (GetFamilyCableName (Spec ex_remote) IPv4) = 1.
Proof.
  destruct (created_endpoint_requests ex_controller ex_remote ex_engine IPv4) as (_ & _ & _ & E).
  - vm_compute. repeat constructor; set_solver.
  - vm_compute. repeat constructor; set_solver.
  - vm_compute. discriminate.
  - vm_compute. discriminate.
  - apply ex_names_inj.
  - etransitivity; [exact E|]. vm_compute. reflexivity.
Defined.

(** The same engine once the cable is installed. *)
Definition ex_installed : engine (list Connection) NatDiscovery.natDiscovery :=
  engine_run ex_new_driver
    [EvStart; EvInstall ex_remote IPv4; EvNATInfo (mkInfo ex_remote false "10.0.0.2" IPv4)] ex_engine.

Lemma removed_endpoint_gone_witness : exists e',
  handleRemovedEndpoint ex_controller ex_remote ex_installed = (false, e') /\
  is_Some (installedCables ex_installed !! GetFamilyCableName (Spec ex_remote) IPv4) /\
  installedCables e' !! GetFamilyCableName (Spec ex_remote) IPv4 = None.
Proof.
  eexists. split; [vm_compute; reflexivity|]. split; [eexists; vm_compute; reflexivity|].
  eapply (removed_endpoint_gone ex_controller ex_remote ex_installed _ IPv4).
  - vm_compute. discriminate.
  - vm_compute. reflexivity.
  - vm_compute. left.
  - vm_compute. left.
Defined.
End Tunnel.
