(* ===== verification/Pinger.v ===== *)
(** Latency and health of remote endpoints: the running statistics
    ([pkg/pinger/statistics.go]), the pinger's reaction to sent, failed and
    answered packets ([pkg/pinger/pinger.go]), the set of running pingers
    ([pkg/pinger/controller.go]) and the health checker of the cable engine
    ([pkg/cableengine/healthchecker/healthchecker.go]).

    Durations are nanoseconds in 64-bit integers; the error texts are the cause
    only. *)
From stdpp Require Import base gmap list strings fin_maps.
From Stdlib Require Import ZArith Lia.
From S2P Require Import Prelude GoNet K8s Cidr Endpoint.
Import Endpoint.
Local Open Scope Z_scope.

Module Statistics.

Record statistics := mkStatistics {
  previousRtts : list Z;
  sum : Z;
  mean : Z;
  stdDev : Z;
  lastRtt : Z;
  minRtt : Z;
  maxRtt : Z;
  sqrDiff : Z;
  index : Z;
  size : Z;
}.

Definition initial (n : Z) : statistics :=
  mkStatistics (replicate (Z.to_nat n) 0) 0 0 0 0 0 0 0 0 n.

Definition rtt_at (s : statistics) (i : Z) : Z := nth (Z.to_nat i) (previousRtts s) 0.

Definition square (x : Z) : Z := int64 (int64 x * int64 x).

Section update.
(** [int64(math.Sqrt(float64(x)))] *)
Variable sqrt64 : Z -> Z.

(** The restart with the last two values once the array is full. *)
Definition restart (s : statistics) : statistics :=
  let r0 := rtt_at s (size s - 2) in
  let r1 := nth (Z.to_nat (size s - 1)) (<[0%nat := r0]> (previousRtts s)) 0 in
  let sm := int64 (r0 + r1) in
  let m := Z.quot sm 2 in
  mkStatistics (<[1%nat := r1]> (<[0%nat := r0]> (previousRtts s))) sm m (stdDev s) (lastRtt s)
    (minRtt s) (maxRtt s) (int64 (square (r0 - m) + square (r1 - m))) 2 (size s).

Definition with_last (rtt : Z) (s : statistics) : statistics :=
  mkStatistics (previousRtts s) (sum s) (mean s) (stdDev s) rtt (minRtt s) (maxRtt s)
    (sqrDiff s) (index s) (size s).

(** The part of [update] after the restart. *)
Definition push (rtt : Z) (s : statistics) : statistics :=
  if 1 <? index s + 1 then
    let sm := int64 (sum s + rtt) in
    let m := Z.quot sm (index s + 1) in
    let sd := int64 (sqrDiff s + int64 (int64 (rtt - mean s) * int64 (rtt - m))) in
    mkStatistics (<[Z.to_nat (index s) := rtt]> (previousRtts s)) sm m
      (sqrt64 (Z.quot sd (index s + 1))) (lastRtt s)
      (if (minRtt s =? 0) || (rtt <? minRtt s) then rtt else minRtt s)
      (if maxRtt s <? rtt then rtt else maxRtt s) sd (index s + 1) (size s)
  else
    mkStatistics (<[Z.to_nat (index s) := rtt]> (previousRtts s)) rtt rtt 0 (lastRtt s) rtt rtt 0
      (index s + 1) (size s).

Definition update (rtt : Z) (s : statistics) : statistics :=
  let s := with_last rtt s in
  push rtt (if index s =? size s then restart s else s).

Definition updates (rtts : list Z) (s : statistics) : statistics :=
  foldl (fun s rtt => update rtt s) s rtts.
End update.

(** * Invariant *)

Definition zsum (l : list Z) : Z := foldr Z.add 0 l.

(** The current window: its values, their sum and mean; all of them between
    the extremes of the whole history. *)
Definition window (s : statistics) : list Z := take (Z.to_nat (index s)) (previousRtts s).

Definition stat_wf (bound : Z) (s : statistics) : Prop :=
  0 <= index s <= size s /\ Z.of_nat (length (previousRtts s)) = size s /\
  (0 < index s ->
   0 < minRtt s /\ maxRtt s <= bound /\
   Forall (fun r => minRtt s <= r <= maxRtt s) (window s) /\
   sum s = zsum (window s) /\ mean s = sum s / index s).

Definition zsquares (l : list Z) : Z := foldr (fun r acc => r * r + acc) 0 l.

(** The number of values times the sum of their squared differences to their
    true mean: [n * sum r^2 - (sum r)^2]. *)
Definition scatter (l : list Z) : Z :=
  Z.of_nat (length l) * zsquares l - zsum l * zsum l.

(** The sum of squared differences: within the range of the window's values,
    and off the true one only by what truncating the means costs. *)
Definition sqr_wf (bound : Z) (s : statistics) : Prop :=
  0 < index s ->
  0 <= sqrDiff s <= index s * (bound * bound) /\
  Z.abs (index s * sqrDiff s - scatter (window s)) <= index s * index s * (2 * bound + 1).

(** * Lemmas *)

Lemma zsum_app l1 l2 : zsum (l1 ++ l2) = zsum l1 + zsum l2.
Proof. induction l1 as [|x l1 IH]; simpl in *; lia. Qed.

Lemma zsum_bounds lo hi l : Forall (fun r => lo <= r <= hi) l ->
  Z.of_nat (length l) * lo <= zsum l <= Z.of_nat (length l) * hi.
Proof. induction 1 as [|x l Hx _ IH]; simpl in *; lia. Qed.

Lemma take_insert_snoc {A} (l : list A) (i : nat) (x : A) : (i < length l)%nat ->
  take (S i) (<[i := x]> l) = take i l ++ [x].
Proof.
  revert i. induction l as [|y l IH]; intros [|i] Hi; simpl in *; try lia; [done|].
  f_equal. apply IH. lia.
Qed.

(** Adding a value to a window that is not full. *)
Lemma push_wf sqrt64 bound rtt s :
  0 < bound -> 2 <= size s -> size s * bound < 2 ^ 63 -> 0 < rtt <= bound ->
  index s < size s -> stat_wf bound s -> stat_wf bound (push sqrt64 rtt s).
Proof.
  intros Hb Hsz Hov Hr Hi (Hidx & Hlen & Hwf). unfold push.
  assert (Z.to_nat (index s) < length (previousRtts s))%nat as Hlt by lia.
  assert (Z.to_nat (index s + 1) = S (Z.to_nat (index s))) as Hsucc by lia.
  destruct (1 <? index s + 1) eqn:H1.
  - apply Z.ltb_lt in H1. destruct Hwf as (Hmin & Hmax & Hall & Hsum & Hmean); [lia|].
    pose proof (zsum_bounds _ _ _ Hall) as Hzs. unfold window in *.
    rewrite length_take in Hzs.
    assert (Z.of_nat (Nat.min (Z.to_nat (index s)) (length (previousRtts s))) = index s) as Hn by lia.
    rewrite Hn in Hzs.
    assert (0 <= sum s <= index s * bound) as Hs by nia.
    assert (int64 (sum s + rtt) = sum s + rtt) as Hi64 by (apply int64_id; nia).
    unfold stat_wf, window. cbn [index size sum mean minRtt maxRtt previousRtts].
    rewrite length_insert. split; [lia|]. split; [done|]. intros _.
    rewrite Hsucc, take_insert_snoc by done. rewrite Hi64, zsum_app, Z.quot_div_nonneg by nia. simpl.
    split_and!; [| | |lia|lia].
    + destruct (_ || _); lia.
    + destruct (_ <? _); lia.
    + apply Forall_app. split.
      * eapply Forall_impl; [exact Hall|]. simpl. intros x Hx.
        destruct (minRtt s =? 0) eqn:E0, (rtt <? minRtt s) eqn:E1, (maxRtt s <? rtt) eqn:E2; simpl; lia.
      * apply Forall_singleton.
        destruct (minRtt s =? 0) eqn:E0, (rtt <? minRtt s) eqn:E1, (maxRtt s <? rtt) eqn:E2; simpl; lia.
  - apply Z.ltb_ge in H1. assert (index s = 0) as E0 by lia.
    unfold stat_wf, window. cbn [index size sum mean minRtt maxRtt previousRtts].
    rewrite length_insert. split; [lia|]. split; [done|]. intros _.
    rewrite Hsucc, take_insert_snoc by done. rewrite E0. simpl.
    split_and!; [lia|lia|by apply Forall_singleton|lia|by rewrite Z.div_1_r].
Qed.

Lemma restart_wf bound s : 0 < bound -> 2 < size s -> size s * bound < 2 ^ 63 -> index s = size s ->
  stat_wf bound s -> stat_wf bound (restart s) /\ index (restart s) = 2 /\ size (restart s) = size s.
Proof.
  intros Hb Hsz Hov Hi (Hidx & Hlen & Hwf). split; [|done].
  destruct Hwf as (Hmin & Hmax & Hall & Hsum & Hmean); [lia|].
  unfold window in *. rewrite Hi, take_ge in Hall by lia. rewrite Forall_nth in Hall.
  unfold restart. set (r0 := rtt_at s (size s - 2)).
  assert (minRtt s <= r0 <= maxRtt s) as Hr0 by (apply Hall; lia).
  set (r1 := nth (Z.to_nat (size s - 1)) (<[0%nat := r0]> (previousRtts s)) 0).
  assert (minRtt s <= r1 <= maxRtt s) as Hr1.
  { subst r1. rewrite nth_lookup, list_lookup_insert_ne by lia. rewrite <- nth_lookup. apply Hall. lia. }
  clearbody r0 r1. unfold stat_wf, window. cbn [index size sum mean minRtt maxRtt previousRtts].
  rewrite !length_insert. split; [lia|]. split; [done|]. intros _.
  destruct (previousRtts s) as [|a [|b l]]; simpl in Hlen; [lia|lia|]. simpl.
  rewrite int64_id by nia. rewrite Z.quot_div_nonneg by lia.
  split_and!; [lia|lia| |lia|done]. repeat constructor; lia.
Qed.

Lemma update_wf sqrt64 bound rtt s :
  0 < bound -> 2 < size s -> size s * bound < 2 ^ 63 -> 0 < rtt <= bound ->
  stat_wf bound s -> stat_wf bound (update sqrt64 rtt s) /\ size (update sqrt64 rtt s) = size s /\
    0 < index (update sqrt64 rtt s).
Proof.
  intros Hb Hsz Hov Hr Hwf. unfold update. set (s0 := with_last rtt s).
  assert (stat_wf bound s0) as Hwf0 by exact Hwf. change (size s) with (size s0) in *. clearbody s0.
  assert (forall s1, size s1 = size s0 -> stat_wf bound s1 -> index s1 < size s1 ->
    stat_wf bound (push sqrt64 rtt s1) /\ size (push sqrt64 rtt s1) = size s0 /\
    0 < index (push sqrt64 rtt s1)) as Hpush.
  { intros s1 Es Hwf1 Hlt. split.
    - apply push_wf; [exact Hb|lia|by rewrite Es|exact Hr|exact Hlt|exact Hwf1].
    - unfold push. destruct Hwf1 as (? & _). destruct (_ <? _); simpl; lia. }
  destruct (Z.eqb_spec (index s0) (size s0)) as [Hi|Hi].
  - destruct (restart_wf bound s0 Hb Hsz Hov Hi Hwf0) as (Hwf1 & Hi1 & Hs1). apply Hpush; [done|done|lia].
  - apply Hpush; [done|done|]. destruct Hwf0 as (? & _). lia.
Qed.

Lemma initial_wf bound n : 0 <= n -> stat_wf bound (initial n).
Proof.
  intros Hn. unfold stat_wf, initial. simpl. rewrite length_replicate. split_and!; lia.
Qed.

Lemma zsquares_app l1 l2 : zsquares (l1 ++ l2) = zsquares l1 + zsquares l2.
Proof. induction l1 as [|x l1 IH]; simpl in *; lia. Qed.

(** One more value: [k * scatter (l ++ [r])]. *)
Lemma scatter_snoc l r : let k := Z.of_nat (length l) in
  k * scatter (l ++ [r]) = (k + 1) * scatter l + (k * r - zsum l) * (k * r - zsum l).
Proof.
  unfold scatter. rewrite zsquares_app, zsum_app, length_app. simpl.
  replace (Z.of_nat (length l + 1)) with (Z.of_nat (length l) + 1) by lia. ring.
Qed.

Lemma mean_range bound k S : 0 < k -> k <= S <= k * bound -> 1 <= S / k <= bound.
Proof.
  intros Hk HS. split; [apply Z.div_le_lower_bound; lia|].
  rewrite <- (Z.div_mul bound k) by lia. apply Z.div_le_mono; lia.
Qed.

Lemma term_sign k S r m m' e e' bound : 0 < k -> 0 < r <= bound -> 1 <= m <= bound ->
  1 <= m' <= bound -> S = k * m + e -> 0 <= e < k -> S + r = (k + 1) * m' + e' -> 0 <= e' < k + 1 ->
  0 <= (r - m) * (r - m') <= bound * bound.
Proof.
  intros Hk Hr Hm Hm' E1 R1 E2 R2.
  assert ((0 <= r - m /\ 0 <= r - m') \/ (r - m <= 0 /\ r - m' <= 0)) as Hsign; [|destruct Hsign; nia].
  assert ((k + 1) * (m' - r) = k * (m - r) + e - e') as E by lia.
  destruct (Z.lt_trichotomy r m) as [H|[->|H]].
  - right. split; [lia|]. assert (k <= k * (m - r)) by nia. nia.
  - left. split; [lia|]. nia.
  - left. split; [lia|]. assert (k * (m - r) <= - k) by nia. nia.
Qed.

Lemma term_error bound k S r m m' e e' : 0 < k -> 0 < r <= bound -> k <= S <= k * bound ->
  S = k * m + e -> 0 <= e < k -> S + r = (k + 1) * m' + e' -> 0 <= e' < k + 1 ->
  Z.abs (k * (k + 1) * ((r - m) * (r - m')) - (k * r - S) * (k * r - S)) <=
    k * k * (2 * bound + 1).
Proof.
  intros Hk Hr HS E1 R1 E2 R2.
  assert (- (k * bound) <= k * r - S <= k * bound) as Ha by nia.
  assert (k * r - S + e = k * (r - m)) as A1 by lia.
  assert (k * r - S + e' = (k + 1) * (r - m')) as A2 by lia.
  set (a := k * r - S) in *. clearbody a.
  replace (k * (k + 1) * ((r - m) * (r - m'))) with ((k * (r - m)) * ((k + 1) * (r - m'))) by ring.
  rewrite <- A1, <- A2. replace ((a + e) * (a + e') - a * a) with (a * (e + e') + e * e') by ring.
  clear - Hk Ha R1 R2. assert (0 <= e * e' <= k * k) by nia.
  assert (0 <= e + e' <= 2 * k) by lia.
  assert (Z.abs (a * (e + e')) <= (k * bound) * (2 * k)); [|lia].
  rewrite Z.abs_mul. apply Z.mul_le_mono_nonneg; lia.
Qed.

(** The term [update] adds, [m] and [m'] the truncated means before and after:
    it is not negative, and differs from the exact one by the remainders. *)
Lemma welford_term bound k S r m m' : 0 < k -> 0 < r <= bound -> k <= S <= k * bound ->
  m = S / k -> m' = (S + r) / (k + 1) ->
  0 <= (r - m) * (r - m') <= bound * bound /\
  Z.abs (k * (k + 1) * ((r - m) * (r - m')) - (k * r - S) * (k * r - S)) <=
    k * k * (2 * bound + 1).
Proof.
  intros Hk Hr HS -> ->.
  pose proof (Z.div_mod S k ltac:(lia)) as E1. pose proof (Z.mod_pos_bound S k Hk) as R1.
  pose proof (Z.div_mod (S + r) (k + 1) ltac:(lia)) as E2.
  pose proof (Z.mod_pos_bound (S + r) (k + 1) ltac:(lia)) as R2.
  pose proof (mean_range bound k S Hk HS) as Hm.
  pose proof (mean_range bound (k + 1) (S + r) ltac:(lia) ltac:(lia)) as Hm'.
  set (m := S / k) in *. set (m' := (S + r) / (k + 1)) in *.
  set (e := S mod k) in *. set (e' := (S + r) mod (k + 1)) in *. clearbody m m' e e'.
  split; [by apply (term_sign k S r m m' e e')|]. apply (term_error bound k S r m m' e e'); lia.
Qed.

(** One more term keeps the bounds of [sqr_wf]. *)
Lemma sqr_step k sd t d d' a b2 c : 0 < k -> 0 <= sd <= k * b2 -> 0 <= t <= b2 ->
  Z.abs (k * sd - d) <= k * k * c -> Z.abs (k * (k + 1) * t - a * a) <= k * k * c ->
  k * d' = (k + 1) * d + a * a -> 0 <= c ->
  0 <= sd + t <= (k + 1) * b2 /\
  Z.abs ((k + 1) * (sd + t) - d') <= (k + 1) * (k + 1) * c.
Proof.
  intros Hk Hsd Ht Hd He E Hc. split; [lia|].
  assert (k * ((k + 1) * (sd + t) - d') =
    (k + 1) * (k * sd - d) + (k * (k + 1) * t - a * a)) as E' by lia.
  set (x := (k + 1) * (sd + t) - d') in *. set (y := k * sd - d) in *.
  set (z := k * (k + 1) * t - a * a) in *. clearbody x y z. clear - Hk Hd He E' Hc.
  assert (k * Z.abs x <= k * ((k + 2) * (k * c))) as Hx.
  { rewrite <- (Z.abs_eq k) at 1 by lia. rewrite <- Z.abs_mul, E'.
    etransitivity; [apply Z.abs_triangle|]. rewrite Z.abs_mul, (Z.abs_eq (k + 1)) by lia.
    assert ((k + 1) * Z.abs y <= (k + 1) * (k * k * c)) by (apply Z.mul_le_mono_nonneg_l; lia). lia. }
  apply Z.mul_le_mono_pos_l in Hx; [|done]. lia.
Qed.

Lemma square_range b x : - b <= x <= b -> 0 <= x * x <= b * b.
Proof. intros Hx. split; [nia|]. rewrite <- (Z.abs_square x). apply Z.mul_le_mono_nonneg; lia. Qed.

(** Nothing that [push] computes wraps. *)
Lemma no_wrap bound n k M : 0 < bound -> 0 <= k < n -> n * (bound * bound) < M ->
  bound <= bound * bound /\ (k + 1) * (bound * bound) < M /\ (k + 1) * bound < M /\ bound * bound < M.
Proof.
  intros Hb Hk Hov. assert (bound <= bound * bound) by nia.
  assert ((k + 1) * (bound * bound) <= n * (bound * bound)) by (apply Z.mul_le_mono_nonneg_r; lia).
  assert ((k + 1) * bound <= (k + 1) * (bound * bound)) by (apply Z.mul_le_mono_nonneg_l; lia).
  assert (1 * (bound * bound) <= (k + 1) * (bound * bound)) by (apply Z.mul_le_mono_nonneg_r; lia).
  lia.
Qed.

Lemma push_sqr sqrt64 bound rtt s :
  0 < bound -> 2 <= size s -> size s * (bound * bound) < 2 ^ 63 -> 0 < rtt <= bound ->
  index s < size s -> stat_wf bound s -> sqr_wf bound s ->
  sqr_wf bound (push sqrt64 rtt s) /\
  stdDev (push sqrt64 rtt s) =
    (if 1 <? index (push sqrt64 rtt s)
     then sqrt64 (sqrDiff (push sqrt64 rtt s) / index (push sqrt64 rtt s)) else 0).
Proof.
  intros Hb Hsz Hov Hr Hi (Hidx & Hlen & Hwf) Hsq. unfold push.
  assert (Z.to_nat (index s) < length (previousRtts s))%nat as Hlt by lia.
  assert (Z.to_nat (index s + 1) = S (Z.to_nat (index s))) as Hsucc by lia.
  destruct (1 <? index s + 1) eqn:H1; unfold sqr_wf, window;
    cbn [index size sum mean minRtt maxRtt previousRtts sqrDiff stdDev];
    rewrite ?H1, ?Hsucc, take_insert_snoc by done.
  - apply Z.ltb_lt in H1. destruct Hwf as (Hmin & Hmax & Hall & Hsum & Hmean); [lia|].
    destruct Hsq as [Hsq1 Hsq2]; [lia|]. pose proof (zsum_bounds _ _ _ Hall) as Hzs.
    assert (Z.of_nat (length (window s)) = index s) as Hw by (unfold window; rewrite length_take; lia).
    pose proof (scatter_snoc (window s) rtt) as Hsc. cbv zeta in Hsc. rewrite Hw in Hzs, Hsc.
    unfold window in *. set (w := take _ _) in *. clearbody w. rewrite Hsum in Hmean |- *.
    set (k := index s) in *. set (sd := sqrDiff s) in *. clearbody k sd.
    assert (k <= zsum w <= k * bound) as HS.
    { split; [|etransitivity; [apply Hzs|apply Z.mul_le_mono_nonneg_l; lia]].
      etransitivity; [|apply Hzs]. rewrite <- (Z.mul_1_r k) at 1. apply Z.mul_le_mono_nonneg_l; lia. }
    destruct (no_wrap bound (size s) k (2 ^ 63) Hb ltac:(lia) Hov) as (Hb2 & Hk2 & Hk1 & Hb3).
    rewrite (int64_id (zsum w + rtt)) by lia. rewrite Z.quot_div_nonneg by lia.
    pose proof (mean_range bound k (zsum w) ltac:(lia) HS) as Hm. rewrite <- Hmean in Hm.
    pose proof (mean_range bound (k + 1) (zsum w + rtt) ltac:(lia) ltac:(lia)) as Hm'.
    destruct (welford_term bound k (zsum w) rtt (mean s) ((zsum w + rtt) / (k + 1)))
      as [Ht He]; [lia|lia|lia|done|done|].
    set (m' := (zsum w + rtt) / (k + 1)) in *. set (m := mean s) in *. clearbody m m'.
    rewrite (int64_id (rtt - m)), (int64_id (rtt - m')) by lia.
    set (tm := (rtt - m) * (rtt - m')) in *. clearbody tm.
    destruct (sqr_step k sd tm (scatter w) (scatter (w ++ [rtt])) (k * rtt - zsum w) (bound * bound)
      (2 * bound + 1)) as [Hr1 Hr2]; [lia|done|done|done|done|done|lia|].
    rewrite (int64_id tm) by lia. rewrite (int64_id (sd + tm)) by lia.
    split; [done|]. rewrite Z.quot_div_nonneg by lia. done.
  - apply Z.ltb_ge in H1. assert (index s = 0) as E0 by lia. rewrite E0. split; [|done].
    intros _. unfold scatter. simpl. nia.
Qed.

Lemma restart_sqr bound s : 0 < bound -> 2 < size s -> size s * (bound * bound) < 2 ^ 63 ->
  index s = size s -> stat_wf bound s -> sqr_wf bound (restart s).
Proof.
  intros Hb Hsz Hov Hi (Hidx & Hlen & Hwf) _.
  destruct Hwf as (Hmin & Hmax & Hall & Hsum & Hmean); [lia|].
  unfold window in *. rewrite Hi, take_ge in Hall by lia. rewrite Forall_nth in Hall.
  unfold restart. set (r0 := rtt_at s (size s - 2)).
  assert (minRtt s <= r0 <= maxRtt s) as Hr0 by (apply Hall; lia).
  set (r1 := nth (Z.to_nat (size s - 1)) (<[0%nat := r0]> (previousRtts s)) 0).
  assert (minRtt s <= r1 <= maxRtt s) as Hr1.
  { subst r1. rewrite nth_lookup, list_lookup_insert_ne by lia. rewrite <- nth_lookup. apply Hall. lia. }
  clearbody r0 r1. unfold window. cbn [index sqrDiff previousRtts]. unfold square.
  destruct (no_wrap bound (size s) 1 (2 ^ 63) Hb ltac:(lia) Hov) as (Hb2 & Hk2 & Hk1 & Hb3).
  destruct (previousRtts s) as [|a [|b l]]; simpl in Hlen; [lia|lia|].
  assert (take (Z.to_nat 2) (<[1%nat:=r1]> (<[0%nat:=r0]> (a :: b :: l))) = [r0; r1]) as -> by done.
  rewrite (int64_id (r0 + r1)) by lia. rewrite Z.quot_div_nonneg by lia.
  pose proof (Z.div_mod (r0 + r1) 2 ltac:(lia)) as E. pose proof (Z.mod_pos_bound (r0 + r1) 2 ltac:(lia)).
  set (m := (r0 + r1) / 2) in *. set (e := (r0 + r1) mod 2) in *. clearbody m e.
  rewrite (int64_id (r0 - m)), (int64_id (r1 - m)) by lia.
  assert (0 <= (r0 - m) * (r0 - m) <= bound * bound) by (apply square_range; lia).
  assert (0 <= (r1 - m) * (r1 - m) <= bound * bound) by (apply square_range; lia).
  rewrite (int64_id ((r0 - m) * (r0 - m))), (int64_id ((r1 - m) * (r1 - m))) by lia.
  rewrite int64_id by lia. unfold scatter. simpl. split; [lia|].
  assert (r1 = 2 * m + e - r0) as -> by lia.
  match goal with |- Z.abs ?x <= _ => replace x with (e * e) by ring end. nia.
Qed.

Lemma update_sqr sqrt64 bound rtt s :
  0 < bound -> 2 < size s -> size s * (bound * bound) < 2 ^ 63 -> 0 < rtt <= bound ->
  stat_wf bound s -> sqr_wf bound s ->
  sqr_wf bound (update sqrt64 rtt s) /\
  stdDev (update sqrt64 rtt s) =
    (if 1 <? index (update sqrt64 rtt s)
     then sqrt64 (sqrDiff (update sqrt64 rtt s) / index (update sqrt64 rtt s)) else 0).
Proof.
  intros Hb Hsz Hov Hr Hwf Hsq. unfold update. set (s0 := with_last rtt s).
  assert (stat_wf bound s0) as Hwf0 by exact Hwf. assert (sqr_wf bound s0) as Hsq0 by exact Hsq.
  change (size s) with (size s0) in *. clearbody s0.
  assert (size s0 * bound < 2 ^ 63) as Hov1 by nia.
  destruct (Z.eqb_spec (index s0) (size s0)) as [Hi|Hi].
  - destruct (restart_wf bound s0 Hb Hsz Hov1 Hi Hwf0) as (Hwf1 & Hi1 & Hs1).
    apply push_sqr; rewrite ?Hs1, ?Hi1; try lia; [exact Hwf1|by apply restart_sqr].
  - apply push_sqr; try done; [lia|]. destruct Hwf0 as (? & _). lia.
Qed.

(** * Properties *)

(** C40: the running sum of squared differences. After any answers with
    round-trip times up to [bound], where an array full of squares fits in 64
    bits, it has not wrapped: it lies between zero and [index * bound^2], and
    [index] times it differs from the exact [scatter] of the window (the number
    of values times their sum of squared differences to the true mean) by at
    most [index^2 * (2 * bound + 1)], the price of the truncated means; the
    deviation is the square root of its quotient. *)
Theorem sqrDiff_exact_enough (sqrt64 : Z -> Z) (bound n : Z) (rtts : list Z) :
  0 < bound -> 2 < n -> n * (bound * bound) < 2 ^ 63 -> rtts <> [] ->
  Forall (fun r => 0 < r <= bound) rtts ->
  let s := updates sqrt64 rtts (initial n) in
  0 < index s <= n /\
  0 <= sqrDiff s <= index s * (bound * bound) /\
  Z.abs (index s * sqrDiff s - scatter (window s)) <= index s * index s * (2 * bound + 1) /\
  stdDev s = (if 1 <? index s then sqrt64 (sqrDiff s / index s) else 0).
Proof.
  intros Hb Hn Hov Hne Hall. cbv zeta. assert (n * bound < 2 ^ 63) as Hov1 by nia.
  destruct (exists_last Hne) as (l & r & ->). unfold updates. rewrite foldl_app. simpl.
  apply Forall_app in Hall as [Hall [Hr _]%Forall_cons].
  assert (forall s, size s = n -> stat_wf bound s -> sqr_wf bound s ->
    let s' := foldl (fun s rtt => update sqrt64 rtt s) s l in
    size s' = n /\ stat_wf bound s' /\ sqr_wf bound s') as Hrun.
  { clear - Hb Hn Hov Hov1 Hall. induction Hall as [|x l Hx _ IH]; intros s Hs Hwf Hsq; [done|].
    simpl. destruct (update_wf sqrt64 bound x s) as (Hwf' & Hs' & _); [lia|lia|by rewrite Hs|done|done|].
    apply IH; [lia|done|]. apply update_sqr; [lia|lia|by rewrite Hs|done|done|done]. }
  destruct (Hrun (initial n)) as (Hs & Hwf & Hsq); [done|apply initial_wf; lia| |].
  { intros Hi. simpl in Hi. lia. }
  set (s := foldl _ _ _) in *. clearbody s.
  destruct (update_wf sqrt64 bound r s) as (Hwf' & Hs' & Hi'); [lia|lia|by rewrite Hs|done|done|].
  destruct (update_sqr sqrt64 bound r s) as (Hsq' & Hsd); [lia|lia|by rewrite Hs|done|done|done|].
  destruct (Hsq' Hi') as [H1 H2]. split; [|done]. destruct Hwf' as (? & _). lia.
Qed.

(** the latency statistics after any answers with round-trip times up to
    [bound], as long as a full array cannot overflow the sum: the window never
    exceeds the array, the mean is the mean of the window, and it lies between
    the minimum and maximum reported, which bound every value of the window. *)
Lemma statistics_bounds (sqrt64 : Z -> Z) (bound n : Z) (rtts : list Z) :
  0 < bound -> 2 < n -> n * bound < 2 ^ 63 -> rtts <> [] ->
  Forall (fun r => 0 < r <= bound) rtts ->
  let s := updates sqrt64 rtts (initial n) in
  0 < index s <= n /\ mean s = zsum (window s) / index s /\
  0 < minRtt s <= mean s /\ mean s <= maxRtt s <= bound /\
  Forall (fun r => minRtt s <= r <= maxRtt s) (window s).
Proof.
  intros Hb Hn Hov Hne Hall.
  assert (forall rtts s, Forall (fun r => 0 < r <= bound) rtts -> size s = n -> stat_wf bound s ->
    stat_wf bound (updates sqrt64 rtts s) /\ size (updates sqrt64 rtts s) = n /\
    (rtts <> [] \/ 0 < index s -> 0 < index (updates sqrt64 rtts s))) as Hrun.
  { clear - Hb Hn Hov. intros rtts s Hall. revert s.
    induction Hall as [|r rtts Hr _ IH]; intros s Hs Hwf; [by split_and!; [| |intros [|]]|].
    destruct (update_wf sqrt64 bound r s) as (Hwf' & Hs' & Hi'); [lia|lia|by rewrite Hs|done|done|].
    destruct (IH (update sqrt64 r s)) as (IH1 & IH2 & IH3); [lia|done|]. split_and!; [done|done|].
    intros _. apply IH3. by right. }
  destruct (Hrun rtts (initial n) Hall) as (Hwf & Hs & Hpos); [done|apply initial_wf; lia|].
  intros s. fold s in Hwf, Hs, Hpos. destruct Hwf as (Hidx & Hlen & Hwf).
  assert (0 < index s) as Hi by (apply Hpos; by left).
  destruct (Hwf Hi) as (Hmin & Hmax & Hwin & Hsum & Hmean).
  pose proof (zsum_bounds _ _ _ Hwin) as Hz.
  assert (Z.of_nat (length (window s)) = index s) as Hw by (unfold window; rewrite length_take; lia).
  rewrite Hw in Hz. rewrite Hmean, Hsum.
  assert (minRtt s <= zsum (window s) / index s) by (apply Z.div_le_lower_bound; lia).
  assert (zsum (window s) / index s <= maxRtt s).
  { rewrite <- (Z.div_mul (maxRtt s) (index s)) by lia. apply Z.div_le_mono; lia. }
  split_and!; lia || done.
Qed.

(** Round-trip times alternating between 1 ns and half a second. *)
Definition jitter (n : nat) : list Z := concat (replicate n [1; 500000000]).

(** The sum of squared differences is not protected against overflow: with
    an array of 1000 and answers that take at most half a second it becomes
    negative, so the deviation is the square root of a negative number. *)
Lemma sqrDiff_overflows (sqrt64 : Z -> Z) : exists rtts,
  (length rtts < 1000)%nat /\ Forall (fun r => 0 < r <= 500000000) rtts /\
  sqrDiff (updates sqrt64 rtts (initial 1000)) < 0.
Proof.
  exists (jitter 80). split; [vm_compute; lia|]. split.
  - unfold jitter. generalize 80%nat. induction n as [|n IH]; [constructor|].
    simpl. repeat (constructor; [lia|]). exact IH.
  - vm_compute. reflexivity.
Qed.

(** Six answers with an array of four: 20, 30 and 40 overwrite the oldest. *)
Lemma sqrDiff_exact_enough_witness :
  let s := updates Z.sqrt [10; 20; 31; 40; 50; 73] (initial 4) in
  index s = 4 /\ sqrDiff s = 1016 /\ scatter (window s) = 3924 /\ stdDev s = 15 /\
  Z.abs (4 * 1016 - 3924) <= 16 * (2 * 100 + 1).
Proof.
  destruct (sqrDiff_exact_enough Z.sqrt 100 4 [10; 20; 31; 40; 50; 73]) as (_ & _ & Hm & Hs);
    [lia|lia|lia|discriminate|repeat constructor; lia|].
  split; [reflexivity|]. split; [reflexivity|]. split; [reflexivity|]. split; [exact Hs|exact Hm].
Defined.

Lemma statistics_bounds_witness :
  let s := updates Z.sqrt [10; 20; 30; 40; 50] (initial 4) in
  index s = 3 /\ 0 < minRtt s <= mean s /\ mean s = 40.
Proof.
  destruct (statistics_bounds Z.sqrt 100 4 [10; 20; 30; 40; 50]) as (_ & _ & Hm & _);
    [lia|lia|lia|discriminate|repeat constructor; lia|].
  split; [reflexivity|]. split; [exact Hm|reflexivity].
Defined.
End Statistics.

Module Pinger.
Import Statistics.

Inductive ConnectionStatus := StatusUnset | Connected | ConnectionUnknown | ConnectionError.

#[global] Instance ConnectionStatus_eq_dec : EqDecision ConnectionStatus.
Proof. solve_decision. Defined.

Inductive failure := NoFailure | FailedToCreate | FailedToPing | FailedToRun.

#[global] Instance failure_eq_dec : EqDecision failure.
Proof. solve_decision. Defined.

Record Config := mkConfig {
  cfg_IP : string;
  cfg_Interval : Z;
  cfg_Timeout : Z;
  cfg_MaxPacketLossCount : Z;
}.

(** [pingerImpl], with the counters of the library pinger of the current run;
    [run_stopped] says that run was told to stop. *)
Record pingerImpl := mkPinger {
  ip : string;
  pingInterval : Z;
  pingTimeout : Z;
  maxPacketLossCount : Z;
  stats : statistics;
  failureMsg : failure;
  connectionStatus : ConnectionStatus;
  sendErrors : Z;
  stopCh_closed : bool;
  PacketsSent : Z;
  PacketsRecv : Z;
  run_stopped : bool;
}.

Definition defaultMaxPacketLossCount : Z := 5.
Definition defaultPingInterval : Z := 1000000000.
Definition defaultPingTimeout : Z := 87600 * 3600 * 1000000000.

Definition NewPinger (config : Config) : pingerImpl :=
  mkPinger (cfg_IP config)
    (if cfg_Interval config =? 0 then defaultPingInterval else cfg_Interval config)
    (if cfg_Timeout config =? 0 then defaultPingTimeout else cfg_Timeout config)
    (if cfg_MaxPacketLossCount config =? 0 then defaultMaxPacketLossCount else cfg_MaxPacketLossCount config)
    (initial 1000) NoFailure StatusUnset 0 false 0 0 false.

Definition set_status (st : ConnectionStatus) (f : failure) (p : pingerImpl) : pingerImpl :=
  mkPinger (ip p) (pingInterval p) (pingTimeout p) (maxPacketLossCount p) (stats p) f st
    (sendErrors p) (stopCh_closed p) (PacketsSent p) (PacketsRecv p) (run_stopped p).
Definition set_counters (sent recv errs : Z) (p : pingerImpl) : pingerImpl :=
  mkPinger (ip p) (pingInterval p) (pingTimeout p) (maxPacketLossCount p) (stats p) (failureMsg p)
    (connectionStatus p) errs (stopCh_closed p) sent recv (run_stopped p).
Definition set_run (stopped : bool) (p : pingerImpl) : pingerImpl :=
  mkPinger (ip p) (pingInterval p) (pingTimeout p) (maxPacketLossCount p) (stats p) (failureMsg p)
    (connectionStatus p) (sendErrors p) (stopCh_closed p) (PacketsSent p) (PacketsRecv p) stopped.
Definition set_stats (s : statistics) (p : pingerImpl) : pingerImpl :=
  mkPinger (ip p) (pingInterval p) (pingTimeout p) (maxPacketLossCount p) s (failureMsg p)
    (connectionStatus p) (sendErrors p) (stopCh_closed p) (PacketsSent p) (PacketsRecv p) (run_stopped p).

(** [Stop]: closing a closed channel is avoided; the run is told to stop. *)
Definition Stop (p : pingerImpl) : pingerImpl :=
  mkPinger (ip p) (pingInterval p) (pingTimeout p) (maxPacketLossCount p) (stats p) (failureMsg p)
    (connectionStatus p) (sendErrors p) true (PacketsSent p) (PacketsRecv p) true.

Definition checkPacketLoss (p : pingerImpl) : pingerImpl :=
  if maxPacketLossCount p <? PacketsSent p + sendErrors p - PacketsRecv p
  then set_run true (set_status ConnectionError FailedToPing p)
  else p.

(** What happens to a pinger: [doPing] fails to create the library pinger or
    starts a run; the library counts a packet it sent and calls [OnSend], calls
    [OnSendError], counts an answer and calls [OnRecv]; the run ends with an
    error. *)
Inductive ping_event :=
| EvCreateFailed
| EvRun
| EvSend
| EvSendError (enobufs : bool)
| EvRecv (rtt : Z)
| EvRunFailed.

Section step.
Variable sqrt64 : Z -> Z.

Definition OnSend (p : pingerImpl) : pingerImpl := checkPacketLoss p.

Definition OnSendError (enobufs : bool) (p : pingerImpl) : pingerImpl :=
  if enobufs then p
  else checkPacketLoss (set_counters (PacketsSent p) (PacketsRecv p) (int32 (sendErrors p + 1)) p).

Definition OnRecv (rtt : Z) (p : pingerImpl) : pingerImpl :=
  set_counters 0 0 0 (set_stats (update sqrt64 rtt (stats p)) (set_status Connected NoFailure p)).

Definition run_failed (p : pingerImpl) : pingerImpl :=
  set_status (match connectionStatus p with ConnectionError => ConnectionError | _ => ConnectionUnknown end)
    FailedToRun p.

Definition ping_step (p : pingerImpl) (e : ping_event) : pingerImpl :=
  match e with
  | EvCreateFailed => set_status ConnectionUnknown FailedToCreate p
  | EvRun => set_run (stopCh_closed p) (set_counters 0 0 (sendErrors p) p)
  | EvSend => OnSend (set_counters (PacketsSent p + 1) (PacketsRecv p) (sendErrors p) p)
  | EvSendError enobufs => OnSendError enobufs p
  | EvRecv rtt => OnRecv rtt (set_counters (PacketsSent p) (PacketsRecv p + 1) (sendErrors p) p)
  | EvRunFailed => run_failed p
  end.

Definition ping_run (p : pingerImpl) (es : list ping_event) : pingerImpl := foldl ping_step p es.

(** [GetLatencyInfo], durations in nanoseconds. *)
Record LatencyInfo := mkLatencyInfo {
  li_error : failure;
  li_status : ConnectionStatus;
  li_IP : string;
  li_last : Z; li_min : Z; li_average : Z; li_max : Z; li_stddev : Z;
}.

Definition GetLatencyInfo (p : pingerImpl) : LatencyInfo :=
  mkLatencyInfo (failureMsg p) (connectionStatus p) (ip p) (lastRtt (stats p)) (minRtt (stats p))
    (mean (stats p)) (maxRtt (stats p)) (stdDev (stats p)).
End step.

(** A packet that was lost: sent without an answer, or not sent. *)
Definition is_loss (e : ping_event) : Prop :=
  match e with EvSend | EvSendError false => True | _ => False end.

(** * Lemmas *)
Section lemmas.
Variable sqrt64 : Z -> Z.

Lemma checkPacketLoss_frame p :
  maxPacketLossCount (checkPacketLoss p) = maxPacketLossCount p /\
  PacketsSent (checkPacketLoss p) = PacketsSent p /\ PacketsRecv (checkPacketLoss p) = PacketsRecv p /\
  sendErrors (checkPacketLoss p) = sendErrors p.
Proof. unfold checkPacketLoss. by destruct (_ <? _). Qed.

(** Losses: each adds one to the count that is compared with the threshold. *)
Lemma loss_step p e : is_loss e -> 0 <= sendErrors p -> sendErrors p < 2 ^ 31 - 1 ->
  let p' := ping_step sqrt64 p e in
  let lost q := PacketsSent q + sendErrors q - PacketsRecv q in
  lost p' = lost p + 1 /\ maxPacketLossCount p' = maxPacketLossCount p /\
  sendErrors p <= sendErrors p' <= sendErrors p + 1 /\
  connectionStatus p' = (if maxPacketLossCount p <? lost p + 1 then ConnectionError else connectionStatus p).
Proof.
  intros He H0 Hov. assert (int32 (sendErrors p + 1) = sendErrors p + 1) as Hi32.
  { unfold int32. rewrite Z.mod_small; lia. }
  destruct e as [| | |[]| |]; try done; simpl.
  - unfold OnSend, checkPacketLoss. cbn [PacketsSent PacketsRecv sendErrors maxPacketLossCount set_counters].
    replace (PacketsSent p + 1 + sendErrors p - PacketsRecv p) with
      (PacketsSent p + sendErrors p - PacketsRecv p + 1) by lia.
    destruct (_ <? _); simpl; split_and!; lia || done.
  - unfold OnSendError, checkPacketLoss. cbn [PacketsSent PacketsRecv sendErrors maxPacketLossCount set_counters].
    rewrite Hi32.
    replace (PacketsSent p + (sendErrors p + 1) - PacketsRecv p) with
      (PacketsSent p + sendErrors p - PacketsRecv p + 1) by lia.
    destruct (_ <? _); simpl; split_and!; lia || done.
Qed.

Lemma losses_run es : forall p, Forall is_loss es -> 0 <= sendErrors p ->
  sendErrors p + Z.of_nat (length es) < 2 ^ 31 ->
  let p' := ping_run sqrt64 p es in
  let lost q := PacketsSent q + sendErrors q - PacketsRecv q in
  lost p' = lost p + Z.of_nat (length es) /\
  (es = [] \/ connectionStatus p' = (if maxPacketLossCount p <? lost p + Z.of_nat (length es)
                                     then ConnectionError else connectionStatus p)).
Proof.
  induction es as [|e es IH]; intros p Hall H0 Hov; simpl in *; [split; [lia|by left]|].
  apply Forall_cons in Hall as [He Hall].
  destruct (loss_step p e He H0) as (Hl & Hm & Hs & Hst); [lia|]. simpl in Hl, Hst.
  destruct (IH (ping_step sqrt64 p e) Hall) as [IHl IHst]; [lia|lia|]. simpl in IHl, IHst.
  split; [unfold ping_run in *; simpl; lia|]. right. unfold ping_run in *. simpl.
  destruct IHst as [->|IHst].
  - simpl. rewrite Hst. replace (Z.of_nat 1) with 1 by lia. done.
  - rewrite IHst, Hm, Hst, Hl. 
    replace (Z.of_nat (S (length es))) with (1 + Z.of_nat (length es)) by lia.
    destruct (Z.ltb_spec (maxPacketLossCount p) (PacketsSent p + sendErrors p - PacketsRecv p + 1)),
      (Z.ltb_spec (maxPacketLossCount p) (PacketsSent p + sendErrors p - PacketsRecv p + 1 + Z.of_nat (length es))),
      (Z.ltb_spec (maxPacketLossCount p) (PacketsSent p + sendErrors p - PacketsRecv p + (1 + Z.of_nat (length es))));
      try done; lia.
Qed.
End lemmas.

(** * Properties *)

(** after an answer, any sequence of packets sent without an answer or not
    sent at all makes the connection an error exactly when there are more of
    them than the packet-loss threshold. *)
Lemma pinger_threshold (sqrt64 : Z -> Z) (p : pingerImpl) (rtt : Z) (losses : list ping_event) :
  0 <= maxPacketLossCount p -> Forall is_loss losses -> Z.of_nat (length losses) < 2 ^ 31 ->
  connectionStatus (ping_run sqrt64 p (EvRecv rtt :: losses)) =
    (if maxPacketLossCount p <? Z.of_nat (length losses) then ConnectionError else Connected).
Proof.
  intros Hm Hall Hlen. unfold ping_run. cbn [foldl ping_step]. fold (ping_run sqrt64).
  destruct (losses_run sqrt64 losses (OnRecv sqrt64 rtt (set_counters (PacketsSent p) (PacketsRecv p + 1)
    (sendErrors p) p)) Hall) as [_ [->|Hst]]; [done|done| |].
  - change (Z.of_nat (@length ping_event [])) with 0. by rewrite (proj2 (Z.ltb_ge _ _) Hm).
  - unfold ping_run in Hst. rewrite Hst. simpl. by rewrite Z.add_0_l.
Qed.

(** An error stays until an answer comes back, whatever else happens, unless the
    library pinger cannot be created. *)
Lemma error_kept (sqrt64 : Z -> Z) (p : pingerImpl) (es : list ping_event) :
  Forall (fun e => match e with EvRecv _ | EvCreateFailed => False | _ => True end) es ->
  connectionStatus p = ConnectionError -> connectionStatus (ping_run sqrt64 p es) = ConnectionError.
Proof.
  intros Hall. unfold ping_run. revert p. induction Hall as [|e es He _ IH]; intros p Hp; [done|]. simpl. apply IH.
  destruct e as [| | |b| |]; simpl; try done.
  - unfold OnSend, checkPacketLoss. by destruct (_ <? _).
  - unfold OnSendError, checkPacketLoss. destruct b; [done|]. by destruct (_ <? _).
  - unfold run_failed. by rewrite Hp.
Qed.

(** Every run fails on its first send: failed sends count across the restarts. *)
Lemma failing_sends (sqrt64 : Z -> Z) (p : pingerImpl) (n : nat) :
  0 <= sendErrors p -> sendErrors p + Z.of_nat n < 2 ^ 31 -> connectionStatus p <> ConnectionError ->
  (0 < n)%nat ->
  connectionStatus (ping_run sqrt64 p (concat (replicate n [EvRun; EvSendError false; EvRunFailed]))) =
    (if maxPacketLossCount p <? sendErrors p + Z.of_nat n then ConnectionError else ConnectionUnknown).
Proof.
  revert p. induction n as [|n IH]; intros p H0 Hov Hst Hn; [lia|]. clear Hn.
  unfold ping_run. cbn [replicate concat app foldl ping_step]. fold (ping_run sqrt64).
  set (q := run_failed _).
  assert (sendErrors q = sendErrors p + 1 /\ maxPacketLossCount q = maxPacketLossCount p /\
          connectionStatus q = (if maxPacketLossCount p <? sendErrors p + 1 then ConnectionError else ConnectionUnknown))
    as (Hs & Hm & Hq).
  { subst q. unfold OnSendError, checkPacketLoss, run_failed.
    cbn [PacketsSent PacketsRecv sendErrors maxPacketLossCount set_counters set_run].
    assert (int32 (sendErrors p + 1) = sendErrors p + 1) as -> by (unfold int32; rewrite Z.mod_small; lia).
    rewrite Z.add_0_l, Z.sub_0_r. destruct (_ <? _); simpl; [done|]. by destruct (connectionStatus p). }
  clearbody q. destruct (decide (n = 0%nat)) as [->|Hn].
  - cbn [replicate concat foldl]. rewrite Hq. by replace (Z.of_nat 1) with 1 by lia.
  - match goal with |- connectionStatus (foldl _ q ?l) = _ => change (foldl _ q l) with (ping_run sqrt64 q l) end.
    destruct (Z.ltb_spec (maxPacketLossCount p) (sendErrors p + 1)).
    + rewrite error_kept; [|by apply Forall_concat, Forall_replicate; repeat constructor|done].
      by destruct (Z.ltb_spec (maxPacketLossCount p) (sendErrors p + Z.of_nat (S n))); [|lia].
    + rewrite IH, Hs, Hm; [|lia|lia|by rewrite Hq|lia].
      by replace (sendErrors p + 1 + Z.of_nat n) with (sendErrors p + Z.of_nat (S n)) by lia.
Qed.

Definition ex_pinger : pingerImpl := NewPinger (mkConfig "10.0.0.1" 0 0 2).

Lemma pinger_threshold_witness :
  connectionStatus (ping_run Z.sqrt ex_pinger [EvRecv 5; EvSend; EvSend]) = Connected /\
  connectionStatus (ping_run Z.sqrt ex_pinger [EvRecv 5; EvSend; EvSend; EvSendError false]) = ConnectionError.
Proof.
  split.
  - apply (pinger_threshold Z.sqrt ex_pinger 5 [EvSend; EvSend]); [vm_compute; discriminate|repeat constructor|reflexivity].
  - apply (pinger_threshold Z.sqrt ex_pinger 5 [EvSend; EvSend; EvSendError false]);
      [vm_compute; discriminate|repeat constructor|reflexivity].
Defined.
End Pinger.

(** * The running pingers *)
Module PingerController.
Import Pinger.

Record ControllerConfig := mkControllerConfig {
  SupportedIPFamilies : list IPFamily;
  PingInterval : Z;
  MaxPacketLossCount : Z;
}.

(** [controller]: pingers are shared objects, here indices of [heap] with the
    flag set by [Start]. *)
Record controller := mkController {
  config : ControllerConfig;
  heap : list (pingerImpl * bool);
  pingers : gmap string nat;
}.

(** [NewController] panics without families. *)
Definition NewController (c : ControllerConfig) : option controller :=
  match SupportedIPFamilies c with
  | [] => None
  | _ => Some (mkController c [] ∅)
  end.

Definition running (c : controller) (id : nat) : Prop :=
  exists p, heap c !! id = Some (p, true) /\ stopCh_closed p = false.

Definition stop_pinger (id : nat) (c : controller) : controller :=
  mkController (config c) (alter (fun o => (Stop o.1, o.2)) id (heap c)) (pingers c).

Definition with_pingers (f : gmap string nat -> gmap string nat) (c : controller) : controller :=
  mkController (config c) (heap c) (f (pingers c)).

(** [newPingerFunc(pingerConfig)], stored and started. *)
Definition new_pinger (familyCableName healthCheckIP : string) (c : controller) : controller :=
  let cfg := mkConfig healthCheckIP
               (if PingInterval (config c) =? 0 then 0 else 1000000000 * PingInterval (config c)) 0
               (MaxPacketLossCount (config c)) in
  mkController (config c) (heap c ++ [(NewPinger cfg, true)])
    (<[familyCableName := length (heap c)]> (pingers c)).

Definition startPinger (familyCableName healthCheckIP : string) (c : controller) : controller :=
  match pingers c !! familyCableName with
  | Some id =>
      match heap c !! id with
      | Some (p, _) =>
          if ip p =?? healthCheckIP then c
          else new_pinger familyCableName healthCheckIP
                 (with_pingers (delete familyCableName) (stop_pinger id c))
      | None => c
      end
  | None => new_pinger familyCableName healthCheckIP c
  end.

Section handlers.
Context `{K8sNet}.

Definition EndpointCreatedOrUpdated (spec : EndpointSpec) (c : controller) : controller :=
  foldl (fun c family =>
    let healthCheckIP := GetHealthCheckIP spec family in
    if healthCheckIP =?? EmptyString then c
    else startPinger (GetFamilyCableName spec family) healthCheckIP c) c (SupportedIPFamilies (config c)).

Definition remove_pinger (familyCableName : string) (c : controller) : controller :=
  match pingers c !! familyCableName with
  | Some id => with_pingers (delete familyCableName) (stop_pinger id c)
  | None => c
  end.

Definition EndpointRemoved (spec : EndpointSpec) (c : controller) : controller :=
  foldl (fun c family => remove_pinger (GetFamilyCableName spec family) c) c
    (SupportedIPFamilies (config c)).

Definition Get (spec : EndpointSpec) (family : IPFamily) (c : controller) : option pingerImpl :=
  id ← pingers c !! GetFamilyCableName spec family;
  o ← heap c !! id;
  Some o.1.

Definition StopAll (c : controller) : controller :=
  with_pingers (fun _ => ∅) (foldl (fun c kv => stop_pinger kv.2 c) c (map_to_list (pingers c))).

Inductive controller_event :=
| EvCreatedOrUpdated (spec : EndpointSpec)
| EvRemoved (spec : EndpointSpec)
| EvStopAll.

Definition controller_step (c : controller) (e : controller_event) : controller :=
  match e with
  | EvCreatedOrUpdated spec => EndpointCreatedOrUpdated spec c
  | EvRemoved spec => EndpointRemoved spec c
  | EvStopAll => StopAll c
  end.
End handlers.

(** The running pingers are those of the map, one per cable. *)
Definition controller_wf (c : controller) : Prop :=
  (forall id, running c id <-> exists name, pingers c !! name = Some id) /\
  (forall n1 n2 id, pingers c !! n1 = Some id -> pingers c !! n2 = Some id -> n1 = n2).

(** * Lemmas *)

Lemma stop_running id c id' :
  running (stop_pinger id c) id' <-> running c id' /\ id' <> id.
Proof.
  unfold running, stop_pinger. simpl. destruct (decide (id' = id)) as [->|Hne].
  - rewrite list_lookup_alter_eq. split; [|by intros [_ ?]].
    intros (p & Hp & Hs). destruct (heap c !! id) as [[q b]|]; [|done]. simpl in Hp.
    injection Hp as <- _. done.
  - rewrite list_lookup_alter_ne by done. naive_solver.
Qed.

Lemma new_running name hip c id :
  running (new_pinger name hip c) id <-> running c id \/ id = length (heap c).
Proof.
  unfold running, new_pinger. simpl. setoid_rewrite lookup_snoc_Some. split.
  - intros (p & [[? ?]|[? ?]] & ?); [left; by exists p|by right].
  - intros [(p & Hp & Hs)| ->].
    + exists p. split; [left; split; [by eapply lookup_lt_Some|done]|done].
    + eexists. split; [right; split; [done|reflexivity]|done].
Qed.

Lemma running_lt c id : running c id -> (id < length (heap c))%nat.
Proof. intros (p & Hp & _). by eapply lookup_lt_Some. Qed.

Lemma new_pinger_wf name hip c : controller_wf c -> pingers c !! name = None ->
  controller_wf (new_pinger name hip c).
Proof.
  intros [Hrun Hinj] Hn.
  assert (forall n, pingers c !! n <> Some (length (heap c))) as Hfresh.
  { intros n Hl. assert (running c (length (heap c))) as Hr by (apply Hrun; eauto).
    apply running_lt in Hr. lia. }
  split.
  - intros id. rewrite new_running, Hrun. simpl. split.
    + intros [[n Hl]| ->]; [|exists name; apply lookup_insert_eq].
      exists n. rewrite lookup_insert_ne by congruence. done.
    + intros [n Hl]. apply lookup_insert_Some in Hl as [[_ <-]|[_ Hl]]; [by right|left; eauto].
  - intros n1 n2 id. simpl. rewrite !lookup_insert_Some.
    intros [[<- <-]|[_ H1]] [[<- E]|[_ H2]]; try done.
    + by destruct (Hfresh n2).
    + subst. by destruct (Hfresh n1).
    + by eapply Hinj.
Qed.

Lemma remove_wf name id c : controller_wf c -> pingers c !! name = Some id ->
  controller_wf (with_pingers (delete name) (stop_pinger id c)).
Proof.
  intros [Hrun Hinj] Hn. split.
  - intros id'. unfold running at 1. simpl. fold (running (stop_pinger id c) id').
    change (exists p, alter _ id (heap c) !! id' = Some (p, true) /\ stopCh_closed p = false)
      with (running (stop_pinger id c) id').
    rewrite stop_running, Hrun. split.
    + intros [[n Hl] Hne]. exists n. rewrite lookup_delete_ne by congruence. done.
    + intros [n [Hne Hl]%lookup_delete_Some]. split; [by exists n|].
      intros ->. apply Hne. by eapply Hinj.
  - intros n1 n2 id'. simpl. rewrite !lookup_delete_Some. intros [_ H1] [_ H2]. by eapply Hinj.
Qed.

Lemma startPinger_wf name hip c : controller_wf c -> controller_wf (startPinger name hip c).
Proof.
  intros Hwf. unfold startPinger. destruct (pingers c !! name) as [id|] eqn:Hn; [|by apply new_pinger_wf].
  destruct (heap c !! id) as [[p b]|]; [|done]. case_bool_decide; [done|].
  apply new_pinger_wf; [by apply remove_wf|]. simpl. apply lookup_delete_eq.
Qed.

Lemma remove_pinger_wf name c : controller_wf c -> controller_wf (remove_pinger name c).
Proof.
  intros Hwf. unfold remove_pinger. destruct (pingers c !! name) as [id|] eqn:Hn; [|done].
  by apply remove_wf.
Qed.

Lemma stop_all_running l c id :
  running (foldl (fun c (kv : string * nat) => stop_pinger kv.2 c) c l) id <->
  running c id /\ id ∉ l.*2.
Proof.
  revert c. induction l as [|[k i] l IH]; intros c; simpl; [set_solver|].
  rewrite IH, stop_running, not_elem_of_cons. tauto.
Qed.

Lemma StopAll_none c : controller_wf c -> forall id, ~ running (StopAll c) id.
Proof.
  intros [Hrun _] id. unfold StopAll.
  change (running (with_pingers _ ?c') id) with (running c' id).
  rewrite stop_all_running. intros [Hr Hn]. apply Hn. apply Hrun in Hr as [name Hl].
  apply list_elem_of_fmap. exists (name, id). split; [done|]. by apply elem_of_map_to_list.
Qed.

Lemma controller_step_wf `{K8sNet} c e : controller_wf c -> controller_wf (controller_step c e).
Proof.
  intros Hwf. destruct e as [spec|spec|]; simpl.
  - unfold EndpointCreatedOrUpdated. generalize (SupportedIPFamilies (config c)) as fs. intros fs. revert c Hwf.
    induction fs as [|f fs IH]; intros c Hwf; [done|]. simpl. apply IH.
    case_bool_decide; [done|]. by apply startPinger_wf.
  - unfold EndpointRemoved. generalize (SupportedIPFamilies (config c)) as fs. intros fs. revert c Hwf.
    induction fs as [|f fs IH]; intros c Hwf; [done|]. simpl. apply IH. by apply remove_pinger_wf.
  - split; [|intros n1 n2 id Hl; unfold StopAll in Hl; simpl in Hl; by rewrite lookup_empty in Hl].
    intros id. split; [by intros Hr%StopAll_none|].
    intros [n Hl]. unfold StopAll in Hl. simpl in Hl. by rewrite lookup_empty in Hl.
Qed.

(** An update without a health-check address keeps the pinger of the old one. *)
Lemma empty_address_keeps_pinger `{K8sNet} (spec : EndpointSpec) (family : IPFamily) (c : controller) :
  SupportedIPFamilies (config c) = [family] -> GetHealthCheckIP spec family = EmptyString ->
  EndpointCreatedOrUpdated spec c = c.
Proof.
  intros Hf Hip. unfold EndpointCreatedOrUpdated. rewrite Hf. simpl. by rewrite Hip.
Qed.

Lemma startPinger_other name hip c n : n <> name ->
  pingers (startPinger name hip c) !! n = pingers c !! n /\
  (forall id p b, pingers c !! n = Some id -> heap c !! id = Some (p, b) -> controller_wf c ->
     heap (startPinger name hip c) !! id = Some (p, b)).
Proof.
  intros Hn. unfold startPinger.
  destruct (pingers c !! name) as [id0|] eqn:Hl.
  - destruct (heap c !! id0) as [[q b0]|] eqn:Hh; [|done]. case_bool_decide; [done|]. simpl. split.
    + by rewrite lookup_insert_ne, lookup_delete_ne by done.
    + intros id p b Hid Hp [_ Hinj].
      assert (id <> id0) as Hne by (intros ->; apply Hn; by eapply Hinj).
      rewrite lookup_app_l; [by rewrite list_lookup_alter_ne|].
      rewrite length_alter. by eapply lookup_lt_Some.
  - simpl. split; [by rewrite lookup_insert_ne|]. intros id p b _ Hp _.
    by apply lookup_app_l_Some.
Qed.

Lemma startPinger_ip name hip c : controller_wf c -> exists id p,
  pingers (startPinger name hip c) !! name = Some id /\
  heap (startPinger name hip c) !! id = Some (p, true) /\ ip p = hip.
Proof.
  intros [Hrun _]. unfold startPinger.
  assert (forall c', exists id p, pingers (new_pinger name hip c') !! name = Some id /\
            heap (new_pinger name hip c') !! id = Some (p, true) /\ ip p = hip) as Hnew.
  { intros c'. eexists (length (heap c')), _. simpl. rewrite lookup_insert_eq. split; [done|].
    split; [by apply lookup_snoc_Some; right|done]. }
  destruct (pingers c !! name) as [id|] eqn:Hl; [|apply Hnew].
  destruct (proj2 (Hrun id)) as (p & Hp & _); [by exists name|]. rewrite Hp.
  case_bool_decide as Hip; [|apply Hnew]. by exists id, p.
Qed.

Lemma monitor_families `{K8sNet} (spec : EndpointSpec) (family : IPFamily) id p b fs : forall c,
  controller_wf c -> family ∉ fs ->
  pingers c !! GetFamilyCableName spec family = Some id -> heap c !! id = Some (p, b) ->
  let c' := foldl (fun c f => if GetHealthCheckIP spec f =?? EmptyString then c
                              else startPinger (GetFamilyCableName spec f) (GetHealthCheckIP spec f) c) c fs in
  pingers c' !! GetFamilyCableName spec family = Some id /\ heap c' !! id = Some (p, b).
Proof.
  induction fs as [|f fs IH]; intros c Hwf Hni Hp Hh; [done|]. simpl.
  apply not_elem_of_cons in Hni as [Hne Hni]. case_bool_decide; [by apply IH|].
  assert (GetFamilyCableName spec family <> GetFamilyCableName spec f) as Hname
    by (intros [_ E]%GetFamilyCableName_inj; congruence).
  destruct (startPinger_other (GetFamilyCableName spec f) (GetHealthCheckIP spec f) c _ Hname) as [Hp' Hh'].
  apply IH; [by apply startPinger_wf|done|by rewrite Hp'|by apply Hh'].
Qed.

(** * Properties *)

(** through any endpoint events the pingers that run are exactly those
    registered, one per cable, so that none is left behind. *)
Lemma pinger_controller_wf `{K8sNet} (c : controller) (es : list controller_event) :
  controller_wf c -> controller_wf (foldl controller_step c es).
Proof.
  revert c. induction es as [|e es IH]; intros c Hwf; [done|]. simpl. apply IH.
  by apply controller_step_wf.
Qed.

(** After an endpoint event every supported family with a health-check address
    has a pinger of that address, and it runs. *)
Lemma created_monitored `{K8sNet} (c : controller) (spec : EndpointSpec) (family : IPFamily) :
  controller_wf c -> family ∈ SupportedIPFamilies (config c) ->
  NoDup (SupportedIPFamilies (config c)) -> GetHealthCheckIP spec family <> EmptyString ->
  exists p, Get spec family (EndpointCreatedOrUpdated spec c) = Some p /\
    ip p = GetHealthCheckIP spec family /\ stopCh_closed p = false.
Proof.
  intros Hwf Hf Hnd Hip.
  pose proof (controller_step_wf c (EvCreatedOrUpdated spec) Hwf) as Hwf2. simpl in Hwf2.
  unfold EndpointCreatedOrUpdated in *.
  apply list_elem_of_split in Hf as (l1 & l2 & E). rewrite E in *.
  apply NoDup_app in Hnd as (_ & _ & [Hni _]%NoDup_cons). clear E. rewrite foldl_app in *. simpl in *.
  set (c1 := foldl _ c l1) in *.
  assert (controller_wf c1) as Hwf1.
  { subst c1. clear Hwf2. revert c Hwf. induction l1 as [|f l1 IH]; intros c Hwf; [done|]. simpl. apply IH.
    case_bool_decide; [done|]. by apply startPinger_wf. }
  clearbody c1. rewrite bool_decide_false in * by done.
  destruct (startPinger_ip (GetFamilyCableName spec family) (GetHealthCheckIP spec family) c1 Hwf1)
    as (id & p & Hp & Hh & Hpip).
  destruct (monitor_families spec family id p true l2 _ (startPinger_wf _ _ _ Hwf1) Hni Hp Hh) as [Hp2 Hh2].
  exists p. unfold Get. rewrite Hp2. simpl. rewrite Hh2. simpl. split; [done|]. split; [done|].
  destruct Hwf2 as [Hrun _]. destruct (proj2 (Hrun id)) as (q & Hq & Hs); [by eexists|].
  rewrite Hh2 in Hq. by injection Hq as ->.
Qed.

(** * Witness *)
#[local] Existing Instance k8snet_ref.

Definition ex_spec (hc : string) : EndpointSpec :=
  mkSpec "east" "submariner-cable-east" EmptyString
    (match hc with EmptyString => [] | _ => [hc] end) "host" [] EmptyString [] EmptyString [] false "vxlan" ∅.

Definition ex_controller : controller := mkController (mkControllerConfig [IPv4] 0 0) [] ∅.

Lemma pinger_controller_wf_witness :
  controller_wf (foldl controller_step ex_controller
    [EvCreatedOrUpdated (ex_spec "10.0.0.1"); EvCreatedOrUpdated (ex_spec "10.0.0.2"); EvRemoved (ex_spec "10.0.0.2")]).
Proof.
  apply (pinger_controller_wf ex_controller). split.
  - intros id. split; [intros (p & E & _); discriminate|intros [n E]; discriminate].
  - intros n1 n2 id E. discriminate.
Defined.
End PingerController.

(** * The health checker of the cable engine *)
Module HealthChecker.
Import Pinger PingerController.

Record checker := mkChecker { hc_ClusterID : string; pingerController : controller }.

Section handlers.
Context `{K8sNet}.

Definition endpointCreatedOrUpdated (spec : EndpointSpec) (h : checker) : checker :=
  if ClusterID spec =?? hc_ClusterID h then h
  else mkChecker (hc_ClusterID h) (EndpointCreatedOrUpdated spec (pingerController h)).

Definition endpointDeleted (spec : EndpointSpec) (h : checker) : checker :=
  mkChecker (hc_ClusterID h) (EndpointRemoved spec (pingerController h)).

Definition GetEndpointLatencyInfo (spec : EndpointSpec) (ipFamily : IPFamily) (h : checker) : option LatencyInfo :=
  Pinger.GetLatencyInfo <$> Get spec ipFamily (pingerController h).

Definition StopChecker (h : checker) : checker :=
  mkChecker (hc_ClusterID h) (StopAll (pingerController h)).
End handlers.

(** Endpoints of the local cluster are not monitored. *)
Lemma local_not_monitored `{K8sNet} spec h :
  ClusterID spec = hc_ClusterID h -> endpointCreatedOrUpdated spec h = h.
Proof. intros E. unfold endpointCreatedOrUpdated. by rewrite bool_decide_true. Qed.
End HealthChecker.
