(* ===== verification/Syncer.v ===== *)
(** The gateway syncer ([pkg/cableengine/syncer/syncer.go]): the Gateway object
    of this node, built from the engine's connections and their health, and the
    removal of the objects of gateways that stopped reporting. *)
From stdpp Require Import base gmap list strings fin_maps.
From Stdlib Require String.
From Stdlib Require Import ZArith Lia.
From S2P Require Import Prelude GoNet K8s Cidr Endpoint NatDiscovery CableEngine Metrics Pinger.
Import Strconv Endpoint CableEngine.
Local Open Scope Z_scope.

Module Syncer.

(** * The Gateway resource ([pkg/apis/submariner.io/v1/types.go]) *)

Record GatewayStatus := mkGatewayStatus {
  gs_Version : string;
  gs_HAStatus : HAStatus;
  gs_LocalEndpoint : EndpointSpec;
  gs_StatusFailure : string;
  gs_Connections : list Connection;
}.

Record Gateway := mkGateway {
  gw_Name : string;
  gw_Annotations : gmap string string;
  gw_Status : GatewayStatus;
}.

Definition UpdateTimestampAnnotation : string := "update-timestamp".
Definition GatewayUpdateInterval : Z := 5.
Definition GatewayStaleTimeout : Z := GatewayUpdateInterval * 3.

(** The typed client, on a cluster state [C]: [client_List] and [client_Delete],
    and admiral's [util.CreateOrUpdate] over its other calls. *)
Class GatewayClient (C : Type) := {
  client_List : eff C string (list Gateway);
  client_Delete : string -> eff C string unit;
  client_CreateOrUpdate : Gateway -> (Gateway -> Gateway) -> eff C string unit;
}.

Class GatewayClientLaws (C : Type) `{!GatewayClient C} := {
  gateways : C -> gmap string Gateway;
  gateways_named : forall c, map_Forall (fun n g => gw_Name g = n) (gateways c);
  list_ok : forall c l c', client_List c = (Ok l, c') ->
    gateways c' = gateways c /\ forall g, g ∈ l <-> gateways c !! gw_Name g = Some g;
  list_err : forall c e c', client_List c = (Err e, c') -> gateways c' = gateways c;
  delete_ok : forall n c c', client_Delete n c = (Ok tt, c') -> gateways c' = delete n (gateways c);
  delete_err : forall n c e c', client_Delete n c = (Err e, c') -> gateways c' = gateways c;
  cou_ok : forall g f c c', client_CreateOrUpdate g f c = (Ok tt, c') ->
    gateways c' = <[gw_Name g := match gateways c !! gw_Name g with Some x => f x | None => g end]> (gateways c);
  cou_err : forall g f c e c', client_CreateOrUpdate g f c = (Err e, c') -> gateways c' = gateways c;
}.

(** Staleness, and the error that is logged. *)
Inductive stale_error := ErrNoAnnotation | ErrTimestamp (e : num_error).

Definition isGatewayStale (now : Z) (gateway : Gateway) : bool * option stale_error :=
  match gw_Annotations gateway !! UpdateTimestampAnnotation with
  | None => (true, Some ErrNoAnnotation)
  | Some timestamp =>
      match ParseInt timestamp with
      | Err e => (true, Some (ErrTimestamp e))
      | Ok timestampInt => (int64 (timestampInt + GatewayStaleTimeout) <=? now, None)
      end
  end.

Section cleanup.
Context {C : Type} `{!GatewayClient C}.

(** Deletion errors are logged. *)
Definition cleanupStaleGatewayEntries (now : Z) (localGatewayName : string) : eff C string unit :=
  gateways ← client_List;
  for_each (fun gw =>
    if gw_Name gw =?? localGatewayName then mret tt
    else if (isGatewayStale now gw).1 then ignore (client_Delete (gw_Name gw)) else mret tt) gateways.
End cleanup.

(** * Health of a connection *)
Section health.
Context `{K8sNet}.
(** [time.Duration.String], [time.ParseDuration] then [Seconds], and the texts of
    the pinger's failures. *)
Variable DurationString : Z -> string.
Variable DurationSeconds : string -> Z.
Variable failureText : Pinger.failure -> string -> string.

Definition latency_spec (li : Pinger.LatencyInfo) : LatencyRTTSpec :=
  mkLatency (DurationString (Pinger.li_last li)) (DurationString (Pinger.li_min li))
    (DurationString (Pinger.li_average li)) (DurationString (Pinger.li_max li))
    (DurationString (Pinger.li_stddev li)).

Definition set_status (st : ConnectionStatus) (msg : string) (c : Connection) : Connection :=
  mkConnection st msg (conn_Endpoint c) (UsingIP c) (UsingNAT c) (LatencyRTT c).

Definition set_latency (l : LatencyRTTSpec) (hcIP : string) (c : Connection) : Connection :=
  mkConnection (Status c) (StatusMessage c) (SetHealthCheckIP hcIP (conn_Endpoint c)) (UsingIP c)
    (UsingNAT c) (Some l).

(** The body of the loop over the connections: the connection, and the latency
    to record for it. *)
Definition update_connection (healthCheck : HealthChecker.checker) (c : Connection)
    : Connection * option Z :=
  match HealthChecker.GetEndpointLatencyInfo (conn_Endpoint c) (GetFamily c) healthCheck with
  | None => (c, None)
  | Some latencyInfo =>
      let spec := latency_spec latencyInfo in
      let c := set_latency spec (Pinger.li_IP latencyInfo) c in
      let err := failureText (Pinger.li_error latencyInfo) (Pinger.li_IP latencyInfo) in
      match Status c with
      | Connected =>
          (match Pinger.li_status latencyInfo with
           | Pinger.ConnectionError => set_status ConnectionError err c
           | Pinger.ConnectionUnknown => set_status Connected err c
           | _ => set_status Connected EmptyString c
           end, Some (DurationSeconds (Last spec)))
      | ConnectionError =>
          (match Pinger.li_status latencyInfo with
           | Pinger.Connected => set_status Connected EmptyString c
           | _ => c
           end, None)
      | _ => (c, None)
      end
  end.

(** * The syncer *)
Section syncer.
Context {D N G C : Type} `{!Driver D} `{!NATIface N} `{!GaugeVec G} `{!GatewayClient C}.
(** admiral's [resource.EnsureValidName], the text of an engine error, and what
    the writes to the connections that [GetConnections] returned do to the
    driver that returned them. *)
Variable EnsureValidName : string -> string.
Variable error_text : engine_error -> string.
Variable write_slice : list Connection -> D -> D.

Record world := mkWorld {
  w_engine : engine D N;
  w_client : C;
  w_metrics : Metrics.metrics G;
  w_statusError : option string;
}.

(** [GatewaySyncer]: the fixed parts. *)
Record GatewaySyncer := mkSyncer { version : string; healthCheck : option HealthChecker.checker }.

(** [generateGatewayObject]: the connections are written in place. *)
Definition generateGatewayObject (gs : GatewaySyncer) (now : Z) (w : world) : Gateway * world :=
  let e := w_engine w in
  let localSpec := localEndpoint e in
  let '(connections, failure, e) :=
    match w_statusError w with
    | Some err => ([], err, e)
    | None =>
        match ListCableConnections e with
        | (Ok l, e) => (l, EmptyString, e)
        | (Err err, e) => ([], String.append "Error retrieving driver connections: " (error_text err), e)
        end
    end in
  let '(connections, m) :=
    match healthCheck gs with
    | None => (connections, w_metrics w)
    | Some h =>
        (map (fun c => (update_connection h c).1) connections,
         foldl (fun m c =>
           let '(c', lat) := update_connection h c in
           match lat with
           | Some s => Metrics.RecordConnectionLatency (Backend localSpec) localSpec (conn_Endpoint c') s
                         (GetFamily c') m
           | None => m
           end) (w_metrics w) connections)
    end in
  let e := match connections, driver e with
           | _ :: _, Some d => CableEngine.set_driver (Some (write_slice connections d)) e
           | _, _ => e
           end in
  (mkGateway (EnsureValidName (Hostname localSpec)) {[UpdateTimestampAnnotation := Itoa now]}
     (mkGatewayStatus (version gs) (GetHAStatus e) localSpec failure connections),
   mkWorld e (w_client w) m (w_statusError w)).

(** [syncGatewayStatusSafe]; an error is logged. *)
Definition syncGatewayStatusSafe (gs : GatewaySyncer) (now : Z) (w : world) : string * world :=
  let '(gatewayObj, w) := generateGatewayObject gs now w in
  let mutate existing :=
    mkGateway (gw_Name existing)
      (<[UpdateTimestampAnnotation := zget EmptyString (gw_Annotations gatewayObj) UpdateTimestampAnnotation]>
         (gw_Annotations existing)) (gw_Status gatewayObj) in
  let c := (client_CreateOrUpdate gatewayObj mutate (w_client w)).2 in
  (gw_Name gatewayObj, mkWorld (w_engine w) c (w_metrics w) (w_statusError w)).

Definition SetGatewayStatusError (gs : GatewaySyncer) (now : Z) (err : option string) (w : world) : world :=
  (syncGatewayStatusSafe gs now (mkWorld (w_engine w) (w_client w) (w_metrics w) err)).2.

(** One round of [Run]. *)
Definition sync_round (gs : GatewaySyncer) (now : Z) (w : world) : world :=
  let '(gatewayName, w) := syncGatewayStatusSafe gs now w in
  match GetHAStatus (w_engine w) with
  | HAStatusActive =>
      mkWorld (w_engine w) (cleanupStaleGatewayEntries now gatewayName (w_client w)).2 (w_metrics w)
        (w_statusError w)
  | HAStatusPassive => w
  end.

Definition CleanupGatewayEntry (w : world) : world :=
  mkWorld (w_engine w) (client_Delete (EnsureValidName (Hostname (localEndpoint (w_engine w)))) (w_client w)).2
    (w_metrics w) (w_statusError w).
End syncer.
End health.

(** * Lemmas *)
Section lemmas.
Context {C : Type} `{!GatewayClient C} `{!GatewayClientLaws C}.

(** The loop deletes only stale gateways of other nodes. *)
Lemma cleanup_loop now name l : forall c,
  (forall n g, gateways (for_each (E := string) (fun gw =>
     if gw_Name gw =?? name then mret tt
     else if (isGatewayStale now gw).1 then ignore (client_Delete (gw_Name gw)) else mret tt) l c).2 !! n = Some g ->
   gateways c !! n = Some g) /\
  (forall n g, gateways c !! n = Some g ->
   (forall g', g' ∈ l -> gw_Name g' = n -> n = name \/ (isGatewayStale now g').1 = false) ->
   gateways (for_each (E := string) (fun gw =>
     if gw_Name gw =?? name then mret tt
     else if (isGatewayStale now gw).1 then ignore (client_Delete (gw_Name gw)) else mret tt) l c).2 !! n = Some g) /\
  (forall g, (forall n c, is_ok (client_Delete n c).1 = true) -> g ∈ l -> gw_Name g <> name ->
   (isGatewayStale now g).1 = true ->
   gateways (for_each (E := string) (fun gw =>
     if gw_Name gw =?? name then mret tt
     else if (isGatewayStale now gw).1 then ignore (client_Delete (gw_Name gw)) else mret tt) l c).2 !! gw_Name g = None).
Proof.
  induction l as [|gw l IH]; intros c; simpl; [split_and!; [done|done|set_solver]|].
  unfold mbind, eff_bind. case_bool_decide as Hn.
  - simpl. destruct (IH c) as (IH1 & IH2 & IH3). split_and!; [done| |].
    + intros n g Hg Hl. apply IH2; [done|]. intros g' Hg'. apply Hl. by right.
    + intros g Hok [->|Hg]%elem_of_cons; [done|by apply IH3].
  - destruct (isGatewayStale now gw).1 eqn:Hst.
    + unfold ignore. simpl.
      destruct (client_Delete (gw_Name gw) c) as [[[]|e] c1] eqn:Hd; simpl;
        destruct (IH c1) as (IH1 & IH2 & IH3).
      * apply delete_ok in Hd. split_and!.
        -- intros n g Hg%IH1. rewrite Hd in Hg. by apply lookup_delete_Some in Hg as [_ ?].
        -- intros n g Hg Hl. apply IH2.
           ++ rewrite Hd, lookup_delete_ne; [done|]. intros <-.
              destruct (Hl gw) as [?|?]; [by left|done|done|congruence].
           ++ intros g' Hg'. apply Hl. by right.
        -- intros g Hok Hg Hne Hs. apply elem_of_cons in Hg as [->|Hg]; [|by apply IH3].
           destruct (gateways _ !! gw_Name gw) as [x|] eqn:Hx; [|done].
           apply IH1 in Hx. rewrite Hd, lookup_delete_eq in Hx. done.
      * split_and!; [..|].
        -- intros n g Hg%IH1. by rewrite (delete_err _ _ _ _ Hd) in Hg.
        -- intros n g Hg Hl. apply IH2; [by rewrite (delete_err _ _ _ _ Hd)|].
           intros g' Hg'. apply Hl. by right.
        -- intros g Hok. specialize (Hok (gw_Name gw) c). by rewrite Hd in Hok.
    + simpl. destruct (IH c) as (IH1 & IH2 & IH3). split_and!; [done| |].
      * intros n g Hg Hl. apply IH2; [done|]. intros g' Hg'. apply Hl. by right.
      * intros g Hok Hg Hne Hs. apply elem_of_cons in Hg as [->|Hg]; [congruence|by apply IH3].
Qed.
End lemmas.

(** * Properties *)

(** cleaning up stale entries removes Gateway objects only; it never removes
    the local gateway nor one that is not stale, and when the deletions succeed
    no stale gateway of another node is left. *)
Lemma cleanup_stale_exact {C} `{!GatewayClient C} `{!GatewayClientLaws C} (now : Z) (name : string) (c c' : C) :
  cleanupStaleGatewayEntries now name c = (Ok tt, c') ->
  gateways c' ⊆ gateways c /\
  (forall n g, gateways c !! n = Some g -> n = name \/ (isGatewayStale now g).1 = false ->
     gateways c' !! n = Some g) /\
  ((forall n c, is_ok (client_Delete n c).1 = true) ->
   forall n g, gateways c' !! n = Some g -> n = name \/ (isGatewayStale now g).1 = false).
Proof.
  intros Hrun. apply eff_bind_inv in Hrun as [(l & c1 & Hl & Hrun)|(e & _ & [=])].
  destruct (list_ok _ _ _ Hl) as [Hc Hin].
  destruct (cleanup_loop now name l c1) as (H1 & H2 & H3). rewrite Hrun in *. simpl in *.
  rewrite Hc in *. split_and!.
  - apply map_subseteq_spec. apply H1.
  - intros n g Hg Hk. apply H2; [done|]. intros g' Hg' Hn. apply Hin in Hg'. rewrite Hn, Hg in Hg'.
    injection Hg' as <-. done.
  - intros Hok n g Hg. destruct (decide (n = name)) as [|Hne]; [by left|right].
    apply not_true_is_false. intros Hst. pose proof (H1 _ _ Hg) as Hg0.
    pose proof (gateways_named c n g Hg0) as Hname. simpl in Hname. subst n.
    rewrite (H3 g) in Hg; [done|done|by apply Hin|done|done].
Qed.

(** what the syncer publishes at time [t] counts as stale exactly from
    fifteen seconds later, when it created the object and when it updated one. *)
Lemma published_staleness {D N G C} `{K8sNet} `{!Driver D} `{!NATIface N} `{!GaugeVec G} `{!GatewayClient C}
    `{!GatewayClientLaws C} (DurationString : Z -> string) (DurationSeconds : string -> Z)
    (failureText : Pinger.failure -> string -> string) (EnsureValidName : string -> string)
    (error_text : engine_error -> string) (write_slice : list Connection -> D -> D)
    (gs : GatewaySyncer) (t now : Z) (w : world (D := D) (N := N) (G := G) (C := C)) :
  0 <= t < 2 ^ 63 - 15 ->
  (forall g f, is_ok (client_CreateOrUpdate g f (w_client w)).1 = true) ->
  let '(name, w') := syncGatewayStatusSafe DurationString DurationSeconds failureText EnsureValidName
                       error_text write_slice gs t w in
  exists g, gateways (w_client w') !! name = Some g /\ isGatewayStale now g = (t + 15 <=? now, None).
Proof.
  intros Ht Hok. unfold syncGatewayStatusSafe.
  destruct (generateGatewayObject _ _ _ _ _ _ gs t w) as [obj w1] eqn:Hgen.
  assert (gw_Annotations obj = {[UpdateTimestampAnnotation := Itoa t]} /\ w_client w1 = w_client w) as [Ha Hw].
  { unfold generateGatewayObject in Hgen. repeat (case_match; simplify_eq/=; try done). }
  assert (forall ann st n, ann !! UpdateTimestampAnnotation = Some (Itoa t) ->
    isGatewayStale now (mkGateway n ann st) = (t + 15 <=? now, None)) as Hst.
  { intros ann st n E. unfold isGatewayStale. simpl. rewrite E, ParseInt_Itoa by lia.
    unfold GatewayStaleTimeout, GatewayUpdateInterval. rewrite int64_id by lia. done. }
  rewrite Hw. match goal with |- context [client_CreateOrUpdate obj ?f] => specialize (Hok obj f); set (mut := f) in * end.
  destruct (client_CreateOrUpdate obj mut (w_client w)) as [[[]|] c'] eqn:Hc; [|done].
  apply cou_ok in Hc. simpl. rewrite Hc, lookup_insert_eq. eexists. split; [done|].
  destruct (gateways (w_client w) !! gw_Name obj) as [x|].
  - subst mut. simpl. apply Hst. rewrite Ha, lookup_insert_eq. by unfold zget; rewrite lookup_singleton_eq.
  - destruct obj as [n ann st]. simpl in *. subst ann. apply Hst. apply lookup_insert_eq.
Qed.

(** The health of a connection, case by case: a cable that the driver reports
    connected is an error when its pinger lost too many packets, and comes back
    with the pinger's answers; its identity is never touched. *)
Lemma update_connection_status `{K8sNet} DurationString DurationSeconds failureText h c li :
  HealthChecker.GetEndpointLatencyInfo (conn_Endpoint c) (GetFamily c) h = Some li ->
  let c' := (update_connection DurationString DurationSeconds failureText h c).1 in
  Status c' = match Status c, Pinger.li_status li with
              | Connected, Pinger.ConnectionError => ConnectionError
              | ConnectionError, Pinger.Connected => Connected
              | s, _ => s
              end /\
  ClusterID (conn_Endpoint c') = ClusterID (conn_Endpoint c) /\
  CableName (conn_Endpoint c') = CableName (conn_Endpoint c) /\
  UsingIP c' = UsingIP c /\ UsingNAT c' = UsingNAT c.
Proof.
  intros Hli. unfold update_connection. rewrite Hli.
  assert (forall l ip x, ClusterID (conn_Endpoint (set_latency l ip x)) = ClusterID (conn_Endpoint x) /\
            CableName (conn_Endpoint (set_latency l ip x)) = CableName (conn_Endpoint x)) as Hid.
  { intros l ip x. simpl. unfold SetHealthCheckIP. by destruct (setIP _ _ _). }
  destruct (Hid (latency_spec DurationString li) (Pinger.li_IP li) c) as [E1 E2].
  destruct (Status c) eqn:Hs, (Pinger.li_status li) eqn:Hp; simpl; rewrite ?Hs; simpl in *; done.
Qed.

(** * Witnesses *)
#[local] Existing Instance k8snet_ref.
#[local] Existing Instance list_driver.
#[local] Existing Instance ex_nat.
#[local] Existing Instance Metrics.gauge_ref.

(** Gateways that are all named by their key. *)
Definition named_gateways : Type :=
  { m : gmap string Gateway | bool_decide (map_Forall (fun n g => gw_Name g = n) m) = true }.

Definition store (f : gmap string Gateway -> gmap string Gateway) (c : named_gateways) : named_gateways :=
  match decide (map_Forall (fun n g => gw_Name g = n) (f (proj1_sig c))) with
  | left H => exist _ (f (proj1_sig c)) (bool_decide_eq_true_2 _ H)
  | right _ => c
  end.

#[local] Instance client_ref : GatewayClient named_gateways := {|
  client_List := fun c => (Ok (map_to_list (proj1_sig c)).*2, c);
  client_Delete := fun n c => (Ok tt, store (delete n) c);
  client_CreateOrUpdate := fun g f c =>
    let x := match proj1_sig c !! gw_Name g with Some x => f x | None => g end in
    if gw_Name x =?? gw_Name g then (Ok tt, store (insert (gw_Name g) x) c) else (Err EmptyString, c);
|}.

Lemma store_sig f c : map_Forall (fun n g => gw_Name g = n) (f (proj1_sig c)) ->
  proj1_sig (store f c) = f (proj1_sig c).
Proof. intros H. unfold store. by case_decide. Qed.

Lemma named (c : named_gateways) : map_Forall (fun n g => gw_Name g = n) (proj1_sig c).
Proof. destruct c as [m H]. exact (bool_decide_eq_true_1 _ H). Qed.

#[local] Instance client_ref_laws : GatewayClientLaws named_gateways.
Proof.
  refine {| gateways := fun c : named_gateways => proj1_sig c |}; simpl.
  - apply named.
  - intros c l c' E. injection E as <- <-. split; [done|]. intros g. rewrite list_elem_of_fmap. split.
    + intros ([n x] & -> & Hx%elem_of_map_to_list). simpl. by rewrite (named c _ _ Hx).
    + intros Hg. exists (gw_Name g, g). split; [done|]. by apply elem_of_map_to_list.
  - done.
  - intros n c c' E. injection E as <-. apply store_sig. apply map_Forall_delete, named.
  - done.
  - intros g f c c'. case_bool_decide as Hx; [|done]. intros E. injection E as <-. apply store_sig.
    apply map_Forall_insert_2; [done|apply named].
  - intros g f c e c'. case_bool_decide; [done|]. intros E. by injection E as _ <-.
Defined.

Definition no_gateways : named_gateways :=
  exist _ ∅ (bool_decide_eq_true_2 _ (map_Forall_empty _)).

Definition ex_gateway (n t : string) : Gateway :=
  mkGateway n {[UpdateTimestampAnnotation := t]}
    (mkGatewayStatus "1" HAStatusPassive NatDiscovery.ex_west EmptyString []).

Definition ex_client : named_gateways :=
  store (fun _ => {["west"%string := ex_gateway "west" "100"; "old"%string := ex_gateway "old" "100"]})
    no_gateways.

Lemma cleanup_stale_exact_witness : exists c',
  cleanupStaleGatewayEntries 200 "west" ex_client = (Ok tt, c') /\
  is_Some (gateways ex_client !! "old"%string) /\
  gateways c' !! "west"%string = Some (ex_gateway "west" "100").
Proof.
  destruct (cleanupStaleGatewayEntries 200 "west" ex_client) as [r c'] eqn:E.
  assert (r = Ok tt) as ->.
  { change r with (fst (r, c')). rewrite <- E. vm_compute. reflexivity. }
  exists c'. split; [reflexivity|]. split; [eexists; vm_compute; reflexivity|].
  apply (cleanup_stale_exact 200 "west" ex_client c' E); [vm_compute; reflexivity|left; reflexivity].
Defined.

Definition ex_world : world (D := list Connection) (N := NatDiscovery.natDiscovery)
    (G := gmap Labels Z) (C := named_gateways) :=
  mkWorld CableEngine.ex_installed no_gateways Metrics.ex_metrics None.

Definition ex_sync := syncGatewayStatusSafe (fun _ => EmptyString) (fun _ => 0) (fun _ s => s) (fun s => s)
  (fun _ => EmptyString) (fun _ d => d) (mkSyncer "1" None) 100 ex_world.

Lemma published_staleness_witness : exists g,
  gateways (w_client ex_sync.2) !! ex_sync.1 = Some g /\ isGatewayStale 114 g = (false, None).
Proof.
  pose proof (published_staleness (fun _ => EmptyString) (fun _ => 0) (fun _ s => s) (fun s => s)
    (fun _ => EmptyString) (fun _ d => d) (mkSyncer "1" None) 100 114 ex_world) as Hp.
  fold ex_sync in Hp. destruct ex_sync as [name w']. apply Hp.
  - split; [discriminate|reflexivity].
  - intros g f. simpl. rewrite lookup_empty, bool_decide_true by done. done.
Defined.
End Syncer.
