(* ===== verification/PacketFilter.v ===== *)
(** Packet filtering (src/pkg/packetfilter): the rules and the driver interface
    (packetfilter.go), and the adapter that prepends rules and updates chains
    (adapter.go).  Its drivers are in Iptables.v and Nftables.v. *)
From stdpp Require Import base gmap list strings fin_maps fin_sets sorting.
From Stdlib Require String.
From Stdlib Require Import ZArith Lia Ascii.
From S2P Require Import Prelude GoNet K8s Endpoint.
Local Open Scope Z_scope.

Module PacketFilter.

(** * Rules (packetfilter.go)

    The enumerations are 32-bit integers in Go; the rule decoder can produce a
    number that has no name, kept by the [Other] constructors. *)
Inductive TableType := TableTypeFilter | TableTypeRoute | TableTypeNAT.

Inductive RuleAction :=
| RuleActionJump | RuleActionAccept | RuleActionMss | RuleActionMark
| RuleActionSNAT | RuleActionDNAT | RuleActionSelfSNAT
| RuleActionOther (n : Z).

Inductive RuleProto :=
| RuleProtoUndefined | RuleProtoAll | RuleProtoTCP | RuleProtoUDP | RuleProtoICMP
| RuleProtoOther (n : Z).

Inductive MssClampType := UndefinedMSS | ToPMTU | ToValue | MssOther (n : Z).

Inductive ChainHook :=
| ChainHookPrerouting | ChainHookInput | ChainHookForward | ChainHookOutput | ChainHookPostrouting.
Inductive ChainPriority := ChainPriorityFirst | ChainPriorityMiddle | ChainPriorityLast.
Inductive ChainType := ChainTypeFilter | ChainTypeRoute | ChainTypeNAT.
Inductive ChainPolicy := ChainPolicyAccept | ChainPolicyDrop.

#[global] Instance TableType_eq_dec : EqDecision TableType.
Proof. solve_decision. Defined.
#[global] Instance RuleAction_eq_dec : EqDecision RuleAction.
Proof. solve_decision. Defined.
#[global] Instance RuleProto_eq_dec : EqDecision RuleProto.
Proof. solve_decision. Defined.
#[global] Instance MssClampType_eq_dec : EqDecision MssClampType.
Proof. solve_decision. Defined.

Definition TableType_String (t : TableType) : string :=
  match t with TableTypeFilter => "Filter" | TableTypeRoute => "Route" | TableTypeNAT => "NAT" end.

Definition RuleAction_String (r : RuleAction) : string :=
  match r with
  | RuleActionJump => "Jump"
  | RuleActionAccept => "Accept"
  | RuleActionMss => "MSS"
  | RuleActionMark => "Mark"
  | RuleActionSNAT => "SNAT"
  | RuleActionDNAT => "DNAT"
  | RuleActionSelfSNAT => "SelfSNAT"
  | RuleActionOther _ => "???"
  end.

Definition RuleProto_String (r : RuleProto) : string :=
  match r with
  | RuleProtoUndefined => "Undefined"
  | RuleProtoAll => "All"
  | RuleProtoTCP => "TCP"
  | RuleProtoUDP => "UDP"
  | RuleProtoICMP => "ICMP"
  | RuleProtoOther _ => "???"
  end.

Definition MssClampType_String (m : MssClampType) : string :=
  match m with
  | UndefinedMSS => "Undefined"
  | ToPMTU => "ToPMTU"
  | ToValue => "ToValue"
  | MssOther _ => "???"
  end.

Record Rule := mkRule {
  DestCIDR : string;
  SrcCIDR : string;
  SrcSetName : string;
  DestSetName : string;
  SnatCIDR : string;
  DnatCIDR : string;
  OutInterface : string;
  InInterface : string;
  TargetChain : string;
  MssValue : string;
  DPort : string;
  MarkValue : string;
  Action : RuleAction;
  Proto : RuleProto;
  ClampType : MssClampType;
}.

#[global] Instance Rule_eq_dec : EqDecision Rule.
Proof. solve_decision. Defined.

(** [&packetfilter.Rule{}] *)
Definition empty_rule : Rule :=
  mkRule "" "" "" "" "" "" "" "" "" "" "" "" RuleActionJump RuleProtoUndefined UndefinedMSS.

(** The numbers of the enumerations. *)
Definition action_code (a : RuleAction) : Z :=
  match a with
  | RuleActionJump => 0 | RuleActionAccept => 1 | RuleActionMss => 2 | RuleActionMark => 3
  | RuleActionSNAT => 4 | RuleActionDNAT => 5 | RuleActionSelfSNAT => 6 | RuleActionOther n => n
  end.

Definition action_of_code (n : Z) : RuleAction :=
  if n =? 0 then RuleActionJump else if n =? 1 then RuleActionAccept
  else if n =? 2 then RuleActionMss else if n =? 3 then RuleActionMark
  else if n =? 4 then RuleActionSNAT else if n =? 5 then RuleActionDNAT
  else if n =? 6 then RuleActionSelfSNAT else RuleActionOther n.

Definition proto_code (p : RuleProto) : Z :=
  match p with
  | RuleProtoUndefined => 0 | RuleProtoAll => 1 | RuleProtoTCP => 2 | RuleProtoUDP => 3
  | RuleProtoICMP => 4 | RuleProtoOther n => n
  end.

Definition proto_of_code (n : Z) : RuleProto :=
  if n =? 0 then RuleProtoUndefined else if n =? 1 then RuleProtoAll
  else if n =? 2 then RuleProtoTCP else if n =? 3 then RuleProtoUDP
  else if n =? 4 then RuleProtoICMP else RuleProtoOther n.

Definition clamp_code (m : MssClampType) : Z :=
  match m with UndefinedMSS => 0 | ToPMTU => 1 | ToValue => 2 | MssOther n => n end.

Definition clamp_of_code (n : Z) : MssClampType :=
  if n =? 0 then UndefinedMSS else if n =? 1 then ToPMTU else if n =? 2 then ToValue else MssOther n.

Definition rule_strings (r : Rule) : list string :=
  [DestCIDR r; SrcCIDR r; SrcSetName r; DestSetName r; SnatCIDR r; DnatCIDR r; OutInterface r;
   InInterface r; TargetChain r; MssValue r; DPort r; MarkValue r].

(** Rules are compared by value, and used as the keys of a Go map. *)
#[global] Instance RuleAction_countable : Countable RuleAction.
Proof.
  refine (inj_countable' (fun a => match a with RuleActionOther n => inr n | _ => inl (action_code a) end)
    (fun s => match s with inr n => RuleActionOther n | inl n => action_of_code n end) _).
  by intros [].
Defined.
#[global] Instance RuleProto_countable : Countable RuleProto.
Proof.
  refine (inj_countable' (fun a => match a with RuleProtoOther n => inr n | _ => inl (proto_code a) end)
    (fun s => match s with inr n => RuleProtoOther n | inl n => proto_of_code n end) _).
  by intros [].
Defined.
#[global] Instance MssClampType_countable : Countable MssClampType.
Proof.
  refine (inj_countable' (fun a => match a with MssOther n => inr n | _ => inl (clamp_code a) end)
    (fun s => match s with inr n => MssOther n | inl n => clamp_of_code n end) _).
  by intros [].
Defined.
#[global] Instance Rule_countable : Countable Rule.
Proof.
  refine (inj_countable' (fun r => (rule_strings r, Action r, Proto r, ClampType r))
    (fun '(l, a, p, c) => match l with
      | [d; s; ss; ds; sn; dn; o; i; tc; mv; dp; mk] => mkRule d s ss ds sn dn o i tc mv dp mk a p c
      | _ => empty_rule
      end) _).
  by intros [].
Defined.

Record Chain := mkChain { chain_Name : string; chain_Policy : ChainPolicy }.

Record ChainIPHook := mkIPHook {
  hook_Name : string;
  hook_Type : ChainType;
  hook_Hook : ChainHook;
  hook_Priority : ChainPriority;
  hook_Policy : ChainPolicy;
  hook_JumpRule : option Rule;
}.

Record SetInfo := mkSetInfo { set_Name : string; set_SetType : string; set_Table : TableType }.

Definition write_field (label value s : string) : string :=
  if value =?? "" then s else s +:+ ", " +:+ label +:+ ": " +:+ value.

(** [Rule.String] *)
Definition Rule_String (r : Rule) : string :=
  let s := "packetfilter.Rule{Action: " +:+ RuleAction_String (Action r) in
  let s := if Proto r =?? RuleProtoUndefined then s
           else s +:+ ", Proto: " +:+ RuleProto_String (Proto r) in
  let s := if ClampType r =?? UndefinedMSS then s
           else s +:+ ", ClampType: " +:+ MssClampType_String (ClampType r) in
  let s := write_field "SrcCIDR" (SrcCIDR r) s in
  let s := write_field "DestCIDR" (DestCIDR r) s in
  let s := write_field "SnatCIDR" (SnatCIDR r) s in
  let s := write_field "DnatCIDR" (DnatCIDR r) s in
  let s := write_field "SrcSetName" (SrcSetName r) s in
  let s := write_field "DestSetName" (DestSetName r) s in
  let s := write_field "OutInterface" (OutInterface r) s in
  let s := write_field "InInterface" (InInterface r) s in
  let s := write_field "DPort" (DPort r) s in
  let s := write_field "MarkValue" (MarkValue r) s in
  let s := write_field "MssValue" (MssValue r) s in
  let s := write_field "TargetChain" (TargetChain r) s in
  s +:+ "}".

Inductive pf_error :=
| ErrNoDriver
| ErrLibrary (msg : string)
| ErrVersion (s : string)
| PanicParse (s : string)
| Wrapped (what : string) (e : pf_error).

(** [errors.Wrap(m(), what)] *)
Definition wrap {S A} (what : string) (m : eff S pf_error A) : eff S pf_error A :=
  fun s => let '(r, s') := m s in (map_err (Wrapped what) r, s').

(** [packetfilter.Driver] over the state [S] of the host's filter; the methods of
    a named set take the [SetInfo] it was made from. *)
Class PFDriver (S : Type) := {
  GetMSSClampTypes : TableType * ChainType;
  ChainExists : TableType -> string -> eff S pf_error bool;
  CreateIPHookChainIfNotExists : ChainIPHook -> eff S pf_error unit;
  CreateChainIfNotExists : TableType -> Chain -> eff S pf_error unit;
  DeleteIPHookChain : ChainIPHook -> eff S pf_error unit;
  DeleteChain : TableType -> string -> eff S pf_error unit;
  ClearChain : TableType -> string -> eff S pf_error unit;
  Delete : TableType -> string -> Rule -> eff S pf_error unit;
  AppendUnique : TableType -> string -> Rule -> eff S pf_error unit;
  List : TableType -> string -> eff S pf_error (list Rule);
  Append : TableType -> string -> Rule -> eff S pf_error unit;
  Insert : TableType -> string -> Z -> Rule -> eff S pf_error unit;
  set_Flush : SetInfo -> eff S pf_error unit;
  set_Destroy : SetInfo -> eff S pf_error unit;
  set_Create : SetInfo -> bool -> eff S pf_error unit;
  set_AddEntry : SetInfo -> string -> bool -> eff S pf_error unit;
  set_DelEntry : SetInfo -> string -> eff S pf_error unit;
  set_ListEntries : SetInfo -> eff S pf_error (list string);
  DestroySets : (string -> bool) -> eff S pf_error unit;
  Uninstall : eff S pf_error unit;
}.

(** * The adapter (adapter.go) *)
Section adapter.
Context {S : Type} `{!PFDriver S}.

(** The loop over the existing rules: how often the rule occurs, and whether it
    does at the required position. *)
Fixpoint scan_rules (rule : Rule) (position i : Z) (existing : list Rule) (found : Z * bool) : Z * bool :=
  match existing with
  | [] => found
  | e :: existing =>
      scan_rules rule position (i + 1) existing
        (if e =?? rule then (found.1 + 1, found.2 || (i =? position - 1)) else found)
  end.

Definition ensureRuleAtPosition (table : TableType) (chain : string) (existingRules : list Rule)
    (position : Z) (rule : Rule) : eff S pf_error unit :=
  let '(numOccurrences, isPresent) := scan_rules rule position 0 existingRules (0, false) in
  _ ← (if (1 <? numOccurrences) || negb isPresent
       then for_each (fun _ => Delete table chain rule) (replicate (Z.to_nat numOccurrences) tt)
       else mret tt);
  if (numOccurrences =? 1) && isPresent then mret tt
  else Insert table chain position rule.

Definition PrependUnique (table : TableType) (chain : string) (rules : list Rule) : eff S pf_error unit :=
  existingRules ← List table chain;
  for_each (fun '(i, rule) =>
    ensureRuleAtPosition table chain existingRules (Z.of_nat i + 1) rule) (imap pair rules).

(** The loop over the wanted rules: [existingRules] are the rules found in the
    chain and not met yet; a rule that is not among them is appended. *)
Fixpoint append_missing (table : TableType) (chain : string) (existingRules : gset Rule)
    (rules : list Rule) : eff S pf_error (gset Rule) :=
  match rules with
  | [] => mret existingRules
  | rule :: rules =>
      if bool_decide (rule ∈ existingRules)
      then append_missing table chain (existingRules ∖ {[rule]}) rules
      else _ ← wrap "rule from table, chain" (Append table chain rule);
           append_missing table chain existingRules rules
  end.

(** [range_rules] is the order in which Go iterates over the map. *)
Definition UpdateChainRules (range_rules : gset Rule -> list Rule) (table : TableType) (chain : string)
    (rules : list Rule) : eff S pf_error unit :=
  currentRules ← wrap "error listing the rules in table, chain" (List table chain);
  existingRules ← append_missing table chain (list_to_set currentRules) rules;
  for_each (fun rule => ignore (Delete table chain rule)) (range_rules existingRules).
End adapter.

(** * What clients rely on

    [rules] is the content of a chain in order, [named_sets] the entries of the
    sets, [pf_wf] the states the driver reaches and [valid_rule] the rules it can
    hold.  A failing call changes nothing. *)
Definition insert_at {A} (n : nat) (x : A) (l : list A) : list A := take n l ++ x :: drop n l.

Fixpoint remove_first (r : Rule) (l : list Rule) : list Rule :=
  match l with
  | [] => []
  | x :: l => if x =?? r then l else x :: remove_first r l
  end.

Class FilterView (S : Type) := {
  rules : S -> TableType -> string -> list Rule;
  named_sets : S -> gmap string (gset string);
  pf_wf : S -> Prop;
  valid_rule : Rule -> Prop;
}.

Section view.
Context {S : Type} `{!FilterView S}.

Definition same_filter (s s' : S) : Prop :=
  (forall t c, rules s' t c = rules s t c) /\ named_sets s' = named_sets s.

(** Only the chains named [c] change; the one of table [t] becomes [f] of it. *)
Definition chain_changed (t : TableType) (c : string) (f : list Rule -> list Rule) (s s' : S) : Prop :=
  rules s' t c = f (rules s t c) /\
  (forall t' c', c' <> c -> rules s' t' c' = rules s t' c') /\ named_sets s' = named_sets s.

Definition sets_changed (f : gmap string (gset string) -> gmap string (gset string)) (s s' : S) : Prop :=
  (forall t c, rules s' t c = rules s t c) /\ named_sets s' = f (named_sets s).

Definition call_spec (m : eff S pf_error unit) (post : S -> S -> Prop) : Prop :=
  forall s r s', pf_wf s -> m s = (r, s') ->
    pf_wf s' /\ match r with Ok _ => post s s' | Err _ => same_filter s s' end.
End view.

Class PFDriverLaws (S : Type) `{!PFDriver S} `{!FilterView S} := {
  list_spec : forall t c s r s', pf_wf s -> List t c s = (r, s') ->
    pf_wf s' /\ same_filter s s' /\ forall l, r = Ok l -> l = rules s t c;
  listed_valid : forall t c s, pf_wf s -> Forall valid_rule (rules s t c);
  append_spec : forall t c r, valid_rule r ->
    call_spec (Append t c r) (chain_changed t c (fun l => l ++ [r]));
  append_unique_spec : forall t c r, valid_rule r ->
    call_spec (AppendUnique t c r)
      (chain_changed t c (fun l => if bool_decide (r ∈ l) then l else l ++ [r]));
  insert_spec : forall t c pos r, valid_rule r -> 1 <= pos ->
    call_spec (Insert t c pos r) (fun s s' =>
      pos <= Z.of_nat (length (rules s t c)) + 1 /\
      chain_changed t c (insert_at (Z.to_nat (pos - 1)) r) s s');
  delete_spec : forall t c r, valid_rule r ->
    call_spec (Delete t c r) (chain_changed t c (remove_first r));
  clear_spec : forall t c, call_spec (ClearChain t c) (chain_changed t c (fun _ => []));
  set_create_spec : forall i b,
    call_spec (set_Create i b) (sets_changed (fun m => <[set_Name i := zget ∅ m (set_Name i)]> m));
  set_add_spec : forall i e b,
    call_spec (set_AddEntry i e b)
      (sets_changed (fun m => <[set_Name i := {[e]} ∪ zget ∅ m (set_Name i)]> m));
  set_del_spec : forall i e,
    call_spec (set_DelEntry i e)
      (sets_changed (fun m => <[set_Name i := zget ∅ m (set_Name i) ∖ {[e]}]> m));
  set_destroy_spec : forall i,
    call_spec (set_Destroy i) (sets_changed (delete (set_Name i)));
}.

(** * Lists of rules *)
Definition without (r : Rule) (l : list Rule) : list Rule := filter (fun x => x <> r) l.

Definition count_rule (r : Rule) (l : list Rule) : nat := length (filter (fun x => x = r) l).

Lemma count_rule_cons r x l :
  count_rule r (x :: l) = ((if decide (x = r) then 1 else 0) + count_rule r l)%nat.
Proof. unfold count_rule. rewrite filter_cons. by case_decide. Qed.

Lemma remove_first_absent r l : r ∉ l -> remove_first r l = l.
Proof.
  induction l as [|x l IH]; [done|]. intros Hr. simpl.
  rewrite bool_decide_false by set_solver. f_equal. apply IH. set_solver.
Qed.

Lemma without_absent r l : r ∉ l -> without r l = l.
Proof.
  intros Hr. apply filter_all, Forall_forall. by intros x Hx ->.
Qed.

Lemma count_rule_zero r l : count_rule r l = 0%nat -> r ∉ l.
Proof.
  induction l as [|x l IH]; [set_solver|]. rewrite count_rule_cons.
  case_decide; [done|]. intros Hn. apply not_elem_of_cons. split; [done|by apply IH].
Qed.

(** Removing as many occurrences as there are removes them all. *)
Lemma remove_first_all r l : Nat.iter (count_rule r l) (remove_first r) l = without r l.
Proof.
  enough (forall n l, count_rule r l = n -> Nat.iter n (remove_first r) l = without r l) by eauto.
  clear l. induction n as [|n IHn]; intros l Hn.
  { simpl. symmetry. apply without_absent. by apply count_rule_zero. }
  rewrite Nat.iter_succ_r.
  assert (Hc : count_rule r (remove_first r l) = n /\ without r (remove_first r l) = without r l).
  { clear IHn. revert n Hn. induction l as [|x l IH]; intros n Hn; [done|].
    rewrite count_rule_cons in Hn. simpl. unfold without. rewrite filter_cons.
    case_decide as Hx; case_bool_decide as Hb; try done.
    - rewrite decide_False by tauto. split; [lia|done].
    - destruct (IH _ Hn) as [H1 H2]. rewrite count_rule_cons, !filter_cons.
      rewrite !(decide_False (P := x = r)), !(decide_True (P := x <> r)) by done.
      split; [done|]. by f_equal. }
  destruct Hc as [Hc <-]. by apply IHn.
Qed.

Lemma remove_first_nodup r l : NoDup l -> remove_first r l = without r l.
Proof.
  induction 1 as [|x l Hx Hl IH]; [done|]. simpl. unfold without. rewrite filter_cons.
  case_bool_decide as Hb; subst.
  - rewrite decide_False by tauto. symmetry. by apply without_absent.
  - rewrite decide_True by done. by f_equal.
Qed.

Lemma remove_first_other r x l : x <> r -> x ∈ remove_first r l <-> x ∈ l.
Proof.
  intros Hne. induction l as [|y l IH]; [done|]. simpl. case_bool_decide as Hb.
  - subst. rewrite elem_of_cons. naive_solver.
  - rewrite !elem_of_cons. naive_solver.
Qed.

Lemma remove_all_keeps x gone : forall l, x ∉ gone ->
  x ∈ foldl (fun l r => remove_first r l) l gone <-> x ∈ l.
Proof.
  induction gone as [|r gone IH]; intros l Hx; [done|]. apply not_elem_of_cons in Hx as [Hr Hx].
  simpl. rewrite IH by done. by apply remove_first_other.
Qed.

(** Deleting each rule of a list once, from a list without duplicates. *)
Lemma remove_all_nodup gone : forall l, NoDup l ->
  foldl (fun l r => remove_first r l) l gone = filter (fun x => x ∉ gone) l.
Proof.
  induction gone as [|r gone IH]; intros l Hl; simpl.
  - symmetry. apply filter_all, Forall_forall. set_solver.
  - rewrite remove_first_nodup by done. rewrite IH by (by apply NoDup_filter). unfold without.
    rewrite list_filter_filter. apply filter_ext_elem. set_solver.
Qed.

(** * Frames *)
Section frames.
Context {S : Type} `{!PFDriver S} `{!FilterView S} `{!PFDriverLaws S}.

Lemma same_filter_refl s : same_filter s s.
Proof. split; [intros t c|]; reflexivity. Qed.

Lemma same_filter_trans s s1 s2 : same_filter s s1 -> same_filter s1 s2 -> same_filter s s2.
Proof. intros [H1 H2] [H3 H4]. split; [|congruence]. intros t c. by rewrite H3, H1. Qed.

Lemma chain_changed_same t c f s s1 s2 :
  same_filter s s1 -> chain_changed t c f s1 s2 -> chain_changed t c f s s2.
Proof.
  intros [Hr Hs] (H1 & H2 & H3). split; [by rewrite H1, Hr|]. split; [|congruence].
  intros t' c' Hc. by rewrite H2, Hr.
Qed.

Lemma chain_changed_trans t c f g s s1 s2 :
  chain_changed t c f s s1 -> chain_changed t c g s1 s2 -> chain_changed t c (fun l => g (f l)) s s2.
Proof.
  intros (H1 & H2 & H3) (H4 & H5 & H6). split; [by rewrite H4, H1|]. split; [|congruence].
  intros t' c' Hc. by rewrite H5, H2.
Qed.

Lemma chain_changed_ext t c f g s s' :
  f (rules s t c) = g (rules s t c) -> chain_changed t c f s s' -> chain_changed t c g s s'.
Proof. intros Hfg (H1 & H2 & H3). split; [by rewrite H1|done]. Qed.

Lemma chain_changed_id t c s : chain_changed t c id s s.
Proof. split; [done|]. by split. Qed.

(** The loop that deletes a rule [n] times. *)
Lemma delete_loop t c r n : forall s s', valid_rule r -> pf_wf s ->
  for_each (fun _ => Delete t c r) (replicate n tt) s = (Ok tt, s') ->
  pf_wf s' /\ chain_changed t c (Nat.iter n (remove_first r)) s s'.
Proof.
  induction n as [|n IH]; intros s s' Hv Hwf Hd.
  { injection Hd as <-. split; [done|apply chain_changed_id]. }
  simpl in Hd. apply eff_bind_inv in Hd as [([] & s1 & Hd & Hr)|(e & _ & He)]; [|done].
  destruct (delete_spec t c r Hv _ _ _ Hwf Hd) as [Hwf1 Hc1].
  destruct (IH _ _ Hv Hwf1 Hr) as [Hwf2 Hc2]. split; [done|].
  eapply chain_changed_ext; [|by eapply chain_changed_trans].
  cbn beta. by rewrite Nat.iter_succ_r.
Qed.

Lemma scan_rules_past r p l : forall i n b, p <= i ->
  scan_rules r p i l (n, b) = (n + Z.of_nat (count_rule r l), b).
Proof.
  induction l as [|x l IH]; intros i n b Hi; simpl; [f_equal; unfold count_rule; simpl; lia|].
  rewrite count_rule_cons. case_bool_decide as Hx.
  - replace (i =? p - 1) with false by (symmetry; apply Z.eqb_neq; lia). simpl.
    rewrite orb_false_r, IH, decide_True by (lia || done). f_equal. lia.
  - rewrite IH, decide_False by (lia || done). f_equal.
Qed.

Lemma scan_rules_first r l :
  scan_rules r 1 0 l (0, false) =
  (Z.of_nat (count_rule r l), match l with x :: _ => x =?? r | [] => false end).
Proof.
  destruct l as [|x l]; [done|]. simpl. rewrite count_rule_cons.
  case_bool_decide as Hx; simpl; rewrite scan_rules_past by lia.
  - rewrite decide_True by done. f_equal. lia.
  - by rewrite decide_False.
Qed.

(** What [ensureRuleAtPosition] does for the first position, when it succeeds. *)
Lemma ensure_first t c r s s' : valid_rule r -> pf_wf s ->
  ensureRuleAtPosition t c (rules s t c) 1 r s = (Ok tt, s') ->
  pf_wf s' /\ chain_changed t c (fun l => r :: without r l) s s'.
Proof.
  intros Hv Hwf. unfold ensureRuleAtPosition. rewrite scan_rules_first.
  set (l := rules s t c). intros Hrun.
  apply eff_bind_inv in Hrun as [([] & s1 & Hdel & Hins)|(e & _ & He)]; [|done].
  destruct ((1 <? Z.of_nat (count_rule r l)) || negb _) eqn:Hb in Hdel.
  - replace ((Z.of_nat _ =? 1) && _) with false in Hins.
    2: { symmetry. apply andb_false_iff. apply orb_true_iff in Hb as [Hb|Hb].
         - left. apply Z.ltb_lt in Hb. apply Z.eqb_neq. lia.
         - right. by apply negb_true_iff in Hb. }
    apply delete_loop in Hdel as [Hwf1 Hc1]; [|done..].
    destruct (insert_spec t c 1 r Hv ltac:(lia) _ _ _ Hwf1 Hins) as [Hwf2 [_ Hc2]].
    split; [done|]. eapply chain_changed_ext; [|by eapply chain_changed_trans].
    cbn beta. by rewrite Nat2Z.id, remove_first_all.
  - injection Hdel as <-. apply orb_false_iff in Hb as [Hb1 Hb2].
    apply negb_false_iff in Hb2. rewrite Hb2 in Hins.
    destruct l as [|x l0] eqn:Hl; [done|]. apply bool_decide_eq_true in Hb2 as ->.
    rewrite count_rule_cons, decide_True in Hb1, Hins by done.
    assert (Hz : count_rule r l0 = 0%nat) by (apply Z.ltb_ge in Hb1; lia).
    rewrite Hz in Hins. injection Hins as <-. split; [done|].
    eapply (chain_changed_ext _ _ id); [|apply chain_changed_id].
    unfold l in Hl. rewrite Hl. unfold id, without.
    rewrite filter_cons, decide_False by tauto. f_equal. symmetry.
    apply without_absent. by apply count_rule_zero.
Qed.

(** ** Updating a chain *)
Lemma append_missing_ok t c l : forall m s m' s', Forall valid_rule l -> pf_wf s ->
  append_missing t c m l s = (Ok m', s') ->
  pf_wf s' /\ m' = m ∖ list_to_set l /\
  exists added, (forall r, r ∈ added -> r ∈ l) /\ (forall r, r ∈ l -> r ∉ m -> r ∈ added) /\
    (NoDup l -> added = filter (fun r => r ∉ m) l) /\
    chain_changed t c (fun k => k ++ added) s s'.
Proof.
  induction l as [|r l IH]; intros m s m' s' Hv Hwf Hrun.
  { injection Hrun as <- <-. split; [done|]. split; [set_solver|]. exists [].
    split; [set_solver|]. split; [set_solver|]. split; [done|].
    eapply (chain_changed_ext _ _ id); [by rewrite app_nil_r|apply chain_changed_id]. }
  apply Forall_cons in Hv as [Hvr Hv]. cbn [append_missing] in Hrun.
  case_bool_decide as Hin.
  - destruct (IH _ _ _ _ Hv Hwf Hrun) as (Hwf' & -> & added & H1 & H2 & H3 & H4).
    split; [done|]. split; [set_solver|]. exists added.
    split; [set_solver|]. split; [set_solver|]. split; [|done].
    intros [Hr Hnd]%NoDup_cons. rewrite H3 by done. rewrite filter_cons, decide_False by tauto.
    apply filter_ext_elem. intros x Hx. rewrite not_elem_of_difference, elem_of_singleton.
    split; [|tauto]. intros [?| ->]; done.
  - apply eff_bind_inv in Hrun as [([] & s1 & Ha & Hr)|(e & _ & He)]; [|done].
    unfold wrap in Ha. destruct (Append t c r s) as [[[]|e] s1'] eqn:HA; [|done].
    injection Ha as ->.
    destruct (append_spec t c r Hvr _ _ _ Hwf HA) as [Hwf1 Hc1].
    destruct (IH _ _ _ _ Hv Hwf1 Hr) as (Hwf' & -> & added & H1 & H2 & H3 & H4).
    split; [done|]. split; [set_solver|]. exists (r :: added).
    split; [set_solver|]. split; [set_solver|]. split.
    + intros [Hr' Hnd]%NoDup_cons. rewrite filter_cons, decide_True by done. f_equal. auto.
    + eapply chain_changed_ext; [|by eapply chain_changed_trans].
      cbn beta. by rewrite <- app_assoc.
Qed.

(** The rules that were deleted: failures are ignored. *)
Lemma delete_stale_ok t c order : forall s, Forall valid_rule order -> pf_wf s -> exists s' gone,
  for_each (fun r => ignore (E' := pf_error) (Delete t c r)) order s = (Ok tt, s') /\
  pf_wf s' /\ (forall r, r ∈ gone -> r ∈ order) /\
  ((forall r s, is_ok (Delete t c r s).1 = true) -> gone = order) /\
  chain_changed t c (fun l => foldl (fun l r => remove_first r l) l gone) s s'.
Proof.
  induction order as [|r order IH]; intros s Hv Hwf.
  { exists s, []. split; [done|]. split; [done|]. split; [set_solver|]. split; [done|].
    apply (chain_changed_id t c s). }
  apply Forall_cons in Hv as [Hvr Hv].
  destruct (Delete t c r s) as [res s1] eqn:HD.
  destruct (delete_spec t c r Hvr _ _ _ Hwf HD) as [Hwf1 Hc1].
  destruct (IH s1 Hv Hwf1) as (s' & gone & Hrun & Hwf' & Hsub & Hall & Hc2).
  exists s', (if is_ok res then r :: gone else gone).
  split. { simpl. unfold mbind, eff_bind, ignore. rewrite HD. exact Hrun. }
  split; [done|]. destruct res as [[]|e]; simpl.
  - split; [set_solver|]. split; [intros Hok; by rewrite Hall|].
    eapply chain_changed_ext; [|by eapply chain_changed_trans]. done.
  - split; [set_solver|]. split.
    + intros Hok. specialize (Hok r s). by rewrite HD in Hok.
    + by eapply chain_changed_same.
Qed.

(** ** Properties of the adapter *)

(** A successful PrependUnique of one rule leaves that rule first in the
    chain and nowhere else, with the other rules in their order and the other
    chains and the sets as they were. *)
Lemma prepend_unique_first t c r s s' : pf_wf s -> valid_rule r ->
  PrependUnique t c [r] s = (Ok tt, s') ->
  pf_wf s' /\ chain_changed t c (fun l => r :: without r l) s s'.
Proof.
  intros Hwf Hv Hrun. unfold PrependUnique in Hrun.
  apply eff_bind_inv in Hrun as [(l & s1 & Hl & Hrun)|(e & _ & He)]; [|done].
  destruct (list_spec t c _ _ _ Hwf Hl) as (Hwf1 & Hsame & Hrules).
  specialize (Hrules _ eq_refl) as ->. simpl in Hrun.
  apply eff_bind_inv in Hrun as [([] & s2 & He & Hret)|(e & _ & He)]; [|done].
  injection Hret as <-. rewrite <- (proj1 Hsame) in He.
  apply ensure_first in He as [Hwf2 Hc]; [|done..]. split; [done|].
  by eapply chain_changed_same.
Qed.

(** What a successful update did: the rules it appended and those it removed. *)
Lemma UpdateChainRules_effect range_rules t c wanted s s' :
  (forall m, Permutation (range_rules m) (elements m)) -> pf_wf s -> Forall valid_rule wanted ->
  UpdateChainRules range_rules t c wanted s = (Ok tt, s') ->
  pf_wf s' /\ exists added gone,
    (forall r, r ∈ added -> r ∈ wanted) /\
    (forall r, r ∈ wanted -> r ∉ rules s t c -> r ∈ added) /\
    (NoDup wanted -> added = filter (fun r => r ∉ rules s t c) wanted) /\
    (forall r, r ∈ gone -> r ∈ rules s t c /\ r ∉ wanted) /\
    ((forall r s, is_ok (Delete t c r s).1 = true) ->
     forall r, r ∈ gone <-> r ∈ rules s t c /\ r ∉ wanted) /\
    chain_changed t c (fun l => foldl (fun l r => remove_first r l) (l ++ added) gone) s s'.
Proof.
  intros Hrange Hwf Hv Hrun. unfold UpdateChainRules in Hrun.
  apply eff_bind_inv in Hrun as [(l & s1 & Hl & Hrun)|(e & _ & He)]; [|done].
  unfold wrap in Hl. destruct (List t c s) as [[l'|e] s1'] eqn:HL; [|done].
  injection Hl as -> ->.
  destruct (list_spec t c _ _ _ Hwf HL) as (Hwf1 & Hsame & Hrules). specialize (Hrules _ eq_refl) as ->.
  set (old := rules s t c) in *.
  apply eff_bind_inv in Hrun as [(m & s2 & Ha & Hrun)|(e & _ & He)]; [|done].
  destruct (append_missing_ok t c _ _ _ _ _ Hv Hwf1 Ha) as (Hwf2 & Hm & added & Hin & Hout & Hnd & Hc1).
  assert (Hmem : forall r, r ∈ range_rules m <-> r ∈ old /\ r ∉ wanted).
  { intros r. rewrite (Hrange m), elem_of_elements, Hm. set_solver. }
  assert (Hvm : Forall valid_rule (range_rules m)).
  { apply Forall_forall. intros r [Hr _]%Hmem.
    pose proof (listed_valid t c s Hwf) as Hval. rewrite Forall_forall in Hval. by apply Hval. }
  destruct (delete_stale_ok t c _ s2 Hvm Hwf2) as (s'' & gone & Hrun' & Hwf' & Hsub & Hall & Hc2).
  rewrite Hrun' in Hrun. injection Hrun as ->.
  split; [done|]. exists added, gone. split; [done|].
  split; [intros r Hw Ho; apply Hout; [done|by rewrite elem_of_list_to_set]|]. split.
  { intros Hd. rewrite Hnd by done. apply filter_ext_elem. intros r _. by rewrite elem_of_list_to_set. }
  split; [intros r Hr; by apply Hmem, Hsub|]. split; [intros Hok; by rewrite Hall|].
  eapply chain_changed_same; [done|]. eapply chain_changed_ext; [|by eapply chain_changed_trans]. done.
Qed.

(** After a successful UpdateChainRules every wanted rule is in the chain and
    what else is left was there before; when the chain and the wanted list have
    no duplicates and no deletion fails, the chain is exactly its wanted rules
    in their old order followed by the missing ones in the wanted order.  Other
    chains and the sets do not change. *)
Lemma update_chain_rules range_rules t c wanted s s' :
  (forall m, Permutation (range_rules m) (elements m)) -> pf_wf s -> Forall valid_rule wanted ->
  UpdateChainRules range_rules t c wanted s = (Ok tt, s') ->
  pf_wf s' /\
  (forall r, r ∈ wanted -> r ∈ rules s' t c) /\
  (forall r, r ∈ rules s' t c -> r ∈ wanted \/ r ∈ rules s t c) /\
  (NoDup (rules s t c) -> NoDup wanted -> (forall r s, is_ok (Delete t c r s).1 = true) ->
   rules s' t c = filter (fun r => r ∈ wanted) (rules s t c) ++
                  filter (fun r => r ∉ rules s t c) wanted) /\
  (forall t' c', c' <> c -> rules s' t' c' = rules s t' c') /\ named_sets s' = named_sets s.
Proof.
  intros Hrange Hwf Hv Hrun.
  destruct (UpdateChainRules_effect range_rules t c wanted s s' Hrange Hwf Hv Hrun)
    as (Hwf' & added & gone & Hin & Hout & Hnd & Hgone & Hall & Hr & Hother & Hsets).
  split; [done|]. split.
  { intros r Hw. rewrite Hr, remove_all_keeps by (intros ?%Hgone; naive_solver).
    apply elem_of_app. destruct (decide (r ∈ rules s t c)); [by left|right; by apply Hout]. }
  split.
  { intros r. rewrite Hr. destruct (decide (r ∈ gone)) as [Hgr%Hgone|Hgr]; [naive_solver|].
    rewrite remove_all_keeps by done. rewrite elem_of_app. naive_solver. }
  split; [|done]. intros Hd1 Hd2 Hok. specialize (Hall Hok). rewrite Hr, Hnd by done. rewrite remove_all_nodup.
  - rewrite filter_app. f_equal.
    + apply filter_ext_elem. intros r Hro. rewrite Hall. destruct (decide (r ∈ wanted)); naive_solver.
    + apply filter_all, Forall_forall. intros r [_ Hw]%list_elem_of_filter. rewrite Hall. tauto.
  - apply NoDup_app. split; [done|]. split; [|by apply NoDup_filter].
    intros r Hro [Hn _]%list_elem_of_filter. done.
Qed.
End frames.

(** * A filter whose calls succeed, on which the laws hold *)
Record filter_state := mkFilterState {
  fs_rules : TableType -> string -> list Rule;
  fs_sets : gmap string (gset string);
}.

Definition on_chain (t : TableType) (c : string) (f : list Rule -> list Rule) (s : filter_state) :
    filter_state :=
  mkFilterState (fun t' c' => if (t' =?? t) && (c' =?? c) then f (fs_rules s t' c') else fs_rules s t' c')
    (fs_sets s).

Definition on_sets (f : gmap string (gset string) -> gmap string (gset string)) (s : filter_state) :
    filter_state := mkFilterState (fs_rules s) (f (fs_sets s)).

Definition filter_ref : PFDriver filter_state := {|
  GetMSSClampTypes := (TableTypeFilter, ChainTypeFilter);
  ChainExists := fun _ _ => mret true;
  CreateIPHookChainIfNotExists := fun _ => mret tt;
  CreateChainIfNotExists := fun _ _ => mret tt;
  DeleteIPHookChain := fun _ => mret tt;
  DeleteChain := fun t c => modifyw (on_chain t c (fun _ => []));
  ClearChain := fun t c => modifyw (on_chain t c (fun _ => []));
  Delete := fun t c r => modifyw (on_chain t c (remove_first r));
  AppendUnique := fun t c r =>
    modifyw (on_chain t c (fun l => if bool_decide (r ∈ l) then l else l ++ [r]));
  List := fun t c s => (Ok (fs_rules s t c), s);
  Append := fun t c r => modifyw (on_chain t c (fun l => l ++ [r]));
  Insert := fun t c pos r s =>
    if pos <=? Z.of_nat (length (fs_rules s t c)) + 1
    then (Ok tt, on_chain t c (insert_at (Z.to_nat (pos - 1)) r) s)
    else (Err (ErrLibrary "index of insertion too big"), s);
  set_Flush := fun i => modifyw (on_sets (fun m => <[set_Name i := ∅]> m));
  set_Destroy := fun i => modifyw (on_sets (delete (set_Name i)));
  set_Create := fun i _ => modifyw (on_sets (fun m => <[set_Name i := zget ∅ m (set_Name i)]> m));
  set_AddEntry := fun i e _ =>
    modifyw (on_sets (fun m => <[set_Name i := {[e]} ∪ zget ∅ m (set_Name i)]> m));
  set_DelEntry := fun i e =>
    modifyw (on_sets (fun m => <[set_Name i := zget ∅ m (set_Name i) ∖ {[e]}]> m));
  set_ListEntries := fun i s => (Ok (elements (zget ∅ (fs_sets s) (set_Name i))), s);
  DestroySets := fun p => modifyw (on_sets (filter (fun '(n, _) => p n = false)));
  Uninstall := mret tt;
|}.

Definition filter_ref_view : FilterView filter_state := {|
  rules := fs_rules;
  named_sets := fs_sets;
  pf_wf := fun _ => True;
  valid_rule := fun _ => True;
|}.

Lemma on_chain_changed t c f s : @chain_changed _ filter_ref_view t c f s (on_chain t c f s).
Proof.
  split; [|split; [|done]]; simpl.
  - by rewrite !bool_decide_true.
  - intros t' c' Hc. by rewrite (bool_decide_false (c' = c)), andb_false_r.
Qed.

Lemma filter_ref_laws : @PFDriverLaws filter_state filter_ref filter_ref_view.
Proof.
  split; try (intros; intros s r' s' _ [= <- <-]; split; [done|]; apply on_chain_changed);
    try (intros; intros s r' s' _ [= <- <-]; split; [done|]; split; done).
  - intros t c s r s' _ [= <- <-]. split; [done|]. split; [apply same_filter_refl|].
    by intros l [= <-].
  - intros. apply Forall_forall. done.
  - intros t c pos r _ Hpos s r' s' _. simpl. case_match eqn:Hp; intros [= <- <-]; (split; [done|]).
    + split; [lia|]. apply on_chain_changed.
    + apply same_filter_refl.
Qed.

(** ** Witnesses *)
Definition ex_rule (src : string) : Rule :=
  mkRule "" src "" "" "10.0.0.1" "" "" "" "" "" "" "0xC0000" RuleActionSNAT RuleProtoAll UndefinedMSS.

Definition ex_filter (l : list Rule) : filter_state :=
  on_chain TableTypeNAT "SM-EX" (fun _ => l) (mkFilterState (fun _ _ => []) ∅).

#[local] Existing Instance filter_ref.
#[local] Existing Instance filter_ref_view.
#[local] Existing Instance filter_ref_laws.

Lemma prepend_unique_first_witness : exists s',
  PrependUnique TableTypeNAT "SM-EX" [ex_rule "b"] (ex_filter [ex_rule "a"; ex_rule "b"; ex_rule "b"]) =
    (Ok tt, s') /\
  chain_changed TableTypeNAT "SM-EX" (fun l => ex_rule "b" :: without (ex_rule "b") l)
    (ex_filter [ex_rule "a"; ex_rule "b"; ex_rule "b"]) s' /\
  rules s' TableTypeNAT "SM-EX" = [ex_rule "b"; ex_rule "a"].
Proof.
  eexists. split; [reflexivity|]. split; [|vm_compute; reflexivity].
  by refine (proj2 (prepend_unique_first TableTypeNAT "SM-EX" (ex_rule "b") _ _ I I _)).
Defined.

Lemma update_chain_rules_witness : exists s',
  UpdateChainRules elements TableTypeNAT "SM-EX" [ex_rule "c"; ex_rule "b"]
    (ex_filter [ex_rule "a"; ex_rule "b"]) = (Ok tt, s') /\
  rules s' TableTypeNAT "SM-EX" = [ex_rule "b"; ex_rule "c"].
Proof.
  set (s := ex_filter [ex_rule "a"; ex_rule "b"]).
  destruct (UpdateChainRules elements TableTypeNAT "SM-EX" [ex_rule "c"; ex_rule "b"] s) as [r s'] eqn:E.
  assert (Hr : r = Ok tt).
  { change r with (r, s').1. rewrite <- E. vm_compute. reflexivity. }
  subst r. exists s'. split; [reflexivity|].
  assert (Hv : Forall valid_rule [ex_rule "c"; ex_rule "b"]) by (repeat constructor).
  assert (Hwf : pf_wf s) by exact I.
  destruct (update_chain_rules elements TableTypeNAT "SM-EX" [ex_rule "c"; ex_rule "b"] s s'
    (fun m => reflexivity _) Hwf Hv E) as (_ & _ & _ & Heq & _).
  rewrite Heq; [vm_compute; reflexivity|apply (bool_decide_unpack _); vm_compute; exact I..|].
  intros r0 s0. reflexivity.
Defined.

(** PrependUnique of several rules looks up their positions in the chain as it
    was before the first insertion: a rule that stood at its position then is
    left where the insertions moved it, so a rule of the chain comes before it. *)
Lemma prepend_unique_several_stale :
  let s := ex_filter [ex_rule "other"; ex_rule "b"] in
  exists s', PrependUnique TableTypeNAT "SM-EX" [ex_rule "a"; ex_rule "b"] s = (Ok tt, s') /\
    rules s' TableTypeNAT "SM-EX" = [ex_rule "a"; ex_rule "other"; ex_rule "b"].
Proof. eexists. split; [reflexivity|]. vm_compute. reflexivity. Qed.

End PacketFilter.
