(* ===== verification/Iptables.v ===== *)
(** The iptables driver (src/pkg/packetfilter/iptables/iptables.go): the
    translation of rules to and from the arguments of iptables, and the rule and
    chain operations over the third-party library that runs the command, which
    is a class. *)
From stdpp Require Import base gmap list strings.
From Stdlib Require String.
From Stdlib Require Import ZArith Lia Ascii.
From S2P Require Import Prelude GoNet GoStrings K8s PacketFilter.
Local Open Scope Z_scope.

Module Iptables.
Import PacketFilter.

#[local] Notation "a =s b" := (String.eqb a b) (at level 70, only parsing).

Definition tableTypeToStr (t : TableType) : string :=
  match t with TableTypeFilter => "filter" | TableTypeRoute => "mangle" | TableTypeNAT => "nat" end.

Definition ipHookChainTypeToTableType (t : ChainType) : TableType :=
  match t with
  | ChainTypeFilter => TableTypeFilter
  | ChainTypeRoute => TableTypeRoute
  | ChainTypeNAT => TableTypeNAT
  end.

Definition chainHookToStr (h : ChainHook) : string :=
  match h with
  | ChainHookPrerouting => "PREROUTING"
  | ChainHookInput => "INPUT"
  | ChainHookForward => "FORWARD"
  | ChainHookOutput => "OUTPUT"
  | ChainHookPostrouting => "POSTROUTING"
  end.

(** A missing key reads as the empty string. *)
Definition ruleActionToStr (a : RuleAction) : string :=
  match a with
  | RuleActionAccept => "ACCEPT"
  | RuleActionMss => "TCPMSS"
  | RuleActionMark => "MARK"
  | RuleActionSNAT => "SNAT"
  | RuleActionDNAT => "DNAT"
  | RuleActionJump | RuleActionSelfSNAT | RuleActionOther _ => ""
  end.

(** * Printing *)
Definition RuleSpec := list string.

Definition protoToRuleSpec (proto : RuleProto) : RuleSpec :=
  match proto with
  | RuleProtoUDP => ["-p"; "udp"; "-m"; "udp"]
  | RuleProtoTCP => ["-p"; "tcp"; "-m"; "tcp"]
  | RuleProtoICMP => ["-p"; "icmp"]
  | RuleProtoAll => ["-p"; "all"]
  | RuleProtoUndefined | RuleProtoOther _ => []
  end.

Definition mssClampToRuleSpec (clampType : MssClampType) (mssValue : string) : RuleSpec :=
  match clampType with
  | UndefinedMSS | MssOther _ => []
  | ToPMTU => ["--clamp-mss-to-pmtu"; "-p"; "tcp"; "-m"; "tcp"; "--tcp-flags"; "SYN,RST"; "SYN"]
  | ToValue => ["--set-mss"; mssValue; "-p"; "tcp"; "-m"; "tcp"; "--tcp-flags"; "SYN,RST"; "SYN"]
  end.

(** [if v != "" { ruleSpec = append(ruleSpec, ...) }] *)
Definition when_set (v : string) (spec : RuleSpec) : RuleSpec := if v =?? "" then [] else spec.

Definition setToRuleSpec (srcSetName destSetName : string) : RuleSpec :=
  when_set srcSetName ["-m"; "set"; "--match-set"; srcSetName; "src"] ++
  when_set destSetName ["-m"; "set"; "--match-set"; destSetName; "dst"].

Definition mark_spec (m : string) : string := m +:+ "/" +:+ m.

Definition ToRuleSpec (rule : Rule) : RuleSpec :=
  protoToRuleSpec (Proto rule) ++
  when_set (SrcCIDR rule) ["-s"; SrcCIDR rule] ++
  when_set (DestCIDR rule) ["-d"; DestCIDR rule] ++
  (if Action rule =?? RuleActionMark then []
   else when_set (MarkValue rule) ["-m"; "mark"; "--mark"; mark_spec (MarkValue rule)]) ++
  setToRuleSpec (SrcSetName rule) (DestSetName rule) ++
  when_set (OutInterface rule) ["-o"; OutInterface rule] ++
  when_set (InInterface rule) ["-i"; InInterface rule] ++
  when_set (DPort rule) ["--dport"; DPort rule] ++
  (if Action rule =?? RuleActionJump then ["-j"; TargetChain rule]
   else ["-j"; ruleActionToStr (Action rule)]) ++
  when_set (SnatCIDR rule) ["--to-source"; SnatCIDR rule] ++
  when_set (DnatCIDR rule) ["--to-destination"; DnatCIDR rule] ++
  mssClampToRuleSpec (ClampType rule) (MssValue rule) ++
  (if Action rule =?? RuleActionMark
   then when_set (MarkValue rule) ["--set-mark"; mark_spec (MarkValue rule)] else []).

(** * Parsing *)
Definition with_DestCIDR v r := mkRule v (SrcCIDR r) (SrcSetName r) (DestSetName r) (SnatCIDR r) (DnatCIDR r) (OutInterface r) (InInterface r) (TargetChain r) (MssValue r) (DPort r) (MarkValue r) (Action r) (Proto r) (ClampType r).
Definition with_SrcCIDR v r := mkRule (DestCIDR r) v (SrcSetName r) (DestSetName r) (SnatCIDR r) (DnatCIDR r) (OutInterface r) (InInterface r) (TargetChain r) (MssValue r) (DPort r) (MarkValue r) (Action r) (Proto r) (ClampType r).
Definition with_SrcSetName v r := mkRule (DestCIDR r) (SrcCIDR r) v (DestSetName r) (SnatCIDR r) (DnatCIDR r) (OutInterface r) (InInterface r) (TargetChain r) (MssValue r) (DPort r) (MarkValue r) (Action r) (Proto r) (ClampType r).
Definition with_DestSetName v r := mkRule (DestCIDR r) (SrcCIDR r) (SrcSetName r) v (SnatCIDR r) (DnatCIDR r) (OutInterface r) (InInterface r) (TargetChain r) (MssValue r) (DPort r) (MarkValue r) (Action r) (Proto r) (ClampType r).
Definition with_SnatCIDR v r := mkRule (DestCIDR r) (SrcCIDR r) (SrcSetName r) (DestSetName r) v (DnatCIDR r) (OutInterface r) (InInterface r) (TargetChain r) (MssValue r) (DPort r) (MarkValue r) (Action r) (Proto r) (ClampType r).
Definition with_DnatCIDR v r := mkRule (DestCIDR r) (SrcCIDR r) (SrcSetName r) (DestSetName r) (SnatCIDR r) v (OutInterface r) (InInterface r) (TargetChain r) (MssValue r) (DPort r) (MarkValue r) (Action r) (Proto r) (ClampType r).
Definition with_OutInterface v r := mkRule (DestCIDR r) (SrcCIDR r) (SrcSetName r) (DestSetName r) (SnatCIDR r) (DnatCIDR r) v (InInterface r) (TargetChain r) (MssValue r) (DPort r) (MarkValue r) (Action r) (Proto r) (ClampType r).
Definition with_InInterface v r := mkRule (DestCIDR r) (SrcCIDR r) (SrcSetName r) (DestSetName r) (SnatCIDR r) (DnatCIDR r) (OutInterface r) v (TargetChain r) (MssValue r) (DPort r) (MarkValue r) (Action r) (Proto r) (ClampType r).
Definition with_TargetChain v r := mkRule (DestCIDR r) (SrcCIDR r) (SrcSetName r) (DestSetName r) (SnatCIDR r) (DnatCIDR r) (OutInterface r) (InInterface r) v (MssValue r) (DPort r) (MarkValue r) (Action r) (Proto r) (ClampType r).
Definition with_MssValue v r := mkRule (DestCIDR r) (SrcCIDR r) (SrcSetName r) (DestSetName r) (SnatCIDR r) (DnatCIDR r) (OutInterface r) (InInterface r) (TargetChain r) v (DPort r) (MarkValue r) (Action r) (Proto r) (ClampType r).
Definition with_DPort v r := mkRule (DestCIDR r) (SrcCIDR r) (SrcSetName r) (DestSetName r) (SnatCIDR r) (DnatCIDR r) (OutInterface r) (InInterface r) (TargetChain r) (MssValue r) v (MarkValue r) (Action r) (Proto r) (ClampType r).
Definition with_MarkValue v r := mkRule (DestCIDR r) (SrcCIDR r) (SrcSetName r) (DestSetName r) (SnatCIDR r) (DnatCIDR r) (OutInterface r) (InInterface r) (TargetChain r) (MssValue r) (DPort r) v (Action r) (Proto r) (ClampType r).
Definition with_Action v r := mkRule (DestCIDR r) (SrcCIDR r) (SrcSetName r) (DestSetName r) (SnatCIDR r) (DnatCIDR r) (OutInterface r) (InInterface r) (TargetChain r) (MssValue r) (DPort r) (MarkValue r) v (Proto r) (ClampType r).
Definition with_Proto v r := mkRule (DestCIDR r) (SrcCIDR r) (SrcSetName r) (DestSetName r) (SnatCIDR r) (DnatCIDR r) (OutInterface r) (InInterface r) (TargetChain r) (MssValue r) (DPort r) (MarkValue r) (Action r) v (ClampType r).
Definition with_ClampType v r := mkRule (DestCIDR r) (SrcCIDR r) (SrcSetName r) (DestSetName r) (SnatCIDR r) (DnatCIDR r) (OutInterface r) (InInterface r) (TargetChain r) (MssValue r) (DPort r) (MarkValue r) (Action r) (Proto r) v.

(** [strings.Cut(s, "/")], the part before the slash, or [""]. *)
Definition parseMark (s : string) : string :=
  match Net.cut_slash (String.list_ascii_of_string s) with
  | Some (before, _) => String.string_of_list_ascii before
  | None => ""
  end.

Definition parseAction (s : string) : RuleAction :=
  if s =s "ACCEPT" then RuleActionAccept
  else if s =s "TCPMSS" then RuleActionMss
  else if s =s "MARK" then RuleActionMark
  else if s =s "SNAT" then RuleActionSNAT
  else if s =s "DNAT" then RuleActionDNAT
  else RuleActionJump.

Definition parseProtocol (s : string) : RuleProto :=
  if s =s "udp" then RuleProtoUDP
  else if s =s "tcp" then RuleProtoTCP
  else if s =s "icmp" then RuleProtoICMP
  else if s =s "all" then RuleProtoAll
  else RuleProtoUndefined.

Definition noopParse (s : string) : string := s.

(** [rest] is what follows the current term; at the end the value is zero. *)
Definition parseNextTerm {A} (zero : A) (parse : string -> A) (rest : list string) : A * list string :=
  match rest with
  | [] => (zero, [])
  | s :: rest => (parse s, rest)
  end.

Definition parseRuleMatch (rest : list string) (rule : Rule) : Rule * list string :=
  match rest with
  | [] => (rule, [])
  | term :: rest =>
      if term =s "mark" then
        match rest with
        | t1 :: t2 :: rest' =>
            if t1 =s "--mark" then (with_MarkValue (parseMark t2) rule, rest') else (rule, rest)
        | _ => (rule, rest)
        end
      else if term =s "set" then
        match rest with
        | t1 :: t2 :: t3 :: rest' =>
            if t1 =s "--match-set"
            then (if t3 =s "src" then with_SrcSetName t2 rule
                  else if t3 =s "dst" then with_DestSetName t2 rule else rule, rest')
            else (rule, rest)
        | _ => (rule, rest)
        end
      else (rule, rest)
  end.

(** One round of the loop of [FromRuleSpec] at the term [t]. *)
Definition from_term (t : string) (rest : list string) (rule : Rule) : Rule * list string :=
  let str (set : string -> Rule -> Rule) :=
    let '(v, rest') := parseNextTerm "" noopParse rest in (set v rule, rest') in
  if t =s "-p" then
    let '(v, rest') := parseNextTerm RuleProtoUndefined parseProtocol rest in (with_Proto v rule, rest')
  else if t =s "-s" then str with_SrcCIDR
  else if t =s "-d" then str with_DestCIDR
  else if t =s "-m" then parseRuleMatch rest rule
  else if t =s "--to-destination" then str with_DnatCIDR
  else if t =s "--to-source" then str with_SnatCIDR
  else if t =s "-i" then str with_InInterface
  else if t =s "-o" then str with_OutInterface
  else if t =s "--dport" then str with_DPort
  else if t =s "--set-mark" then
    let '(v, rest') := parseNextTerm "" parseMark rest in (with_MarkValue v rule, rest')
  else if t =s "--clamp-mss-to-pmtu" then (with_ClampType ToPMTU rule, rest)
  else if t =s "--set-mss" then
    let '(v, rest') := parseNextTerm "" noopParse rest in
    (with_ClampType ToValue (with_MssValue v rule), rest')
  else if t =s "-j" then
    let '(a, rest') := parseNextTerm RuleActionJump parseAction rest in
    let rule := with_Action a rule in
    (if a =?? RuleActionJump then with_TargetChain (hd t rest) rule else rule, rest')
  else (rule, rest).

(** The loop; every round consumes a term, so the number of terms is fuel enough. *)
Fixpoint from_loop (fuel : nat) (spec : list string) (rule : Rule) : Rule :=
  match fuel, spec with
  | S fuel, t :: rest => let '(rule, rest') := from_term t rest rule in from_loop fuel rest' rule
  | _, _ => rule
  end.

Definition FromRuleSpec (spec : list string) : Rule :=
  let rule := from_loop (length spec) spec empty_rule in
  if Action rule =?? RuleActionMss then with_Proto RuleProtoUndefined rule else rule.

(** * The driver's calls

    github.com/coreos/go-iptables runs the command on the host [W]; a missing
    rule or chain is told apart from other errors. *)
Inductive ipt_error := ErrNotExist | ErrCommand (msg : string).

Class IPTablesLib (W : Type) := {
  ipt_ChainExists : string -> string -> eff W ipt_error bool;
  ipt_NewChain : string -> string -> eff W ipt_error unit;
  ipt_ClearChain : string -> string -> eff W ipt_error unit;
  ipt_DeleteChain : string -> string -> eff W ipt_error unit;
  ipt_AppendUnique : string -> string -> RuleSpec -> eff W ipt_error unit;
  ipt_Append : string -> string -> RuleSpec -> eff W ipt_error unit;
  ipt_Insert : string -> string -> Z -> RuleSpec -> eff W ipt_error unit;
  ipt_InsertUnique : string -> string -> Z -> RuleSpec -> eff W ipt_error unit;
  ipt_Delete : string -> string -> RuleSpec -> eff W ipt_error unit;
  ipt_List : string -> string -> eff W ipt_error (list string);
}.

Definition lib_error (e : ipt_error) : pf_error :=
  match e with ErrNotExist => ErrLibrary "does not exist" | ErrCommand m => ErrLibrary m end.

(** [errors.Wrapf(m(), what)] for an error of the library. *)
Definition wrap_lib {W A} (what : string) (m : eff W ipt_error A) : eff W pf_error A :=
  fun w => let '(r, w') := m w in (map_err (fun e => Wrapped what (lib_error e)) r, w').

(** One line of [iptables -S]: a line that declares the chain is skipped, and a
    rule line loses its command and chain. *)
Definition list_line (line : string) : result pf_error (option Rule) :=
  let ruleSpec := Strings.Split " " line in
  let cmd := hd "" ruleSpec in
  if cmd =s "-N" then Ok None
  else if cmd =s "-A" then
    match ruleSpec with
    | _ :: _ :: spec => Ok (Some (FromRuleSpec spec))
    | _ => Err (PanicParse line)
    end
  else Ok (Some (FromRuleSpec ruleSpec)).

Fixpoint list_lines (lines : list string) : result pf_error (list Rule) :=
  match lines with
  | [] => Ok []
  | line :: lines =>
      match list_line line with
      | Err e => Err e
      | Ok r =>
          match list_lines lines with
          | Err e => Err e
          | Ok rs => Ok (match r with Some r => r :: rs | None => rs end)
          end
      end
  end.

Section driver.
Context {W : Type} `{!IPTablesLib W}.

Definition ChainExists (table : TableType) (chain : string) : eff W pf_error bool :=
  wrap_lib "error checking ChainExists" (ipt_ChainExists (tableTypeToStr table) chain).

Definition createChainIfNotExists (tableType : TableType) (chain : string) : eff W pf_error unit :=
  exists_ ← ChainExists tableType chain;
  if exists_ : bool then mret tt
  else wrap_lib "error creating IP table chain" (ipt_NewChain (tableTypeToStr tableType) chain).

Definition AppendUnique (table : TableType) (chain : string) (rule : Rule) : eff W pf_error unit :=
  if Action rule =?? RuleActionSelfSNAT then mret tt
  else wrap_lib "AppendUnique failed" (ipt_AppendUnique (tableTypeToStr table) chain (ToRuleSpec rule)).

Definition Append (table : TableType) (chain : string) (rule : Rule) : eff W pf_error unit :=
  if Action rule =?? RuleActionSelfSNAT then mret tt
  else wrap_lib "Append failed" (ipt_Append (tableTypeToStr table) chain (ToRuleSpec rule)).

Definition Insert (table : TableType) (chain : string) (pos : Z) (rule : Rule) : eff W pf_error unit :=
  if Action rule =?? RuleActionSelfSNAT then mret tt
  else wrap_lib "Insert failed" (ipt_Insert (tableTypeToStr table) chain pos (ToRuleSpec rule)).

(** A rule that does not exist counts as deleted. *)
Definition Delete (table : TableType) (chain : string) (rule : Rule) : eff W pf_error unit :=
  if Action rule =?? RuleActionSelfSNAT then mret tt
  else fun w =>
    match ipt_Delete (tableTypeToStr table) chain (ToRuleSpec rule) w with
    | (Err ErrNotExist, w') => (Ok tt, w')
    | (r, w') => (map_err (fun e => Wrapped "error deleting rule" (lib_error e)) r, w')
    end.

Definition List (table : TableType) (chain : string) : eff W pf_error (list Rule) :=
  lines ← wrap_lib "error listing the rules" (ipt_List (tableTypeToStr table) chain);
  lift_result (list_lines lines).

Definition DeleteChain (table : TableType) (chain : string) : eff W pf_error unit :=
  wrap_lib "error deleting chain" (ipt_DeleteChain (tableTypeToStr table) chain).

Definition ClearChain (table : TableType) (chain : string) : eff W pf_error unit :=
  wrap_lib "error clearing chain" (ipt_ClearChain (tableTypeToStr table) chain).

(** The rule that sends packets from the hook to the chain. *)
Definition jump_rule (chain : ChainIPHook) : Rule :=
  match hook_JumpRule chain with
  | Some r => r
  | None => with_TargetChain (hook_Name chain) (with_Action RuleActionJump empty_rule)
  end.

Definition CreateIPHookChainIfNotExists (chain : ChainIPHook) : eff W pf_error unit :=
  let tableType := ipHookChainTypeToTableType (hook_Type chain) in
  let table := tableTypeToStr tableType in
  _ ← createChainIfNotExists tableType (hook_Name chain);
  match hook_Priority chain with
  | ChainPriorityFirst =>
      wrap_lib "error creating IP hook chain, InsertUnique failed"
        (ipt_InsertUnique table (chainHookToStr (hook_Hook chain)) 1 (ToRuleSpec (jump_rule chain)))
  | _ =>
      wrap "error creating IP hook chain"
        (AppendUnique tableType (chainHookToStr (hook_Hook chain)) (jump_rule chain))
  end.

Definition CreateChainIfNotExists (table : TableType) (chain : Chain) : eff W pf_error unit :=
  createChainIfNotExists table (chain_Name chain).

Definition DeleteIPHookChain (chain : ChainIPHook) : eff W pf_error unit :=
  let tableType := ipHookChainTypeToTableType (hook_Type chain) in
  _ ← wrap "error deleting IP hook chain"
        (Delete tableType (chainHookToStr (hook_Hook chain)) (jump_rule chain));
  DeleteChain tableType (hook_Name chain).
End driver.

(** * Lemmas *)
Definition parse (spec : list string) (rule : Rule) : Rule := from_loop (length spec) spec rule.

Lemma from_term_shorter t rest r : (length (from_term t rest r).2 <= length rest)%nat.
Proof.
  unfold from_term, parseNextTerm, parseRuleMatch. repeat case_match; simpl in *; simplify_eq/=; lia.
Qed.

Lemma from_loop_fuel n : forall m spec r, (length spec <= n)%nat -> (length spec <= m)%nat ->
  from_loop n spec r = from_loop m spec r.
Proof.
  induction n as [|n IH]; intros m spec r Hn Hm.
  { destruct spec; [by destruct m|simpl in Hn; lia]. }
  destruct m as [|m]; [destruct spec; [done|simpl in Hm; lia]|].
  destruct spec as [|t rest]; [done|]. simpl in *.
  pose proof (from_term_shorter t rest r) as Hl. destruct (from_term t rest r) as [r' rest'].
  apply IH; simpl in Hl; lia.
Qed.

(** One round of the loop, whatever the fuel. *)
Lemma parse_cons t rest r :
  parse (t :: rest) r = parse (from_term t rest r).2 (from_term t rest r).1.
Proof.
  unfold parse. simpl. pose proof (from_term_shorter t rest r) as Hl.
  destruct (from_term t rest r) as [r' rest']. apply from_loop_fuel; [done|lia].
Qed.

(** An optional argument: absent, it leaves its field empty. *)
Lemma parse_when_set v spec rest r r' :
  parse (spec ++ rest) r = parse rest r' -> (v = "" -> r' = r) ->
  parse (when_set v spec ++ rest) r = parse rest r'.
Proof. intros Hs He. unfold when_set. case_bool_decide as Hv; [by rewrite He|done]. Qed.

(** Run the loop over terms whose flags are known. *)
Ltac parse_terms := cbn [app]; repeat (rewrite parse_cons; cbn).

(** Decide the equality of two known actions. *)
Ltac decide_actions :=
  repeat match goal with
  | |- context [bool_decide (?a = ?b)] =>
      first [ change (bool_decide (a = b)) with true | change (bool_decide (a = b)) with false ]
  end; cbn beta iota.

Lemma cut_slash_app l l' : Forall (fun c => (Strconv.code c =? 47) = false) l ->
  Net.cut_slash (l ++ "/"%char :: l') = Some (l, l').
Proof. induction 1 as [|c l Hc _ IH]; [done|]. simpl. by rewrite Hc, IH. Qed.

Definition no_slash (s : string) : Prop :=
  Forall (fun c => (Strconv.code c =? 47) = false) (String.list_ascii_of_string s).

Lemma parseMark_mark_spec m : no_slash m -> parseMark (mark_spec m) = m.
Proof.
  intros Hm. unfold parseMark, mark_spec. fold (Strings.chars (m +:+ "/" +:+ m)). rewrite !Strings.chars_app. simpl.
  rewrite cut_slash_app by done. apply String.string_of_list_ascii_of_string.
Qed.

#[local] Arguments parse : simpl never.
#[local] Arguments parseMark : simpl never.
#[local] Arguments mark_spec : simpl never.
#[local] Arguments parseAction : simpl never.

(** The next argument of the line is optional and sets one field to [v]. *)
Ltac parse_optional set v :=
  match goal with
  | |- context [parse (_ ++ ?rest) ?r] =>
      rewrite (parse_when_set v _ rest r (set v r)) by (first [by intros -> | parse_terms; by rewrite ?parseMark_mark_spec by done])
  end.

(** The matches between the addresses and the action. *)
Ltac parse_matches mk ss ds o i dp :=
  parse_optional with_MarkValue mk; parse_optional with_SrcSetName ss;
  parse_optional with_DestSetName ds; parse_optional with_OutInterface o;
  parse_optional with_InInterface i; parse_optional with_DPort dp.

(** The rules the conversion represents: the actions of iptables, the segment-size
    clamp of an MSS action only, a chain for a jump only and not named like an
    action, and no slash in a mark. *)
Record canonical (r : Rule) : Prop := {
  can_action : match Action r with RuleActionSelfSNAT | RuleActionOther _ => False | _ => True end;
  can_proto : match Proto r with RuleProtoOther _ => False | _ => True end;
  can_clamp : match ClampType r with
              | UndefinedMSS => MssValue r = ""
              | ToPMTU => MssValue r = "" /\ Action r = RuleActionMss
              | ToValue => Action r = RuleActionMss
              | MssOther _ => False
              end;
  can_mss : Action r = RuleActionMss -> Proto r = RuleProtoUndefined;
  can_chain : if decide (Action r = RuleActionJump) then parseAction (TargetChain r) = RuleActionJump
              else TargetChain r = "";
  can_mark : no_slash (MarkValue r);
}.

(** C35: Parsing the iptables arguments printed for a rule gives the rule back. *)
Theorem rule_spec_roundtrip r : canonical r -> FromRuleSpec (ToRuleSpec r) = r.
Proof.
  intros [Ha Hp Hc Hm Hch Hmk]. unfold FromRuleSpec. fold (parse (ToRuleSpec r) empty_rule).
  unfold ToRuleSpec, setToRuleSpec, empty_rule.
  destruct r as [dc sc ss ds sn dn o i tc mv dp mk a p c]; simpl in *.
  assert (Hproto : forall rest, parse (protoToRuleSpec p ++ rest) empty_rule =
                                parse rest (with_Proto p empty_rule)).
  { intros rest. destruct p; try done; cbn [protoToRuleSpec]; by parse_terms. }
  unfold empty_rule in Hproto. rewrite Hproto.
  parse_optional with_SrcCIDR sc. parse_optional with_DestCIDR dc. rewrite <- !app_assoc.
  destruct a; try done; decide_actions; cbn [app];
    first [rewrite decide_True in Hch by done | rewrite decide_False in Hch by done; subst tc].
  - parse_matches mk ss ds o i dp. parse_terms. rewrite Hch. decide_actions.
    parse_optional with_SnatCIDR sn. parse_optional with_DnatCIDR dn.
    destruct c; simplify_eq; try done; by destruct Hc.
  - parse_matches mk ss ds o i dp. parse_terms.
    parse_optional with_SnatCIDR sn. parse_optional with_DnatCIDR dn.
    destruct c; simplify_eq; try done; by destruct Hc.
  - rewrite (Hm eq_refl) in *. parse_matches mk ss ds o i dp. parse_terms.
    parse_optional with_SnatCIDR sn. parse_optional with_DnatCIDR dn.
    destruct c; cbn [mssClampToRuleSpec]; parse_terms; try done.
    + by rewrite Hc.
    + by destruct Hc as [-> _].
  - parse_optional with_SrcSetName ss. parse_optional with_DestSetName ds.
    parse_optional with_OutInterface o. parse_optional with_InInterface i. parse_optional with_DPort dp.
    parse_terms. parse_optional with_SnatCIDR sn. parse_optional with_DnatCIDR dn.
    destruct c; simplify_eq; cbn [mssClampToRuleSpec app]; [|try done; by destruct Hc..].
    rewrite <- (app_nil_r (when_set mk _)). by parse_optional with_MarkValue mk.
  - parse_matches mk ss ds o i dp. parse_terms.
    parse_optional with_SnatCIDR sn. parse_optional with_DnatCIDR dn.
    destruct c; simplify_eq; try done; by destruct Hc.
  - parse_matches mk ss ds o i dp. parse_terms.
    parse_optional with_SnatCIDR sn. parse_optional with_DnatCIDR dn.
    destruct c; simplify_eq; try done; by destruct Hc.
Qed.

Definition ex_rule : Rule :=
  mkRule "10.1.0.0/16" "10.2.0.0/16" "SM-GN-SET" "" "242.0.0.1-242.0.0.8" "" "eth0" "" "" "" "" "0xC0000"
    RuleActionSNAT RuleProtoAll UndefinedMSS.

Lemma rule_spec_roundtrip_witness :
  canonical ex_rule /\ FromRuleSpec (ToRuleSpec ex_rule) = ex_rule.
Proof.
  assert (Hc : canonical ex_rule).
  { split; cbn; try done. unfold no_slash. cbn. repeat constructor. }
  split; [exact Hc|]. exact (rule_spec_roundtrip ex_rule Hc).
Defined.

End Iptables.
