(* ===== verification/IpSet.v ===== *)
(** IP sets (src/pkg/ipset) and the named sets the iptables driver makes of them
    (src/pkg/packetfilter/iptables/namedset.go): the arguments of the ipset command,
    the reading of its output and of the texts of its failures.  The command and
    the retries of client-go are a class; its laws say which sets a run of the
    command leaves and what it prints. *)
From stdpp Require Import base gmap list strings.
From Stdlib Require String.
From Stdlib Require Import ZArith Lia Ascii Permutation.
From S2P Require Import Prelude GoNet GoStrings K8s PacketFilter Iptables.
Import Strings.
Local Open Scope Z_scope.

(** The host: a run of the command gives its output, or the error of the process and
    the output; [OnError] is retry.OnError with the backoff of the code. *)
Class IpsetCmd (W : Type) := {
  ipset_cmd : list string -> eff W (string * string) string;
  OnError : (string -> bool) -> eff W string unit -> eff W string unit;
}.

Module IpSet.

Definition HashIP := "hash:ip".
Definition HashIPPort := "hash:ip,port".
Definition HashIPPortIP := "hash:ip,port,ip".
Definition HashIPPortNet := "hash:ip,port,net".
Definition BitmapPort := "bitmap:port".
Definition HashNet := "hash:net".
Definition HashNetPort := "hash:net,port".
Definition ProtocolFamilyIPV4 := "inet".
Definition ProtocolFamilyIPV6 := "inet6".

Record PortRange := mkPortRange { Begin : Z; End : Z }.

Definition DefaultPortRange := mkPortRange 0 65535.

Definition PortRange_String (p : PortRange) : string := Strconv.Itoa (Begin p) +:+ "-" +:+ Strconv.Itoa (End p).

Record IPSet := mkIPSet {
  Name : string; SetType : string; HashFamily : string; HashSize : Z; MaxElem : Z; set_PortRange : PortRange;
}.

Record Entry := mkEntry {
  entry_IP : string; entry_Port : Z; Protocol : string; entry_Net : string; IP2 : string;
  entry_SetType : string; Options : list string;
}.

Definition Entry_String (e : Entry) : string :=
  let port := Strconv.Itoa (entry_Port e) in
  if entry_SetType e =?? HashIP then entry_IP e
  else if entry_SetType e =?? HashIPPort then entry_IP e +:+ "," +:+ Protocol e +:+ ":" +:+ port
  else if entry_SetType e =?? HashIPPortIP then entry_IP e +:+ "," +:+ Protocol e +:+ ":" +:+ port +:+ "," +:+ IP2 e
  else if entry_SetType e =?? HashIPPortNet then entry_IP e +:+ "," +:+ Protocol e +:+ ":" +:+ port +:+ "," +:+ entry_Net e
  else if entry_SetType e =?? HashNet then entry_Net e
  else if entry_SetType e =?? HashNetPort then entry_Net e +:+ "," +:+ Protocol e +:+ ":" +:+ port
  else if entry_SetType e =?? BitmapPort then port
  else "".

(** * Running the command *)
Definition IsNotFoundError (es : string) : bool :=
  Contains es "does not exist" || Contains es "cannot be deleted" && Contains es "it's not added".

(** What follows the first text of an error. *)
Definition failure_text (e : string * string) : string := e.1 +:+ " (" +:+ e.2 +:+ ")".

Definition with_defaults (set : IPSet) : IPSet :=
  mkIPSet (Name set)
    (if SetType set =?? "" then HashIPPort else SetType set)
    (if HashFamily set =?? "" then ProtocolFamilyIPV4 else HashFamily set)
    (if HashSize set =? 0 then 1024 else HashSize set)
    (if MaxElem set =? 0 then 65536 else MaxElem set)
    (if (Begin (set_PortRange set) =? 0) && (End (set_PortRange set) =? 0) then DefaultPortRange else set_PortRange set).

(** The entry of an address; its other fields are not set. *)
Definition ip_entry (ip : string) : Entry := mkEntry ip 0 "" "" "" HashIP [].

(** The version: the first match of [v[0-9]+\.[0-9]+]. *)
Definition match_version (l : list ascii) : option string :=
  match l with
  | c :: l =>
      if c =?? "v"%char then
        let '(major, l) := break (fun c => negb (Strconv.is_digit c)) l in
        match l with
        | dot :: l =>
            let '(minor, _) := break (fun c => negb (Strconv.is_digit c)) l in
            if (dot =?? "."%char) && negb (major =?? []) && negb (minor =?? [])
            then Some (text (c :: major ++ dot :: minor)) else None
        | [] => None
        end
      else None
  | [] => None
  end.

Fixpoint find_version (l : list ascii) : option string :=
  match match_version l, l with
  | Some v, _ => Some v
  | None, _ :: l => find_version l
  | None, [] => None
  end.

(** [EntryMemberPattern] matches greedily up to the last line that is [Members:] and
    ends with a newline; what follows it is left. *)
Fixpoint after_members (lines : list string) : option (list string) :=
  match lines with
  | [] => None
  | line :: lines =>
      match after_members lines with
      | Some rest => Some rest
      | None => if (line =?? "Members:") && negb (lines =?? []) then Some lines else None
      end
  end.

Definition read_members (out : string) : list string :=
  let lines := Split newline out in
  map TrimSpace (base.filter (fun s => s <> "") (default lines (after_members lines))).

Section runner.
Context {W : Type} `{!IpsetCmd W}.

(** [what] is the text of the error format with its arguments. *)
Definition runWithOutput (args : list string) (what : string) : eff W string string :=
  fun w => let '(r, w') := ipset_cmd args w in
           (map_err (fun e => what +:+ ": " +:+ failure_text e) r, w').

Definition run (args : list string) (what : string) : eff W string unit :=
  _ ← runWithOutput args what; mret tt.

(** [if IsNotFoundError(err) { return nil }] *)
Definition unless_not_found (m : eff W string unit) : eff W string unit :=
  fun w => match m w with
           | (Err e, w') => (if IsNotFoundError e then Ok tt else Err e, w')
           | r => r
           end.

Definition createSet (set : IPSet) (ignoreExistErr : bool) : eff W string unit :=
  run (["create"; Name set; SetType set] ++
       (if SetType set =?? BitmapPort then ["range"; PortRange_String (set_PortRange set)]
        else ["family"; HashFamily set; "hashsize"; Strconv.Itoa (HashSize set); "maxelem"; Strconv.Itoa (MaxElem set)]) ++
       (if ignoreExistErr then ["-exist"] else []))
      ("error creating set " +:+ Quote (Name set)).

(** The defaults are also written to the caller's set, which a second call leaves as
    it is. *)
Definition CreateSet (set : IPSet) (ignoreExistErr : bool) : eff W string IPSet :=
  _ ← createSet (with_defaults set) ignoreExistErr; mret (with_defaults set).

Definition AddEntry (entry : Entry) (set : string) (ignoreExistErr : bool) : eff W string unit :=
  run (["add"] ++ (if ignoreExistErr then ["-exist"] else []) ++ [set; Entry_String entry] ++ Options entry)
      ("error adding entry " +:+ Quote (Entry_String entry) +:+ " to set " +:+ Quote set).

Definition AddIPEntry (ip set : string) (ignoreExistErr : bool) : eff W string unit :=
  AddEntry (ip_entry ip) set ignoreExistErr.

Definition DelEntry (entry : Entry) (set : string) : eff W string unit :=
  unless_not_found (run ["del"; set; Entry_String entry]
    ("error deleting entry " +:+ Quote (Entry_String entry) +:+ " from set " +:+ Quote set)).

Definition DelIPEntry (ip set : string) : eff W string unit := DelEntry (ip_entry ip) set.

Definition TestEntry (entry : Entry) (set : string) : eff W string bool :=
  fun w => match run ["test"; set; Entry_String entry]
                   ("error testing entry " +:+ Quote (Entry_String entry) +:+ " in set " +:+ Quote set) w with
           | (Err e, w') => (if Contains e "is NOT in set" then Ok false else Err e, w')
           | (Ok _, w') => (Ok true, w')
           end.

Definition TestIPEntry (ip set : string) : eff W string bool := TestEntry (ip_entry ip) set.

Definition FlushSet (set : string) : eff W string unit :=
  unless_not_found (run ["flush"; set] ("error flushing set " +:+ Quote set)).

Definition retryIfInUse (args : list string) (what : string) : eff W string unit :=
  OnError (fun e => Contains e "is in use") (run args what).

Definition DestroySet (set : string) : eff W string unit :=
  unless_not_found (retryIfInUse ["destroy"; set] ("error destroying set " +:+ Quote set)).

Definition DestroyAllSets : eff W string unit := retryIfInUse ["destroy"] "error destroying all sets".

Definition ListSets : eff W string (list string) :=
  out ← runWithOutput ["list"; "-n"] "error listing all sets"; mret (Split newline out).

Definition ListEntries (set : string) : eff W string (list string) :=
  if set =?? "" then fail "set name can't be empty"
  else out ← runWithOutput ["list"; set] ("error listing set " +:+ Quote set); mret (read_members out).

Definition GetVersion : eff W string string :=
  out ← runWithOutput ["--version"] "error retrieving version";
  match find_version (chars out) with
  | Some v => mret v
  | None => fail ("no ipset version found in output " +:+ Quote out)
  end.
End runner.
End IpSet.

(** * The named sets of the iptables driver (namedset.go) *)
Module NamedSet.
Import PacketFilter IpSet.

(** [newNamedSet]: only the name of the set's description is used. *)
Definition NewNamedSet (family : IPFamily) (info : SetInfo) : IPSet :=
  mkIPSet (set_Name info) HashNet (if family =?? IPv6 then ProtocolFamilyIPV6 else ProtocolFamilyIPV4) 0 0 (mkPortRange 0 0).

Section named_set.
Context {W : Type} `{!IpsetCmd W} (family : IPFamily).

Definition wrap_set {A} (what : string) (m : eff W string A) : eff W pf_error A :=
  fun w => let '(r, w') := m w in (map_err (fun e => Wrapped what (ErrLibrary e)) r, w').

Definition namedSet_Flush (i : SetInfo) : eff W pf_error unit := wrap_set "Flush failed" (FlushSet (set_Name i)).

Definition namedSet_Destroy (i : SetInfo) : eff W pf_error unit := wrap_set "Destroy failed" (DestroySet (set_Name i)).

Definition namedSet_Create (i : SetInfo) (ignoreExistErr : bool) : eff W pf_error unit :=
  wrap_set "Create failed" (_ ← CreateSet (NewNamedSet family i) ignoreExistErr; mret tt).

Definition namedSet_AddEntry (i : SetInfo) (entry : string) (ignoreExistErr : bool) : eff W pf_error unit :=
  wrap_set "AddIPEntry failed" (AddIPEntry entry (set_Name i) ignoreExistErr).

Definition namedSet_DelEntry (i : SetInfo) (entry : string) : eff W pf_error unit :=
  wrap_set "DelIPEntry failed" (DelIPEntry entry (set_Name i)).

Definition namedSet_TestEntry (i : SetInfo) (entry : string) : eff W pf_error bool :=
  wrap_set "TestEntry failed" (TestIPEntry entry (set_Name i)).

Definition namedSet_ListEntries (i : SetInfo) : eff W pf_error (list string) :=
  wrap_set "ListEntries failed" (IpSet.ListEntries (set_Name i)).

(** The loop over the names: an error is kept until the end, the last one wins. *)
Fixpoint destroy_loop (nameFilter : string -> bool) (names : list string) (retErr : option pf_error) :
    eff W pf_error (option pf_error) :=
  match names with
  | [] => mret retErr
  | set :: names =>
      if nameFilter set then
        r ← attempt (DestroySet set);
        destroy_loop nameFilter names (match r with Err e => Some (ErrLibrary e) | Ok _ => retErr end)
      else destroy_loop nameFilter names retErr
  end.

Definition DestroySets (nameFilter : string -> bool) : eff W pf_error unit :=
  names ← wrap_set "error listing sets" ListSets;
  retErr ← destroy_loop nameFilter names None;
  match retErr with Some e => fail e | None => mret tt end.
End named_set.

(** The driver as the clients of the packet filter see it. *)
Definition iptables_driver {W} `{!Iptables.IPTablesLib W} `{!IpsetCmd W} (family : IPFamily) : PFDriver W := {|
  GetMSSClampTypes := (TableTypeRoute, ChainTypeRoute);
  ChainExists := Iptables.ChainExists;
  CreateIPHookChainIfNotExists := Iptables.CreateIPHookChainIfNotExists;
  CreateChainIfNotExists := Iptables.CreateChainIfNotExists;
  DeleteIPHookChain := Iptables.DeleteIPHookChain;
  DeleteChain := Iptables.DeleteChain;
  ClearChain := Iptables.ClearChain;
  Delete := Iptables.Delete;
  AppendUnique := Iptables.AppendUnique;
  List := Iptables.List;
  Append := Iptables.Append;
  Insert := Iptables.Insert;
  set_Flush := namedSet_Flush;
  set_Destroy := namedSet_Destroy;
  set_Create := namedSet_Create family;
  set_AddEntry := namedSet_AddEntry;
  set_DelEntry := namedSet_DelEntry;
  set_ListEntries := namedSet_ListEntries;
  PacketFilter.DestroySets := NamedSet.DestroySets;
  Uninstall := mret tt;
|}.

(** * What the command promises *)

(** Characters of names and addresses: printable, no space, quote or backslash. *)
Definition plain_char (c : ascii) : bool :=
  let n := nat_of_ascii c in ((33 <=? n) && (n <=? 126) && negb ((n =? 34) || (n =? 92)))%nat.

Definition plain (s : string) : bool := forallb plain_char (chars s).

(** [m] run again as long as it fails with an error that may be retried. *)
Inductive retried {W} (retriable : string -> bool) (m : eff W string unit) : W -> result string unit -> W -> Prop :=
| retried_done w r w' : m w = (r, w') -> retried retriable m w r w'
| retried_again w e w1 r w' :
    m w = (Err e, w1) -> retriable e = true -> retried retriable m w1 r w' -> retried retriable m w r w'.

(** [ipsets] are the sets of the kernel and [canonical] the entries in the form in
    which the command prints them.  A failing run changes nothing, and one that says
    that something is missing says so of the set or of the entry. *)
Class IpsetLaws (W : Type) `{!IpsetCmd W} := {
  ipsets : W -> gmap string (gset string);
  ipset_wf : W -> Prop;
  canonical : string -> Prop;
  wf_run : forall args w, ipset_wf w -> ipset_wf (ipset_cmd args w).2;
  cmd_fails : forall args w e w', ipset_cmd args w = (Err e, w') -> ipsets w' = ipsets w;
  cmd_create : forall n params w out w', ipset_cmd ("create" :: n :: params) w = (Ok out, w') ->
    ipsets w' = <[n := zget ∅ (ipsets w) n]> (ipsets w);
  cmd_add : forall exist n e w out w', exist = [] \/ exist = ["-exist"] -> canonical e ->
    ipset_cmd ("add" :: exist ++ [n; e]) w = (Ok out, w') ->
    ipsets w' = <[n := {[e]} ∪ zget ∅ (ipsets w) n]> (ipsets w);
  cmd_del : forall n e w out w', canonical e -> ipset_cmd ["del"; n; e] w = (Ok out, w') ->
    ipsets w' = <[n := zget ∅ (ipsets w) n ∖ {[e]}]> (ipsets w);
  cmd_del_missing : forall n e w f w', canonical e -> ipset_cmd ["del"; n; e] w = (Err f, w') ->
    IsNotFoundError (failure_text f) = true -> e ∉ zget ∅ (ipsets w) n;
  cmd_flush : forall n w out w', ipset_cmd ["flush"; n] w = (Ok out, w') -> ipsets w' = <[n := ∅]> (ipsets w);
  cmd_flush_missing : forall n w f w', ipset_cmd ["flush"; n] w = (Err f, w') ->
    IsNotFoundError (failure_text f) = true -> ipsets w !! n = None;
  cmd_destroy : forall n w out w', ipset_cmd ["destroy"; n] w = (Ok out, w') -> ipsets w' = delete n (ipsets w);
  cmd_destroy_missing : forall n w f w', ipset_cmd ["destroy"; n] w = (Err f, w') ->
    IsNotFoundError (failure_text f) = true -> ipsets w !! n = None;
  cmd_list : forall n w out w', n <> "-n" -> ipset_wf w -> ipset_cmd ["list"; n] w = (Ok out, w') ->
    ipsets w' = ipsets w /\ exists header, Forall (no_char newline) header /\
      out = join_ended newline (header ++ "Members:" :: elements (zget ∅ (ipsets w) n));
  cmd_list_names : forall w out w', ipset_wf w -> ipset_cmd ["list"; "-n"] w = (Ok out, w') ->
    ipsets w' = ipsets w /\ out = join_ended newline (elements (dom (ipsets w)));
  members_plain : forall w n e, ipset_wf w -> e ∈ zget ∅ (ipsets w) n -> plain e = true /\ e <> "" /\ e <> "Members:";
  names_plain : forall w n, ipset_wf w -> is_Some (ipsets w !! n) -> plain n = true;
  canonical_plain : forall e, canonical e -> plain e = true;
  OnError_retries : forall retriable m w r w', OnError retriable m w = (r, w') -> retried retriable m w r w';
}.

(** * Texts of failures *)
Lemma prefix_sep c sub : c ∉ chars sub -> forall a b, String.prefix sub (a +:+ String.String c b) = String.prefix sub a.
Proof.
  induction sub as [|x sub IH]; intros Hc a b; [by destruct a|].
  cbn in Hc. apply not_elem_of_cons in Hc as [Hx Hc]. destruct a as [|y a].
  - rewrite string_app_nil. cbn. destruct (ascii_dec x c); [congruence|done].
  - rewrite string_app_cons. cbn. destruct (ascii_dec x y); [by apply IH|done].
Qed.

Lemma Contains_sep c sub a b : sub <> "" -> c ∉ chars sub ->
  Contains (a +:+ String.String c b) sub = Contains a sub || Contains b sub.
Proof.
  intros Hs Hc. induction a as [|y a IH].
  - rewrite string_app_nil. cbn [Contains]. pose proof (prefix_sep c sub Hc "" b) as Hp.
    rewrite string_app_nil in Hp. rewrite Hp. by rewrite orb_false_r.
  - pose proof (prefix_sep c sub Hc (String.String y a) b) as Hp. rewrite string_app_cons in Hp |- *.
    cbn [Contains]. rewrite Hp, IH. by rewrite orb_assoc.
Qed.

Lemma prefix_chars sub s c : String.prefix sub s = true -> c ∈ chars sub -> c ∈ chars s.
Proof.
  revert s. induction sub as [|x sub IH]; intros s; cbn; [by intros _ Hn; inversion Hn|].
  destruct s as [|y s]; [done|]. cbn. destruct (ascii_dec x y) as [<-|]; [|done].
  intros Hp [->|Hc]%elem_of_cons; [by left|right; by apply IH].
Qed.

Lemma Contains_chars s sub c : c ∈ chars sub -> c ∉ chars s -> Contains s sub = false.
Proof.
  intros Hs. induction s as [|x s IH]; intros Hc.
  - cbn [Contains]. destruct (String.prefix sub "") eqn:Hp; [|done]. apply (prefix_chars _ _ c) in Hp; [inversion Hp|done].
  - cbn [Contains]. destruct (String.prefix sub (String.String x s)) eqn:Hp; [by apply (prefix_chars _ _ c) in Hp|].
    cbn in Hc. apply not_elem_of_cons in Hc as [_ Hc]. by apply IH.
Qed.

Lemma Quote_plain s : plain s = true -> Quote s = String.String quote (s +:+ String.String quote "").
Proof.
  unfold plain, Quote. rewrite forallb_forall. intros Hp. apply chars_inj. rewrite chars_text.
  change (chars (String.String quote ?x)) with (quote :: chars x). rewrite chars_app. f_equal. f_equal.
  rewrite <- List.Forall_forall in Hp. induction Hp as [|c l Hc _ IH]; [done|]. cbn [flat_map]. rewrite IH.
  unfold plain_char, quote_char in *. cbv zeta in *. apply andb_true_iff in Hc as [[Hl Hu]%andb_true_iff Hq%negb_true_iff].
  rewrite Hq. replace (32 <=? nat_of_ascii c)%nat with true by (symmetry; apply Nat.leb_le; apply Nat.leb_le in Hl; lia).
  by rewrite Hu.
Qed.

Lemma plain_no_space s : plain s = true -> " "%char ∉ chars s.
Proof.
  unfold plain. rewrite forallb_forall. intros Hp Hi. apply list_elem_of_In in Hi. by apply Hp in Hi.
Qed.

(** The texts that the code looks for. *)
Definition failures : list string := ["does not exist"; "cannot be deleted"; "it's not added"; "is in use"; "is NOT in set"].

Definition quiet (what : string) : Prop := Forall (fun sub => Contains what sub = false) failures.

Lemma quiet_quoted_then what n rest : quiet what -> plain n = true -> quiet rest -> quiet (what +:+ Quote n +:+ rest).
Proof.
  intros Hw Hn Hr. rewrite (Quote_plain _ Hn), string_app_cons, string_app_assoc, string_app_cons, string_app_nil.
  unfold quiet, failures in *. pose proof (plain_no_space _ Hn) as Hs.
  repeat match goal with H : Forall _ (_ :: _) |- _ => apply Forall_cons in H as [? H] end.
  repeat (apply Forall_cons; split); [..|by apply Forall_nil].
  all: rewrite !Contains_sep by (done || by apply (bool_decide_unpack _); vm_compute).
  all: rewrite (Contains_chars n _ " "%char) by (done || by apply (bool_decide_unpack _); vm_compute).
  all: by repeat match goal with H : Contains _ _ = false |- _ => rewrite H; clear H end.
Qed.

Lemma quiet_quoted what n : quiet what -> plain n = true -> quiet (what +:+ Quote n).
Proof.
  intros Hw Hn. rewrite <- (string_app_nil_r (Quote n)). apply quiet_quoted_then; [done..|]. repeat constructor.
Qed.

Lemma Contains_failure what f sub : quiet what -> sub ∈ failures ->
  Contains (what +:+ ": " +:+ f) sub = Contains f sub.
Proof.
  unfold quiet. rewrite Forall_forall. intros Hq Hs.
  change (": " +:+ f) with (String.String ":" (String.String " " f)).
  assert (Hsub : sub <> "" /\ ":"%char ∉ chars sub /\ forall t, String.prefix sub (String.String " " t) = false).
  { unfold failures in Hs. repeat (apply elem_of_cons in Hs as [->|Hs]; [|]); [..|inversion Hs].
    all: split; [done|]; split; [by apply (bool_decide_unpack _); vm_compute|done]. }
  destruct Hsub as (Hne & Hc & Hp). rewrite Contains_sep by done. rewrite (Hq _ Hs). cbn [orb Contains]. by rewrite Hp.
Qed.

Lemma not_found_failure what f : quiet what -> IsNotFoundError (what +:+ ": " +:+ f) = IsNotFoundError f.
Proof.
  intros Hq. unfold IsNotFoundError. rewrite !Contains_failure; [done|done|unfold failures; set_solver..].
Qed.

(** * The operations on the contents of the sets *)
Inductive set_op :=
| OpCreate (ignoreExistErr : bool)
| OpFlush
| OpDestroy
| OpAdd (entry : string) (ignoreExistErr : bool)
| OpDel (entry : string).

(** A set that does not exist counts as empty. *)
Definition op_effect (op : set_op) (s : gset string) : gset string :=
  match op with
  | OpCreate _ => s
  | OpFlush | OpDestroy => ∅
  | OpAdd e _ => {[e]} ∪ s
  | OpDel e => s ∖ {[e]}
  end.

(** The contents of every set after the operations that succeeded. *)
Fixpoint contents_after (ops : list (SetInfo * set_op)) (oks : list bool) (c : string -> gset string) : string -> gset string :=
  match ops, oks with
  | (i, op) :: ops, ok :: oks =>
      contents_after ops oks
        (fun n => if ok && (n =?? set_Name i) then op_effect op (c n) else c n)
  | _, _ => c
  end.

Section refinement.
Context {W : Type} `{!IpsetCmd W} (family : IPFamily).

Definition run_op (i : SetInfo) (op : set_op) : eff W pf_error unit :=
  match op with
  | OpCreate b => namedSet_Create family i b
  | OpFlush => namedSet_Flush i
  | OpDestroy => namedSet_Destroy i
  | OpAdd e b => namedSet_AddEntry i e b
  | OpDel e => namedSet_DelEntry i e
  end.

(** Operations one after the other, and which of them succeeded. *)
Fixpoint run_ops (ops : list (SetInfo * set_op)) (w : W) : list bool * W :=
  match ops with
  | [] => ([], w)
  | (i, op) :: ops =>
      let '(r, w1) := run_op i op w in let '(oks, w2) := run_ops ops w1 in (is_ok r :: oks, w2)
  end.

Context `{!IpsetLaws W}.

Definition members (w : W) (n : string) : gset string := zget ∅ (ipsets w) n.

Definition op_ok (iop : SetInfo * set_op) : Prop :=
  plain (set_Name iop.1) = true /\
  match iop.2 with OpAdd e _ | OpDel e => canonical e | _ => True end.

Lemma run_out args what w r w' : runWithOutput args what w = (r, w') -> ipset_wf w ->
  ipset_wf w' /\
  match r with
  | Ok out => ipset_cmd args w = (Ok out, w')
  | Err e => exists f, ipset_cmd args w = (Err f, w') /\ e = what +:+ ": " +:+ failure_text f /\ ipsets w' = ipsets w
  end.
Proof.
  intros Hr Hw. unfold runWithOutput in Hr. pose proof (wf_run args w Hw) as Hw'.
  destruct (ipset_cmd args w) as [[out|f] w1] eqn:E; injection Hr as <- <-; (split; [done|]); [done|].
  exists f. split; [done|]. split; [done|]. by eapply cmd_fails.
Qed.

Lemma run_inv args what w r w' : run args what w = (r, w') -> ipset_wf w ->
  ipset_wf w' /\
  match r with
  | Ok _ => exists out, ipset_cmd args w = (Ok out, w')
  | Err e => exists f, ipset_cmd args w = (Err f, w') /\ e = what +:+ ": " +:+ failure_text f /\ ipsets w' = ipsets w
  end.
Proof.
  unfold run. intros [(out & w1 & Ho & [= <- <-])|(e & He & ->)]%eff_bind_inv Hw;
    [apply run_out in Ho|apply run_out in He]; try done; naive_solver.
Qed.

(** A run of the command whose failure may say that something is missing. *)
Lemma unless_not_found_inv m (P : W -> W -> Prop) (missing : W -> Prop) w r w' :
  (forall w r w', ipset_wf w -> m w = (r, w') -> ipset_wf w' /\
     match r with
     | Ok _ => P w w'
     | Err e => ipsets w' = ipsets w /\ (IsNotFoundError e = true -> missing w')
     end) ->
  unless_not_found m w = (r, w') -> ipset_wf w ->
  ipset_wf w' /\ match r with Ok _ => P w w' \/ ipsets w' = ipsets w /\ missing w' | Err _ => ipsets w' = ipsets w end.
Proof.
  intros Hm Hr Hw. unfold unless_not_found in Hr. destruct (m w) as [[u|e] w1] eqn:E; apply Hm in E as [Hw1 He]; try done.
  - injection Hr as <- <-. eauto.
  - destruct He as [He Hn]. destruct (IsNotFoundError e); injection Hr as <- <-; eauto.
Qed.

Lemma retried_inv retriable m w r w' (P : W -> W -> Prop) (missing : W -> Prop) :
  (forall w r w', ipset_wf w -> m w = (r, w') -> ipset_wf w' /\
     match r with
     | Ok _ => P w w'
     | Err e => ipsets w' = ipsets w /\ (IsNotFoundError e = true -> missing w')
     end) ->
  (forall w1 w2 w3, ipsets w2 = ipsets w1 -> P w2 w3 -> P w1 w3) ->
  retried retriable m w r w' -> ipset_wf w ->
  ipset_wf w' /\ match r with Ok _ => P w w' | Err e => ipsets w' = ipsets w /\ (IsNotFoundError e = true -> missing w') end.
Proof.
  intros Hm HP. induction 1 as [w r w' Hr|w e w1 r w' Hr _ _ IH]; intros Hw; [by apply Hm|].
  apply Hm in Hr as (Hw1 & Hs & _); [|done]. destruct (IH Hw1) as [Hw' Hr]. split; [done|].
  destruct r; [by eapply HP|]. destruct Hr as [-> ?]. done.
Qed.

(** The contents change as the operation says, or not at all. *)
Definition contents_become (n : string) (f : gset string -> gset string) (w w' : W) : Prop :=
  forall n', members w' n' = if n' =?? n then f (members w n') else members w n'.

Lemma contents_insert n s (w w' : W) f : ipsets w' = <[n := s]> (ipsets w) -> s = f (members w n) -> contents_become n f w w'.
Proof.
  intros Hs -> n'. unfold members. rewrite Hs. destruct (decide (n' = n)) as [->|Hn].
  - by rewrite bool_decide_true, zget_insert_eq.
  - by rewrite bool_decide_false, zget_insert_ne by congruence.
Qed.

Lemma contents_same n f (w w' : W) : ipsets w' = ipsets w -> f (members w n) = members w n -> contents_become n f w w'.
Proof.
  intros Hs Hf n'. unfold members in *. rewrite Hs. case_bool_decide as Hn; [by rewrite Hn, Hf|done].
Qed.

Lemma destroy_inv n w r w' : DestroySet n w = (r, w') -> plain n = true -> ipset_wf w ->
  ipset_wf w' /\ match r with Ok _ => ipsets w' = delete n (ipsets w) | Err _ => ipsets w' = ipsets w end.
Proof.
  intros Hr Hn Hw. unfold DestroySet, retryIfInUse in Hr.
  apply (unless_not_found_inv _ (fun w w' => ipsets w' = delete n (ipsets w)) (fun w => ipsets w !! n = None)) in Hr as [Hw' Hr]; [|clear w r w' Hr Hw|done].
  - split; [done|]. destruct r; [|done]. destruct Hr as [Hr|[Hr Hm]]; [done|].
    rewrite Hr in *. by rewrite delete_id.
  - intros w r w' Hw Hr%OnError_retries. apply (retried_inv _ _ _ _ _ (fun w w' => ipsets w' = delete n (ipsets w)) (fun w => ipsets w !! n = None)) in Hr;
      [exact Hr| |by intros w1 w2 w3 ->|done].
    clear w r w' Hw Hr. intros w r w' Hw Hr. apply run_inv in Hr as [Hw' Hr]; [|done]. split; [done|].
    destruct r; [destruct Hr as [out Ho]; by eapply cmd_destroy|].
    destruct Hr as (f & Hf & -> & Hs). split; [done|].
    rewrite not_found_failure by (by apply quiet_quoted; [repeat constructor|]).
    intros Hm. rewrite Hs. by eapply cmd_destroy_missing.
Qed.

Lemma create_inv i b w r w' : CreateSet (NewNamedSet family i) b w = (r, w') -> ipset_wf w ->
  ipset_wf w' /\ match r with Ok _ => contents_become (set_Name i) id w w' | Err _ => ipsets w' = ipsets w end.
Proof.
  unfold CreateSet, createSet. intros [(u & w1 & Ho & [= <- <-])|(e & He & ->)]%eff_bind_inv Hw.
  - apply run_inv in Ho as [Hw' (out & Ho)]; [|done]. split; [done|]. apply cmd_create in Ho. by eapply contents_insert.
  - apply run_inv in He as [Hw' (f & _ & _ & Hs)]; done.
Qed.

Lemma op_spec i op w r w' : run_op i op w = (r, w') -> op_ok (i, op) -> ipset_wf w ->
  ipset_wf w' /\
  match r with
  | Ok _ => contents_become (set_Name i) (op_effect op) w w'
  | Err _ => ipsets w' = ipsets w
  end.
Proof.
  intros Hr [Hn Hop] Hw. simpl in Hn, Hop.
  destruct op as [b| | |e b|e]; simpl in Hr; unfold namedSet_Create, namedSet_Flush, namedSet_Destroy, namedSet_AddEntry, namedSet_DelEntry, wrap_set in Hr;
    match type of Hr with context [let '(_, _) := ?m w in _] => destruct (m w) as [r0 w1] eqn:E end;
    injection Hr as <- <-.
  - apply eff_bind_inv in E as [(s & w2 & E & [= <- <-])|(f & E & ->)]; apply create_inv in E as [Hw' E]; done.
  - unfold FlushSet in E.
    eapply (unless_not_found_inv _ (fun w w' => ipsets w' = <[set_Name i := ∅]> (ipsets w)) (fun w => ipsets w !! set_Name i = None)) in E
      as [Hw' E]; [|clear w w1 r0 E Hw|done].
    + split; [done|]. destruct r0; [|done]. destruct E as [E|[E Hm]]; [by eapply contents_insert|].
      apply contents_same; [done|]. unfold members, zget. rewrite <- E. by rewrite Hm.
    + intros w r w' Hw Hr. apply run_inv in Hr as [Hw' Hr]; [|done]. split; [done|].
      destruct r; [destruct Hr as [out Ho]; by eapply cmd_flush|].
      destruct Hr as (f & Hf & -> & Hs). split; [done|].
      rewrite not_found_failure by (by apply quiet_quoted; [repeat constructor|]).
      intros Hm. rewrite Hs. by eapply cmd_flush_missing.
  - apply destroy_inv in E as [Hw' E]; [|done..]. split; [done|]. destruct r0; [|done].
    intros n'. unfold members, zget. rewrite E. case_bool_decide as Hn'; [by rewrite Hn', lookup_delete_eq|].
    by rewrite lookup_delete_ne.
  - apply run_inv in E as [Hw' E]; [|done]. split; [done|]. destruct r0; [|by naive_solver].
    destruct E as [out Ho]. cbn [Options ip_entry] in Ho. rewrite app_nil_r in Ho.
    apply cmd_add in Ho; [by eapply contents_insert|by destruct b; auto|done].
  - unfold DelIPEntry, IpSet.DelEntry in E.
    eapply (unless_not_found_inv _ (fun w w' => ipsets w' = <[set_Name i := zget ∅ (ipsets w) (set_Name i) ∖ {[e]}]> (ipsets w))
      (fun w => e ∉ zget ∅ (ipsets w) (set_Name i))) in E as [Hw' E]; [|clear w w1 r0 E Hw|done].
    + split; [done|]. destruct r0; [|done]. destruct E as [E|[E Hm]]; [by eapply contents_insert|].
      apply contents_same; [done|]. unfold members. rewrite <- E. simpl. set_solver.
    + intros w r w' Hw Hr. apply run_inv in Hr as [Hw' Hr]; [|done]. split; [done|].
      destruct r; [destruct Hr as [out Ho]; by eapply cmd_del|].
      destruct Hr as (f & Hf & -> & Hs). split; [done|].
      rewrite not_found_failure.
      2:{ rewrite <- (string_app_assoc (Quote e)), <- (string_app_assoc "error deleting entry ").
          apply quiet_quoted; [|done].
          apply quiet_quoted_then; [repeat constructor|by apply canonical_plain|repeat constructor]. }
      intros Hm. rewrite Hs. by eapply cmd_del_missing.
Qed.

Lemma contents_after_ext ops oks c c' : (forall n, c n = c' n) ->
  forall n, contents_after ops oks c n = contents_after ops oks c' n.
Proof.
  revert oks c c'. induction ops as [|[i op] ops IH]; intros oks c c' Hc n; [apply Hc|].
  destruct oks as [|ok oks]; [apply Hc|]. cbn. apply IH. intros n'. by rewrite Hc.
Qed.

Lemma run_ops_contents ops w oks w' : run_ops ops w = (oks, w') -> Forall op_ok ops -> ipset_wf w ->
  ipset_wf w' /\ forall n, members w' n = contents_after ops oks (members w) n.
Proof.
  revert w oks w'. induction ops as [|[i op] ops IH]; intros w oks w' Hr Hops Hw; cbn in Hr.
  - by injection Hr as <- <-.
  - apply Forall_cons in Hops as [Hop Hops].
    destruct (run_op i op w) as [r w1] eqn:E. destruct (run_ops ops w1) as [oks' w2] eqn:Er.
    injection Hr as <- <-. apply op_spec in E as [Hw1 E]; [|done..]. apply IH in Er as [Hw2 Er]; [|done..].
    split; [done|]. intros n. rewrite Er. cbn. apply contents_after_ext. intros n'.
    destruct r; cbn [is_ok andb]; [apply E|]. unfold members. by rewrite E.
Qed.

(** * What is read of the command's output *)
Definition member_line (e : string) : Prop := plain e = true /\ e <> "" /\ e <> "Members:".

Lemma plain_chars s (P : ascii -> Prop) : plain s = true -> (forall c, plain_char c = true -> P c) -> Forall P (chars s).
Proof.
  unfold plain. rewrite forallb_forall. intros Hs HP. apply Forall_forall. intros c Hc. apply HP, Hs. by apply list_elem_of_In.
Qed.

Lemma plain_line s : plain s = true -> no_char newline s /\ trimmed s.
Proof.
  intros Hs. split.
  - intros Hi. apply (plain_chars _ (fun c => c <> newline)) in Hs; [|by intros c Hc ->].
    rewrite Forall_forall in Hs. by apply Hs in Hi.
  - apply no_space_trimmed. apply plain_chars; [done|]. intros c Hc. unfold plain_char, is_space in *. cbv zeta in *.
    apply andb_true_iff in Hc as [[Hl%Nat.leb_le _]%andb_true_iff _]. apply orb_false_iff.
    split; [apply Nat.eqb_neq; lia|]. apply andb_false_iff. right. apply Nat.leb_gt. lia.
Qed.

Lemma after_members_none lines : Forall (fun l => l <> "Members:") lines -> after_members lines = None.
Proof. induction 1 as [|l lines Hl _ IH]; [done|]. cbn. rewrite IH. by rewrite bool_decide_false. Qed.

Lemma after_members_app header lines rest : after_members lines = Some rest -> after_members (header ++ lines) = Some rest.
Proof. intros Hl. induction header as [|h header IH]; [done|]. cbn. by rewrite IH. Qed.

(** The members printed after the header are read back. *)
Lemma read_members_printed header es : Forall (no_char newline) header -> Forall member_line es ->
  read_members (join_ended newline (header ++ "Members:" :: es)) = es.
Proof.
  intros Hh Hes. unfold read_members. rewrite Split_join_ended.
  2:{ apply Forall_app. split; [done|]. apply Forall_cons. split; [by apply (bool_decide_unpack _); vm_compute|].
      eapply Forall_impl; [exact Hes|]. intros e (He & _). by apply plain_line. }
  rewrite <- app_assoc. rewrite (after_members_app _ _ (es ++ [""])).
  - cbn [from_option id]. rewrite filter_app, filter_all by (eapply Forall_impl; [exact Hes|intros e He; apply He]).
    change (base.filter _ [""]) with (@nil string). rewrite app_nil_r.
    induction Hes as [|e es (He & _) _ IH]; [done|]. cbn. rewrite IH. f_equal. by apply plain_line.
  - cbn. rewrite after_members_none.
    + rewrite bool_decide_true by done. by rewrite bool_decide_false by (by destruct es).
    + apply Forall_app. split; [|by repeat constructor]. eapply Forall_impl; [exact Hes|]. intros e He. apply He.
Qed.

Lemma list_entries_inv i w l w' : namedSet_ListEntries i w = (Ok l, w') -> set_Name i <> "-n" -> ipset_wf w -> l = elements (members w (set_Name i)).
Proof.
  unfold namedSet_ListEntries, wrap_set, IpSet.ListEntries. case_bool_decide; [done|]. intros Hr Hi Hw.
  match type of Hr with context [let '(_, _) := ?m w in _] => destruct (m w) as [r0 w1] eqn:E end.
  injection Hr as Hr <-. destruct r0 as [l'|]; [|done]. injection Hr as ->.
  apply eff_bind_inv in E as [(out & w2 & E & [= <- <-])|(e & _ & [=])].
  apply run_out in E as [_ E]; [|done]. apply cmd_list in E as (_ & header & Hh & ->); [|done..].
  apply read_members_printed; [done|]. apply Forall_forall. intros e He%elem_of_elements. by apply members_plain in He.
Qed.

(** C27: The named sets of the iptables driver hold what the operations on them say:
    after any operations, of which some may have failed, a listing of a set gives
    exactly the entries that successful additions put in and that no later deletion,
    flush or destruction took out. *)
Theorem named_sets_refine ops i w oks w1 l w2 :
  Forall op_ok ops -> set_Name i <> "-n" -> ipset_wf w ->
  run_ops ops w = (oks, w1) -> namedSet_ListEntries i w1 = (Ok l, w2) ->
  NoDup l /\ list_to_set l = contents_after ops oks (members w) (set_Name i).
Proof.
  intros Hops Hi Hw Hr Hl. apply run_ops_contents in Hr as [Hw1 Hr]; [|done..].
  apply list_entries_inv in Hl as ->; [|done..]. split; [apply NoDup_elements|].
  rewrite list_to_set_elements_L. apply Hr.
Qed.

Lemma destroy_loop_spec (f : string -> bool) names retErr w r w' : destroy_loop f names retErr w = (Ok r, w') ->
  Forall (fun n => plain n = true) names -> ipset_wf w ->
  (forall n, ipsets w' !! n = ipsets w !! n \/ ipsets w' !! n = None /\ f n = true /\ n ∈ names) /\
  (r = None -> retErr = None /\ forall n, n ∈ names -> f n = true -> ipsets w' !! n = None).
Proof.
  revert retErr w. induction names as [|n names IH]; intros retErr w Hr Hn Hw; cbn in Hr.
  - injection Hr as <- <-. split; [eauto|]. intros ->. split; [done|]. intros n Hn'. inversion Hn'.
  - apply Forall_cons in Hn as [Hn Hns]. destruct (f n) eqn:Hf.
    + apply eff_bind_inv in Hr as [(d & w1 & (d0 & [= <-] & E)%attempt_inv & Hr)|(e & (d0 & [=] & _)%attempt_inv & _)].
      apply destroy_inv in E as [Hw1 E]; [|done..]. apply IH in Hr as [Ha Hb]; [|done..]. split.
      * intros m. destruct (Ha m) as [->|(? & ? & ?)]; [|by right; split; [|split; [|right]]].
        destruct d; rewrite E; [|by left]. destruct (decide (m = n)) as [->|]; [|left; by rewrite lookup_delete_ne].
        right. rewrite lookup_delete_eq. split; [done|]. split; [done|]. left.
      * intros Hrn. destruct (Hb Hrn) as [He Hd]. destruct d; [|done]. split; [done|].
        intros m [->|Hm]%elem_of_cons Hfm; [|by apply Hd].
        destruct (Ha n) as [->|(? & _)]; [|done]. by rewrite E, lookup_delete_eq.
    + apply IH in Hr as [Ha Hb]; [|done..]. split.
      * intros m. destruct (Ha m) as [|(? & ? & ?)]; [by left|right]. split; [done|]. split; [done|]. by right.
      * intros Hrn. destruct (Hb Hrn) as [He Hd]. split; [done|]. intros m [->|Hm]%elem_of_cons Hfm; [congruence|by apply Hd].
Qed.

(** Destroying the sets whose names match takes no other set, and when it reports no
    error none of them is left. *)
Lemma destroy_sets_exactly (f : string -> bool) w r w' : DestroySets f w = (r, w') -> ipset_wf w ->
  (forall n, f n = false -> ipsets w' !! n = ipsets w !! n) /\
  (r = Ok tt -> forall n, f n = true -> ipsets w' !! n = None).
Proof.
  intros Hr Hw. unfold DestroySets in Hr. apply eff_bind_inv in Hr as [(names & w1 & Hl & Hr)|(e & Hl & ->)];
    unfold wrap_set, ListSets in Hl;
    match type of Hl with context [let '(_, _) := ?m w in _] => destruct (m w) as [r0 w2] eqn:E end;
    injection Hl as Hl <-; (destruct r0 as [l|]; [|try done]); simplify_eq/=.
  - apply eff_bind_inv in E as [(out & w3 & E & [= <- <-])|(e & _ & [=])].
    apply run_out in E as [Hw3 E]; [|done]. apply cmd_list_names in E as [Hs ->]; [|done].
    assert (Hp : Forall (fun n => plain n = true) (elements (dom (ipsets w)))).
    { apply Forall_forall. intros n Hn%elem_of_elements%elem_of_dom. by eapply names_plain. }
    rewrite Split_join_ended in Hr by (eapply Forall_impl; [exact Hp|]; intros n Hn; by apply plain_line).
    apply eff_bind_inv in Hr as [(d & w4 & Hd & Hr)|(e & Hd & ->)].
    + assert (Hw4 : w' = w4) by (destruct d; by injection Hr). subst w4.
      apply destroy_loop_spec in Hd as [Ha Hb]; [|by apply Forall_app; split; [|repeat constructor]|done]. split.
      * intros n Hn. destruct (Ha n) as [->|(_ & ? & _)]; [by rewrite Hs|congruence].
      * intros -> n Hn. destruct d; [done|]. destruct (Hb eq_refl) as [_ Hd].
        destruct (decide (n ∈ dom (ipsets w))) as [Hi|Hi%not_elem_of_dom].
        { apply Hd; [|done]. apply elem_of_app. left. by apply elem_of_elements. }
        destruct (Ha n) as [->|(? & _)]; [by rewrite Hs|done].
    + exfalso. clear -Hd. revert w3 w' Hd. generalize (@None pf_error). induction (elements (dom (ipsets w)) ++ [""]) as [|n l IH]; intros o w3 w' Hd; [done|].
      cbn in Hd. destruct (f n); [|by eapply IH].
      apply eff_bind_inv in Hd as [(d & w1 & _ & Hd)|(e' & (? & [=] & _)%attempt_inv & _)]. by eapply IH.
  - apply eff_bind_inv in E as [(out & w3 & E & [=])|(e' & E & [= <-])].
    apply run_out in E as [_ (f0 & _ & _ & Hs)]; [|done]. split; [|done]. intros n _. by rewrite Hs.
Qed.
End refinement.

(** * A kernel with sets *)
#[global] Instance member_line_dec e : Decision (member_line e).
Proof. unfold member_line. apply _. Defined.

Abbreviation kernel := (gmap string (gset string)).

Definition ref_header (n : string) : list string := ["Name: " +:+ n; "Type: hash:net"; "References: 0"].

Definition ref_ipset (args : list string) : eff kernel (string * string) string := fun k =>
  let refuse m := (Err ("exit status 1", "ipset v7.11: " +:+ m), k) in
  let missing := refuse "The set with the given name does not exist" in
  let add exist n e :=
    match k !! n with
    | None => missing
    | Some s => if bool_decide (member_line e) && (exist || negb (bool_decide (e ∈ s)))
                then (Ok "", <[n := {[e]} ∪ s]> k) else refuse "Element cannot be added to the set: it's already added"
    end in
  match args with
  | [c] => if c =?? "--version" then (Ok "ipset v7.11, protocol version: 7", k) else refuse "no command"
  | [c; n] =>
      if (c =?? "list") && (n =?? "-n") then (Ok (join_ended newline (elements (dom k))), k)
      else match k !! n with
           | None => missing
           | Some s =>
               if c =?? "list" then (Ok (join_ended newline (ref_header n ++ "Members:" :: elements s)), k)
               else if c =?? "flush" then (Ok "", <[n := ∅]> k)
               else if c =?? "destroy" then (Ok "", delete n k)
               else refuse "no command"
           end
  | c :: n :: params =>
      if c =?? "create" then
        if plain n && negb (bool_decide (n ∈ dom k) && negb (bool_decide ("-exist" ∈ params)))
        then (Ok "", <[n := zget ∅ k n]> k) else refuse "Set cannot be created: set with the same name already exists"
      else if c =?? "add" then
        match params with
        | [e] => add false n e
        | [m; e] => if n =?? "-exist" then add true m e else refuse "no command"
        | _ => refuse "no command"
        end
      else if c =?? "del" then
        match params, k !! n with
        | [e], Some s =>
            if decide (e ∈ s) then (Ok "", <[n := s ∖ {[e]}]> k)
            else refuse "Element cannot be deleted from the set: it's not added"
        | _, None => missing
        | _, _ => refuse "no command"
        end
      else refuse "no command"
  | [] => refuse "no command"
  end.

(** Twenty attempts. *)
Fixpoint ref_on_error (steps : nat) (retriable : string -> bool) (m : eff kernel string unit) : eff kernel string unit :=
  fun k => match m k with
           | (Err e, k1) => match steps with
                            | S steps => if retriable e then ref_on_error steps retriable m k1 else (Err e, k1)
                            | O => (Err e, k1)
                            end
           | r => r
           end.

#[global] Instance ref_ipset_cmd : IpsetCmd kernel := {| ipset_cmd := ref_ipset; OnError := ref_on_error 19 |}.

Definition kernel_wf (k : kernel) : Prop := map_Forall (fun n (s : gset string) => plain n = true /\ set_Forall member_line s) k.

Lemma kernel_wf_insert n (s : gset string) k : plain n = true -> set_Forall member_line s -> kernel_wf k -> kernel_wf (<[n := s]> k).
Proof. intros Hn Hs Hk. by apply map_Forall_insert_2. Qed.

Lemma kernel_wf_get n s k : kernel_wf k -> k !! n = Some s -> plain n = true /\ set_Forall member_line s.
Proof. intros Hk Hs. exact (Hk _ _ Hs). Qed.

Ltac ref_members :=
  repeat match goal with
  | Hk : kernel_wf ?k, H : ?k !! _ = Some _ |- _ => apply (kernel_wf_get _ _ _ Hk) in H as [? ?]
  | H : _ && _ = true |- _ => apply andb_true_iff in H as [? ?]
  | H : bool_decide (member_line _) = true |- _ => apply bool_decide_eq_true in H
  end.

Lemma ref_wf args k : kernel_wf k -> kernel_wf (ref_ipset args k).2.
Proof.
  intros Hk. unfold ref_ipset. repeat (case_match; try done); simpl; ref_members.
  all: try by apply kernel_wf_insert.
  all: try by apply map_Forall_delete.
  all: apply kernel_wf_insert; [done| |done].
  all: try by (apply set_Forall_union; [apply set_Forall_singleton|]).
  all: try by (intros x Hx; set_solver).
  unfold zget. destruct (k !! s0) eqn:?; ref_members; [done|]. intros x Hx. simpl in Hx. set_solver.
Qed.

Lemma ref_on_error_retried steps retriable m k r k' : ref_on_error steps retriable m k = (r, k') -> retried retriable m k r k'.
Proof.
  revert k. induction steps as [|steps IH]; intros k; cbn; destruct (m k) as [[u|e] k1] eqn:E.
  1-3: by intros [= <- <-]; apply retried_done.
  destruct (retriable e) eqn:He; [intros Hr; by eapply retried_again; eauto|intros [= <- <-]; by apply retried_done].
Qed.

Ltac ref_cases :=
  unfold ref_ipset in *; repeat (case_match; simplify_eq/=; try done).

#[local] Arguments join_ended : simpl never.
#[local] Arguments app : simpl never.
#[local] Arguments ref_header : simpl never.

#[global] Instance ref_ipset_laws : IpsetLaws kernel.
Proof.
  refine {| ipsets := fun k => k; ipset_wf := kernel_wf; canonical := member_line |}.
  - exact ref_wf.
  - intros args w e w' H. simpl in H. by ref_cases.
  - intros n params w out w' H. simpl in H. ref_cases.
  - intros exist n e w out w' [->| ->] He H; simpl in H; ref_cases; unfold zget.
    all: match goal with H : _ !! _ = Some _ |- _ => by rewrite H end.
  - intros n e w out w' He H. simpl in H. ref_cases. unfold zget.
    match goal with H : _ !! _ = Some _ |- _ => by rewrite H end.
  - intros n e w f w' He H Hf. simpl in H. unfold zget. ref_cases.
  - intros n w out w' H. simpl in H. by ref_cases.
  - intros n w f w' H Hf. simpl in H. by ref_cases.
  - intros n w out w' H. simpl in H. by ref_cases.
  - intros n w f w' H Hf. simpl in H. by ref_cases.
  - intros n w out w' Hn Hw H. simpl in H. unfold zget. ref_cases.
    all: bool_props; try done.
    match goal with H : _ !! _ = Some _ |- _ => apply (kernel_wf_get _ _ _ Hw) in H as [Hp _] end.
    split; [done|]. exists (ref_header n). split; [|reflexivity]. apply Forall_cons; split.
    + unfold no_char. rewrite chars_app, not_elem_of_app. split; [by apply (bool_decide_unpack _); vm_compute|].
      by apply plain_line.
    + repeat (apply Forall_cons; split); try apply Forall_nil; by apply (bool_decide_unpack _); vm_compute.
  - intros w out w' Hw H. by injection H as <- <-.
  - intros w n e Hw He. unfold zget in He. destruct (w !! n) as [s|] eqn:E; [|by simpl in He; set_solver].
    apply (kernel_wf_get _ _ _ Hw) in E as [_ E]. by apply E.
  - intros w n Hw [s Hs]. by apply (kernel_wf_get _ _ _ Hw) in Hs as [? _].
  - by intros e [He _].
  - exact (ref_on_error_retried 19).
Defined.

Definition ex_info (n : string) : SetInfo := {| set_Name := n; set_SetType := ""; set_Table := TableTypeFilter |}.

(** Two sets; the second creation and the last deletion fail or find nothing, and a
    destroyed set is made again. *)
Definition ex_ops : list (SetInfo * set_op) :=
  [ (ex_info "SM-LOCALCIDRS", OpCreate false);
    (ex_info "SM-LOCALCIDRS", OpAdd "10.1.0.0/16" true);
    (ex_info "SM-LOCALCIDRS", OpCreate false);
    (ex_info "SM-REMOTECIDRS", OpAdd "10.2.0.0/16" true);
    (ex_info "SM-REMOTECIDRS", OpCreate true);
    (ex_info "SM-REMOTECIDRS", OpAdd "10.2.0.0/16" true);
    (ex_info "SM-LOCALCIDRS", OpAdd "10.1.0.0/16" false);
    (ex_info "SM-LOCALCIDRS", OpAdd "10.3.0.0/16" false);
    (ex_info "SM-LOCALCIDRS", OpDel "10.1.0.0/16");
    (ex_info "SM-LOCALCIDRS", OpDel "10.1.0.0/16");
    (ex_info "SM-OTHER", OpFlush);
    (ex_info "SM-REMOTECIDRS", OpDestroy) ].

Definition ex_oks : list bool := [true; true; false; false; true; true; false; true; true; true; true; true].

Lemma named_sets_refine_witness :
  (namedSet_ListEntries (ex_info "SM-LOCALCIDRS") (run_ops IPv4 ex_ops ∅).2).1 = Ok ["10.3.0.0/16"] /\
  list_to_set ["10.3.0.0/16"] = contents_after ex_ops ex_oks (fun _ => ∅) "SM-LOCALCIDRS".
Proof.
  assert (Hl : (namedSet_ListEntries (ex_info "SM-LOCALCIDRS") (run_ops IPv4 ex_ops ∅).2).1 = Ok ["10.3.0.0/16"]) by (vm_compute; reflexivity).
  assert (Hr : run_ops IPv4 ex_ops ∅ = (ex_oks, (run_ops IPv4 ex_ops ∅).2)).
  { assert (H1 : (run_ops IPv4 ex_ops ∅).1 = ex_oks) by (vm_compute; reflexivity). rewrite <- H1. apply surjective_pairing. }
  revert Hl Hr. generalize (run_ops IPv4 ex_ops ∅).2. intros w1 Hl Hr. split; [exact Hl|]. apply run_pair in Hl.
  assert (Hops : Forall op_ok ex_ops).
  { repeat (apply Forall_cons; split); [..|by apply Forall_nil].
    all: split; [vm_compute; reflexivity|].
    all: first [exact I|apply (bool_decide_unpack (member_line _)); vm_compute; reflexivity]. }
  assert (Hwf : ipset_wf (∅ : kernel)) by exact (map_Forall_empty _).
  exact (proj2 (named_sets_refine IPv4 ex_ops (ex_info "SM-LOCALCIDRS") ∅ ex_oks w1 ["10.3.0.0/16"]
           _ Hops ltac:(discriminate) Hwf Hr Hl)).
Defined.
End NamedSet.
