(* ===== verification/Nftables.v ===== *)
(** The nftables driver (src/pkg/packetfilter/nftables): the rule written as a
    comment and read back (rule_conversion.go), the nft syntax of a rule, and the
    driver (nftables.go, namedset.go) as an instance of the packet filter
    interface over the third-party library, which is a class. *)
From stdpp Require Import base gmap list strings fin_sets.
From Stdlib Require String.
From Stdlib Require Import ZArith Lia Ascii.
From S2P Require Import Prelude GoNet K8s Endpoint PacketFilter.
Local Open Scope Z_scope.

Module Nftables.
Import PacketFilter.

(** * nft syntax (rule_conversion.go) *)
Definition addr_family (isIPv6 : bool) : string := if isIPv6 then "ip6" else "ip".

Definition protoToRuleSpec (proto : RuleProto) (dPort : string) (isIPv6 : bool) : list string :=
  let addrFamily := addr_family isIPv6 in
  let protoKW := if isIPv6 then "nexthdr" else "protocol" in
  match proto with
  | RuleProtoUDP =>
      [addrFamily; protoKW; "udp"] ++ (if dPort =?? "" then [] else ["udp"; "dport"; dPort])
  | RuleProtoTCP =>
      [addrFamily; protoKW; "tcp"] ++ (if dPort =?? "" then [] else ["tcp"; "dport"; dPort])
  | RuleProtoICMP => [addrFamily; protoKW; if isIPv6 then "icmpv6" else "icmp"]
  | RuleProtoAll | RuleProtoUndefined | RuleProtoOther _ => []
  end.

Definition mssClampToRuleSpec (clampType : MssClampType) (mssValue : string) : list string :=
  match clampType with
  | UndefinedMSS | MssOther _ => []
  | ToPMTU => ["size"; "set"; "rt"; "mtu"]
  | ToValue => ["size"; "set"; mssValue]
  end.

Definition when_set (v : string) (spec : list string) : list string := if v =?? "" then [] else spec.

Definition setToRuleSpec (srcSetName destSetName : string) (isIPv6 : bool) : list string :=
  when_set srcSetName [addr_family isIPv6; "saddr"; "@" +:+ srcSetName] ++
  when_set destSetName [addr_family isIPv6; "daddr"; "@" +:+ destSetName].

Definition ruleActionToStr (a : RuleAction) : list string :=
  match a with
  | RuleActionAccept => ["accept"]
  | RuleActionMss => ["tcp"; "option"; "maxseg"]
  | RuleActionMark => ["meta"; "mark"]
  | RuleActionSNAT => ["snat"]
  | RuleActionDNAT => ["dnat"]
  | RuleActionJump => ["jump"]
  | RuleActionSelfSNAT | RuleActionOther _ => []
  end.

Definition toNftRuleSpec (rule : Rule) (isIPv6 : bool) : string :=
  let setPrefix := addr_family isIPv6 in
  let isMark := Action rule =?? RuleActionMark in
  String.concat " " (
    protoToRuleSpec (Proto rule) (DPort rule) isIPv6 ++
    when_set (SrcCIDR rule) [setPrefix; "saddr"; SrcCIDR rule] ++
    when_set (DestCIDR rule) [setPrefix; "daddr"; DestCIDR rule] ++
    (if isMark then []
     else when_set (MarkValue rule) ["meta"; "mark"; "&"; MarkValue rule; "=="; MarkValue rule]) ++
    setToRuleSpec (SrcSetName rule) (DestSetName rule) isIPv6 ++
    when_set (OutInterface rule) ["oifname"; OutInterface rule] ++
    when_set (InInterface rule) ["iifname"; InInterface rule] ++
    (if Action rule =?? RuleActionMss then ["tcp"; "flags"; "syn / syn,rst"] else []) ++
    ["counter"] ++
    (if Action rule =?? RuleActionSelfSNAT then ["snat"; "to"; setPrefix; "saddr"]
     else ruleActionToStr (Action rule)) ++
    (if Action rule =?? RuleActionJump then [TargetChain rule] else []) ++
    when_set (SnatCIDR rule) ["to"; SnatCIDR rule] ++
    when_set (DnatCIDR rule) ["to"; DnatCIDR rule] ++
    mssClampToRuleSpec (ClampType rule) (MssValue rule) ++
    (if isMark then when_set (MarkValue rule) ["set"; "mark"; "|"; MarkValue rule] else [])).

(** * The comment of a rule *)
Definition serializedVersion : string := "1.0".

Definition writeString (buf s : string) : string := buf +:+ (s +:+ " ").
Definition writeUint32 (buf : string) (i : Z) : string := writeString buf (Strconv.Itoa i).

Definition SerializeRule (rule : Rule) : string :=
  let buf := serializedVersion in
  let buf := writeUint32 buf (action_code (Action rule)) in
  let buf := writeUint32 buf (clamp_code (ClampType rule)) in
  let buf := writeUint32 buf (proto_code (Proto rule)) in
  let buf := writeString buf (SrcSetName rule) in
  let buf := writeString buf (DestSetName rule) in
  let buf := writeString buf (SrcCIDR rule) in
  let buf := writeString buf (DestCIDR rule) in
  let buf := writeString buf (SnatCIDR rule) in
  let buf := writeString buf (DnatCIDR rule) in
  let buf := writeString buf (OutInterface rule) in
  let buf := writeString buf (InInterface rule) in
  let buf := writeString buf (DPort rule) in
  let buf := writeString buf (TargetChain rule) in
  let buf := writeString buf (MssValue rule) in
  writeString buf (MarkValue rule).

(** The bytes up to the first space and those after it. *)
Fixpoint cut_space (s : string) : option (string * string) :=
  match s with
  | String.EmptyString => None
  | String.String c s =>
      if Strconv.code c =? 32 then Some ("", s)
      else match cut_space s with
           | Some (a, b) => Some (String.String c a, b)
           | None => None
           end
  end.

(** The readers consume a buffer; [utilruntime.Must] panics on an error. *)
Definition mustReadString : eff string pf_error string := fun buf =>
  match cut_space buf with
  | Some (s, rest) => (Ok s, rest)
  | None => (Err (PanicParse buf), "")
  end.

Definition mustReadUint32 : eff string pf_error Z :=
  s ← mustReadString;
  match Strconv.ParseUint s 32 with
  | Ok u => mret u
  | Err _ => fail (PanicParse s)
  end.

(** [buf.Read(b)] for [b] of three bytes: an empty buffer is an error, a short one
    leaves zero bytes in [b]. *)
Definition read_version : eff string pf_error string := fun buf =>
  let nul := String.String (ascii_of_nat 0) "" in
  match buf with
  | String.EmptyString => (Err (Wrapped "error deserializing rule" (ErrLibrary "EOF")), "")
  | String.String a String.EmptyString => (Ok (String.String a (nul +:+ nul)), "")
  | String.String a (String.String b String.EmptyString) =>
      (Ok (String.String a (String.String b nul)), "")
  | String.String a (String.String b (String.String c rest)) =>
      (Ok (String.String a (String.String b (String.String c ""))), rest)
  end.

Definition read_rule (s : string) : eff string pf_error Rule :=
  version ← read_version;
  if negb (version =?? serializedVersion) then fail (ErrVersion s) else
  action ← mustReadUint32;
  clamp ← mustReadUint32;
  proto ← mustReadUint32;
  srcSetName ← mustReadString;
  destSetName ← mustReadString;
  srcCIDR ← mustReadString;
  destCIDR ← mustReadString;
  snatCIDR ← mustReadString;
  dnatCIDR ← mustReadString;
  outInterface ← mustReadString;
  inInterface ← mustReadString;
  dPort ← mustReadString;
  targetChain ← mustReadString;
  mssValue ← mustReadString;
  markValue ← mustReadString;
  mret (mkRule destCIDR srcCIDR srcSetName destSetName snatCIDR dnatCIDR outInterface inInterface
          targetChain mssValue dPort markValue (action_of_code action) (proto_of_code proto)
          (clamp_of_code clamp)).

Definition DeserializeRule (s : string) : result pf_error Rule := (read_rule s s).1.

(** ** Round trip *)
Definition no_space (s : string) : Prop :=
  Forall (fun c => (Strconv.code c =? 32) = false) (String.list_ascii_of_string s).

(** The rules a comment represents: no field holds a space and the enumerations
    are the numbers they are written as. *)
Record representable (r : Rule) : Prop := {
  rep_strings : Forall no_space (rule_strings r);
  rep_action : action_of_code (action_code (Action r)) = Action r /\ 0 <= action_code (Action r) < 2 ^ 32;
  rep_clamp : clamp_of_code (clamp_code (ClampType r)) = ClampType r /\ 0 <= clamp_code (ClampType r) < 2 ^ 32;
  rep_proto : proto_of_code (proto_code (Proto r)) = Proto r /\ 0 <= proto_code (Proto r) < 2 ^ 32;
}.

Lemma cut_space_app s rest : no_space s -> cut_space (s +:+ (" " +:+ rest)) = Some (s, rest).
Proof.
  unfold no_space. induction s as [|c s IH]; intros Hs; [done|].
  cbn in Hs. apply Forall_cons in Hs as [Hc Hs].
  rewrite string_app_cons. cbn [cut_space]. by rewrite Hc, IH.
Qed.

Lemma read_string_app {A} s rest (f : string -> eff string pf_error A) : no_space s ->
  (mustReadString ≫= f) (s +:+ (" " +:+ rest)) = f s rest.
Proof. intros Hs. unfold mbind, eff_bind, mustReadString. by rewrite cut_space_app. Qed.

Lemma no_space_Itoa n : 0 <= n -> no_space (Strconv.Itoa n).
Proof.
  intros Hn. eapply Forall_impl; [by apply Endpoint.Itoa_digits|]. intros c Hc.
  unfold Strconv.is_digit in Hc. apply andb_true_iff in Hc as [Hc _]. apply Z.leb_le in Hc. apply Z.eqb_neq. lia.
Qed.

Lemma read_uint_app {A} n rest (f : Z -> eff string pf_error A) : 0 <= n < 2 ^ 32 ->
  (mustReadUint32 ≫= f) (Strconv.Itoa n +:+ (" " +:+ rest)) = f n rest.
Proof.
  intros Hn. unfold mustReadUint32, mbind, eff_bind, mustReadString.
  rewrite cut_space_app by (apply no_space_Itoa; lia).
  by rewrite Endpoint.ParseUint_Itoa by lia.
Qed.

Lemma read_version_app {A} rest (f : string -> eff string pf_error A) :
  (read_version ≫= f) (serializedVersion +:+ rest) = f serializedVersion rest.
Proof. done. Qed.

Lemma deserialize_serialize r : representable r -> DeserializeRule (SerializeRule r) = Ok r.
Proof.
  intros [Hs [Ha Ha'] [Hc Hc'] [Hp Hp']]. unfold DeserializeRule, SerializeRule, writeUint32, writeString.
  rewrite !string_app_assoc.
  destruct r as [dc sc ss ds sn dn o i tc mv dp mk a p c]. simpl in *.
  repeat (apply Forall_cons in Hs as [? Hs]).
  unfold read_rule. rewrite read_version_app. cbn beta iota.
  rewrite bool_decide_true by done. cbn [negb].
  do 3 (rewrite read_uint_app by done). do 11 (rewrite read_string_app by done).
  rewrite <- (string_app_nil_r " "). rewrite read_string_app by done.
  cbn. by rewrite Ha, Hc, Hp.
Qed.

Lemma serialize_inj r r' : representable r -> representable r' ->
  SerializeRule r = SerializeRule r' -> r = r'.
Proof.
  intros Hr Hr' He. pose proof (deserialize_serialize r Hr) as H1.
  rewrite He, deserialize_serialize in H1 by done. by injection H1.
Qed.

(** Reading the comment written for a rule gives the rule back, and two rules
    with the same comment are the same: the comment identifies the rule. *)
Lemma serialize_roundtrip r : representable r ->
  DeserializeRule (SerializeRule r) = Ok r /\
  forall r', representable r' -> SerializeRule r' = SerializeRule r -> r' = r.
Proof.
  intros Hr. split; [by apply deserialize_serialize|]. intros r' Hr' He. by apply serialize_inj.
Qed.

(** * The library

    sigs.k8s.io/knftables holds one table of the host [W]: chains of rules, each
    with the handle and the comment it was given, and sets of elements.  Calls
    that change it are transactions. *)
Inductive nft_error := NftNotFound | NftOther (msg : string).

Record KRule := mkKRule {
  k_Rule : string;
  k_Comment : option string;
  k_Index : option Z;
  k_Handle : option Z;
}.

Inductive nft_op :=
| AddTable (comment : string) | FlushTable | DeleteTable
| AddChain (name : string) | AddBaseChain (name type hook priority : string)
| FlushChain (name : string) | DropChain (name : string)
| AddRule (chain : string) (r : KRule) | InsertRule (chain : string) (r : KRule)
| DeleteRule (chain : string) (handle : option Z)
| AddSet (name type : string) (interval : bool) | FlushSet (name : string) | DeleteSet (name : string)
| AddElement (set key : string) | DeleteElement (set key : string).

Class Knftables (W : Type) := {
  nft_List : string -> eff W nft_error (list string);
  nft_ListRules : string -> eff W nft_error (list KRule);
  nft_ListElements : string -> string -> eff W nft_error (list (list string));
  nft_Run : list nft_op -> eff W nft_error unit;
}.

Definition lib_error (e : nft_error) : pf_error :=
  match e with NftNotFound => ErrLibrary "not found" | NftOther m => ErrLibrary m end.

Definition wrap_lib {W A} (what : string) (m : eff W nft_error A) : eff W pf_error A :=
  fun w => let '(r, w') := m w in (map_err (fun e => Wrapped what (lib_error e)) r, w').

(** [if knftables.IsNotFound(err) { return nil }; return errors.Wrapf(err, what)] *)
Definition ignore_not_found {W} (what : string) (m : eff W nft_error unit) : eff W pf_error unit :=
  fun w => match m w with
           | (Err NftNotFound, w') => (Ok tt, w')
           | (r, w') => (map_err (fun e => Wrapped what (lib_error e)) r, w')
           end.

(** * The driver (nftables.go, namedset.go) *)
Section driver.
Context {W : Type} `{!Knftables W} (family : IPFamily).

Definition isIPv6 : bool := family =?? IPv6.

Definition table_op : nft_op := AddTable "rules for submariner".

Definition nft_Uninstall : eff W pf_error unit :=
  wrap_lib "error CleanUp table" (nft_Run [FlushTable; DeleteTable]).

Definition chainExists (chain : string) : eff W pf_error bool := fun w =>
  match nft_List "chains" w with
  | (Ok chainsList, w') => (Ok (bool_decide (chain ∈ chainsList)), w')
  | (Err NftNotFound, w') => (Ok false, w')
  | (Err e, w') => (Err (Wrapped "error listing chains" (lib_error e)), w')
  end.

(** The first rule of the chain with the comment of [rule]. *)
Definition getNftablesRuleFromList (chain : string) (rule : Rule) : eff W pf_error (option KRule) :=
  existingRules ← wrap_lib "failed list rules for chain" (nft_ListRules chain);
  mret (List.find (fun k => SerializeRule rule =?? default "" (k_Comment k)) existingRules).

Definition insertRuleAtPosition (chain : string) (rule : Rule) (pos : Z) : eff W pf_error unit :=
  let knftRule := mkKRule (toNftRuleSpec rule isIPv6) (Some (SerializeRule rule))
                    (if 1 <? pos then Some (pos - 2) else None) None in
  wrap_lib "error inserting rule"
    (nft_Run [table_op; if pos =? 1 then InsertRule chain knftRule else AddRule chain knftRule]).

Definition nft_AppendUnique (chain : string) (rule : Rule) : eff W pf_error unit :=
  found ← getNftablesRuleFromList chain rule;
  match found with
  | Some _ => mret tt
  | None => insertRuleAtPosition chain rule (-1)
  end.

Definition chainTypeToStr (t : ChainType) : string :=
  match t with ChainTypeFilter => "filter" | ChainTypeRoute => "route" | ChainTypeNAT => "nat" end.

Definition chainHookToStr (h : ChainHook) : string :=
  match h with
  | ChainHookPrerouting => "prerouting"
  | ChainHookInput => "input"
  | ChainHookForward => "forward"
  | ChainHookOutput => "output"
  | ChainHookPostrouting => "postrouting"
  end.

Definition basicPriority (t : ChainType) : string :=
  match t with ChainTypeFilter => "filter" | ChainTypeRoute => "mangle" | ChainTypeNAT => "dstnat" end.

Definition nft_CreateIPHookChain (chain : ChainIPHook) : eff W pf_error unit :=
  let chainPriority := basicPriority (hook_Type chain) +:+
    match hook_Priority chain with
    | ChainPriorityFirst => "-10" | ChainPriorityMiddle => "-5" | ChainPriorityLast => ""
    end in
  wrap_lib "error creating IPHook Chain"
    (nft_Run [table_op; AddBaseChain (hook_Name chain) (chainTypeToStr (hook_Type chain))
                          (chainHookToStr (hook_Hook chain)) chainPriority]).

Definition nft_CreateChain (chain : Chain) : eff W pf_error unit :=
  wrap_lib "error creating chain" (nft_Run [table_op; AddChain (chain_Name chain)]).

Definition nft_deleteChain (chain : string) : eff W pf_error unit :=
  ignore_not_found "error deleting chain" (nft_Run [DropChain chain]).

Definition nft_ClearChain (chain : string) : eff W pf_error unit :=
  ignore_not_found "error clearing chain" (nft_Run [FlushChain chain]).

Definition nft_Delete (chain : string) (rule : Rule) : eff W pf_error unit :=
  found ← wrap "error getting Nftables rules for chain" (getNftablesRuleFromList chain rule);
  match found with
  | None => mret tt
  | Some kRule =>
      ignore_not_found "error deleting rule from chain" (nft_Run [DeleteRule chain (k_Handle kRule)])
  end.

(** The loop of [List]: rules without a comment are skipped. *)
Fixpoint read_rules (l : list KRule) : result pf_error (list Rule) :=
  match l with
  | [] => Ok []
  | k :: l =>
      if default "" (k_Comment k) =?? "" then read_rules l
      else match DeserializeRule (default "" (k_Comment k)) with
           | Err e => Err e
           | Ok r => match read_rules l with Err e => Err e | Ok rs => Ok (r :: rs) end
           end
  end.

Definition nft_Rules (chain : string) : eff W pf_error (list Rule) :=
  existingRules ← wrap_lib "failed to list rules of chain" (nft_ListRules chain);
  lift_result (read_rules existingRules).

Definition set_type : string := if isIPv6 then "ipv6_addr" else "ipv4_addr".

Definition nft_set_Create (info : SetInfo) : eff W pf_error unit :=
  wrap_lib "error creating set" (nft_Run [table_op; AddSet (set_Name info) set_type true]).

Definition nft_set_Flush (info : SetInfo) : eff W pf_error unit :=
  ignore_not_found "error flushing set" (nft_Run [FlushSet (set_Name info)]).

Definition deleteSet (name : string) : eff W pf_error unit :=
  ignore_not_found "error deleting set" (nft_Run [DeleteSet name]).

Definition nft_set_AddEntry (info : SetInfo) (entry : string) : eff W pf_error unit :=
  wrap_lib "error adding entry to set" (nft_Run [AddElement (set_Name info) entry]).

Definition nft_set_DelEntry (info : SetInfo) (entry : string) : eff W pf_error unit :=
  wrap_lib "error deleting entry from set" (nft_Run [DeleteElement (set_Name info) entry]).

(** [existingElem.Key[0]] panics for an element without a key. *)
Fixpoint first_keys (l : list (list string)) : result pf_error (list string) :=
  match l with
  | [] => Ok []
  | [] :: _ => Err (PanicParse "")
  | (k :: _) :: l => match first_keys l with Err e => Err e | Ok ks => Ok (k :: ks) end
  end.

Definition nft_set_ListEntries (info : SetInfo) : eff W pf_error (list string) :=
  elems ← wrap_lib "error listing elements for set" (nft_ListElements "set" (set_Name info));
  lift_result (first_keys elems).

(** Every matching set is deleted; of the joined errors the first is kept. *)
Fixpoint destroy_matching (nameFilter : string -> bool) (sets : list string) (errs : list pf_error) :
    eff W pf_error unit :=
  match sets with
  | [] => match errs with
          | [] => mret tt
          | e :: _ => fail (Wrapped "joined" e)
          end
  | set :: sets =>
      if nameFilter set then
        r ← attempt (deleteSet set);
        destroy_matching nameFilter sets (errs ++ match r with Ok _ => [] | Err e => [e] end)
      else destroy_matching nameFilter sets errs
  end.

Definition nft_DestroySets (nameFilter : string -> bool) : eff W pf_error unit :=
  setsList ← (fun w => match nft_List "sets" w with
                       | (Ok l, w') => (Ok l, w')
                       | (Err NftNotFound, w') => (Ok [], w')
                       | (Err e, w') => (Err (Wrapped "error listing sets" (lib_error e)), w')
                       end);
  destroy_matching nameFilter setsList [].

(** nftables ignores the table of a chain: all chains are in one table. *)
Definition nftables_driver : PFDriver W := {|
  GetMSSClampTypes := (TableTypeFilter, ChainTypeFilter);
  ChainExists := fun _ chain => chainExists chain;
  CreateIPHookChainIfNotExists := nft_CreateIPHookChain;
  CreateChainIfNotExists := fun _ chain => nft_CreateChain chain;
  DeleteIPHookChain := fun chain => nft_deleteChain (hook_Name chain);
  DeleteChain := fun _ chain => nft_deleteChain chain;
  ClearChain := fun _ chain => nft_ClearChain chain;
  Delete := fun _ chain rule => nft_Delete chain rule;
  AppendUnique := fun _ chain rule => nft_AppendUnique chain rule;
  List := fun _ chain => nft_Rules chain;
  Append := fun _ chain rule => insertRuleAtPosition chain rule (-1);
  Insert := fun _ chain pos rule => insertRuleAtPosition chain rule pos;
  set_Flush := nft_set_Flush;
  set_Destroy := fun info => deleteSet (set_Name info);
  set_Create := fun info _ => nft_set_Create info;
  set_AddEntry := fun info entry _ => nft_set_AddEntry info entry;
  set_DelEntry := nft_set_DelEntry;
  set_ListEntries := nft_set_ListEntries;
  DestroySets := nft_DestroySets;
  Uninstall := nft_Uninstall;
|}.
End driver.

(** * The driver implements the interface

    What the library documents: a failed transaction changes nothing; a rule added
    gets a fresh handle and keeps its comment, at the end, or after the rule at
    its index, which must exist; [NftNotFound] means that the object is missing. *)
Class NftView (W : Type) := {
  nft_chain : W -> string -> list (Z * option string);
  nft_sets : W -> gmap string (gset string);
}.

Section nft_view.
Context {W : Type} `{!NftView W}.

Definition nft_same (w w' : W) : Prop :=
  (forall c, nft_chain w' c = nft_chain w c) /\ nft_sets w' = nft_sets w.

Definition nft_changed (c : string) (f : list (Z * option string) -> list (Z * option string)) (w w' : W) :
    Prop :=
  nft_chain w' c = f (nft_chain w c) /\
  (forall c', c' <> c -> nft_chain w' c' = nft_chain w c') /\ nft_sets w' = nft_sets w.

Definition nft_sets_changed (f : gmap string (gset string) -> gmap string (gset string)) (w w' : W) : Prop :=
  (forall c, nft_chain w' c = nft_chain w c) /\ nft_sets w' = f (nft_sets w).
End nft_view.

Class KnftablesLaws (W : Type) `{!Knftables W} `{!NftView W} := {
  nft_handles : forall w c, NoDup (nft_chain w c).*1;
  nft_list_rules : forall c w r w', nft_ListRules c w = (r, w') ->
    nft_same w w' /\ forall l, r = Ok l ->
      (fun k => (k_Handle k, k_Comment k)) <$> l = (fun x => (Some x.1, x.2)) <$> nft_chain w c;
  nft_run_err : forall ops w e w', nft_Run ops w = (Err e, w') -> nft_same w w';
  nft_add_rule : forall s c k w w', nft_Run [AddTable s; AddRule c k] w = (Ok tt, w') -> exists h,
    nft_changed c (fun l => match k_Index k with
                            | None => l ++ [(h, k_Comment k)]
                            | Some i => insert_at (Z.to_nat (i + 1)) (h, k_Comment k) l
                            end) w w' /\
    forall i, k_Index k = Some i -> 0 <= i < Z.of_nat (length (nft_chain w c));
  nft_insert_rule : forall s c k w w', k_Index k = None ->
    nft_Run [AddTable s; InsertRule c k] w = (Ok tt, w') -> exists h,
    nft_changed c (cons (h, k_Comment k)) w w';
  nft_delete_rule : forall c h w w', nft_Run [DeleteRule c (Some h)] w = (Ok tt, w') ->
    nft_changed c (filter (fun x => x.1 <> h)) w w';
  nft_delete_missing : forall c h w w', nft_Run [DeleteRule c (Some h)] w = (Err NftNotFound, w') ->
    h ∉ (nft_chain w c).*1;
  nft_flush : forall c w w', nft_Run [FlushChain c] w = (Ok tt, w') -> nft_changed c (fun _ => []) w w';
  nft_flush_missing : forall c w w', nft_Run [FlushChain c] w = (Err NftNotFound, w') -> nft_chain w c = [];
  nft_add_set : forall s n t i w w', nft_Run [AddTable s; AddSet n t i] w = (Ok tt, w') ->
    nft_sets_changed (fun m => <[n := zget ∅ m n]> m) w w';
  nft_delete_set : forall n w w', nft_Run [DeleteSet n] w = (Ok tt, w') ->
    nft_sets_changed (delete n) w w';
  nft_delete_set_missing : forall n w w', nft_Run [DeleteSet n] w = (Err NftNotFound, w') ->
    nft_sets w !! n = None;
  nft_add_element : forall n k w w', nft_Run [AddElement n k] w = (Ok tt, w') ->
    nft_sets_changed (fun m => <[n := {[k]} ∪ zget ∅ m n]> m) w w';
  nft_delete_element : forall n k w w', nft_Run [DeleteElement n k] w = (Ok tt, w') ->
    nft_sets_changed (fun m => <[n := zget ∅ m n ∖ {[k]}]> m) w w';
}.

(** [holds l rs]: the comments of the chain are those of the rules [rs]. *)
Definition holds (l : list (Z * option string)) (rs : list Rule) : Prop :=
  l.*2 = (fun r => Some (SerializeRule r)) <$> rs /\ Forall representable rs.

Definition comment_rule (cm : option string) : option Rule :=
  match DeserializeRule (default "" cm) with Ok r => Some r | Err _ => None end.

Definition chain_rules (l : list (Z * option string)) : list Rule := omap (fun x => comment_rule x.2) l.

Lemma serialized_nonempty r : SerializeRule r <> "".
Proof. unfold SerializeRule, writeUint32, writeString. by rewrite !string_app_assoc. Qed.

Lemma comment_rule_serialize r : representable r -> comment_rule (Some (SerializeRule r)) = Some r.
Proof.
  intros Hr. unfold comment_rule. change (default "" (Some ?x)) with x.
  by rewrite deserialize_serialize.
Qed.

Lemma chain_rules_holds l rs : holds l rs -> chain_rules l = rs.
Proof.
  intros [Hl Hr]. revert rs Hl Hr. induction l as [|[h cm] l IH]; intros [|r rs] Hl Hr; try done.
  cbn in Hl. injection Hl as -> Hl. apply Forall_cons in Hr as [Hr1 Hr].
  unfold chain_rules. cbn [omap list_omap snd]. rewrite comment_rule_serialize by done.
  f_equal. by apply IH.
Qed.

Lemma read_rules_holds (ks : list KRule) : forall l rs, holds l rs ->
  (fun k => (k_Handle k, k_Comment k)) <$> ks = (fun x => (Some x.1, x.2)) <$> l -> read_rules ks = Ok rs.
Proof.
  induction ks as [|k ks IH]; intros [|[h cm] l] [|r rs] [Hl Hr] Hk; try done.
  cbn in Hl, Hk. injection Hl as -> Hl. injection Hk as Hh Hc Hk.
  apply Forall_cons in Hr as [Hr1 Hr]. cbn [read_rules]. rewrite Hc.
  change (default "" (Some ?x)) with x.
  rewrite bool_decide_false by apply serialized_nonempty.
  rewrite deserialize_serialize by done. by rewrite (IH l rs).
Qed.

(** Where the search by comment finds the rule. *)
Lemma find_rule_holds r (ks : list KRule) : forall l rs, representable r -> holds l rs ->
  (fun k => (k_Handle k, k_Comment k)) <$> ks = (fun x => (Some x.1, x.2)) <$> l ->
  match List.find (fun k => SerializeRule r =?? default "" (k_Comment k)) ks with
  | None => r ∉ rs
  | Some k => exists l1 h l2 rs1 rs2, l = l1 ++ (h, Some (SerializeRule r)) :: l2 /\
      rs = rs1 ++ r :: rs2 /\ holds l1 rs1 /\ holds l2 rs2 /\ k_Handle k = Some h /\ r ∉ rs1
  end.
Proof.
  intros l rs Hr. revert l rs.
  induction ks as [|k ks IH]; intros [|[h cm] l] [|r' rs] [Hl Hrs] Hk; try done; [by cbn; set_solver|].
  cbn in Hl, Hk. injection Hl as -> Hl. injection Hk as Hh Hc Hk.
  apply Forall_cons in Hrs as [Hr1 Hrs]. cbn [List.find]. rewrite Hc.
  change (default "" (Some ?x)) with x.
  case_bool_decide as Hb.
  - apply serialize_inj in Hb as <-; [|done..].
    exists [], h, l, [], rs. repeat split; try done. set_solver.
  - specialize (IH l rs (conj Hl Hrs) Hk). case_match eqn:Hf.
    + destruct IH as (l1 & h' & l2 & rs1 & rs2 & -> & -> & [H1 H1'] & H2 & H3 & H4).
      exists ((h, Some (SerializeRule r')) :: l1), h', l2, (r' :: rs1), rs2.
      repeat split; try done; try apply H2; [|by constructor|].
      * cbn. by rewrite H1.
      * apply not_elem_of_cons. split; [congruence|done].
    + apply not_elem_of_cons. split; [congruence|done].
Qed.

Lemma holds_app l1 l2 rs1 rs2 : holds l1 rs1 -> holds l2 rs2 -> holds (l1 ++ l2) (rs1 ++ rs2).
Proof.
  intros [H1 H1'] [H2 H2']. split; [by rewrite !fmap_app, H1, H2|by apply Forall_app].
Qed.

Lemma holds_one h r : representable r -> holds [(h, Some (SerializeRule r))] [r].
Proof. intros Hr. split; [done|by constructor]. Qed.

Lemma holds_nil : holds [] [].
Proof. split; [done|constructor]. Qed.

Lemma holds_take n l rs : holds l rs -> holds (take n l) (take n rs).
Proof. intros [H1 H2]. split; [by rewrite !fmap_take, H1|by apply Forall_take]. Qed.

Lemma holds_drop n l rs : holds l rs -> holds (drop n l) (drop n rs).
Proof. intros [H1 H2]. split; [by rewrite !fmap_drop, H1|by apply Forall_drop]. Qed.

Lemma holds_insert n h r l rs : representable r -> holds l rs ->
  holds (insert_at n (h, Some (SerializeRule r)) l) (insert_at n r rs).
Proof.
  intros Hr Hl. unfold insert_at. apply holds_app; [by apply holds_take|].
  apply (holds_app [_] _ [_]); [by apply holds_one|by apply holds_drop].
Qed.

Lemma holds_length l rs : holds l rs -> length l = length rs.
Proof. intros [H _]. apply (f_equal length) in H. by rewrite !length_fmap in H. Qed.

(** With distinct handles, deleting a handle removes the rule that has it. *)
Lemma filter_handle (h : Z) (cm : option string) l1 l2 : NoDup (l1 ++ (h, cm) :: l2).*1 ->
  filter (fun x => x.1 <> h) (l1 ++ (h, cm) :: l2) = l1 ++ l2.
Proof.
  rewrite fmap_app, fmap_cons. intros (_ & H1 & H2)%NoDup_app. apply NoDup_cons in H2 as [H2 _].
  rewrite filter_app, filter_cons. cbn [fst]. rewrite decide_False by tauto.
  f_equal; apply filter_all, Forall_forall; intros [h' cm'] Hx Heq; cbn in Heq; subst h'.
  - apply (H1 h); [|by left]. apply list_elem_of_fmap. by exists (h, cm').
  - apply H2, list_elem_of_fmap. by exists (h, cm').
Qed.

Lemma remove_first_found r rs1 rs2 : r ∉ rs1 -> remove_first r (rs1 ++ r :: rs2) = rs1 ++ rs2.
Proof.
  induction rs1 as [|x rs1 IH]; intros Hr; simpl.
  - by rewrite bool_decide_true.
  - apply not_elem_of_cons in Hr as [Hx Hr]. rewrite bool_decide_false by congruence. by rewrite IH.
Qed.

#[global] Instance nftables_view {W} `{!NftView W} : FilterView W := {|
  rules := fun w _ c => chain_rules (nft_chain w c);
  named_sets := nft_sets;
  pf_wf := fun w => forall c, exists rs, holds (nft_chain w c) rs;
  valid_rule := representable;
|}.

Section laws.
Context {W : Type} `{!Knftables W} `{!NftView W} `{!KnftablesLaws W} (family : IPFamily).

Lemma nft_same_ok (w w' : W) : pf_wf w -> nft_same w w' -> pf_wf w' /\ same_filter w w'.
Proof.
  intros Hwf [Hc Hs]. split.
  - intros c. rewrite Hc. apply Hwf.
  - split; [|done]. intros t c. cbn. by rewrite Hc.
Qed.

Lemma nft_changed_ok t c f g (w w' : W) : pf_wf w -> nft_changed c f w w' ->
  (forall rs, holds (nft_chain w c) rs -> holds (f (nft_chain w c)) (g rs)) ->
  pf_wf w' /\ chain_changed t c g w w'.
Proof.
  intros Hwf (H1 & H2 & H3) Hfg. destruct (Hwf c) as [rs Hrs]. split.
  - intros c'. destruct (decide (c' = c)) as [->|Hc].
    + rewrite H1. eexists. by apply Hfg.
    + rewrite H2 by done. apply Hwf.
  - split; [|split; [|done]]; cbn.
    + rewrite H1, (chain_rules_holds _ _ Hrs). apply chain_rules_holds. by apply Hfg.
    + intros _ c' Hc. by rewrite H2.
Qed.

Lemma nft_sets_ok f (w w' : W) : pf_wf w -> nft_sets_changed f w w' -> pf_wf w' /\ sets_changed f w w'.
Proof.
  intros Hwf [Hc Hs]. split; [intros c; rewrite Hc; apply Hwf|]. split; [|done].
  intros t c. cbn. by rewrite Hc.
Qed.

(** A call that only runs a transaction. *)
Lemma wrap_lib_spec what ops (post : W -> W -> Prop) :
  (forall w w', pf_wf w -> nft_Run ops w = (Ok tt, w') -> pf_wf w' /\ post w w') ->
  call_spec (wrap_lib what (nft_Run ops)) post.
Proof.
  intros Hok w r w' Hwf. unfold wrap_lib. destruct (nft_Run ops w) as [[[]|e] w1] eqn:Hr; intros [= <- <-].
  - by apply Hok.
  - apply nft_run_err in Hr. by apply nft_same_ok.
Qed.

Lemma ignore_not_found_spec what ops (post : W -> W -> Prop) :
  (forall w w', pf_wf w -> nft_Run ops w = (Ok tt, w') -> pf_wf w' /\ post w w') ->
  (forall w w', pf_wf w -> nft_Run ops w = (Err NftNotFound, w') -> nft_same w w' -> post w w') ->
  call_spec (ignore_not_found what (nft_Run ops)) post.
Proof.
  intros Hok Hnf w r w' Hwf. unfold ignore_not_found.
  destruct (nft_Run ops w) as [[[]|e] w1] eqn:Hr.
  - intros [= <- <-]. by apply Hok.
  - pose proof (nft_run_err _ _ _ _ Hr) as Hsame. destruct (nft_same_ok _ _ Hwf Hsame).
    destruct e; intros [= <- <-]; [|done]. split; [done|]. by eapply Hnf.
Qed.

Lemma getNftablesRuleFromList_spec c r w res w' : representable r -> pf_wf w ->
  getNftablesRuleFromList c r w = (res, w') ->
  nft_same w w' /\ forall found, res = Ok found ->
    match found with
    | None => r ∉ chain_rules (nft_chain w c)
    | Some k => exists l1 h l2 rs1 rs2, nft_chain w c = l1 ++ (h, Some (SerializeRule r)) :: l2 /\
        chain_rules (nft_chain w c) = rs1 ++ r :: rs2 /\ holds l1 rs1 /\ holds l2 rs2 /\
        k_Handle k = Some h /\ r ∉ rs1
    end.
Proof.
  intros Hr Hwf. unfold getNftablesRuleFromList, wrap_lib, mbind, eff_bind.
  destruct (nft_ListRules c w) as [[ks|e] w1] eqn:Hl; apply nft_list_rules in Hl as [Hs Hks].
  - cbn. intros [= <- <-]. split; [done|]. intros found [= <-].
    destruct (Hwf c) as [rs Hrs]. rewrite (chain_rules_holds _ _ Hrs).
    exact (find_rule_holds r ks _ _ Hr Hrs (Hks _ eq_refl)).
  - cbn. intros [= <- <-]. by split.
Qed.

Lemma insert_rule_spec t c r pos : representable r ->
  call_spec (insertRuleAtPosition family c r pos) (fun w w' =>
    pos <= Z.of_nat (length (rules w t c)) + 1 /\
    chain_changed t c (fun l => if 1 <=? pos then insert_at (Z.to_nat (pos - 1)) r l else l ++ [r]) w w').
Proof.
  intros Hr. unfold insertRuleAtPosition. apply wrap_lib_spec. intros w w' Hwf Hrun.
  destruct (Hwf c) as [rs0 Hrs0].
  assert (Hlen : length (rules w t c) = length (nft_chain w c)).
  { cbn. rewrite (chain_rules_holds _ _ Hrs0). symmetry. by apply holds_length. }
  rewrite Hlen. clear rs0 Hrs0 Hlen. destruct (Z.eqb_spec pos 1) as [-> |Hp1].
  - apply nft_insert_rule in Hrun as [h Hch]; [|done].
    apply (nft_changed_ok t _ _ (insert_at 0 r)) in Hch as [Hwf' Hch]; [|done|].
    + split; [done|]. split; [lia|]. exact Hch.
    + intros rs Hrs. by apply (holds_insert 0).
  - apply nft_add_rule in Hrun as (h & Hch & Hi). cbn [k_Index k_Comment] in *.
    destruct (Z.ltb_spec 1 pos) as [Hp|Hp].
    + specialize (Hi _ eq_refl). replace (1 <=? pos) with true by (symmetry; lia).
      apply (nft_changed_ok t _ _ (insert_at (Z.to_nat (pos - 1)) r)) in Hch as [Hwf' Hch]; [|done|].
      * split; [done|]. split; [lia|exact Hch].
      * intros rs Hrs. replace (pos - 2 + 1) with (pos - 1) by lia. by apply holds_insert.
    + replace (1 <=? pos) with false by (symmetry; lia).
      apply (nft_changed_ok t _ _ (fun l => l ++ [r])) in Hch as [Hwf' Hch]; [|done|].
      * split; [done|]. split; [lia|exact Hch].
      * intros rs Hrs. apply holds_app; [done|by apply holds_one].
Qed.

Lemma nft_delete_spec t c r : representable r ->
  call_spec (nft_Delete c r) (chain_changed t c (remove_first r)).
Proof.
  intros Hr w res w' Hwf Hrun. unfold nft_Delete in Hrun.
  destruct (getNftablesRuleFromList c r w) as [found w1] eqn:Hg.
  pose proof (getNftablesRuleFromList_spec _ _ _ _ _ Hr Hwf Hg) as [Hsame Hf].
  destruct (nft_same_ok _ _ Hwf Hsame) as [Hwf1 Hsf].
  unfold wrap, mbind, eff_bind in Hrun. rewrite Hg in Hrun.
  destruct found as [found|e]; cbn [map_err] in Hrun; [|injection Hrun as <- <-; by split].
  specialize (Hf _ eq_refl). destruct found as [k|].
  - destruct Hf as (l1 & h & l2 & rs1 & rs2 & Hl & Hrs & H1 & H2 & Hh & Hn). rewrite Hh in Hrun.
    assert (Hl1 : nft_chain w1 c = l1 ++ (h, Some (SerializeRule r)) :: l2) by (by rewrite (proj1 Hsame)).
    unfold ignore_not_found in Hrun. destruct (nft_Run _ w1) as [[[]|e] w2] eqn:Hd.
    + injection Hrun as <- <-. apply nft_delete_rule in Hd.
      apply (nft_changed_ok t _ _ (remove_first r)) in Hd as [Hwf2 Hch]; [|done|].
      { split; [done|]. by eapply chain_changed_same. }
      intros rs Hrs'. rewrite Hl1 in *. pose proof (nft_handles w1 c) as Hnd. rewrite Hl1 in Hnd.
      rewrite filter_handle by done.
      rewrite <- (chain_rules_holds _ _ Hrs'), <- Hl, Hrs, remove_first_found by done.
      by apply holds_app.
    + destruct e as [|m]; [|injection Hrun as <- <-].
      * exfalso. apply nft_delete_missing in Hd. apply Hd.
        rewrite Hl1, fmap_app. apply elem_of_app. right. left.
      * apply nft_run_err in Hd. destruct (nft_same_ok _ _ Hwf1 Hd) as [Hwf2 Hsf2].
        split; [done|]. by eapply same_filter_trans.
  - injection Hrun as <- <-. split; [done|].
    eapply chain_changed_ext; [|apply chain_changed_same with w1; [done|apply chain_changed_id]].
    unfold id. symmetry. apply remove_first_absent. exact Hf.
Qed.

Lemma nft_append_unique_spec t c r : representable r ->
  call_spec (nft_AppendUnique family c r)
    (chain_changed t c (fun l => if bool_decide (r ∈ l) then l else l ++ [r])).
Proof.
  intros Hr w res w' Hwf Hrun. unfold nft_AppendUnique, mbind, eff_bind in Hrun.
  destruct (getNftablesRuleFromList c r w) as [found w1] eqn:Hg.
  pose proof (getNftablesRuleFromList_spec _ _ _ _ _ Hr Hwf Hg) as [Hsame Hf].
  destruct (nft_same_ok _ _ Hwf Hsame) as [Hwf1 Hsf].
  destruct found as [found|e]; [|injection Hrun as <- <-; by split].
  specialize (Hf _ eq_refl). destruct found as [k|].
  - destruct Hf as (l1 & h & l2 & rs1 & rs2 & _ & Hrs & _). injection Hrun as <- <-. split; [done|].
    eapply chain_changed_ext; [|apply chain_changed_same with w1; [done|apply chain_changed_id]].
    cbn. rewrite Hrs, bool_decide_true; [done|]. apply elem_of_app. right. left.
  - destruct (insert_rule_spec t c r (-1) Hr _ _ _ Hwf1 Hrun) as [Hwf2 Hres]. split; [done|].
    destruct res as [[]|e]; [|by eapply same_filter_trans].
    destruct Hres as [_ Hch]. eapply chain_changed_same; [done|].
    eapply chain_changed_ext; [|exact Hch]. cbn. rewrite (proj1 Hsame), bool_decide_false by done. done.
Qed.

Lemma nft_list_spec t c w res w' : pf_wf w -> nft_Rules c w = (res, w') ->
  pf_wf w' /\ same_filter w w' /\ forall l, res = Ok l -> l = rules w t c.
Proof.
  intros Hwf. unfold nft_Rules, wrap_lib, mbind, eff_bind, lift_result.
  destruct (nft_ListRules c w) as [[ks|e] w1] eqn:Hl; apply nft_list_rules in Hl as [Hs Hks];
    destruct (nft_same_ok _ _ Hwf Hs); cbn; intros [= <- <-]; (split; [done|]; split; [done|]); [|done].
  intros l Hread. destruct (Hwf c) as [rs Hrs].
  rewrite (read_rules_holds ks _ _ Hrs (Hks _ eq_refl)) in Hread. injection Hread as <-.
  symmetry. by apply chain_rules_holds.
Qed.

#[local] Existing Instance nftables_driver.

(** The nftables driver fulfils the contract of the interface. *)
Lemma nftables_laws : @PFDriverLaws W (nftables_driver family) nftables_view.
Proof.
  split.
  - intros t c w r w'. apply nft_list_spec.
  - intros t c w Hwf. destruct (Hwf c) as [rs Hrs]. cbn. rewrite (chain_rules_holds _ _ Hrs). apply Hrs.
  - intros t c r Hr w res w' Hwf Hrun.
    destruct (insert_rule_spec t c r (-1) Hr _ _ _ Hwf Hrun) as [Hwf' Hres]. split; [done|].
    destruct res; [apply Hres|done].
  - intros t c r Hr. by apply nft_append_unique_spec.
  - intros t c pos r Hr Hpos w res w' Hwf Hrun.
    destruct (insert_rule_spec t c r pos Hr _ _ _ Hwf Hrun) as [Hwf' Hres]. split; [done|].
    destruct res; [|done]. destruct Hres as [Hlen Hch]. split; [done|].
    by replace (1 <=? pos) with true in Hch by (symmetry; lia).
  - intros t c r Hr. by apply nft_delete_spec.
  - intros t c. apply ignore_not_found_spec.
    + intros w w' Hwf Hf. apply nft_flush in Hf. eapply nft_changed_ok; [done|exact Hf|].
      intros. apply holds_nil.
    + intros w w' Hwf Hf Hs. apply nft_flush_missing in Hf. destruct Hs as [Hs Hs'].
      split; [|split; [|done]]; cbn; [by rewrite Hs, Hf|intros _ c' _; by rewrite Hs].
  - intros i b. apply wrap_lib_spec. intros w w' Hwf Hr. apply nft_add_set in Hr. by apply nft_sets_ok.
  - intros i e b. apply wrap_lib_spec. intros w w' Hwf Hr. apply nft_add_element in Hr. by apply nft_sets_ok.
  - intros i e. apply wrap_lib_spec. intros w w' Hwf Hr. apply nft_delete_element in Hr. by apply nft_sets_ok.
  - intros i. apply ignore_not_found_spec.
    + intros w w' Hwf Hr. apply nft_delete_set in Hr. by apply nft_sets_ok.
    + intros w w' Hwf Hr [Hs Hs']. apply nft_delete_set_missing in Hr. split; cbn.
      * intros _ c. by rewrite Hs.
      * by rewrite delete_id.
Qed.
End laws.

(** * A table on which the hypotheses hold *)
Record nft_state := mkNft {
  ns_chains : gmap string (list (Z * option string));
  ns_next : Z;
  ns_sets : gmap string (gset string);
}.

Definition ns_update (c : string) (l : list (Z * option string)) (s : nft_state) : nft_state :=
  mkNft (<[c := l]> (ns_chains s)) (ns_next s + 1) (ns_sets s).

Definition ns_on_set (n : string) (e : gset string) (s : nft_state) : nft_state :=
  mkNft (ns_chains s) (ns_next s) (<[n := e]> (ns_sets s)).

Definition apply_op (op : nft_op) (s : nft_state) : result nft_error nft_state :=
  let on_chain c (f : list (Z * option string) -> result nft_error nft_state) :=
    match ns_chains s !! c with Some l => f l | None => Err NftNotFound end in
  let on_set n (f : gset string -> result nft_error nft_state) :=
    match ns_sets s !! n with Some e => f e | None => Err NftNotFound end in
  match op with
  | AddTable _ => Ok s
  | FlushTable => Ok (mkNft ((fun _ => []) <$> ns_chains s) (ns_next s) (ns_sets s))
  | DeleteTable => Ok (mkNft ∅ (ns_next s) ∅)
  | AddChain c | AddBaseChain c _ _ _ => Ok (ns_update c (zget [] (ns_chains s) c) s)
  | FlushChain c => on_chain c (fun _ => Ok (ns_update c [] s))
  | DropChain c => on_chain c (fun _ => Ok (mkNft (delete c (ns_chains s)) (ns_next s) (ns_sets s)))
  | AddRule c k =>
      on_chain c (fun l =>
        match k_Index k with
        | None => Ok (ns_update c (l ++ [(ns_next s, k_Comment k)]) s)
        | Some i =>
            if (0 <=? i) && (i <? Z.of_nat (length l))
            then Ok (ns_update c (insert_at (Z.to_nat (i + 1)) (ns_next s, k_Comment k) l) s)
            else Err NftNotFound
        end)
  | InsertRule c k => on_chain c (fun l => Ok (ns_update c ((ns_next s, k_Comment k) :: l) s))
  | DeleteRule c (Some h) =>
      on_chain c (fun l => if bool_decide (h ∈ l.*1) then Ok (ns_update c (filter (fun x => x.1 <> h) l) s)
                           else Err NftNotFound)
  | DeleteRule _ None => Err (NftOther "no handle")
  | AddSet n _ _ => Ok (ns_on_set n (zget ∅ (ns_sets s) n) s)
  | FlushSet n => on_set n (fun _ => Ok (ns_on_set n ∅ s))
  | DeleteSet n => on_set n (fun _ => Ok (mkNft (ns_chains s) (ns_next s) (delete n (ns_sets s))))
  | AddElement n k => on_set n (fun e => Ok (ns_on_set n ({[k]} ∪ e) s))
  | DeleteElement n k =>
      on_set n (fun e => if bool_decide (k ∈ e) then Ok (ns_on_set n (e ∖ {[k]}) s) else Err NftNotFound)
  end.

Fixpoint apply_ops (ops : list nft_op) (s : nft_state) : result nft_error nft_state :=
  match ops with
  | [] => Ok s
  | op :: ops => match apply_op op s with Ok s => apply_ops ops s | Err e => Err e end
  end.

(** The handles of a chain are distinct. *)
Definition ns_wf (s : nft_state) : Prop := map_Forall (fun _ l => NoDup (fst <$> l)) (ns_chains s).

#[global] Instance ns_wf_dec s : Decision (ns_wf s).
Proof. unfold ns_wf. apply _. Defined.

Definition table := { s : nft_state | ns_wf s }.

Definition nft_ref : Knftables table := {|
  nft_List := fun kind t =>
    (Ok (if kind =?? "chains" then (map_to_list (ns_chains (proj1_sig t))).*1
         else (map_to_list (ns_sets (proj1_sig t))).*1), t);
  nft_ListRules := fun c t =>
    match ns_chains (proj1_sig t) !! c with
    | Some l => (Ok ((fun x => mkKRule "" x.2 None (Some x.1)) <$> l), t)
    | None => (Err NftNotFound, t)
    end;
  nft_ListElements := fun _ n t =>
    match ns_sets (proj1_sig t) !! n with
    | Some e => (Ok ((fun k => [k]) <$> elements e), t)
    | None => (Err NftNotFound, t)
    end;
  nft_Run := fun ops t =>
    match apply_ops ops (proj1_sig t) with
    | Err e => (Err e, t)
    | Ok s => match decide (ns_wf s) with
              | left H => (Ok tt, exist _ s H)
              | right _ => (Err (NftOther "no handle left"), t)
              end
    end;
|}.

Definition nft_ref_view : NftView table := {|
  nft_chain := fun t c => zget [] (ns_chains (proj1_sig t)) c;
  nft_sets := fun t => ns_sets (proj1_sig t);
|}.

Lemma ref_run_ok ops (t t' : table) : @nft_Run _ nft_ref ops t = (Ok tt, t') ->
  apply_ops ops (proj1_sig t) = Ok (proj1_sig t').
Proof. cbn. case_match; [|done]. case_match; [|done]. by intros [= <-]. Qed.

Lemma ref_run_missing ops (t t' : table) : @nft_Run _ nft_ref ops t = (Err NftNotFound, t') ->
  apply_ops ops (proj1_sig t) = Err NftNotFound.
Proof. cbn. case_match; [by case_match|]. by intros [= -> _]. Qed.

Lemma ns_update_changed c l (f : list (Z * option string) -> list (Z * option string)) (t t' : table) :
  proj1_sig t' = ns_update c (f l) (proj1_sig t) -> ns_chains (proj1_sig t) !! c = Some l ->
  @nft_changed _ nft_ref_view c f t t'.
Proof.
  intros Ht Hl. unfold nft_changed, nft_chain, nft_sets, nft_ref_view. rewrite Ht. cbn.
  split; [by rewrite zget_insert_eq; unfold zget; rewrite Hl|]. split; [|done].
  intros c' Hc. by rewrite zget_insert_ne.
Qed.

Lemma ns_sets_changed n (f : gmap string (gset string) -> gmap string (gset string)) (t t' : table) :
  mkNft (ns_chains (proj1_sig t)) n (f (ns_sets (proj1_sig t))) = proj1_sig t' ->
  @nft_sets_changed _ nft_ref_view f t t'.
Proof. intros Ht. split; cbn; by rewrite <- Ht. Qed.

(** Take a successful or failed transaction of known operations apart. *)
Ltac ref_run :=
  match goal with
  | H : nft_Run _ _ = (Ok tt, _) |- _ => apply ref_run_ok in H
  | H : nft_Run _ _ = (Err NftNotFound, _) |- _ => apply ref_run_missing in H
  end;
  match goal with
  | H : apply_ops _ _ = _ |- _ =>
      cbn [apply_ops apply_op k_Index] in H; repeat case_match; simplify_eq
  end.

Lemma nft_ref_laws : @KnftablesLaws table nft_ref nft_ref_view.
Proof.
  split.
  - intros [s Hs] c. cbn. unfold zget. destruct (ns_chains s !! c) as [l|] eqn:Hl; [by apply (Hs c l)|].
    constructor.
  - intros c t r t'. cbn. unfold zget. case_match; intros [= <- <-]; (split; [by split|]); intros l' [= <-].
    cbn. by rewrite <- list_fmap_compose.
  - intros ops t e t'. cbn. case_match; [case_match|]; intros [= _ <-]; by split.
  - intros s c k t t' Hr. ref_run; exists (ns_next (proj1_sig t)).
    + match goal with H : _ && _ = true |- _ => apply andb_true_iff in H as [Hi1 Hi2] end.
      split.
      * eapply ns_update_changed; [by symmetry|done].
      * intros i [= <-]. cbn. unfold zget.
        match goal with H : _ !! c = Some _ |- _ => rewrite H end. cbn. lia.
    + split; [|done]. by eapply (ns_update_changed c _ (fun l => l ++ _)).
  - intros s c k t t' Hk Hr. ref_run. exists (ns_next (proj1_sig t)).
    by eapply (ns_update_changed c _ (cons _)).
  - intros c h t t' Hr. ref_run. by eapply (ns_update_changed c _ (filter _)).
  - intros c h t t' Hr. ref_run; cbn; unfold zget.
    + match goal with H : _ !! c = Some _ |- _ => rewrite H end.
      match goal with H : bool_decide _ = false |- _ => by apply bool_decide_eq_false in H end.
    + match goal with H : _ !! c = None |- _ => rewrite H end. set_solver.
  - intros c t t' Hr. ref_run. by eapply (ns_update_changed c _ (fun _ => [])).
  - intros c t t' Hr. ref_run. cbn. unfold zget. by match goal with H : _ !! c = None |- _ => rewrite H end.
  - intros s n ty i t t' Hr. ref_run. by eapply (ns_sets_changed _ (fun m => <[n := zget ∅ m n]> m)).
  - intros n t t' Hr. ref_run. by eapply (ns_sets_changed _ (delete n)).
  - intros n t t' Hr. ref_run. done.
  - intros n k t t' Hr. ref_run.
    match goal with H : _ !! n = Some ?e |- _ => assert (Hz : zget ∅ (ns_sets (proj1_sig t)) n = e)
      by (unfold zget; by rewrite H) end.
    eapply (ns_sets_changed _ (fun m => <[n := {[k]} ∪ zget ∅ m n]> m)). by rewrite Hz.
  - intros n k t t' Hr. ref_run.
    match goal with H : _ !! n = Some ?e |- _ => assert (Hz : zget ∅ (ns_sets (proj1_sig t)) n = e)
      by (unfold zget; by rewrite H) end.
    eapply (ns_sets_changed _ (fun m => <[n := zget ∅ m n ∖ {[k]}]> m)). by rewrite Hz.
Qed.

(** C7: Over any library that behaves as documented, the nftables driver implements
    the packet filter: a chain reads back as the rules put in it, Append adds at
    the end, Insert at the position asked for, Delete removes the first
    occurrence, AppendUnique adds once, sets gain and lose entries, chains of
    other names are untouched and a failing call changes nothing. *)
Theorem nftables_refines_filter {W} `{!Knftables W} `{!NftView W} (family : IPFamily) :
  KnftablesLaws W -> @PFDriverLaws W (nftables_driver family) nftables_view.
Proof. intros Hl. apply nftables_laws. Qed.

(** ** Witnesses *)
Definition ex_rule (chain : string) : Rule :=
  mkRule "10.1.0.0/16" "" "SM-GN-SET" "" "" "" "" "" chain "" "" "0xC0000"
    RuleActionJump RuleProtoAll UndefinedMSS.

Lemma ex_representable : representable (ex_rule "SM-A").
Proof.
  split; cbn; try (split; [done|lia]).
  unfold no_space; repeat (constructor; [repeat constructor|]); constructor.
Defined.

Lemma serialize_roundtrip_witness :
  DeserializeRule (SerializeRule (ex_rule "SM-A")) = Ok (ex_rule "SM-A").
Proof. exact (proj1 (serialize_roundtrip (ex_rule "SM-A") ex_representable)). Defined.

#[local] Existing Instance nft_ref.
#[local] Existing Instance nft_ref_view.

Lemma empty_wf : ns_wf (mkNft (<["SM-A" := []]> ∅) 0 ∅).
Proof. apply (bool_decide_unpack _). vm_compute. exact I. Defined.

Definition empty_table : table := exist _ _ empty_wf.

(** Two rules appended and one inserted before them, read back in order. *)
Definition ex_calls : eff table pf_error (list Rule) :=
  let d := nftables_driver IPv4 in
  _ ← @Append _ d TableTypeNAT "SM-A" (ex_rule "SM-B");
  _ ← @AppendUnique _ d TableTypeNAT "SM-A" (ex_rule "SM-C");
  _ ← @AppendUnique _ d TableTypeNAT "SM-A" (ex_rule "SM-B");
  _ ← @Insert _ d TableTypeNAT "SM-A" 2 (ex_rule "SM-D");
  _ ← @Delete _ d TableTypeNAT "SM-A" (ex_rule "SM-B");
  @List _ d TableTypeNAT "SM-A".

Lemma nftables_refines_filter_witness :
  @PFDriverLaws table (nftables_driver IPv4) nftables_view /\
  (ex_calls empty_table).1 = Ok [ex_rule "SM-D"; ex_rule "SM-C"].
Proof. split; [exact (nftables_refines_filter IPv4 nft_ref_laws)|vm_compute; reflexivity]. Defined.

End Nftables.
