(* ===== verification/GlobalnetBase.v ===== *)
(** The common parts of globalnet (src/pkg/globalnet): the rules of its chains
    (controllers/packetfilter/iface.go, chains/chains.go), the gauges
    (metrics/metrics.go), status conditions and what all controllers that allocate
    addresses share (controllers/base_controllers.go).  The address pool and the
    condition helper are third-party code: classes with their documented laws. *)
From stdpp Require Import base gmap list strings fin_sets.
From Stdlib Require String.
From Stdlib Require Import ZArith Lia.
From S2P Require Import Prelude K8s PacketFilter.
Local Open Scope Z_scope.

(** admiral's [ipam.IPPool]. *)
Class IPPool (P : Type) := {
  pool_Allocate : Z -> eff P string (list string);
  pool_Reserve : list string -> eff P string unit;
  pool_Release : list string -> eff P string unit;
  pool_GetCIDR : P -> string;
}.

(** [free] are the addresses that are not allocated.  A release that fails may
    have released some of its addresses. *)
Class IPPoolLaws (P : Type) `{!IPPool P} := {
  free : P -> gset string;
  allocate_ok : forall n p l p', pool_Allocate n p = (Ok l, p') ->
    Z.of_nat (length l) = n /\ NoDup l /\ (list_to_set l ⊆ free p) /\ free p' = free p ∖ list_to_set l;
  allocate_err : forall n p e p', pool_Allocate n p = (Err e, p') -> free p' = free p;
  reserve_ok : forall l p p', pool_Reserve l p = (Ok tt, p') ->
    list_to_set l ⊆ free p /\ free p' = free p ∖ list_to_set l;
  reserve_err : forall l p e p', pool_Reserve l p = (Err e, p') -> free p' = free p;
  release_ok : forall l p p', pool_Release l p = (Ok tt, p') -> free p' = free p ∪ list_to_set l;
  release_err : forall l p e p', pool_Release l p = (Err e, p') ->
    free p ⊆ free p' /\ free p' ⊆ free p ∪ list_to_set l;
}.

(** A pool on which the laws hold: the free addresses. *)
Definition pool_ref (cidr : string) : IPPool (gset string) := {|
  pool_Allocate := fun n p =>
    if (0 <=? n) && (n <=? Z.of_nat (size p))
    then let l := take (Z.to_nat n) (elements p) in (Ok l, p ∖ list_to_set l)
    else (Err "insufficient IPs available", p);
  pool_Reserve := fun l p =>
    if bool_decide ((list_to_set l : gset string) ⊆ p) then (Ok tt, p ∖ list_to_set l)
    else (Err "IP is already allocated", p);
  pool_Release := fun l p => (Ok tt, p ∪ list_to_set l);
  pool_GetCIDR := fun _ => cidr;
|}.

Lemma pool_ref_laws cidr : @IPPoolLaws (gset string) (pool_ref cidr).
Proof.
  unshelve esplit; [exact id|..]; unfold id; simpl.
  - intros n p l p'. case_match eqn:Hn; [|done]. intros [= <- <-].
    apply andb_true_iff in Hn as [Hn1 Hn2]. apply Z.leb_le in Hn1, Hn2.
    split; [rewrite length_take; unfold size, set_size in *; cbn in *; lia|].
    split; [eapply sublist_NoDup, sublist_take; apply NoDup_elements|]. split; [|done].
    intros x Hx. apply elem_of_list_to_set in Hx. apply elem_of_elements.
    rewrite <- (take_drop (Z.to_nat n) (elements p)). apply elem_of_app. by left.
  - intros n p e p'. case_match; [done|]. by intros [= _ <-].
  - intros l p p'. case_bool_decide; [|done]. by intros [= <-].
  - intros l p e p'. case_bool_decide; [done|]. by intros [= _ <-].
  - intros l p p'. by intros [= <-].
  - done.
Defined.

(** Any address is fine for the reference filter. *)
Definition any_ip (ip : string) : Prop := True.

Lemma ex_pool_good cidr (p : gset string) ips :
  (list_to_set ips : gset string) ⊆ @free _ _ (pool_ref_laws cidr) p -> Forall any_ip ips.
Proof. intros _. by apply Forall_forall. Qed.

(** * Status conditions

    A controller keeps a copy of a status before it changes it; the copy shares
    the array of the condition slice.  [cur] is the slice of the object, [prev]
    what the copy reads and [shared] whether both still use one array. *)
Record Condition := mkCondition {
  cond_Type : string;
  cond_Status : string;
  cond_Reason : string;
  cond_Message : string;
}.

#[global] Instance Condition_eq_dec : EqDecision Condition.
Proof. solve_decision. Defined.

Definition zero_condition : Condition := mkCondition "" "" "" "".

Record cond_slices := mkConds { prev : list Condition; cur : list Condition; shared : bool }.

(** [prevStatus := obj.Status] *)
Definition copy_status (l : list Condition) : cond_slices := mkConds l l true.

(** [meta.SetStatusCondition]: an existing condition of the type is updated in
    place, another one is appended, in a new array or in spare capacity. *)
Class MetaConditions := {
  SetStatusCondition : Condition -> cond_slices -> cond_slices;
}.

Definition type_index (ty : string) (l : list Condition) : option nat :=
  fst <$> list_find (fun c => cond_Type c = ty) l.

Class MetaConditionsLaws `{!MetaConditions} := {
  set_existing : forall c s i, type_index (cond_Type c) (cur s) = Some i ->
    SetStatusCondition c s =
    mkConds (if shared s then <[i := c]> (prev s) else prev s) (<[i := c]> (cur s)) (shared s);
  set_new : forall c s, type_index (cond_Type c) (cur s) = None ->
    cur (SetStatusCondition c s) = cur s ++ [c] /\
    (SetStatusCondition c s = mkConds (prev s) (cur s ++ [c]) false \/
     SetStatusCondition c s =
       mkConds (if shared s then <[length (cur s) := c]> (prev s) else prev s) (cur s ++ [c]) (shared s));
}.

Definition meta_ref : MetaConditions := {|
  SetStatusCondition := fun c s =>
    match type_index (cond_Type c) (cur s) with
    | Some i => mkConds (if shared s then <[i := c]> (prev s) else prev s) (<[i := c]> (cur s)) (shared s)
    | None => mkConds (prev s) (cur s ++ [c]) false
    end;
|}.

Lemma meta_ref_laws : @MetaConditionsLaws meta_ref.
Proof.
  split; intros c s; simpl.
  - by intros i ->.
  - intros ->. eauto.
Qed.

Module Globalnet.
Import PacketFilter.

(** * Chains (chains/chains.go) and constants (types.go) *)
Definition SmGlobalnetIngress : string := "SUBMARINER-GN-INGRESS".
Definition SmGlobalnetEgress : string := "SUBMARINER-GN-EGRESS".
Definition SmGlobalnetMark : string := "SUBMARINER-GN-MARK".
Definition SmGlobalnetEgressForPods : string := "SM-GN-EGRESS-PODS".
Definition SmGlobalnetEgressForHeadlessSvcPods : string := "SM-GN-EGRESS-HDLS-PODS".
Definition SmGlobalnetEgressForHeadlessSvcEPs : string := "SM-GN-EGRESS-HDLS-EPS".
Definition SmGlobalnetEgressForNamespace : string := "SM-GN-EGRESS-NS".
Definition SmGlobalnetEgressForCluster : string := "SM-GN-EGRESS-CLUSTER".
Definition globalNetIPTableMark : string := "0xC0000".
Definition maxRequeues : Z := 20.

Definition NewGlobalnetIngress : ChainIPHook :=
  mkIPHook SmGlobalnetIngress ChainTypeNAT ChainHookPrerouting ChainPriorityFirst ChainPolicyAccept None.

Definition GlobalEgressIPAllocated : string := "Allocated".
Definition GlobalEgressIPUpdated : string := "Updated".

(** * The rules (controllers/packetfilter/iface.go) *)
Inductive TargetType := PodTarget | EndpointsTarget | NoTarget.

#[global] Instance TargetType_eq_dec : EqDecision TargetType.
Proof. solve_decision. Defined.

(** [Proto: All, Src..., MarkValue: mark, SnatCIDR: snatIP, Action: SNAT] *)
Definition snat_rule (srcCIDR srcSetName snatIP mark : string) : Rule :=
  mkRule "" srcCIDR srcSetName "" snatIP "" "" "" "" "" "" mark RuleActionSNAT RuleProtoAll UndefinedMSS.

Definition dnat_rule (proto : RuleProto) (globalIP ip : string) : Rule :=
  mkRule globalIP "" "" "" "" ip "" "" "" "" "" "" RuleActionDNAT proto UndefinedMSS.

Section iface.
Context {S : Type} `{!PFDriver S}.

Definition appendNATRule (chain : string) (rule : Rule) : eff S pf_error unit :=
  wrap "unable to append rule" (AppendUnique TableTypeNAT chain rule).

Definition deleteNATRule (chain : string) (rule : Rule) : eff S pf_error unit :=
  wrap "error deleting packetfilter rule" (Delete TableTypeNAT chain rule).

Definition AddClusterEgressRules (subnet snatIP mark : string) : eff S pf_error unit :=
  appendNATRule SmGlobalnetEgressForCluster (snat_rule subnet "" snatIP mark).

Definition RemoveClusterEgressRules (subnet snatIP mark : string) : eff S pf_error unit :=
  deleteNATRule SmGlobalnetEgressForCluster (snat_rule subnet "" snatIP mark).

Definition AddIngressRulesForHeadlessSvc (globalIP ip : string) (targetType : TargetType) :
    eff S pf_error unit :=
  if (globalIP =?? "") || (ip =?? "") then fail (ErrLibrary "globalIP or IP cannot be empty")
  else appendNATRule SmGlobalnetIngress (dnat_rule RuleProtoUndefined globalIP ip).

Definition RemoveIngressRulesForHeadlessSvc (globalIP ip : string) (targetType : TargetType) :
    eff S pf_error unit :=
  if (globalIP =?? "") || (ip =?? "") then fail (ErrLibrary "globalIP or IP cannot be empty")
  else deleteNATRule SmGlobalnetIngress (dnat_rule RuleProtoUndefined globalIP ip).

Definition AddIngressRulesForHealthCheck (cniIfaceIP globalIP : string) : eff S pf_error unit :=
  appendNATRule SmGlobalnetIngress (dnat_rule RuleProtoICMP globalIP cniIfaceIP).

Definition RemoveIngressRulesForHealthCheck (cniIfaceIP globalIP : string) : eff S pf_error unit :=
  deleteNATRule SmGlobalnetIngress (dnat_rule RuleProtoICMP globalIP cniIfaceIP).

Definition headless_chain (targetType : TargetType) : string :=
  match targetType with
  | PodTarget => SmGlobalnetEgressForHeadlessSvcPods
  | EndpointsTarget => SmGlobalnetEgressForHeadlessSvcEPs
  | NoTarget => ""
  end.

Definition AddEgressRulesForHeadlessSvc (sourceIP snatIP mark : string) (targetType : TargetType) :
    eff S pf_error unit :=
  wrap "error appending packetfilter rule"
    (AppendUnique TableTypeNAT (headless_chain targetType) (snat_rule sourceIP "" snatIP mark)).

Definition RemoveEgressRulesForHeadlessSvc (sourceIP snatIP mark : string) (targetType : TargetType) :
    eff S pf_error unit :=
  deleteNATRule (headless_chain targetType) (snat_rule sourceIP "" snatIP mark).

Definition AddEgressRulesForPods (namedSetName snatIP mark : string) : eff S pf_error unit :=
  wrap "error appending rule"
    (AppendUnique TableTypeNAT SmGlobalnetEgressForPods (snat_rule "" namedSetName snatIP mark)).

Definition RemoveEgressRulesForPods (namedSetName snatIP mark : string) : eff S pf_error unit :=
  wrap "error rule" (Delete TableTypeNAT SmGlobalnetEgressForPods (snat_rule "" namedSetName snatIP mark)).

Definition AddEgressRulesForNamespace (namedSetName snatIP mark : string) : eff S pf_error unit :=
  wrap "error appending rule"
    (AppendUnique TableTypeNAT SmGlobalnetEgressForNamespace (snat_rule "" namedSetName snatIP mark)).

Definition RemoveEgressRulesForNamespace (namedSetName snatIP mark : string) : eff S pf_error unit :=
  wrap "error rule"
    (Delete TableTypeNAT SmGlobalnetEgressForNamespace (snat_rule "" namedSetName snatIP mark)).

Definition FlushNatChain (chainName : string) : eff S pf_error unit :=
  wrap "error flushing packetfilter rules in chain of table NAT" (ClearChain TableTypeNAT chainName).

Definition DeleteNatChain (chainName : string) : eff S pf_error unit :=
  wrap "error deleting packetfilter chain of table NAT" (DeleteChain TableTypeNAT chainName).
End iface.

(** [NewNamedSet(key)] *)
Definition NewNamedSet (key : string) : SetInfo := mkSetInfo key "" TableTypeFilter.

(** * The state shared by the controllers

    The pool, the host's filter and the Prometheus gauges, by name and CIDR. *)
Record gn (P S : Type) := mkGn {
  pool : P;
  pf : S;
  gauges : gmap (string * string) Z;
}.
Arguments mkGn {P S} _ _ _.
Arguments pool {P S} _.
Arguments pf {P S} _.
Arguments gauges {P S} _.

Inductive gn_error :=
| GnPool (msg : string)
| GnFilter (e : pf_error)
| GnPanic (what : string)
| GnOther (msg : string).

Section base.
Context {P S : Type} `{!IPPool P} `{!PFDriver S} `{!MetaConditions}.

Definition on_pool {A} (m : eff P string A) : eff (gn P S) gn_error A := fun w =>
  let '(r, p) := m (pool w) in (map_err GnPool r, mkGn p (pf w) (gauges w)).

Definition on_pf {A} (m : eff S pf_error A) : eff (gn P S) gn_error A := fun w =>
  let '(r, s) := m (pf w) in (map_err GnFilter r, mkGn (pool w) s (gauges w)).

(** ** Gauges (metrics/metrics.go): add [count] to the gauge of the pool's CIDR. *)
Definition gauge_add (name : string) (count : Z) : eff (gn P S) gn_error unit :=
  modifyw (fun w =>
    let k := (name, pool_GetCIDR (pool w)) in
    mkGn (pool w) (pf w) (<[k := zget 0 (gauges w) k + count]> (gauges w))).

Definition egressGauge : string := "submariner_global_egress_IP_allocated".
Definition clusterEgressGauge : string := "submariner_cluster_global_egress_IP_allocated".
Definition ingressGauge : string := "submariner_global_ingress_IP_allocated".

Definition RecordAllocateGlobalEgressIPs (count : Z) := gauge_add egressGauge count.
Definition RecordDeallocateGlobalEgressIPs (count : Z) := gauge_add egressGauge (- count).
Definition RecordAllocateClusterGlobalEgressIPs (count : Z) := gauge_add clusterEgressGauge count.
Definition RecordDeallocateClusterGlobalEgressIPs (count : Z) := gauge_add clusterEgressGauge (- count).
Definition RecordAllocateGlobalIngressIPs (count : Z) := gauge_add ingressGauge count.
Definition RecordDeallocateGlobalIngressIPs (count : Z) := gauge_add ingressGauge (- count).

(** ** base_controllers.go *)
Definition shouldRequeue (numRequeues : Z) : bool := numRequeues <? maxRequeues.

(** [allocIPs[0]] panics on an empty slice. *)
Definition getTargetSNATIPaddress (allocIPs : list string) : result gn_error string :=
  match allocIPs with
  | [] => Err (GnPanic "index out of range")
  | [ip] => Ok ip
  | ip :: _ => Ok (ip +:+ "-" +:+ List.last allocIPs "")
  end.

Definition flushRulesAndReleaseIPs (numRequeues : Z) (flushRules : list string -> eff (gn P S) gn_error unit)
    (allocatedIPs : list string) : eff (gn P S) gn_error bool :=
  match allocatedIPs with
  | [] => mret false
  | _ =>
      r ← attempt (flushRules allocatedIPs);
      if is_err r && shouldRequeue numRequeues then mret true
      else _ ← ignore (on_pool (pool_Release allocatedIPs)); mret false
  end.

(** What [reserveAllocatedIPs] reads and writes of an unstructured object. *)
Record ustatus := mkUstatus {
  us_allocatedIPs : option (list string);
  us_allocatedIP : option string;
  us_conditions : list Condition;
}.

(** The addresses an object holds, and the object without them. *)
Definition reserved_ips (obj : ustatus) : list string * ustatus :=
  match us_allocatedIPs obj with
  | Some ips => (ips, mkUstatus (Some []) (us_allocatedIP obj) (us_conditions obj))
  | None =>
      match us_allocatedIP obj with
      | Some ip => if ip =?? "" then ([], obj)
                   else ([ip], mkUstatus None (Some "") (us_conditions obj))
      | None => ([], obj)
      end
  end.

Definition set_condition (c : Condition) (l : list Condition) : list Condition :=
  cur (SetStatusCondition c (copy_status l)).

(** The object to distribute, when the reservation failed. *)
Definition reserveAllocatedIPs (obj : ustatus) (postReserve : list string -> eff (gn P S) gn_error unit) :
    eff (gn P S) gn_error (option ustatus) :=
  let '(reservedIPs, cleared) := reserved_ips obj in
  r ← attempt (on_pool (pool_Reserve reservedIPs));
  match r : result gn_error unit with
  | Err _ =>
      let c := mkCondition GlobalEgressIPAllocated "False" "ReserveAllocatedIPsFailed"
                 "Error reserving the allocated global IP(s) from the pool" in
      mret (Some (mkUstatus (us_allocatedIPs cleared) (us_allocatedIP cleared)
                    (set_condition c (us_conditions cleared))))
  | Ok _ =>
      match reservedIPs with
      | [] => mret None
      | _ => _ ← postReserve reservedIPs; mret None
      end
  end.

End base.

(** ** The filter as the controllers call it *)
Section specs.
Context {P S : Type} `{!PFDriver S} `{!FilterView S} `{!PFDriverLaws S}.

Lemma wrap_spec what (m : eff S pf_error unit) post : call_spec m post -> call_spec (wrap what m) post.
Proof.
  intros Hm s r s' Hwf. unfold wrap. destruct (m s) as [r0 s0] eqn:Hr.
  destruct (Hm _ _ _ Hwf Hr) as [Hwf' Hp]. intros [= <- <-]. split; [done|]. by destruct r0.
Qed.

Lemma on_pf_spec (m : eff S pf_error unit) post (w : gn P S) r w' :
  call_spec m post -> pf_wf (pf w) -> on_pf m w = (r, w') ->
  pf_wf (pf w') /\ pool w' = pool w /\
  match r with Ok _ => post (pf w) (pf w') | Err _ => same_filter (pf w) (pf w') end.
Proof.
  intros Hm Hwf. unfold on_pf. destruct (m (pf w)) as [r0 s0] eqn:Hr.
  destruct (Hm _ _ _ Hwf Hr) as [Hwf' Hp]. intros [= <- <-]. split; [done|]. split; [done|]. by destruct r0.
Qed.

Lemma on_pool_pf `{!IPPool P} {A} (m : eff P string A) (w : gn P S) : pf (on_pool m w).2 = pf w.
Proof. unfold on_pool. by destruct (m (pool w)). Qed.

(** The calls that add and remove one rule. *)
Definition add_one (r : Rule) (l : list Rule) : list Rule :=
  if bool_decide (r ∈ l) then l else l ++ [r].

Lemma append_nat_spec chain r : valid_rule r ->
  call_spec (appendNATRule chain r) (chain_changed TableTypeNAT chain (add_one r)).
Proof. intros Hv. by apply wrap_spec, append_unique_spec. Qed.

Lemma delete_nat_spec chain r : valid_rule r ->
  call_spec (deleteNATRule chain r) (chain_changed TableTypeNAT chain (remove_first r)).
Proof. intros Hv. by apply wrap_spec, delete_spec. Qed.
End specs.

(** ** Trimming the conditions *)

(** [slices.Delete(conditions, i, i+1)] moves the tail in place and clears the slot
    that becomes free; the copy reads the same array while it is shared. *)
Definition delete_condition (i : nat) (s : cond_slices) : cond_slices :=
  let cur' := delete i (cur s) in
  mkConds (if shared s then cur' ++ zero_condition :: drop (length (cur s)) (prev s) else prev s)
    cur' (shared s).

(** The highest index above 0 of an Allocated condition, or -1. *)
Fixpoint last_allocated (i : nat) (l : list Condition) : Z :=
  match i with
  | O => -1
  | S j =>
      match l !! i with
      | Some c => if cond_Type c =?? GlobalEgressIPAllocated then Z.of_nat i else last_allocated j l
      | None => last_allocated j l
      end
  end.

(** The loop that removes the others; every round raises [i] or lowers [last]. *)
Fixpoint trim_loop (fuel : nat) (i last : Z) (s : cond_slices) : cond_slices :=
  match fuel with
  | O => s
  | S fuel =>
      if i <? last then
        match cur s !! Z.to_nat i with
        | Some c =>
            if cond_Type c =?? GlobalEgressIPAllocated
            then trim_loop fuel i (last - 1) (delete_condition (Z.to_nat i) s)
            else trim_loop fuel (i + 1) last s
        | None => s
        end
      else s
  end.

Definition trimAllocatedStatusCondition (s : cond_slices) : cond_slices :=
  let last := last_allocated (length (cur s) - 1) (cur s) in
  trim_loop (Z.to_nat last) 0 last s.

(** ** Lemmas *)
Definition not_allocated (c : Condition) : Prop := cond_Type c <> GlobalEgressIPAllocated.

Lemma last_allocated_none i l : Forall not_allocated (drop 1 l) -> last_allocated i l = -1.
Proof.
  intros Hl. induction i as [|i IH]; [done|]. cbn [last_allocated].
  destruct (l !! S i) as [c|] eqn:Hc; [|done]. rewrite bool_decide_false; [done|].
  rewrite Forall_lookup in Hl. apply (Hl i). by rewrite lookup_drop.
Qed.

Lemma last_allocated_at l1 c l2 i : l1 <> [] -> cond_Type c = GlobalEgressIPAllocated ->
  Forall not_allocated l2 -> (length l1 <= i)%nat -> last_allocated i (l1 ++ c :: l2) = Z.of_nat (length l1).
Proof.
  intros Hl1 Hc Hl2 Hi. induction i as [|i IH]; [destruct l1; simpl in *; [done|lia]|].
  cbn [last_allocated]. destruct (decide (length l1 = S i)) as [Hlen|Hlen].
  - rewrite lookup_app_r, Hlen by lia. rewrite Nat.sub_diag. cbn.
    by rewrite bool_decide_true.
  - rewrite lookup_app_r by lia. destruct (S i - length l1)%nat as [|j] eqn:Hj; [lia|]. cbn.
    destruct (l2 !! j) as [c'|] eqn:Hc'; [|apply IH; lia].
    rewrite bool_decide_false; [apply IH; lia|]. rewrite Forall_lookup in Hl2. by eapply Hl2.
Qed.

Lemma trim_loop_spec c l2 mid : forall pre s, cur s = pre ++ mid ++ c :: l2 ->
  cur (trim_loop (length mid) (Z.of_nat (length pre)) (Z.of_nat (length pre) + Z.of_nat (length mid)) s) =
  pre ++ filter not_allocated mid ++ c :: l2.
Proof.
  induction mid as [|m mid IH]; intros pre s Hs; [done|]. cbn [length trim_loop].
  replace (Z.of_nat (length pre) <? _) with true by (symmetry; apply Z.ltb_lt; lia).
  rewrite Hs, lookup_app_r, Nat2Z.id, Nat.sub_diag by lia. cbn [lookup list_lookup app].
  rewrite filter_cons. case_bool_decide as Hm.
  - rewrite decide_False by (unfold not_allocated; tauto).
    assert (Hd : cur (delete_condition (length pre) s) = pre ++ mid ++ c :: l2).
    { unfold delete_condition. cbn [cur]. rewrite Hs. cbn [app]. apply delete_middle. }
    rewrite <- (IH pre _ Hd). f_equal. f_equal. lia.
  - rewrite decide_True by done.
    specialize (IH (pre ++ [m]) s). rewrite length_app in IH. cbn [length] in IH.
    rewrite <- !app_assoc in IH. cbn [app] in IH |- *. rewrite <- (IH Hs). do 2 f_equal; lia.
Qed.

Lemma trim_none s : Forall not_allocated (drop 1 (cur s)) -> trimAllocatedStatusCondition s = s.
Proof. intros Hs. unfold trimAllocatedStatusCondition. by rewrite last_allocated_none. Qed.

(** Trimming keeps the last Allocated condition of a status and removes the
    earlier ones; the other conditions stay, in their order. *)
Lemma trim_keeps_last s l1 c l2 : cur s = l1 ++ c :: l2 ->
  cond_Type c = GlobalEgressIPAllocated -> Forall not_allocated l2 ->
  cur (trimAllocatedStatusCondition s) = filter not_allocated l1 ++ c :: l2.
Proof.
  intros Hs Hc Hl2. destruct l1 as [|c1 l1].
  { rewrite trim_none; [done|]. by rewrite Hs. }
  unfold trimAllocatedStatusCondition. rewrite Hs, last_allocated_at; [|done..|].
  - rewrite Nat2Z.id. exact (trim_loop_spec c l2 (c1 :: l1) [] s Hs).
  - rewrite length_app. simpl. lia.
Qed.

Definition ex_cond (ty reason : string) : Condition := mkCondition ty "False" reason "".

Lemma trim_keeps_last_witness :
  cur (trimAllocatedStatusCondition (copy_status
    [ex_cond "Allocated" "A"; ex_cond "Updated" "U"; ex_cond "Allocated" "B"])) =
  [ex_cond "Updated" "U"; ex_cond "Allocated" "B"].
Proof.
  rewrite (trim_keeps_last _ [ex_cond "Allocated" "A"; ex_cond "Updated" "U"] (ex_cond "Allocated" "B") []);
    [vm_compute; reflexivity|reflexivity|reflexivity|constructor].
Defined.

End Globalnet.
