(* ===== verification/GlobalEgress.v ===== *)
(** The controllers that give egress traffic global addresses
    (src/pkg/globalnet/controllers): the pod watcher (egress_pod_watcher.go)
    and the GlobalEgressIP controller (global_egressip_controller.go), with what the
    controller of the cluster's egress addresses in GlobalCluster.v shares. *)
From stdpp Require Import base gmap list strings fin_sets fin_maps.
From Stdlib Require String.
From Stdlib Require Import ZArith Lia.
From S2P Require Import Prelude GoNet K8s PacketFilter GlobalnetBase.
Local Open Scope Z_scope.

(** admiral's [watcher] and the label selectors of Kubernetes: starting a watch
    of the pods of a namespace that match a selector may fail. *)
Class PodWatch (X : Type) := {
  LabelSelector : Type;
  LabelSelector_eq : EqDecision LabelSelector;
  SelectorString : option LabelSelector -> result string string;
  StartWatcher : string -> string -> string -> eff X string unit;
}.

#[global] Existing Instance LabelSelector_eq.

Module GlobalEgress.
Import PacketFilter Globalnet.

Inductive Operation := Create | Update | Delete.

Section egress.
Context {P S X : Type} `{!IPPool P} `{!PFDriver S} `{!MetaConditions} `{!PodWatch X}.
(** [getIPSetName]: the prefix and 25 characters of the encoded hash of the key. *)
Context (hash_name : string -> string) (IsIPv4String : string -> bool).

(** [egressPodWatcher]; [pw_id] is its stop channel. *)
Record egressPodWatcher := mkPodWatcher {
  pw_id : nat;
  pw_namedSet : SetInfo;
  pw_podSelector : option LabelSelector;
  pw_allocatedIPs : list string;
}.

(** The controller: [running] are the stop channels not closed yet. *)
Record world := mkWorld {
  base : gn P S;
  watch : X;
  podWatchers : gmap string egressPodWatcher;
  next_id : nat;
  running : gset nat;
}.

Definition on_base {A} (m : eff (gn P S) gn_error A) : eff world gn_error A := fun w =>
  let '(r, b) := m (base w) in (r, mkWorld b (watch w) (podWatchers w) (next_id w) (running w)).

(** [GlobalEgressIP] *)
Record GlobalEgressIP := mkEgressIP {
  eg_Name : string;
  eg_Namespace : string;
  eg_NumberOfIPs : option Z;
  eg_PodSelector : option LabelSelector;
  eg_Conditions : list Condition;
  eg_AllocatedIPs : list string;
}.

(** The status under change: the condition slice with the copy that shares its
    array, and the addresses. *)
Record status := mkStatus { conds : cond_slices; AllocatedIPs : list string }.

Definition set_cond (c : Condition) (st : status) : status :=
  mkStatus (SetStatusCondition c (conds st)) (AllocatedIPs st).
Definition with_ips (ips : list string) (st : status) : status := mkStatus (conds st) ips.

Definition MetaNamespaceKey (ns name : string) : string :=
  if ns =?? "" then name else ns +:+ "/" +:+ name.

Definition IPSetPrefix : string := "SM-GN-".
Definition getIPSetName (key : string) : string := IPSetPrefix +:+ hash_name key.
Definition newNamedSet (key : string) : SetInfo := NewNamedSet (getIPSetName key).

(** * The pod watcher *)
Definition arePodsEquivalent (oldPodIP newPodIP : string) : bool := oldPodIP =?? newPodIP.

(** The result is the wish to be called again. *)
Definition pod_onCreateOrUpdate (pw : egressPodWatcher) (podIP : string) : eff world gn_error bool :=
  if negb (IsIPv4String podIP) then mret false
  else r ← attempt (on_base (on_pf (set_AddEntry (pw_namedSet pw) podIP true)));
       mret (is_err (E := gn_error) (A := unit) r).

Definition pod_onDelete (pw : egressPodWatcher) (podIP : string) : eff world gn_error bool :=
  r ← attempt (on_base (on_pf (set_DelEntry (pw_namedSet pw) podIP)));
  mret (is_err (E := gn_error) (A := unit) r).

Definition on_watch {A} (m : eff X string A) : eff world gn_error A := fun w =>
  let '(r, x) := m (watch w) in
  (map_err GnOther r, mkWorld (base w) x (podWatchers w) (next_id w) (running w)).

Definition startEgressPodWatcher (name namespace : string) (namedSet : SetInfo)
    (podSelector : option LabelSelector) : eff world gn_error egressPodWatcher :=
  sel ← lift_result (map_err GnOther (SelectorString podSelector));
  _ ← on_watch (StartWatcher ("Pod watcher " +:+ name) namespace sel);
  w ← getw;
  _ ← modifyw (fun w => mkWorld (base w) (watch w) (podWatchers w) (next_id w + 1)%nat
                          ({[next_id w]} ∪ running w));
  mret (mkPodWatcher (next_id w) namedSet None []).

(** * The GlobalEgressIP controller *)
Definition validate (numberOfIPs : Z) (st : status) : bool * status :=
  if numberOfIPs <? 0 then
    (false, set_cond (mkCondition GlobalEgressIPAllocated "False" "InvalidInput"
                        "The NumberOfIPs cannot be negative") st)
  else (true, st).

(** The named set and the rule of an object; a rule that cannot be added is
    removed again. *)
Definition programGlobalEgressRules (allocatedIPs : list string) (podSelector : option LabelSelector)
    (namedSet : SetInfo) : eff (gn P S) gn_error unit :=
  _ ← on_pf (wrap "error creating the IP set chain" (set_Create namedSet true));
  snatIP ← lift_result (getTargetSNATIPaddress allocatedIPs);
  let '(add, remove) :=
    match podSelector with
    | Some _ => (AddEgressRulesForPods (set_Name namedSet) snatIP globalNetIPTableMark,
                 RemoveEgressRulesForPods (set_Name namedSet) snatIP globalNetIPTableMark)
    | None => (AddEgressRulesForNamespace (set_Name namedSet) snatIP globalNetIPTableMark,
               RemoveEgressRulesForNamespace (set_Name namedSet) snatIP globalNetIPTableMark)
    end in
  r ← attempt (on_pf add);
  match r with
  | Ok _ => mret tt
  | Err e => _ ← ignore (on_pf remove); fail e
  end.

Definition flushGlobalEgressRulesAndReleaseIPs (namedSetName : string) (numRequeues : Z)
    (podSelector : option LabelSelector) (ips : list string) : eff (gn P S) gn_error bool :=
  flushRulesAndReleaseIPs numRequeues (fun allocatedIPs =>
    _ ← RecordDeallocateGlobalEgressIPs (Z.of_nat (length allocatedIPs));
    snatIP ← lift_result (getTargetSNATIPaddress allocatedIPs);
    match podSelector with
    | Some _ => on_pf (RemoveEgressRulesForPods namedSetName snatIP globalNetIPTableMark)
    | None => on_pf (RemoveEgressRulesForNamespace namedSetName snatIP globalNetIPTableMark)
    end) ips.

Definition allocateGlobalIPs (numberOfIPs : Z) (podSelector : option LabelSelector) (namedSet : SetInfo)
    (st : status) : eff (gn P S) gn_error (bool * status) :=
  if numberOfIPs =? 0 then
    mret (false, set_cond (mkCondition GlobalEgressIPAllocated "False" "ZeroInput"
                             "The specified NumberOfIPs is 0") (with_ips [] st))
  else if numberOfIPs =? Z.of_nat (length (AllocatedIPs st)) then mret (false, st)
  else
    let st := with_ips [] st in
    r ← attempt (on_pool (pool_Allocate numberOfIPs));
    match r : result gn_error (list string) with
    | Err _ =>
        mret (true, set_cond (mkCondition GlobalEgressIPAllocated "False" "IPPoolAllocationFailed"
                                "Error allocating global IP(s) from the pool") st)
    | Ok allocatedIPs =>
        r ← attempt (programGlobalEgressRules allocatedIPs podSelector namedSet);
        match r : result gn_error unit with
        | Err _ =>
            let st := set_cond (mkCondition GlobalEgressIPAllocated "False" "ProgramIPTableRulesFailed"
                                  "Error programming egress rules") st in
            _ ← ignore (on_pool (pool_Release allocatedIPs));
            mret (true, st)
        | Ok _ =>
            _ ← RecordAllocateGlobalEgressIPs numberOfIPs;
            mret (false, with_ips allocatedIPs
                    (set_cond (mkCondition GlobalEgressIPAllocated "True" "Success"
                                 "Allocated global IP(s)") st))
        end
    end.

(** The result tells whether the watcher is there or not needed. *)
Definition createPodWatcher (key : string) (namedSet : SetInfo) (numberOfIPs : Z) (eg : GlobalEgressIP)
    (st : status) : eff world gn_error (bool * status) :=
  w ← getw;
  match podWatchers w !! key with
  | Some prevPodWatcher =>
      mret (true, if pw_podSelector prevPodWatcher =?? eg_PodSelector eg then st
                  else set_cond (mkCondition GlobalEgressIPUpdated "False" "PodSelectorUpdateNotSupported"
                                   "The PodSelector cannot be updated after creation") st)
  | None =>
      if numberOfIPs =? 0 then mret (true, st)
      else
        r ← attempt (startEgressPodWatcher key (eg_Namespace eg) namedSet (eg_PodSelector eg));
        match r : result gn_error egressPodWatcher with
        | Err _ => mret (false, st)
        | Ok pw =>
            let pw := mkPodWatcher (pw_id pw) (pw_namedSet pw) (eg_PodSelector eg) (AllocatedIPs st) in
            _ ← modifyw (fun w => mkWorld (base w) (watch w) (<[key := pw]> (podWatchers w))
                                    (next_id w) (running w));
            mret (true, st)
        end
  end.

(** [requeue || c.allocateGlobalIPs(...) || !c.createPodWatcher(...)] *)
Definition onCreateOrUpdate (key : string) (numberOfIPs : Z) (eg : GlobalEgressIP) (numRequeues : Z)
    (st : status) : eff world gn_error (bool * status) :=
  let namedSet := newNamedSet key in
  requeue ← (if numberOfIPs =? Z.of_nat (length (AllocatedIPs st)) then mret false
             else on_base (flushGlobalEgressRulesAndReleaseIPs (set_Name namedSet) numRequeues
                             (eg_PodSelector eg) (AllocatedIPs st)));
  if requeue : bool then mret (true, st)
  else
    res ← on_base (allocateGlobalIPs numberOfIPs (eg_PodSelector eg) namedSet st);
    let '(requeue, st) := res : bool * status in
    if requeue then mret (true, st)
    else
      res ← createPodWatcher key namedSet numberOfIPs eg st;
      let '(created, st) := res : bool * status in
      mret (negb created, st).

Definition onDelete (numRequeues : Z) (eg : GlobalEgressIP) : eff world gn_error bool :=
  let key := MetaNamespaceKey (eg_Namespace eg) (eg_Name eg) in
  w ← getw;
  let podWatcher := podWatchers w !! key in
  _ ← modifyw (fun w => match podWatcher with
                        | Some pw => mkWorld (base w) (watch w) (delete key (podWatchers w)) (next_id w)
                                       (running w ∖ {[pw_id pw]})
                        | None => w
                        end);
  let namedSet := newNamedSet key in
  ips ← match eg_AllocatedIPs eg with
        | [] => match podWatcher with
                | None => fail (GnPanic "nil pointer dereference")
                | Some pw => mret (pw_allocatedIPs pw)
                end
        | ips => mret ips
        end;
  requeue ← on_base (flushGlobalEgressRulesAndReleaseIPs (set_Name namedSet) numRequeues
                       (eg_PodSelector eg) ips);
  if requeue : bool then mret true
  else
    r ← attempt (on_base (on_pf (set_Destroy namedSet)));
    mret (is_err (E := gn_error) (A := unit) r && shouldRequeue numRequeues).

(** [checkStatusChanged]: the copy's conditions are read from the array it shares. *)
Definition status_changed (prevIPs : list string) (st : status) : bool :=
  negb ((prev (conds st) =?? cur (conds st)) && (prevIPs =?? AllocatedIPs st)).

Definition with_status (st : status) (eg : GlobalEgressIP) : GlobalEgressIP :=
  mkEgressIP (eg_Name eg) (eg_Namespace eg) (eg_NumberOfIPs eg) (eg_PodSelector eg)
    (cur (conds st)) (AllocatedIPs st).

(** The object to distribute, if any, and whether to process the event again. *)
Definition process (from : GlobalEgressIP) (numRequeues : Z) (op : Operation) :
    eff world gn_error (option GlobalEgressIP * bool) :=
  let numberOfIPs := default 1 (eg_NumberOfIPs from) in
  let key := MetaNamespaceKey (eg_Namespace from) (eg_Name from) in
  match op with
  | Create | Update =>
      let st := mkStatus (trimAllocatedStatusCondition (copy_status (eg_Conditions from)))
                  (eg_AllocatedIPs from) in
      let '(valid, st) := validate numberOfIPs st in
      res ← (if valid then onCreateOrUpdate key numberOfIPs from numRequeues st else mret (false, st));
      let '(requeue, st) := res : bool * status in
      mret (if status_changed (eg_AllocatedIPs from) st then Some (with_status st from) else None, requeue)
  | Delete => requeue ← onDelete numRequeues from; mret (None, requeue)
  end.

(** [Stop] closes the stop channels of the watchers. *)
Definition Stop : eff world gn_error unit :=
  modifyw (fun w => mkWorld (base w) (watch w) (podWatchers w) (next_id w)
                      (running w ∖ list_to_set ((fun kv => pw_id kv.2) <$> map_to_list (podWatchers w)))).

(** * The controller and the API server

    The stored objects, by key.  An update processes the specification given with
    the status stored, and stores the object that is distributed; an object to be
    deleted is removed once its deletion need not be processed again.  When the
    handler panics there is no next state. *)
Record system := mkSys { ctl : world; store : gmap string GlobalEgressIP }.

Definition key_of (eg : GlobalEgressIP) : string := MetaNamespaceKey (eg_Namespace eg) (eg_Name eg).

Definition with_stored_status (s : system) (eg : GlobalEgressIP) : GlobalEgressIP :=
  match store s !! key_of eg with
  | Some o => mkEgressIP (eg_Name eg) (eg_Namespace eg) (eg_NumberOfIPs eg) (eg_PodSelector eg)
                (eg_Conditions o) (eg_AllocatedIPs o)
  | None => mkEgressIP (eg_Name eg) (eg_Namespace eg) (eg_NumberOfIPs eg) (eg_PodSelector eg) [] []
  end.

Inductive sys_event :=
| EvUpdate (eg : GlobalEgressIP) (numRequeues : Z)
| EvDelete (key : string) (numRequeues : Z).

Definition sys_step (ev : sys_event) (s : system) : option system :=
  match ev with
  | EvUpdate eg numRequeues =>
      let from := with_stored_status s eg in
      match process from numRequeues Update (ctl s) with
      | (Ok (out, _), w) => Some (mkSys w (<[key_of eg := default from out]> (store s)))
      | (Err _, _) => None
      end
  | EvDelete key numRequeues =>
      match store s !! key with
      | None => Some s
      | Some o =>
          match process o numRequeues Delete (ctl s) with
          | (Ok (_, requeue), w) => Some (mkSys w (if requeue then store s else delete key (store s)))
          | (Err _, _) => None
          end
      end
  end.

Fixpoint sys_run (evs : list sys_event) (s : system) : option system :=
  match evs with
  | [] => Some s
  | ev :: evs => match sys_step ev s with Some s => sys_run evs s | None => None end
  end.
End egress.

(** * Ownership of addresses *)
Section ownership.
Context {P S X : Type} `{!IPPool P} `{!IPPoolLaws P} `{!PFDriver S} `{!MetaConditions} `{!PodWatch X}.
Context (hash_name : string -> string).
Notation gnw := (gn P S).

(** The addresses of one owner go from [o] to [o'] while the pool changes: only its
    own addresses become free, and only free ones become its own. *)
Definition own_step (o o' : list string) (p p' : P) : Prop :=
  free p' ⊆ free p ∪ list_to_set o /\
  (list_to_set o' : gset string) ⊆ list_to_set o ∪ free p /\
  (list_to_set o ## free p -> list_to_set o' ## free p') /\
  (NoDup o -> NoDup o').

Lemma own_step_refl o (p p' : P) : free p' = free p -> own_step o o p p'.
Proof. intros Hp. unfold own_step. rewrite Hp. split; [set_solver|]. split; [set_solver|]. done. Qed.

Lemma own_step_trans o o1 o2 (p p1 p2 : P) :
  own_step o o1 p p1 -> own_step o1 o2 p1 p2 -> own_step o o2 p p2.
Proof.
  intros (H1 & H2 & H3 & H4) (H5 & H6 & H7 & H8).
  split; [set_solver|]. split; [set_solver|]. split; auto.
Qed.

(** Giving addresses up first and taking new ones then. *)
Lemma own_step_flush o o' (p p1 p' : P) :
  free p1 ⊆ free p ∪ list_to_set o -> own_step [] o' p1 p' -> own_step o o' p p'.
Proof.
  intros Hp (H1 & H2 & H3 & H4). rewrite list_to_set_nil in *.
  split; [set_solver|]. split; [set_solver|]. split; intros _.
  - apply H3. set_solver.
  - apply H4, NoDup_nil_2.
Qed.

Definition same_free : relation gnw := fun w w' => free (pool w') = free (pool w).

#[local] Instance same_free_preorder : PreOrder same_free.
Proof. split; [done|]. intros w1 w2 w3 H1 H2. unfold same_free in *. congruence. Qed.

Lemma on_pf_free {A} (m : eff S pf_error A) : keeps same_free (on_pf (P := P) m).
Proof. intros w. unfold on_pf. by destruct (m (pf w)). Qed.

Lemma gauge_free name n : keeps same_free (gauge_add (P := P) (S := S) name n).
Proof. by intros w. Qed.

#[local] Hint Resolve on_pf_free gauge_free : frames.

Lemma program_free ips sel ns : keeps same_free (programGlobalEgressRules (P := P) ips sel ns).
Proof.
  unfold programGlobalEgressRules. apply keeps_bind; [apply _|apply on_pf_free|intros _].
  apply keeps_bind; [apply _|apply keeps_lift, _|intros snat]. by destruct sel; frames.
Qed.

(** Releasing gives back some of the addresses at most. *)
Lemma release_free ips (w : gnw) :
  free (pool w) ⊆ free (pool (on_pool (pool_Release ips) w).2) /\
  free (pool (on_pool (pool_Release ips) w).2) ⊆ free (pool w) ∪ list_to_set ips.
Proof.
  unfold on_pool. destruct (pool_Release ips (pool w)) as [[[]|e] p'] eqn:Hr; cbn.
  - apply release_ok in Hr. set_solver.
  - by apply release_err in Hr.
Qed.

Lemma flush_own f n ips (w : gnw) r w' : (forall ips, keeps same_free (f ips)) ->
  flushRulesAndReleaseIPs n f ips w = (r, w') ->
  (r = Ok true /\ free (pool w') = free (pool w)) \/
  (r = Ok false /\ free (pool w) ⊆ free (pool w') /\ free (pool w') ⊆ free (pool w) ∪ list_to_set ips).
Proof.
  intros Hf. unfold flushRulesAndReleaseIPs. destruct ips as [|ip ips].
  { intros [= <- <-]. right. split; [done|]. set_solver. }
  unfold mbind, eff_bind, attempt. pose proof (Hf (ip :: ips) w) as Hfree.
  destruct (f (ip :: ips) w) as [rf w1]. cbn in Hfree. case_match; cbn.
  - intros [= <- <-]. by left.
  - intros [= <- <-]. right. split; [done|].
    pose proof (release_free (ip :: ips) w1) as Hrel. unfold same_free in Hfree. by rewrite Hfree in Hrel.
Qed.

Lemma egress_flush_own nm n sel ips (w : gnw) r w' :
  flushGlobalEgressRulesAndReleaseIPs nm n sel ips w = (r, w') ->
  (r = Ok true /\ free (pool w') = free (pool w)) \/
  (r = Ok false /\ free (pool w) ⊆ free (pool w') /\ free (pool w') ⊆ free (pool w) ∪ list_to_set ips).
Proof.
  apply flush_own. intros l. apply keeps_bind; [apply _|apply gauge_free|intros _].
  apply keeps_bind; [apply _|apply keeps_lift, _|intros snat]. by destruct sel; apply on_pf_free.
Qed.

(** The addresses given up by the flush are not kept by the allocation. *)
Lemma allocate_own n sel ns st (w : gnw) r w' :
  allocateGlobalIPs n sel ns st w = (r, w') -> exists rq st', r = Ok (rq, st') /\
    (n = Z.of_nat (length (AllocatedIPs st)) /\ AllocatedIPs st' = AllocatedIPs st /\ free (pool w') = free (pool w) \/
     n <> Z.of_nat (length (AllocatedIPs st)) /\ own_step [] (AllocatedIPs st') (pool w) (pool w')).
Proof.
  unfold allocateGlobalIPs. destruct (Z.eqb_spec n 0) as [-> |Hn0].
  { intros [= <- <-]. eexists _, _. split; [done|]. cbn. destruct (AllocatedIPs st) as [|ip ips].
    - left. done.
    - right. split; [simpl; lia|]. by apply own_step_refl. }
  destruct (Z.eqb_spec n (Z.of_nat (length (AllocatedIPs st)))) as [Hn|Hn].
  { intros [= <- <-]. eexists _, _. split; [done|]. by left. }
  unfold mbind at 1, eff_bind at 1, attempt at 1, on_pool at 1.
  destruct (pool_Allocate n (pool w)) as [[ips|e] p1] eqn:Hall; cbn [map_err].
  - apply allocate_ok in Hall as (Hlen & Hnd & Hsub & Hfree).
    unfold mbind at 1, eff_bind at 1, attempt at 1.
    set (w1 := mkGn p1 (pf w) (gauges w)).
    pose proof (program_free ips sel ns w1) as Hprog.
    destruct (programGlobalEgressRules ips sel ns w1) as [[[]|e] w2]; cbn in Hprog; unfold same_free in Hprog.
    + cbn. intros [= <- <-]. eexists _, _. split; [done|]. right. split; [done|]. cbn.
      unfold own_step. rewrite Hprog. cbn. rewrite Hfree.
      split; [set_solver|]. split; [set_solver|]. split; [set_solver|done].
    + unfold mbind, eff_bind, ignore. intros [= <- <-]. eexists _, _. split; [done|].
      right. split; [done|]. cbn [AllocatedIPs set_cond with_ips].
      pose proof (release_free ips w2) as Hrel. rewrite Hprog in Hrel. cbn in Hrel. rewrite Hfree in Hrel.
      unfold own_step. split; [set_solver|]. split; [set_solver|]. split; [set_solver|done].
  - apply allocate_err in Hall. intros [= <- <-]. eexists _, _. split; [done|].
    right. split; [done|]. by apply own_step_refl.
Qed.

Lemma createPodWatcher_base key ns n eg st (w : world (P := P) (S := S) (X := X)) r w' :
  createPodWatcher key ns n eg st w = (r, w') ->
  base w' = base w /\ exists b st', r = Ok (b, st') /\ AllocatedIPs st' = AllocatedIPs st.
Proof.
  unfold createPodWatcher. unfold mbind at 1, eff_bind at 1, getw at 1.
  destruct (podWatchers w !! key) as [pw|].
  { intros [= <- <-]. split; [done|]. eexists _, _. split; [done|]. by case_match. }
  destruct (n =? 0). { intros [= <- <-]. eauto. }
  unfold startEgressPodWatcher, on_watch, attempt, mbind, eff_bind, lift_result, getw, modifyw, mret, eff_ret.
  destruct (SelectorString _) as [sel|e]; cbn; [|intros [= <- <-]; eauto].
  destruct (StartWatcher _ _ _ _) as [[[]|e] x]; cbn; intros [= <- <-]; eauto.
Qed.

Lemma onCreateOrUpdate_own key n eg m st (w : world (P := P) (S := S) (X := X)) r w' :
  onCreateOrUpdate hash_name key n eg m st w = (r, w') -> exists rq st', r = Ok (rq, st') /\
  own_step (AllocatedIPs st) (AllocatedIPs st') (pool (base w)) (pool (base w')).
Proof.
  unfold onCreateOrUpdate. intros Hrun.
  (* the flush *)
  assert (Hflush : exists rq w1,
    (if n =? Z.of_nat (length (AllocatedIPs st)) then mret false
     else on_base (flushGlobalEgressRulesAndReleaseIPs (set_Name (newNamedSet hash_name key)) m
            (eg_PodSelector eg) (AllocatedIPs st))) w = (Ok rq, w1) /\
    (n = Z.of_nat (length (AllocatedIPs st)) /\ rq = false \/ rq = true \/ n <> Z.of_nat (length (AllocatedIPs st))) /\
    free (pool (base w1)) ⊆ free (pool (base w)) ∪ list_to_set (AllocatedIPs st) /\
    free (pool (base w)) ⊆ free (pool (base w1)) /\
    (rq = true \/ n = Z.of_nat (length (AllocatedIPs st)) -> free (pool (base w1)) = free (pool (base w)))).
  { destruct (Z.eqb_spec n (Z.of_nat (length (AllocatedIPs st)))) as [Hn|Hn].
    - exists false, w. repeat split; try done; [by left|set_solver].
    - unfold on_base. destruct (flushGlobalEgressRulesAndReleaseIPs _ _ _ _ (base w)) as [rf b] eqn:Hf.
      apply egress_flush_own in Hf as [[-> Hfree]|(-> & Hsub & Hsub')].
      + exists true. eexists. split; [done|]. cbn. rewrite Hfree. repeat split; try done; [by right; left|set_solver].
      + exists false. eexists. split; [done|]. cbn. repeat split; try done; [by right; right|].
        by intros [|]. }
  destruct Hflush as (rq & w1 & Hf & Hcase & Hsub & Hsup & Heq).
  unfold mbind at 1, eff_bind at 1 in Hrun. rewrite Hf in Hrun. clear Hf.
  destruct rq.
  { injection Hrun as <- <-. eexists _, _. split; [done|]. apply own_step_refl. apply Heq. by left. }
  unfold mbind at 1, eff_bind at 1, on_base at 1 in Hrun.
  destruct (allocateGlobalIPs n _ _ st (base w1)) as [ra b] eqn:Ha.
  apply allocate_own in Ha as (rq & st' & -> & Hown).
  assert (Hstep : own_step (AllocatedIPs st) (AllocatedIPs st') (pool (base w)) (pool b)).
  { destruct Hown as [(Hn & Hst & Hfree)|(Hn & H1 & H2 & H3 & H4)].
    - rewrite Hst. apply own_step_refl. rewrite Hfree. apply Heq. by right.
    - by apply (own_step_flush _ _ _ (pool (base w1)) _ Hsub). }
  destruct rq.
  { injection Hrun as <- <-. eauto. }
  unfold mbind, eff_bind in Hrun. destruct (createPodWatcher _ _ _ _ _ _) as [rc w2] eqn:Hc.
  apply createPodWatcher_base in Hc as (Hb & created & st2 & -> & Hst2).
  injection Hrun as <- <-. eexists _, _. split; [done|]. by rewrite Hst2, Hb.
Qed.

Definition out_ips (from : GlobalEgressIP) (out : option GlobalEgressIP) : list string :=
  eg_AllocatedIPs (default from out).

(** Processing a created or updated object, whatever is distributed. *)
Lemma process_update_own from n (w : world (P := P) (S := S) (X := X)) out rq w' :
  process hash_name from n Update w = (Ok (out, rq), w') ->
  own_step (eg_AllocatedIPs from) (out_ips from out) (pool (base w)) (pool (base w')) /\
  forall o, out = Some o -> key_of o = key_of from.
Proof.
  unfold process.
  set (st := mkStatus (trimAllocatedStatusCondition (copy_status (eg_Conditions from))) (eg_AllocatedIPs from)).
  destruct (validate (default 1 (eg_NumberOfIPs from)) st) as [valid st1] eqn:Hv.
  assert (Hst1 : AllocatedIPs st1 = eg_AllocatedIPs from).
  { unfold validate in Hv. case_match; by injection Hv as <- <-. }
  intros Hrun. unfold mbind, eff_bind in Hrun.
  assert (Hstep : exists rq st2 w2,
    (if valid then onCreateOrUpdate hash_name (MetaNamespaceKey (eg_Namespace from) (eg_Name from))
                     (default 1 (eg_NumberOfIPs from)) from n st1 else mret (false, st1)) w = (Ok (rq, st2), w2) /\
    own_step (eg_AllocatedIPs from) (AllocatedIPs st2) (pool (base w)) (pool (base w2))).
  { destruct valid.
    - destruct (onCreateOrUpdate _ _ _ _ _ _ w) as [ro w2] eqn:Ho.
      apply onCreateOrUpdate_own in Ho as (rq0 & st2 & -> & Hown). rewrite Hst1 in Hown. eauto.
    - eexists _, _, _. split; [done|]. rewrite Hst1. by apply own_step_refl. }
  destruct Hstep as (rq' & st2 & w2 & Ho & Hown). rewrite Ho in Hrun. injection Hrun as <- <- <-.
  unfold out_ips. destruct (status_changed (eg_AllocatedIPs from) st2) eqn:Hch.
  - split; [exact Hown|]. by intros o [= <-].
  - split; [|done]. unfold status_changed in Hch. apply negb_false_iff, andb_true_iff in Hch as [_ Hips].
    apply bool_decide_eq_true in Hips. by rewrite <- Hips in Hown.
Qed.

(** Deleting an object whose status has its addresses. *)
Lemma process_delete_own from n (w : world (P := P) (S := S) (X := X)) out rq w' :
  (forall i s, is_ok (set_Destroy i s).1 = true) -> eg_AllocatedIPs from <> [] ->
  process hash_name from n Delete w = (Ok (out, rq), w') ->
  if rq then own_step (eg_AllocatedIPs from) (eg_AllocatedIPs from) (pool (base w)) (pool (base w'))
  else free (pool (base w')) ⊆ free (pool (base w)) ∪ list_to_set (eg_AllocatedIPs from).
Proof.
  intros Hdes Hne. unfold process, onDelete.
  set (key := MetaNamespaceKey (eg_Namespace from) (eg_Name from)).
  destruct (eg_AllocatedIPs from) as [|ip ips] eqn:Hips; [done|].
  unfold mbind, eff_bind, getw, modifyw, mret, eff_ret. cbn beta iota.
  destruct (flushGlobalEgressRulesAndReleaseIPs (set_Name (newNamedSet hash_name key)) n
              (eg_PodSelector from) (ip :: ips) (base w)) as [rf b] eqn:Hf.
  assert (Hb : forall w0 : world (P := P) (S := S) (X := X), base w0 = base w ->
    on_base (flushGlobalEgressRulesAndReleaseIPs (set_Name (newNamedSet hash_name key)) n
              (eg_PodSelector from) (ip :: ips)) w0 =
    (rf, mkWorld b (watch w0) (podWatchers w0) (next_id w0) (running w0))).
  { intros w0 Hw0. unfold on_base. by rewrite Hw0, Hf. }
  rewrite Hb by (by case_match). clear Hb.
  apply egress_flush_own in Hf as [[-> Hfree]|(-> & _ & Hsub)]; cbn beta iota.
  - intros [= <- <- <-]. cbn. by apply own_step_refl.
  - unfold attempt, on_base, on_pf. cbn.
    pose proof (Hdes (newNamedSet hash_name key) (pf b)) as Hok.
    destruct (set_Destroy _ (pf b)) as [[[]|e] s]; [|done]. cbn. intros [= <- <- <-]. cbn. exact Hsub.
Qed.

(** ** The invariant *)
Definition owners_wf (s : system (P := P) (S := S) (X := X)) : Prop :=
  (forall k o, store s !! k = Some o ->
     NoDup (eg_AllocatedIPs o) /\ list_to_set (eg_AllocatedIPs o) ## free (pool (base (ctl s)))) /\
  (forall k k' o o', k <> k' -> store s !! k = Some o -> store s !! k' = Some o' ->
     (list_to_set (eg_AllocatedIPs o) : gset string) ## list_to_set (eg_AllocatedIPs o')).

(** The deletions that find the addresses in the status. *)
Definition safe_event (s : system (P := P) (S := S) (X := X)) (ev : sys_event) : Prop :=
  match ev with
  | EvUpdate _ _ => True
  | EvDelete key _ => forall o, store s !! key = Some o -> eg_AllocatedIPs o <> []
  end.

Inductive reachable (s0 : system (P := P) (S := S) (X := X)) : system (P := P) (S := S) (X := X) -> Prop :=
| reachable_init : reachable s0 s0
| reachable_step s ev s' :
    reachable s0 s -> safe_event s ev -> sys_step hash_name ev s = Some s' -> reachable s0 s'.

(** One owner's step keeps the addresses of the others. *)
Lemma owners_wf_step s w' k o o' : owners_wf s ->
  (forall o0, store s !! k = Some o0 -> eg_AllocatedIPs o = eg_AllocatedIPs o0) ->
  (store s !! k = None -> eg_AllocatedIPs o = []) ->
  own_step (eg_AllocatedIPs o) (eg_AllocatedIPs o') (pool (base (ctl s))) (pool (base w')) ->
  owners_wf (mkSys w' (<[k := o']> (store s))).
Proof.
  intros [Hfree Hdisj] Hsome Hnone (H1 & H2 & H3 & H4).
  assert (Hown : NoDup (eg_AllocatedIPs o) /\ list_to_set (eg_AllocatedIPs o) ## free (pool (base (ctl s))) /\
    forall k' o2, k' <> k -> store s !! k' = Some o2 ->
      (list_to_set (eg_AllocatedIPs o2) : gset string) ## list_to_set (eg_AllocatedIPs o)).
  { destruct (store s !! k) as [o0|] eqn:Hk.
    - rewrite (Hsome _ eq_refl). destruct (Hfree _ _ Hk). repeat split; try done.
      intros k' o2 Hne Ho2. by eapply (Hdisj k' k).
    - rewrite Hnone by done. split; [constructor|]. split; [set_solver|]. intros. set_solver. }
  destruct Hown as (Hnd & Hf & Hothers).
  assert (Hnew : forall k' o2, k' <> k -> store s !! k' = Some o2 ->
    (list_to_set (eg_AllocatedIPs o2) : gset string) ## list_to_set (eg_AllocatedIPs o')).
  { intros k' o2 Hne Ho2. pose proof (Hothers _ _ Hne Ho2) as Hd. destruct (Hfree _ _ Ho2) as [_ Hf2].
    clear -H2 Hd Hf2. set_solver. }
  split; cbn.
  - intros k' o2 [[<- <-]|[Hne Ho2]]%lookup_insert_Some; [by split; auto|].
    destruct (Hfree _ _ Ho2) as [Hnd2 Hf2]. split; [done|].
    pose proof (Hothers _ _ (not_eq_sym Hne) Ho2) as Hd. clear -H1 Hf2 Hd. set_solver.
  - intros k1 k2 o1 o2 Hne [[<- <-]|[Hne1 Ho1]]%lookup_insert_Some
      [[<- <-]|[Hne2 Ho2]]%lookup_insert_Some; [done|..].
    + symmetry. by apply (Hnew k2); [apply not_eq_sym|].
    + by apply (Hnew k1); [apply not_eq_sym|].
    + by apply (Hdisj k1 k2).
Qed.

(** C2: As long as set deletions succeed and deleted objects have their addresses in
    the status, no run of creations, updates and deletions of GlobalEgressIPs
    gives two objects a common address, and no object's address is free. *)
Theorem egress_no_sharing (s0 s : system (P := P) (S := S) (X := X)) :
  (forall i f, is_ok (set_Destroy i f).1 = true) -> owners_wf s0 -> reachable s0 s -> owners_wf s.
Proof.
  intros Hdes Hs0. induction 1 as [|s ev s' Hr IH Hsafe Hstep]; [done|].
  destruct ev as [eg n|key n]; cbn beta iota zeta delta [sys_step] in Hstep.
  - destruct (process hash_name (with_stored_status s eg) n Update (ctl s)) as [[[out rq]|e] w'] eqn:Hp;
      [|done]. injection Hstep as <-.
    apply process_update_own in Hp as [Hown _].
    apply (owners_wf_step s w' (key_of eg) (with_stored_status s eg)); [done|..|exact Hown].
    + intros o0 Ho0. unfold with_stored_status. by rewrite Ho0.
    + intros Hn. unfold with_stored_status. by rewrite Hn.
  - cbn in Hsafe. destruct (store s !! key) as [o|] eqn:Ho; [|by injection Hstep as <-].
    destruct (process hash_name o n Delete (ctl s)) as [[[out rq]|e] w'] eqn:Hp; [|done].
    injection Hstep as <-. apply process_delete_own in Hp; [|done|by apply Hsafe].
    destruct IH as [Hfree Hdisj]. destruct rq.
    + rewrite <- (insert_id (store s) key o) by done.
      apply (owners_wf_step s w' key o); [by split|..|done].
      * by intros o0 [= <-]%(eq_trans (eq_sym Ho)).
      * by rewrite Ho.
    + split; cbn.
      * intros k o2 [Hne Ho2]%lookup_delete_Some. destruct (Hfree _ _ Ho2) as [Hnd Hf]. split; [done|].
        pose proof (Hdisj _ _ _ _ Hne Ho Ho2) as Hd. clear -Hp Hf Hd. set_solver.
      * intros k1 k2 o1 o2 Hne [_ Ho1]%lookup_delete_Some [_ Ho2]%lookup_delete_Some.
        by apply (Hdisj k1 k2).
Qed.

Lemma run_updates_reachable s0 evs : forall s s', reachable s0 s ->
  Forall (fun ev => match ev with EvUpdate _ _ => True | EvDelete _ _ => False end) evs ->
  sys_run hash_name evs s = Some s' -> reachable s0 s'.
Proof.
  induction evs as [|ev evs IH]; intros s s' Hr Hu Hrun; [by injection Hrun as <-|].
  apply Forall_cons in Hu as [He Hu]. cbn [sys_run] in Hrun.
  destruct (sys_step hash_name ev s) as [s1|] eqn:Hs; [|done].
  apply (IH s1); [|done..]. eapply reachable_step; [done| |done]. by destruct ev.
Qed.
End ownership.

(** * What is in the filter *)
Section rules_of.
Context {P S X : Type} `{!IPPool P} `{!IPPoolLaws P} `{!PFDriver S} `{!FilterView S} `{!PFDriverLaws S}
  `{!MetaConditions} `{!PodWatch X}.
Context (hash_name : string -> string) (good : string -> Prop).

(** The addresses of the pool are ones a rule can hold. *)
Hypothesis pool_good : forall (p : P) ips, (list_to_set ips : gset string) ⊆ free p -> Forall good ips.
Hypothesis rule_valid : forall key ips snat, Forall good ips -> getTargetSNATIPaddress ips = Ok snat ->
  valid_rule (snat_rule "" (getIPSetName hash_name key) snat globalNetIPTableMark).

Definition egress_chain (sel : option LabelSelector) : string :=
  match sel with Some _ => SmGlobalnetEgressForPods | None => SmGlobalnetEgressForNamespace end.

Definition egress_rule (key snat : string) : Rule :=
  snat_rule "" (getIPSetName hash_name key) snat globalNetIPTableMark.

Definition remove_rule (sel : option LabelSelector) (key snat : string) : eff S pf_error unit :=
  match sel with
  | Some _ => RemoveEgressRulesForPods (getIPSetName hash_name key) snat globalNetIPTableMark
  | None => RemoveEgressRulesForNamespace (getIPSetName hash_name key) snat globalNetIPTableMark
  end.

Definition add_rule (sel : option LabelSelector) (key snat : string) : eff S pf_error unit :=
  match sel with
  | Some _ => AddEgressRulesForPods (getIPSetName hash_name key) snat globalNetIPTableMark
  | None => AddEgressRulesForNamespace (getIPSetName hash_name key) snat globalNetIPTableMark
  end.

Lemma remove_rule_spec sel key snat : valid_rule (egress_rule key snat) ->
  call_spec (remove_rule sel key snat)
    (chain_changed TableTypeNAT (egress_chain sel) (remove_first (egress_rule key snat))).
Proof. intros Hv. destruct sel; by apply wrap_spec, delete_spec. Qed.

Lemma add_rule_spec sel key snat : valid_rule (egress_rule key snat) ->
  call_spec (add_rule sel key snat)
    (chain_changed TableTypeNAT (egress_chain sel)
       (fun l => if bool_decide (egress_rule key snat ∈ l) then l else l ++ [egress_rule key snat])).
Proof. intros Hv. destruct sel; by apply wrap_spec, append_unique_spec. Qed.

(** A flush that reports success has removed the rule, unless it gave up. *)
Lemma flush_rules key n sel ips (w : gn P S) r w' : Forall good ips -> pf_wf (pf w) ->
  flushGlobalEgressRulesAndReleaseIPs (set_Name (newNamedSet hash_name key)) n sel ips w = (r, w') ->
  pf_wf (pf w') /\
  (ips <> [] -> r = Ok false -> n < maxRequeues -> exists snat, getTargetSNATIPaddress ips = Ok snat /\
     chain_changed TableTypeNAT (egress_chain sel) (remove_first (egress_rule key snat)) (pf w) (pf w')).
Proof.
  intros Hg Hwf. unfold flushGlobalEgressRulesAndReleaseIPs, flushRulesAndReleaseIPs.
  destruct ips as [|ip ips]; [by intros [= <- <-]|].
  assert (Hs : exists snat, getTargetSNATIPaddress (ip :: ips) = Ok snat) by (destruct ips; eauto).
  destruct Hs as [snat Hs]. pose proof (rule_valid key _ _ Hg Hs) as Hv.
  unfold mbind at 1, eff_bind at 1, attempt at 1.
  unfold mbind at 1, eff_bind at 1, RecordDeallocateGlobalEgressIPs, gauge_add, modifyw.
  set (w1 := mkGn (pool w) (pf w) _).
  unfold mbind at 1, eff_bind at 1, lift_result. rewrite Hs.
  assert (Hrem : (match sel with
     | Some _ => on_pf (RemoveEgressRulesForPods (getIPSetName hash_name key) snat globalNetIPTableMark)
     | None => on_pf (RemoveEgressRulesForNamespace (getIPSetName hash_name key) snat globalNetIPTableMark)
     end : eff (gn P S) gn_error unit) =
     on_pf (remove_rule sel key snat)) by (by destruct sel).
  cbn [newNamedSet NewNamedSet set_Name]. rewrite Hrem. clear Hrem.
  destruct (on_pf _ w1) as [rr w2] eqn:Hr.
  assert (Hwf1 : pf_wf (pf w1)) by exact Hwf.
  destruct (on_pf_spec _ _ w1 _ _ (remove_rule_spec sel key snat Hv) Hwf1 Hr) as (Hwf2 & _ & Hpost).
  destruct (is_err rr && shouldRequeue n) eqn:Hrq; cbn.
  - by intros [= <- <-].
  - intros [= <- <-]. unfold on_pool. destruct (pool_Release _ _) as [rl p]. cbn. split; [done|].
    intros _ _ Hn. exists snat. split; [done|].
    destruct rr as [[]|e]; [exact Hpost|]. cbn in Hrq.
    unfold shouldRequeue in Hrq. apply Z.ltb_ge in Hrq. lia.
Qed.

(** Programming the rules of an object. *)
Lemma program_rules key ips sel (w : gn P S) r w' : Forall good ips -> pf_wf (pf w) ->
  programGlobalEgressRules ips sel (newNamedSet hash_name key) w = (r, w') ->
  pf_wf (pf w') /\
  (r = Ok tt -> exists snat, getTargetSNATIPaddress ips = Ok snat /\
     egress_rule key snat ∈ rules (pf w') TableTypeNAT (egress_chain sel) /\
     is_Some (named_sets (pf w') !! getIPSetName hash_name key)).
Proof.
  intros Hg Hwf Hrun. unfold programGlobalEgressRules in Hrun.
  apply eff_bind_inv in Hrun as [([] & w1 & Hc & Hrun)|(e & Hc & ->)].
  2: { eapply on_pf_spec in Hc as (Hwf1 & _); [|apply wrap_spec, set_create_spec|done]. by split. }
  destruct (on_pf_spec _ _ _ _ _ (wrap_spec _ _ _ (set_create_spec _ _)) Hwf Hc) as (Hwf1 & _ & Hsets).
  destruct (getTargetSNATIPaddress ips) as [snat|e] eqn:Hs.
  2: { injection Hrun as <- <-. by split. }
  pose proof (rule_valid key _ _ Hg Hs) as Hv.
  unfold mbind at 1, eff_bind at 1, lift_result in Hrun.
  assert (Hrun' : (r0 ← attempt (on_pf (add_rule sel key snat)); match r0 with
    | Ok _ => mret tt
    | Err e => _ ← ignore (on_pf (remove_rule sel key snat)); fail e
    end) w1 = (r, w')) by (by destruct sel).
  clear Hrun. unfold mbind at 1, eff_bind at 1, attempt in Hrun'.
  destruct (on_pf _ w1) as [ra w2] eqn:Ha.
  destruct (on_pf_spec _ _ _ _ _ (add_rule_spec sel key snat Hv) Hwf1 Ha) as (Hwf2 & _ & Hpost).
  destruct ra as [[]|e].
  - injection Hrun' as <- <-. split; [done|]. intros _. exists snat. split; [done|].
    destruct Hpost as (Hr & _ & Hn). split.
    + rewrite Hr. case_bool_decide; [done|]. apply elem_of_app. right. by left.
    + rewrite Hn, (proj2 Hsets). cbn. rewrite lookup_insert_eq. eauto.
  - unfold mbind, eff_bind, ignore, fail in Hrun'. injection Hrun' as <- <-.
    destruct (on_pf _ w2) as [rr w3] eqn:Hd.
    destruct (on_pf_spec _ _ _ _ _ (remove_rule_spec sel key snat Hv) Hwf2 Hd) as (Hwf3 & _). by split.
Qed.

Lemma allocate_rules key n sel st (w : gn P S) st' w' : n <> 0 ->
  n <> Z.of_nat (length (AllocatedIPs st)) -> pf_wf (pf w) ->
  allocateGlobalIPs n sel (newNamedSet hash_name key) st w = (Ok (false, st'), w') ->
  Z.of_nat (length (AllocatedIPs st')) = n /\
  exists snat, getTargetSNATIPaddress (AllocatedIPs st') = Ok snat /\
    egress_rule key snat ∈ rules (pf w') TableTypeNAT (egress_chain sel) /\
    is_Some (named_sets (pf w') !! getIPSetName hash_name key).
Proof.
  intros Hn0 Hn Hwf. unfold allocateGlobalIPs.
  replace (n =? 0) with false by (symmetry; by apply Z.eqb_neq).
  replace (n =? _) with false by (symmetry; by apply Z.eqb_neq).
  unfold mbind at 1, eff_bind at 1, attempt at 1, on_pool at 1.
  destruct (pool_Allocate n (pool w)) as [[ips|e] p1] eqn:Hall; cbn [map_err]; [|done].
  apply allocate_ok in Hall as (Hlen & _ & Hsub & _). apply pool_good in Hsub.
  unfold mbind at 1, eff_bind at 1, attempt at 1.
  destruct (programGlobalEgressRules _ _ _ _) as [rp w2] eqn:Hp.
  apply program_rules in Hp as [_ Hp]; [|done..]. destruct rp as [[]|e].
  - intros [= <- <-]. split; [done|]. by apply Hp.
  - unfold mbind, eff_bind, ignore. done.
Qed.

Lemma createPodWatcher_watch key ns n eg st (w : world (P := P) (S := S) (X := X)) st' w' : n <> 0 ->
  createPodWatcher key ns n eg st w = (Ok (true, st'), w') -> is_Some (podWatchers w' !! key).
Proof.
  intros Hn. unfold createPodWatcher. unfold mbind at 1, eff_bind at 1, getw at 1.
  destruct (podWatchers w !! key) as [pw|] eqn:Hpw.
  { intros [= _ <-]. eauto. }
  replace (n =? 0) with false by (symmetry; by apply Z.eqb_neq).
  unfold startEgressPodWatcher, on_watch, attempt, mbind, eff_bind, lift_result, getw, modifyw, mret, eff_ret.
  destruct (SelectorString _) as [sel|e]; cbn; [|done].
  destruct (StartWatcher _ _ _ _) as [[[]|e] x]; cbn; [|done].
  intros [= _ <-]. cbn. rewrite lookup_insert_eq. eauto.
Qed.

(** C22: When the processing of a GlobalEgressIP that asks for another positive number
    of addresses ends without the wish to be called again, the distributed status
    holds that many addresses, the SNAT rule of its named set to their range is
    in the chain of its kind, the set exists and its pods are watched. *)
Theorem egress_rules_programmed from n (w : world (P := P) (S := S) (X := X)) out w' :
  let number := default 1 (eg_NumberOfIPs from) in
  0 < number -> number <> Z.of_nat (length (eg_AllocatedIPs from)) ->
  Forall good (eg_AllocatedIPs from) -> pf_wf (pf (base w)) ->
  process hash_name from n Update w = (Ok (out, false), w') ->
  exists o snat, out = Some o /\ Z.of_nat (length (eg_AllocatedIPs o)) = number /\
    getTargetSNATIPaddress (eg_AllocatedIPs o) = Ok snat /\
    egress_rule (key_of from) snat ∈ rules (pf (base w')) TableTypeNAT (egress_chain (eg_PodSelector from)) /\
    is_Some (named_sets (pf (base w')) !! getIPSetName hash_name (key_of from)) /\
    is_Some (podWatchers w' !! key_of from).
Proof.
  intros number Hpos Hne Hg Hwf. unfold process, validate.
  replace (_ <? 0) with false by (symmetry; apply Z.ltb_ge; fold number; lia).
  cbn beta iota. fold number. fold (key_of from).
  set (st := mkStatus _ (eg_AllocatedIPs from)). unfold onCreateOrUpdate.
  replace (number =? _) with false by (symmetry; by apply Z.eqb_neq). intros Hrun.
  apply eff_bind_inv in Hrun as [([rq st'] & w2 & Hrun & Hret)|(e & _ & He)]; [|done].
  injection Hret as Hout -> ->.
  apply eff_bind_inv in Hrun as [(rq & w1 & Hf & Hrun)|(e & _ & He)]; [|done].
  destruct rq; [done|]. unfold on_base in Hf.
  destruct (flushGlobalEgressRulesAndReleaseIPs _ _ _ _ (base w)) as [rf b] eqn:Hfl.
  injection Hf as -> <-. apply flush_rules in Hfl as [Hwf1 _]; [|done..].
  apply eff_bind_inv in Hrun as [([rq st2] & w3 & Ha & Hrun)|(e & _ & He)]; [|done].
  destruct rq; [done|]. unfold on_base in Ha.
  destruct (allocateGlobalIPs _ _ _ _ _) as [ra b3] eqn:Hal. injection Ha as -> <-.
  apply allocate_rules in Hal as (Hlen & snat & Hs & Hin & Hset); [|lia|done|done].
  apply eff_bind_inv in Hrun as [([created st3] & w4 & Hc & Hrun)|(e & _ & He)]; [|done].
  injection Hrun as Hcr -> ->. destruct created; [|done].
  assert (Hcn : number <> 0) by lia. pose proof (createPodWatcher_watch _ _ _ _ _ _ _ _ Hcn Hc) as Hw.
  apply createPodWatcher_base in Hc as (Hb & ? & ? & [= <- <-] & Hips).
  cbn in Hb. rewrite <- Hips in Hlen, Hs.
  assert (Hch : status_changed (eg_AllocatedIPs from) st' = true).
  { unfold status_changed. rewrite (bool_decide_false (eg_AllocatedIPs from = _)), andb_false_r; [done|].
    intros Heq. apply Hne. by rewrite Heq, Hlen. }
  rewrite Hch in Hout. exists (with_status st' from), snat.
  split; [done|]. split; [done|]. split; [done|]. by rewrite Hb.
Qed.

(** When the deletion of a GlobalEgressIP ends without the wish to be called
    again and before the last attempt, its SNAT rule is gone from the chain, the
    other rules of the chain are still there, its named set is destroyed and its
    pods are no longer watched. *)
Lemma egress_delete_clears from n (w : world (P := P) (S := S) (X := X)) out w' :
  let chain := egress_chain (eg_PodSelector from) in
  eg_AllocatedIPs from <> [] -> Forall good (eg_AllocatedIPs from) -> pf_wf (pf (base w)) ->
  n < maxRequeues -> NoDup (rules (pf (base w)) TableTypeNAT chain) ->
  process hash_name from n Delete w = (Ok (out, false), w') ->
  exists snat, getTargetSNATIPaddress (eg_AllocatedIPs from) = Ok snat /\
    egress_rule (key_of from) snat ∉ rules (pf (base w')) TableTypeNAT chain /\
    (forall r, r <> egress_rule (key_of from) snat ->
       r ∈ rules (pf (base w')) TableTypeNAT chain <-> r ∈ rules (pf (base w)) TableTypeNAT chain) /\
    named_sets (pf (base w')) !! getIPSetName hash_name (key_of from) = None /\
    podWatchers w' !! key_of from = None.
Proof.
  intros chain Hne Hg Hwf Hn Hnd. unfold process, onDelete. fold (key_of from). set (key := key_of from).
  destruct (eg_AllocatedIPs from) as [|ip ips] eqn:Hips; [done|].
  unfold mbind, eff_bind, getw, modifyw, mret, eff_ret. cbn beta iota.
  set (w0 := match podWatchers w !! key with Some pw => _ | None => w end).
  assert (Hb : base w0 = base w) by (unfold w0; by case_match).
  assert (Hpw : podWatchers w0 !! key = None).
  { unfold w0. destruct (podWatchers w !! key) eqn:Hk; [apply lookup_delete_eq|done]. }
  unfold on_base at 1. rewrite Hb.
  destruct (flushGlobalEgressRulesAndReleaseIPs _ _ _ _ (base w)) as [rf b] eqn:Hf.
  apply flush_rules in Hf as [Hwf1 Hrule]; [|done..].
  destruct rf as [[]|e]; cbn beta iota; [done| |done].
  destruct (Hrule ltac:(done) eq_refl Hn) as (snat & Hs & Hr & _). clear Hrule.
  unfold attempt, on_base. cbn [base].
  destruct (on_pf (set_Destroy (newNamedSet hash_name key)) b) as [rd b'] eqn:Hd.
  destruct (on_pf_spec _ _ _ _ _ (set_destroy_spec _) Hwf1 Hd) as (_ & _ & Hpost).
  unfold shouldRequeue. replace (n <? maxRequeues) with true by (symmetry; by apply Z.ltb_lt).
  destruct rd as [[]|e]; cbn; [|done]. intros [= <- <-]. cbn. destruct Hpost as [Hrules Hsets].
  exists snat. split; [done|].
  assert (Hch : rules (pf b') TableTypeNAT chain =
                without (egress_rule key snat) (rules (pf (base w)) TableTypeNAT chain)).
  { rewrite Hrules. unfold chain. rewrite Hr. by apply remove_first_nodup. }
  rewrite Hch. unfold without. split; [|split; [|split]].
  - rewrite list_elem_of_filter. tauto.
  - intros r Hr'. rewrite list_elem_of_filter. tauto.
  - rewrite Hsets. apply lookup_delete_eq.
  - exact Hpw.
Qed.
End rules_of.

(** * Behaviour on errors *)
Section errors.
Context {P S X : Type} `{!IPPool P} `{!PFDriver S} `{!MetaConditions} `{!MetaConditionsLaws} `{!PodWatch X}.
Context (hash_name : string -> string).

Lemma onDelete_no_watcher eg n (w : world (P := P) (S := S) (X := X)) :
  eg_AllocatedIPs eg = [] -> podWatchers w !! key_of eg = None ->
  (onDelete hash_name n eg w).1 = Err (GnPanic "nil pointer dereference").
Proof.
  intros Hips Hw. unfold onDelete. fold (key_of eg). rewrite Hips.
  unfold mbind, eff_bind, getw, modifyw, fail. cbn beta iota. by rewrite Hw.
Qed.

Lemma onCreateOrUpdate_zero eg n st (w : world (P := P) (S := S) (X := X)) :
  AllocatedIPs st = [] -> podWatchers w !! key_of eg = None ->
  onCreateOrUpdate hash_name (key_of eg) 0 eg n st w =
    (Ok (false, set_cond (mkCondition GlobalEgressIPAllocated "False" "ZeroInput"
                            "The specified NumberOfIPs is 0") (with_ips [] st)), w).
Proof.
  intros Hips Hw. unfold onCreateOrUpdate, allocateGlobalIPs, createPodWatcher. rewrite Hips.
  unfold mbind, eff_bind, getw, mret, eff_ret, on_base. cbn beta iota zeta. simpl (0 =? _). cbn beta iota.
  destruct w as [b x pws i r]. cbn in Hw |- *. by rewrite Hw.
Qed.

(** Deleting an object that asked for no addresses panics: no pod watcher was
    started for it and its status has no addresses, so the handler reads the
    addresses of a watcher that is not there. *)
Lemma zero_egress_delete_panics eg n m (w : world (P := P) (S := S) (X := X)) :
  eg_NumberOfIPs eg = Some 0 -> eg_AllocatedIPs eg = [] -> podWatchers w !! key_of eg = None ->
  exists out, process hash_name eg n Create w = (Ok (out, false), w) /\
    (process hash_name (default eg out) m Delete w).1 = Err (GnPanic "nil pointer dereference").
Proof.
  intros Hn Hips Hw. unfold process. fold (key_of eg). rewrite Hn.
  change (default 1 (Some 0)) with 0. unfold validate. change (0 <? 0) with false. cbn beta iota.
  unfold mbind, eff_bind.
  rewrite onCreateOrUpdate_zero by done. unfold mret, eff_ret. cbn beta iota.
  eexists. split; [reflexivity|].
  match goal with |- context [onDelete _ _ ?e w] => set (o := e) end.
  assert (Ho : eg_AllocatedIPs o = [] /\ key_of o = key_of eg) by (unfold o; destruct (status_changed _ _); by split).
  pose proof (onDelete_no_watcher o m w (proj1 Ho)) as Hd. rewrite (proj2 Ho) in Hd.
  specialize (Hd Hw). destruct (onDelete hash_name m o w) as [[a|e] w']; cbn in *; [done|].
  by injection Hd as ->.
Qed.

(** A change of the status is lost when it only changes the condition that is
    there: the copy the new status is compared with shares its conditions.  An
    object without addresses and with an Allocated condition is not distributed
    when it is asked to have none, whatever its condition says. *)
Lemma egress_condition_update_lost eg n c (w : world (P := P) (S := S) (X := X)) :
  eg_NumberOfIPs eg = Some 0 -> eg_AllocatedIPs eg = [] -> eg_Conditions eg = [c] ->
  cond_Type c = GlobalEgressIPAllocated -> podWatchers w !! key_of eg = None ->
  process hash_name eg n Update w = (Ok (None, false), w).
Proof.
  intros Hn Hips Hc Hty Hw. unfold process. fold (key_of eg). rewrite Hn, Hc.
  change (default 1 (Some 0)) with 0. unfold validate. change (0 <? 0) with false. cbn beta iota.
  unfold mbind, eff_bind.
  rewrite onCreateOrUpdate_zero by done. unfold mret, eff_ret. cbn beta iota.
  rewrite trim_none by constructor. unfold with_ips, set_cond. cbn [conds AllocatedIPs].
  rewrite (set_existing _ _ 0).
  - unfold status_changed. by rewrite Hips.
  - unfold type_index. cbn. by rewrite decide_True.
Qed.
End errors.

(** * A concrete controller *)
Definition watch_ref : PodWatch unit := {|
  LabelSelector := string;
  LabelSelector_eq := _;
  SelectorString := fun sel => Ok (default "" sel);
  StartWatcher := fun _ _ _ => mret tt;
|}.

#[local] Existing Instance filter_ref.
#[local] Existing Instance filter_ref_view.
#[local] Existing Instance filter_ref_laws.
#[local] Existing Instance meta_ref.
#[local] Existing Instance meta_ref_laws.
#[local] Existing Instance watch_ref.

Definition ex_pool : IPPool (gset string) := pool_ref "242.254.0.0/16".
#[local] Existing Instance ex_pool.

Definition ex_world (free : list string) : world (P := gset string) (S := filter_state) (X := unit) :=
  mkWorld (mkGn (list_to_set free) (mkFilterState (fun _ _ => []) ∅) ∅) tt ∅ 0 ∅.

Definition ex_eg (name : string) (n : Z) : GlobalEgressIP := mkEgressIP name "ns" (Some n) None [] [].

Definition ex_run (evs : list sys_event) : option (system (P := gset string) (S := filter_state)) :=
  sys_run (fun k => k) evs (mkSys (ex_world ["242.254.0.1"; "242.254.0.2"]) ∅).

Definition ex_start : system (P := gset string) (S := filter_state) (X := unit) :=
  mkSys (ex_world ["242.254.0.1"; "242.254.0.2"]) ∅.

#[local] Instance ex_pool_laws : IPPoolLaws (gset string) := pool_ref_laws _.

Lemma egress_no_sharing_witness : exists s,
  ex_run [EvUpdate (ex_eg "a" 1) 0; EvUpdate (ex_eg "b" 1) 0; EvUpdate (ex_eg "b" 0) 0] = Some s /\ owners_wf s.
Proof.
  set (evs := [EvUpdate (ex_eg "a" 1) 0; EvUpdate (ex_eg "b" 1) 0; EvUpdate (ex_eg "b" 0) 0]).
  assert (Hc : match ex_run evs with Some _ => true | None => false end = true) by (vm_compute; reflexivity).
  destruct (ex_run evs) as [s|] eqn:Hs; [|discriminate].
  exists s. split; [reflexivity|].
  apply (egress_no_sharing (fun k => k) ex_start s).
  - reflexivity.
  - split; intros k; [intros o Ho|intros k' o o' _ Ho]; unfold ex_start in Ho; cbn in Ho;
      by rewrite lookup_empty in Ho.
  - apply (run_updates_reachable (fun k => k) ex_start evs ex_start s); [constructor| |exact Hs].
    repeat constructor.
Defined.

Lemma ex_rule_valid key ips snat : Forall any_ip ips -> getTargetSNATIPaddress ips = Ok snat ->
  valid_rule (snat_rule "" (getIPSetName (fun k => k) key) snat globalNetIPTableMark).
Proof. intros _ _. exact I. Qed.

Lemma egress_rules_programmed_witness : exists out w' o snat,
  process (fun k => k) (ex_eg "a" 2) 0 Update (ex_world ["242.254.0.1"; "242.254.0.2"]) = (Ok (out, false), w') /\
  out = Some o /\ length (eg_AllocatedIPs o) = 2%nat /\
  egress_rule (fun k => k) "ns/a" snat ∈ rules (pf (base w')) TableTypeNAT SmGlobalnetEgressForNamespace.
Proof.
  destruct (process (fun k => k) (ex_eg "a" 2) 0 Update (ex_world ["242.254.0.1"; "242.254.0.2"]))
    as [r w'] eqn:Hp.
  assert (Hr : match r with Ok (_, rq) => negb rq | Err _ => false end = true).
  { change r with (r, w').1. rewrite <- Hp. vm_compute. reflexivity. }
  destruct r as [[out rq]|e]; [|discriminate]. destruct rq; [discriminate|].
  assert (Hwf : pf_wf (pf (base (ex_world ["242.254.0.1"; "242.254.0.2"])))) by exact I.
  destruct (egress_rules_programmed (fun k => k) any_ip (ex_pool_good _) ex_rule_valid
    (ex_eg "a" 2) 0 _ out w' eq_refl ltac:(discriminate) (List.Forall_nil _) Hwf Hp)
    as (o & snat & Ho & Hlen & _ & Hin & _).
  exists out, w', o, snat. split; [reflexivity|]. split; [exact Ho|]. split; [|exact Hin].
  cbn in Hlen. lia.
Defined.

(** The world after an object was created, and the object. *)
Definition ex_created : world (P := gset string) (S := filter_state) (X := unit) :=
  (process (fun k => k) (ex_eg "a" 2) 0 Create (ex_world ["242.254.0.1"; "242.254.0.2"])).2.

Definition ex_allocated : GlobalEgressIP :=
  mkEgressIP "a" "ns" (Some 2) None [] ["242.254.0.1"; "242.254.0.2"].

Lemma egress_delete_clears_witness : exists w' snat,
  process (fun k => k) ex_allocated 0 Delete ex_created = (Ok (None, false), w') /\
  egress_rule (fun k => k) "ns/a" snat ∉ rules (pf (base w')) TableTypeNAT SmGlobalnetEgressForNamespace /\
  length (rules (pf (base ex_created)) TableTypeNAT SmGlobalnetEgressForNamespace) = 1%nat.
Proof.
  destruct (process (fun k => k) ex_allocated 0 Delete ex_created) as [r w'] eqn:Hp.
  assert (Hr : match r with Ok (None, rq) => negb rq | _ => false end = true).
  { change r with (r, w').1. rewrite <- Hp. vm_compute. reflexivity. }
  destruct r as [[out rq]|e]; [|discriminate]. destruct out; [discriminate|]. destruct rq; [discriminate|].
  assert (Hwf : pf_wf (pf (base ex_created))) by exact I.
  assert (Hg : Forall any_ip (eg_AllocatedIPs ex_allocated)) by (repeat constructor).
  assert (Hnd : NoDup (rules (pf (base ex_created)) TableTypeNAT (egress_chain (eg_PodSelector ex_allocated)))).
  { apply (bool_decide_unpack _). vm_compute. exact I. }
  destruct (egress_delete_clears (fun k => k) any_ip ex_rule_valid ex_allocated 0 ex_created None w'
    ltac:(discriminate) Hg Hwf eq_refl Hnd Hp) as (snat & _ & Hrule & _).
  exists w', snat. split; [reflexivity|]. split; [exact Hrule|vm_compute; reflexivity].
Defined.

Lemma zero_egress_delete_panics_witness : exists out,
  process (fun k => k) (ex_eg "a" 0) 0 Create (ex_world []) = (Ok (out, false), ex_world []) /\
  (process (fun k => k) (default (ex_eg "a" 0) out) 0 Delete (ex_world [])).1 =
    Err (GnPanic "nil pointer dereference").
Proof. exact (zero_egress_delete_panics (fun k => k) (ex_eg "a" 0) 0 0 (ex_world []) eq_refl eq_refl eq_refl). Defined.

Lemma egress_condition_update_lost_witness :
  let c := mkCondition "Allocated" "False" "IPPoolAllocationFailed" "" in
  process (fun k => k) (mkEgressIP "a" "ns" (Some 0) None [c] []) 0 Update (ex_world []) =
    (Ok (None, false), ex_world []).
Proof.
  intros c. exact (egress_condition_update_lost (fun k => k) (mkEgressIP "a" "ns" (Some 0) None [c] []) 0 c
    (ex_world []) eq_refl eq_refl eq_refl eq_refl eq_refl).
Defined.

(** A deletion can release addresses that belong to another object: when the
    status has none, the handler releases those the pod watcher remembers from
    its start, though an update gave them back since.  Here the addresses of the
    first object are given up and allocated to the second; deleting the first
    one frees them again and the fourth object gets the second one's address. *)
Lemma egress_stale_cache_shares : exists s b d,
  ex_run [EvUpdate (ex_eg "a" 1) 0; EvUpdate (ex_eg "a" 0) 0; EvUpdate (ex_eg "b" 1) 0;
          EvDelete "ns/a" 0; EvUpdate (ex_eg "d" 1) 0] = Some s /\
  store s !! "ns/b" = Some b /\ store s !! "ns/d" = Some d /\
  eg_AllocatedIPs b = ["242.254.0.1"] /\ eg_AllocatedIPs d = ["242.254.0.1"].
Proof.
  set (evs := [EvUpdate (ex_eg "a" 1) 0; EvUpdate (ex_eg "a" 0) 0; EvUpdate (ex_eg "b" 1) 0;
          EvDelete "ns/a" 0; EvUpdate (ex_eg "d" 1) 0]).
  assert (Hc : match ex_run evs with
               | Some s => match store s !! "ns/b", store s !! "ns/d" with
                           | Some b, Some d => (eg_AllocatedIPs b =?? ["242.254.0.1"]) &&
                                               (eg_AllocatedIPs d =?? ["242.254.0.1"])
                           | _, _ => false
                           end
               | None => false
               end = true) by (vm_compute; reflexivity).
  destruct (ex_run evs) as [s|]; [|done].
  destruct (store s !! "ns/b") as [b|] eqn:Hb; [|done]. destruct (store s !! "ns/d") as [d|] eqn:Hd; [|done].
  exists s, b, d. bool_props. done.
Qed.

End GlobalEgress.
