(* ===== verification/GlobalCluster.v ===== *)
(** The globalnet controller that allocates the addresses for egress traffic of the
    whole cluster (src/pkg/globalnet/controllers/cluster_egressip_controller.go). *)
From stdpp Require Import base gmap list strings fin_sets.
From Stdlib Require String.
From Stdlib Require Import ZArith Lia.
From S2P Require Import Prelude K8s PacketFilter GlobalnetBase GlobalEgress.
Local Open Scope Z_scope.

Module ClusterEgress.
Import PacketFilter Globalnet.

Definition ClusterGlobalEgressIPName : string := "cluster-egress.submariner.io".
Definition DefaultNumberOfClusterEgressIPs : Z := 8.

Section cluster.
Context {P S : Type} `{!IPPool P} `{!PFDriver S} `{!MetaConditions}.
(** [clusterGlobalEgressIPController]: the local subnets. *)
Context (localSubnets : list string).
Notation status := (GlobalEgress.status).
Notation set_cond := (GlobalEgress.set_cond).
Notation with_ips := (GlobalEgress.with_ips).
Notation AllocatedIPs := (GlobalEgress.AllocatedIPs).

(** [ClusterGlobalEgressIP] *)
Record ClusterGlobalEgressIP := mkClusterEgressIP {
  ce_Name : string;
  ce_NumberOfIPs : option Z;
  ce_Conditions : list Condition;
  ce_AllocatedIPs : list string;
}.

Definition deleteClusterGlobalEgressRules (srcIPList : list string) (snatIP : string) :
    eff (gn P S) gn_error unit :=
  for_each (fun srcIP => on_pf (RemoveClusterEgressRules srcIP snatIP globalNetIPTableMark)) srcIPList.

Definition flushClusterGlobalEgressRules (allocatedIPs : list string) : eff (gn P S) gn_error unit :=
  _ ← RecordDeallocateClusterGlobalEgressIPs (Z.of_nat (length allocatedIPs));
  snatIP ← lift_result (getTargetSNATIPaddress allocatedIPs);
  deleteClusterGlobalEgressRules localSubnets snatIP.

(** The loop: [egressRulesProgrammed] has a slot for every subnet, empty until its
    rule was added. *)
Fixpoint program_loop (snatIP : string) (i : nat) (srcIPs : list string) (egressRulesProgrammed : list string) :
    eff (gn P S) gn_error unit :=
  match srcIPs with
  | [] => mret tt
  | srcIP :: srcIPs =>
      r ← attempt (on_pf (AddClusterEgressRules srcIP snatIP globalNetIPTableMark));
      match r : result gn_error unit with
      | Err e => _ ← ignore (deleteClusterGlobalEgressRules egressRulesProgrammed snatIP); fail e
      | Ok _ => program_loop snatIP (i + 1)%nat srcIPs (<[i := srcIP]> egressRulesProgrammed)
      end
  end.

Definition programClusterGlobalEgressRules (allocatedIPs : list string) : eff (gn P S) gn_error unit :=
  snatIP ← lift_result (getTargetSNATIPaddress allocatedIPs);
  program_loop snatIP 0 localSubnets (replicate (length localSubnets) "").

Definition validate (numberOfIPs : Z) (name : string) (st : status) : bool * status :=
  if negb (name =?? ClusterGlobalEgressIPName) then
    (false, set_cond (mkCondition GlobalEgressIPAllocated "False" "InvalidInstance"
                        "Only the ClusterGlobalEgressIP instance with the well-known name is supported") st)
  else if numberOfIPs <? 0 then
    (false, set_cond (mkCondition GlobalEgressIPAllocated "False" "InvalidInput"
                        "The NumberOfIPs cannot be negative") st)
  else if numberOfIPs =? 0 then
    (true, set_cond (mkCondition GlobalEgressIPAllocated "False" "ZeroInput"
                       "The specified NumberOfIPs is 0") st)
  else (true, st).

Definition allocateGlobalIPs (numberOfIPs : Z) (st : status) : eff (gn P S) gn_error (bool * status) :=
  let st := with_ips [] st in
  if numberOfIPs =? 0 then mret (false, st)
  else
    r ← attempt (on_pool (pool_Allocate numberOfIPs));
    match r : result gn_error (list string) with
    | Err _ =>
        mret (true, set_cond (mkCondition GlobalEgressIPAllocated "False" "IPPoolAllocationFailed"
                                "Error allocating global IP(s) from the pool") st)
    | Ok allocatedIPs =>
        r ← attempt (programClusterGlobalEgressRules allocatedIPs);
        match r : result gn_error unit with
        | Err _ =>
            let st := set_cond (mkCondition GlobalEgressIPAllocated "False" "ProgramIPTableRulesFailed"
                                  "Error programming egress rules") st in
            _ ← ignore (on_pool (pool_Release allocatedIPs));
            mret (true, st)
        | Ok _ =>
            _ ← RecordAllocateClusterGlobalEgressIPs numberOfIPs;
            mret (false, with_ips allocatedIPs
                    (set_cond (mkCondition GlobalEgressIPAllocated "True" "Success"
                                 "Allocated global IP(s)") st))
        end
    end.

Definition onCreateOrUpdate (numberOfIPs : Z) (numRequeues : Z) (st : status) :
    eff (gn P S) gn_error (bool * status) :=
  if numberOfIPs =? Z.of_nat (length (AllocatedIPs st)) then mret (false, st)
  else
    requeue ← flushRulesAndReleaseIPs numRequeues flushClusterGlobalEgressRules (AllocatedIPs st);
    if requeue : bool then mret (true, st) else allocateGlobalIPs numberOfIPs st.

Definition onDelete (numRequeues : Z) (ips : list string) : eff (gn P S) gn_error bool :=
  flushRulesAndReleaseIPs numRequeues flushClusterGlobalEgressRules ips.

Definition with_status (st : status) (ce : ClusterGlobalEgressIP) : ClusterGlobalEgressIP :=
  mkClusterEgressIP (ce_Name ce) (ce_NumberOfIPs ce) (cur (GlobalEgress.conds st)) (AllocatedIPs st).

Definition process (from : ClusterGlobalEgressIP) (numRequeues : Z) (op : GlobalEgress.Operation) :
    eff (gn P S) gn_error (option ClusterGlobalEgressIP * bool) :=
  let numberOfIPs := default 1 (ce_NumberOfIPs from) in
  match op with
  | GlobalEgress.Create | GlobalEgress.Update =>
      let st := GlobalEgress.mkStatus (trimAllocatedStatusCondition (copy_status (ce_Conditions from)))
                  (ce_AllocatedIPs from) in
      let '(valid, st) := validate numberOfIPs (ce_Name from) st in
      res ← (if valid then onCreateOrUpdate numberOfIPs numRequeues st else mret (false, st));
      let '(requeue, st) := res : bool * status in
      mret (if GlobalEgress.status_changed (ce_AllocatedIPs from) st then Some (with_status st from) else None,
            requeue)
  | GlobalEgress.Delete => requeue ← onDelete numRequeues (ce_AllocatedIPs from); mret (None, requeue)
  end.

(** The part of the constructor that follows the retrieval of the well-known
    object: the addresses it holds are reserved and their rules programmed; the
    object is distributed when that is not possible. *)
Definition reserve_existing (obj : ustatus) : eff (gn P S) gn_error (option ustatus) :=
  reserveAllocatedIPs obj (fun reservedIPs =>
    _ ← RecordAllocateClusterGlobalEgressIPs (Z.of_nat (length reservedIPs));
    programClusterGlobalEgressRules reservedIPs).
End cluster.

(** * What is in the chain *)
Section chain.
Context {P S : Type} `{!IPPool P} `{!IPPoolLaws P} `{!PFDriver S} `{!FilterView S} `{!PFDriverLaws S}
  `{!MetaConditions}.
Context (localSubnets : list string) (good : string -> Prop).
Notation AllocatedIPs := (GlobalEgress.AllocatedIPs).

Definition cluster_rule (snat subnet : string) : Rule := snat_rule subnet "" snat globalNetIPTableMark.

Hypothesis subnets_nodup : NoDup localSubnets.
(** The addresses of the pool are ones a rule can hold. *)
Hypothesis pool_good : forall (p : P) ips, (list_to_set ips : gset string) ⊆ free p -> Forall good ips.
Hypothesis rule_valid : forall ips snat subnet, Forall good ips -> getTargetSNATIPaddress ips = Ok snat ->
  subnet ∈ localSubnets -> valid_rule (cluster_rule snat subnet).

(** The rules that belong to the addresses of a status. *)
Definition cluster_rules (ips : list string) : list Rule :=
  match getTargetSNATIPaddress ips with
  | Ok snat => map (cluster_rule snat) localSubnets
  | Err _ => []
  end.

Definition cluster_chain (w : gn P S) : list Rule := rules (pf w) TableTypeNAT SmGlobalnetEgressForCluster.

Lemma delete_rules_ok snat srcs : (forall s, s ∈ srcs -> valid_rule (cluster_rule snat s)) ->
  forall (w w' : gn P S), pf_wf (pf w) ->
  deleteClusterGlobalEgressRules srcs snat w = (Ok tt, w') ->
  pf_wf (pf w') /\ pool w' = pool w /\
  cluster_chain w' = foldl (fun l r => remove_first r l) (cluster_chain w) (map (cluster_rule snat) srcs).
Proof.
  induction srcs as [|s srcs IH]; intros Hv w w' Hwf Hrun; [by injection Hrun as <-|].
  apply eff_bind_inv in Hrun as [([] & w1 & Hd & Hrun)|(e & _ & He)]; [|done].
  destruct (on_pf_spec _ _ _ _ _ (delete_nat_spec _ _ (Hv s ltac:(left))) Hwf Hd) as (Hwf1 & Hp1 & Hc1 & _).
  destruct (IH ltac:(intros; apply Hv; by right) _ _ Hwf1 Hrun) as (Hwf2 & Hp2 & Hc2).
  split; [done|]. split; [congruence|]. rewrite Hc2. unfold cluster_chain. by rewrite Hc1.
Qed.

Lemma remove_first_self l : foldl (fun l r => remove_first r l) l l = [].
Proof. induction l as [|r l IH]; [done|]. simpl. by rewrite bool_decide_true. Qed.

Lemma program_loop_ok snat srcs : NoDup srcs -> (forall s, s ∈ srcs -> valid_rule (cluster_rule snat s)) ->
  forall i progr (w w' : gn P S), pf_wf (pf w) -> (forall s, s ∈ srcs -> cluster_rule snat s ∉ cluster_chain w) ->
  program_loop snat i srcs progr w = (Ok tt, w') ->
  pf_wf (pf w') /\ cluster_chain w' = cluster_chain w ++ map (cluster_rule snat) srcs.
Proof.
  induction 1 as [|s srcs Hs Hnd IH]; intros Hv i progr w w' Hwf Hout Hrun.
  { injection Hrun as <-. split; [done|]. by rewrite app_nil_r. }
  simpl in Hrun. unfold mbind at 1, eff_bind at 1, attempt in Hrun.
  destruct (on_pf _ w) as [r w1] eqn:Ha.
  destruct (on_pf_spec _ _ _ _ _ (append_nat_spec _ _ (Hv s ltac:(left))) Hwf Ha) as (Hwf1 & _ & Hp).
  destruct r as [[]|e]; [|unfold mbind, eff_bind, ignore, fail in Hrun; done].
  destruct Hp as [Hc1 _]. unfold add_one in Hc1.
  rewrite bool_decide_false in Hc1 by apply (Hout s ltac:(left)).
  assert (Hout' : forall s', s' ∈ srcs -> cluster_rule snat s' ∉ cluster_chain w1).
  { intros s' Hs'. unfold cluster_chain. rewrite Hc1, not_elem_of_app.
    split; [apply Hout; by right|]. rewrite list_elem_of_singleton. by intros [= ->]. }
  destruct (IH ltac:(intros; apply Hv; by right) _ _ _ _ Hwf1 Hout' Hrun) as [Hwf2 Hc2].
  split; [done|]. rewrite Hc2. unfold cluster_chain. by rewrite Hc1, <- app_assoc.
Qed.

Lemma flush_clears n ips (w w' : gn P S) : n < maxRequeues -> Forall good ips -> pf_wf (pf w) ->
  cluster_chain w = cluster_rules ips ->
  flushRulesAndReleaseIPs n (flushClusterGlobalEgressRules localSubnets) ips w = (Ok false, w') ->
  pf_wf (pf w') /\ cluster_chain w' = [].
Proof.
  intros Hn Hg Hwf Hch. unfold flushRulesAndReleaseIPs. unfold cluster_rules in Hch.
  destruct ips as [|ip ips]; [by intros [= <-]|].
  assert (Hs : exists snat, getTargetSNATIPaddress (ip :: ips) = Ok snat) by (destruct ips; eauto).
  destruct Hs as [snat Hs]. rewrite Hs in Hch.
  unfold mbind at 1, eff_bind at 1, attempt at 1, flushClusterGlobalEgressRules.
  unfold mbind at 1, eff_bind at 1, RecordDeallocateClusterGlobalEgressIPs, gauge_add, modifyw.
  set (w1 := mkGn (pool w) (pf w) _). rewrite Hs.
  unfold mbind at 1, eff_bind at 1, lift_result.
  destruct (deleteClusterGlobalEgressRules localSubnets snat w1) as [rd w2] eqn:Hd.
  unfold shouldRequeue. replace (n <? maxRequeues) with true by (symmetry; by apply Z.ltb_lt).
  destruct rd as [[]|e]; cbn; [|done]. intros [= <-]. unfold cluster_chain. rewrite on_pool_pf. apply delete_rules_ok in Hd as (Hwf2 & _ & Hc);
    [|intros s; exact (rule_valid _ _ s Hg Hs)|done].
  split; [done|]. change (cluster_chain w2 = []). rewrite Hc.
  change (cluster_chain w1) with (cluster_chain w). rewrite Hch. apply remove_first_self.
Qed.

Lemma allocate_programs n st st' (w w' : gn P S) : pf_wf (pf w) -> cluster_chain w = [] ->
  allocateGlobalIPs localSubnets n st w = (Ok (false, st'), w') ->
  Z.of_nat (length (AllocatedIPs st')) = n /\ cluster_chain w' = cluster_rules (AllocatedIPs st').
Proof.
  intros Hwf Hch. unfold allocateGlobalIPs. destruct (n =? 0) eqn:Hn.
  { intros [= <- <-]. cbn. apply Z.eqb_eq in Hn. by split. }
  unfold mbind at 1, eff_bind at 1, attempt at 1, on_pool at 1.
  destruct (pool_Allocate n (pool w)) as [[ips|e] p1] eqn:Hall; cbn [map_err]; [|done].
  apply allocate_ok in Hall as (Hlen & _ & Hsub & _). apply pool_good in Hsub.
  set (w1 := mkGn p1 (pf w) (gauges w)).
  unfold mbind at 1, eff_bind at 1, attempt at 1.
  destruct (programClusterGlobalEgressRules localSubnets ips w1) as [[[]|e] w2] eqn:Hp.
  2: { unfold mbind, eff_bind, ignore. done. }
  intros [= <- <-]. split; [done|].
  unfold programClusterGlobalEgressRules, lift_result in Hp. unfold cluster_rules. cbn [GlobalEgress.AllocatedIPs].
  apply eff_bind_inv in Hp as [(snat & w1' & [= Hs <-] & Hp)|(e & _ & He)]; [|done].
  unfold GlobalEgress.with_ips. cbn [GlobalEgress.AllocatedIPs]. rewrite Hs.
  apply program_loop_ok in Hp as [_ Hc]; [|done|intros s; exact (rule_valid _ _ s Hsub Hs)|done|].
  - change (cluster_chain w2 = map (cluster_rule snat) localSubnets). rewrite Hc.
    change (cluster_chain w1) with (cluster_chain w). by rewrite Hch.
  - intros s _. change (cluster_chain w1) with (cluster_chain w). rewrite Hch. set_solver.
Qed.

Lemma validate_ips n nm st : AllocatedIPs (validate n nm st).2 = AllocatedIPs st.
Proof. unfold validate. by repeat case_match. Qed.

Lemma status_unchanged_ips prevIPs st : GlobalEgress.status_changed prevIPs st = false -> AllocatedIPs st = prevIPs.
Proof.
  unfold GlobalEgress.status_changed. intros Hs. apply negb_false_iff, andb_true_iff in Hs as [_ Hs].
  by apply bool_decide_eq_true in Hs.
Qed.

Lemma update_chain (valid : bool) number n st rq st' (w w' : gn P S) :
  n < maxRequeues -> Forall good (AllocatedIPs st) -> pf_wf (pf w) ->
  cluster_chain w = cluster_rules (AllocatedIPs st) ->
  (if valid then onCreateOrUpdate localSubnets number n st else mret (false, st)) w = (Ok (rq, st'), w') ->
  rq = false -> cluster_chain w' = cluster_rules (AllocatedIPs st').
Proof.
  intros Hn Hg Hwf Hch Hrun ->. destruct valid; [|by injection Hrun as <- <-].
  unfold onCreateOrUpdate in Hrun. destruct (_ =? _); [by injection Hrun as <- <-|].
  apply eff_bind_inv in Hrun as [([] & w1 & Hf & Hrun)|(e & _ & He)]; [done| |done].
  apply flush_clears in Hf as [Hwf1 Hch1]; [|done..]. by eapply allocate_programs.
Qed.

(** C21: While the chain holds exactly the rules of the addresses in the status of
    the ClusterGlobalEgressIP, one for every local subnet, a creation or update that
    finishes with fewer requeues than the maximum keeps it so: no rule of the
    addresses given up is left and none of the new ones is missing; and such a
    deletion empties it.  (With the last requeue the failure of a removal is dropped.) *)
Theorem cluster_egress_chain_exact from n op (w : gn P S) out w' :
  n < maxRequeues -> Forall good (ce_AllocatedIPs from) -> pf_wf (pf w) ->
  cluster_chain w = cluster_rules (ce_AllocatedIPs from) ->
  process localSubnets from n op w = (Ok (out, false), w') ->
  cluster_chain w' =
    match op with
    | GlobalEgress.Delete => []
    | _ => cluster_rules (ce_AllocatedIPs (default from out))
    end.
Proof.
  intros Hn Hg Hwf Hch Hrun. unfold process in Hrun.
  assert (Hdel : forall w1, onDelete localSubnets n (ce_AllocatedIPs from) w = (Ok false, w1) ->
    cluster_chain w1 = []) by (intros w1 Hf; by eapply flush_clears).
  set (st0 := GlobalEgress.mkStatus _ _) in Hrun.
  pose proof (validate_ips (default 1 (ce_NumberOfIPs from)) (ce_Name from) st0) as Hv.
  destruct (validate _ _ st0) as [valid st]. cbn [snd] in Hv.
  destruct op; [| |apply eff_bind_inv in Hrun as [(rq & w1 & Hf & Hrun)|(e & _ & He)];
    [injection Hrun as <- -> <-; by apply Hdel|done]].
  all: apply eff_bind_inv in Hrun as [([rq st1] & w1 & Hu & Hrun)|(e & _ & He)]; [|done].
  all: injection Hrun as <- -> <-; apply update_chain in Hu; [|done|by rewrite Hv|done|by rewrite Hv|done]; rewrite Hu.
  all: destruct (GlobalEgress.status_changed _ st1) eqn:Hc; [done|].
  all: by rewrite (status_unchanged_ips _ _ Hc).
Qed.
End chain.

(** * A concrete controller *)
#[local] Existing Instance filter_ref.
#[local] Existing Instance filter_ref_view.
#[local] Existing Instance filter_ref_laws.
#[local] Existing Instance meta_ref.

Definition ex_pool : IPPool (gset string) := pool_ref "242.254.0.0/16".
#[local] Existing Instance ex_pool.
#[local] Instance ex_pool_laws : IPPoolLaws (gset string) := pool_ref_laws _.

Definition ex_subnets : list string := ["10.0.0.0/16"; "10.1.0.0/16"].

Definition ex_world : gn (gset string) filter_state :=
  mkGn {["242.254.0.1"; "242.254.0.2"; "242.254.0.3"]} (mkFilterState (fun _ _ => []) ∅) ∅.

Definition ex_object : ClusterGlobalEgressIP := mkClusterEgressIP ClusterGlobalEgressIPName (Some 2) [] [].

Lemma ex_cluster_valid ips snat subnet : Forall any_ip ips -> getTargetSNATIPaddress ips = Ok snat ->
  subnet ∈ ex_subnets -> valid_rule (cluster_rule snat subnet).
Proof. intros _ _ _. exact I. Qed.

Lemma cluster_egress_chain_exact_witness : exists out w',
  process ex_subnets ex_object 0 GlobalEgress.Create ex_world = (Ok (out, false), w') /\
  cluster_chain w' = cluster_rules ex_subnets (ce_AllocatedIPs (default ex_object out)) /\
  length (cluster_chain w') = 2%nat.
Proof.
  destruct (process ex_subnets ex_object 0 GlobalEgress.Create ex_world) as [r w'] eqn:Hp.
  assert (Hr : match r with Ok (_, rq) => negb rq && (length (cluster_chain w') =? 2)%nat | Err _ => false end = true).
  { change r with (r, w').1. change w' with (r, w').2 at 2. rewrite <- Hp. vm_compute. reflexivity. }
  destruct r as [[out rq]|e]; [|discriminate]. destruct rq; [discriminate|].
  exists out, w'. split; [reflexivity|].
  split; [|by apply andb_true_iff in Hr as [_ Hr]; apply Nat.eqb_eq in Hr].
  assert (Hwf : pf_wf (pf ex_world)) by exact I.
  assert (Hnd : NoDup ex_subnets) by (apply (bool_decide_unpack _); vm_compute; exact I).
  apply (cluster_egress_chain_exact ex_subnets any_ip Hnd (ex_pool_good _) ex_cluster_valid
    ex_object 0 GlobalEgress.Create ex_world out w' eq_refl (List.Forall_nil _) Hwf eq_refl Hp).
Defined.
End ClusterEgress.
