(* ===== verification/GlobalGateway.v ===== *)
(** The globalnet controller that allocates the addresses for the health check of
    the gateways (src/pkg/globalnet/controllers/gateway_controller.go). *)
From stdpp Require Import base gmap list strings fin_sets.
From Stdlib Require String.
From Stdlib Require Import ZArith Lia.
From S2P Require Import Prelude K8s PacketFilter GlobalnetBase GlobalEgress.
Local Open Scope Z_scope.

Module GatewayController.
Import PacketFilter Globalnet.

Definition SmGlobalIP : string := "submariner.io/globalIp".

(** A Gateway, as far as the controller reads and writes it. *)
Record Gateway := mkGateway { gw_Name : string; gw_Annotations : gmap string string }.

Definition existing_ip (gw : Gateway) : string := zget "" (gw_Annotations gw) SmGlobalIP.

Definition updateGlobalIPAnnotation (gw : Gateway) (globalIP : string) : Gateway :=
  mkGateway (gw_Name gw)
    (if globalIP =?? "" then delete SmGlobalIP (gw_Annotations gw)
     else <[SmGlobalIP := globalIP]> (gw_Annotations gw)).

Section gateway.
Context {P S : Type} `{!IPPool P} `{!PFDriver S}.
(** [gatewayController] *)
Context (hostName cniIP : string).

(** [ips[0]] panics when the pool returned none. *)
Definition allocateIP (gateway : Gateway) : eff (gn P S) gn_error (option Gateway * bool) :=
  if cniIP =?? "" then mret (None, false)
  else if negb (existing_ip gateway =?? "") then mret (None, false)
  else
    r ← attempt (on_pool (pool_Allocate 1));
    match r : result gn_error (list string) with
    | Err _ => mret (None, true)
    | Ok [] => fail (GnPanic "index out of range")
    | Ok (globalIP :: _) =>
        r ← attempt (on_pf (AddIngressRulesForHealthCheck cniIP globalIP));
        match r : result gn_error unit with
        | Err _ => _ ← ignore (on_pool (pool_Release [globalIP])); mret (None, true)
        | Ok _ => mret (Some (updateGlobalIPAnnotation gateway globalIP), false)
        end
    end.

Definition process (gateway : Gateway) (op : GlobalEgress.Operation) :
    eff (gn P S) gn_error (option Gateway * bool) :=
  match op with
  | GlobalEgress.Delete =>
      let existingGlobalIP := existing_ip gateway in
      _ ← (if existingGlobalIP =?? "" then mret tt else ignore (on_pool (pool_Release [existingGlobalIP])));
      mret (None, false)
  | _ => if gw_Name gateway =?? hostName then allocateIP gateway else mret (None, false)
  end.

(** The result is the gateway to distribute, with its annotation removed. *)
Definition reserveAllocatedIP (obj : Gateway) : eff (gn P S) gn_error (option Gateway) :=
  let existingGlobalIP := existing_ip obj in
  if existingGlobalIP =?? "" then mret None
  else if cniIP =?? "" then mret None
  else
    r ← attempt (on_pool (pool_Reserve [existingGlobalIP]));
    err ← (match r : result gn_error unit with
           | Err _ => mret true
           | Ok _ =>
               if gw_Name obj =?? hostName then
                 r ← attempt (on_pf (AddIngressRulesForHealthCheck cniIP existingGlobalIP));
                 match r : result gn_error unit with
                 | Err _ => _ ← ignore (on_pool (pool_Release [existingGlobalIP])); mret true
                 | Ok _ => mret false
                 end
               else mret false
           end);
    if err : bool then
      if negb (gw_Name obj =?? hostName) then mret None
      else
        _ ← ignore (on_pf (RemoveIngressRulesForHealthCheck cniIP existingGlobalIP));
        mret (Some (updateGlobalIPAnnotation obj ""))
    else mret None.
End gateway.

Section coherent.
Context {P S : Type} `{!IPPool P} `{!IPPoolLaws P} `{!PFDriver S} `{!FilterView S} `{!PFDriverLaws S}.
Context (hostName cniIP : string) (good : string -> Prop).

Definition health_rule (ip : string) : Rule := dnat_rule RuleProtoICMP ip cniIP.

Hypothesis pool_good : forall (p : P) ips, (list_to_set ips : gset string) ⊆ free p -> Forall good ips.
Hypothesis rule_valid : forall ip, good ip -> valid_rule (health_rule ip).

Definition ingress_chain (w : gn P S) : list Rule := rules (pf w) TableTypeNAT SmGlobalnetIngress.

Lemma annotation_read gw ip : existing_ip (updateGlobalIPAnnotation gw ip) = ip.
Proof.
  unfold existing_ip, updateGlobalIPAnnotation. case_bool_decide as Hip; cbn.
  - rewrite Hip. unfold zget. by rewrite lookup_delete_eq.
  - apply zget_insert_eq.
Qed.

Lemma add_health_rule ip (w w' : gn P S) r : good ip -> pf_wf (pf w) ->
  on_pf (AddIngressRulesForHealthCheck cniIP ip) w = (r, w') ->
  pf_wf (pf w') /\ pool w' = pool w /\
  match r with
  | Ok _ => health_rule ip ∈ ingress_chain w'
  | Err _ => ingress_chain w' = ingress_chain w
  end.
Proof.
  intros Hg Hwf Hrun.
  destruct (on_pf_spec _ _ _ _ _ (append_nat_spec SmGlobalnetIngress _ (rule_valid _ Hg)) Hwf Hrun)
    as (Hwf1 & Hp & Hpost).
  split; [done|]. split; [done|]. unfold ingress_chain. destruct r as [[]|e].
  - destruct Hpost as [-> _]. unfold add_one. case_bool_decide; [done|]. apply elem_of_app. right. by left.
  - by destruct Hpost as [-> _].
Qed.

(** For the health check of the local gateway an address is taken from the
    pool, its rule is put in the ingress chain and its annotation is set, all
    three or none: when the rule cannot be added the handler asks to be called
    again, the annotation and the chain stay as they were, and the pool has the
    address again unless releasing it failed.  A gateway that has an address, or a
    node without a CNI address, is left alone; the handler never panics. *)
Lemma gateway_ip_coherent gw (w : gn P S) r w' :
  pf_wf (pf w) -> allocateIP cniIP gw w = (r, w') ->
  match r with
  | Ok (Some gw', requeue) =>
      requeue = false /\ gw_Name gw' = gw_Name gw /\ existing_ip gw' ∈ free (pool w) /\
      free (pool w') = free (pool w) ∖ {[existing_ip gw']} /\
      health_rule (existing_ip gw') ∈ ingress_chain w'
  | Ok (None, true) =>
      ingress_chain w' = ingress_chain w /\ existing_ip gw = "" /\
      (free (pool w') = free (pool w) \/
       exists ip p e, pool_Release [ip] p = (Err e, pool w') /\ free p = free (pool w) ∖ {[ip]})
  | Ok (None, false) => w' = w /\ (cniIP = "" \/ existing_ip gw <> "")
  | Err _ => False
  end.
Proof.
  intros Hwf. unfold allocateIP. case_bool_decide as Hcni; [by intros [= <- <-]; eauto|].
  case_bool_decide as Hex; cbn [negb]; [|by intros [= <- <-]; eauto].
  unfold mbind at 1, eff_bind at 1, attempt at 1, on_pool at 1.
  destruct (pool_Allocate 1 (pool w)) as [[ips|e] p1] eqn:Hall; cbn [map_err].
  2: { apply allocate_err in Hall. intros [= <- <-]. cbn. rewrite Hall. repeat split; auto. }
  apply allocate_ok in Hall as (Hlen & _ & Hsub & Hfree).
  destruct ips as [|ip [|ip2 ips]]; cbn [length] in Hlen; [lia| |lia].
  pose proof (pool_good _ _ Hsub) as Hg. apply (Forall_singleton good) in Hg.
  set (w1 := mkGn p1 (pf w) (gauges w)).
  unfold mbind at 1, eff_bind at 1, attempt at 1.
  destruct (on_pf (AddIngressRulesForHealthCheck cniIP ip) w1) as [ra w2] eqn:Ha.
  destruct (add_health_rule _ w1 _ _ Hg Hwf Ha) as (Hwf2 & Hp2 & Hpost). destruct ra as [[]|e].
  - intros [= <- <-]. rewrite annotation_read, Hp2. cbn [pool w1].
    split; [done|]. split; [done|]. rewrite Hfree. set_solver.
  - unfold mbind, eff_bind, ignore, on_pool. rewrite Hp2. cbn [pool w1].
    destruct (pool_Release [ip] p1) as [[[]|e'] p3] eqn:Hrel; intros [= <- <-]; cbn.
    + apply release_ok in Hrel. split; [exact Hpost|]. split; [done|]. left.
      rewrite Hrel, Hfree. apply set_eq. intros x. destruct (decide (x = ip)); set_solver.
    + split; [exact Hpost|]. split; [done|]. right. exists ip, p1, e'. split; [done|].
      rewrite Hfree. set_solver.
Qed.
End coherent.

#[local] Existing Instance filter_ref.
#[local] Existing Instance filter_ref_view.
#[local] Existing Instance filter_ref_laws.

Definition ex_pool : IPPool (gset string) := pool_ref "242.254.0.0/16".
#[local] Existing Instance ex_pool.
#[local] Instance ex_pool_laws : IPPoolLaws (gset string) := pool_ref_laws _.

Lemma ex_health_valid ip : any_ip ip -> valid_rule (health_rule "10.244.0.1" ip).
Proof. intros _. exact I. Qed.

Definition ex_world : gn (gset string) filter_state :=
  mkGn {["242.254.0.1"]} (mkFilterState (fun _ _ => []) ∅) ∅.

Lemma gateway_ip_coherent_witness : exists gw' w',
  allocateIP "10.244.0.1" (mkGateway "gw" ∅) ex_world = (Ok (Some gw', false), w') /\
  health_rule "10.244.0.1" (existing_ip gw') ∈ ingress_chain w'.
Proof.
  destruct (allocateIP "10.244.0.1" (mkGateway "gw" ∅) ex_world) as [r w'] eqn:Hp.
  assert (Hr : match r with Ok (Some _, rq) => negb rq | _ => false end = true).
  { change r with (r, w').1. rewrite <- Hp. vm_compute. reflexivity. }
  destruct r as [[[gw'|] rq]|e]; [|discriminate..]. destruct rq; [discriminate|].
  exists gw', w'. split; [reflexivity|].
  assert (Hwf : pf_wf (pf ex_world)) by exact I.
  pose proof (gateway_ip_coherent "10.244.0.1" any_ip (ex_pool_good _) ex_health_valid (mkGateway "gw" ∅) ex_world _ w'
    Hwf Hp) as (_ & _ & _ & _ & Hin).
  exact Hin.
Defined.
End GatewayController.
