(* ===== verification/GlobalIngress.v ===== *)
(** The GlobalIngressIP controller of globalnet
    (src/pkg/globalnet/controllers/global_ingressip_controller.go) with the service
    helpers of base_controllers.go.  The calls of the Kubernetes client on services
    are a class with their documented laws. *)
From stdpp Require Import base gmap list strings fin_sets.
From Stdlib Require String.
From Stdlib Require Import ZArith Lia.
From S2P Require Import Prelude K8s PacketFilter GlobalnetBase GlobalEgress.
Local Open Scope Z_scope.

(** A [corev1.Service], as far as the controller reads and writes it; [Port] is the
    type of its ports, which are only copied. *)
Record Service (Port : Type) := mkService {
  svc_Name : string;
  svc_Namespace : string;
  svc_Labels : gmap string string;
  svc_Finalizers : list string;
  svc_Ports : list Port;
  svc_Selector : gmap string string;
  svc_ExternalIPs : list string;
  svc_IPFamilyPolicy : string;
  svc_PublishNotReadyAddresses : bool;
}.
Arguments mkService {Port} _ _ _ _ _ _ _ _ _.
Arguments svc_Name {Port} _.
Arguments svc_Namespace {Port} _.
Arguments svc_Labels {Port} _.
Arguments svc_Finalizers {Port} _.
Arguments svc_Ports {Port} _.
Arguments svc_Selector {Port} _.
Arguments svc_ExternalIPs {Port} _.
Arguments svc_IPFamilyPolicy {Port} _.
Arguments svc_PublishNotReadyAddresses {Port} _.

(** The client for services: [Get] with the conversion ([None] when it is not found),
    admiral's [CreateOrUpdate] with [Replace] and [finalizer.Remove], and [Delete]
    ([false] when it is not found). *)
Class ServiceClient (K Port : Type) := {
  svc_Get : string -> string -> eff K string (option (Service Port));
  svc_CreateOrUpdate : string -> Service Port -> eff K string unit;
  svc_RemoveFinalizer : string -> Service Port -> string -> eff K string unit;
  svc_Delete : string -> string -> eff K string bool;
}.

(** [services] are the stored objects, by namespace and name.  A call that fails
    changes nothing; a deleted object with finalizers stays until they are removed,
    which [deleting] records. *)
Class ServiceClientLaws (K Port : Type) `{!ServiceClient K Port} := {
  services : K -> gmap (string * string) (Service Port);
  stored_key : forall k ns n s, services k !! (ns, n) = Some s -> svc_Name s = n /\ svc_Namespace s = ns;
  get_ok : forall ns n k o k', svc_Get ns n k = (Ok o, k') -> o = services k !! (ns, n) /\ services k' = services k;
  get_err : forall ns n k e k', svc_Get ns n k = (Err e, k') -> services k' = services k;
  cou_ok : forall ns s k k', svc_CreateOrUpdate ns s k = (Ok tt, k') -> exists s',
    services k' = <[(ns, svc_Name s) := s']> (services k) /\
    svc_ExternalIPs s' = svc_ExternalIPs s /\ svc_Ports s' = svc_Ports s /\
    svc_Selector s' = svc_Selector s /\ svc_Finalizers s' = svc_Finalizers s;
  cou_err : forall ns s k e k', svc_CreateOrUpdate ns s k = (Err e, k') -> services k' = services k;
  fin_ok : forall ns s f k k', svc_RemoveFinalizer ns s f k = (Ok tt, k') ->
    (forall key, key <> (ns, svc_Name s) -> services k' !! key = services k !! key) /\
    match services k' !! (ns, svc_Name s) with
    | Some s' => exists s0, services k !! (ns, svc_Name s) = Some s0 /\
        svc_Finalizers s' = filter (fun x => x <> f) (svc_Finalizers s0)
    | None => True
    end;
  fin_err : forall ns s f k e k', svc_RemoveFinalizer ns s f k = (Err e, k') -> services k' = services k;
  del_ok : forall ns n k k', svc_Delete ns n k = (Ok true, k') ->
    (forall key, key <> (ns, n) -> services k' !! key = services k !! key) /\
    (forall s, services k !! (ns, n) = Some s -> svc_Finalizers s = [] -> services k' !! (ns, n) = None) /\
    (services k !! (ns, n) = None -> services k' !! (ns, n) = None);
  del_missing : forall ns n k k', svc_Delete ns n k = (Ok false, k') ->
    services k !! (ns, n) = None /\ services k' = services k;
  del_err : forall ns n k e k', svc_Delete ns n k = (Err e, k') -> services k' = services k;
}.

(** A client on which the laws hold: the stored objects, which have the name and
    the namespace they are stored under. *)
Section service_ref.
Context {Port : Type}.

Definition at_key (key : string * string) (s : Service Port) : Service Port :=
  mkService key.2 key.1 (svc_Labels s) (svc_Finalizers s) (svc_Ports s) (svc_Selector s)
    (svc_ExternalIPs s) (svc_IPFamilyPolicy s) (svc_PublishNotReadyAddresses s).

Definition without_finalizer (f : string) (s : Service Port) : Service Port :=
  mkService (svc_Name s) (svc_Namespace s) (svc_Labels s) (filter (fun x => x <> f) (svc_Finalizers s))
    (svc_Ports s) (svc_Selector s) (svc_ExternalIPs s) (svc_IPFamilyPolicy s) (svc_PublishNotReadyAddresses s).

Definition stored (k : gmap (string * string) (Service Port)) : gmap (string * string) (Service Port) :=
  map_imap (fun key s => Some (at_key key s)) k.

Definition service_ref : ServiceClient (gmap (string * string) (Service Port)) Port := {|
  svc_Get := fun ns n k => (Ok (stored k !! (ns, n)), k);
  svc_CreateOrUpdate := fun ns s k => (Ok tt, <[(ns, svc_Name s) := s]> k);
  svc_RemoveFinalizer := fun ns s f k => (Ok tt, alter (without_finalizer f) (ns, svc_Name s) k);
  svc_Delete := fun ns n k =>
    match k !! (ns, n) with
    | Some s => (Ok true, if svc_Finalizers s =?? [] then delete (ns, n) k else k)
    | None => (Ok false, k)
    end;
|}.

Lemma stored_lookup k key : stored k !! key = at_key key <$> k !! key.
Proof. unfold stored. rewrite map_lookup_imap. by destruct (k !! key). Qed.

Lemma service_ref_laws : @ServiceClientLaws (gmap (string * string) (Service Port)) Port service_ref.
Proof.
  unshelve esplit; [exact stored|..]; cbn [svc_Get svc_CreateOrUpdate svc_RemoveFinalizer svc_Delete service_ref].
  - intros k ns n s. rewrite stored_lookup. destruct (k !! (ns, n)); [|done]. by intros [= <-].
  - by intros ns n k o k' [= <- <-].
  - done.
  - intros ns s k k' [= <-]. exists (at_key (ns, svc_Name s) s). split; [|done].
    apply map_eq. intros key. rewrite stored_lookup. destruct (decide (key = (ns, svc_Name s))) as [->|Hne].
    + by rewrite !lookup_insert_eq.
    + by rewrite !lookup_insert_ne, stored_lookup.
  - done.
  - intros ns s f k k' [= <-]. split.
    + intros key Hne. by rewrite !stored_lookup, lookup_alter_ne.
    + rewrite !stored_lookup, lookup_alter_eq. destruct (k !! _) as [s0|]; cbn; [|done]. by eexists.
  - done.
  - intros ns n k k'. destruct (k !! (ns, n)) as [s0|] eqn:Hk; [|done]. intros [= <-]. split; [|split].
    + intros key Hne. rewrite !stored_lookup. case_bool_decide; [by rewrite lookup_delete_ne|done].
    + intros s Hs Hf. rewrite stored_lookup, Hk in Hs. injection Hs as <-. cbn in Hf.
      by rewrite bool_decide_true, stored_lookup, lookup_delete_eq.
    + by rewrite stored_lookup, Hk.
  - intros ns n k k'. destruct (k !! (ns, n)) as [s0|] eqn:Hk; [done|]. intros [= <-].
    by rewrite stored_lookup, Hk.
  - intros ns n k e k'. by destruct (k !! (ns, n)).
Defined.
End service_ref.

Module GlobalIngress.
Import PacketFilter Globalnet.

(** [TargetType] of the custom resource. *)
Inductive Target := ClusterIPService | HeadlessServicePod | HeadlessServiceEndpoints | OtherTarget (t : string).

#[global] Instance Target_eq_dec : EqDecision Target.
Proof. solve_decision. Defined.

(** [GlobalIngressIP]: references are the names of local objects. *)
Record GlobalIngressIP := mkIngressIP {
  gi_Name : string;
  gi_Namespace : string;
  gi_Annotations : gmap string string;
  gi_Target : Target;
  gi_ServiceRef : option string;
  gi_PodRef : option string;
  gi_Conditions : list Condition;
  gi_AllocatedIP : string;
}.

Definition headlessSvcPodIP : string := "submariner.io/headless-svc-pod-ip".
Definition headlessSvcEndpointsIP : string := "submariner.io/headless-svc-endpoints-ip".
Definition InternalServicePrefix : string := "submariner-".
Definition InternalServiceLabel : string := "submariner.io/exportedServiceRef".
Definition InternalServiceFinalizer : string := "submariner.io/globalnet-internal-service".

Section ingress.
Context {P S K Port : Type} `{!IPPool P} `{!PFDriver S} `{!MetaConditions} `{!ServiceClient K Port}.
(** The base-32 encoding of the SHA-256 hash. *)
Context (encoded_hash : string -> string).

Definition GetInternalSvcName (name : string) : string :=
  ToLower (InternalServicePrefix +:+ String.substring 0 32 (encoded_hash name)).

(** The controller: the allocation state and the API server. *)
Record world := mkWorld { base : gn P S; api : K }.

Definition on_base {A} (m : eff (gn P S) gn_error A) : eff world gn_error A := fun w =>
  let '(r, b) := m (base w) in (r, mkWorld b (api w)).

Definition on_api {A} (m : eff K string A) : eff world gn_error A := fun w =>
  let '(r, k) := m (api w) in (map_err GnOther r, mkWorld (base w) k).

(** The status under change. *)
Record status := mkStatus { conds : cond_slices; AllocatedIP : string }.

Definition set_cond (c : Condition) (st : status) : status :=
  mkStatus (SetStatusCondition c (conds st)) (AllocatedIP st).

Definition allocated_false (reason message : string) : Condition :=
  mkCondition GlobalEgressIPAllocated "False" reason message.

(** The message of an error, where it is part of the status. *)
Definition err_message (e : gn_error) : string :=
  match e with GnOther msg | GnPool msg => msg | _ => "" end.

(** A pointer that is dereferenced. *)
Definition deref {W A} (p : option A) : eff W gn_error A :=
  match p with Some a => mret a | None => fail (GnPanic "nil pointer dereference") end.

(** * Services (base_controllers.go) *)
(** The service found, whether it exists, and the error. *)
Definition getService (name namespace : string) :
    eff world gn_error (option (Service Port) * bool * option gn_error) :=
  r ← attempt (on_api (svc_Get namespace name));
  match r : result gn_error (option (Service Port)) with
  | Ok (Some s) => mret (Some s, true, None)
  | Ok None => mret (None, false, None)
  | Err e => mret (None, false, Some e)
  end.

Definition deleteService (namespace name : string) : eff world gn_error unit :=
  _ ← on_api (svc_Delete namespace name); mret tt.

(** * The handlers *)
Definition getTargetReference (gi : GlobalIngressIP) : eff world gn_error string :=
  match gi_Target gi with
  | ClusterIPService => deref (gi_ServiceRef gi)
  | HeadlessServicePod => deref (gi_PodRef gi)
  | _ => mret ""
  end.

Definition createOrUpdateInternalService (from : Service Port) (extIP : string) : eff world gn_error unit :=
  let internalService := mkService (GetInternalSvcName (svc_Name from)) ""
    {[InternalServiceLabel := svc_Name from]} [InternalServiceFinalizer]
    (svc_Ports from) (svc_Selector from) [extIP] "SingleStack" (svc_PublishNotReadyAddresses from) in
  on_api (svc_CreateOrUpdate (svc_Namespace from) internalService).

(** The annotation with the address of the target, and the kind of target. *)
Definition headless_target (gi : GlobalIngressIP) : string * TargetType :=
  match gi_Target gi with
  | HeadlessServicePod => (zget "" (gi_Annotations gi) headlessSvcPodIP, PodTarget)
  | HeadlessServiceEndpoints => (zget "" (gi_Annotations gi) headlessSvcEndpointsIP, EndpointsTarget)
  | _ => (zget "" (gi_Annotations gi) "", NoTarget)
  end.

(** The ingress and the egress rule of a headless service; the first is removed
    again when the second cannot be added. *)
Definition program_headless (ip target : string) (tType : TargetType) : eff world gn_error unit :=
  r ← attempt (on_base (on_pf (AddIngressRulesForHeadlessSvc ip target tType)));
  match r : result gn_error unit with
  | Err _ => fail (GnOther "Error programming ingress rules")
  | Ok _ =>
      r ← attempt (on_base (on_pf (AddEgressRulesForHeadlessSvc target ip globalNetIPTableMark tType)));
      match r : result gn_error unit with
      | Ok _ => mret tt
      | Err _ =>
          _ ← ignore (on_base (on_pf (RemoveIngressRulesForHeadlessSvc ip target tType)));
          fail (GnOther "Error programming egress rules")
      end
  end.

Definition onUpdate (gi : GlobalIngressIP) (allocatedIP : string) : eff world gn_error bool :=
  if negb (gi_Target gi =?? ClusterIPService) then mret false
  else
    name ← deref (gi_ServiceRef gi);
    res ← getService name (gi_Namespace gi);
    let '(service, exists_, err) := res : option (Service Port) * bool * option gn_error in
    if negb exists_ then mret false
    else
      match err, service with
      | Some _, _ => mret true
      | None, None => fail (GnPanic "nil pointer dereference")
      | None, Some service =>
          r ← attempt (createOrUpdateInternalService service allocatedIP);
          mret (is_err (E := gn_error) (A := unit) r)
      end.

(** The service an allocated address is for: the outcome is the status and the
    wish to be called again when the handler ends there. *)
Definition program_service (gi : GlobalIngressIP) (ips : list string) (ip : string) (st : status) :
    eff world gn_error (option (bool * status)) :=
  name ← deref (gi_ServiceRef gi);
  res ← getService name (gi_Namespace gi);
  let '(service, exists_, err) := res : option (Service Port) * bool * option gn_error in
  match service, err, exists_ with
  | Some service, None, true =>
      r ← attempt (createOrUpdateInternalService service ip);
      match r : result gn_error unit with
      | Ok _ => mret None
      | Err e =>
          _ ← ignore (on_base (on_pool (pool_Release ips)));
          mret (Some (false, set_cond (allocated_false "InternalServiceCreationFailed"
                                         (err_message e)) st))
      end
  | _, _, _ => _ ← ignore (on_base (on_pool (pool_Release ips))); mret (Some (false, st))
  end.

Definition program_target (gi : GlobalIngressIP) (ips : list string) (ip : string) (st : status) :
    eff world gn_error (option (bool * status)) :=
  let '(target, tType) := headless_target gi in
  if target =?? "" then _ ← ignore (on_base (on_pool (pool_Release ips))); mret (Some (true, st))
  else
    r ← attempt (program_headless ip target tType);
    match r : result gn_error unit with
    | Ok _ => mret None
    | Err e =>
        _ ← ignore (on_base (on_pool (pool_Release ips)));
        mret (Some (true, set_cond (allocated_false "ProgramIPTableRulesFailed" (err_message e)) st))
    end.

Definition onCreate (gi : GlobalIngressIP) (st : status) : eff world gn_error (bool * status) :=
  if negb (AllocatedIP st =?? "") then
    requeue ← onUpdate gi (AllocatedIP st); mret (requeue, st)
  else
    r ← attempt (on_base (on_pool (pool_Allocate 1)));
    match r : result gn_error (list string) with
    | Err _ => mret (true, set_cond (allocated_false "IPPoolAllocationFailed"
                                       "Error allocating a global IP from the pool") st)
    | Ok [] => fail (GnPanic "index out of range")
    | Ok ((ip :: _) as ips) =>
        stop ← (if gi_Target gi =?? ClusterIPService then program_service gi ips ip st
                else program_target gi ips ip st);
        match stop : option (bool * status) with
        | Some out => mret out
        | None =>
            _ ← on_base (RecordAllocateGlobalIngressIPs 1);
            mret (false, set_cond (mkCondition GlobalEgressIPAllocated "True" "Success" "Allocated global IP")
                           (mkStatus (conds st) ip))
        end
    end.

(** The closure that removes the rules of a headless service. *)
Definition flush_headless (gi : GlobalIngressIP) (allocatedIPs : list string) : eff (gn P S) gn_error unit :=
  _ ← RecordDeallocateGlobalIngressIPs (Z.of_nat (length allocatedIPs));
  let '(target, tType) :=
    match gi_Target gi with
    | HeadlessServicePod | HeadlessServiceEndpoints => headless_target gi
    | _ => ("", NoTarget)
    end in
  if target =?? "" then mret tt
  else
    _ ← on_pf (RemoveIngressRulesForHeadlessSvc (gi_AllocatedIP gi) target tType);
    on_pf (RemoveEgressRulesForHeadlessSvc target (gi_AllocatedIP gi) globalNetIPTableMark tType).

Definition onDelete (gi : GlobalIngressIP) (numRequeues : Z) : eff world gn_error bool :=
  if gi_AllocatedIP gi =?? "" then mret false
  else if gi_Target gi =?? ClusterIPService then
    ref ← deref (gi_ServiceRef gi);
    let intSvcName := GetInternalSvcName ref in
    res ← getService intSvcName (gi_Namespace gi);
    let '(intSvc, exists_, err) := res : option (Service Port) * bool * option gn_error in
    match err with
    | Some _ => mret (shouldRequeue numRequeues)
    | None =>
        r ← attempt (match intSvc, exists_ with
                     | Some intSvc, true =>
                         _ ← on_api (svc_RemoveFinalizer (gi_Namespace gi) intSvc InternalServiceFinalizer);
                         deleteService (gi_Namespace gi) intSvcName
                     | _, _ => mret tt
                     end);
        match r : result gn_error unit with
        | Err _ => mret true
        | Ok _ => _ ← ignore (on_base (on_pool (pool_Release [gi_AllocatedIP gi]))); mret false
        end
    end
  else on_base (flushRulesAndReleaseIPs numRequeues (flush_headless gi) [gi_AllocatedIP gi]).

(** [checkStatusChanged] *)
Definition status_changed (prevIP : string) (st : status) : bool :=
  negb ((prev (conds st) =?? cur (conds st)) && (prevIP =?? AllocatedIP st)).

Definition with_status (st : status) (gi : GlobalIngressIP) : GlobalIngressIP :=
  mkIngressIP (gi_Name gi) (gi_Namespace gi) (gi_Annotations gi) (gi_Target gi) (gi_ServiceRef gi)
    (gi_PodRef gi) (cur (conds st)) (AllocatedIP st).

(** [fetch] is [fetchLatestFromAPIServer]: the object as stored now, or an error. *)
Definition process (fetch : GlobalIngressIP -> K -> result string GlobalIngressIP)
    (from : GlobalIngressIP) (numRequeues : Z) (op : GlobalEgress.Operation) :
    eff world gn_error (option GlobalIngressIP * bool) :=
  _ ← getTargetReference from;
  match op with
  | GlobalEgress.Create =>
      w ← getw;
      match fetch from (api w) with
      | Err _ => mret (None, true)
      | Ok gi =>
          let st := mkStatus (trimAllocatedStatusCondition (copy_status (gi_Conditions gi)))
                      (gi_AllocatedIP gi) in
          res ← onCreate gi st;
          let '(requeue, st) := res : bool * status in
          mret (if status_changed (gi_AllocatedIP gi) st then Some (with_status st gi) else None, requeue)
      end
  | GlobalEgress.Delete => requeue ← onDelete from numRequeues; mret (None, requeue)
  | GlobalEgress.Update => mret (None, false)
  end.

(** ** Start: what is done for an object that has an address already *)
Definition getServiceExternalIP (service : Service Port) : string :=
  match svc_ExternalIPs service with [] => "" | ip :: _ => ip end.

Definition ensureInternalServiceExists (gi : GlobalIngressIP) : eff world gn_error unit :=
  ref ← deref (gi_ServiceRef gi);
  let internalSvc := GetInternalSvcName ref in
  res ← getService internalSvc (gi_Namespace gi);
  let '(service, exists_, err) := res : option (Service Port) * bool * option gn_error in
  match err, service, exists_ with
  | Some e, _, _ => fail e
  | None, Some service, true =>
      if (svc_ExternalIPs service =?? []) || negb (getServiceExternalIP service =?? gi_AllocatedIP gi) then
        _ ← on_api (svc_RemoveFinalizer (gi_Namespace gi) service InternalServiceFinalizer);
        deleteService (gi_Namespace gi) internalSvc
      else mret tt
  | None, _, _ => mret tt
  end.

Definition post_reserve (gi : GlobalIngressIP) (reservedIPs : list string) : eff world gn_error unit :=
  _ ← on_base (RecordAllocateGlobalIngressIPs (Z.of_nat (length reservedIPs)));
  match gi_Target gi with
  | ClusterIPService => ensureInternalServiceExists gi
  | OtherTarget _ => mret tt
  | _ =>
      let '(target, tType) := headless_target gi in
      ip ← (match reservedIPs with ip :: _ => mret ip | [] => fail (GnPanic "index out of range") end);
      _ ← on_base (on_pf (AddIngressRulesForHeadlessSvc ip target tType));
      on_base (on_pf (AddEgressRulesForHeadlessSvc target ip globalNetIPTableMark tType))
  end.
End ingress.

(** * What an allocation leaves behind *)
Section allocation.
Context {P S K Port : Type} `{!IPPool P} `{!IPPoolLaws P} `{!PFDriver S} `{!FilterView S} `{!PFDriverLaws S}
  `{!MetaConditions} `{!ServiceClient K Port} `{!ServiceClientLaws K Port}.
Context (encoded_hash : string -> string) (good : string -> Prop).
Notation wld := (world (P := P) (S := S) (K := K)).

Definition ingress_rule (ip target : string) : Rule := dnat_rule RuleProtoUndefined ip target.
Definition headless_rule (ip target : string) : Rule := snat_rule target "" ip globalNetIPTableMark.

(** The addresses of the pool are ones the rules can hold. *)
Hypothesis pool_good : forall (p : P) ips, (list_to_set ips : gset string) ⊆ free p -> Forall good ips.
Hypothesis ingress_valid : forall ip target, good ip -> valid_rule (ingress_rule ip target).
Hypothesis headless_valid : forall ip target, good ip -> valid_rule (headless_rule ip target).

Definition nat_chain (c : string) (w : wld) : list Rule := rules (pf (base w)) TableTypeNAT c.

Lemma on_base_pf_spec (m : eff S pf_error unit) post (w : wld) r w' :
  call_spec m post -> pf_wf (pf (base w)) -> on_base (on_pf m) w = (r, w') ->
  pf_wf (pf (base w')) /\ pool (base w') = pool (base w) /\ api w' = api w /\
  match r with Ok _ => post (pf (base w)) (pf (base w')) | Err _ => same_filter (pf (base w)) (pf (base w')) end.
Proof.
  intros Hm Hwf. unfold on_base. destruct (on_pf m (base w)) as [r0 b] eqn:Hr. intros [= <- <-].
  destruct (on_pf_spec _ _ _ _ _ Hm Hwf Hr) as (H1 & H2 & H3). done.
Qed.

Lemma ingress_call_spec ip target tt : good ip ->
  call_spec (AddIngressRulesForHeadlessSvc ip target tt)
    (chain_changed TableTypeNAT SmGlobalnetIngress (add_one (ingress_rule ip target))).
Proof.
  intros Hg. unfold AddIngressRulesForHeadlessSvc. destruct (_ || _).
  - intros s r s' Hwf [= <- <-]. split; [done|apply same_filter_refl].
  - by apply append_nat_spec, ingress_valid.
Qed.

Lemma headless_call_spec ip target tt : good ip ->
  call_spec (AddEgressRulesForHeadlessSvc target ip globalNetIPTableMark tt)
    (chain_changed TableTypeNAT (headless_chain tt) (add_one (headless_rule ip target))).
Proof. intros Hg. by apply wrap_spec, append_unique_spec, headless_valid. Qed.

Lemma add_one_in r l : r ∈ add_one r l.
Proof. unfold add_one. case_bool_decide; [done|]. apply elem_of_app. right. by left. Qed.

Lemma headless_chain_ne tt : headless_chain tt <> SmGlobalnetIngress.
Proof. by destruct tt. Qed.

Lemma remove_added r l : r ∉ l -> remove_first r (add_one r l) = l.
Proof.
  intros Hr. unfold add_one. rewrite bool_decide_false by done. induction l as [|x l IH]; simpl.
  - by rewrite bool_decide_true.
  - apply not_elem_of_cons in Hr as [Hx Hr]. by rewrite bool_decide_false, IH.
Qed.

(** The state is the one in which a call of [m] that failed ended. *)
Definition failed_in {W E A} (m : eff W E A) (s' : W) : Prop := exists s e, m s = (Err e, s').

(** Both rules or none. *)
Lemma program_headless_spec ip target tT (w w' : wld) r : good ip -> pf_wf (pf (base w)) ->
  ip <> "" -> target <> "" -> ingress_rule ip target ∉ nat_chain SmGlobalnetIngress w ->
  program_headless ip target tT w = (r, w') ->
  pool (base w') = pool (base w) /\ api w' = api w /\
  match r with
  | Ok _ => ingress_rule ip target ∈ nat_chain SmGlobalnetIngress w' /\
            headless_rule ip target ∈ nat_chain (headless_chain tT) w'
  | Err _ => nat_chain (headless_chain tT) w' = nat_chain (headless_chain tT) w /\
             (nat_chain SmGlobalnetIngress w' = nat_chain SmGlobalnetIngress w \/
              failed_in (RemoveIngressRulesForHeadlessSvc (S := S) ip target tT) (pf (base w')))
  end.
Proof.
  intros Hg Hwf Hip Htg Hnew. unfold program_headless, mbind at 1, eff_bind at 1, attempt at 1.
  destruct (on_base _ w) as [ra w1] eqn:Ha.
  destruct (on_base_pf_spec _ _ _ _ _ (ingress_call_spec ip target tT Hg) Hwf Ha) as (Hwf1 & Hp1 & Hk1 & Hpost1).
  destruct ra as [[]|e]; [|intros [= <- <-]; unfold nat_chain; destruct Hpost1 as [Hs _]; rewrite !Hs; eauto].
  destruct Hpost1 as (Hi1 & Ho1 & _). pose proof (headless_chain_ne tT) as Hne.
  unfold mbind at 1, eff_bind at 1, attempt at 1.
  destruct (on_base _ w1) as [rb w2] eqn:Hb.
  destruct (on_base_pf_spec _ _ _ _ _ (headless_call_spec ip target tT Hg) Hwf1 Hb) as (Hwf2 & Hp2 & Hk2 & Hpost2).
  destruct rb as [[]|e].
  - intros [= <- <-]. rewrite Hp2, Hk2. split; [done|]. split; [done|].
    destruct Hpost2 as (Hi2 & Ho2 & _). unfold nat_chain. rewrite Hi2. split; [|apply add_one_in].
    rewrite Ho2 by done. rewrite Hi1. apply add_one_in.
  - destruct Hpost2 as [Hs2 _]. unfold mbind, eff_bind, ignore.
    destruct (on_base (on_pf (RemoveIngressRulesForHeadlessSvc ip target tT)) w2) as [rc w3] eqn:Hc.
    intros [= <- <-]. cbn [snd].
    assert (Hspec : call_spec (RemoveIngressRulesForHeadlessSvc ip target tT)
       (chain_changed TableTypeNAT SmGlobalnetIngress (remove_first (ingress_rule ip target)))).
    { unfold RemoveIngressRulesForHeadlessSvc. rewrite !bool_decide_false by done. cbn [orb].
      by apply delete_nat_spec, ingress_valid. }
    destruct (on_base_pf_spec _ _ _ _ _ Hspec Hwf2 Hc) as (_ & Hp3 & Hk3 & Hpost3).
    split; [congruence|]. split; [congruence|]. unfold nat_chain. destruct rc as [[]|e'].
    + destruct Hpost3 as (Hi3 & Ho3 & _). rewrite Ho3, Hs2, Ho1 by done. split; [done|]. left.
      rewrite Hi3, Hs2, Hi1. by apply remove_added.
    + destruct Hpost3 as [Hs3 _]. rewrite !Hs3, !Hs2, Ho1 by done. split; [done|]. right.
      unfold on_base, on_pf in Hc. unfold failed_in.
      destruct (RemoveIngressRulesForHeadlessSvc ip target tT (pf (base w2))) as [[?|e2] s2] eqn:Hr; [done|].
      injection Hc as _ <-. eauto.
Qed.
(** Releasing an address that was just taken. *)
Definition given_back (p0 : P) (w' : wld) : Prop :=
  free (pool (base w')) = free p0 \/
  exists ip, ip ∈ free p0 /\ failed_in (pool_Release (P := P) [ip]) (pool (base w')).

Lemma release_back {A} (a : A) ip (p0 : P) (w : wld) r w' : ip ∈ free p0 ->
  free (pool (base w)) = free p0 ∖ {[ip]} ->
  (_ ← ignore (on_base (on_pool (pool_Release [ip]))); mret a : eff wld gn_error A) w = (r, w') ->
  r = Ok a /\ pf (base w') = pf (base w) /\ api w' = api w /\ given_back p0 w'.
Proof.
  intros Hin Hfree. unfold mbind, eff_bind, ignore, on_base, on_pool.
  destruct (pool_Release [ip] (pool (base w))) as [[[]|e] p] eqn:Hr; intros [= <- <-]; repeat (split; [done|]).
  - left. apply release_ok in Hr. cbn. rewrite Hr, Hfree. apply set_eq. intros x.
    destruct (decide (x = ip)); set_solver.
  - right. exists ip. unfold failed_in. eauto.
Qed.

Lemma getService_spec name ns (w : wld) r w' : getService name ns w = (r, w') ->
  base w' = base w /\ services (api w') = services (api w) /\
  exists o ex e, r = Ok (o, ex, e) /\
    (e = None -> o = services (api w) !! (ns, name) /\ ex = bool_decide (is_Some o)) /\
    (e <> None -> o = None /\ ex = false).
Proof.
  unfold getService, mbind, eff_bind, attempt, on_api.
  destruct (svc_Get ns name (api w)) as [[[s|]|e] k] eqn:Hg; cbn [map_err].
  1,2: apply get_ok in Hg as [Ho Hs]; intros [= <- <-]; split; [done|]; split; [done|];
    do 3 eexists; split; [done|]; split; [|done]; intros _; split; [done|].
  - symmetry. apply bool_decide_true. eauto.
  - symmetry. apply bool_decide_false. by intros [? ?].
  - apply get_err in Hg. intros [= <- <-]. split; [done|]. split; [done|].
    do 3 eexists. split; [done|]. by split.
Qed.

(** What a service is programmed to. *)
Definition service_programmed (gi : GlobalIngressIP) (ip : string) (w w' : wld) : Prop :=
  exists name from s, gi_ServiceRef gi = Some name /\
    services (api w) !! (gi_Namespace gi, name) = Some from /\
    services (api w') !! (gi_Namespace gi, GetInternalSvcName encoded_hash name) = Some s /\
    svc_ExternalIPs s = [ip] /\ svc_Ports s = svc_Ports from /\ svc_Selector s = svc_Selector from.

Lemma program_service_spec gi ip st (p0 : P) (w w' : wld) out : ip ∈ free p0 ->
  free (pool (base w)) = free p0 ∖ {[ip]} ->
  program_service encoded_hash gi [ip] ip st w = (Ok out, w') ->
  pf (base w') = pf (base w) /\
  match out with
  | None => base w' = base w /\ service_programmed gi ip w w'
  | Some (_, st') => AllocatedIP st' = AllocatedIP st /\ given_back p0 w' /\ services (api w') = services (api w)
  end.
Proof.
  intros Hin Hfree Hrun. unfold program_service in Hrun.
  apply eff_bind_inv in Hrun as [(name & w0 & Hd & Hrun)|(e & _ & He)]; [|done].
  unfold deref in Hd. destruct (gi_ServiceRef gi) as [ref|] eqn:Href; [|done]. injection Hd as -> <-.
  apply eff_bind_inv in Hrun as [(res & w1 & Hs & Hrun)|(e & _ & He)]; [|done].
  apply getService_spec in Hs as (Hb & Hk & o & ex & err & [= ->] & Hfound & Hmiss).
  assert (Hback : forall rq st1 w1', base w1' = base w1 -> services (api w1') = services (api w1) ->
    AllocatedIP st1 = AllocatedIP st ->
    (_ ← ignore (on_base (on_pool (pool_Release [ip]))); mret (Some (rq, st1)) : eff wld gn_error _) w1' =
      (Ok out, w') ->
    pf (base w') = pf (base w) /\
    match out with
    | None => base w' = base w /\ service_programmed gi ip w w'
    | Some (_, st') => AllocatedIP st' = AllocatedIP st /\ given_back p0 w' /\ services (api w') = services (api w)
    end).
  { intros rq st1 w1' Hb1 Hk1 Hst Hr.
    apply (release_back _ ip p0) in Hr as ([= ->] & Hpf & Hapi & Hg); [|done|congruence].
    rewrite Hpf, Hapi. split; [congruence|]. split; [done|]. split; [done|congruence]. }
  destruct o as [from|]; [|exact (Hback _ _ _ eq_refl eq_refl eq_refl Hrun)]. destruct err as [e|]; [exact (Hback _ _ _ eq_refl eq_refl eq_refl Hrun)|].
  destruct ex; [|exact (Hback _ _ _ eq_refl eq_refl eq_refl Hrun)].
  destruct (Hfound eq_refl) as [Ho _]. destruct (stored_key _ _ _ _ (eq_sym Ho)) as [Hn Hns].
  unfold mbind at 1, eff_bind at 1, attempt, createOrUpdateInternalService, on_api in Hrun.
  destruct (svc_CreateOrUpdate _ _ (api w1)) as [[[]|e] k] eqn:Hc; cbn [map_err] in Hrun.
  - injection Hrun as <- <-. cbn. split; [congruence|]. split; [done|].
    apply cou_ok in Hc as (s' & Hk' & He & Hp & Hsel & _). exists name, from, s'. cbn in *. rewrite Hn, Hns in *.
    split; [done|]. split; [done|]. rewrite Hk'. rewrite lookup_insert_eq. done.
  - apply cou_err in Hc. refine (Hback _ _ _ _ _ _ Hrun); done.
Qed.

Lemma program_target_spec gi ip st (p0 : P) (w w' : wld) out target tT : good ip -> ip <> "" ->
  pf_wf (pf (base w)) -> ip ∈ free p0 -> free (pool (base w)) = free p0 ∖ {[ip]} ->
  headless_target gi = (target, tT) ->
  ingress_rule ip target ∉ nat_chain SmGlobalnetIngress w ->
  program_target gi [ip] ip st w = (Ok out, w') ->
  api w' = api w /\
  match out with
  | None => pool (base w') = pool (base w) /\ target <> "" /\
      ingress_rule ip target ∈ nat_chain SmGlobalnetIngress w' /\
      headless_rule ip target ∈ nat_chain (headless_chain tT) w'
  | Some (_, st') => AllocatedIP st' = AllocatedIP st /\ given_back p0 w' /\
      nat_chain (headless_chain tT) w' = nat_chain (headless_chain tT) w /\
      (nat_chain SmGlobalnetIngress w' = nat_chain SmGlobalnetIngress w \/
       failed_in (RemoveIngressRulesForHeadlessSvc (S := S) ip target tT) (pf (base w')))
  end.
Proof.
  intros Hg Hip Hwf Hin Hfree Ht Hnew. unfold program_target. rewrite Ht. case_bool_decide as Htg.
  { intros Hr. apply (release_back _ ip p0) in Hr as ([= ->] & Hpf & Hapi & Hg'); [|done..].
    rewrite Hapi. split; [done|]. split; [done|]. split; [done|].
    unfold nat_chain. rewrite Hpf. eauto. }
  unfold mbind at 1, eff_bind at 1, attempt.
  destruct (program_headless ip target tT w) as [r w1] eqn:Hp.
  apply program_headless_spec in Hp as (Hp1 & Hk1 & Hpost); [|done..]. destruct r as [[]|e].
  - intros [= <- <-]. done.
  - intros Hr. apply (release_back _ ip p0) in Hr as ([= ->] & Hpf & Hapi & Hg'); [|done|congruence].
    rewrite Hapi. split; [done|]. split; [done|]. split; [done|].
    unfold nat_chain in *. by rewrite Hpf.
Qed.

(** C17: Processing a GlobalIngressIP without an address ends in one of two ways.
    Either its status has an address taken from the pool, and the address is
    programmed: for a service, the internal service has it as its external
    address, with the ports and the selector of the exported one; for a pod or
    endpoints of a headless service, both the rule for ingress and the one for
    egress are there.  Or the status has none, no rule and no service was
    left behind, and the pool has the address again; the exceptions are the
    removal of the ingress rule and the release of an address taken from the pool,
    whose failures the code ignores, and the state is then the one they left.  No
    rule of a free address for the target is in the ingress chain before. *)
Theorem ingress_allocation gi st (w : wld) requeue st' w' target tT :
  pf_wf (pf (base w)) -> AllocatedIP st = "" -> headless_target gi = (target, tT) ->
  (forall ip, ip ∈ free (pool (base w)) -> ip <> "" /\ ingress_rule ip target ∉ nat_chain SmGlobalnetIngress w) ->
  onCreate encoded_hash gi st w = (Ok (requeue, st'), w') ->
  let ip := AllocatedIP st' in
  if ip =?? "" then
    given_back (pool (base w)) w' /\ services (api w') = services (api w) /\
    nat_chain (headless_chain tT) w' = nat_chain (headless_chain tT) w /\
    (nat_chain SmGlobalnetIngress w' = nat_chain SmGlobalnetIngress w \/
     exists ip, ip ∈ free (pool (base w)) /\
       failed_in (RemoveIngressRulesForHeadlessSvc (S := S) ip target tT) (pf (base w')))
  else
    requeue = false /\ ip ∈ free (pool (base w)) /\ free (pool (base w')) = free (pool (base w)) ∖ {[ip]} /\
    if gi_Target gi =?? ClusterIPService then service_programmed gi ip w w'
    else target <> "" /\ ingress_rule ip target ∈ nat_chain SmGlobalnetIngress w' /\
         headless_rule ip target ∈ nat_chain (headless_chain tT) w'.
Proof.
  intros Hwf Hst Ht Hclean Hrun. cbv zeta. unfold onCreate in Hrun. rewrite bool_decide_true in Hrun by done. cbn [negb] in Hrun.
  unfold mbind at 1, eff_bind at 1, attempt at 1 in Hrun. unfold on_base at 1, on_pool at 1 in Hrun.
  destruct (pool_Allocate 1 (pool (base w))) as [[ips|e] p1] eqn:Hall; cbn [map_err] in Hrun.
  2: { apply allocate_err in Hall. injection Hrun as <- <- <-. cbn. rewrite bool_decide_true by done.
       unfold given_back. cbn. auto. }
  apply allocate_ok in Hall as (Hlen & _ & Hsub & Hfree).
  destruct ips as [|ip [|ip2 ips]]; cbn [length] in Hlen; [lia| |lia].
  pose proof (pool_good _ _ Hsub) as Hg. apply (Forall_singleton good) in Hg.
  assert (Hin : ip ∈ free (pool (base w))) by set_solver.
  destruct (Hclean ip Hin) as [Hip Hnew].
  set (w1 := mkWorld (mkGn p1 _ _) _) in Hrun.
  assert (Hfree1 : free (pool (base w1)) = free (pool (base w)) ∖ {[ip]}) by (cbn; rewrite Hfree; set_solver).
  apply eff_bind_inv in Hrun as [(stop & w2 & Hprog & Hrun)|(e & _ & He)]; [|done].
  destruct (gi_Target gi =?? ClusterIPService).
  - apply program_service_spec with (p0 := pool (base w)) in Hprog as [Hpf Hout]; [|done..].
    destruct stop as [[rq st1]|].
    + injection Hrun as <- <- <-. destruct Hout as (Hst1 & Hb & Hk). rewrite Hst1, Hst, bool_decide_true by done.
      unfold nat_chain. rewrite Hpf. cbn. auto.
    + destruct Hout as [Hb Hs]. injection Hrun as <- <- <-. cbn. rewrite bool_decide_false by done.
      split; [done|]. split; [done|]. rewrite Hb. split; [done|]. exact Hs.
  - apply program_target_spec with (p0 := pool (base w)) (target := target) (tT := tT) in Hprog as [Hk Hout]; [|done..].
    destruct stop as [[rq st1]|].
    + injection Hrun as <- <- <-. destruct Hout as (Hst1 & Hb & Hc & Hi). rewrite Hst1, Hst, bool_decide_true by done.
      split; [done|]. rewrite Hk. split; [done|]. split; [done|]. destruct Hi; eauto.
    + destruct Hout as (Hp & Htg & Hi & He). injection Hrun as <- <- <-. cbn. rewrite bool_decide_false by done.
      split; [done|]. split; [done|]. rewrite Hp. done.
Qed.
Lemma ingress_remove_spec ip target tT : good ip -> ip <> "" -> target <> "" ->
  call_spec (RemoveIngressRulesForHeadlessSvc ip target tT)
    (chain_changed TableTypeNAT SmGlobalnetIngress (remove_first (ingress_rule ip target))).
Proof.
  intros Hg Hip Htg. unfold RemoveIngressRulesForHeadlessSvc. rewrite !bool_decide_false by done.
  by apply delete_nat_spec, ingress_valid.
Qed.

Lemma remove_first_gone r l : NoDup l -> r ∉ remove_first r l.
Proof. intros Hl. rewrite remove_first_nodup by done. unfold without. rewrite list_elem_of_filter. tauto. Qed.

Lemma flush_headless_ok gi target tT (b b' : gn P S) : good (gi_AllocatedIP gi) -> gi_AllocatedIP gi <> "" ->
  pf_wf (pf b) -> headless_target gi = (target, tT) -> target <> "" -> gi_Target gi <> ClusterIPService ->
  (forall t, gi_Target gi <> OtherTarget t) ->
  flush_headless gi [gi_AllocatedIP gi] b = (Ok tt, b') ->
  rules (pf b') TableTypeNAT SmGlobalnetIngress =
    remove_first (ingress_rule (gi_AllocatedIP gi) target) (rules (pf b) TableTypeNAT SmGlobalnetIngress) /\
  rules (pf b') TableTypeNAT (headless_chain tT) =
    remove_first (headless_rule (gi_AllocatedIP gi) target) (rules (pf b) TableTypeNAT (headless_chain tT)).
Proof.
  intros Hg Hip Hwf Ht Htg Hn1 Hn2 Hrun. unfold flush_headless in Hrun.
  apply eff_bind_inv in Hrun as [([] & b1 & Hgauge & Hrun)|(e & _ & He)]; [|done].
  assert (Hpf : pf b1 = pf b) by (injection Hgauge as <-; done).
  assert (Hrun' : (_ ← on_pf (RemoveIngressRulesForHeadlessSvc (gi_AllocatedIP gi) target tT);
    on_pf (RemoveEgressRulesForHeadlessSvc target (gi_AllocatedIP gi) globalNetIPTableMark tT)) b1 = (Ok tt, b')).
  { destruct (gi_Target gi) as [| | |t] eqn:Htgt; [done| | |by destruct (Hn2 t)].
    all: rewrite Ht in Hrun; cbn beta iota in Hrun; by rewrite bool_decide_false in Hrun by done. }
  clear Hrun. apply eff_bind_inv in Hrun' as [([] & b2 & Hi & He)|(e & _ & He)]; [|done].
  destruct (on_pf_spec _ _ _ _ _ (ingress_remove_spec _ _ tT Hg Hip Htg) ltac:(by rewrite Hpf) Hi)
    as (Hwf2 & _ & Hc1 & Ho1 & _).
  destruct (on_pf_spec _ _ _ _ _ (delete_nat_spec (headless_chain tT) _ (headless_valid _ target Hg)) Hwf2 He)
    as (_ & _ & Hc2 & Ho2 & _).
  pose proof (headless_chain_ne tT) as Hne.
  rewrite Ho2, Hc1, Hc2, Ho1, Hpf by done. done.
Qed.

Lemma delete_service_gone ns (s : Service Port) (w w' : wld) :
  services (api w) !! (ns, svc_Name s) = Some s ->
  svc_Finalizers s = [InternalServiceFinalizer] ->
  (_ ← on_api (svc_RemoveFinalizer ns s InternalServiceFinalizer); deleteService ns (svc_Name s)) w = (Ok tt, w') ->
  services (api w') !! (ns, svc_Name s) = None.
Proof.
  intros Hs Hf Hrun. apply eff_bind_inv in Hrun as [([] & w1 & Hfin & Hdel)|(e & _ & He)]; [|done].
  unfold on_api in Hfin. destruct (svc_RemoveFinalizer _ _ _ (api w)) as [[[]|e] k] eqn:Hr; [|done].
  injection Hfin as <-. apply fin_ok in Hr as [_ Hr].
  unfold deleteService in Hdel. apply eff_bind_inv in Hdel as [(b & w2 & Hd & [= <-])|(e & _ & He)]; [|done].
  unfold on_api in Hd. cbn [api] in Hd. destruct (svc_Delete _ _ k) as [[b'|e] k2] eqn:Hd'; [|done].
  injection Hd as -> <-. cbn [api]. destruct b.
  - apply del_ok in Hd' as (_ & Hgone & Hnone). destruct (services k !! (ns, svc_Name s)) as [s'|] eqn:Hk.
    + destruct Hr as (s0 & Hs0 & Hf'). rewrite Hs in Hs0. injection Hs0 as <-. rewrite Hf in Hf'.
      apply (Hgone s'); [done|]. rewrite Hf', filter_cons, decide_False; [done|tauto].
    + by apply Hnone.
  - apply del_missing in Hd' as [Hm ->]. exact Hm.
Qed.
(** The end of the handler, once the internal service was looked up. *)
Lemma delete_service_ends gi name n res (w w1 w' : wld) :
  (forall s, services (api w) !! (gi_Namespace gi, name) = Some s -> svc_Finalizers s = [InternalServiceFinalizer]) ->
  n < maxRequeues -> getService name (gi_Namespace gi) w = (Ok res, w1) ->
  (let '(intSvc, exists_, err) := res : option (Service Port) * bool * option gn_error in
   match err with
   | Some _ => mret (shouldRequeue n)
   | None =>
       r ← attempt (match intSvc, exists_ with
                    | Some intSvc, true =>
                        _ ← on_api (svc_RemoveFinalizer (gi_Namespace gi) intSvc InternalServiceFinalizer);
                        deleteService (gi_Namespace gi) name
                    | _, _ => mret tt
                    end);
       match r : result gn_error unit with
       | Err _ => mret true
       | Ok _ => _ ← ignore (on_base (on_pool (pool_Release [gi_AllocatedIP gi]))); mret false
       end
   end : eff wld gn_error bool) w1 = (Ok false, w') ->
  services (api w') !! (gi_Namespace gi, name) = None.
Proof.
  intros Hfin Hn Hs. apply getService_spec in Hs as (_ & Hk & o & ex & err & [= ->] & Hfound & _).
  destruct err as [e|].
  { unfold shouldRequeue. replace (n <? maxRequeues) with true by (symmetry; by apply Z.ltb_lt). done. }
  destruct (Hfound eq_refl) as [Ho ->]. clear Hfound.
  intros Hrun. apply eff_bind_inv in Hrun as [(r & w2 & Hd & Hrun)|(e & _ & He)]; [|done].
  apply attempt_inv in Hd as (r0 & [= ->] & Hd). destruct r0 as [[]|e]; [|done].
  injection Hrun as <-. unfold on_base. destruct (on_pool _ _) as [? ?]. cbn [snd api].
  destruct o as [s|].
  - rewrite bool_decide_true in Hd by eauto. destruct (stored_key _ _ _ _ (eq_sym Ho)) as [Hname _].
    rewrite <- Hname in Hd, Ho |- *.
    apply delete_service_gone in Hd; [done|by rewrite Hk|by apply Hfin; rewrite <- Hname].
  - injection Hd as <-. by rewrite Hk.
Qed.

(** A deletion of a GlobalIngressIP that ends before the last attempt leaves
    nothing of what its allocation made: the internal service is gone, if the
    controller's finalizer is the only one it has; for a headless service the
    rules for ingress and egress are gone from their chains. *)
Lemma ingress_delete_clears gi n (w : wld) w' target tT :
  pf_wf (pf (base w)) -> n < maxRequeues -> gi_AllocatedIP gi <> "" -> good (gi_AllocatedIP gi) ->
  headless_target gi = (target, tT) -> (forall t, gi_Target gi <> OtherTarget t) ->
  (gi_Target gi <> ClusterIPService -> target <> "") ->
  (forall name s, services (api w) !! (gi_Namespace gi, GetInternalSvcName encoded_hash name) = Some s ->
     svc_Finalizers s = [InternalServiceFinalizer]) ->
  NoDup (nat_chain SmGlobalnetIngress w) -> NoDup (nat_chain (headless_chain tT) w) ->
  onDelete encoded_hash gi n w = (Ok false, w') ->
  if gi_Target gi =?? ClusterIPService then
    forall name, gi_ServiceRef gi = Some name ->
      services (api w') !! (gi_Namespace gi, GetInternalSvcName encoded_hash name) = None
  else
    ingress_rule (gi_AllocatedIP gi) target ∉ nat_chain SmGlobalnetIngress w' /\
    headless_rule (gi_AllocatedIP gi) target ∉ nat_chain (headless_chain tT) w'.
Proof.
  intros Hwf Hn Hip Hg Ht Hother Htg Hfin Hnd1 Hnd2. unfold onDelete.
  rewrite (bool_decide_false (gi_AllocatedIP gi = "")) by done. case_bool_decide as Htgt.
  - intros Hrun name Href. rewrite Href in Hrun. cbn [deref] in Hrun.
    apply eff_bind_inv in Hrun as [(ref & w0 & [= -> <-] & Hrun)|(e & _ & He)]; [|done].
    apply eff_bind_inv in Hrun as [(res & w1 & Hs & Hrun)|(e & _ & He)]; [|done].
    exact (delete_service_ends gi _ n res w w1 w' (Hfin ref) Hn Hs Hrun).
  - unfold on_base, flushRulesAndReleaseIPs, mbind at 1, eff_bind at 1, attempt at 1.
    destruct (flush_headless gi _ (base w)) as [[[]|e] b1] eqn:Hf; cbn [is_err is_ok negb andb].
    2: { unfold shouldRequeue. by replace (n <? maxRequeues) with true by (symmetry; by apply Z.ltb_lt). }
    apply (flush_headless_ok gi target tT) in Hf as [H1 H2]; auto.
    intros [= <-]. unfold nat_chain. cbn [base]. rewrite on_pool_pf, H1, H2.
    split; by apply remove_first_gone.
Qed.
End allocation.

(** * Errors and gauges *)
Section errors.
Context {P S K Port : Type} `{!IPPool P} `{!PFDriver S} `{!MetaConditions} `{!ServiceClient K Port}.
Context (encoded_hash : string -> string).
Notation wld := (world (P := P) (S := S) (K := K)).

(** An error of the retrieval of the exported service ends an update without the
    wish to be called again: the handler looks at the error only when the
    service was found. *)
Lemma update_error_dropped gi ip name e (w : wld) k :
  gi_Target gi = ClusterIPService -> gi_ServiceRef gi = Some name ->
  svc_Get (gi_Namespace gi) name (api w) = (Err e, k) ->
  onUpdate encoded_hash gi ip w = (Ok false, mkWorld (base w) k).
Proof.
  intros Ht Href Hget. unfold onUpdate. rewrite Ht, Href. rewrite bool_decide_true by done. cbn [negb deref].
  unfold getService, mbind, eff_bind, mret, eff_ret, attempt, on_api. cbn beta iota. by rewrite Hget.
Qed.

(** Deleting the object of a service never lowers the gauge its creation raised. *)
Lemma service_delete_keeps_gauge gi n (w : wld) : gi_Target gi = ClusterIPService ->
  gauges (base (onDelete encoded_hash gi n w).2) = gauges (base w).
Proof.
  intros Ht. set (R := fun w w' : wld => gauges (base w') = gauges (base w)).
  assert (HR : PreOrder R) by (split; [done|intros ? ? ? H1 H2; unfold R in *; congruence]).
  assert (Hapi : forall A (m : eff K string A), keeps R (on_api (P := P) (S := S) m)).
  { intros A m w0. unfold R, on_api. by destruct (m (api w0)). }
  assert (Hpool : forall A (m : eff P string A), keeps R (on_base (K := K) (on_pool (S := S) m))).
  { intros A m w0. unfold R, on_base, on_pool. by destruct (m (pool (base w0))). }
  enough (keeps R (onDelete encoded_hash gi n)) as Hk by apply Hk.
  unfold onDelete, getService, deleteService, deref. rewrite Ht, (bool_decide_true (ClusterIPService = _)) by done.
  frames; auto with frames.
Qed.
End errors.

(** * A concrete controller *)
#[local] Existing Instance filter_ref.
#[local] Existing Instance filter_ref_view.
#[local] Existing Instance filter_ref_laws.
#[local] Existing Instance meta_ref.
#[local] Existing Instance service_ref.
#[local] Existing Instance service_ref_laws.

Definition ex_pool : IPPool (gset string) := pool_ref "242.254.0.0/16".
#[local] Existing Instance ex_pool.
#[local] Instance ex_pool_laws : IPPoolLaws (gset string) := pool_ref_laws _.

Lemma ex_ingress_valid ip target : any_ip ip -> valid_rule (ingress_rule ip target).
Proof. intros _. exact I. Qed.

Lemma ex_headless_valid ip target : any_ip ip -> valid_rule (headless_rule ip target).
Proof. intros _. exact I. Qed.

Notation ex_api := (gmap (string * string) (Service nat)).

Definition ex_world (k : ex_api) : world (P := gset string) (S := filter_state) (K := ex_api) :=
  mkWorld (mkGn {["242.254.0.1"]} (mkFilterState (fun _ _ => []) ∅) ∅) k.

Definition ex_service : Service nat := mkService "nginx" "ns" ∅ [] [80%nat] ∅ [] "" false.

Definition ex_object (ip : string) : GlobalIngressIP :=
  mkIngressIP "nginx" "ns" ∅ ClusterIPService (Some "nginx") None [] ip.

Definition ex_status : status := mkStatus (copy_status []) "".

(** No hash is needed to tell the two names apart. *)
Definition ex_hash (name : string) : string := name.

Lemma ingress_allocation_witness : exists st' w',
  onCreate ex_hash (ex_object "") ex_status (ex_world {[("ns", "nginx") := ex_service]}) = (Ok (false, st'), w') /\
  AllocatedIP st' = "242.254.0.1" /\
  service_programmed ex_hash (ex_object "") "242.254.0.1" (ex_world {[("ns", "nginx") := ex_service]}) w'.
Proof.
  set (w := ex_world {[("ns", "nginx") := ex_service]}).
  destruct (onCreate ex_hash (ex_object "") ex_status w) as [r w'] eqn:Hp.
  assert (Hr : match r with Ok (rq, st) => negb rq && (AllocatedIP st =?? "242.254.0.1") | Err _ => false end = true).
  { change r with (r, w').1. rewrite <- Hp. vm_compute. reflexivity. }
  destruct r as [[rq st']|e]; [|discriminate]. destruct rq; [discriminate|].
  apply andb_true_iff in Hr as [_ Hip]. apply bool_decide_eq_true in Hip.
  exists st', w'. split; [reflexivity|]. split; [exact Hip|].
  assert (Hwf : pf_wf (pf (base w))) by exact I.
  assert (Hclean : forall ip, ip ∈ free (pool (base w)) ->
    ip <> "" /\ ingress_rule ip "" ∉ nat_chain SmGlobalnetIngress w).
  { intros ip Hin. split; [|apply not_elem_of_nil]. intros ->.
    assert (Hd : ("" : string) ∉ ({["242.254.0.1"]} : gset string))
      by (apply (bool_decide_unpack _); vm_compute; exact I). exact (Hd Hin). }
  pose proof (ingress_allocation ex_hash any_ip (ex_pool_good _) ex_ingress_valid ex_headless_valid
    (ex_object "") ex_status w false st' w' "" NoTarget Hwf eq_refl eq_refl Hclean Hp) as Hout.
  cbv zeta in Hout. rewrite Hip, bool_decide_false in Hout by discriminate. exact (proj2 (proj2 (proj2 Hout))).
Defined.

Definition ex_internal : Service nat :=
  mkService (GetInternalSvcName ex_hash "nginx") "ns" ∅ [InternalServiceFinalizer] [80%nat] ∅ ["242.254.0.1"]
    "SingleStack" false.

Lemma ingress_delete_clears_witness : exists w',
  let w := ex_world {[("ns", GetInternalSvcName ex_hash "nginx") := ex_internal]} in
  onDelete ex_hash (ex_object "242.254.0.1") 0 w = (Ok false, w') /\
  services (api w) !! ("ns", GetInternalSvcName ex_hash "nginx") <> None /\
  services (api w') !! ("ns", GetInternalSvcName ex_hash "nginx") = None.
Proof.
  set (w := ex_world {[("ns", GetInternalSvcName ex_hash "nginx") := ex_internal]}).
  destruct (onDelete ex_hash (ex_object "242.254.0.1") 0 w) as [r w'] eqn:Hp.
  assert (Hr : match r with Ok rq => negb rq | Err _ => false end = true).
  { change r with (r, w').1. rewrite <- Hp. vm_compute. reflexivity. }
  destruct r as [[|]|e]; [discriminate| |discriminate].
  exists w'. cbv zeta. split; [exact Hp|]. split; [vm_compute; discriminate|].
  assert (Hwf : pf_wf (pf (base w))) by exact I.
  assert (Hfin : forall name s, services (api w) !! ("ns", GetInternalSvcName ex_hash name) = Some s ->
    svc_Finalizers s = [InternalServiceFinalizer]).
  { intros name s Hs. change (stored (api w) !! ("ns", GetInternalSvcName ex_hash name) = Some s) in Hs.
    rewrite stored_lookup in Hs. cbn [api w ex_world] in Hs.
    destruct (decide (("ns", GetInternalSvcName ex_hash "nginx") = ("ns", GetInternalSvcName ex_hash name))) as [He|He].
    - rewrite <- He in Hs. rewrite lookup_singleton_eq in Hs. by injection Hs as <-.
    - by rewrite lookup_singleton_ne in Hs. }
  apply (ingress_delete_clears ex_hash any_ip ex_ingress_valid ex_headless_valid (ex_object "242.254.0.1") 0 w w'
    "" NoTarget Hwf eq_refl ltac:(discriminate) I eq_refl ltac:(discriminate) ltac:(intros Hx; by destruct Hx) Hfin
    (NoDup_nil_2) (NoDup_nil_2) Hp "nginx" eq_refl).
Defined.
End GlobalIngress.
