(* ===== verification/Event.v ===== *)
(** The event framework (src/pkg/event): the handlers and their registry
    (handler.go, registry.go, logger/handler.go) and the controller that turns
    notifications about endpoints and nodes into calls of a handler
    (controller/). *)
From stdpp Require Import base gmap list strings fin_maps.
From Stdlib Require String.
From Stdlib Require Import ZArith Lia.
From S2P Require Import Prelude K8s Endpoint.
Local Open Scope Z_scope.

Module Event.
Import Endpoint.

(** An endpoint object with the identity the API server gave it. *)
Record EndpointMeta := mkEp { ep_obj : EndpointObj; ep_UID : string }.

#[global] Instance EndpointMeta_eq_dec : EqDecision EndpointMeta.
Proof. solve_decision. Defined.

Definition ep_cluster (ep : EndpointMeta) : string := ClusterID (Spec (ep_obj ep)).
Definition ep_key (ep : EndpointMeta) : string := ep_name (ep_obj ep).
Definition ep_time (ep : EndpointMeta) : Z := CreationTimestamp (ep_obj ep).

Definition AnyNetworkPlugin : string := "".

(** * Handlers (handler.go) *)

(** [HandlerState], what a handler can read during a call. *)
Record HandlerState := mkState { IsOnGateway : bool; remotes : gmap string EndpointMeta }.

Definition DefaultHandlerState : HandlerState := mkState false ∅.

(** The map is ranged over in an unspecified order. *)
Definition GetRemoteEndpoints (st : HandlerState) : list EndpointMeta := snd <$> map_to_list (remotes st).

Section handler.
Context {Node W : Type}.

(** The methods of [EndpointHandler] and [NodeHandler]. *)
Inductive callback :=
| TransitionToNonGateway (localEndpoint : EndpointMeta)
| TransitionToGateway
| LocalEndpointCreated (endpoint : EndpointMeta)
| LocalEndpointUpdated (endpoint : EndpointMeta)
| LocalEndpointRemoved (endpoint : EndpointMeta)
| RemoteEndpointCreated (endpoint : EndpointMeta)
| RemoteEndpointUpdated (endpoint : EndpointMeta)
| RemoteEndpointRemoved (endpoint : EndpointMeta)
| StaleRemoteEndpointRemoved (endpoint : EndpointMeta)
| NodeCreated (node : Node)
| NodeUpdated (node : Node)
| NodeRemoved (node : Node).

(** [Handler] over the state [W] it works on; [isNodeHandler] tells whether it
    implements [NodeHandler] too. *)
Record Handler := mkHandler {
  GetName : string;
  GetNetworkPlugins : list string;
  isNodeHandler : bool;
  Init : eff W string unit;
  StopHandler : eff W string unit;
  UninstallHandler : eff W string unit;
  Call : HandlerState -> callback -> eff W string unit;
}.

(** [HandlerBase] stubs out all optional methods. *)
Definition HandlerBase (name : string) (plugins : list string) (nodes : bool) : Handler :=
  mkHandler name plugins nodes (mret tt) (mret tt) (mret tt) (fun _ _ => mret tt).

(** logger/handler.go: every method logs and succeeds. *)
Definition NewHandler : Handler := HandlerBase "logger" [AnyNetworkPlugin] true.

(** * The registry (registry.go) *)
Record Registry := mkRegistry {
  reg_name : string;
  networkPlugin : string;
  eventHandlers : list Handler;
}.

Definition matches (plugin : string) (h : Handler) : bool :=
  let evNetworkPlugins := ToLower <$> GetNetworkPlugins h in
  (plugin =?? AnyNetworkPlugin) || bool_decide (AnyNetworkPlugin ∈ evNetworkPlugins) ||
  bool_decide (plugin ∈ evNetworkPlugins).

Definition addHandler (h : Handler) (er : Registry) : eff W (string * string) Registry :=
  if matches (networkPlugin er) h then
    fun w => match Init h w with
             | (Err e, w) => (Err (GetName h, e), w)
             | (Ok _, w) => (Ok (mkRegistry (reg_name er) (networkPlugin er) (eventHandlers er ++ [h])), w)
             end
  else mret er.

Fixpoint add_handlers (hs : list Handler) (er : Registry) : eff W (string * string) Registry :=
  match hs with
  | [] => mret er
  | h :: hs => er ← addHandler h er; add_handlers hs er
  end.

Definition NewRegistry (name plugin : string) (hs : list Handler) : eff W (string * string) Registry :=
  add_handlers hs (mkRegistry name (ToLower plugin) []).

(** All handlers are invoked; the result is the errors, by the handler's name. *)
Fixpoint invoke_all (invoke : Handler -> eff W string unit) (hs : list Handler) (w : W) :
    list (string * string) * W :=
  match hs with
  | [] => ([], w)
  | h :: hs =>
      let '(r, w) := invoke h w in
      let '(errs, w) := invoke_all invoke hs w in
      (match r with Ok _ => errs | Err e => (GetName h, e) :: errs end, w)
  end.

Definition invokeHandlers (invoke : Handler -> eff W string unit) (er : Registry) :
    eff W (list (string * string)) unit := fun w =>
  let '(errs, w) := invoke_all invoke (eventHandlers er) w in
  (match errs with [] => Ok tt | _ => Err errs end, w).

Definition StopHandlers (er : Registry) := invokeHandlers StopHandler er.
Definition Uninstall (er : Registry) := invokeHandlers UninstallHandler er.
(** ** What the registry does *)
Definition init_one (h : Handler) : eff W (string * string) unit := fun w =>
  let '(r, w) := Init h w in (map_err (pair (GetName h)) r, w).

Lemma add_handlers_spec hs : forall er w,
  add_handlers hs er w =
  let keep := filter (fun h => matches (networkPlugin er) h = true) hs in
  let '(r, w) := for_each init_one keep w in
  (match r with
   | Ok _ => Ok (mkRegistry (reg_name er) (networkPlugin er) (eventHandlers er ++ keep))
   | Err e => Err e
   end, w).
Proof.
  induction hs as [|h hs IH]; intros er w; [cbn; rewrite app_nil_r; by destruct er|].
  cbn [add_handlers]. unfold mbind, eff_bind, addHandler. cbv zeta. rewrite filter_cons.
  destruct (matches (networkPlugin er) h) eqn:Hm.
  - rewrite !decide_True by done. cbn [for_each]. unfold mbind, eff_bind, init_one at 1.
    destruct (Init h w) as [[[]|e] w1]; cbn [map_err]; [|done].
    rewrite IH. cbn [networkPlugin reg_name eventHandlers].
    destruct (for_each init_one _ w1) as [[[]|e] w2]; [|done]. by rewrite <- app_assoc.
  - rewrite !decide_False by done. unfold mret, eff_ret. cbn beta iota. by rewrite IH.
Qed.

(** A registry gets the handlers whose network plugins match its own or any, in
    the order given, after each of them was initialised; the others are ignored,
    not even initialised.  When one cannot be initialised, the result is its
    error, with its name, and the handlers after it are not touched. *)
Lemma registry_selects name plugin hs w :
  NewRegistry name plugin hs w =
  let keep := filter (fun h => matches (ToLower plugin) h = true) hs in
  let '(r, w) := for_each init_one keep w in
  (match r with Ok _ => Ok (mkRegistry name (ToLower plugin) keep) | Err e => Err e end, w).
Proof. unfold NewRegistry. by rewrite add_handlers_spec. Qed.

(** Every handler is invoked, in order, whatever the ones before it returned. *)
Lemma invoke_all_world invoke hs w :
  (invoke_all invoke hs w).2 = foldl (fun w h => (invoke h w).2) w hs.
Proof.
  revert w. induction hs as [|h hs IH]; intros w; [done|]. cbn. rewrite <- IH.
  destruct (invoke h w) as [r w1]. cbn. by destruct (invoke_all invoke hs w1).
Qed.
End handler.
Arguments callback Node : clear implicits.
Arguments Handler Node W : clear implicits.
Arguments Registry Node W : clear implicits.
End Event.

Module EventController.
Import Endpoint Event.

Definition maxRequeues : Z := 20.

Inductive Operation := OpCreate | OpUpdate | OpDelete.

(** The state of a [handlerController]: [isOnGateway], [wasOnGateway] and
    [remoteEndpoints] are those of its [handlerStateImpl]. *)
Record hc_state := mkHC {
  isOnGateway : bool;
  wasOnGateway : bool;
  remoteEndpoints : gmap string EndpointMeta;
  lastRemoteEndpoint : gmap string EndpointMeta;
}.

Definition init_hc : hc_state := mkHC false false ∅ ∅.

Definition state_of (s : hc_state) : HandlerState := mkState (isOnGateway s) (remoteEndpoints s).

Definition setIsOnGateway (v : bool) (s : hc_state) : hc_state :=
  mkHC v (wasOnGateway s) (remoteEndpoints s) (lastRemoteEndpoint s).
Definition set_was (v : bool) (s : hc_state) : hc_state :=
  mkHC (isOnGateway s) v (remoteEndpoints s) (lastRemoteEndpoint s).
Definition set_remotes (m : gmap string EndpointMeta) (s : hc_state) : hc_state :=
  mkHC (isOnGateway s) (wasOnGateway s) m (lastRemoteEndpoint s).
Definition set_last (m : gmap string EndpointMeta) (s : hc_state) : hc_state :=
  mkHC (isOnGateway s) (wasOnGateway s) (remoteEndpoints s) m.

Section controller.
Context {Node W : Type}.
(** [handlerController]: its handler, host and cluster. *)
Context (handler : Handler Node W) (hostname clusterID : string).

Record world := mkWorld { hc : hc_state; hw : W }.

Definition call (cb : callback Node) : eff world string unit := fun w =>
  let '(r, x) := Call handler (state_of (hc w)) cb (hw w) in (r, mkWorld (hc w) x).

Definition update (f : hc_state -> hc_state) : eff world string unit :=
  modifyw (fun w => mkWorld (f (hc w)) (hw w)).

(** ** Creation (endpoint_created.go) *)
(** The transition is made when [cond] holds of the state; [wasOnGateway] is set
    when nothing failed. *)
Definition finish_local (cond : hc_state -> bool) (transition : callback Node) (r : result string unit) :
    eff world string unit :=
  w ← getw;
  r ← (if is_ok r && cond (hc w) then attempt (call transition) else mret r);
  _ ← (if is_ok (E := string) (A := unit) r then update (fun s => set_was (isOnGateway s) s) else mret tt);
  lift_result r.

Definition handleCreatedLocalEndpoint (ep : EndpointMeta) : eff world string unit :=
  _ ← (if Hostname (Spec (ep_obj ep)) =?? hostname then update (setIsOnGateway true) else mret tt);
  r ← attempt (call (LocalEndpointCreated ep));
  finish_local (fun s => negb (wasOnGateway s) && isOnGateway s) TransitionToGateway r.

Definition handleCreatedRemoteEndpoint (ep : EndpointMeta) : eff world string unit :=
  w ← getw;
  let later := match lastRemoteEndpoint (hc w) !! ep_cluster ep with
               | Some last => ep_time ep <? ep_time last
               | None => false
               end in
  if later then mret tt
  else
    _ ← update (fun s => set_remotes (<[ep_key ep := ep]> (remoteEndpoints s)) s);
    _ ← update (fun s => set_last (<[ep_cluster ep := ep]> (lastRemoteEndpoint s)) s);
    call (RemoteEndpointCreated ep).

(** ** Removal (endpoint_removed.go) *)
Definition handleRemovedLocalEndpoint (ep : EndpointMeta) : eff world string unit :=
  _ ← (if Hostname (Spec (ep_obj ep)) =?? hostname then update (setIsOnGateway false) else mret tt);
  r ← attempt (call (LocalEndpointRemoved ep));
  finish_local (fun s => wasOnGateway s && negb (isOnGateway s)) (TransitionToNonGateway ep) r.

Definition handleRemovedRemoteEndpoint (ep : EndpointMeta) : eff world string unit :=
  _ ← update (fun s => set_remotes (delete (ep_key ep) (remoteEndpoints s)) s);
  w ← getw;
  let stale := match lastRemoteEndpoint (hc w) !! ep_cluster ep with
               | Some last => negb (ep_UID last =?? ep_UID ep)
               | None => false
               end in
  if stale then call (StaleRemoteEndpointRemoved ep)
  else
    _ ← update (fun s => set_last (delete (ep_cluster ep) (lastRemoteEndpoint s)) s);
    call (RemoteEndpointRemoved ep).

(** ** Update (endpoint_updated.go) *)
Definition handleUpdatedLocalEndpoint (ep : EndpointMeta) : eff world string unit :=
  call (LocalEndpointUpdated ep).

Definition handleUpdatedRemoteEndpoint (ep : EndpointMeta) : eff world string unit :=
  _ ← update (fun s => set_remotes (<[ep_key ep := ep]> (remoteEndpoints s)) s);
  call (RemoteEndpointUpdated ep).

(** ** The entry points: the result is the wish to be called again. *)
Definition guarded (requeueCount : Z) (ep : EndpointMeta) (remote local : eff world string unit) :
    eff world string bool :=
  if maxRequeues <? requeueCount then mret false
  else
    r ← attempt (if negb (ep_cluster ep =?? clusterID) then remote else local);
    mret (is_err (E := string) (A := unit) r).

Definition handleCreatedEndpoint (ep : EndpointMeta) (requeueCount : Z) : eff world string bool :=
  guarded requeueCount ep (handleCreatedRemoteEndpoint ep) (handleCreatedLocalEndpoint ep).

Definition handleRemovedEndpoint (ep : EndpointMeta) (requeueCount : Z) : eff world string bool :=
  guarded requeueCount ep (handleRemovedRemoteEndpoint ep) (handleRemovedLocalEndpoint ep).

Definition handleUpdatedEndpoint (ep : EndpointMeta) (requeueCount : Z) : eff world string bool :=
  guarded requeueCount ep (handleUpdatedRemoteEndpoint ep) (handleUpdatedLocalEndpoint ep).

(** ** Nodes (node_handlers.go) *)
Definition handle_node (cb : callback Node) : eff world string bool :=
  r ← attempt (call cb); mret (is_err (E := string) (A := unit) r).

Definition handleCreatedNode (node : Node) : eff world string bool := handle_node (NodeCreated node).
Definition handleUpdatedNode (node : Node) : eff world string bool := handle_node (NodeUpdated node).
Definition handleRemovedNode (node : Node) : eff world string bool := handle_node (NodeRemoved node).

(** ** The [Transform] functions of the two syncers (controller.go) *)
Inductive notification :=
| EndpointEvent (op : Operation) (ep : EndpointMeta) (numRequeues : Z)
| NodeEvent (op : Operation) (node : Node) (numRequeues : Z).

Definition transform (ev : notification) : eff world string bool :=
  match ev with
  | EndpointEvent OpCreate ep n => handleCreatedEndpoint ep n
  | EndpointEvent OpUpdate ep n => handleUpdatedEndpoint ep n
  | EndpointEvent OpDelete ep n => handleRemovedEndpoint ep n
  | NodeEvent op node _ =>
      (* a handler that is no node handler has no syncer for nodes *)
      if negb (isNodeHandler handler) then mret false
      else match op with
           | OpCreate => handleCreatedNode node
           | OpUpdate => handleUpdatedNode node
           | OpDelete => handleRemovedNode node
           end
  end.

Definition deliver (w : world) (ev : notification) : world := (transform ev w).2.

Definition run (evs : list notification) (w : world) : world := foldl deliver w evs.
End controller.
Arguments world W : clear implicits.
Arguments notification Node : clear implicits.
Arguments mkWorld {W} _ _.
Arguments hc {W} _.
Arguments hw {W} _.
Arguments EndpointEvent {Node} _ _ _.
Arguments NodeEvent {Node} _ _ _.

(** * What the handler sees

    The calls of a handler with their outcome, oldest first, kept beside its own
    state. *)
Section trace.
Context {Node W : Type}.
Context (handler : Handler Node W) (hostname clusterID : string).

Notation log := (list (callback Node * bool)).

Definition recorded : Handler Node (W * log) :=
  mkHandler (GetName handler) (GetNetworkPlugins handler) (isNodeHandler handler)
    (fun wl => let '(r, w) := Init handler wl.1 in (r, (w, wl.2)))
    (fun wl => let '(r, w) := StopHandler handler wl.1 in (r, (w, wl.2)))
    (fun wl => let '(r, w) := UninstallHandler handler wl.1 in (r, (w, wl.2)))
    (fun st cb wl => let '(r, w) := Call handler st cb wl.1 in (r, (w, wl.2 ++ [(cb, is_ok r)]))).

Notation wld := (world (W * log)).
Notation calls w := (hw w).2.

Definition start (w0 : W) : wld := mkWorld init_hc (w0, []).

Lemma call_recorded cb (w : wld) r w' : call recorded cb w = (r, w') ->
  hc w' = hc w /\ calls w' = calls w ++ [(cb, is_ok r)].
Proof.
  unfold call, recorded, Call. destruct (let (_, _, _, _, _, _, Call) := handler in Call) as [? ?] eqn:Hc.
  by intros [= <- <-].
Qed.

(** ** Transitions of the local node *)

(** The transitions that were made, [true] for the one to a gateway. *)
Fixpoint transitions (l : log) : list bool :=
  match l with
  | [] => []
  | (TransitionToGateway, true) :: l => true :: transitions l
  | (TransitionToNonGateway _, true) :: l => false :: transitions l
  | _ :: l => transitions l
  end.

(** Each one leads away from where the node was, which is not a gateway first. *)
Fixpoint alternating (on : bool) (l : list bool) : Prop :=
  match l with
  | [] => True
  | t :: l => t = negb on /\ alternating t l
  end.

Definition made (l : log) : bool := List.last (transitions l) false.

Lemma transitions_app l1 l2 : transitions (l1 ++ l2) = transitions l1 ++ transitions l2.
Proof.
  induction l1 as [|[cb ok] l1 IH]; [done|]. cbn. destruct cb; try done; by destruct ok; cbn; rewrite ?IH.
Qed.

Lemma last_cons_default (t d : bool) l : List.last (t :: l) d = List.last l t.
Proof.
  revert t d. induction l as [|x l IH]; [done|]. intros t d.
  change (List.last (x :: l) d = List.last (x :: l) t). by rewrite !IH.
Qed.

Lemma alternating_snoc t l : forall on, alternating on (l ++ [t]) <-> alternating on l /\ t = negb (List.last l on).
Proof.
  induction l as [|x l IH]; intros on; [cbn; naive_solver|].
  rewrite last_cons_default. cbn [alternating app]. rewrite IH. naive_solver.
Qed.

(** A node is where the last transition that was made brought it. *)
Definition gw_inv (w : wld) : Prop :=
  alternating false (transitions (calls w)) /\ wasOnGateway (hc w) = made (calls w).

Definition is_transition (cb : callback Node) : bool :=
  match cb with TransitionToGateway | TransitionToNonGateway _ => true | _ => false end.

Lemma transitions_call l cb ok : is_transition cb = false -> transitions (l ++ [(cb, ok)]) = transitions l.
Proof. intros Hcb. rewrite transitions_app. destruct cb; try done; destruct ok; by rewrite app_nil_r. Qed.

Lemma call_inv cb (w : wld) r w' : is_transition cb = false -> gw_inv w -> call recorded cb w = (r, w') ->
  gw_inv w' /\ hc w' = hc w.
Proof.
  intros Hcb [Ha Hw] Hc. apply call_recorded in Hc as [Hs Hl]. split; [|done].
  unfold gw_inv, made. rewrite Hs, Hl, transitions_call; done.
Qed.

Lemma update_inv f (w w' : wld) r : (forall s, wasOnGateway (f s) = wasOnGateway s) ->
  gw_inv w -> update f w = (r, w') -> gw_inv w' /\ hc w' = f (hc w) /\ r = Ok tt.
Proof. intros Hf [Ha Hw] [= <- <-]. repeat split; [done|]. cbn. by rewrite Hf. Qed.

(** The end of the two local handlers: [t] is the transition they may make. *)
Lemma finish_local_inv cond cb t r0 (w w' : wld) r :
  (forall l, transitions (l ++ [(cb, true)]) = transitions l ++ [t]) ->
  (forall l, transitions (l ++ [(cb, false)]) = transitions l) ->
  (cond (hc w) = true -> wasOnGateway (hc w) = negb t /\ isOnGateway (hc w) = t) ->
  (cond (hc w) = false -> isOnGateway (hc w) = wasOnGateway (hc w)) ->
  gw_inv w -> finish_local recorded cond cb r0 w = (r, w') -> gw_inv w'.
Proof.
  intros Ht Hf Hyes Hno [Ha Hw] Hrun. unfold finish_local in Hrun.
  apply eff_bind_inv in Hrun as [(? & ? & [= <- <-] & Hrun)|(e & [=] & _)].
  destruct r0 as [[]|e]; cbn [is_ok andb] in Hrun; [|by injection Hrun as <- <-].
  destruct (cond (hc w)) eqn:Hc.
  - destruct (Hyes eq_refl) as [Hwas His].
    apply eff_bind_inv in Hrun as [(r1 & w1 & Hcall & Hrun)|(e & Hbad & _)].
    2: { apply attempt_inv in Hbad as (? & [=] & _). }
    apply attempt_inv in Hcall as (? & [= <-] & Hcall). apply call_recorded in Hcall as [Hs Hl].
    destruct r1 as [[]|e]; cbn [is_ok] in *.
    + injection Hrun as <- <-. unfold gw_inv, made. cbn [hc hw set_was wasOnGateway].
      rewrite Hl, Ht, Hs, His, List.last_last. split; [|done].
      apply alternating_snoc. split; [done|]. unfold made in Hw. rewrite <- Hw, Hwas. by rewrite negb_involutive.
    + injection Hrun as <- <-. unfold gw_inv, made. rewrite Hs, Hl, Hf. done.
  - injection Hrun as <- <-. split; [done|]. cbn. by rewrite (Hno eq_refl).
Qed.

(** What is pending: the node is, or is no longer, a gateway, and the handler was
    not told yet because a call of it failed. *)
Definition settled (s : hc_state) : Prop := isOnGateway s = wasOnGateway s.

(** No creation is processed while leaving the gateway is pending, and no removal
    while becoming one is. *)
Definition in_order (s : hc_state) (ev : notification Node) : Prop :=
  match ev with
  | EndpointEvent OpCreate ep n =>
      ep_cluster ep = clusterID -> n <= maxRequeues -> Hostname (Spec (ep_obj ep)) <> hostname ->
      isOnGateway s = false -> wasOnGateway s = false
  | EndpointEvent OpDelete ep n =>
      ep_cluster ep = clusterID -> n <= maxRequeues -> Hostname (Spec (ep_obj ep)) <> hostname ->
      isOnGateway s = true -> wasOnGateway s = true
  | _ => True
  end.

Inductive ordered_run : wld -> list (notification Node) -> Prop :=
| ordered_nil w : ordered_run w []
| ordered_cons w ev evs : in_order (hc w) ev -> ordered_run (deliver recorded hostname clusterID w ev) evs ->
    ordered_run w (ev :: evs).

Lemma created_local_inv ep (w w' : wld) r :
  (Hostname (Spec (ep_obj ep)) <> hostname -> isOnGateway (hc w) = false -> wasOnGateway (hc w) = false) ->
  gw_inv w -> handleCreatedLocalEndpoint recorded hostname ep w = (r, w') -> gw_inv w'.
Proof.
  intros Hord Hinv Hrun. unfold handleCreatedLocalEndpoint in Hrun.
  assert (H1 : exists w1, gw_inv w1 /\ wasOnGateway (hc w1) = wasOnGateway (hc w) /\
    (isOnGateway (hc w1) = false -> wasOnGateway (hc w) = false) /\
    (r1 ← attempt (call recorded (LocalEndpointCreated ep));
     finish_local recorded (fun s => negb (wasOnGateway s) && isOnGateway s) TransitionToGateway r1) w1 = (r, w')).
  { case_bool_decide as Hh.
    - exists (mkWorld (setIsOnGateway true (hc w)) (hw w)). split; [exact Hinv|]. split; [done|]. split; [done|]. exact Hrun.
    - exists w. split; [done|]. split; [done|]. split; [by apply Hord|]. exact Hrun. }
  clear Hrun. destruct H1 as (w1 & Hinv1 & Hwas1 & Hpend & Hrun).
  apply eff_bind_inv in Hrun as [(r1 & w2 & Hcall & Hrun)|(e & Hbad & _)].
  2: { apply attempt_inv in Hbad as (? & [=] & _). }
  apply attempt_inv in Hcall as (? & [= <-] & Hcall). apply call_inv in Hcall as [Hinv2 Hs2]; [|done..].
  eapply (finish_local_inv _ _ true); [| | | |exact Hinv2|exact Hrun]; rewrite ?Hs2.
  - intros l. by rewrite transitions_app.
  - intros l. rewrite transitions_app. apply app_nil_r.
  - intros Hc. apply andb_true_iff in Hc as [Hc1 Hc2]. by apply negb_true_iff in Hc1.
  - rewrite Hwas1. intros Hc. destruct (wasOnGateway (hc w)), (isOnGateway (hc w1)); try done.
    by specialize (Hpend eq_refl).
Qed.

Lemma removed_local_inv ep (w w' : wld) r :
  (Hostname (Spec (ep_obj ep)) <> hostname -> isOnGateway (hc w) = true -> wasOnGateway (hc w) = true) ->
  gw_inv w -> handleRemovedLocalEndpoint recorded hostname ep w = (r, w') -> gw_inv w'.
Proof.
  intros Hord Hinv Hrun. unfold handleRemovedLocalEndpoint in Hrun.
  assert (H1 : exists w1, gw_inv w1 /\ wasOnGateway (hc w1) = wasOnGateway (hc w) /\
    (isOnGateway (hc w1) = true -> wasOnGateway (hc w) = true) /\
    (r1 ← attempt (call recorded (LocalEndpointRemoved ep));
     finish_local recorded (fun s => wasOnGateway s && negb (isOnGateway s)) (TransitionToNonGateway ep) r1) w1 = (r, w')).
  { case_bool_decide as Hh.
    - exists (mkWorld (setIsOnGateway false (hc w)) (hw w)). split; [exact Hinv|]. split; [done|]. split; [done|]. exact Hrun.
    - exists w. split; [done|]. split; [done|]. split; [by apply Hord|]. exact Hrun. }
  clear Hrun. destruct H1 as (w1 & Hinv1 & Hwas1 & Hpend & Hrun).
  apply eff_bind_inv in Hrun as [(r1 & w2 & Hcall & Hrun)|(e & Hbad & _)].
  2: { apply attempt_inv in Hbad as (? & [=] & _). }
  apply attempt_inv in Hcall as (? & [= <-] & Hcall). apply call_inv in Hcall as [Hinv2 Hs2]; [|done..].
  eapply (finish_local_inv _ _ false); [| | | |exact Hinv2|exact Hrun]; rewrite ?Hs2.
  - intros l. by rewrite transitions_app.
  - intros l. rewrite transitions_app. apply app_nil_r.
  - intros Hc. apply andb_true_iff in Hc as [Hc1 Hc2]. by apply negb_true_iff in Hc2.
  - rewrite Hwas1. intros Hc. destruct (wasOnGateway (hc w)), (isOnGateway (hc w1)); try done.
    by specialize (Hpend eq_refl).
Qed.

Lemma remote_inv ep (w w' : wld) r :
  handleCreatedRemoteEndpoint recorded ep w = (r, w') \/ handleRemovedRemoteEndpoint recorded ep w = (r, w') \/
  handleUpdatedRemoteEndpoint recorded ep w = (r, w') -> gw_inv w -> gw_inv w'.
Proof.
  set (R := fun w w' : wld => gw_inv w -> gw_inv w').
  assert (HR : PreOrder R) by (split; [by intros ? ?|by intros ? ? ? H1 H2 ?; apply H2, H1]).
  assert (Hu : forall f, (forall s, wasOnGateway (f s) = wasOnGateway s) -> keeps R (update (W := W * log) f)).
  { intros f Hf w1 Hi. by apply (update_inv f w1 _ _ Hf Hi eq_refl). }
  assert (Hc : forall cb, is_transition cb = false -> keeps R (call recorded cb)).
  { intros cb Hcb w1 Hi. destruct (call recorded cb w1) as [r1 w2] eqn:Hcall. by apply call_inv in Hcall as [? _]. }
  intros [Hr|[Hr|Hr]]; revert Hr; apply (keeps_run R).
  - unfold handleCreatedRemoteEndpoint. frames; by (apply Hu || apply Hc).
  - unfold handleRemovedRemoteEndpoint. frames; by (apply Hu || apply Hc).
  - unfold handleUpdatedRemoteEndpoint. frames; by (apply Hu || apply Hc).
Qed.

Lemma guarded_run n ep remote local (w : wld) : guarded clusterID n ep remote local w =
  if maxRequeues <? n then (Ok false, w)
  else (Ok (is_err ((if negb (ep_cluster ep =?? clusterID) then remote else local) w).1),
        ((if negb (ep_cluster ep =?? clusterID) then remote else local) w).2).
Proof.
  unfold guarded. destruct (maxRequeues <? n); [done|].
  unfold mbind, eff_bind, attempt. by destruct ((if negb _ then remote else local) w).
Qed.

Lemma deliver_inv ev (w : wld) : in_order (hc w) ev -> gw_inv w ->
  gw_inv (deliver recorded hostname clusterID w ev).
Proof.
  intros Hord Hinv. unfold deliver, transform. destruct ev as [op ep n|op node n].
  2: { destruct (negb _); [done|].
       assert (Hn : forall cb, is_transition cb = false -> gw_inv (handle_node recorded cb w).2).
       { intros cb Hcb. unfold handle_node, mbind, eff_bind, attempt.
         destruct (call recorded cb w) as [r w1] eqn:Hc. by apply call_inv in Hc as [? _]. }
       by destruct op; apply Hn. }
  destruct op.
  - unfold handleCreatedEndpoint. rewrite guarded_run. destruct (maxRequeues <? n) eqn:Hn; [done|].
    apply Z.ltb_ge in Hn. case_bool_decide as Hc; cbn [negb].
    + destruct (handleCreatedLocalEndpoint _ _ ep w) as [r w'] eqn:Hr.
      eapply created_local_inv; [|done|exact Hr]. intros Hh. by apply Hord.
    + destruct (handleCreatedRemoteEndpoint _ ep w) as [r w'] eqn:Hr. eapply remote_inv; eauto.
  - unfold handleUpdatedEndpoint. rewrite guarded_run. destruct (maxRequeues <? n) eqn:Hn; [done|].
    case_bool_decide as Hc; cbn [negb].
    + destruct (handleUpdatedLocalEndpoint _ ep w) as [r w'] eqn:Hr.
      by apply call_inv in Hr as [? _].
    + destruct (handleUpdatedRemoteEndpoint _ ep w) as [r w'] eqn:Hr. eapply remote_inv; eauto.
  - unfold handleRemovedEndpoint. rewrite guarded_run. destruct (maxRequeues <? n) eqn:Hn; [done|].
    apply Z.ltb_ge in Hn. case_bool_decide as Hc; cbn [negb].
    + destruct (handleRemovedLocalEndpoint _ _ ep w) as [r w'] eqn:Hr.
      eapply removed_local_inv; [|done|exact Hr]. intros Hh. by apply Hord.
    + destruct (handleRemovedRemoteEndpoint _ ep w) as [r w'] eqn:Hr. eapply remote_inv; eauto.
Qed.

(** C8: The transitions a handler makes alternate, the first one being to a
    gateway, however often its other calls or the transitions themselves fail, as
    long as no notification about the endpoint of another host of the cluster
    comes between a transition that is pending and its repetition; once nothing
    is pending, the last transition tells whether the node is a gateway. *)
Theorem gateway_transitions_alternate w0 evs : ordered_run (start w0) evs ->
  let w := run recorded hostname clusterID evs (start w0) in
  alternating false (transitions (calls w)) /\
  (settled (hc w) -> isOnGateway (hc w) = made (calls w)).
Proof.
  cbv zeta. intros Hord. assert (Hinv : gw_inv (start w0)) by done.
  assert (H : gw_inv (run recorded hostname clusterID evs (start w0))).
  { revert Hord Hinv. generalize (start w0). clear w0.
    induction evs as [|ev evs IH]; intros w Hord Hinv; [done|]. inversion Hord as [|? ? ? Ho Hrest]; subst.
    apply IH; [done|]. by apply deliver_inv. }
  destruct H as [Ha Hw]. split; [done|]. unfold settled. by intros ->.
Qed.
(** ** The order of remote endpoints *)

(** The latest endpoint of each remote cluster, as the calls tell it. *)
Definition note (latest : gmap string EndpointMeta) (c : callback Node * bool) : gmap string EndpointMeta :=
  match c.1 with
  | RemoteEndpointCreated ep => <[ep_cluster ep := ep]> latest
  | RemoteEndpointRemoved ep => delete (ep_cluster ep) latest
  | _ => latest
  end.

(** What may be called next. *)
Definition allowed (latest : gmap string EndpointMeta) (c : callback Node) : Prop :=
  match c with
  | RemoteEndpointCreated ep =>
      ep_cluster ep <> clusterID /\
      forall last, latest !! ep_cluster ep = Some last -> ep_time last <= ep_time ep
  | RemoteEndpointRemoved ep =>
      ep_cluster ep <> clusterID /\
      forall last, latest !! ep_cluster ep = Some last -> ep_UID last = ep_UID ep
  | StaleRemoteEndpointRemoved ep =>
      ep_cluster ep <> clusterID /\
      exists last, latest !! ep_cluster ep = Some last /\ ep_UID last <> ep_UID ep
  | RemoteEndpointUpdated ep => ep_cluster ep <> clusterID
  | LocalEndpointCreated ep | LocalEndpointUpdated ep | LocalEndpointRemoved ep
  | TransitionToNonGateway ep => ep_cluster ep = clusterID
  | _ => True
  end.

Fixpoint well_ordered (latest : gmap string EndpointMeta) (l : log) : Prop :=
  match l with
  | [] => True
  | c :: l => allowed latest c.1 /\ well_ordered (note latest c) l
  end.

Lemma well_ordered_snoc c l : forall latest,
  well_ordered latest (l ++ [c]) <-> well_ordered latest l /\ allowed (foldl note latest l) c.1.
Proof. induction l as [|x l IH]; intros latest; cbn; [tauto|]. rewrite IH. tauto. Qed.

Definition order_inv (w : wld) : Prop :=
  well_ordered ∅ (calls w) /\ lastRemoteEndpoint (hc w) = foldl note ∅ (calls w).

(** A call that is allowed; [f] is what happened to the state before it. *)
Lemma call_order (f : hc_state -> hc_state) cb (w w' : wld) r : order_inv w ->
  allowed (lastRemoteEndpoint (hc w)) cb ->
  lastRemoteEndpoint (f (hc w)) = note (lastRemoteEndpoint (hc w)) (cb, true) ->
  call recorded cb (mkWorld (f (hc w)) (hw w)) = (r, w') -> order_inv w'.
Proof.
  intros [Ho Hl] Hal Hf Hc. apply call_recorded in Hc as [Hs Hw]. cbn [hc hw] in Hs, Hw. unfold order_inv.
  rewrite Hs, Hw, foldl_app, <- Hl, Hf. split; [|done]. apply well_ordered_snoc. by rewrite <- Hl.
Qed.

(** The local calls say nothing about remote clusters. *)
Lemma call_order_local cb (w w' : wld) r : order_inv w -> allowed ∅ cb ->
  (forall m, allowed m cb <-> allowed ∅ cb) -> (forall m, note m (cb, true) = m) ->
  call recorded cb w = (r, w') -> order_inv w'.
Proof.
  intros Hi Ha Hall Hn Hc. destruct w as [s x]. eapply (call_order id); [exact Hi| | |exact Hc].
  - by apply Hall.
  - by rewrite Hn.
Qed.

Lemma local_order ep (w w' : wld) r : ep_cluster ep = clusterID -> order_inv w ->
  handleCreatedLocalEndpoint recorded hostname ep w = (r, w') \/
  handleRemovedLocalEndpoint recorded hostname ep w = (r, w') \/
  handleUpdatedLocalEndpoint recorded ep w = (r, w') -> order_inv w'.
Proof.
  intros Hep Hi. set (R := fun w w' : wld => order_inv w -> order_inv w').
  assert (HR : PreOrder R) by (split; [by intros ? ?|by intros ? ? ? H1 H2 ?; apply H2, H1]).
  assert (Hu : forall f, (forall s, lastRemoteEndpoint (f s) = lastRemoteEndpoint s) -> keeps R (update (W := W * log) f)).
  { intros f Hf w1 [Ho Hl]. split; cbn; [done|]. by rewrite Hf. }
  assert (Hc : forall cb, allowed ∅ cb -> (forall m, allowed m cb <-> allowed ∅ cb) ->
    (forall m, note m (cb, true) = m) -> keeps R (call recorded cb)).
  { intros cb H1 H2 H3 w1 Hi1. destruct (call recorded cb w1) as [r1 w2] eqn:Hcall. by eapply call_order_local. }
  intros Hr. assert (Hk : R w w'); [|by apply Hk]. destruct Hr as [Hr|[Hr|Hr]]; revert Hr; apply (keeps_run R).
  - unfold handleCreatedLocalEndpoint, finish_local. frames; by (apply Hu || apply Hc).
  - unfold handleRemovedLocalEndpoint, finish_local. frames; by (apply Hu || apply Hc).
  - unfold handleUpdatedLocalEndpoint. frames; by apply Hc.
Qed.

Lemma remote_order ep (w w' : wld) r : ep_cluster ep <> clusterID -> order_inv w ->
  handleCreatedRemoteEndpoint recorded ep w = (r, w') \/
  handleRemovedRemoteEndpoint recorded ep w = (r, w') \/
  handleUpdatedRemoteEndpoint recorded ep w = (r, w') -> order_inv w'.
Proof.
  intros Hep Hi [Hr|[Hr|Hr]].
  - unfold handleCreatedRemoteEndpoint in Hr. unfold mbind, eff_bind, getw in Hr. cbn beta iota in Hr.
    destruct (lastRemoteEndpoint (hc w) !! ep_cluster ep) as [last|] eqn:Hl;
      [destruct (ep_time ep <? ep_time last) eqn:Ht; [by injection Hr as <- <-|apply Z.ltb_ge in Ht]|].
    all: eapply (call_order (fun s => set_last _ (set_remotes _ s))); [exact Hi| | |exact Hr]; [|done];
      split; [done|]; rewrite Hl; naive_solver.
  - unfold handleRemovedRemoteEndpoint in Hr. unfold mbind, eff_bind, getw, update, modifyw in Hr. cbn in Hr.
    destruct (lastRemoteEndpoint (hc w) !! ep_cluster ep) as [last|] eqn:Hl;
      [case_bool_decide as Hu; cbn [negb] in Hr|].
    + eapply (call_order (fun s => set_last _ (set_remotes _ s))); [exact Hi| | |exact Hr]; [|done].
      split; [done|]. rewrite Hl. naive_solver.
    + eapply (call_order (fun s => set_remotes _ s)); [exact Hi| | |exact Hr]; [|done].
      split; [done|]. rewrite Hl. naive_solver.
    + eapply (call_order (fun s => set_last _ (set_remotes _ s))); [exact Hi| | |exact Hr]; [|done].
      split; [done|]. rewrite Hl. naive_solver.
  - eapply (call_order (fun s => set_remotes _ s)); [exact Hi| | |exact Hr]; done.
Qed.

Lemma deliver_order ev (w : wld) : order_inv w -> order_inv (deliver recorded hostname clusterID w ev).
Proof.
  intros Hinv. unfold deliver, transform. destruct ev as [op ep n|op node n].
  2: { destruct (negb _); [done|].
       assert (Hn : forall cb, allowed ∅ cb -> (forall m, allowed m cb <-> allowed ∅ cb) ->
         (forall m, note m (cb, true) = m) -> order_inv (handle_node recorded cb w).2).
       { intros cb H1 H2 H3. unfold handle_node, mbind, eff_bind, attempt.
         destruct (call recorded cb w) as [r w1] eqn:Hc. by eapply call_order_local in Hc. }
       by destruct op; apply Hn. }
  destruct op; [unfold handleCreatedEndpoint|unfold handleUpdatedEndpoint|unfold handleRemovedEndpoint];
    rewrite guarded_run; (destruct (maxRequeues <? n); [done|]); case_bool_decide as Hc; cbn [negb snd];
    match goal with |- order_inv (?m w).2 => destruct (m w) as [r w'] eqn:Hr end;
    cbn [snd]; first [solve [eapply (local_order ep); eauto]|eapply (remote_order ep); eauto].
Qed.

(** C9: In every run, whatever fails and however often notifications are repeated,
    the calls of a handler about the endpoints of a remote cluster are in order:
    between two removals no endpoint older than the latest one is reported
    created, an endpoint is reported removed only when it is the latest one known
    of its cluster or none is known, and reported as stale only when another one
    is; calls about remote clusters and about the local one are never mixed up.
    The controller's own record of the latest endpoints is the one the calls
    tell. *)
Theorem remote_endpoints_ordered w0 evs :
  let w := run recorded hostname clusterID evs (start w0) in
  well_ordered ∅ (calls w) /\ lastRemoteEndpoint (hc w) = foldl note ∅ (calls w).
Proof.
  cbv zeta. assert (Hinv : order_inv (start w0)) by done. revert Hinv. generalize (start w0). clear w0.
  induction evs as [|ev evs IH]; intros w Hinv; [done|]. apply IH. by apply deliver_order.
Qed.
(** When no call fails nothing is ever pending, and every run is ordered. *)
Section reliable.
Hypothesis reliable : forall st cb w, is_ok (Call handler st cb w).1 = true.

Lemma reliable_call cb (w : wld) :
  call recorded cb w = (Ok tt, mkWorld (hc w) (hw (call recorded cb w).2)).
Proof.
  unfold call, recorded. cbn. specialize (reliable (state_of (hc w)) cb (hw w).1).
  destruct (Call handler _ cb _) as [[[]|e] x]; [done|discriminate].
Qed.

Lemma reliable_finish cond cb (w : wld) :
  settled (hc (finish_local recorded cond cb (Ok tt) w).2).
Proof.
  unfold finish_local, mbind, eff_bind, getw, attempt. cbn [is_ok andb]. destruct (cond (hc w)).
  - by rewrite reliable_call.
  - done.
Qed.

Lemma reliable_settled ev (w : wld) : settled (hc w) ->
  settled (hc (deliver recorded hostname clusterID w ev)).
Proof.
  intros Hs. unfold deliver, transform. destruct ev as [op ep n|op node n].
  2: { destruct (negb _); [done|]. destruct op; unfold handleCreatedNode, handleUpdatedNode, handleRemovedNode,
         handle_node, mbind, eff_bind, attempt; by rewrite reliable_call. }
  destruct op; [unfold handleCreatedEndpoint|unfold handleUpdatedEndpoint|unfold handleRemovedEndpoint];
    rewrite guarded_run; (destruct (maxRequeues <? n); [done|]); case_bool_decide as Hc; cbn [negb snd].
  - unfold handleCreatedLocalEndpoint. case_bool_decide; unfold mbind at 1, eff_bind at 1, update, modifyw, mret, eff_ret;
      cbn beta iota; unfold mbind at 1, eff_bind at 1, attempt; rewrite reliable_call; apply reliable_finish.
  - unfold handleCreatedRemoteEndpoint, mbind, eff_bind, getw, update, modifyw. cbv beta iota zeta.
    destruct (match _ !! _ with Some _ => _ | None => _ end); [done|]. by rewrite reliable_call.
  - unfold handleUpdatedLocalEndpoint. by rewrite reliable_call.
  - unfold handleUpdatedRemoteEndpoint, mbind, eff_bind, update, modifyw. by rewrite reliable_call.
  - unfold handleRemovedLocalEndpoint. case_bool_decide; unfold mbind at 1, eff_bind at 1, update, modifyw, mret, eff_ret;
      cbn beta iota; unfold mbind at 1, eff_bind at 1, attempt; rewrite reliable_call; apply reliable_finish.
  - unfold handleRemovedRemoteEndpoint, mbind, eff_bind, getw, update, modifyw. cbv beta iota zeta.
    destruct (match _ !! _ with Some _ => _ | None => _ end); by rewrite reliable_call.
Qed.

Lemma reliable_ordered evs : forall w : wld, settled (hc w) -> ordered_run w evs.
Proof.
  induction evs as [|ev evs IH]; intros w Hs; constructor; [|by apply IH, reliable_settled].
  destruct ev as [[] ep n|]; cbn; try done; unfold settled in Hs; intros; congruence.
Qed.
End reliable.
End trace.

(** * Concrete runs *)
Definition ex_endpoint (cluster host uid : string) (time : Z) : EndpointMeta :=
  mkEp (mkEndpoint uid time (mkSpec cluster uid "" [] host [] "" [] "" [] false "" ∅)) uid.

(** A handler whose first [n] calls fail. *)
Definition failing : Handler unit nat :=
  mkHandler "failing" [AnyNetworkPlugin] false (mret tt) (mret tt) (mret tt)
    (fun _ _ n => match n with O => (Ok tt, O) | S n => (Err "failed", n) end).

Definition own_endpoint : EndpointMeta := ex_endpoint "east" "node1" "own" 2.
Definition other_endpoint : EndpointMeta := ex_endpoint "east" "node2" "other" 1.

Definition ex_run (fails : nat) (evs : list (notification unit)) : world (nat * list (callback unit * bool)) :=
  run (recorded failing) "node1" "east" evs (start fails).

(** A transition can be lost.  The node becomes a gateway, but the call about
    its new endpoint fails; before it is repeated, the endpoint of the previous
    gateway is removed.  That handler makes no transition, as the node was no
    gateway, but records that it is one; the repetition then finds nothing to do,
    and the handler is never told of the transition although all calls after the
    first succeed. *)
Lemma gateway_transition_lost :
  let w := ex_run 1 [EndpointEvent OpCreate own_endpoint 0; EndpointEvent OpDelete other_endpoint 0;
                     EndpointEvent OpCreate own_endpoint 1] in
  isOnGateway (hc w) = true /\ wasOnGateway (hc w) = true /\ transitions (hw w).2 = [] /\
  (hw w).2 = [(LocalEndpointCreated own_endpoint, false); (LocalEndpointRemoved other_endpoint, true);
              (LocalEndpointCreated own_endpoint, true)].
Proof. vm_compute. repeat split. Qed.

Lemma gateway_transitions_alternate_witness :
  let evs := [EndpointEvent OpCreate own_endpoint 0; EndpointEvent OpCreate own_endpoint 1;
              EndpointEvent OpDelete other_endpoint 0; EndpointEvent OpDelete own_endpoint 0] in
  transitions (hw (ex_run 1 evs)).2 = [true; false] /\
  alternating false (transitions (hw (ex_run 1 evs)).2).
Proof.
  cbv zeta. split; [vm_compute; reflexivity|].
  apply (gateway_transitions_alternate failing "node1" "east" 1%nat).
  repeat (constructor; [vm_compute; intros; congruence|]). constructor.
Defined.
End EventController.
