(* ===== verification/PublicIP.v ===== *)
(** How the local endpoint finds its public address (src/pkg/endpoint/public_ip.go):
    the resolvers of its configuration, tried in order, and the search for an
    address in a text by Go's regular expressions.  Requests to the internet, name
    service and Kubernetes API are a class. *)
From stdpp Require Import base gmap list strings fin_maps sorting.
From Stdlib Require String.
From Stdlib Require Import ZArith Lia Ascii.
From S2P Require Import Prelude GoNet GoStrings K8s Endpoint.
Local Open Scope Z_scope.

(** * [regexp]

    Go tries the alternatives of an expression from left to right and prefers more
    repetitions to fewer; [matches] lists what remains of the text after each
    match at its start, the preferred one first. *)
Module Regexp.

Inductive regex :=
| Chars (p : ascii -> bool)
| Seq (r1 r2 : regex)
| Alt (r1 r2 : regex)
| Rep (r : regex) (min extra : nat)  (* between [min] and [min + extra] times *)
| Many (p : ascii -> bool).           (* at least once *)

Section reps.
Context (m : list ascii -> list (list ascii)).

Fixpoint exactly (n : nat) (s : list ascii) : list (list ascii) :=
  match n with
  | O => [s]
  | S n => flat_map (exactly n) (m s)
  end.

Fixpoint up_to (n : nat) (s : list ascii) : list (list ascii) :=
  match n with
  | O => [s]
  | S n => flat_map (up_to n) (m s) ++ [s]
  end.
End reps.

Fixpoint many (p : ascii -> bool) (s : list ascii) : list (list ascii) :=
  match s with
  | c :: s => if p c then many p s ++ [s] else []
  | [] => []
  end.

Fixpoint matches (r : regex) (s : list ascii) : list (list ascii) :=
  match r with
  | Chars p => match s with c :: s => if p c then [s] else [] | [] => [] end
  | Seq r1 r2 => flat_map (matches r2) (matches r1 s)
  | Alt r1 r2 => matches r1 s ++ matches r2 s
  | Rep r min extra => flat_map (up_to (matches r) extra) (exactly (matches r) min s)
  | Many p => many p s
  end.

(** The first match, from the leftmost position where there is one. *)
Fixpoint find (r : regex) (s : list ascii) : option (list ascii) :=
  match matches r s with
  | rest :: _ => Some (take (length s - length rest) s)
  | [] => match s with _ :: s => find r s | [] => None end
  end.

Definition FindString (r : regex) (s : string) : option string :=
  String.string_of_list_ascii <$> find r (String.list_ascii_of_string s).

Definition lit (c : ascii) : regex := Chars (fun x => bool_decide (x = c)).
Definition opt (r : regex) : regex := Rep r 0 1.
Definition seqs (l : list regex) : regex := foldr Seq (Rep (Chars (fun _ => true)) 0 0) l.
Definition alts (r : regex) (l : list regex) : regex := foldl Alt r l.
End Regexp.

Module PublicIP.
Import Regexp Endpoint Strings.

Definition in_range (a b : ascii) (c : ascii) : bool :=
  (Ascii.nat_of_ascii a <=? Ascii.nat_of_ascii c)%nat && (Ascii.nat_of_ascii c <=? Ascii.nat_of_ascii b)%nat.

(** ["\d"], and ["[a-f0-9]"] with any case. *)
Definition digit_char : ascii -> bool := in_range "0" "9".
Definition hex_char (c : ascii) : bool := digit_char c || in_range "a" "f" c || in_range "A" "F" c.
Definition alnum_char (c : ascii) : bool := digit_char c || in_range "a" "z" c || in_range "A" "Z" c.

(** A letter in any case. *)
Definition lit_ci (c : ascii) : regex := Chars (fun x => lower_char x =?? c).

Definition D13 : regex := Rep (Chars digit_char) 1 2.

Definition IPv4RE : regex := Seq (Rep (Seq D13 (lit ".")) 3 0) D13.

Definition H14 : regex := Rep (Chars hex_char) 1 3.
Definition colon : regex := lit ":".
(** ["(?:[a-f0-9]{1,4}:)"] and ["(?::[a-f0-9]{1,4})"] *)
Definition HC : regex := Seq H14 colon.
Definition CH : regex := Seq colon H14.

(** ["(25[0-5]|2[0-4][0-9]|[0-1]?[0-9][0-9]?\.)"]: the dot belongs to the last
    alternative only; and the same without it. *)
Definition octet (last : list regex) : regex :=
  Alt (Alt (seqs [lit "2"; lit "5"; Chars (in_range "0" "5")])
           (seqs [lit "2"; Chars (in_range "0" "4"); Chars digit_char]))
      (seqs ([opt (Chars (in_range "0" "1")); Chars digit_char; opt (Chars digit_char)] ++ last)).

Definition IPv6RE : regex := alts
  (Seq (Rep HC 7 0) H14)
  [ seqs [Rep HC 1 5; colon; opt H14];
    Seq (Rep HC 1 4) (Rep CH 1 1);
    Seq (Rep HC 1 3) (Rep CH 1 2);
    Seq (Rep HC 1 2) (Rep CH 1 3);
    Seq (Rep HC 1 1) (Rep CH 1 4);
    Seq H14 (Rep CH 1 5);
    seqs [colon; colon; Rep HC 1 6];
    seqs [colon; colon; Rep H14 1 6];
    seqs [lit_ci "f"; lit_ci "e"; lit "8"; lit "0"; colon;
          Rep (Seq colon (Rep (Chars hex_char) 0 4)) 0 4; lit "%"; Many alnum_char];
    seqs [colon; colon;
          opt (seqs [lit_ci "f"; lit_ci "f"; lit_ci "f"; lit_ci "f";
                     opt (Seq colon (Rep (lit "0") 1 3)); colon]);
          Rep (octet [lit "."]) 3 0; octet []];
    seqs [Rep HC 1 3; colon; Rep (octet [lit "."]) 3 0; octet []];
    seqs [Rep HC 1 6; opt colon; H14] ].

Definition firstIPInString (family : IPFamily) (body : string) : result string string :=
  match FindString (if family =?? IPv4 then IPv4RE else IPv6RE) body with
  | Some ip => Ok ip
  | None => Err "no IP address found"
  end.

(** [strings.Trim] of spaces. *)
Definition Trim : string -> string := trim (fun c => c =?? " "%char).

(** * The outside world *)
Record LoadBalancerIngress := mkIngress { ing_IP : string; ing_Hostname : string }.

(** [http_get] makes the request and reads the body; [LookupIP] asks the name
    service; [get_ingresses] gets the ingress of a service's load balancer;
    [retry] is [wait.ExponentialBackoffWithContext] with [LoadBalancerRetryConfig],
    over the variables the condition assigns: whether it was interrupted, or the
    error it ended with; [cancelled] tells whether the context was. *)
Class Internet (W : Type) := {
  http_get : string -> eff W string string;
  LookupIP : string -> string -> eff W string (list Net.IP);
  get_ingresses : string -> string -> eff W string (list LoadBalancerIngress);
  retry : forall {V : Type}, (V -> eff W string (bool * V)) -> V -> eff W string (option (bool * string) * V);
  cancelled : W -> bool;
}.

Section resolvers.
Context {W : Type} `{!Internet W} `{K8sNet}.
(** [rand.Shuffle] *)
Context (shuffle : list string -> list string).

Definition getPublicIPResolvers (family : IPFamily) : string :=
  let serverList := match family with
    | IPv4 => ["api:ip4.seeip.org"; "api:ipecho.net/plain"; "api:ifconfig.me";
               "api:ipinfo.io/ip"; "api:4.ident.me"; "api:checkip.amazonaws.com"; "api:4.icanhazip.com";
               "api:myexternalip.com/raw"; "api:4.tnedi.me"; "api:api.ipify.org"]
    | IPv6 => ["api:api64.ipify.org"; "api:api6.ipify.org"]
    | IPFamilyUnknown => []
    end in
  String.concat "," (shuffle serverList).

Definition parseResolver (resolver : string) : result string (string * string) :=
  match Cut ":" (Trim resolver) with
  | Some (method, config) =>
      if (method =?? "") || (config =?? "") then Err "invalid format for annotation" else Ok (method, config)
  | None => Err "invalid format for annotation"
  end.

Definition publicAPI (family : IPFamily) (value : string) : eff W string string :=
  let url := if String.prefix "http" value then value else "https://" +:+ value in
  body ← http_get url;
  lift_result (firstIPInString family body).

Definition publicIP (family : IPFamily) (value : string) : eff W string string :=
  lift_result (firstIPInString family value).

(** [bytes.Compare(a, b) < 0]; the first address in this order is taken. *)
Fixpoint bytes_less (a b : list Z) : bool :=
  match a, b with
  | [], [] => false
  | [], _ => true
  | _, [] => false
  | x :: a, y :: b => if x <? y then true else if y <? x then false else bytes_less a b
  end.

Definition least_ip (ips : list Net.IP) (ip : Net.IP) : Net.IP :=
  foldl (fun best x => if bytes_less x best then x else best) ip ips.

Definition publicDNSIP (family : IPFamily) (fqdn : string) : eff W string string :=
  ips ← LookupIP ("ip" +:+ family_str family) fqdn;
  match filter (fun ip => IPFamilyOf ip = family) ips with
  | [] => mret ""
  | ip :: filteredIPs => mret (Net.ip_string (least_ip filteredIPs ip))
  end.

(** The first ingress with an address of the family. *)
Fixpoint direct_ip (family : IPFamily) (ingresses : list LoadBalancerIngress) : option string :=
  match ingresses with
  | [] => None
  | ingress :: rest =>
      if negb (ing_IP ingress =?? "") && (IPFamilyOfString (ing_IP ingress) =?? family)
      then Some (ing_IP ingress) else direct_ip family rest
  end.

(** The first host name that is resolved; an error ends the search. *)
Fixpoint resolve_hostnames (resolver : string -> eff W string string) (ingresses : list LoadBalancerIngress) :
    eff W string string :=
  match ingresses with
  | [] => mret ""
  | ingress :: rest =>
      if ing_Hostname ingress =?? "" then resolve_hostnames resolver rest
      else
        ip ← resolver (ing_Hostname ingress);
        if negb (ip =?? "") then mret ip else resolve_hostnames resolver rest
  end.

(** The address, whether the search is over, and the error. *)
Definition resolveIngressIP (family : IPFamily) (ingresses : list LoadBalancerIngress)
    (hostnameResolver : option (string -> eff W string string)) : eff W string (string * bool * option string) :=
  let hasAnyDirectIP := existsb (fun i => negb (ing_IP i =?? "")) ingresses in
  match direct_ip family ingresses with
  | Some ip => mret (ip, true, None)
  | None =>
      match hostnameResolver with
      | None => if negb hasAnyDirectIP then mret ("", true, None) else mret ("", false, Some "no IP resolved")
      | Some resolver =>
          r ← attempt (resolve_hostnames resolver ingresses);
          match r : result string string with
          | Err err => mret ("", false, Some err)
          | Ok ip => if negb (ip =?? "") then mret (ip, true, None) else mret ("", false, Some "no IP resolved")
          end
      end
  end.

(** The variables the condition of the retry assigns are [resolvedIP] and [lastErr]. *)
Definition resolveLoadBalancerIP (family : IPFamily) (namespace loadBalancerName : string)
    (hostnameResolver : option (string -> eff W string string)) : eff W string (string * option string) :=
  let condition '(resolvedIP, lastErr) :=
    r ← attempt (get_ingresses namespace loadBalancerName);
    match r : result string (list LoadBalancerIngress) with
    | Err err => mret (false, (resolvedIP, Some err))
    | Ok [] => mret (false, (resolvedIP, Some "service doesn't contain any LoadBalancer ingress yet"))
    | Ok ingresses =>
        res ← resolveIngressIP family ingresses hostnameResolver;
        let '(ip, done, resolveErr) := res : string * bool * option string in
        mret (done, (ip, match resolveErr with Some e => Some e | None => lastErr end))
    end in
  res ← retry condition ("", None);
  let '(err, (resolvedIP, lastErr)) := res : option (bool * string) * (string * option string) in
  mret (match err, lastErr with
        | Some (true, _), Some e => (resolvedIP, Some e)
        | Some (_, e), _ => (resolvedIP, Some e)
        | None, _ => (resolvedIP, None)
        end).

(** [(ip, err)]: the error, if there is one. *)
Definition checked (m : eff W string (string * option string)) : eff W string string :=
  res ← m;
  match res : string * option string with
  | (ip, None) => mret ip
  | (_, Some e) => fail e
  end.

Definition publicLoadBalancerIP (family : IPFamily) (namespace name : string) : eff W string string :=
  checked (resolveLoadBalancerIP family namespace name (Some (publicDNSIP family))).

Definition publicLoadBalancerDirectIP (family : IPFamily) (namespace name : string) :
    eff W string (string * option string) :=
  resolveLoadBalancerIP family namespace name None.

(** [publicIPMethods] *)
Definition resolvePublicIP (family : IPFamily) (namespace method param : string) : eff W string string :=
  if method =?? "api" then publicAPI family param
  else if (method =?? "ipv4") || (method =?? "ipv6") then publicIP family param
  else if method =?? "lb" then publicLoadBalancerIP family namespace param
  else if method =?? "dns" then publicDNSIP family param
  else fail "unknown resolver in annotation".

(** The loop over the resolvers: the address with its resolver, or the errors. *)
Fixpoint invoke_loop (family : IPFamily) (namespace : string) (useResolver : option (string -> bool))
    (resolvers : list string) (errs : list string) : eff W string (string * string + list string) :=
  match resolvers with
  | [] => mret (inr errs)
  | resolver :: rest =>
      let parsed := parseResolver resolver in
      let skip := match parsed, useResolver with
                  | Ok (method, _), Some use => negb (use method)
                  | _, _ => false
                  end in
      if skip then invoke_loop family namespace useResolver rest errs
      else
        r ← attempt (match parsed with
                     | Ok (method, param) => resolvePublicIP family namespace method param
                     | Err e => fail e
                     end);
        w ← getw;
        if cancelled w then mret (inr (errs ++ ["context canceled"]))
        else
          match r : result string string with
          | Ok ip => mret (inl (ip, resolver))
          | Err e => invoke_loop family namespace useResolver rest (errs ++ [e])
          end
  end.

Definition invokeResolvers (family : IPFamily) (namespace config : string)
    (useResolver : option (string -> bool)) : eff W string (string * string) :=
  res ← invoke_loop family namespace useResolver (Split "," config) [];
  match res : string * string + list string with
  | inl out => mret out
  | inr [] => mret ("", "")
  | inr errs => fail (String.concat " " errs)
  end.

(** The loop over the load balancers of an air-gapped deployment. *)
Fixpoint load_balancer_loop (family : IPFamily) (namespace : string) (resolvers : list string)
    (errs : list string) : eff W string (string * string + list string) :=
  match resolvers with
  | [] => mret (inr errs)
  | r :: rest =>
      match parseResolver r with
      | Err e => load_balancer_loop family namespace rest (errs ++ [e])
      | Ok (method, param) =>
          if negb (method =?? "lb") then load_balancer_loop family namespace rest errs
          else
            res ← publicLoadBalancerDirectIP family namespace param;
            match res : string * option string with
            | (ip, None) => if negb (ip =?? "") then mret (inl (ip, r))
                            else load_balancer_loop family namespace rest errs
            | (_, Some e) => load_balancer_loop family namespace rest (errs ++ [e])
            end
      end
  end.

Definition resolvePublicIPAirGapped (family : IPFamily) (namespace config : string) :
    eff W string (string * string) :=
  r ← attempt (invokeResolvers family namespace config (Some (fun m => (m =?? "ipv4") || (m =?? "ipv6"))));
  let '(found, errs) := match r : result string (string * string) with
                        | Ok (ip, resolver) => ((ip, resolver), [])
                        | Err e => (("", ""), [e])
                        end in
  if negb (found.1 =?? "") then mret found
  else
    res ← load_balancer_loop family namespace (Split "," config) errs;
    match res : string * string + list string with
    | inl out => mret out
    | inr [] => mret ("", "")
    | inr errs => fail (String.concat " " errs)
    end.

Definition GetPublicIP (family : IPFamily) (spec_PublicIP namespace : string)
    (backendConfig : gmap string string) (airGapped : bool) : eff W string (string * string) :=
  match family with
  | IPFamilyUnknown => mret ("", "")
  | _ =>
      let config := match backendConfig !! "public-ip" with
                    | Some config => config
                    | None => if negb (spec_PublicIP =?? "") then spec_PublicIP else getPublicIPResolvers family
                    end in
      if airGapped then
        r ← attempt (resolvePublicIPAirGapped family namespace config);
        mret (from_result ("", "") (r : result string (string * string)))
      else invokeResolvers family namespace config None
  end.
End resolvers.

(** * Addresses in a text *)
Definition starts_digit (s : list ascii) : bool :=
  match s with c :: _ => digit_char c | [] => false end.

(** A number of an IPv4 address: one to three digits. *)
Definition octet_digits (ds : list ascii) : Prop :=
  Forall (fun c => digit_char c = true) ds /\ (1 <= length ds <= 3)%nat.

Lemma digits_matches ds rest : octet_digits ds -> starts_digit rest = false ->
  exists more, matches D13 (ds ++ rest) = rest :: more /\ Forall (fun s => starts_digit s = true) more.
Proof.
  intros [Hd Hlen] Hrest.
  assert (Hno : matches (Chars digit_char) rest = []) by (destruct rest as [|c rest]; [done|]; cbn in *; by rewrite Hrest).
  assert (Hyes : forall c s, digit_char c = true -> matches (Chars digit_char) (c :: s) = [s])
    by (intros c s Hc; cbn; by rewrite Hc).
  destruct ds as [|a [|b [|c [|? ?]]]]; cbn [length] in Hlen; try lia; rewrite !Forall_cons in Hd; destruct_and!;
    unfold D13; change (matches (Rep (Chars digit_char) 1 2)) with
      (fun s => flat_map (up_to (matches (Chars digit_char)) 2) (exactly (matches (Chars digit_char)) 1 s));
    cbn [app exactly]; rewrite Hyes by done; cbn [flat_map app up_to].
  - rewrite Hno. exists []. by split.
  - rewrite Hyes by done. cbn [flat_map app]. rewrite Hno. exists [b :: rest]. split; [done|]. by repeat constructor.
  - rewrite Hyes by done. cbn [flat_map app]. rewrite Hyes by done. exists [c :: rest; b :: c :: rest].
    split; [done|]. by repeat constructor.
Qed.

Lemma octet_dot_matches ds rest : octet_digits ds ->
  matches (Seq D13 (lit ".")) (ds ++ "."%char :: rest) = [rest].
Proof.
  intros Hd. change (flat_map (matches (lit ".")) (matches D13 (ds ++ "."%char :: rest)) = [rest]).
  destruct (digits_matches ds ("."%char :: rest) Hd eq_refl) as (more & -> & Hm).
  cbn [flat_map]. replace (flat_map (matches (lit ".")) more) with (@nil (list ascii)); [done|].
  induction Hm as [|s more Hs _ IH]; [done|]. cbn [flat_map]. rewrite <- IH.
  destruct s as [|c s]; [done|]. cbn in Hs |- *. case_bool_decide as Hc; [by rewrite Hc in Hs|done].
Qed.

Definition dotted (a b c d : list ascii) : list ascii :=
  a ++ "."%char :: b ++ "."%char :: c ++ "."%char :: d.

Lemma ipv4_matches a b c d post : octet_digits a -> octet_digits b -> octet_digits c -> octet_digits d ->
  starts_digit post = false -> exists more, matches IPv4RE (dotted a b c d ++ post) = post :: more.
Proof.
  intros Ha Hb Hc Hd Hpost.
  change (exists more, flat_map (matches D13)
    (flat_map (up_to (matches (Seq D13 (lit "."))) 0) (exactly (matches (Seq D13 (lit "."))) 3 (dotted a b c d ++ post)))
    = post :: more).
  unfold dotted. cbn [exactly up_to]. repeat (rewrite <- app_assoc; cbn [app]).
  rewrite octet_dot_matches by done. cbn [flat_map app]. rewrite octet_dot_matches by done. cbn [flat_map app].
  rewrite octet_dot_matches by done. cbn [flat_map app]. rewrite app_nil_r.
  destruct (digits_matches d post Hd Hpost) as (more & -> & _). eauto.
Qed.

Lemma ipv4_no_start s : starts_digit s = false -> matches IPv4RE s = [].
Proof.
  intros Hs. change (flat_map (matches D13)
    (flat_map (up_to (matches (Seq D13 (lit "."))) 0) (exactly (matches (Seq D13 (lit "."))) 3 s)) = []).
  enough (H : matches (Seq D13 (lit ".")) s = []) by (cbn [exactly]; by rewrite H).
  destruct s as [|c s]; [done|]. cbn in Hs |- *. by rewrite Hs.
Qed.

(** An IPv4 address is found in the answer of a server whole, wherever it
    stands: after text without digits and before text that does not go on with a
    digit. *)
Lemma ipv4_found_whole pre a b c d post :
  Forall (fun x => digit_char x = false) pre ->
  octet_digits a -> octet_digits b -> octet_digits c -> octet_digits d -> starts_digit post = false ->
  firstIPInString IPv4 (String.string_of_list_ascii (pre ++ dotted a b c d ++ post)) =
    Ok (String.string_of_list_ascii (dotted a b c d)).
Proof.
  intros Hpre Ha Hb Hc Hd Hpost. unfold firstIPInString, FindString. rewrite bool_decide_true by done.
  rewrite String.list_ascii_of_string_of_list_ascii.
  enough (find IPv4RE (pre ++ dotted a b c d ++ post) = Some (dotted a b c d)) as -> by done.
  induction Hpre as [|x pre Hx _ IH]; cbn [app].
  - destruct (ipv4_matches a b c d post Ha Hb Hc Hd Hpost) as [more Hm].
    destruct (dotted a b c d ++ post) as [|y s] eqn:Hs;
      cbn [find]; rewrite Hm; rewrite <- Hs; rewrite length_app; f_equal;
      (replace (length (dotted a b c d) + length post - length post)%nat with (length (dotted a b c d)) by lia);
      apply take_app_length.
  - cbn [find]. by rewrite ipv4_no_start.
Qed.

(** IPv6 addresses in compressed form are cut short: an earlier alternative of
    the expression matches a part of them.  The address configured for a gateway
    or answered by a server is replaced by another one, or by a text that is no
    address at all. *)
Lemma ipv6_found_truncated :
  firstIPInString IPv6 "2001:db8::1:2" = Ok "2001:db8::1" /\
  Net.ParseIP "2001:db8::1" <> Net.ParseIP "2001:db8::1:2" /\
  firstIPInString IPv6 "::1:2" = Ok "::1:" /\ Net.ParseIP "::1:" = [] /\ Net.ParseIP "::1:2" <> [].
Proof. vm_compute. repeat split; discriminate. Qed.

(** * The resolvers in order *)
Section order.
Context {W : Type} `{!Internet W} `{K8sNet}.
Context (family : IPFamily) (namespace : string) (useResolver : option (string -> bool)).

Definition skipped (resolver : string) : bool :=
  match parseResolver resolver, useResolver with
  | Ok (method, _), Some use => negb (use method)
  | _, _ => false
  end.

Definition resolve (resolver : string) : eff W string string :=
  match parseResolver resolver with
  | Ok (method, param) => resolvePublicIP family namespace method param
  | Err e => fail e
  end.

(** Resolvers that were skipped or failed. *)
Inductive passed_over : list string -> W -> W -> Prop :=
| passed_nil w : passed_over [] w w
| passed_skip r rs w w' : skipped r = true -> passed_over rs w w' -> passed_over (r :: rs) w w'
| passed_fail r rs w e w1 w' : skipped r = false -> resolve r w = (Err e, w1) -> cancelled w1 = false ->
    passed_over rs w1 w' -> passed_over (r :: rs) w w'.

Lemma invoke_loop_spec rs : forall errs (w w' : W) ip r,
  invoke_loop family namespace useResolver rs errs w = (Ok (inl (ip, r)), w') <->
  exists pre post w1, rs = pre ++ r :: post /\ passed_over pre w w1 /\
    skipped r = false /\ resolve r w1 = (Ok ip, w') /\ cancelled w' = false.
Proof.
  induction rs as [|r0 rs IH]; intros errs w w' ip r; cbn [invoke_loop].
  { split; [done|]. intros (pre & post & w1 & Hsp & _). by destruct pre. }
  cbv zeta. change (match parseResolver r0, useResolver with
    | Ok (method, _), Some use => negb (use method) | _, _ => false end) with (skipped r0).
  change (match parseResolver r0 with
    | Ok (method, param) => resolvePublicIP family namespace method param | Err e => fail e end) with (resolve r0).
  destruct (skipped r0) eqn:Hs.
  { rewrite IH. split; intros (pre & post & w1 & Hsp & Hp & Hrest).
    - exists (r0 :: pre), post, w1. rewrite Hsp. split; [done|]. split; [by constructor|done].
    - destruct pre as [|r1 pre]; injection Hsp as <- ->; [by rewrite Hs in Hrest; destruct_and!|].
      exists pre, post, w1. split; [done|]. inversion Hp; subst; [done|congruence]. }
  unfold mbind, eff_bind, attempt, getw. destruct (resolve r0 w) as [[ip0|e] w2] eqn:Hr.
  - destruct (cancelled w2) eqn:Hc; unfold mret, eff_ret.
    + split; [done|]. intros (pre & post & w1 & Hsp & Hp & Hs' & Hr' & Hc').
      destruct pre as [|r1 pre]; injection Hsp as <- ->; inversion Hp; subst; congruence.
    + split.
      * intros [= <- <- <-]. exists [], rs, w. split; [done|]. split; [constructor|done].
      * intros (pre & post & w1 & Hsp & Hp & Hs' & Hr' & Hc').
        destruct pre as [|r1 pre]; injection Hsp as <- ->; inversion Hp; subst; congruence.
  - destruct (cancelled w2) eqn:Hc; unfold mret, eff_ret.
    + split; [done|]. intros (pre & post & w1 & Hsp & Hp & Hs' & Hr' & Hc').
      destruct pre as [|r1 pre]; injection Hsp as <- ->; inversion Hp; subst; congruence.
    + rewrite IH. split; intros (pre & post & w1 & Hsp & Hp & Hrest).
      * exists (r0 :: pre), post, w1. rewrite Hsp. split; [done|]. split; [by eapply passed_fail|done].
      * destruct pre as [|r1 pre]; injection Hsp as <- ->; inversion Hp; subst; [destruct_and!; congruence|congruence|].
        exists pre, post, w1. split; [done|]. split; [congruence|done].
Qed.

(** The address [invokeResolvers] returns, if any, is the one of the first
    resolver of the configuration that is to be used and succeeds: all before it
    were skipped or failed, none after it is asked.  It is found whenever there is
    such a resolver and the context is not cancelled. *)
Lemma resolvers_in_order config (w w' : W) ip r : r <> "" ->
  invokeResolvers family namespace config useResolver w = (Ok (ip, r), w') <->
  exists pre post w1, Split "," config = pre ++ r :: post /\ passed_over pre w w1 /\
    skipped r = false /\ resolve r w1 = (Ok ip, w') /\ cancelled w' = false.
Proof.
  intros Hr. rewrite <- (invoke_loop_spec _ []). unfold invokeResolvers, mbind, eff_bind.
  destruct (invoke_loop family namespace useResolver _ [] w) as [[[out|[|e errs]]|e] w1];
    unfold mret, eff_ret, fail; split; intros Heq; simplify_eq; done.
Qed.
End order.

(** * Air-gapped deployments *)
Section air_gapped.
Context {W : Type} `{!Internet W} `{K8sNet}.
Context (shuffle : list string -> list string) (R : relation W) `{!PreOrder R}.

(** [R] is kept by the calls of the Kubernetes API, also when they are retried;
    nothing is assumed of requests to the internet and the name service. *)
Hypothesis api_keeps : forall ns name, keeps R (get_ingresses ns name).
Hypothesis retry_keeps : forall V (c : V -> eff W string (bool * V)) v, (forall v, keeps R (c v)) -> keeps R (retry c v).

Lemma direct_ip_keeps family ns name : keeps R (publicLoadBalancerDirectIP family ns name).
Proof.
  unfold publicLoadBalancerDirectIP, resolveLoadBalancerIP. apply keeps_bind; [done| |intros; frames].
  apply retry_keeps. intros [resolvedIP lastErr]. unfold resolveIngressIP. frames.
Qed.

Lemma load_balancer_keeps family ns rs : forall errs, keeps R (load_balancer_loop family ns rs errs).
Proof.
  induction rs as [|r rs IH]; intros errs; cbn [load_balancer_loop]; [apply keeps_ret; apply _|].
  destruct (parseResolver r) as [[method param]|e]; [|apply IH]. destruct (negb _); [apply IH|].
  apply keeps_bind; [done|apply direct_ip_keeps|]. intros [ip [e|]]; [apply IH|]. destruct (negb _); [frames|apply IH].
Qed.

Lemma literal_keeps family ns rs : forall errs,
  keeps R (invoke_loop family ns (Some (fun m => (m =?? "ipv4") || (m =?? "ipv6"))) rs errs).
Proof.
  induction rs as [|r rs IH]; intros errs; cbn [invoke_loop]; [apply keeps_ret; apply _|]. cbv zeta.
  assert (Hres : (match parseResolver r with Ok (m, _) => negb ((m =?? "ipv4") || (m =?? "ipv6")) | Err _ => false end) = false ->
    keeps R (match parseResolver r with Ok (m, p) => resolvePublicIP family ns m p | Err e => fail e end)).
  { destruct (parseResolver r) as [[m p]|e]; [|intros; frames]. intros Hm. apply negb_false_iff in Hm.
    unfold resolvePublicIP. destruct (decide (m = "api")) as [->|Ha]; [vm_compute in Hm; discriminate|].
    rewrite (bool_decide_false _ Ha), Hm. unfold publicIP. frames. }
  destruct (match parseResolver r with Ok _ => _ | Err _ => _ end) eqn:Hs; [apply IH|].
  apply keeps_bind; [done|by apply keeps_attempt, Hres|]. intros res.
  apply keeps_bind; [done|frames|]. intros w. destruct (cancelled w); [frames|]. destruct res; [frames|apply IH].
Qed.

(** In an air-gapped deployment the search for the public address asks neither
    the internet nor the name service, whatever resolvers are configured: it keeps
    every relation the Kubernetes API keeps. *)
Lemma air_gapped_no_internet family spec_PublicIP ns backendConfig :
  keeps R (GetPublicIP shuffle family spec_PublicIP ns backendConfig true).
Proof.
  unfold GetPublicIP, resolvePublicIPAirGapped, invokeResolvers.
  destruct family; [frames| |]; cbn [from_result]; frames; auto using literal_keeps, load_balancer_keeps.
Qed.
End air_gapped.

(** * A concrete world: the number of requests made to the internet *)
Definition ex_internet : Internet nat := {|
  http_get := fun _ n => (Ok "your address is 198.51.100.7", S n);
  LookupIP := fun _ _ n => (Err "no such host", S n);
  get_ingresses := fun _ _ n => (Ok [mkIngress "" "lb.example.com"], n);
  retry := fun V c v n => let '(r, n) := c v n in
             match r with Ok (true, v) => (Ok (None, v), n) | Ok (false, v) => (Ok (Some (true, "timed out"), v), n)
                        | Err e => (Err e, n) end;
  cancelled := fun _ => false;
|}.
#[local] Existing Instance ex_internet.
#[local] Existing Instance k8snet_ref.

Lemma ipv4_found_whole_witness :
  firstIPInString IPv4 "your address is 198.51.100.7, bye" = Ok "198.51.100.7".
Proof.
  apply (ipv4_found_whole (chars "your address is ") (chars "198") (chars "51") (chars "100") (chars "7") (chars ", bye"));
    try (split; [repeat constructor|cbn; lia]); [repeat constructor|reflexivity].
Defined.

Lemma resolvers_in_order_witness :
  invokeResolvers IPv4 "ns" "dns:gw.example.com,api:ifconfig.me" None 0%nat = (Ok ("198.51.100.7", "api:ifconfig.me"), 2%nat).
Proof.
  apply (resolvers_in_order IPv4 "ns" None); [discriminate|].
  exists ["dns:gw.example.com"], [], 1%nat. split; [reflexivity|]. split; [|vm_compute; repeat split].
  eapply passed_fail; [reflexivity..|constructor].
Defined.

Lemma air_gapped_no_internet_witness :
  (GetPublicIP (fun l => l) IPv4 "lb:gw" "ns" ∅ true 0%nat).2 = 0%nat.
Proof.
  symmetry. apply (air_gapped_no_internet (fun l => l) eq).
  - intros ns name n. reflexivity.
  - intros V c v Hc n. cbn. specialize (Hc v n). by destruct (c v n) as [[[[] ?]|?] ?].
Defined.
End PublicIP.
