(* ===== verification/LocalEndpoint.v ===== *)
(** The endpoint of the local gateway (src/pkg/endpoint): the copy kept beside the
    one of the API server (local_endpoint.go), how its specification is put
    together from the node and the configuration, the choice of its private
    address (local_ip.go) and the watch of its public ones
    (public_ip_watcher.go). *)
From stdpp Require Import base gmap list strings fin_maps.
From Stdlib Require String.
From Stdlib Require Import ZArith Lia Ascii.
From S2P Require Import Prelude GoNet GoStrings K8s Cidr Endpoint Netlink PublicIP.
Local Open Scope Z_scope.

Module LocalEndpoint.
Import Endpoint PublicIP.

(** * The copy of the local endpoint *)
(** The client for endpoints: admiral's [CreateOrUpdate] with
    [CopyImmutableMetadata], and [MustUpdate], which applies a function to the
    specification stored under a name; its result is the one that was written. *)
Class EndpointClient (A : Type) := {
  ep_CreateOrUpdate : EndpointObj -> eff A string unit;
  ep_MustUpdate : string -> (EndpointSpec -> EndpointSpec) -> eff A string EndpointSpec;
}.

(** [endpoints] are the specifications stored, by name.  A failing call changes
    nothing. *)
Class EndpointClientLaws (A : Type) `{!EndpointClient A} := {
  endpoints : A -> gmap string EndpointSpec;
  ep_cou_ok : forall o a a', ep_CreateOrUpdate o a = (Ok tt, a') ->
    endpoints a' = <[ep_name o := Spec o]> (endpoints a);
  ep_cou_err : forall o a e a', ep_CreateOrUpdate o a = (Err e, a') -> endpoints a' = endpoints a;
  ep_update_ok : forall n f a s a', ep_MustUpdate n f a = (Ok s, a') -> exists s0,
    endpoints a !! n = Some s0 /\ s = f s0 /\ endpoints a' = <[n := s]> (endpoints a);
  ep_update_err : forall n f a e a', ep_MustUpdate n f a = (Err e, a') -> endpoints a' = endpoints a;
}.

Record Local := mkLocal { l_spec : EndpointSpec; created : bool }.

Inductive local_error := LocalPanic (e : spec_error) | LocalAPI (msg : string).

Section local.
Context {A : Type} `{!EndpointClient A}.
Context (EnsureValidName : string -> string).

Record lworld := mkLW { local : Local; api : A }.

Definition NewLocal (spec : EndpointSpec) : Local := mkLocal spec false.

Definition endpointFrom (spec : EndpointSpec) : result spec_error EndpointObj :=
  endpointName ← GenerateName EnsureValidName spec;
  mret (mkEndpoint endpointName 0 spec).

(** [utilruntime.Must] panics. *)
Definition must_endpoint (spec : EndpointSpec) : eff lworld local_error EndpointObj :=
  lift_result (map_err LocalPanic (endpointFrom spec)).

Definition on_api {B} (m : eff A string B) : eff lworld local_error B := fun w =>
  let '(r, a) := m (api w) in (map_err LocalAPI r, mkLW (local w) a).

Definition set_local (l : Local) : eff lworld local_error unit := modifyw (fun w => mkLW l (api w)).

(** [Resource()] *)
Definition Resource (l : Local) : result spec_error EndpointObj := endpointFrom (l_spec l).

Definition Update (mutate : EndpointSpec -> EndpointSpec) : eff lworld local_error unit :=
  w ← getw;
  let l := local w in
  if created l then
    toUpdate ← must_endpoint (l_spec l);
    newSpec ← on_api (ep_MustUpdate (ep_name toUpdate) mutate);
    set_local (mkLocal newSpec (created l))
  else set_local (mkLocal (mutate (l_spec l)) (created l)).

Definition Create : eff lworld local_error unit :=
  w ← getw;
  let l := local w in
  toCreate ← must_endpoint (l_spec l);
  r ← attempt (on_api (ep_CreateOrUpdate toCreate));
  _ ← set_local (mkLocal (l_spec l) (is_ok (E := local_error) (A := unit) r));
  lift_result r.
End local.
Arguments lworld A : clear implicits.

(** * The private address (local_ip.go) *)
Definition IPv6loopback : Net.IP := [0;0;0;0;0;0;0;0;0;0;0;0;0;0;0;1].

Definition IsLoopback (ip : Net.IP) : bool :=
  match Net.To4 ip with
  | b :: _ => b =? 127
  | [] => Net.Equal ip IPv6loopback
  end.

Definition IsLinkLocalUnicast (ip : Net.IP) : bool :=
  match Net.To4 ip with
  | b0 :: b1 :: _ => (b0 =? 169) && (b1 =? 254)
  | _ => (length ip =? 16)%nat &&
         match ip with b0 :: b1 :: _ => (b0 =? 254) && (Z.land b1 192 =? 128) | _ => false end
  end.

Definition familyToDestIP (family : IPFamily) : string :=
  match family with
  | IPv4 => "8.8.8.8"
  | IPv6 => "2001:4860:4860::8888"
  | IPFamilyUnknown => ""
  end.

Definition infraInternalIPv6 : Net.IP := Net.ParseIP "fd69::2".

Definition isAcceptableIPv6 (ip : Net.IP) : bool :=
  let ip := Net.To16 ip in
  negb (ip =?? []) && negb (IsLoopback ip) && negb (IsLinkLocalUnicast ip) && negb (Net.Equal ip infraInternalIPv6).

Section local_ip.
Context `{K8sNet}.
(** [Dial]: the local address of a connection to the destination; the host's
    interfaces; and the routes of a family: gateway and source. *)
Context (Dial : string -> IPFamily -> result string Net.IP).
Context (HostInterfaces : option (list Cni.HostInterface)).
Context (RouteList : IPFamily -> result string (list (Net.IP * Net.IP))).

Fixpoint first_route (family : IPFamily) (routes : list (Net.IP * Net.IP)) : option string :=
  match routes with
  | [] => None
  | (gw, src) :: rest =>
      if negb (gw =?? []) && negb (src =?? []) then
        if (family =?? IPv6) && negb (isAcceptableIPv6 src) then first_route family rest
        else Some (Net.ip_string src)
      else first_route family rest
  end.

Definition getLocalIPFromRoutes (family : IPFamily) : result string string :=
  match RouteList family with
  | Err e => Err e
  | Ok routes => match first_route family routes with
                 | Some ip => Ok ip
                 | None => Err "couldn't find route for family"
                 end
  end.

(** The loop: [owned] is the name of the interface that has the address, once met. *)
Fixpoint same_interface (ip : Net.IP) (owned : string) (hostInterfaces : list Cni.HostInterface) : string :=
  match hostInterfaces with
  | [] => ""
  | h :: rest =>
      let actualIP := Cni.host_Addr h in
      if negb (IPFamilyOf actualIP =?? IPv6) then same_interface ip owned rest
      else
        let owned := if (owned =?? "") && Net.Equal actualIP ip then Cni.host_Name h else owned in
        if negb (owned =?? "") && (owned =?? Cni.host_Name h) && isAcceptableIPv6 actualIP
        then Net.ip_string actualIP
        else same_interface ip owned rest
  end.

Definition getValidGlobalIPv6FromSameInterface (ip : Net.IP) : result string string :=
  match HostInterfaces with
  | None => Err "failed to list interfaces"
  | Some hostInterfaces => Ok (same_interface ip "" hostInterfaces)
  end.

Definition GetLocalIPForDestination (dst : string) (family : IPFamily) : result string string :=
  match Dial dst family with
  | Ok ip =>
      if (family =?? IPv4) || isAcceptableIPv6 ip then Ok (Net.ip_string ip)
      else match getValidGlobalIPv6FromSameInterface ip with
           | Ok ifaceIP => if negb (ifaceIP =?? "") then Ok ifaceIP else getLocalIPFromRoutes family
           | Err _ => getLocalIPFromRoutes family
           end
  | Err _ => getLocalIPFromRoutes family
  end.

Definition GetLocalIP (family : IPFamily) : result string string :=
  GetLocalIPForDestination (familyToDestIP family) family.
End local_ip.

(** * The backend configuration *)
Record Node := mkNode { node_Labels : gmap string string; node_Annotations : gmap string string }.

Definition NATTDiscoveryPort : Z := 4490.
Definition ExternalTunnel : Z := 4500.

Section backend.
(** The order in which Go ranges over a map. *)
Context (range : gmap string string -> list (string * string)).

(** The key of a configuration, after the prefix. *)
Definition config_name (cfg : string) : option string :=
  if String.prefix GatewayConfigPrefix cfg
  then Some (String.substring (String.length GatewayConfigPrefix)
               (String.length cfg - String.length GatewayConfigPrefix) cfg)
  else None.

Fixpoint add_configs (configs : list (string * string)) (backendConfig : gmap string string) :
    result string (gmap string string) :=
  match configs with
  | [] => Ok backendConfig
  | (cfg, value) :: rest =>
      match config_name cfg with
      | None => add_configs rest backendConfig
      | Some config =>
          if bool_decide (config ∈ ValidGatewayNodeConfig)
          then add_configs rest (<[config := value]> backendConfig)
          else Err cfg
      end
  end.

Definition addConfigFrom (configs backendConfig : gmap string string) : result string (gmap string string) :=
  add_configs (range configs) backendConfig.

Definition getNodeBackendConfig (node : Node) : result string (gmap string string) :=
  backendConfig ← addConfigFrom (node_Labels node) ∅;
  addConfigFrom (node_Annotations node) backendConfig.

(** [ce_port] is the environment variable [CE_IPSEC_NATTPORT]. *)
Definition getBackendConfig (ce_port : string) (node : Node) : result string (gmap string string) :=
  backendConfig ← getNodeBackendConfig node;
  let backendConfig := match backendConfig !! UDPPortConfig with
                       | Some _ => backendConfig
                       | None => <[UDPPortConfig := if ce_port =?? "" then Strconv.Itoa ExternalTunnel else ce_port]>
                                   backendConfig
                       end in
  mret (match backendConfig !! NATTDiscoveryPortConfig with
        | Some _ => backendConfig
        | None => <[NATTDiscoveryPortConfig := Strconv.Itoa NATTDiscoveryPort]> backendConfig
        end).
End backend.

(** * The specification (GetLocalSpec) *)
(** The fields of [SubmarinerSpecification] that are read. *)
Record SubmarinerSpec := mkSubmSpec {
  sm_ClusterCidr : list string;
  sm_GlobalCidr : list string;
  sm_ServiceCidr : list string;
  sm_CableDriver : string;
  sm_ClusterID : string;
  sm_Namespace : string;
  sm_PublicIP : string;
  sm_NATEnabled : bool;
  sm_HealthCheckEnabled : bool;
}.

(** [strings.ReplaceAll] of one character by another. *)
Fixpoint ReplaceAll (a b : ascii) (s : string) : string :=
  match s with
  | String.EmptyString => ""
  | String.String c s => String.String (if c =?? a then b else c) (ReplaceAll a b s)
  end.

Section spec.
Context {W : Type} `{!Internet W} `{K8sNet} `{AdmiralSlices}.
Context (shuffle : list string -> list string) (range : gmap string string -> list (string * string)).
Context (LocalIP : IPFamily -> result string string) (HostInterfaces : option (list Cni.HostInterface)).

Definition families (submSpec : SubmarinerSpec) : list IPFamily := Cidr.ExtractIPFamilies (sm_ClusterCidr submSpec).

Definition local_subnets (submSpec : SubmarinerSpec) : list string :=
  match sm_GlobalCidr submSpec with
  | [] => sm_ServiceCidr submSpec ++ sm_ClusterCidr submSpec
  | _ => sm_GlobalCidr submSpec ++
         Cidr.ExtractSubnets IPv6 (sm_ServiceCidr submSpec ++ sm_ClusterCidr submSpec)
  end.

Fixpoint set_each (get : IPFamily -> eff W string string) (set : string -> EndpointSpec -> EndpointSpec)
    (fams : list IPFamily) (spec : EndpointSpec) : eff W string EndpointSpec :=
  match fams with
  | [] => mret spec
  | family :: fams => ip ← get family; set_each get set fams (set ip spec)
  end.

Definition getHealthCheckIP (submSpec : SubmarinerSpec) (family : IPFamily) : eff W string string :=
  match Cni.Discover HostInterfaces (sm_ClusterCidr submSpec) family with
  | Ok i => mret (Cni.cni_IPAddress i)
  | Err (Cni.PanicBadCIDR _) => fail "panic: unable to ParseCIDR"
  | Err _ => fail "error getting CNI Interface IP address"
  end.

Definition with_cable_name (submSpec : SubmarinerSpec) (spec : EndpointSpec) : EndpointSpec :=
  let ip4 := GetPrivateIP spec IPv4 in
  let replacedIP := if negb (ip4 =?? "") then ReplaceAll "." "-" ip4
                    else ReplaceAll ":" "-" (GetPrivateIP spec IPv6) in
  mkSpec (ClusterID spec) ("submariner-cable-" +:+ sm_ClusterID submSpec +:+ "-" +:+ replacedIP)
    (HealthCheckIP spec) (HealthCheckIPs spec) (Hostname spec) (Subnets spec) (PrivateIP spec) (PrivateIPs spec)
    (Endpoint.PublicIP spec) (PublicIPs spec) (NATEnabled spec) (Backend spec) (BackendConfig spec).

(** [node] and [hostname] are those of the local host. *)
Definition GetLocalSpec (node : result string Node) (hostname : result string string) (ce_port : string)
    (submSpec : SubmarinerSpec) (airGappedDeployment : bool) : eff W string EndpointSpec :=
  gwNode ← lift_result node;
  hostname ← lift_result hostname;
  backendConfig ← lift_result (getBackendConfig range ce_port gwNode);
  let backendConfig := if String.prefix (LoadBalancer +:+ ":") (sm_PublicIP submSpec)
                       then <[UsingLoadBalancer := "true"]> backendConfig else backendConfig in
  let spec := mkSpec (sm_ClusterID submSpec) "" "" [] hostname (local_subnets submSpec) "" [] "" []
                (sm_NATEnabled submSpec) (sm_CableDriver submSpec) backendConfig in
  spec ← set_each (fun family => lift_result (LocalIP family)) SetPrivateIP (families submSpec) spec;
  let spec := with_cable_name submSpec spec in
  spec ← set_each (fun family =>
            out ← GetPublicIP shuffle family (sm_PublicIP submSpec) (sm_Namespace submSpec) backendConfig
                    airGappedDeployment;
            mret (out : string * string).1) SetPublicIP (families submSpec) spec;
  if sm_HealthCheckEnabled submSpec then
    set_each (getHealthCheckIP submSpec) SetHealthCheckIP
      (filter (fun f => negb (negb (sm_GlobalCidr submSpec =?? []) && (f =?? IPv4)) = true) (families submSpec)) spec
  else mret spec.
End spec.

(** * The watch of the public addresses (public_ip_watcher.go) *)
Section watcher.
Context {W A : Type} `{!Internet W} `{!EndpointClient A} `{K8sNet} `{AdmiralSlices}.
Context (shuffle : list string -> list string) (EnsureValidName : string -> string) (submSpec : SubmarinerSpec).

(** The addresses that changed, of the families whose search succeeded. *)
Fixpoint changed_ips (spec : EndpointSpec) (fams : list IPFamily) (w : W) : list string * W :=
  match fams with
  | [] => ([], w)
  | family :: fams =>
      let '(r, w) := GetPublicIP shuffle family (sm_PublicIP submSpec) (sm_Namespace submSpec)
                       (BackendConfig spec) false w in
      let '(ips, w) := changed_ips spec fams w in
      (match r with
       | Ok (publicIP, _) => if negb (publicIP =?? Endpoint.GetPublicIP spec family) then publicIP :: ips else ips
       | Err _ => ips
       end, w)
  end.

Definition set_public_ips (publicIPs : list string) (existing : EndpointSpec) : EndpointSpec :=
  foldl (fun s ip => SetPublicIP ip s) existing publicIPs.

(** An error of the update is only logged. *)
Definition syncPublicIP (w : W * lworld A) : W * lworld A :=
  let spec := l_spec (local w.2) in
  let '(publicIPs, w') := changed_ips spec (families submSpec) w.1 in
  match publicIPs with
  | [] => (w', w.2)
  | _ => (w', (Update EnsureValidName (set_public_ips publicIPs) w.2).2)
  end.
End watcher.

(** * The local copy and the API server *)
Section sync.
Context {A : Type} `{!EndpointClient A} `{!EndpointClientLaws A}.
Context (EnsureValidName : string -> string).

Inductive local_op := OpCreate | OpUpdate (mutate : EndpointSpec -> EndpointSpec).

Definition run_op (op : local_op) : eff (lworld A) local_error unit :=
  match op with OpCreate => Create EnsureValidName | OpUpdate f => Update EnsureValidName f end.

(** Errors are logged or retried by the callers; the state goes on. *)
Definition run_ops (ops : list local_op) (w : lworld A) : lworld A := foldl (fun w op => (run_op op w).2) w ops.

(** A change that does not rename the endpoint, as that of an address. *)
Definition keeps_name (op : local_op) : Prop :=
  match op with
  | OpCreate => True
  | OpUpdate f => forall s, ClusterID (f s) = ClusterID s /\ CableName (f s) = CableName s
  end.

Definition in_sync (w : lworld A) : Prop :=
  created (local w) = true ->
  exists n, GenerateName EnsureValidName (l_spec (local w)) = Ok n /\
    endpoints (api w) !! n = Some (l_spec (local w)).

Lemma must_endpoint_spec s (w w' : lworld A) r : must_endpoint EnsureValidName s w = (r, w') ->
  w' = w /\ match r with
            | Ok o => Spec o = s /\ GenerateName EnsureValidName s = Ok (ep_name o)
            | Err _ => True
            end.
Proof.
  unfold must_endpoint, endpointFrom, lift_result. intros [= <- <-]. split; [done|].
  destruct (GenerateName EnsureValidName s) as [n|e]; cbn; done.
Qed.

Lemma create_sync (w : lworld A) : in_sync w -> in_sync (Create EnsureValidName w).2.
Proof.
  intros Hs. unfold Create. unfold mbind at 1, eff_bind at 1, getw. unfold mbind at 1, eff_bind at 1.
  destruct (must_endpoint EnsureValidName (l_spec (local w)) w) as [r w1] eqn:Hm.
  apply must_endpoint_spec in Hm as [-> Ho]. destruct r as [o|e]; [|done].
  unfold mbind, eff_bind, attempt, on_api, set_local, modifyw, lift_result.
  destruct (ep_CreateOrUpdate o (api w)) as [[[]|e] a] eqn:Hc; cbn; [|done].
  intros _. cbn. destruct Ho as [Hsp Hn]. exists (ep_name o). split; [done|].
  apply ep_cou_ok in Hc. rewrite Hc, Hsp. apply lookup_insert_eq.
Qed.

Lemma update_sync f (w : lworld A) : keeps_name (OpUpdate f) -> in_sync w ->
  in_sync (Update EnsureValidName f w).2.
Proof.
  intros Hf Hs. unfold Update. unfold mbind at 1, eff_bind at 1, getw.
  destruct (created (local w)) eqn:Hc; [|intros Hc'; cbn in Hc'; congruence].
  unfold mbind at 1, eff_bind at 1.
  destruct (must_endpoint EnsureValidName (l_spec (local w)) w) as [r w1] eqn:Hm.
  apply must_endpoint_spec in Hm as [-> Ho]. destruct r as [o|e]; [|done]. destruct Ho as [Hsp Hn].
  destruct (Hs Hc) as (n & Hn' & Hst). rewrite Hn in Hn'. injection Hn' as <-.
  unfold mbind, eff_bind, on_api, set_local, modifyw.
  destruct (ep_MustUpdate (ep_name o) f (api w)) as [[s|e] a] eqn:Hu; cbn.
  - apply ep_update_ok in Hu as (s0 & Hs0 & -> & Ha). rewrite Hst in Hs0. injection Hs0 as <-.
    intros _. cbn. exists (ep_name o). rewrite Ha, lookup_insert_eq. split; [|done].
    rewrite <- Hn. unfold GenerateName. by destruct (Hf (l_spec (local w))) as [-> ->].
  - apply ep_update_err in Hu. intros _. cbn. exists (ep_name o). by rewrite Hu.
Qed.

(** C11: Whatever creations and updates succeed or fail, in any order, an endpoint
    that counts as created is stored by the API server under its name with
    exactly the specification of the local copy, as long as the updates do not
    rename it and nobody else writes it. *)
Theorem local_matches_server spec (a : A) ops : Forall keeps_name ops ->
  in_sync (run_ops ops (mkLW (NewLocal spec) a)).
Proof.
  intros Hops. assert (Hs : in_sync (mkLW (NewLocal spec) a)) by done. revert Hs.
  generalize (mkLW (NewLocal spec) a). induction Hops as [|op ops Hop _ IH]; intros w Hs; [done|].
  apply IH. destruct op; [by apply create_sync|by apply update_sync].
Qed.
End sync.

(** * The layers of the backend configuration *)
Section backend_layers.
Context (range : gmap string string -> list (string * string)).
Hypothesis range_perm : forall m, range m ≡ₚ map_to_list m.

Lemma substring_all (s : string) : String.substring 0 (String.length s) s = s.
Proof. induction s as [|c s IH]; [done|]. cbn. by rewrite IH. Qed.

Lemma substring_after (p s : string) : String.substring (String.length p) (String.length s) (p +:+ s) = s.
Proof. induction p as [|c p IH]; [apply substring_all|]. exact IH. Qed.

Lemma length_app_string (p s : string) : String.length (p +:+ s) = (String.length p + String.length s)%nat.
Proof. induction p as [|c p IH]; [done|]. rewrite string_app_cons. cbn. by rewrite IH. Qed.

Lemma prefix_split (p s : string) : String.prefix p s = true -> exists t, s = p +:+ t.
Proof.
  revert s. induction p as [|c p IH]; intros s; [by exists s|]. destruct s as [|c' s]; [done|]. cbn.
  destruct (Ascii.ascii_dec c c') as [<-|]; [|done]. intros Hp. destruct (IH _ Hp) as [t ->]. by exists t.
Qed.

Lemma config_name_spec cfg k : config_name cfg = Some k <-> cfg = GatewayConfigPrefix +:+ k.
Proof.
  unfold config_name. split.
  - destruct (String.prefix GatewayConfigPrefix cfg) eqn:Hp; [|done]. apply prefix_split in Hp as [t ->].
    rewrite length_app_string, Nat.add_comm, Nat.add_sub, substring_after. by intros [= ->].
  - intros ->. rewrite Strings.prefix_app. by rewrite length_app_string, Nat.add_comm, Nat.add_sub, substring_after.
Qed.

Lemma add_configs_spec l : forall m m', NoDup l.*1 -> add_configs l m = Ok m' -> forall k,
  (forall v, (GatewayConfigPrefix +:+ k, v) ∈ l -> m' !! k = Some v) /\
  ((forall v, (GatewayConfigPrefix +:+ k, v) ∉ l) -> m' !! k = m !! k).
Proof.
  induction l as [|[cfg v] l IH]; intros m m' Hnd Hadd k; cbn in Hadd.
  { injection Hadd as ->. split; [|done]. intros v Hv. by apply elem_of_nil in Hv. }
  cbn in Hnd. apply NoDup_cons in Hnd as [Hcfg Hnd].
  assert (Hrest : forall m0, add_configs l m0 = Ok m' -> (config_name cfg = None -> m0 = m) ->
    (forall c, config_name cfg = Some c -> m0 = <[c := v]> m) ->
    (forall v0, (GatewayConfigPrefix +:+ k, v0) ∈ (cfg, v) :: l -> m' !! k = Some v0) /\
    ((forall v0, (GatewayConfigPrefix +:+ k, v0) ∉ (cfg, v) :: l) -> m' !! k = m !! k)).
  { intros m0 Ha Hnone Hsome. destruct (IH _ _ Hnd Ha k) as [Hin Hout]. split.
    - intros v0 Hv0. apply elem_of_cons in Hv0 as [[= Hk ->]|Hv0]; [|by apply Hin].
      rewrite Hout.
      + rewrite (Hsome k); [apply lookup_insert_eq|]. by apply config_name_spec.
      + intros v1 Hv1. apply Hcfg. rewrite <- Hk. by apply (list_elem_of_fmap_2 fst) in Hv1.
    - intros Hno. rewrite Hout by (intros v0 Hv0; apply (Hno v0); by right).
      destruct (config_name cfg) as [c|] eqn:Hc; [|by rewrite Hnone].
      rewrite (Hsome c eq_refl). apply lookup_insert_ne. intros ->. apply config_name_spec in Hc.
      apply (Hno v). rewrite <- Hc. left. }
  destruct (config_name cfg) as [c|] eqn:Hc.
  - case_bool_decide; [|done]. apply (Hrest _ Hadd); [done|]. by intros c' [= <-].
  - by apply (Hrest _ Hadd).
Qed.

Lemma addConfigFrom_spec configs m m' k : addConfigFrom range configs m = Ok m' ->
  m' !! k = match configs !! (GatewayConfigPrefix +:+ k) with Some v => Some v | None => m !! k end.
Proof.
  intros Ha. assert (Hnd : NoDup (range configs).*1).
  { rewrite (range_perm configs). apply NoDup_fst_map_to_list. }
  destruct (add_configs_spec _ _ _ Hnd Ha k) as [Hin Hout].
  destruct (configs !! _) as [v|] eqn:Hv.
  - apply Hin. rewrite (range_perm configs). by apply elem_of_map_to_list.
  - apply Hout. intros v Hv'. rewrite (range_perm configs) in Hv'. apply elem_of_map_to_list in Hv'. congruence.
Qed.

(** Every setting of the gateway comes from the annotation of its node, when
    there is one, else from the label, else, for the two ports, from the
    environment or the default; in whatever order the maps are ranged over. *)
Lemma backend_config_layers ce_port node m k : getBackendConfig range ce_port node = Ok m ->
  m !! k =
  match node_Annotations node !! (GatewayConfigPrefix +:+ k), node_Labels node !! (GatewayConfigPrefix +:+ k) with
  | Some v, _ => Some v
  | None, Some v => Some v
  | None, None =>
      if k =?? UDPPortConfig then Some (if ce_port =?? "" then "4500" else ce_port)
      else if k =?? NATTDiscoveryPortConfig then Some "4490"
      else None
  end.
Proof.
  unfold getBackendConfig, getNodeBackendConfig. intros Hm.
  apply bind_ok_inv in Hm as (m2 & Hm2 & Hm). apply bind_ok_inv in Hm2 as (m1 & Hm1 & Hm2).
  assert (H2 : forall k, m2 !! k = match node_Annotations node !! (GatewayConfigPrefix +:+ k),
    node_Labels node !! (GatewayConfigPrefix +:+ k) with
    | Some v, _ => Some v | None, Some v => Some v | None, None => None end).
  { intros k'. rewrite (addConfigFrom_spec _ _ _ k' Hm2), (addConfigFrom_spec _ _ _ k' Hm1), lookup_empty.
    by repeat case_match. }
  injection Hm as <-.
  assert (Hne : UDPPortConfig <> NATTDiscoveryPortConfig) by done.
  set (m3 := match m2 !! UDPPortConfig with Some _ => m2 | None => _ end).
  assert (H3 : m3 !! NATTDiscoveryPortConfig = m2 !! NATTDiscoveryPortConfig).
  { unfold m3. case_match; [done|]. by rewrite lookup_insert_ne. }
  rewrite H3. specialize (H2 k). destruct (decide (k = UDPPortConfig)) as [->|Hk1].
  - rewrite bool_decide_true by done.
    assert (Hudp : m3 !! UDPPortConfig = Some (default (if ce_port =?? "" then "4500" else ce_port) (m2 !! UDPPortConfig))).
    { unfold m3. destruct (m2 !! UDPPortConfig) eqn:Hu; [done|]. by rewrite lookup_insert_eq. }
    destruct (m2 !! NATTDiscoveryPortConfig); [|rewrite lookup_insert_ne by done];
      rewrite Hudp, H2; repeat case_match; done.
  - rewrite (bool_decide_false (k = UDPPortConfig)) by done.
    assert (Hk3 : m3 !! k = m2 !! k) by (unfold m3; destruct (m2 !! UDPPortConfig); [done|by apply lookup_insert_ne]).
    destruct (decide (k = NATTDiscoveryPortConfig)) as [->|Hk2].
    + rewrite bool_decide_true by done. destruct (m2 !! NATTDiscoveryPortConfig) eqn:Hn.
      * rewrite H3, H2. repeat case_match; simplify_eq; done.
      * rewrite lookup_insert_eq. repeat case_match; simplify_eq; done.
    + rewrite (bool_decide_false (k = NATTDiscoveryPortConfig)) by done.
      destruct (m2 !! NATTDiscoveryPortConfig); [|rewrite lookup_insert_ne by congruence];
        rewrite Hk3, H2; repeat case_match; done.
Qed.
End backend_layers.

(** * The private address *)
Section acceptable.
Context `{K8sNet}.
Context (Dial : string -> IPFamily -> result string Net.IP) (HostInterfaces : option (list Cni.HostInterface))
  (RouteList : IPFamily -> result string (list (Net.IP * Net.IP))).

Lemma same_interface_acceptable ip hs : forall owned, same_interface ip owned hs <> "" ->
  exists a, same_interface ip owned hs = Net.ip_string a /\ isAcceptableIPv6 a = true.
Proof.
  induction hs as [|h hs IH]; intros owned; [done|]. cbn [same_interface]. destruct (negb (IPFamilyOf _ =?? _)); [apply IH|].
  cbv zeta. destruct (_ && isAcceptableIPv6 (Cni.host_Addr h)) eqn:Ha; [|apply IH].
  apply andb_true_iff in Ha as [_ Ha]. eauto.
Qed.

Lemma first_route_acceptable routes s : first_route IPv6 routes = Some s ->
  exists a, s = Net.ip_string a /\ isAcceptableIPv6 a = true.
Proof.
  induction routes as [|[gw src] routes IH]; [done|]. cbn [first_route].
  destruct (negb (gw =?? []) && negb (src =?? [])); [|apply IH].
  destruct (isAcceptableIPv6 src) eqn:Ha; cbn; [|apply IH]. intros [= <-]. eauto.
Qed.

(** The private IPv6 address of the gateway is never a loopback or link-local
    address, nor the one OVN-Kubernetes reserves, whichever way it was found. *)
Lemma private_ip_acceptable dst s :
  GetLocalIPForDestination Dial HostInterfaces RouteList dst IPv6 = Ok s ->
  exists a, s = Net.ip_string a /\ isAcceptableIPv6 a = true.
Proof.
  assert (Hr : getLocalIPFromRoutes RouteList IPv6 = Ok s -> exists a, s = Net.ip_string a /\ isAcceptableIPv6 a = true).
  { unfold getLocalIPFromRoutes. destruct (RouteList IPv6) as [routes|e]; [|done].
    destruct (first_route IPv6 routes) as [s'|] eqn:Hf; [|done]. intros [= <-]. by apply first_route_acceptable in Hf. }
  unfold GetLocalIPForDestination. destruct (Dial dst IPv6) as [ip|e]; [|done]. cbn [orb bool_decide].
  rewrite (bool_decide_false (IPv6 = IPv4)) by done. cbn [orb].
  destruct (isAcceptableIPv6 ip) eqn:Ha; [intros [= <-]; eauto|].
  unfold getValidGlobalIPv6FromSameInterface. destruct HostInterfaces as [hs|]; [|done].
  case_bool_decide as Hs; cbn [negb]; [done|]. intros [= <-]. by apply same_interface_acceptable.
Qed.
End acceptable.
(** * Concrete instances *)
#[global] Instance ex_client : EndpointClient (gmap string EndpointSpec) := {
  ep_CreateOrUpdate o := fun a => (Ok tt, <[ep_name o := Spec o]> a);
  ep_MustUpdate n f := fun a =>
    match a !! n with
    | Some s => (Ok (f s), <[n := f s]> a)
    | None => (Err "not found", a)
    end;
}.

#[global] Instance ex_client_laws : EndpointClientLaws (gmap string EndpointSpec).
Proof.
  refine {| endpoints := fun a => a |}.
  - by intros o a a' [= <-].
  - by intros o a e a' [=].
  - intros n f a s a'. cbn. destruct (a !! n) as [s0|]; [|done]. intros [= <- <-]. by exists s0.
  - intros n f a e a'. cbn. destruct (a !! n) as [s0|]; [done|]. by intros [= _ <-].
Defined.

Definition ex_local_spec : EndpointSpec :=
  mkSpec "east" "submariner-cable-east-10-0-0-1" "" [] "node" ["10.1.0.0/16"] "" ["10.0.0.1"] "" ["1.2.3.4"] true
    "libreswan" ∅.

#[local] Existing Instance k8snet_ref.

Lemma set_public_keeps ips : keeps_name (OpUpdate (set_public_ips ips)).
Proof.
  intros s. unfold set_public_ips. revert s. induction ips as [|ip ips IH]; intros s; [done|]. cbn.
  destruct (IH (SetPublicIP ip s)) as [-> ->]. unfold SetPublicIP. by destruct (setIP _ _ _).
Qed.

Lemma local_matches_server_witness :
  let ops := [OpCreate; OpUpdate (set_public_ips ["5.6.7.8"])] in
  let w := run_ops (A := gmap string EndpointSpec) (fun s => s) ops (mkLW (NewLocal ex_local_spec) ∅) in
  Forall keeps_name ops /\ created (local w) = true /\ in_sync (fun s => s) w.
Proof.
  intros ops w. assert (Hops : Forall keeps_name ops).
  { repeat constructor; apply (set_public_keeps ["5.6.7.8"]). }
  split; [done|]. split; [vm_compute; reflexivity|].
  apply (local_matches_server (fun s => s) ex_local_spec ∅ ops Hops).
Defined.

Definition ex_gw_node : Node :=
  mkNode {[ "gateway.submariner.io/udp-port" := "4600" ]} {[ "gateway.submariner.io/natt-discovery-port" := "4601" ]}.

Lemma backend_config_layers_witness :
  exists m, getBackendConfig map_to_list "4700" ex_gw_node = Ok m /\
  m !! "udp-port" = Some "4600" /\ m !! "natt-discovery-port" = Some "4601".
Proof.
  destruct (getBackendConfig map_to_list "4700" ex_gw_node) as [m|e] eqn:Hm.
  2: { exfalso. assert (Ho : is_ok (getBackendConfig map_to_list "4700" ex_gw_node) = true) by (vm_compute; reflexivity).
       rewrite Hm in Ho. discriminate Ho. }
  exists m. split; [reflexivity|].
  split; rewrite (backend_config_layers map_to_list (fun m => Permutation_refl _) "4700" ex_gw_node m _ Hm); vm_compute; reflexivity.
Defined.

(** The dialled address is link-local: another one of the same interface is used. *)
Lemma private_ip_acceptable_witness :
  let ifs := Some [Cni.mkHost "eth0" (Net.ParseIP "fe80::1"); Cni.mkHost "eth0" (Net.ParseIP "2001:db8::5")] in
  exists s,
  GetLocalIPForDestination (fun _ _ => Ok (Net.ParseIP "fe80::1")) ifs (fun _ => Err "") "::" IPv6 = Ok s /\
  exists a, s = Net.ip_string a /\ isAcceptableIPv6 a = true.
Proof.
  intros ifs.
  assert (Ho : is_ok (GetLocalIPForDestination (fun _ _ => Ok (Net.ParseIP "fe80::1")) ifs (fun _ => Err "") "::" IPv6) = true)
    by (vm_compute; reflexivity).
  destruct (GetLocalIPForDestination (fun _ _ => Ok (Net.ParseIP "fe80::1")) ifs (fun _ => Err "") "::" IPv6)
    as [s|e] eqn:Hs; [|discriminate Ho].
  exists s. split; [reflexivity|]. apply (private_ip_acceptable _ _ _ _ _ Hs).
Defined.

End LocalEndpoint.
