(* ===== verification/DatastoreSyncer.v ===== *)
(** The datastore syncer (src/pkg/controllers/datastoresyncer): which endpoints
    of the broker are let into the local datastore, the exclusive local
    endpoint and cluster, the global address of the gateway as health-check
    address (gateway_handler.go) and the clean-up. *)
From stdpp Require Import base gmap list strings fin_maps relations.
From Stdlib Require String.
From Stdlib Require Import ZArith Lia.
From S2P Require Import Prelude GoNet K8s Cidr Endpoint PublicIP LocalEndpoint.
Local Open Scope Z_scope.

Module DatastoreSyncer.
Import Endpoint Cidr LocalEndpoint.

(** [v1.ClusterSpec] without its colour codes, which nothing reads. *)
Record ClusterSpec := mkCluster {
  cl_ClusterID : string;
  ServiceCIDR : list string;
  ClusterCIDR : list string;
  GlobalCIDR : list string;
}.

Inductive Operation := OpCreated | OpUpdated | OpDelete.

#[global] Instance Operation_eq_dec : EqDecision Operation.
Proof. solve_decision. Defined.

Inductive kind := KEndpoint | KCluster.

#[global] Instance kind_eq_dec : EqDecision kind.
Proof. solve_decision. Defined.
#[global] Instance kind_countable : Countable kind.
Proof.
  refine (inj_countable' (fun k => match k with KEndpoint => true | KCluster => false end)
            (fun b => if b : bool then KEndpoint else KCluster) _); by intros [].
Defined.

(** An unstructured object: its name and the field [spec.cluster_id]. *)
Record Unstructured := mkObj { u_name : string; u_cluster : string }.

Inductive del_error := NotFound | DelFailed (msg : string).

(** The datastores: admiral's syncer lists the local resources it has and
    distributes to and deletes from both sides; [client_List] lists a kind. *)
Class Datastore (S : Type) := {
  ListEndpoints : S -> list EndpointObj;
  ListClusters : S -> list ClusterSpec;
  store_local : EndpointObj -> S -> S;
  remove_local : string -> S -> S;
  client_List : kind -> eff S string (list Unstructured);
  local_Delete : kind -> string -> eff S del_error unit;
  broker_Delete : kind -> string -> eff S del_error unit;
  local_Distribute : string -> ClusterSpec -> eff S string unit;
}.

Section syncer.
Context {S : Type} `{!Datastore S} `{!EndpointClient S} `{K8sNet}.
Context (EnsureValidName : string -> string).

(** The local cluster, and whether [d.syncer] is set. *)
Record DatastoreSyncer := mkSyncer { localCluster : ClusterSpec; has_syncer : bool }.

(** * The endpoints of other clusters *)

(** The loop over the local subnets: an overlap or an error. *)
Fixpoint overlaps_local (remoteSubnets localSubnets : list string) : bool :=
  match localSubnets with
  | [] => false
  | localSubnet :: rest =>
      match IsOverlapping remoteSubnets localSubnet with
      | Err _ | Ok true => true
      | Ok false => overlaps_local remoteSubnets rest
      end
  end.

Fixpoint not_contained (allowed subnets : list string) : bool :=
  match subnets with
  | [] => false
  | subnet :: rest =>
      match IsContained allowed subnet with
      | Err _ | Ok false => true
      | Ok true => not_contained allowed rest
      end
  end.

Fixpoint overlaps_subnets (other subnets : list string) : bool :=
  match subnets with
  | [] => false
  | subnet :: rest =>
      match IsOverlapping other subnet with
      | Err _ | Ok true => true
      | Ok false => overlaps_subnets other rest
      end
  end.

Definition conflicts (d : DatastoreSyncer) (remoteEndpoint other : EndpointObj) : bool :=
  if (ClusterID (Spec other) =?? ClusterID (Spec remoteEndpoint)) ||
     (ClusterID (Spec other) =?? cl_ClusterID (localCluster d))
  then false
  else overlaps_subnets (Subnets (Spec other)) (Subnets (Spec remoteEndpoint)).

Definition allowed_cidrs (c : ClusterSpec) : list string := ServiceCIDR c ++ ClusterCIDR c ++ GlobalCIDR c.

(** [(rejected, requeue)] *)
Definition validateRemoteEndpointSubnets (d : DatastoreSyncer) (remoteEndpoint : EndpointObj) (s : S) : bool * bool :=
  if (Subnets (Spec remoteEndpoint) =?? []) || negb (has_syncer d) then (false, false)
  else
    match List.find (fun c => cl_ClusterID c =?? ClusterID (Spec remoteEndpoint)) (ListClusters s) with
    | None => (true, true)
    | Some remoteCluster =>
        if not_contained (allowed_cidrs remoteCluster) (Subnets (Spec remoteEndpoint)) then (true, false)
        else if existsb (conflicts d remoteEndpoint) (ListEndpoints s) then (true, false)
        else (false, false)
    end.

(** The object to store or delete locally, if any, and whether to try again. *)
Definition shouldSyncRemoteEndpoint (d : DatastoreSyncer) (localSpec : EndpointSpec) (obj : EndpointObj)
    (op : Operation) (s : S) : option EndpointObj * bool :=
  if op =?? OpDelete then (Some obj, false)
  else if overlaps_local (Subnets (Spec obj)) (Subnets localSpec) then (None, false)
  else
    let '(rejected, requeue) := validateRemoteEndpointSubnets d obj s in
    if rejected then (None, requeue) else (Some obj, false).

(** * The start *)
Definition on_store {B} (m : eff S string B) : eff (lworld S) local_error B := on_api m.

(** A deletion where a missing object is no error. *)
Definition delete_if_present (m : eff S del_error unit) : eff S string unit := fun s =>
  match m s with
  | (Err (DelFailed e), s') => (Err e, s')
  | (_, s') => (Ok tt, s')
  end.

Definition delete_stale (d : DatastoreSyncer) (localSpec : EndpointSpec) (existing : EndpointObj) : eff S string unit :=
  if negb (ClusterID (Spec existing) =?? cl_ClusterID (localCluster d)) then mret tt
  else if Equals (Some (Spec existing)) (Some localSpec) then mret tt
  else delete_if_present (local_Delete KEndpoint (ep_name existing)).

Definition ensureExclusiveEndpoint (d : DatastoreSyncer) (localSpec : EndpointSpec) : eff S string unit :=
  s ← getw;
  for_each (delete_stale d localSpec) (ListEndpoints s).

Definition createLocalCluster (d : DatastoreSyncer) : eff S string unit :=
  local_Distribute (EnsureValidName (cl_ClusterID (localCluster d))) (localCluster d).

Definition createOrUpdateLocalEndpoint : eff (lworld S) local_error unit := Create EnsureValidName.

(** [created], [started] and [watching] are the outcomes of making and starting
    the syncer and of starting the watcher of gateways. *)
Definition Start (created started watching : eff S string unit) (d : DatastoreSyncer) :
    eff (lworld S) local_error DatastoreSyncer :=
  _ ← on_store created;
  let d := mkSyncer (localCluster d) true in
  _ ← on_store started;
  w ← getw;
  _ ← on_store (ensureExclusiveEndpoint d (l_spec (local w)));
  _ ← on_store (createLocalCluster d);
  _ ← createOrUpdateLocalEndpoint;
  _ ← (match GlobalCIDR (localCluster d) with [] => mret tt | _ => on_store watching end);
  mret d.

(** * The clean-up *)
Definition cleanup_one (d : DatastoreSyncer) (k : kind) (obj : Unstructured) : eff S string unit :=
  _ ← delete_if_present (local_Delete k (u_name obj));
  if negb (u_cluster obj =?? cl_ClusterID (localCluster d)) then mret tt
  else delete_if_present (broker_Delete k (u_name obj)).

Definition cleanupResources (d : DatastoreSyncer) (k : kind) : eff S string unit :=
  list ← client_List k;
  for_each (cleanup_one d k) list.

Definition Cleanup (created : eff S string unit) (d : DatastoreSyncer) : eff S string unit :=
  _ ← created;
  _ ← cleanupResources d KEndpoint;
  cleanupResources d KCluster.

(** * The global address of the gateway (gateway_handler.go) *)
Definition areGatewaysEquivalent (globalIP1 globalIP2 : string) : bool := globalIP1 =?? globalIP2.

(** [true]: the update is to be tried again. *)
Definition updateLocalEndpointIfNecessary (globalIP : string) : eff (lworld S) local_error bool :=
  w ← getw;
  if negb (GetHealthCheckIP (l_spec (local w)) IPv4 =?? globalIP) then
    r ← attempt (Update EnsureValidName (SetHealthCheckIP globalIP));
    match r : result local_error unit with
    | Ok _ => mret false
    | Err (LocalPanic e) => fail (LocalPanic e)
    | Err _ => mret true
    end
  else mret false.

(** [globalIP] is the annotation of the gateway.  Reading [GlobalCIDR[0]] of a
    cluster without global CIDR panics. *)
Definition handleCreateOrUpdateGateway (d : DatastoreSyncer) (globalIP : string) : eff (lworld S) local_error bool :=
  if negb (globalIP =?? "") then
    match GlobalCIDR (localCluster d) with
    | [] => fail (LocalAPI "panic: index out of range")
    | cidr :: _ =>
        match Net.ParseCIDR cidr with
        | None => mret false
        | Some ipnet =>
            if Net.Contains ipnet (Net.ParseIP globalIP) then updateLocalEndpointIfNecessary globalIP
            else mret false
        end
    end
  else mret false.
End syncer.

(** * Which endpoints are accepted *)
Section loops.
Implicit Types (l locals allowed subnets other : list string).

Lemma overlaps_local_false l locals : overlaps_local l locals = false ->
  forall u v, u ∈ locals -> v ∈ l -> ~ share u v.
Proof.
  induction locals as [|u0 locals IH]; cbn; [by intros _ u v Hu; apply elem_of_nil in Hu|].
  destruct (IsOverlapping l u0) as [[]|] eqn:Ho; [done| |done]. intros Hl u v [->|Hu]%elem_of_cons Hv; [|by apply IH].
  by apply (IsOverlapping_false l u0 Ho).
Qed.

Lemma overlaps_local_true l locals : all_parse l -> all_parse locals ->
  overlaps_local l locals = true -> exists u v, u ∈ locals /\ v ∈ l /\ share u v.
Proof.
  intros Hl. induction 1 as [|u locals Hu Hls IH]; cbn; [done|].
  destruct (overlapping_parsed l u Hu Hl) as (r & -> & Hiff). destruct r.
  - intros _. destruct Hiff as [Hs _]. destruct (Hs eq_refl) as (v & Hv & Huv). exists u, v. split; [left|done].
  - intros Ht. destruct (IH Ht) as (u' & v & Hu' & Hv). exists u', v. split; [by right|done].
Qed.

Lemma overlaps_subnets_local other subnets : overlaps_subnets other subnets = overlaps_local other subnets.
Proof. induction subnets as [|u subnets IH]; cbn; [done|]. by rewrite IH. Qed.

Lemma not_contained_false allowed subnets : not_contained allowed subnets = false ->
  forall u, u ∈ subnets -> exists o, o ∈ allowed /\ inside u o.
Proof.
  induction subnets as [|u0 subnets IH]; cbn; [by intros _ u Hu; apply elem_of_nil in Hu|].
  destruct (IsContained allowed u0) as [[]|] eqn:Ho; [|done..]. intros Hl u [->|Hu]%elem_of_cons; [|by apply IH].
  by apply IsContained_true.
Qed.

Lemma not_contained_true allowed subnets : all_parse allowed -> all_parse subnets ->
  not_contained allowed subnets = true -> exists u, u ∈ subnets /\ forall o, o ∈ allowed -> ~ inside u o.
Proof.
  intros Ha. induction 1 as [|u subnets [n Hn] Hls IH]; cbn; [done|]. unfold IsContained. rewrite Hn.
  destruct (contain_loop_spec allowed u n Hn Ha) as (r & -> & Hiff). destruct r.
  - intros Ht. destruct (IH Ht) as (u' & Hu' & Hno). exists u'. split; [by right|done].
  - intros _. exists u. split; [left|]. intros o Ho Hi. destruct Hiff as [_ Hiff]. discriminate Hiff. by exists o.
Qed.
End loops.

Section accept.
Context {S : Type} `{!Datastore S}.
Context (d : DatastoreSyncer) (localSpec : EndpointSpec).
Implicit Types (s : S) (ep e : EndpointObj).

(** A cluster other than the local one. *)
Definition remote e : Prop := ClusterID (Spec e) <> cl_ClusterID (localCluster d).

Definition disjoint_subnets (l l' : list string) : Prop := forall u v, u ∈ l -> v ∈ l' -> ~ share u v.

(** What is checked about an endpoint with subnets. *)
Record acceptable s ep : Prop := {
  acc_local : disjoint_subnets (Subnets localSpec) (Subnets (Spec ep));
  acc_declared : Subnets (Spec ep) <> [] -> exists c, c ∈ ListClusters s /\
    cl_ClusterID c = ClusterID (Spec ep) /\
    forall u, u ∈ Subnets (Spec ep) -> exists o, o ∈ allowed_cidrs c /\ inside u o;
  acc_others : forall e, e ∈ ListEndpoints s -> remote e -> ClusterID (Spec e) <> ClusterID (Spec ep) ->
    disjoint_subnets (Subnets (Spec ep)) (Subnets (Spec e));
}.

Lemma conflicts_false ep e : conflicts d ep e = false -> remote e -> ClusterID (Spec e) <> ClusterID (Spec ep) ->
  disjoint_subnets (Subnets (Spec ep)) (Subnets (Spec e)).
Proof.
  unfold conflicts, remote. intros Hc Hr Hne. rewrite !bool_decide_false in Hc by done. cbn in Hc.
  rewrite overlaps_subnets_local in Hc. intros u v Hu Hv. by apply (overlaps_local_false _ _ Hc).
Qed.

Lemma should_sync_acceptable ep ep' op s : has_syncer d = true -> op <> OpDelete ->
  shouldSyncRemoteEndpoint d localSpec ep op s = (Some ep', false) -> ep' = ep /\ acceptable s ep.
Proof.
  intros Hd Hop. unfold shouldSyncRemoteEndpoint, validateRemoteEndpointSubnets.
  rewrite bool_decide_false, Hd, orb_false_r by done.
  destruct (overlaps_local _ _) eqn:Hl; [done|].
  destruct (decide (Subnets (Spec ep) = [])) as [Hnil|Hnil]; [rewrite bool_decide_true by done|rewrite bool_decide_false by done].
  - intros [= <-]. split; [done|]. split; [exact (overlaps_local_false _ _ Hl)|done|]. intros e _ _ _ u v Hu.
    rewrite Hnil in Hu. by apply elem_of_nil in Hu.
  - destruct (List.find _ _) as [c|] eqn:Hf; [|done]. apply List.find_some in Hf as [Hin Hid].
    destruct (not_contained _ _) eqn:Hn; [done|]. destruct (existsb _ _) eqn:He; [done|]. intros [= <-].
    split; [done|]. split; [exact (overlaps_local_false _ _ Hl)| |].
    + intros _. exists c. split; [by apply list_elem_of_In|]. apply bool_decide_eq_true in Hid.
      split; [done|]. by apply not_contained_false.
    + intros e Hin' Hr Hne. apply conflicts_false; [|done..]. apply not_true_iff_false. intros Hc.
      apply not_true_iff_false in He. apply He, List.existsb_exists. exists e. split; [by apply list_elem_of_In|done].
Qed.
End accept.

(** * The accepted endpoints *)
(** What a resource that was let in does to the resources listed; the list of
    local resources is taken to be up to date. *)
Class DatastoreLaws (S : Type) `{!Datastore S} := {
  list_stored : forall ep e s, e ∈ ListEndpoints (store_local ep s) -> e = ep \/ e ∈ ListEndpoints s;
  list_removed : forall n e s, e ∈ ListEndpoints (remove_local n s) -> e ∈ ListEndpoints s;
}.

Section invariant.
Context {S : Type} `{!Datastore S} `{!DatastoreLaws S}.
Context (d : DatastoreSyncer) (localSpec : EndpointSpec).

(** The events that change the local resources: endpoints of the broker, and
    whatever else changes clusters and the endpoints of the local cluster. *)
Inductive sync_step : S -> S -> Prop :=
| step_store s ep op ep' : op <> OpDelete ->
    shouldSyncRemoteEndpoint d localSpec ep op s = (Some ep', false) -> sync_step s (store_local ep' s)
| step_remove s ep ep' requeue :
    shouldSyncRemoteEndpoint d localSpec ep OpDelete s = (Some ep', requeue) ->
    sync_step s (remove_local (ep_name ep') s)
| step_other s s' : (forall e, e ∈ ListEndpoints s' -> remote d e -> e ∈ ListEndpoints s) -> sync_step s s'.

Record disjoint_endpoints (s : S) : Prop := {
  de_local : forall e, e ∈ ListEndpoints s -> remote d e ->
    disjoint_subnets (Subnets localSpec) (Subnets (Spec e));
  de_others : forall e e', e ∈ ListEndpoints s -> e' ∈ ListEndpoints s -> remote d e -> remote d e' ->
    ClusterID (Spec e) <> ClusterID (Spec e') -> disjoint_subnets (Subnets (Spec e)) (Subnets (Spec e'));
}.

Lemma disjoint_subset (s s' : S) : (forall e, e ∈ ListEndpoints s' -> remote d e -> e ∈ ListEndpoints s) ->
  disjoint_endpoints s -> disjoint_endpoints s'.
Proof. intros Hsub [Hl Ho]. split; intros; [apply Hl|apply Ho]; auto. Qed.

Lemma sync_step_disjoint (s s' : S) : has_syncer d = true -> sync_step s s' ->
  disjoint_endpoints s -> disjoint_endpoints s'.
Proof.
  intros Hd [? ep op ep' Hop Hsync|? ep ep' rq Hsync|? ? Hsub] Hs.
  - apply (should_sync_acceptable d localSpec) in Hsync as [-> [Hl _ Ho]]; [|done..]. destruct Hs as [Hsl Hso].
    split; intros e.
    + intros [->|He]%list_stored Hr; [done|by apply Hsl].
    + intros e' [->|He]%list_stored [->|He']%list_stored Hr Hr' Hne; [done|by apply Ho| |by apply Hso].
      intros u v Hu Hv Huv. apply share_sym in Huv. by apply (Ho e He Hr Hne v u).
  - eapply disjoint_subset, Hs. by intros e He%list_removed _.
  - by eapply disjoint_subset.
Qed.

(** C10: Whatever endpoints the broker offers, updates and removes, and however the
    cluster objects change meanwhile, the endpoints of other clusters in the local
    datastore never share an address with the local subnets, nor do those of two
    different clusters with each other. *)
Theorem accepted_endpoints_disjoint (s s' : S) : has_syncer d = true ->
  (forall e, e ∈ ListEndpoints s -> ~ remote d e) -> rtc sync_step s s' -> disjoint_endpoints s'.
Proof.
  intros Hd Hnone Hsteps. assert (Hs : disjoint_endpoints s) by (split; intros; exfalso; by eapply Hnone).
  clear Hnone. induction Hsteps as [|s s1 s2 Hstep _ IH]; [done|]. apply IH. by apply (sync_step_disjoint s).
Qed.

(** The cluster an endpoint is checked against. *)
Definition cluster_of (ep : EndpointObj) (s : S) : option ClusterSpec :=
  List.find (fun c => cl_ClusterID c =?? ClusterID (Spec ep)) (ListClusters s).

(** C23: An endpoint of the broker with subnets, once its cluster is known, is
    stored exactly when its subnets share no address with the local ones or with
    those of the other remote clusters and lie within the CIDRs that its cluster
    declares; it is tried again only while the cluster is not known. *)
Theorem accepts_exactly ep op (s : S) : has_syncer d = true -> op <> OpDelete -> Subnets (Spec ep) <> [] ->
  all_parse (Subnets localSpec) -> all_parse (Subnets (Spec ep)) ->
  (forall e, e ∈ ListEndpoints s -> all_parse (Subnets (Spec e))) ->
  (forall c, c ∈ ListClusters s -> all_parse (ServiceCIDR c ++ ClusterCIDR c ++ GlobalCIDR c)) ->
  (shouldSyncRemoteEndpoint d localSpec ep op s = (Some ep, false) <->
   disjoint_subnets (Subnets localSpec) (Subnets (Spec ep)) /\
   (exists c, cluster_of ep s = Some c /\
      forall u, u ∈ Subnets (Spec ep) -> exists o, o ∈ ServiceCIDR c ++ ClusterCIDR c ++ GlobalCIDR c /\ inside u o) /\
   (forall e, e ∈ ListEndpoints s -> remote d e -> ClusterID (Spec e) <> ClusterID (Spec ep) ->
      disjoint_subnets (Subnets (Spec ep)) (Subnets (Spec e)))) /\
  (shouldSyncRemoteEndpoint d localSpec ep op s = (None, true) <->
   disjoint_subnets (Subnets localSpec) (Subnets (Spec ep)) /\ cluster_of ep s = None).
Proof.
  intros Hd Hop Hne Hpl Hpe Hpo Hpc.
  unfold shouldSyncRemoteEndpoint, validateRemoteEndpointSubnets, cluster_of.
  rewrite (bool_decide_false (op = _)), (bool_decide_false (Subnets (Spec ep) = _)), Hd by done. cbn [negb orb].
  destruct (overlaps_local _ _) eqn:Hl.
  { apply overlaps_local_true in Hl as (u & v & Hu & Hv & Huv); [|done..].
    split; (split; [done|]); intros [Hdis _]; exfalso; by apply (Hdis u v). }
  pose proof (overlaps_local_false _ _ Hl) as Hdis.
  destruct (List.find _ _) as [c|] eqn:Hf.
  2: { split; (split; [|]); try done. by intros (_ & (c & Hc & _) & _). }
  split; [|split; [destruct (not_contained _ _), (existsb (conflicts d ep) (ListEndpoints s)); done|by intros [_ [=]]]].
  assert (Hpcc : all_parse (allowed_cidrs c)).
  { apply List.find_some in Hf as [Hin _]. by apply Hpc, list_elem_of_In. }
  destruct (not_contained _ _) eqn:Hn.
  { split; [done|]. intros (_ & (c' & [= <-] & Hin) & _).
    apply not_contained_true in Hn as (u & Hu & Hno); [|done..]. destruct (Hin u Hu) as (o & Ho & Hi).
    by destruct (Hno o Ho). }
  pose proof (not_contained_false _ _ Hn) as Hin.
  destruct (existsb _ _) eqn:He.
  - split; [done|]. intros (_ & _ & Hoth). apply List.existsb_exists in He as (e & He%list_elem_of_In & Hc).
    unfold conflicts in Hc. destruct (_ || _) eqn:Hids in Hc; [done|]. bool_props.
    rewrite overlaps_subnets_local in Hc. apply overlaps_local_true in Hc as (u & v & Hu & Hv & Huv); [|auto..].
    by destruct (Hoth e He ltac:(done) ltac:(done) u v Hu Hv).
  - split; [|done]. intros _. split; [done|]. split; [by exists c|]. intros e Hin' Hr Hne'.
    apply (conflicts_false d); [|done..]. apply not_true_iff_false. intros Hc. apply not_true_iff_false in He.
    apply He, List.existsb_exists. exists e. split; [by apply list_elem_of_In|done].
Qed.
End invariant.

(** * The clean-up *)
(** The cluster of each resource in the two datastores.  An object is listed once
    and a failed deletion changes nothing. *)
Class ResourceLaws (S : Type) `{!Datastore S} := {
  locals : S -> gmap (kind * string) string;
  brokers : S -> gmap (kind * string) string;
  client_list_ok : forall k s r s', client_List k s = (r, s') ->
    locals s' = locals s /\ brokers s' = brokers s /\
    forall l, r = Ok l -> NoDup (u_name <$> l) /\
      forall n c, mkObj n c ∈ l <-> locals s !! (k, n) = Some c;
  local_delete_ok : forall k n s r s', local_Delete k n s = (r, s') ->
    brokers s' = brokers s /\
    locals s' = match r with Err (DelFailed _) => locals s | _ => delete (k, n) (locals s) end;
  broker_delete_ok : forall k n s r s', broker_Delete k n s = (r, s') ->
    locals s' = locals s /\
    brokers s' = match r with Err (DelFailed _) => brokers s | _ => delete (k, n) (brokers s) end;
}.

Section cleanup.
Context {S : Type} `{!Datastore S} `{!ResourceLaws S}.
Context (d : DatastoreSyncer).
Implicit Types (s : S).

Lemma delete_if_present_inv (m : eff S del_error unit) s r s' : delete_if_present m s = (r, s') ->
  exists r0, m s = (r0, s') /\ (r = Ok tt <-> forall e, r0 <> Err (DelFailed e)).
Proof.
  unfold delete_if_present. destruct (m s) as [[[]|[|e]] s1]; intros [= <- <-]; (eexists; split; [done|]); split; try done.
  intros Hno. by destruct (Hno e).
Qed.

(** What a part of the clean-up of one kind may change. *)
Record cleaned (k : kind) s0 s : Prop := {
  cl_kind : forall k' n, k' <> k -> locals s !! (k', n) = locals s0 !! (k', n) /\ brokers s !! (k', n) = brokers s0 !! (k', n);
  cl_locals : forall key, locals s !! key = locals s0 !! key \/ locals s !! key = None;
  cl_brokers : forall key, brokers s !! key = brokers s0 !! key \/
    (locals s0 !! key = Some (cl_ClusterID (localCluster d)) /\ brokers s !! key = None);
}.

#[local] Instance cleaned_preorder k : PreOrder (cleaned k).
Proof.
  split; [intros s; by split; auto|]. intros s0 s1 s2 [Hk1 Hl1 Hb1] [Hk2 Hl2 Hb2]. split.
  - intros k' n Hne. destruct (Hk1 k' n Hne) as [<- <-]. by apply Hk2.
  - intros key. destruct (Hl2 key) as [->| ->]; auto.
  - intros key. destruct (Hb2 key) as [->|[Hl ->]]; [apply Hb1|right; split; [|done]].
    destruct (Hl1 key) as [<-|Hn]; [done|congruence].
Qed.

Lemma local_deleted k n s r s' : delete_if_present (local_Delete k n) s = (r, s') ->
  cleaned k s s' /\ brokers s' = brokers s /\ (forall n', n' <> n -> locals s' !! (k, n') = locals s !! (k, n')) /\
  (r = Ok tt -> locals s' !! (k, n) = None).
Proof.
  intros Hd. apply delete_if_present_inv in Hd as (r0 & Hm & Hr). apply local_delete_ok in Hm as [Hb Hl].
  assert (Hl' : locals s' = locals s \/ locals s' = delete (k, n) (locals s)) by (rewrite Hl; destruct r0 as [|[]]; auto).
  split; [split|split; [done|split]].
  - intros k' n' Hne. rewrite Hb. split; [|done]. destruct Hl' as [->| ->]; [done|]. apply lookup_delete_ne. congruence.
  - intros key. destruct Hl' as [->| ->]; [by left|]. destruct (decide ((k, n) = key)) as [<-|Hne].
    + right. apply lookup_delete_eq.
    + left. by apply lookup_delete_ne.
  - intros key. left. by rewrite Hb.
  - intros n' Hne. destruct Hl' as [->| ->]; [done|]. apply lookup_delete_ne. congruence.
  - intros ->. destruct Hr as [Hr _]. specialize (Hr eq_refl). rewrite Hl. destruct r0 as [|[|e]]; [|..]; try apply lookup_delete_eq.
    by destruct (Hr e).
Qed.

Lemma cleanup_one_spec k o s r s' : locals s !! (k, u_name o) = Some (u_cluster o) -> cleanup_one d k o s = (r, s') ->
  cleaned k s s' /\ (forall n, n <> u_name o -> locals s' !! (k, n) = locals s !! (k, n)) /\
  (r = Ok tt -> locals s' !! (k, u_name o) = None /\
    (u_cluster o = cl_ClusterID (localCluster d) -> brokers s' !! (k, u_name o) = None)).
Proof.
  intros Ho. unfold cleanup_one. intros Hc.
  apply eff_bind_inv in Hc as [([] & s1 & Hld & Hc)|(e & Hld & ->)].
  2: { apply local_deleted in Hld as (Hcl & _ & Hn & _). done. }
  apply local_deleted in Hld as (Hcl & Hb & Hn & Hgone). specialize (Hgone eq_refl).
  destruct (decide (u_cluster o = cl_ClusterID (localCluster d))) as [Hid|Hid];
    [rewrite bool_decide_true in Hc by done|rewrite bool_decide_false in Hc by done]; cbn [negb] in Hc.
  2: { injection Hc as <- <-. split; [done|]. split; [done|]. intros _. by split. }
  apply delete_if_present_inv in Hc as (r0 & Hm & Hr). apply broker_delete_ok in Hm as [Hl' Hb'].
  assert (Hbs : brokers s' = brokers s \/ brokers s' = delete (k, u_name o) (brokers s))
    by (rewrite Hb', Hb; destruct r0 as [|[]]; auto).
  split; [split|split].
  - intros k' n Hne. rewrite Hl'. destruct (cl_kind _ _ _ Hcl k' n Hne) as [-> _]. split; [done|].
    destruct Hbs as [->| ->]; [done|]. apply lookup_delete_ne. congruence.
  - intros key. rewrite Hl'. apply (cl_locals _ _ _ Hcl).
  - intros key. destruct Hbs as [->| ->]; [by left|]. destruct (decide ((k, u_name o) = key)) as [<-|Hne].
    + right. split; [congruence|apply lookup_delete_eq].
    + left. by apply lookup_delete_ne.
  - intros n Hne. rewrite Hl'. by apply Hn.
  - intros ->. rewrite Hl'. split; [done|]. intros _. destruct Hr as [Hr _]. specialize (Hr eq_refl).
    rewrite Hb'. destruct r0 as [|[|e]]; [|..]; try apply lookup_delete_eq. by destruct (Hr e).
Qed.

Lemma cleanup_loop_spec k l : forall s r s', NoDup (u_name <$> l) ->
  (forall o, o ∈ l -> locals s !! (k, u_name o) = Some (u_cluster o)) ->
  for_each (cleanup_one d k) l s = (r, s') ->
  cleaned k s s' /\ (r = Ok tt -> forall o, o ∈ l -> locals s' !! (k, u_name o) = None /\
    (u_cluster o = cl_ClusterID (localCluster d) -> brokers s' !! (k, u_name o) = None)).
Proof.
  induction l as [|o l IH]; intros s r s' Hnd Hin Hrun; cbn [for_each] in Hrun.
  { injection Hrun as <- <-. split; [done|]. intros _ o Ho. by apply elem_of_nil in Ho. }
  rewrite fmap_cons in Hnd. apply NoDup_cons in Hnd as [Hno Hnd].
  apply eff_bind_inv in Hrun as [([] & s1 & Hone & Hrun)|(e & Hone & ->)].
  2: { apply cleanup_one_spec in Hone as (Hc & _ & _); [|apply Hin; left]. by split. }
  apply cleanup_one_spec in Hone as (Hc & Hother & Hgone); [|apply Hin; left]. destruct (Hgone eq_refl) as [Hl Hb].
  apply IH in Hrun as [Hc' Hrest]; [|done|].
  2: { intros o' Ho'. rewrite Hother; [apply Hin; by right|]. intros Heq. apply Hno. rewrite <- Heq.
       by apply list_elem_of_fmap_2. }
  split; [by etrans|]. intros -> o' [->|Ho']%elem_of_cons; [|by apply Hrest]. split.
  - destruct (cl_locals _ _ _ Hc' (k, u_name o)) as [->|]; done.
  - intros Hid. destruct (cl_brokers _ _ _ Hc' (k, u_name o)) as [->|[_ ->]]; auto.
Qed.

Lemma cleanup_kind_spec k s r s' : cleanupResources d k s = (r, s') ->
  cleaned k s s' /\ (r = Ok tt -> forall n, locals s' !! (k, n) = None /\
    (locals s !! (k, n) = Some (cl_ClusterID (localCluster d)) -> brokers s' !! (k, n) = None)).
Proof.
  unfold cleanupResources. intros Hrun.
  apply eff_bind_inv in Hrun as [(l & s1 & Hl & Hrun)|(e & Hl & ->)]; apply client_list_ok in Hl as (Hls & Hbs & Hspec).
  2: { split; [|done]. split; intros; rewrite ?Hls, ?Hbs; auto. }
  destruct (Hspec l eq_refl) as [Hnd Hin].
  assert (Hc1 : cleaned k s s1) by (split; intros; rewrite ?Hls, ?Hbs; auto).
  apply cleanup_loop_spec in Hrun as [Hc Hok]; [|done|].
  2: { intros [n c] Ho. rewrite Hls. by apply Hin. }
  split; [by etrans|]. intros Hr n. specialize (Hok Hr). destruct (locals s !! (k, n)) as [c|] eqn:Hn.
  - destruct (Hok (mkObj n c)) as [Hgone Hb]; [by apply Hin|]. split; [done|]. intros [= ->]. by apply Hb.
  - split; [|done]. destruct (cl_locals _ _ _ Hc (k, n)) as [->|]; [by rewrite Hls|done].
Qed.

(** C24: A finished clean-up has removed every endpoint and cluster from the local
    datastore, and from the broker those of the local cluster.  Finished or not, it
    never takes a resource of another cluster from the broker. *)
Theorem cleanup_exact created s r s' : (forall s, locals (created s).2 = locals s /\ brokers (created s).2 = brokers s) ->
  Cleanup created d s = (r, s') ->
  (forall key, locals s !! key <> Some (cl_ClusterID (localCluster d)) -> brokers s' !! key = brokers s !! key) /\
  (r = Ok tt -> forall key, locals s' !! key = None /\
    (locals s !! key = Some (cl_ClusterID (localCluster d)) -> brokers s' !! key = None)).
Proof.
  intros Hcr. unfold Cleanup. specialize (Hcr s). destruct Hcr as [Hl0 Hb0]. intros Hrun.
  apply eff_bind_inv in Hrun as [([] & s1 & Hc & Hrun)|(e & Hc & ->)]; rewrite Hc in Hl0, Hb0; cbn in Hl0, Hb0;
    [|split; [by intros; rewrite Hb0|done]]. rewrite <- Hl0, <- Hb0. clear Hl0 Hb0 Hc.
  apply eff_bind_inv in Hrun as [([] & s2 & He & Hrun)|(e & He & ->)]; apply cleanup_kind_spec in He as [Hc1 Hok1].
  2: { split; [|done]. intros key Hne. destruct (cl_brokers _ _ _ Hc1 key) as [|[? _]]; done. }
  apply cleanup_kind_spec in Hrun as [Hc2 Hok2]. specialize (Hok1 eq_refl). split.
  - intros key Hne. destruct (cl_brokers _ _ _ Hc2 key) as [->|[Hl _]].
    + destruct (cl_brokers _ _ _ Hc1 key) as [|[? _]]; done.
    + destruct (cl_locals _ _ _ Hc1 key) as [Heq|Heq]; congruence.
  - intros Hr [k n]. specialize (Hok2 Hr n). destruct k.
    + destruct (cl_kind _ _ _ Hc2 KEndpoint n) as [-> ->]; [done|]. apply Hok1.
    + destruct (cl_kind _ _ _ Hc1 KCluster n) as [<- _]; [done|]. apply Hok2.
Qed.
End cleanup.

(** * The exclusive local endpoint *)
Class ExclusiveLaws (S : Type) `{!Datastore S} := {
  list_unique : forall s e e', e ∈ ListEndpoints s -> e' ∈ ListEndpoints s -> ep_name e = ep_name e' -> e = e';
  list_deleted : forall n s r s', local_Delete KEndpoint n s = (r, s') -> (forall m, r <> Err (DelFailed m)) ->
    forall e, e ∈ ListEndpoints s' <-> e ∈ ListEndpoints s /\ ep_name e <> n;
}.

Section exclusive.
Context {S : Type} `{!Datastore S} `{!ExclusiveLaws S}.
Context (d : DatastoreSyncer) (localSpec : EndpointSpec).

Definition stale (e : EndpointObj) : Prop :=
  ~ remote d e /\ Equals (Some (Spec e)) (Some localSpec) = false.

Lemma delete_stale_spec e (s s' : S) : delete_stale d localSpec e s = (Ok tt, s') ->
  forall x, x ∈ ListEndpoints s' <-> x ∈ ListEndpoints s /\ ~ (stale e /\ ep_name x = ep_name e).
Proof.
  unfold delete_stale, stale, remote. case_bool_decide as Hid; cbn [negb].
  2: { intros [= <-] x. naive_solver. }
  destruct (Equals _ _) eqn:Heq; [intros [= <-] x; naive_solver|].
  unfold delete_if_present. destruct (local_Delete KEndpoint (ep_name e) s) as [r s1] eqn:Hd. intros Hr x.
  assert (Hok : (forall m, r <> Err (DelFailed m)) /\ s1 = s') by (destruct r as [[]|[|m]]; simplify_eq; done).
  destruct Hok as [Hok <-]. rewrite (list_deleted _ _ _ _ Hd Hok x). naive_solver.
Qed.

Lemma delete_stale_loop l : forall s s' : S, for_each (delete_stale d localSpec) l s = (Ok tt, s') ->
  forall x, x ∈ ListEndpoints s' <->
    x ∈ ListEndpoints s /\ forall e, e ∈ l -> ~ (stale e /\ ep_name x = ep_name e).
Proof.
  induction l as [|e l IH]; intros s s' Hrun x; cbn [for_each] in Hrun.
  { injection Hrun as <-. split; [|by intros []]. intros Hx. split; [done|]. intros e He. by apply elem_of_nil in He. }
  apply eff_bind_inv in Hrun as [([] & s1 & Hone & Hrun)|(e' & _ & [=])].
  rewrite (IH _ _ Hrun x), (delete_stale_spec _ _ _ Hone x). setoid_rewrite elem_of_cons. naive_solver.
Qed.

(** After [ensureExclusiveEndpoint] the local datastore has exactly the
    endpoints it had, except those of the local cluster that differ from the local
    endpoint: no second gateway of the cluster is left, no other cluster's
    endpoint is lost. *)
Lemma exclusive_endpoint (s s' : S) : ensureExclusiveEndpoint d localSpec s = (Ok tt, s') ->
  forall e, e ∈ ListEndpoints s' <-> e ∈ ListEndpoints s /\ ~ stale e.
Proof.
  unfold ensureExclusiveEndpoint. intros Hrun e.
  apply eff_bind_inv in Hrun as [(s0 & s1 & Hg & Hrun)|(e' & _ & [=])]. injection Hg as <- <-.
  rewrite (delete_stale_loop _ _ _ Hrun e). split.
  - intros [He Hno]. split; [done|]. intros Hs. by apply (Hno e).
  - intros [He Hs]. split; [done|]. intros e' He' [Hs' Hn]. apply Hs. by rewrite (list_unique _ _ _ He He' Hn).
Qed.
End exclusive.

(** * The health-check address under globalnet *)
Section health.
Context {S : Type} `{!EndpointClient S} `{!EndpointClientLaws S} `{K8sNet}.
Context (EnsureValidName : string -> string) (d : DatastoreSyncer).

Lemma SetHealthCheckIP_get ip s : IPFamilyOfString ip = IPv4 -> ip <> "" ->
  GetHealthCheckIP (SetHealthCheckIP ip s) IPv4 = ip.
Proof.
  intros Hf Hne. unfold GetHealthCheckIP, SetHealthCheckIP.
  pose proof (setIP_getIP (HealthCheckIPs s) (HealthCheckIP s) ip IPv4 Hf ltac:(done) Hne) as Hs.
  destruct (setIP _ _ _) as [ips fb]. apply Hs.
Qed.

Lemma SetHealthCheckIP_keeps ip : keeps_name (OpUpdate (SetHealthCheckIP ip)).
Proof. intros s. unfold SetHealthCheckIP. by destruct (setIP _ _ _). Qed.

Lemma update_health_get ip (w w' : lworld S) : IPFamilyOfString ip = IPv4 -> ip <> "" ->
  Update EnsureValidName (SetHealthCheckIP ip) w = (Ok tt, w') -> GetHealthCheckIP (l_spec (local w')) IPv4 = ip.
Proof.
  intros Hf Hne. unfold Update. intros Hu.
  apply eff_bind_inv in Hu as [(w0 & w1 & Hg & Hu)|(e & _ & [=])]. injection Hg as <- <-. cbv zeta in Hu.
  destruct (created (local w)).
  - apply eff_bind_inv in Hu as [(o & w1 & _ & Hu)|(e & _ & [=])].
    apply eff_bind_inv in Hu as [(s & w2 & Ha & Hu)|(e & _ & [=])]. injection Hu as <-. cbn.
    unfold on_api in Ha. destruct (ep_MustUpdate _ _ _) as [[s'|e] a] eqn:Hm; cbn in Ha; simplify_eq; cbn.
    apply ep_update_ok in Hm as (s0 & _ & -> & _). by apply SetHealthCheckIP_get.
  - injection Hu as <-. by apply SetHealthCheckIP_get.
Qed.

(** Once a gateway with a global address of the cluster was handled without
    asking for another attempt, the local endpoint is checked at that address, in
    the local copy and, when it was created, in the API server. *)
Lemma gateway_health_address cidr rest ipnet globalIP (w w' : lworld S) :
  GlobalCIDR (localCluster d) = cidr :: rest -> Net.ParseCIDR cidr = Some ipnet ->
  Net.Contains ipnet (Net.ParseIP globalIP) = true -> IPFamilyOfString globalIP = IPv4 -> globalIP <> "" ->
  in_sync EnsureValidName w -> handleCreateOrUpdateGateway EnsureValidName d globalIP w = (Ok false, w') ->
  GetHealthCheckIP (l_spec (local w')) IPv4 = globalIP /\ in_sync EnsureValidName w'.
Proof.
  intros Hg Hp Hc Hf Hne Hs. unfold handleCreateOrUpdateGateway. rewrite Hg, Hp, Hc, bool_decide_false by done.
  cbn [negb]. unfold updateLocalEndpointIfNecessary. intros Hu.
  apply eff_bind_inv in Hu as [(w0 & w1 & Hget & Hu)|(e & _ & [=])]. injection Hget as <- <-.
  case_bool_decide as Hip; cbn [negb] in Hu; [by injection Hu as <-|].
  apply eff_bind_inv in Hu as [(r & w1 & Ha & Hu)|(e & _ & [=])].
  apply attempt_inv in Ha as (r0 & [= <-] & Ha).
  destruct r as [[]|[e|e]]; [|done..]. injection Hu as <-. split; [by eapply update_health_get|].
  pose proof (update_sync EnsureValidName (SetHealthCheckIP globalIP) w (SetHealthCheckIP_keeps _) Hs) as Hs'.
  by rewrite Ha in Hs'.
Qed.
End health.

(** * A concrete datastore *)
Record ex_store := mkStore {
  xe : gmap string (Z * EndpointSpec);
  xc : list ClusterSpec;
  xl : gmap (kind * string) string;
  xb : gmap (kind * string) string;
}.

Definition ex_endpoint (p : string * (Z * EndpointSpec)) : EndpointObj := mkEndpoint p.1 p.2.1 p.2.2.

#[local] Instance ex_datastore : Datastore ex_store := {
  ListEndpoints s := ex_endpoint <$> map_to_list (xe s);
  ListClusters := xc;
  store_local ep s := mkStore (<[ep_name ep := (CreationTimestamp ep, Spec ep)]> (xe s)) (xc s) (xl s) (xb s);
  remove_local n s := mkStore (delete n (xe s)) (xc s) (xl s) (xb s);
  client_List k := fun s => (Ok ((fun p => mkObj p.1.2 p.2) <$> filter (fun p => p.1.1 = k) (map_to_list (xl s))), s);
  local_Delete k n := fun s =>
    (if bool_decide (is_Some (xl s !! (k, n))) then Ok tt else Err NotFound,
     mkStore (if k =?? KEndpoint then delete n (xe s) else xe s) (xc s) (delete (k, n) (xl s)) (xb s));
  broker_Delete k n := fun s =>
    (if bool_decide (is_Some (xb s !! (k, n))) then Ok tt else Err NotFound,
     mkStore (xe s) (xc s) (xl s) (delete (k, n) (xb s)));
  local_Distribute n c := fun s => (Ok tt, mkStore (xe s) (c :: xc s) (xl s) (xb s));
}.

Lemma ex_listed e (s : ex_store) :
  e ∈ ListEndpoints s <-> xe s !! ep_name e = Some (CreationTimestamp e, Spec e).
Proof.
  cbn. rewrite list_elem_of_fmap. split.
  - intros ([n [t sp]] & -> & Hin). by apply elem_of_map_to_list in Hin.
  - intros He. exists (ep_name e, (CreationTimestamp e, Spec e)). split; [by destruct e|by apply elem_of_map_to_list].
Qed.

#[local] Instance ex_datastore_laws : DatastoreLaws ex_store.
Proof.
  split; intros x e s; rewrite !ex_listed; cbn.
  - destruct (decide (ep_name x = ep_name e)) as [Hn|Hn]; [|rewrite lookup_insert_ne by done; auto].
    rewrite <- Hn, lookup_insert_eq. intros [= Ht Hs]. left. destruct x, e; cbn in *; congruence.
  - by intros [_ ?]%lookup_delete_Some.
Defined.

#[local] Instance ex_exclusive_laws : ExclusiveLaws ex_store.
Proof.
  split.
  - intros s e e'. rewrite !ex_listed. intros H1 H2 Hn. rewrite Hn in H1. destruct e, e'; cbn in *; congruence.
  - intros n s r s' Hd _ e. rewrite !ex_listed. cbn in Hd. injection Hd as _ <-. cbn. rewrite lookup_delete_Some. naive_solver.
Defined.

#[local] Instance ex_resource_laws : ResourceLaws ex_store.
Proof.
  refine {| locals := xl; brokers := xb |}.
  - intros k s r s' [= <- <-]. split; [done|]. split; [done|]. intros l [= <-]. split.
    + rewrite <- list_fmap_compose. pose proof (NoDup_map_to_list (xl s)) as Hnd.
      apply NoDup_fmap_2_strong; [|by apply NoDup_filter]. intros [[k1 n1] c1] [[k2 n2] c2].
      rewrite !list_elem_of_filter, !elem_of_map_to_list. cbn. intros [-> H1] [-> H2] ->. congruence.
    + intros n c. rewrite list_elem_of_fmap. split.
      * intros ([[k' n'] c'] & [= -> ->] & Hin). rewrite list_elem_of_filter, elem_of_map_to_list in Hin.
        by destruct Hin as [<- ?].
      * intros Hn. exists ((k, n), c). split; [done|]. by rewrite list_elem_of_filter, elem_of_map_to_list.
  - intros k n s r s' Hd. cbn in Hd. injection Hd as <- <-. cbn. by repeat case_bool_decide.
  - intros k n s r s' Hd. cbn in Hd. injection Hd as <- <-. cbn. by repeat case_bool_decide.
Defined.

(** * Witnesses *)
Definition ex_spec (cluster cable : string) (subnets : list string) : EndpointSpec :=
  mkSpec cluster cable "" [] "node" subnets "" [] "" [] false "libreswan" ∅.

Definition ex_ds : DatastoreSyncer := mkSyncer (mkCluster "east" ["100.1.0.0/16"] ["10.1.0.0/16"] ["242.0.0.0/16"]) true.
Definition ex_local : EndpointSpec := ex_spec "east" "cable-east" ["100.1.0.0/16"; "10.1.0.0/16"].
Definition ex_west : EndpointObj := mkEndpoint "west" 1 (ex_spec "west" "cable-west" ["10.2.0.0/16"]).
Definition ex_north : EndpointObj := mkEndpoint "north" 1 (ex_spec "north" "cable-north" ["10.3.0.0/16"]).
Definition ex_start : ex_store :=
  mkStore ∅ [mkCluster "west" ["100.2.0.0/16"] ["10.2.0.0/16"] []; mkCluster "north" [] ["10.2.0.0/15"] []] ∅ ∅.

Lemma accepted_endpoints_disjoint_witness :
  let s := store_local ex_north (store_local ex_west ex_start) in
  ex_north ∈ ListEndpoints s /\ ex_west ∈ ListEndpoints s /\ disjoint_endpoints ex_ds ex_local s.
Proof.
  intros s. split; [vm_compute; right; left|]. split; [vm_compute; left|].
  apply (accepted_endpoints_disjoint ex_ds ex_local ex_start s); [reflexivity| |].
  - intros e He. vm_compute in He. by apply elem_of_nil in He.
  - eapply rtc_l; [apply (step_store _ _ _ ex_west OpCreated ex_west); [discriminate|vm_compute; reflexivity]|].
    eapply rtc_l; [apply (step_store _ _ _ ex_north OpCreated ex_north); [discriminate|vm_compute; reflexivity]|].
    apply rtc_refl.
Defined.

(** A subnet outside of the declared CIDRs. *)
Lemma accepts_exactly_witness :
  exists c, cluster_of ex_west ex_start = Some c /\
    forall u, u ∈ ["10.2.0.0/16"] -> exists o, o ∈ ServiceCIDR c ++ ClusterCIDR c ++ GlobalCIDR c /\ inside u o.
Proof.
  assert (Hp : forall l : list string, forallb (fun u => bool_decide (Net.ParseCIDR u <> None)) l = true -> all_parse l).
  { intros l Hl. apply Forall_forall. intros u Hu%list_elem_of_In. apply (proj1 (List.forallb_forall _ _) Hl) in Hu.
    apply bool_decide_eq_true in Hu. by destruct (Net.ParseCIDR u). }
  destruct (accepts_exactly ex_ds ex_local ex_west OpUpdated ex_start) as [Hacc _].
  - reflexivity.
  - discriminate.
  - discriminate.
  - apply Hp. vm_compute. reflexivity.
  - apply Hp. vm_compute. reflexivity.
  - intros e He. vm_compute in He. by apply elem_of_nil in He.
  - intros c Hc. apply Hp. cbn in Hc. rewrite !elem_of_cons in Hc.
    destruct Hc as [->|[->|Hc]]; [vm_compute; reflexivity..|by apply elem_of_nil in Hc].
  - apply Hacc. vm_compute. reflexivity.
Defined.

Definition ex_resources : ex_store :=
  mkStore ∅ [] {[ (KEndpoint, "e1") := "east"; (KEndpoint, "w1") := "west"; (KCluster, "east") := "east" ]}
    {[ (KEndpoint, "e1") := "east"; (KEndpoint, "w1") := "west"; (KCluster, "east") := "east" ]}.

Definition ex_created : eff ex_store string unit := fun s => (Ok tt, s).

Lemma cleanup_exact_witness :
  exists s', Cleanup ex_created ex_ds ex_resources = (Ok tt, s') /\
  brokers s' !! (KEndpoint, "w1") = Some "west" /\ brokers s' !! (KCluster, "east") = None.
Proof.
  exists (Cleanup ex_created ex_ds ex_resources).2.
  assert (Hr : Cleanup ex_created ex_ds ex_resources = (Ok tt, (Cleanup ex_created ex_ds ex_resources).2)).
  { vm_compute. reflexivity. }
  destruct (cleanup_exact ex_ds ex_created ex_resources _ _ (fun s => conj eq_refl eq_refl) Hr) as [Hkept Hgone].
  split; [exact Hr|]. split; [|by apply (Hgone eq_refl)].
  rewrite Hkept; [reflexivity|]. vm_compute. discriminate.
Defined.

Definition ex_old : EndpointObj := mkEndpoint "east-old" 1 (ex_spec "east" "cable-old" ["10.1.0.0/16"]).

Lemma exclusive_endpoint_witness :
  let s := store_local ex_old (store_local ex_west ex_start) in
  exists s', ensureExclusiveEndpoint ex_ds ex_local s = (Ok tt, s') /\ ex_west ∈ ListEndpoints s' /\ ex_old ∉ ListEndpoints s'.
Proof.
  intros s. exists (ensureExclusiveEndpoint ex_ds ex_local s).2.
  assert (Hr : ensureExclusiveEndpoint ex_ds ex_local s = (Ok tt, (ensureExclusiveEndpoint ex_ds ex_local s).2)).
  { vm_compute. reflexivity. }
  split; [exact Hr|]. split; rewrite (exclusive_endpoint ex_ds ex_local s _ Hr).
  - split; [apply ex_listed; reflexivity|]. intros [Hn _]. apply Hn. discriminate.
  - intros [_ Hn]. apply Hn. split; [|vm_compute; reflexivity]. intros Hd. by apply Hd.
Defined.

#[local] Existing Instance k8snet_ref.

Lemma gateway_health_address_witness :
  let w := (Create (fun s => s) (mkLW (A := gmap string EndpointSpec) (NewLocal ex_local) ∅)).2 in
  exists w', handleCreateOrUpdateGateway (fun s => s) ex_ds "242.0.0.7" w = (Ok false, w') /\
  GetHealthCheckIP (l_spec (local w')) IPv4 = "242.0.0.7".
Proof.
  intros w. exists (handleCreateOrUpdateGateway (fun s => s) ex_ds "242.0.0.7" w).2.
  assert (Hr : handleCreateOrUpdateGateway (fun s => s) ex_ds "242.0.0.7" w =
    (Ok false, (handleCreateOrUpdateGateway (fun s => s) ex_ds "242.0.0.7" w).2)) by (vm_compute; reflexivity).
  split; [exact Hr|].
  assert (Hp : exists n, Net.ParseCIDR "242.0.0.0/16" = Some n /\ Net.Contains n (Net.ParseIP "242.0.0.7") = true).
  { destruct (Net.ParseCIDR "242.0.0.0/16") as [n|] eqn:Hn; [|discriminate Hn]. exists n. split; [reflexivity|].
    injection Hn as <-. vm_compute. reflexivity. }
  destruct Hp as (n & Hn & Hc).
  apply (gateway_health_address (fun s => s) ex_ds "242.0.0.0/16" [] n "242.0.0.7" w); try reflexivity; try done.
  apply create_sync. done.
Defined.

End DatastoreSyncer.
