(* ===== verification/Gateway.v ===== *)
(** The gateway process (src/pkg/gateway/gateway.go): leader election decides
    when the cable engine and the other components of the leader run; and the
    labels of its pod (src/pkg/pod/pod.go). *)
From stdpp Require Import base gmap list strings fin_maps relations.
From Stdlib Require String.
From Stdlib Require Import ZArith Lia.
From S2P Require Import Prelude GoNet K8s Cidr Endpoint NatDiscovery CableEngine PublicIP LocalEndpoint DatastoreSyncer.
Local Open Scope Z_scope.

(** * The labels of the pod *)
Module Pod.
Import Endpoint.

(** The errors the retries tell apart; [PatchCancelled] is that of a cancelled or
    expired context. *)
Inductive patch_error := PatchNotFound | PatchCancelled | PatchOther (msg : string).

Definition GatewayNodeLabel : string := "gateway.submariner.io/node".
Definition GatewayStatusLabel : string := "gateway.submariner.io/status".

(** The text of an [HAStatus]. *)
Definition status_text (s : HAStatus) : string :=
  match s with HAStatusActive => "active" | HAStatusPassive => "passive" end.

Record GatewayPod := mkPod { namespace : string; node : string; name : string }.

(** The merge patch printed by [patchFormat], as the labels it sets. *)
Definition patch (gp : GatewayPod) (status : string) : list (string * string) :=
  [(GatewayNodeLabel, node gp); (GatewayStatusLabel, status)].

Section api.
Context {W : Type}.

(** [Patch] of the labels of the pod with a namespace and a name, and apimachinery's
    [ExponentialBackoffWithContext]. *)
Class PodAPI := {
  Patch : string -> string -> list (string * string) -> eff W patch_error unit;
  backoff : eff W patch_error bool -> eff W patch_error unit;
}.

(** What the backoff is documented to do with a condition: it calls it, waiting in
    between, until it is met or fails, the attempts run out, or the context ends.
    [passes] is what happens while it waits, [ended] says that the context ended. *)
Inductive round (passes : W -> W -> Prop) (ended : W -> Prop) (cond : eff W patch_error bool) :
    W -> result patch_error unit -> W -> Prop :=
| round_met w w' : cond w = (Ok true, w') -> round passes ended cond w (Ok tt) w'
| round_failed w e w' : cond w = (Err e, w') -> round passes ended cond w (Err e) w'
| round_again w w1 w2 r w' : cond w = (Ok false, w1) -> passes w1 w2 ->
    round passes ended cond w2 r w' -> round passes ended cond w r w'
| round_out w w1 w2 m : cond w = (Ok false, w1) -> passes w1 w2 ->
    round passes ended cond w (Err (PatchOther m)) w2
| round_ended w : ended w -> round passes ended cond w (Err PatchCancelled) w.

Class PodLaws `{!PodAPI} := {
  passes : W -> W -> Prop;
  ended : W -> Prop;
  backoff_rounds : forall cond w r w', backoff cond w = (r, w') -> round passes ended cond w r w';
}.
End api.
Arguments PodAPI : clear implicits.
Arguments PodLaws W {_}.

Section pod.
Context {W : Type} `{!PodAPI W}.

(** The condition of the backoff. *)
Definition try_patch (gp : GatewayPod) (status : HAStatus) : eff W patch_error bool :=
  r ← attempt (Patch (namespace gp) (name gp) (patch gp (status_text status)));
  match r : result patch_error unit with
  | Ok _ => mret true
  | Err PatchNotFound => fail PatchNotFound
  | Err _ => mret false
  end.

(** The retries go on until one of these outcomes; [fuel] bounds the rounds. *)
Fixpoint SetHALabels (fuel : nat) (gp : GatewayPod) (status : HAStatus) (w : W) :
    option (result patch_error unit * W) :=
  match fuel with
  | O => None
  | S fuel =>
      match backoff (try_patch gp status) w with
      | (Ok tt, w') => Some (Ok tt, w')
      | (Err PatchNotFound, w') => Some (Err PatchNotFound, w')
      | (Err PatchCancelled, w') => Some (Err PatchCancelled, w')
      | (Err (PatchOther _), w') => SetHALabels fuel gp status w'
      end
  end.

(** The pod of the environment. *)
Definition NewGatewayPod (fuel : nat) (gp : GatewayPod) (w : W) : option (result string GatewayPod * W) :=
  if namespace gp =?? "" then Some (Err "SUBMARINER_NAMESPACE environment variable missing", w)
  else if node gp =?? "" then Some (Err "NODE_NAME environment variable missing", w)
  else if name gp =?? "" then Some (Err "POD_NAME environment variable missing", w)
  else
    '(r, w') ← SetHALabels fuel gp HAStatusPassive w;
    Some (match r with
          | Ok _ => Ok gp
          | Err _ => Err "error setting initial passive HA status"
          end, w').
End pod.

Section retry.
Context {W : Type} `{!PodAPI W, !PodLaws W}.
Context (gp : GatewayPod) (status : HAStatus).

Definition patch_labels : eff W patch_error unit :=
  Patch (namespace gp) (name gp) [(GatewayNodeLabel, node gp); (GatewayStatusLabel, status_text status)].

(** A request to patch the labels fails, but not because the pod is gone. *)
Definition refused (w w' : W) : Prop :=
  exists e w1, patch_labels w = (Err e, w1) /\ e <> PatchNotFound /\ passes w1 w'.

(** What ends the retries. *)
Definition outcome (r : result patch_error unit) (w w' : W) : Prop :=
  (r = Ok tt /\ patch_labels w = (Ok tt, w')) \/
  (r = Err PatchNotFound /\ patch_labels w = (Err PatchNotFound, w')) \/
  (r = Err PatchCancelled /\ ended w /\ w' = w).

Lemma try_patch_eq (w : W) : try_patch gp status w =
  match patch_labels w with
  | (Ok _, w') => (Ok true, w')
  | (Err PatchNotFound, w') => (Err PatchNotFound, w')
  | (Err _, w') => (Ok false, w')
  end.
Proof.
  unfold try_patch, patch, mbind at 1, eff_bind at 1, attempt. cbv beta. fold patch_labels.
  destruct (patch_labels w) as [[[]|[| |m]] w']; reflexivity.
Qed.

Lemma try_patch_cases (w : W) :
  (exists w', patch_labels w = (Ok tt, w') /\ try_patch gp status w = (Ok true, w')) \/
  (exists w', patch_labels w = (Err PatchNotFound, w') /\ try_patch gp status w = (Err PatchNotFound, w')) \/
  (exists e w', patch_labels w = (Err e, w') /\ e <> PatchNotFound /\ try_patch gp status w = (Ok false, w')).
Proof.
  rewrite try_patch_eq. destruct (patch_labels w) as [[[]|[| |m]] w'].
  - left. eauto.
  - right. left. eauto.
  - do 2 right. by exists PatchCancelled, w'.
  - do 2 right. by exists (PatchOther m), w'.
Qed.

(** A round of attempts: refusals, and then an outcome or one refusal too many. *)
Lemma round_refused w r w' : round passes ended (try_patch gp status) w r w' ->
  exists k w1, nsteps refused k w w1 /\
    (outcome r w1 w' \/ (exists m, r = Err (PatchOther m)) /\ w' = w1 /\ (0 < k)%nat).
Proof.
  induction 1 as [w w' H|w e w' H|w w1 w2 r w' H Hp _ IH|w w1 w2 m H Hp|w H];
    destruct (try_patch_cases w) as [(w0 & Hw & E)|[(w0 & Hw & E)|(e0 & w0 & Hw & Hne & E)]];
    try (rewrite E in H; first [discriminate H|injection H as <- <-|injection H as <-]).
  - exists 0%nat, w. split; [constructor|]. left. by left.
  - exists 0%nat, w. split; [constructor|]. left. right. by left.
  - destruct IH as (k & w3 & Hk & Ho). exists (S k), w3. split.
    + econstructor; [|exact Hk]. by exists e0, w0.
    + destruct Ho as [|(? & ? & ?)]; [by left|right]. split_and!; [done..|lia].
  - exists 1%nat, w2. split; [|right; split_and!; eauto; lia].
    econstructor; [by exists e0, w0|constructor].
  - exists 0%nat, w. split; [constructor|]. left. by do 2 right.
  - exists 0%nat, w. split; [constructor|]. left. by do 2 right.
  - exists 0%nat, w. split; [constructor|]. left. by do 2 right.
Qed.

(** C37: The update of the labels. When the server refuses fewer than [n] requests
    in a row, [SetHALabels] returns, with any number of rounds from [n], and with
    one of three results: success, of a request for both labels that succeeded; the
    error of a request that found no pod; or the end of the context.  All requests
    before were refused for other reasons, and none follows. *)
Theorem set_labels_terminates (n : nat) (w : W) : (forall w', ~ nsteps refused n w w') ->
  exists r w', (forall fuel, (n <= fuel)%nat -> SetHALabels fuel gp status w = Some (r, w')) /\
    exists w1, rtc refused w w1 /\ outcome r w1 w'.
Proof.
  revert w. induction n as [n IH] using lt_wf_ind. intros w Hn.
  destruct n as [|n]; [destruct (Hn w); constructor|].
  destruct (backoff (try_patch gp status) w) as [r w'] eqn:Hb.
  destruct (round_refused _ _ _ (backoff_rounds _ _ _ _ Hb)) as (k & w1 & Hk & [Ho|([m ->] & -> & Hpos)]).
  - exists r, w'. split; [|exists w1; split; [by eapply rtc_nsteps_2|done]].
    intros [|fuel] Hf; [lia|]. cbn. rewrite Hb. by destruct Ho as [[-> _]|[[-> _]|[-> _]]].
  - assert (k <= n)%nat as Hkn.
    { destruct (le_lt_dec k n) as [|Hlt]; [done|exfalso].
      replace k with (S n + (k - S n))%nat in Hk by lia.
      apply nsteps_add_inv in Hk as (w2 & H2 & _). by destruct (Hn w2). }
    destruct (IH (S n - k)%nat ltac:(lia) w1) as (r & w2 & Hf & w3 & Hr & Ho).
    { intros w2 H2. apply (Hn w2). replace (S n) with (k + (S n - k))%nat by lia.
      by eapply nsteps_trans. }
    exists r, w2. split.
    + intros [|fuel] Hle; [lia|]. cbn. rewrite Hb. apply Hf. lia.
    + exists w3. split; [|done]. etransitivity; [by eapply rtc_nsteps_2|done].
Qed.
End retry.

(** A server that refuses the first requests, and two attempts per round. *)
#[local] Instance ex_pod_api : PodAPI nat := {
  Patch _ _ _ := fun n => match n with O => (Ok tt, O) | S n => (Err (PatchOther "refused"), n) end;
  backoff c := fun n =>
    match c n with
    | (Ok true, n) => (Ok tt, n)
    | (Ok false, n) => match c n with
                       | (Ok true, n) => (Ok tt, n)
                       | (Ok false, n) => (Err (PatchOther "timed out"), n)
                       | (Err e, n) => (Err e, n)
                       end
    | (Err e, n) => (Err e, n)
    end;
}.

#[local] Program Instance ex_pod_laws : PodLaws nat := {
  passes := eq;
  ended n := False;
}.
Next Obligation.
  intros c w r w'. cbn. destruct (c w) as [[[|]|e] w1] eqn:H1.
  - intros [= <- <-]. by apply round_met.
  - destruct (c w1) as [[[|]|e] w2] eqn:H2; intros [= <- <-].
    + eapply round_again; [done..|by apply round_met].
    + eapply round_again; [done..|]. by eapply round_out.
    + eapply round_again; [done..|by apply round_failed].
  - intros [= <- <-]. by apply round_failed.
Qed.

Definition ex_pod : GatewayPod := mkPod "submariner-operator" "node1" "gateway-x".

Lemma ex_refusals k (n n' : nat) : nsteps (refused ex_pod HAStatusActive) k n n' -> n = (k + n')%nat.
Proof.
  induction 1 as [n|k n1 n2 n3 (e & w1 & H & _ & Hp) _ IH]; [done|]. cbn in Hp. subst w1 n2.
  destruct n1 as [|n1]; cbn in H; [discriminate H|]. injection H as _ ->. lia.
Qed.

(** Three requests are refused, one and a half rounds. *)
Lemma set_labels_terminates_witness :
  exists r w', (forall fuel, (4 <= fuel)%nat -> SetHALabels fuel ex_pod HAStatusActive 3%nat = Some (r, w')) /\
    exists w1, rtc (refused ex_pod HAStatusActive) 3%nat w1 /\ outcome ex_pod HAStatusActive r w1 w'.
Proof.
  apply (set_labels_terminates ex_pod HAStatusActive 4%nat 3%nat).
  intros w' H. apply ex_refusals in H. lia.
Defined.
End Pod.

(** * The gateway *)
Module Gateway.
Import Endpoint CableEngine.

(** [submarinerClusterFrom]: an absent GlobalCIDR becomes an empty one, which is
    the same list here. *)
Definition submarinerClusterFrom (submSpec : LocalEndpoint.SubmarinerSpec) : DatastoreSyncer.ClusterSpec :=
  DatastoreSyncer.mkCluster (LocalEndpoint.sm_ClusterID submSpec) (LocalEndpoint.sm_ServiceCidr submSpec)
    (LocalEndpoint.sm_ClusterCidr submSpec) (LocalEndpoint.sm_GlobalCidr submSpec).

(** What the goroutines of [leaderComponentsStarted] do. *)
Inductive component := SetActive | StartDatastoreSyncer | StartTunnelController | StartHealthChecker | RunPublicIPWatcher.

#[global] Instance component_eq_dec : EqDecision component.
Proof. solve_decision. Defined.

Inductive start_error := Canceled | StartFailed (msg : string).

(** The election: [RunOrDie] tries to acquire the lock, holds it, or has lost it
    and calls [OnStoppedLeading]; [NoElection] when it is not running. *)
Inductive election := Campaigning | Leading | Stopping | NoElection.

#[global] Instance election_eq_dec : EqDecision election.
Proof. solve_decision. Defined.

Section gateway.
Context {D N : Type} `{K8sNet} `{!Driver D} `{!NATIface N}.
Context (NewDriver : EndpointSpec -> string -> result string D).
(** [cableHealthChecker != nil] and [publicIPWatcher != nil]. *)
Context (has_healthChecker has_publicIPWatcher : bool).

(** [starting]: calls of [onStartedLeading] that have not begun.  [waiting]: the
    goroutines that have not finished; one with a message waits to send it on
    [fatalError].  [locked]: a callback that holds the mutex waits to send.
    [returned]: [Run] has returned, with an error if any.  [late_start] is no field
    of the program but part of the history: since the components were last stopped a
    callback of a start has begun when its leadership was over already. *)
Record gateway := mkGateway {
  cableEngine : engine D N;
  healthChecking : bool;
  label : HAStatus;
  elect : election;
  starting : nat;
  waiting : list (component * option string);
  locked : option string;
  cancelled : bool;
  returned : option (option string);
  late_start : bool;
}.

Definition set_engine e (g : gateway) : gateway :=
  mkGateway e (healthChecking g) (label g) (elect g) (starting g) (waiting g) (locked g) (cancelled g) (returned g) (late_start g).
Definition set_health b (g : gateway) : gateway :=
  mkGateway (cableEngine g) b (label g) (elect g) (starting g) (waiting g) (locked g) (cancelled g) (returned g) (late_start g).
Definition set_label l (g : gateway) : gateway :=
  mkGateway (cableEngine g) (healthChecking g) l (elect g) (starting g) (waiting g) (locked g) (cancelled g) (returned g) (late_start g).
Definition set_elect x (g : gateway) : gateway :=
  mkGateway (cableEngine g) (healthChecking g) (label g) x (starting g) (waiting g) (locked g) (cancelled g) (returned g) (late_start g).
Definition set_starting n (g : gateway) : gateway :=
  mkGateway (cableEngine g) (healthChecking g) (label g) (elect g) n (waiting g) (locked g) (cancelled g) (returned g) (late_start g).
Definition set_waiting l (g : gateway) : gateway :=
  mkGateway (cableEngine g) (healthChecking g) (label g) (elect g) (starting g) l (locked g) (cancelled g) (returned g) (late_start g).
Definition set_locked e (g : gateway) : gateway :=
  mkGateway (cableEngine g) (healthChecking g) (label g) (elect g) (starting g) (waiting g) e (cancelled g) (returned g) (late_start g).
Definition set_cancelled (g : gateway) : gateway :=
  mkGateway (cableEngine g) (healthChecking g) (label g) (elect g) (starting g) (waiting g) (locked g) true (returned g) (late_start g).
Definition set_returned e (g : gateway) : gateway :=
  mkGateway (cableEngine g) (healthChecking g) (label g) (elect g) (starting g) (waiting g) (locked g) (cancelled g) (Some e) (late_start g).
Definition set_late b (g : gateway) : gateway :=
  mkGateway (cableEngine g) (healthChecking g) (label g) (elect g) (starting g) (waiting g) (locked g) (cancelled g) (returned g) b.

(** [updateGatewayHAStatus]: a failure is only logged. *)
Definition updateGatewayHAStatus (ok : bool) (status : HAStatus) (g : gateway) : gateway :=
  if ok then set_label status g else g.

(** [r] is the outcome of making the lock; the goroutine of the election is started. *)
Definition startLeaderElection (r : result string unit) (g : gateway) : result string unit * gateway :=
  let g := set_waiting [] g in
  match r with
  | Err _ => (Err "error creating leader election resource lock", g)
  | Ok _ => (Ok tt, set_elect Campaigning g)
  end.

(** [signer] is the outcome of starting the signing requestor. *)
Definition onStartedLeading (signer : result string unit) (g : gateway) : gateway :=
  match signer with
  | Err _ => set_locked (Some "error starting the SigningRequestor") g
  | Ok _ =>
      let '(r, e) := StartEngine NewDriver (cableEngine g) in
      match r with
      | Err _ => set_locked (Some "error starting the cable engine") (set_engine e g)
      | Ok _ =>
          set_waiting (waiting g ++ map (fun c => (c, None))
            ([SetActive; StartDatastoreSyncer; StartTunnelController] ++
             (if has_healthChecker then [StartHealthChecker] else []) ++
             (if has_publicIPWatcher then [RunPublicIPWatcher] else []))) (set_engine e g)
      end
  end.

(** The body of a goroutine: whether it has to report an error. *)
Definition run_component (c : component) (r : result start_error unit) (g : gateway) : option string * gateway :=
  match c, r with
  | SetActive, _ => (None, updateGatewayHAStatus (is_ok r) HAStatusActive g)
  | StartDatastoreSyncer, Err (StartFailed _) => (Some "error running the datastore syncer", g)
  | StartTunnelController, Err _ => (Some "error running the tunnel controller", g)
  | StartHealthChecker, Ok _ => (None, set_health true g)
  | _, _ => (None, g)
  end.

(** The goroutine at position [i]: it finishes, or waits to send its error. *)
Definition component_step (i : nat) (r : result start_error unit) (g : gateway) : gateway :=
  match waiting g !! i with
  | Some (c, None) =>
      match run_component c r g with
      | (None, g') => set_waiting (delete i (waiting g)) g'
      | (Some e, g') => set_waiting (<[i := (c, Some e)]> (waiting g)) g'
      end
  | _ => g
  end.

(** After all components have finished starting.  [label_ok] and [lock] are the
    outcomes of the update of the label and of the new lock. *)
Definition onStoppedLeading (label_ok : bool) (lock : result string unit) (g : gateway) : gateway :=
  let g := if has_healthChecker then set_health false g else g in
  let g := set_late false (set_engine (Stop (cableEngine g)) g) in
  if cancelled g then set_elect NoElection g
  else
    let g := updateGatewayHAStatus label_ok HAStatusPassive g in
    match startLeaderElection lock (set_elect NoElection g) with
    | (Err _, g) => set_locked (Some "error restarting leader election") g
    | (Ok _, g) => g
    end.

(** The errors that [Run] can receive. *)
Definition reported (g : gateway) : list string :=
  match locked g with Some e => [e] | None => [] end ++ omap snd (waiting g).

(** [label_fails]: updates of the label may fail.  Whatever else is asked of the
    engine, by the tunnel controller and NAT discovery, may come at any time, as in
    [engine_step].  The callback of the start of a leadership runs in a goroutine
    that nothing waits for: it may begin at any time when the mutex is free, after
    the callback of its end too, or never. *)
Context (label_fails : bool).

(** Neither leading nor being stopped. *)
Definition leaderless (g : gateway) : bool :=
  match elect g with Campaigning | NoElection => true | Leading | Stopping => false end.

(** A pending callback of a start begins. *)
Definition begin_start (n : nat) (g : gateway) : gateway :=
  set_late (late_start g || leaderless g) (set_starting n g).

Inductive step (g : gateway) : gateway -> Prop :=
| st_acquire : returned g = None -> elect g = Campaigning ->
    step g (set_starting (S (starting g)) (set_elect Leading g))
| st_lose : returned g = None -> elect g = Leading \/ (elect g = Campaigning /\ cancelled g = true) ->
    step g (set_elect Stopping g)
| st_start signer n : returned g = None -> starting g = S n -> locked g = None ->
    step g (onStartedLeading signer (begin_start n g))
| st_component i r : returned g = None -> step g (component_step i r g)
| st_stop label_ok lock : returned g = None -> elect g = Stopping -> waiting g = [] ->
    locked g = None -> (label_ok = false -> label_fails = true) ->
    step g (onStoppedLeading label_ok lock g)
| st_fatal e label_ok : returned g = None -> e ∈ reported g -> (label_ok = false -> label_fails = true) ->
    step g (set_returned (Some e) (updateGatewayHAStatus label_ok HAStatusPassive g))
| st_engine ev : returned g = None -> ev <> EvStart -> ev <> EvStop ->
    step g (set_engine (engine_step NewDriver ev (cableEngine g)) g)
| st_cancel : returned g = None -> step g (set_cancelled g)
| st_exit label_ok : returned g = None -> cancelled g = true -> (label_ok = false -> label_fails = true) ->
    step g (set_returned None (updateGatewayHAStatus label_ok HAStatusPassive g)).

(** The state in which [Run] has started the election. *)
Definition initial (e : engine D N) : gateway :=
  mkGateway e false HAStatusPassive Campaigning 0 [] None false None false.
End gateway.
Arguments gateway : clear implicits.

(** * Uninstalling *)
Section uninstall.
Context {W : Type}.
Context (StartSigningRequestor StartEngine' EngineCleanup SignerUninstall DatastoreCleanup : eff W string unit)
  (CleanupGatewayEntry : W -> W).

(** The parts that are called are [CableEngine.StartEngine] and [Cleanup], [Syncer.CleanupGatewayEntry]
    and [DatastoreSyncer.Cleanup]; only a failure of the first or of the last counts. *)
Definition uninstall : eff W string unit :=
  started ← attempt StartSigningRequestor;
  match started : result string unit with
  | Err _ => fail "Error starting SigningRequestor"
  | Ok _ =>
      _ ← attempt (E' := string) StartEngine';
      _ ← modifyw CleanupGatewayEntry;
      _ ← attempt (E' := string) EngineCleanup;
      _ ← attempt (E' := string) SignerUninstall;
      dsErr ← attempt DatastoreCleanup;
      match dsErr : result string unit with
      | Err _ => fail "Error cleaning up the datastore"
      | Ok _ => mret tt
      end
  end.
End uninstall.
(** * The components follow the leadership *)
Section invariant.
Context {D N : Type} `{K8sNet} `{!Driver D} `{!NATIface N}.
Context (NewDriver : EndpointSpec -> string -> result string D).
Context (has_healthChecker has_publicIPWatcher label_fails : bool).

Abbreviation gw_step := (step NewDriver has_healthChecker has_publicIPWatcher label_fails).
Implicit Types (g : gateway D N).

Definition same_running (i i' : engine D N) : Prop := running i' = running i.

#[local] Instance same_running_preorder : PreOrder same_running.
Proof. split; [by intros ?|]. intros ? ? ? H1 H2. unfold same_running in *. congruence. Qed.

Lemma on_driver_running {A} wrap (m : eff D string A) : keeps same_running (on_driver (D := D) (N := N) wrap m).
Proof. intros i. unfold on_driver. destruct (driver i) as [d|]; [|done]. by destruct (m d). Qed.

Hint Resolve on_driver_running : frames.

Lemma install_loop_running rnat name h js : keeps same_running (install_loop (D := D) (N := N) rnat name h js).
Proof.
  induction js as [|j js IH]; cbn [install_loop]; [frames|]. apply keeps_bind; [exact _|frames|]. intros i.
  destruct (_ ≫= _); [|frames]. cbv zeta. destruct (_ || _); [done|]. destruct (_ <? _); [frames|].
  destruct (_ && _); frames.
Qed.

Lemma engine_step_running ev (i : engine D N) : ev <> EvStart -> ev <> EvStop ->
  running (engine_step NewDriver ev i) = running i.
Proof.
  intros H1 H2. destruct ev as [| |ep f|ep f|rnat| |]; [done|done|..]; cbn [engine_step].
  - unfold InstallCable. by repeat case_bool_decide.
  - assert (Hk : keeps same_running (RemoveCable (D := D) (N := N) ep f)); [|apply Hk].
    unfold RemoveCable. apply keeps_bind; [exact _|frames|]. intros i0. destruct (_ =?? _); [frames|]. cbv zeta.
    frames; try apply keeps_modify; done.
  - assert (Hk : keeps same_running (installCableWithNATInfo (D := D) (N := N) rnat)); [|apply Hk].
    unfold installCableWithNATInfo, shouldProceedWithInstallation.
    frames; try (apply keeps_modify; done); apply install_loop_running.
  - assert (Hk : keeps same_running (ListCableConnections (D := D) (N := N))); [|apply Hk].
    unfold ListCableConnections. frames.
  - assert (Hk : keeps same_running (CableEngine.Cleanup (D := D) (N := N))); [|apply Hk].
    unfold CableEngine.Cleanup. frames.
Qed.
(** Nothing of the leader runs. *)
Record at_rest g : Prop := {
  rest_waiting : waiting g = [];
  rest_engine : running (cableEngine g) = false;
  rest_health : healthChecking g = false;
  rest_label : label_fails = false -> cancelled g = false -> label g = HAStatusPassive;
}.

Record gateway_wf g : Prop := {
  wf_idle : leaderless g = true -> late_start g = false -> at_rest g;
  wf_health : has_healthChecker = false ->
    healthChecking g = false /\ forall e, (StartHealthChecker, e) ∉ waiting g;
}.

(** A step that leaves the election alone and starts nothing at rest. *)
Lemma wf_frame g g' : elect g' = elect g -> late_start g' = late_start g ->
  (at_rest g -> at_rest g') ->
  (has_healthChecker = false -> healthChecking g = false /\ (forall e, (StartHealthChecker, e) ∉ waiting g) ->
     healthChecking g' = false /\ (forall e, (StartHealthChecker, e) ∉ waiting g')) ->
  gateway_wf g -> gateway_wf g'.
Proof.
  intros He Hs Hrest Hh [Hi Hw]. split; [|by auto]. unfold leaderless. rewrite He, Hs. intros H1 H2.
  by apply Hrest, Hi.
Qed.

Lemma wf_label ok l g : gateway_wf g -> (at_rest g -> label_fails = false -> ok = true -> l = HAStatusPassive) ->
  gateway_wf (updateGatewayHAStatus ok l g).
Proof.
  intros Hg Hl. unfold updateGatewayHAStatus. destruct ok; [|done]. revert Hg. apply wf_frame; [done..| |done].
  intros Hr. split; [apply Hr..|]. intros Hf _. by apply Hl.
Qed.

Lemma wf_component i r g : gateway_wf g -> gateway_wf (component_step i r g).
Proof.
  intros Hg. unfold component_step. destruct (waiting g !! i) as [[c [e|]]|] eqn:Hi; [done| |done].
  assert (Hne : ~ at_rest g) by (intros [Hw _ _ _]; by rewrite Hw in Hi).
  assert (Hin : (c, None) ∈ waiting g) by (by apply list_elem_of_lookup_2 in Hi).
  destruct (run_component c r g) as [e g'] eqn:Hrun.
  assert (Hg' : elect g' = elect g /\ late_start g' = late_start g /\ waiting g' = waiting g /\
    (has_healthChecker = false -> healthChecking g' = healthChecking g)).
  { unfold run_component, updateGatewayHAStatus in Hrun.
    destruct c, r as [?|[|]]; injection Hrun as <- <-; split_and!; try done.
    intros Hh. by destruct (proj2 (wf_health _ Hg Hh) None). }
  destruct Hg' as (He & Hs & Hw & Hh). destruct e as [e|]; revert Hg; apply wf_frame; try done.
  - intros Hf [Hh1 Hh2]. cbn. split; [by rewrite Hh|]. intros e' Hin'.
    apply list_elem_of_lookup in Hin' as (j & Hj). destruct (decide (i = j)) as [<-|Hij].
    + rewrite list_lookup_insert_eq in Hj by (by apply lookup_lt_Some in Hi). injection Hj as -> <-. by apply (Hh2 None).
    + rewrite list_lookup_insert_ne in Hj by done. apply (Hh2 e'). by apply list_elem_of_lookup_2 in Hj.
  - intros Hf [Hh1 Hh2]. cbn. split; [by rewrite Hh|]. intros e' Hin'. apply (Hh2 e').
    rewrite <- (take_drop i (waiting g)). rewrite delete_take_drop in Hin'. rewrite elem_of_app in Hin' |- *.
    destruct Hin' as [|Hd]; [by left|]. right. rewrite <- drop_drop, Nat.add_1_r in Hd || idtac.
    apply list_elem_of_lookup in Hd as (j & Hj). rewrite lookup_drop in Hj. apply list_elem_of_lookup. exists (S j).
    rewrite lookup_drop, <- Hj. f_equal. lia.
Qed.

Lemma wf_start signer n g : gateway_wf g ->
  gateway_wf (onStartedLeading NewDriver has_healthChecker has_publicIPWatcher signer (begin_start n g)).
Proof.
  intros [Hi Hw].
  assert (Hgen : forall g', elect g' = elect g -> late_start g' = late_start g || leaderless g ->
    (has_healthChecker = false -> healthChecking g' = false /\ forall e, (StartHealthChecker, e) ∉ waiting g') ->
    gateway_wf g').
  { intros g' He Hl Hh. split; [|done]. unfold leaderless at 1. rewrite He, Hl. fold (leaderless g).
    intros ->. by rewrite orb_true_r. }
  unfold onStartedLeading. destruct signer as [u|e]; [|by apply Hgen].
  destruct (StartEngine NewDriver _) as [[u'|e] i]; [|by apply Hgen]. apply Hgen; [done..|].
  intros Hf. destruct (Hw Hf) as [Hh Hn]. cbn. split; [done|]. rewrite Hf. intros e.
  rewrite not_elem_of_app. split; [apply Hn|].
  destruct has_publicIPWatcher; cbn; rewrite !not_elem_of_cons; split_and!; try done; apply not_elem_of_nil.
Qed.

(** The callback of the end leaves nothing running, whatever was started. *)
Lemma stop_at_rest label_ok lock g : waiting g = [] -> (has_healthChecker = false -> healthChecking g = false) ->
  (label_ok = false -> label_fails = true) -> at_rest (onStoppedLeading has_healthChecker label_ok lock g).
Proof.
  intros Hwt Hh Hok. unfold onStoppedLeading, updateGatewayHAStatus, startLeaderElection.
  destruct has_healthChecker, (cancelled g) eqn:Hc, label_ok, lock; cbn; rewrite Hc; split; cbn;
    rewrite ?Hc; try done; auto; intros Hf; by rewrite Hok in Hf.
Qed.

Lemma wf_stop label_ok lock g : waiting g = [] -> (label_ok = false -> label_fails = true) ->
  gateway_wf g -> gateway_wf (onStoppedLeading has_healthChecker label_ok lock g).
Proof.
  intros Hwt Hok [Hi Hw]. pose proof (stop_at_rest label_ok lock g Hwt (fun H => proj1 (Hw H)) Hok) as Hr.
  split; [done|]. intros _. split; [apply Hr|]. intros e. rewrite (rest_waiting _ Hr). apply not_elem_of_nil.
Qed.

Lemma step_wf g g' : gw_step g g' -> gateway_wf g -> gateway_wf g'.
Proof.
  intros [Hr He|Hr He|signer n Hr Hs Hl|i r Hr|label_ok lock Hr He Hw Hl Hok|e label_ok Hr _ Hok|ev Hr H1 H2|Hr|label_ok Hr Hc Hok] Hg.
  - split; cbn; [done|apply Hg].
  - split; cbn; [done|apply Hg].
  - by apply wf_start.
  - by apply wf_component.
  - by apply wf_stop.
  - assert (Hg' : gateway_wf (updateGatewayHAStatus label_ok HAStatusPassive g)) by (by apply wf_label).
    revert Hg'. apply wf_frame; [done..| |done]. by intros [? ? ? ?].
  - revert Hg. apply wf_frame; [done..| |done]. intros [? Hrun ? ?]. split; cbn; [done| |done..].
    by rewrite engine_step_running.
  - revert Hg. apply wf_frame; [done..| |done]. by intros [? ? ? ?].
  - assert (Hg' : gateway_wf (updateGatewayHAStatus label_ok HAStatusPassive g)) by (by apply wf_label).
    revert Hg'. apply wf_frame; [done..| |done]. by intros [? ? ? ?].
Qed.

Lemma steps_wf g g' : rtc gw_step g g' -> gateway_wf g -> gateway_wf g'.
Proof. induction 1 as [|g g1 g2 Hstep _ IH]; [done|]. intros Hg. by eapply IH, step_wf. Qed.

Lemma gateway_initial_wf e : running e = false -> gateway_wf (initial e).
Proof. intros He. split; cbn; [done|]. intros _. split; [done|]. intros ?. apply not_elem_of_nil. Qed.

Lemma returned_passive g g' : gw_step g g' -> label_fails = false -> returned g' <> None -> label g' = HAStatusPassive.
Proof.
  intros Hstep Hf Hret. destruct Hstep as [Hr|Hr|signer n Hr|i r Hr|label_ok lock Hr|e label_ok Hr _ Hok|ev Hr|Hr|label_ok Hr _ Hok];
    try (cbn in Hret; by rewrite Hr in Hret).
  - revert Hret. unfold onStartedLeading. destruct signer; cbn; [|congruence].
    destruct (StartEngine NewDriver (cableEngine g)) as [[] i]; cbn; congruence.
  - revert Hret. unfold component_step, run_component, updateGatewayHAStatus.
    destruct (waiting g !! i) as [[[] []]|], r as [|[]]; cbn; congruence.
  - revert Hret. unfold onStoppedLeading, updateGatewayHAStatus, startLeaderElection.
    destruct has_healthChecker; cbn; destruct (cancelled g), label_ok, lock; cbn; congruence.
  - destruct label_ok; [done|]. by rewrite Hok in Hf.
  - destruct label_ok; [done|]. by rewrite Hok in Hf.
Qed.

Lemma component_elect i r g : elect (component_step i r g) = elect g.
Proof.
  unfold component_step, run_component, updateGatewayHAStatus.
  destruct (waiting g !! i) as [[[] []]|], r as [|[]]; done.
Qed.

Lemma started_elect signer g :
  elect (onStartedLeading NewDriver has_healthChecker has_publicIPWatcher signer g) = elect g.
Proof.
  unfold onStartedLeading. destruct signer; [|done].
  by destruct (StartEngine NewDriver (cableEngine g)) as [[] i].
Qed.

(** Only the callback of the end leaves the state in which it is due. *)
Lemma stopping_left g g' : gateway_wf g -> gw_step g g' -> elect g = Stopping -> elect g' <> Stopping ->
  at_rest g' /\ late_start g' = false.
Proof.
  intros Hg [Hr He|Hr He|signer n Hr|i r Hr|label_ok lock Hr He Hw Hl Hok|e label_ok Hr|ev Hr|Hr|label_ok Hr] Hs1 Hs2;
    try done; try congruence.
  - by rewrite started_elect in Hs2.
  - by rewrite component_elect in Hs2.
  - split; [apply stop_at_rest; [done|apply Hg|done]|].
    unfold onStoppedLeading, updateGatewayHAStatus, startLeaderElection.
    destruct has_healthChecker; cbn; destruct (cancelled g), label_ok, lock; done.
  - by destruct label_ok.
  - by destruct label_ok.
Qed.

(** C3: Cables and health checks run, and components are started, only while the
    gateway leads or is being stopped, unless a callback of a start began late, after
    the end of its leadership ([late_start_runs] shows that it can); and the end of
    the next leadership stops that too.  Likewise the pod is labelled active only
    then, as long as updates of the label succeed and the process is not shutting
    down; and when updates succeed the label is passive once [Run] has returned. *)
Theorem gateway_follows_leadership e g : running e = false -> rtc gw_step (initial e) g ->
  (running (cableEngine g) = true \/ healthChecking g = true \/ waiting g <> [] \/
   (label_fails = false /\ cancelled g = false /\ label g = HAStatusActive) ->
   elect g = Leading \/ elect g = Stopping \/ late_start g = true) /\
  (forall g', gw_step g g' -> elect g = Stopping -> elect g' <> Stopping ->
   at_rest g' /\ late_start g' = false) /\
  (label_fails = false -> returned g <> None -> label g = HAStatusPassive).
Proof.
  intros He Hsteps. pose proof (steps_wf _ _ Hsteps (gateway_initial_wf e He)) as Hg. split_and!.
  - intros Hup. destruct (elect g) eqn:Hel, (late_start g) eqn:Hlt; auto; exfalso;
      (destruct (wf_idle _ Hg) as [H1 H2 H3 H4]; [unfold leaderless; by rewrite Hel|done|]);
      destruct Hup as [?|[?|[?|(Hf & Hc & Hl)]]]; try congruence; by rewrite H4 in Hl.
  - intros g' Hstep H1 H2. by apply (stopping_left g).
  - intros Hf Hret. apply rtc_inv_r in Hsteps as [<-|(g1 & _ & Hstep)]; [done|]. by eapply returned_passive.
Qed.
(** * A lost leadership is recovered from *)
Definition recovered g : Prop :=
  exists g', rtc gw_step g g' /\ cancelled g' = false /\ (elect g' = Campaigning \/ exists e, returned g' = Some (Some e)).

Lemma recovered_step g g' : gw_step g g' -> recovered g' -> recovered g.
Proof. intros Hs (g2 & Hr & Hrest). exists g2. split; [by eapply rtc_l|done]. Qed.

Lemma recovered_fatal g e : returned g = None -> cancelled g = false -> e ∈ reported g -> recovered g.
Proof.
  intros Hr Hc He. eapply recovered_step; [by apply (st_fatal _ _ _ _ _ e true)|].
  eexists. split; [apply rtc_refl|]. split; [done|]. right. by exists e.
Qed.

Lemma run_component_ok c g : exists g', run_component c (Ok tt) g = (None, g') /\ elect g' = elect g /\
  returned g' = returned g /\ cancelled g' = cancelled g.
Proof. destruct c; eexists; by split_and!. Qed.

Lemma drain n : forall g, length (waiting g) = n -> returned g = None -> cancelled g = false ->
  elect g = Stopping -> recovered g.
Proof.
  induction n as [|n IH]; intros g Hn Hr Hc He.
  all: destruct (locked g) as [e|] eqn:Hl; [apply (recovered_fatal g e); [done..|]; unfold reported; rewrite Hl; left|].
  - apply nil_length_inv in Hn. eapply recovered_step; [by apply (st_stop _ _ _ _ _ true (Ok tt))|].
    eexists. split; [apply rtc_refl|]. unfold onStoppedLeading.
    destruct has_healthChecker; cbn; rewrite Hc; cbn; auto.
  - destruct (waiting g) as [|[c o] l] eqn:Hw; [done|]. destruct o as [e|].
    + apply (recovered_fatal g e); [done..|]. unfold reported. rewrite Hl, Hw. left.
    + destruct (run_component_ok c g) as (g' & Hrun & He' & Hr' & Hc').
      eapply recovered_step; [by apply (st_component _ _ _ _ _ 0 (Ok tt))|].
      unfold component_step. rewrite Hw. cbn [lookup list_lookup]. rewrite Hrun.
      injection Hn as Hn. apply IH; cbn; congruence.
Qed.

(** A gateway that lost the leadership always can go on, to compete for it again
    or to end with an error: neither a component nor a callback can block the
    other for good, since an error that a component waits to report is received. *)
Lemma lost_leadership_recovers g :
  elect g = Stopping -> returned g = None -> cancelled g = false -> recovered g.
Proof. intros Hel Hr Hc. by eapply drain. Qed.
End invariant.

(** * Witnesses *)
#[local] Existing Instance k8snet_ref.
#[local] Existing Instance list_driver.
#[local] Instance ex_nat : NATIface unit := { nat_AddEndpoint _ _ n := n; nat_RemoveEndpoint _ n := n }.

Definition ex_new_driver (spec : EndpointSpec) (cluster : string) : result string (list Connection) := Ok [].
Definition ex_engine : engine (list Connection) unit := NewEngine "east" LocalEndpoint.ex_local_spec tt.

(** The leader, with its health checker started. *)
Definition ex_leader : gateway (list Connection) unit :=
  component_step 3 (Ok tt) (onStartedLeading ex_new_driver true false (Ok tt)
    (begin_start 0 (set_starting 1 (set_elect Leading (initial ex_engine))))).

Lemma ex_leader_reached : rtc (step ex_new_driver true false false) (initial ex_engine) ex_leader.
Proof.
  eapply rtc_l; [by apply st_acquire|]. eapply rtc_l; [by apply (st_start _ _ _ _ _ (Ok tt) 0)|].
  eapply rtc_l; [by apply (st_component _ _ _ _ _ 3 (Ok tt))|]. apply rtc_refl.
Defined.

Lemma gateway_follows_leadership_witness :
  running (cableEngine ex_leader) = true /\ late_start ex_leader = false /\
  (elect ex_leader = Leading \/ elect ex_leader = Stopping \/ late_start ex_leader = true).
Proof.
  assert (Hr : running (cableEngine ex_leader) = true) by (vm_compute; reflexivity).
  split; [exact Hr|]. split; [reflexivity|].
  destruct (gateway_follows_leadership ex_new_driver true false false ex_engine ex_leader) as [H _];
    [reflexivity|exact ex_leader_reached|]. apply H. left. exact Hr.
Defined.

Lemma lost_leadership_recovers_witness :
  recovered ex_new_driver true false false (set_elect Stopping ex_leader).
Proof. apply (lost_leadership_recovers ex_new_driver true false false); reflexivity. Defined.

(** The leadership is lost and stopped before the goroutine of its start callback
    runs: the callback then starts the engine and the components of a gateway that
    competes for the leadership. *)
Definition ex_stopped : gateway (list Connection) unit :=
  onStoppedLeading true true (Ok tt)
    (set_elect Stopping (set_starting (S (starting (initial ex_engine))) (set_elect Leading (initial ex_engine)))).
Definition ex_late : gateway (list Connection) unit :=
  onStartedLeading ex_new_driver true false (Ok tt) (begin_start 0 ex_stopped).

Lemma late_start_runs : rtc (step ex_new_driver true false false) (initial ex_engine) ex_late /\
  elect ex_late = Campaigning /\ running (cableEngine ex_late) = true /\
  map fst (waiting ex_late) = [SetActive; StartDatastoreSyncer; StartTunnelController; StartHealthChecker].
Proof.
  split; [|by split_and!; vm_compute].
  eapply rtc_l; [by apply st_acquire|]. eapply rtc_l; [by apply st_lose; [|left]|].
  eapply rtc_l; [by apply (st_stop _ _ _ _ _ true (Ok tt))|]. fold ex_stopped.
  apply rtc_once. by apply (st_start _ _ _ _ _ (Ok tt) 0).
Qed.

End Gateway.
