(* ===== verification/WireGuard.v ===== *)
(** The WireGuard cable driver (src/pkg/cable/wireguard): one connection per
    remote cluster, its peer on the device (driver.go) and the status that is read
    from the peer's counters (getconnections.go); the pre-shared key
    (src/pkg/cable/psk/psk.go). *)
From stdpp Require Import base gmap list strings fin_maps.
From Stdlib Require String.
From Stdlib Require Import ZArith Lia Ascii.
From S2P Require Import Prelude GoNet K8s Cidr Endpoint NatDiscovery CableEngine Metrics Netlink.
Import Net Endpoint RemoteNAT Netlink.
Local Open Scope Z_scope.

Module WireGuard.

Definition DefaultDeviceName : string := "submariner".
Definition PublicKey : string := "publicKey".
Definition cableDriverName : string := "wireguard".
Definition receiveBytes : string := "ReceiveBytes".
Definition transmitBytes : string := "TransmitBytes".
Definition lastChecked : string := "LastChecked".
Definition InterfaceNameConfig : string := "interface-name".

(** Durations in nanoseconds. *)
Definition KeepAliveInterval : Z := 10 * 10 ^ 9.
Definition HandshakeTimeout : Z := 130 * 10 ^ 9.
Definition Milliseconds (d : Z) : Z := Z.quot d 1000000.

(** * The pre-shared key *)
Definition Resolve (ReadFile : string -> result string (list ascii)) (encode : list ascii -> string)
    (psk pskSecret rootDir : string) : result string string :=
  if pskSecret =?? "" then Ok psk
  else
    match ReadFile (rootDir +:+ "/var/run/secrets/submariner.io/" +:+ pskSecret +:+ "/psk") with
    | Err _ => Err "error reading secret"
    | Ok pskBytes => Ok (encode pskBytes)
    end.

(** * The device *)
(** Keys are written as their texts. *)
Record PeerConfig := mkPeerConfig {
  pc_PublicKey : string;
  pc_Remove : bool;
  pc_PresharedKey : string;
  pc_Endpoint : option (IP * Z);
  pc_KeepAlive : Z;
  pc_AllowedIPs : list IPNet;
}.

Record DeviceConfig := mkDeviceConfig {
  cfg_PrivateKey : option string;
  cfg_ListenPort : option Z;
  cfg_ReplacePeers : bool;
  cfg_Peers : list PeerConfig;
}.

(** [LastHandshakeTime] in nanoseconds; [None] is the zero time. *)
Record Peer := mkPeer {
  peer_PublicKey : string;
  peer_PresharedKey : string;
  peer_Endpoint : option (IP * Z);
  peer_AllowedIPs : list IPNet;
  LastHandshakeTime : option Z;
  ReceiveBytes : Z;
  TransmitBytes : Z;
}.

(** The [wgctrl] client and the netlink calls on the device [submariner]. *)
Class WgClient (W : Type) := {
  NewClient : eff W string unit;
  CloseClient : W -> W;
  ConfigureDevice : DeviceConfig -> eff W string unit;
  Device : eff W string (string * list Peer);
  GeneratePrivateKey : eff W string string;
  wg_LinkByName : eff W nl_error unit;
  wg_InterfaceByName : eff W nl_error unit;
  wg_LinkDel : eff W nl_error unit;
  wg_LinkAdd : eff W nl_error unit;
  wg_LinkSetUp : eff W nl_error unit;
}.

Section driver.
Context {W G : Type} `{!WgClient W} `{!GaugeVec G} `{K8sNet}.
(** [wgtypes.ParseKey]: the canonical text of a key; the text of the zero key; the
    public key of a private one; SHA-256 as a key; [time.Now]; the order in which
    Go ranges over the connections. *)
Context (ParseKey : string -> option string) (zero_key : string) (public_of : string -> string)
  (genPsk : string -> result string string) (nowNs : Z)
  (range : gmap string Connection -> list (string * Connection)).

Record wireguard := mkWireguard {
  localEndpoint : EndpointSpec;
  connections : gmap string Connection;
  NATTPort : Z;
  psk : string;
  world : W;
  metrics : Metrics.metrics G;
}.

Abbreviation M := (eff wireguard string).

Definition with_connections f (w : wireguard) : wireguard :=
  mkWireguard (localEndpoint w) (f (connections w)) (NATTPort w) (psk w) (world w) (metrics w).
Definition with_metrics f (w : wireguard) : wireguard :=
  mkWireguard (localEndpoint w) (connections w) (NATTPort w) (psk w) (world w) (f (metrics w)).
Definition with_world x (w : wireguard) : wireguard :=
  mkWireguard (localEndpoint w) (connections w) (NATTPort w) (psk w) x (metrics w).

(** A call to the outside, with the text its error is wrapped in. *)
Definition on_world {E A} (what : string) (m : eff W E A) : M A := fun w =>
  let '(r, x) := m (world w) in (map_err (fun _ => what) r, with_world x w).

(** The key, or the zero key and [false]. *)
Definition keyFromSpec (ep : EndpointSpec) : string * bool :=
  match BackendConfig ep !! PublicKey with
  | None => (zero_key, false)
  | Some s => match ParseKey s with Some k => (k, true) | None => (zero_key, false) end
  end.

(** ** The status of a connection *)

Definition set_config (key v : string) (ep : EndpointSpec) : EndpointSpec :=
  mkSpec (ClusterID ep) (CableName ep) (HealthCheckIP ep) (HealthCheckIPs ep) (Hostname ep) (Subnets ep)
    (PrivateIP ep) (PrivateIPs ep) (PublicIP ep) (PublicIPs ep) (NATEnabled ep) (Backend ep)
    (<[key := v]> (BackendConfig ep)).

Definition on_endpoint (f : EndpointSpec -> EndpointSpec) (c : Connection) : Connection :=
  mkConnection (Status c) (StatusMessage c) (f (conn_Endpoint c)) (UsingIP c) (UsingNAT c) (LatencyRTT c).

Definition peerTrafficDelta (c : Connection) (key : string) (newVal : Z) : Z * Connection :=
  match BackendConfig (conn_Endpoint c) !! key with
  | Some s =>
      match Strconv.ParseInt s with
      | Ok i => (int64 (newVal - i), c)
      | Err _ => (0, on_endpoint (set_config key (Strconv.Itoa newVal)) c)
      end
  | None => (0, on_endpoint (set_config key (Strconv.Itoa newVal)) c)
  end.

Definition status_str (s : ConnectionStatus) : string :=
  match s with
  | StatusUnset => ""
  | Connected => "connected"
  | Connecting => "connecting"
  | ConnectionError => "error"
  | ConnectionNone => "none"
  end.

(** [SetStatus] and the record of it in the metrics. *)
Definition set_status (local : EndpointSpec) (status : ConnectionStatus) (message : string)
    (c : Connection) (m : Metrics.metrics G) : Connection * Metrics.metrics G :=
  let c := SetStatus status message c in
  (c, Metrics.RecordConnection nowNs cableDriverName local (conn_Endpoint c) (status_str (Status c)) false (GetFamily c) m).

Definition saveAndRecordPeerTraffic (local : EndpointSpec) (lc tx rx : Z) (family : IPFamily)
    (c : Connection) (m : Metrics.metrics G) : Connection * Metrics.metrics G :=
  let c := on_endpoint (fun ep => set_config receiveBytes (Strconv.Itoa rx)
                          (set_config transmitBytes (Strconv.Itoa tx) (set_config lastChecked (Strconv.Itoa lc) ep))) c in
  (c, Metrics.RecordRxBytes cableDriverName local (conn_Endpoint c) rx family
        (Metrics.RecordTxBytes cableDriverName local (conn_Endpoint c) tx family m)).

Definition now_ms : Z := Milliseconds nowNs.
Definition keepAliveMS : Z := Milliseconds KeepAliveInterval + 2.

Definition updateConnectionForPeer (local : EndpointSpec) (p : Peer) (c : Connection) (m : Metrics.metrics G) :
    Connection * Metrics.metrics G :=
  let '(lc, c) := peerTrafficDelta c lastChecked now_ms in
  if lc <? keepAliveMS then (c, m)
  else
    let '(tx, c) := peerTrafficDelta c transmitBytes (TransmitBytes p) in
    let '(rx, c) := peerTrafficDelta c receiveBytes (ReceiveBytes p) in
    match LastHandshakeTime p with
    | None =>
        if Milliseconds HandshakeTimeout <? lc then set_status local ConnectionError "no initial handshake" c m
        else if (0 <? tx) || (0 <? rx) then set_status local Connecting "no initial handshake yet" c m
        else (c, m)
    | Some t =>
        if (0 <? tx) || (0 <? rx) then
          let family := GetFamily c in
          let '(c, m) := set_status local Connected "Rx, Tx" c m in
          saveAndRecordPeerTraffic local now_ms (TransmitBytes p) (ReceiveBytes p) family c m
        else if HandshakeTimeout <? nowNs - t then set_status local ConnectionError "no handshake" c m
        else if lc <? 2 * keepAliveMS then (c, m)
        else set_status local ConnectionError "no bytes sent or received" c m
    end.

(** ** Peers *)

Definition removePeer (key : string) : M unit :=
  on_world "failed to remove WireGuard peer"
    (ConfigureDevice (mkDeviceConfig None None false [mkPeerConfig key true "" None 0 []])).

Definition peerByKey (key : string) : M Peer :=
  d ← on_world "failed to find device" Device;
  match List.find (fun p => peer_PublicKey p =?? key) (snd (d : string * list Peer)) with
  | Some p => mret p
  | None => fail "peer not found"
  end.

(** The connection of a cluster, mutated in place. *)
Definition update_connection (cid : string) (p : Peer) : M unit :=
  modifyw (fun w =>
    match connections w !! cid with
    | None => w
    | Some c => let '(c, m) := updateConnectionForPeer (localEndpoint w) p c (metrics w) in
                with_connections (insert cid c) (with_metrics (fun _ => m) w)
    end).

Definition updatePeerStatus (cid key : string) : M unit :=
  r ← attempt (peerByKey key);
  match r : result string Peer with
  | Ok p => update_connection cid p
  | Err _ =>
      modifyw (fun w =>
        match connections w !! cid with
        | None => w
        | Some c => let '(c, m) := set_status (localEndpoint w) ConnectionError "cannot fetch status for peer" c (metrics w) in
                    with_connections (insert cid c) (with_metrics (fun _ => m) w)
        end)
  end.

(** The outcome is only logged. *)
Definition verifyNewPeer (peerCfg : PeerConfig) : M unit :=
  p ← peerByKey (pc_PublicKey peerCfg);
  if negb (peer_PresharedKey p =?? pc_PresharedKey peerCfg) then fail "peer PresharedKey does not match configured value"
  else if negb (peer_Endpoint p =?? pc_Endpoint peerCfg) then fail "peer's Endpoint does not match configured"
  else if negb (peer_AllowedIPs p =?? pc_AllowedIPs peerCfg) then fail "peer's AllowedIPs does not match configured"
  else mret tt.

Definition keyMismatch (cid key : string) (w : wireguard) : bool :=
  match connections w !! cid with
  | None => true
  | Some c => negb ((keyFromSpec (conn_Endpoint c)).1 =?? key)
  end.

(** ** The operations of the driver *)

Definition setWGLink : eff W string unit := fun w =>
  let '(r, w) := wg_LinkByName w in
  let '(d, w) := match r with Ok _ => wg_LinkDel w | Err _ => (Ok tt, w) end in
  match d with
  | Err _ => (Err "failed to delete existing WireGuard device", w)
  | Ok _ => let '(r, w) := wg_LinkAdd w in (map_err (fun _ => "failed to add WireGuard device") r, w)
  end.

(** After the client was opened, any error closes it. *)
Definition closing {A} (m : eff W string A) : eff W string A := fun w =>
  match m w with
  | (Err e, w) => (Err e, CloseClient w)
  | (Ok a, w) => (Ok a, w)
  end.

(** [env] is the driver's part of the environment with the resolved key, [Update]
    and [Spec] those of the local endpoint. *)
Definition NewDriver (env : result string Z) (resolvedPSK : result string string)
    (Spec_ : W -> EndpointSpec) (Update : (EndpointSpec -> EndpointSpec) -> eff W string unit)
    (m : Metrics.metrics G) : eff W string wireguard :=
  natt ← lift_result env;
  key ← lift_result resolvedPSK;
  if (key =?? "") || (key =?? "default psk")
  then fail "CE_IPSEC_PSK must be set to a strong random value for the WireGuard driver"
  else
    _ ← setWGLink;
    _ ← NewClient;
    closing (
      psKey ← lift_result (genPsk key);
      priv ← GeneratePrivateKey;
      w ← getw;
      match GetBackendPort (Spec_ w) UDPPortConfig natt with
      | (_, Some _) => fail "error parsing the port from local endpoint"
      | (port, None) =>
          _ ← ConfigureDevice (mkDeviceConfig (Some priv) (Some port) true []);
          _ ← Update (fun existing => set_config InterfaceNameConfig DefaultDeviceName
                                        (set_config PublicKey (public_of priv) existing));
          w ← getw;
          mret (mkWireguard (Spec_ w) ∅ natt psKey w m)
      end).

Definition Init : M unit :=
  _ ← on_world "cannot get wireguard link by name" wg_InterfaceByName;
  d ← on_world "wgctrl cannot find WireGuard device" Device;
  w ← getw;
  if negb ((keyFromSpec (localEndpoint w)).1 =?? (d : string * list Peer).1)
  then fail "endpoint public key is different from device key"
  else on_world "failed to bring up WireGuard device" wg_LinkSetUp.

(** The connection of a cluster with the same key is kept. *)
Definition connect_new (endpointInfo : NATEndpointInfo) (remoteIP : IP) (allowedIPs : list IPNet) (remoteKey : string) : M string :=
  let remote := Spec (info_Endpoint endpointInfo) in
  let ip := UseIP endpointInfo in
  let connection := SetStatus Connecting "Connection has been created but not yet started"
                      (NewConnection remote ip (UseNAT endpointInfo)) in
  _ ← modifyw (with_connections (insert (ClusterID remote) connection));
  w ← getw;
  let port := (GetBackendPort remote UDPPortConfig (NATTPort w)).1 in
  let peerCfg := mkPeerConfig remoteKey false (psk w) (Some (remoteIP, port)) KeepAliveInterval allowedIPs in
  _ ← on_world "failed to configure peer" (ConfigureDevice (mkDeviceConfig None None false [peerCfg]));
  _ ← ignore (verifyNewPeer peerCfg);
  _ ← modifyw (fun w => with_metrics (Metrics.RecordConnection nowNs cableDriverName (localEndpoint w) remote
                          "connected" true (UseFamily endpointInfo)) w);
  mret ip.

Definition ConnectToEndpoint (endpointInfo : NATEndpointInfo) : M string :=
  let remote := Spec (info_Endpoint endpointInfo) in
  let ip := UseIP endpointInfo in
  match ParseIP ip with
  | [] => fail "failed to parse remote IP"
  | remoteIP =>
      match ParseSubnets remote (UseFamily endpointInfo) with
      | Err _ => fail "panic: bad subnet"
      | Ok allowedIPs =>
          match keyFromSpec remote with
          | (_, false) => fail "failed to obtain public key for endpoint"
          | (remoteKey, true) =>
              w ← getw;
              match connections w !! ClusterID remote with
              | None => connect_new endpointInfo remoteIP allowedIPs remoteKey
              | Some oldCon =>
                  match keyFromSpec (conn_Endpoint oldCon) with
                  | (oldKey, true) =>
                      if oldKey =?? remoteKey then
                        _ ← updatePeerStatus (ClusterID remote) oldKey;
                        mret ip
                      else
                        _ ← ignore (removePeer oldKey);
                        _ ← modifyw (with_connections (delete (ClusterID remote)));
                        connect_new endpointInfo remoteIP allowedIPs remoteKey
                  | (_, false) =>
                      _ ← modifyw (with_connections (delete (ClusterID remote)));
                      connect_new endpointInfo remoteIP allowedIPs remoteKey
                  end
              end
          end
      end
  end.

Definition DisconnectFromEndpoint (remote : EndpointSpec) (family : IPFamily) : M unit :=
  match keyFromSpec remote with
  | (_, false) => fail "failed to parse peer public key"
  | (remoteKey, true) =>
      _ ← ignore (removePeer remoteKey);
      w ← getw;
      if keyMismatch (ClusterID remote) remoteKey w then mret tt
      else
        _ ← modifyw (with_connections (delete (ClusterID remote)));
        modifyw (fun w => with_metrics (Metrics.RecordDisconnected cableDriverName (localEndpoint w) remote family) w)
  end.

(** The cluster whose connection has the key. *)
Definition connectionByKey (key : string) (w : wireguard) : option string :=
  fst <$> List.find (fun p => key =?? (keyFromSpec (conn_Endpoint p.2)).1) (range (connections w)).

Fixpoint collect_connections (peers : list Peer) (acc : list Connection) : M (list Connection) :=
  match peers with
  | [] => mret acc
  | p :: peers =>
      w ← getw;
      match connectionByKey (peer_PublicKey p) w with
      | None => _ ← ignore (removePeer (peer_PublicKey p)); collect_connections peers acc
      | Some cid =>
          _ ← update_connection cid p;
          w ← getw;
          collect_connections peers (acc ++ match connections w !! cid with Some c => [c] | None => [] end)
      end
  end.

Definition GetConnections : M (list Connection) :=
  d ← on_world "failed to find device" Device;
  collect_connections (snd (d : string * list Peer)) [].

Definition Cleanup : M unit := fun w =>
  match wg_LinkByName (world w) with
  | (Err e, x) => if IsLinkNotFoundError e then (Ok tt, with_world x w)
                  else (Err "error retrieving the wireguard interface", with_world x w)
  | (Ok _, x) => on_world "failed to delete existing WireGuard device" wg_LinkDel (with_world x w)
  end.

(** [GetActiveConnections] returns an empty slice, so that the engine does not look
    for duplicates. *)
Definition wireguard_driver : Driver wireguard := {|
  handle := unit;
  CableEngine.Init := Init;
  GetActiveConnections := mret tt;
  handle_len := fun _ => 0%nat;
  handle_read := fun _ _ _ => None;
  CableEngine.GetConnections := GetConnections;
  CableEngine.ConnectToEndpoint := ConnectToEndpoint;
  CableEngine.DisconnectFromEndpoint := DisconnectFromEndpoint;
  DriverCleanup := Cleanup;
|}.
End driver.
Arguments wireguard : clear implicits.

(** * The connections and the peers *)
Section connections.
Context {W G : Type} `{!WgClient W} `{!GaugeVec G} `{K8sNet}.
Context (ParseKey : string -> option string) (zero_key : string) (nowNs : Z)
  (range : gmap string Connection -> list (string * Connection)).

Abbreviation wg := (wireguard W G).
Abbreviation key_of := (fun c => keyFromSpec ParseKey zero_key (conn_Endpoint c)).
Implicit Types (w : wg) (c : Connection).

(** Polling and traffic leave the cluster, the subnets, the address and the key of
    a connection. *)
Definition same_id c c' : Prop :=
  (ClusterID (conn_Endpoint c'), Subnets (conn_Endpoint c'), UsingIP c') =
  (ClusterID (conn_Endpoint c), Subnets (conn_Endpoint c), UsingIP c) /\
  BackendConfig (conn_Endpoint c') !! PublicKey = BackendConfig (conn_Endpoint c) !! PublicKey.

#[local] Instance same_id_preorder : PreOrder same_id.
Proof. split; [by intros ?|]. intros ? ? ? [H1 H2] [H3 H4]. split; congruence. Qed.

Lemma same_id_key c c' : same_id c c' -> key_of c' = key_of c.
Proof. intros [_ Hk]. unfold keyFromSpec. by rewrite Hk. Qed.

Lemma same_id_cluster c c' : same_id c c' -> ClusterID (conn_Endpoint c') = ClusterID (conn_Endpoint c).
Proof. by intros [[= -> _ _] _]. Qed.

Lemma set_config_id key v c : key <> PublicKey -> same_id c (on_endpoint (set_config key v) c).
Proof. intros Hk. split; [done|]. cbn. by rewrite lookup_insert_ne. Qed.

Lemma peerTrafficDelta_id c key v : key <> PublicKey -> same_id c (peerTrafficDelta c key v).2.
Proof.
  intros Hk. unfold peerTrafficDelta. destruct (_ !! key) as [s|]; [destruct (Strconv.ParseInt s)|]; try done;
    by apply set_config_id.
Qed.

Lemma set_status_id local st msg c (m : Metrics.metrics G) : same_id c (set_status nowNs local st msg c m).1.
Proof. done. Qed.

Lemma save_id local lc tx rx f c (m : Metrics.metrics G) : same_id c (saveAndRecordPeerTraffic local lc tx rx f c m).1.
Proof. split; [done|]. cbn. by rewrite !lookup_insert_ne. Qed.

Lemma updateConnection_id local p c (m : Metrics.metrics G) : same_id c (updateConnectionForPeer nowNs local p c m).1.
Proof.
  unfold updateConnectionForPeer.
  pose proof (peerTrafficDelta_id c lastChecked (now_ms nowNs) ltac:(done)) as H1.
  destruct (peerTrafficDelta c lastChecked _) as [lc c1]. cbn in H1. destruct (lc <? keepAliveMS); [done|].
  pose proof (peerTrafficDelta_id c1 transmitBytes (TransmitBytes p) ltac:(done)) as H2.
  destruct (peerTrafficDelta c1 transmitBytes _) as [tx c2]. cbn in H2.
  pose proof (peerTrafficDelta_id c2 receiveBytes (ReceiveBytes p) ltac:(done)) as H3.
  destruct (peerTrafficDelta c2 receiveBytes _) as [rx c3]. cbn in H3.
  assert (H4 : same_id c c3) by (etrans; [|exact H3]; by etrans). clear H1 H2 H3.
  destruct (LastHandshakeTime p) as [t|].
  - destruct (_ || _).
    + pose proof (set_status_id local Connected "Rx, Tx" c3 m) as H5.
      destruct (set_status _ _ _ _ c3 m) as [c4 m4]. cbn in H5. etrans; [|apply save_id]. by etrans.
    + destruct (_ <? nowNs - t); [etrans; [exact H4|apply set_status_id]|]. destruct (lc <? _); [done|].
      etrans; [exact H4|apply set_status_id].
  - destruct (_ <? lc); [etrans; [exact H4|apply set_status_id]|].
    destruct (_ || _); [etrans; [exact H4|apply set_status_id]|done].
Qed.

(** Every connection stands under its cluster and has a key. *)
Definition conn_ok (cid : string) c : Prop := ClusterID (conn_Endpoint c) = cid /\ (key_of c).2 = true.

Definition wireguard_wf w : Prop := map_Forall conn_ok (connections w).

(** Updates in place. *)
Record same_conns w w' : Prop := {
  sc_dom : forall cid c, connections w !! cid = Some c -> exists c', connections w' !! cid = Some c' /\ same_id c c';
  sc_new : forall cid c', connections w' !! cid = Some c' -> exists c, connections w !! cid = Some c /\ same_id c c';
}.

#[local] Instance same_conns_preorder : PreOrder same_conns.
Proof.
  split; [intros w; split; intros cid c Hc; by exists c|]. intros w1 w2 w3 [H1 H2] [H3 H4]. split; intros cid c Hc.
  - destruct (H1 _ _ Hc) as (c2 & Hc2 & Hs). destruct (H3 _ _ Hc2) as (c3 & Hc3 & Hs'). exists c3. split; [done|by etrans].
  - destruct (H4 _ _ Hc) as (c2 & Hc2 & Hs). destruct (H2 _ _ Hc2) as (c1 & Hc1 & Hs'). exists c1. split; [done|by etrans].
Qed.

Lemma same_conns_eq w w' : connections w' = connections w -> same_conns w w'.
Proof. intros He. split; rewrite He; intros cid c Hc; by exists c. Qed.

Lemma on_world_conns {E A} what (m : eff W E A) w r w' : on_world what m w = (r, w') -> connections w' = connections w.
Proof. unfold on_world. destruct (m (world w)). by intros [= _ <-]. Qed.

Lemma insert_conns cid c c' w w' : connections w !! cid = Some c -> same_id c c' ->
  connections w' = <[cid := c']> (connections w) -> same_conns w w'.
Proof.
  intros Hc Hs He. split; intros k x; rewrite He; destruct (decide (cid = k)) as [<-|Hne].
  - intros Hx. rewrite lookup_insert_eq. replace x with c by congruence. eauto.
  - intros Hx. rewrite lookup_insert_ne by done. by exists x.
  - rewrite lookup_insert_eq. intros [= <-]. eauto.
  - rewrite lookup_insert_ne by done. intros Hx. by exists x.
Qed.

Lemma update_connection_conns cid p w r w' : update_connection nowNs cid p w = (r, w') -> same_conns w w'.
Proof.
  unfold update_connection, modifyw. intros [= _ <-]. destruct (connections w !! cid) as [c|] eqn:Hc; [|done].
  pose proof (updateConnection_id (localEndpoint w) p c (metrics w)) as Hid.
  destruct (updateConnectionForPeer _ _ _ _ _) as [c' m]. by eapply insert_conns.
Qed.

Lemma removePeer_conns key w r w' : removePeer key w = (r, w') -> connections w' = connections w.
Proof. apply on_world_conns. Qed.

Lemma peerByKey_conns key w r w' : peerByKey key w = (r, w') -> connections w' = connections w.
Proof.
  unfold peerByKey. intros Hp. apply eff_bind_inv in Hp as [(d & w1 & Hd & Hp)|(e & Hd & _)].
  - apply on_world_conns in Hd. destruct (List.find _ _); injection Hp as _ <-; done.
  - by apply on_world_conns in Hd.
Qed.

Lemma updatePeerStatus_conns cid key w r w' : updatePeerStatus nowNs cid key w = (r, w') -> same_conns w w'.
Proof.
  unfold updatePeerStatus. intros Hu. apply eff_bind_inv in Hu as [(p & w1 & Hp & Hu)|(e & Hp & _)];
    apply attempt_inv in Hp as (r0 & Hr0 & Hp); [|done]. injection Hr0 as ->.
  apply peerByKey_conns, same_conns_eq in Hp. etrans; [exact Hp|]. destruct r0 as [p0|e].
  - by eapply update_connection_conns.
  - unfold modifyw in Hu. injection Hu as _ <-. destruct (connections w1 !! cid) as [c|] eqn:Hc; [|done].
    unfold set_status. eapply (insert_conns cid c); [done| |reflexivity]. done.
Qed.

Lemma same_conns_wf w w' : same_conns w w' -> wireguard_wf w -> wireguard_wf w'.
Proof.
  intros [_ Hn] Hw cid c' Hc'. destruct (Hn _ _ Hc') as (c & Hc & Hs). destruct (Hw _ _ Hc) as [H1 H2].
  split; [by rewrite (same_id_cluster _ _ Hs)|by rewrite (same_id_key _ _ Hs)].
Qed.

Lemma insert_wf cid c w w' : conn_ok cid c -> connections w' = <[cid := c]> (connections w) -> wireguard_wf w -> wireguard_wf w'.
Proof. intros Hc He Hw. unfold wireguard_wf. rewrite He. by apply map_Forall_insert_2. Qed.

Lemma delete_wf cid w w' : connections w' = delete cid (connections w) -> wireguard_wf w -> wireguard_wf w'.
Proof. intros He Hw. unfold wireguard_wf. rewrite He. by apply map_Forall_delete. Qed.

Lemma eq_wf w w' : connections w' = connections w -> wireguard_wf w -> wireguard_wf w'.
Proof. intros He. unfold wireguard_wf. by rewrite He. Qed.

Lemma verifyNewPeer_conns cfg w r w' : verifyNewPeer cfg w = (r, w') -> connections w' = connections w.
Proof.
  unfold verifyNewPeer. intros Hv. apply eff_bind_inv in Hv as [(p & w1 & Hp & Hv)|(e & Hp & _)];
    apply peerByKey_conns in Hp; [|done].
  repeat (destruct (negb _) in Hv; [by injection Hv as _ <-|]). by injection Hv as _ <-.
Qed.

Lemma connect_new_wf info ip nets key w r w' : (keyFromSpec ParseKey zero_key (Spec (info_Endpoint info))).2 = true ->
  wireguard_wf w -> connect_new nowNs info ip nets key w = (r, w') -> wireguard_wf w'.
Proof.
  intros Hk Hw. unfold connect_new. unfold mbind at 1, eff_bind at 1, modifyw at 1.
  unfold mbind at 1, eff_bind at 1, getw. cbv beta iota zeta.
  match goal with |- context [with_connections ?f w] => set (w1 := with_connections f w) end.
  assert (Hw1 : wireguard_wf w1).
  { eapply (insert_wf _ (SetStatus Connecting _ (NewConnection _ _ _)) w); [|reflexivity|exact Hw]. by split. }
  intros Hc. apply eff_bind_inv in Hc as [([] & w2 & H2 & Hc)|(e & H2 & _)]; apply on_world_conns in H2;
    [|by eapply eq_wf]. apply (eq_wf _ _ H2) in Hw1. clear H2.
  unfold mbind, eff_bind, ignore, modifyw, mret, eff_ret in Hc. injection Hc as _ <-. cbn.
  destruct (verifyNewPeer _ w2) as [r3 w3] eqn:Hv. apply verifyNewPeer_conns in Hv. by eapply eq_wf.
Qed.

Lemma connect_wf info w r w' : wireguard_wf w ->
  ConnectToEndpoint ParseKey zero_key nowNs info w = (r, w') -> wireguard_wf w'.
Proof.
  intros Hw. unfold ConnectToEndpoint. cbv zeta. destruct (ParseIP (UseIP info)) as [|b ip]; [by intros [= _ <-]|].
  destruct (ParseSubnets _ _) as [nets|e]; [|by intros [= _ <-]].
  destruct (keyFromSpec ParseKey zero_key (Spec (info_Endpoint info))) as [key []] eqn:Hk; [|by intros [= _ <-]].
  assert (Hk2 : (keyFromSpec ParseKey zero_key (Spec (info_Endpoint info))).2 = true) by (by rewrite Hk).
  unfold mbind at 1, eff_bind at 1, getw. cbv beta iota.
  destruct (connections w !! _) as [old|] eqn:Hold; [|by apply connect_new_wf].
  destruct (keyFromSpec ParseKey zero_key (conn_Endpoint old)) as [okey []].
  - case_bool_decide as Heq.
    + intros Hc. apply eff_bind_inv in Hc as [([] & w1 & H1 & Hc)|(e & H1 & _)]; apply updatePeerStatus_conns in H1;
        [injection Hc as _ <-|]; by eapply same_conns_wf.
    + unfold mbind at 1, eff_bind at 1, ignore. cbv beta iota. destruct (removePeer okey w) as [r1 w1] eqn:Hr. cbn [snd].
      apply removePeer_conns in Hr. apply (eq_wf _ _ Hr) in Hw.
      unfold mbind at 1, eff_bind at 1, modifyw. cbv beta iota. apply connect_new_wf; [done|].
      by eapply delete_wf.
  - unfold mbind at 1, eff_bind at 1, modifyw. cbv beta iota. apply connect_new_wf; [done|]. by eapply delete_wf.
Qed.

Lemma disconnect_wf remote f w r w' : wireguard_wf w ->
  DisconnectFromEndpoint ParseKey zero_key remote f w = (r, w') -> wireguard_wf w'.
Proof.
  intros Hw. unfold DisconnectFromEndpoint. destruct (keyFromSpec _ _ _) as [key []]; [|by intros [= _ <-]].
  unfold mbind at 1, eff_bind at 1, ignore. cbv beta iota. destruct (removePeer key w) as [r1 w1] eqn:Hr. cbn [snd].
  apply removePeer_conns in Hr. apply (eq_wf _ _ Hr) in Hw. unfold mbind at 1, eff_bind at 1, getw. cbv beta iota.
  destruct (keyMismatch _ _ _ _ _); [by intros [= _ <-]|]. intros [= _ <-]. by eapply delete_wf.
Qed.

(** ** Reading the connections *)

(** The clusters of the connections, and the key each of them has. *)
Definition has_key w (key : string) : Prop := map_Exists (fun _ c => (key_of c).1 = key) (connections w).

Context (range_ok : forall m p, p ∈ range m <-> m !! p.1 = Some p.2).

Lemma connectionByKey_Some key w cid : connectionByKey ParseKey zero_key range key w = Some cid ->
  exists c, connections w !! cid = Some c /\ (key_of c).1 = key.
Proof.
  unfold connectionByKey. destruct (List.find _ _) as [[k c]|] eqn:Hf; [|done]. intros [= <-].
  apply List.find_some in Hf as [Hin Hk]. apply list_elem_of_In, range_ok in Hin. apply bool_decide_eq_true in Hk. by exists c.
Qed.

Lemma connectionByKey_None key w : connectionByKey ParseKey zero_key range key w = None -> ~ has_key w key.
Proof.
  unfold connectionByKey. destruct (List.find _ _) as [p|] eqn:Hf; [done|]. intros _ (cid & c & Hc & Hk).
  assert (Hin : List.In (cid, c) (range (connections w))) by (by apply list_elem_of_In, range_ok).
  apply (List.find_none _ _ Hf) in Hin. by rewrite bool_decide_true in Hin.
Qed.

Lemma same_conns_key w w' key : same_conns w w' -> has_key w' key <-> has_key w key.
Proof.
  intros [H1 H2]. split; intros (cid & c & Hc & Hk).
  - destruct (H2 _ _ Hc) as (c0 & Hc0 & Hs). exists cid, c0. by rewrite <- (same_id_key _ _ Hs).
  - destruct (H1 _ _ Hc) as (c0 & Hc0 & Hs). exists cid, c0. by rewrite (same_id_key _ _ Hs).
Qed.

#[global] Instance has_key_dec w key : Decision (has_key w key).
Proof. unfold has_key. apply _. Defined.

Lemma filter_same_conns w w' (l : list string) : same_conns w w' -> filter (has_key w') l = filter (has_key w) l.
Proof. intros Hs. apply filter_ext_elem. intros key _. by apply same_conns_key. Qed.

Lemma collect_spec peers : forall acc w r w',
  collect_connections ParseKey zero_key nowNs range peers acc w = (r, w') -> wireguard_wf w ->
  same_conns w w' /\ exists l, r = Ok (acc ++ l) /\
    (fun c => (key_of c).1) <$> l = filter (has_key w) (peer_PublicKey <$> peers) /\
    Forall (fun c => exists c0, connections w !! ClusterID (conn_Endpoint c) = Some c0 /\ same_id c0 c) l.
Proof.
  induction peers as [|p peers IH]; intros acc w r w' Hrun Hw; cbn [collect_connections] in Hrun.
  { injection Hrun as <- <-. split; [done|]. exists []. by rewrite app_nil_r. }
  unfold mbind at 1, eff_bind at 1, getw in Hrun. rewrite fmap_cons, filter_cons.
  destruct (connectionByKey ParseKey zero_key range (peer_PublicKey p) w) as [cid|] eqn:Hk.
  - apply connectionByKey_Some in Hk as (c0 & Hc0 & Hk).
    rewrite decide_True by (by exists cid, c0).
    apply eff_bind_inv in Hrun as [([] & w1 & H1 & Hrun)|(e & [=] & _)]. apply update_connection_conns in H1 as Hs.
    unfold mbind, eff_bind, getw in Hrun. destruct (sc_dom _ _ Hs _ _ Hc0) as (c1 & Hc1 & Hid). rewrite Hc1 in Hrun.
    destruct (IH _ _ _ _ Hrun (same_conns_wf _ _ Hs Hw)) as (Hs' & l & -> & Hkeys & Hall).
    split; [by etrans|]. exists (c1 :: l). rewrite <- app_assoc. split; [done|]. split.
    + rewrite fmap_cons, Hkeys, (filter_same_conns _ _ _ Hs), (same_id_key _ _ Hid). by f_equal.
    + constructor.
      * exists c0. rewrite (same_id_cluster _ _ Hid). destruct (Hw _ _ Hc0) as [-> _]. done.
      * eapply Forall_impl; [exact Hall|]. intros c (c2 & Hc2 & Hid2).
        destruct (sc_new _ _ Hs _ _ Hc2) as (c3 & Hc3 & Hid3). exists c3. split; [done|by etrans].
  - apply connectionByKey_None in Hk. rewrite decide_False by done.
    apply eff_bind_inv in Hrun as [([] & w1 & H1 & Hrun)|(e & [=] & _)].
    unfold ignore in H1. destruct (removePeer _ w) as [r1 w2] eqn:Hr. injection H1 as <-.
    apply removePeer_conns, same_conns_eq in Hr.
    destruct (IH _ _ _ _ Hrun (same_conns_wf _ _ Hr Hw)) as (Hs' & l & -> & Hkeys & Hall).
    split; [by etrans|]. exists l. split; [done|]. rewrite Hkeys, (filter_same_conns _ _ _ Hr). split; [done|].
    eapply Forall_impl; [exact Hall|]. intros c (c2 & Hc2 & Hid2).
    destruct (sc_new _ _ Hr _ _ Hc2) as (c3 & Hc3 & Hid3). exists c3. split; [done|by etrans].
Qed.

Lemma get_connections_wf w r w' : GetConnections ParseKey zero_key nowNs range w = (r, w') -> wireguard_wf w -> wireguard_wf w'.
Proof.
  unfold GetConnections. intros Hrun Hw. apply eff_bind_inv in Hrun as [(d & w1 & Hd & Hrun)|(e & Hd & _)];
    apply on_world_conns in Hd; apply (eq_wf _ _ Hd) in Hw; [|done].
  apply collect_spec in Hrun as [Hs _]; [|done]. by eapply same_conns_wf.
Qed.

End connections.

(** ** Runs of the driver *)
Section runs.
Context {W G : Type} `{!WgClient W} `{!GaugeVec G} `{K8sNet}.
Context (ParseKey : string -> option string) (zero_key : string)
  (range : gmap string Connection -> list (string * Connection)).
Hypothesis range_ok : forall m p, p ∈ range m <-> m !! p.1 = Some p.2.

Abbreviation wg := (wireguard W G).
Abbreviation key_of := (fun c => keyFromSpec ParseKey zero_key (conn_Endpoint c)).
Implicit Types (w : wg) (c : Connection).

(** Every call of the driver. *)
Inductive wg_op := WgInit | WgConnect (info : NATEndpointInfo) | WgDisconnect (remote : EndpointSpec) (f : IPFamily)
  | WgList | WgCleanup.

Definition wg_run_op (nowNs : Z) (op : wg_op) (w : wg) : wg :=
  match op with
  | WgInit => (Init ParseKey zero_key w).2
  | WgConnect info => (ConnectToEndpoint ParseKey zero_key nowNs info w).2
  | WgDisconnect remote f => (DisconnectFromEndpoint ParseKey zero_key remote f w).2
  | WgList => (GetConnections ParseKey zero_key nowNs range w).2
  | WgCleanup => (Cleanup w).2
  end.

(** Calls with their times. *)
Definition wg_run (ops : list (Z * wg_op)) (w : wg) : wg := foldl (fun w op => wg_run_op op.1 op.2 w) w ops.

Lemma wg_op_wf nowNs op w : wireguard_wf ParseKey zero_key w -> wireguard_wf ParseKey zero_key (wg_run_op nowNs op w).
Proof.
  intros Hw. destruct op as [|info|remote f| |]; cbn [wg_run_op].
  - destruct (Init _ _ w) as [r w'] eqn:Hi. cbn. unfold Init in Hi.
    apply eff_bind_inv in Hi as [([] & w1 & H1 & Hi)|(e & H1 & _)]; apply on_world_conns in H1; apply (eq_wf _ _ _ _ H1) in Hw; [|done].
    apply eff_bind_inv in Hi as [(d & w2 & H2 & Hi)|(e & H2 & _)]; apply on_world_conns in H2; apply (eq_wf _ _ _ _ H2) in Hw; [|done].
    unfold mbind, eff_bind, getw in Hi. destruct (negb _); [by injection Hi as _ <-|]. apply on_world_conns in Hi. by eapply eq_wf.
  - destruct (ConnectToEndpoint _ _ _ _ w) eqn:Hc. by eapply connect_wf.
  - destruct (DisconnectFromEndpoint _ _ _ _ w) eqn:Hc. by eapply disconnect_wf.
  - destruct (GetConnections _ _ _ _ w) eqn:Hc. by eapply get_connections_wf.
  - unfold Cleanup. destruct (wg_LinkByName (world w)) as [[u|e] x].
    + destruct (on_world _ _ _) as [r w'] eqn:Ho. apply on_world_conns in Ho. by eapply eq_wf.
    + by destruct (IsLinkNotFoundError e).
Qed.

Lemma NoDup_fmap_inj {A B} (f : A -> B) l x y : NoDup (f <$> l) -> x ∈ l -> y ∈ l -> f x = f y -> x = y.
Proof.
  intros Hnd Hx Hy Hf. apply list_elem_of_lookup in Hx as [i Hi]. apply list_elem_of_lookup in Hy as [j Hj].
  assert (i = j) as <-; [|congruence]. eapply NoDup_lookup; [exact Hnd|rewrite list_lookup_fmap, Hi; done|].
  rewrite list_lookup_fmap, Hj. cbn. by rewrite Hf.
Qed.

Lemma NoDup_of_fmap {A B} (f : A -> B) l : NoDup (f <$> l) -> NoDup l.
Proof. apply NoDup_fmap_1. Qed.

(** C4: In every state the driver reaches, the connections it lists are those of
    the device's peers whose keys it knows, one for each such peer in their order,
    and no two of them are with the same cluster. *)
Theorem wireguard_one_per_cluster nowNs ops w0 w r w' : connections w0 = ∅ -> w = wg_run ops w0 ->
  (forall x k peers x', Device x = (Ok (k, peers), x') -> NoDup (peer_PublicKey <$> peers)) ->
  GetConnections ParseKey zero_key nowNs range w = (r, w') ->
  forall l, r = Ok l ->
  NoDup ((fun c => ClusterID (conn_Endpoint c)) <$> l) /\
  exists k peers x, Device (world w) = (Ok (k, peers), x) /\
    (fun c => (key_of c).1) <$> l = filter (has_key ParseKey zero_key w) (peer_PublicKey <$> peers).
Proof.
  intros H0 Hrun Hdev Hget l Hl.
  assert (Hw : wireguard_wf ParseKey zero_key w).
  { rewrite Hrun. assert (Hwf0 : wireguard_wf ParseKey zero_key w0) by (unfold wireguard_wf; rewrite H0; apply map_Forall_empty).
    clear -Hwf0 range_ok. unfold wg_run. revert w0 Hwf0. induction ops as [|op ops IH]; [done|]. intros w0 Hw0. by apply IH, wg_op_wf. }
  unfold GetConnections in Hget. apply eff_bind_inv in Hget as [([k peers] & w1 & Hd & Hget)|(e & _ & ->)]; [|done].
  unfold on_world in Hd. destruct (Device (world w)) as [[d|e] x] eqn:Hdv; [|done]. cbn in Hd. injection Hd as -> <-.
  assert (Hs1 : same_conns w (with_world x w)) by by apply same_conns_eq.
  apply collect_spec in Hget as (_ & l' & -> & Hkeys & Hall); [|done|by eapply same_conns_wf]. injection Hl as <-.
  cbn [snd app] in *. rewrite (filter_same_conns _ _ _ _ _ Hs1) in Hkeys. split; [|exists k, peers, x; split; [reflexivity|exact Hkeys]].
  assert (Hnd : NoDup ((fun c => (key_of c).1) <$> l')) by (rewrite Hkeys; by eapply NoDup_filter, Hdev).
  apply NoDup_fmap_2_strong; [|by eapply NoDup_of_fmap]. intros c c' Hc Hc' Hcl.
  rewrite Forall_forall in Hall. destruct (Hall c Hc) as (c0 & Hc0 & Hid). destruct (Hall c' Hc') as (c0' & Hc0' & Hid').
  rewrite Hcl, Hc0' in Hc0. injection Hc0 as ->.
  eapply (NoDup_fmap_inj (fun c => (key_of c).1)); [exact Hnd|done..|]. cbn.
  by rewrite (same_id_key _ _ _ _ Hid), (same_id_key _ _ _ _ Hid').
Qed.
End runs.

(** * A known key is not connected again *)
Section reconnect.
Context {W G : Type} `{!WgClient W} `{!GaugeVec G} `{K8sNet}.
Context (ParseKey : string -> option string) (zero_key : string) (nowNs : Z).
(** Asking for the device changes nothing. *)
Hypothesis device_pure : forall x r x', Device (W := W) x = (r, x') -> x' = x.

Lemma peerByKey_world key (w w' : wireguard W G) r : peerByKey key w = (r, w') -> world w' = world w.
Proof.
  unfold peerByKey, mbind, eff_bind, on_world. destruct (Device (world w)) as [[d|e] x] eqn:Hd; apply device_pure in Hd as ->; cbn.
  - destruct (List.find _ _); intros [= _ <-]; done.
  - by intros [= _ <-].
Qed.

Lemma updatePeerStatus_world cid key (w w' : wireguard W G) r : updatePeerStatus nowNs cid key w = (r, w') -> world w' = world w.
Proof.
  unfold updatePeerStatus. intros Hu. apply eff_bind_inv in Hu as [(p & w1 & Hp & Hu)|(e & Hp & _)];
    apply attempt_inv in Hp as (r0 & Hr0 & Hp); [|done]. injection Hr0 as ->. apply peerByKey_world in Hp. rewrite <- Hp.
  destruct r0 as [p0|e]; unfold update_connection, modifyw in Hu; injection Hu as _ <-;
    (destruct (connections w1 !! cid); [|done]).
  - by destruct (updateConnectionForPeer _ _ _ _ _).
  - done.
Qed.

(** An endpoint with the key of the cluster's connection is reported as connected
    at its new address, but neither the device nor the connection changes: a new
    address, other subnets or a second address family never reach the peer. *)
Lemma known_key_not_updated info old key ip nets (w : wireguard W G) :
  let remote := Spec (info_Endpoint info) in
  ParseIP (UseIP info) = ip -> ip <> [] -> ParseSubnets remote (UseFamily info) = Ok nets ->
  connections w !! ClusterID remote = Some old ->
  keyFromSpec ParseKey zero_key remote = (key, true) ->
  keyFromSpec ParseKey zero_key (conn_Endpoint old) = (key, true) ->
  exists w' c', ConnectToEndpoint ParseKey zero_key nowNs info w = (Ok (UseIP info), w') /\
    world w' = world w /\ connections w' !! ClusterID remote = Some c' /\
    Subnets (conn_Endpoint c') = Subnets (conn_Endpoint old) /\ UsingIP c' = UsingIP old.
Proof.
  cbv zeta. intros Hip Hne Hnets Hold Hk Hk'. unfold ConnectToEndpoint. cbv zeta. rewrite Hip.
  destruct ip as [|b ip]; [done|]. rewrite Hnets, Hk. unfold mbind at 1, eff_bind at 1, getw. cbv beta iota.
  rewrite Hold, Hk', bool_decide_true by done. unfold mbind, eff_bind.
  destruct (updatePeerStatus _ _ _ w) as [r w'] eqn:Hu.
  pose proof (updatePeerStatus_world _ _ _ _ _ Hu) as Hwd. pose proof (updatePeerStatus_conns _ _ _ _ _ _ Hu) as Hs.
  destruct (sc_dom _ _ Hs _ _ Hold) as (c' & Hc' & [[= _ Hsub Hu'] _]).
  assert (r = Ok tt) as ->; [|by exists w', c'].
  unfold updatePeerStatus, mbind, eff_bind, attempt in Hu. destruct (peerByKey key w) as [[p|e] w1];
    unfold update_connection, modifyw in Hu; by injection Hu as <- _.
Qed.
End reconnect.

(** * The status follows the traffic *)
Section status.
Context {G : Type} `{!GaugeVec G} `{K8sNet}.
Implicit Types (c : Connection) (m : Metrics.metrics G) (p : Peer).

Definition saved_value c (key : string) (v : Z) : Prop :=
  exists s, BackendConfig (conn_Endpoint c) !! key = Some s /\ Strconv.ParseInt s = Ok v.

(** The time and the counters of the last poll that saw traffic. *)
Record saved (s tx rx : Z) c : Prop := {
  saved_time : saved_value c lastChecked s;
  saved_tx : saved_value c transmitBytes tx;
  saved_rx : saved_value c receiveBytes rx;
}.

Lemma delta_saved c key i v : saved_value c key i -> 0 <= i <= v -> v < 2 ^ 63 -> peerTrafficDelta c key v = (v - i, c).
Proof.
  intros (s & Hs & Hp) Hi Hv. unfold peerTrafficDelta. rewrite Hs, Hp. f_equal. apply int64_id. lia.
Qed.

Lemma saved_config c key v : 0 <= v < 2 ^ 63 -> saved_value (on_endpoint (set_config key (Strconv.Itoa v)) c) key v.
Proof. intros Hv. exists (Strconv.Itoa v). cbn. rewrite lookup_insert_eq. split; [done|by apply ParseInt_Itoa]. Qed.

(** One poll of a peer that had a handshake, late enough to see a change. *)
Lemma poll_cases nowNs local p s tx rx t c m : saved s tx rx c -> LastHandshakeTime p = Some t ->
  0 <= s <= now_ms nowNs -> now_ms nowNs < 2 ^ 63 -> 0 <= tx <= TransmitBytes p -> TransmitBytes p < 2 ^ 63 ->
  0 <= rx <= ReceiveBytes p -> ReceiveBytes p < 2 ^ 63 ->
  let c' := (updateConnectionForPeer nowNs local p c m).1 in
  if now_ms nowNs - s <? keepAliveMS then c' = c
  else if (tx <? TransmitBytes p) || (rx <? ReceiveBytes p)
  then Status c' = Connected /\ saved (now_ms nowNs) (TransmitBytes p) (ReceiveBytes p) c'
  else saved s tx rx c' /\
    Status c' = if (HandshakeTimeout <? nowNs - t) || (2 * keepAliveMS <=? now_ms nowNs - s)
                then ConnectionError else Status c.
Proof.
  intros [Hs Htx Hrx] Hh Hs1 Hs2 Htx1 Htx2 Hrx1 Hrx2. cbv zeta. unfold updateConnectionForPeer. rewrite (delta_saved c _ s) by done.
  destruct (_ <? keepAliveMS); [done|]. rewrite (delta_saved c _ tx), (delta_saved c _ rx), Hh by done.
  assert (Heq : (0 <? TransmitBytes p - tx) || (0 <? ReceiveBytes p - rx) = (tx <? TransmitBytes p) || (rx <? ReceiveBytes p)).
  { f_equal; apply eq_true_iff_eq; rewrite !Z.ltb_lt; lia. }
  rewrite Heq. destruct ((tx <? TransmitBytes p) || (rx <? ReceiveBytes p)).
  - split; [done|]. unfold set_status, saveAndRecordPeerTraffic. cbn [fst].
    split; (eexists; cbn; split; [|apply ParseInt_Itoa; lia]); by simplify_map_eq.
  - destruct (HandshakeTimeout <? nowNs - t); [by split|]. cbn [orb].
    rewrite (Z.leb_antisym). destruct (_ <? 2 * keepAliveMS); by split.
Qed.

(** A run of polls: their times in nanoseconds and what the device shows then. *)
Definition polls (local : EndpointSpec) (l : list (Z * Peer)) (cm : Connection * Metrics.metrics G) :
    Connection * Metrics.metrics G :=
  foldl (fun cm np => updateConnectionForPeer np.1 local np.2 cm.1 cm.2) cm l.

(** Times and counters stay in range; the device had a handshake. *)
Definition poll_ok (s : Z) (np : Z * Peer) : Prop :=
  s <= now_ms np.1 < 2 ^ 63 /\ 0 <= TransmitBytes np.2 < 2 ^ 63 /\ 0 <= ReceiveBytes np.2 < 2 ^ 63 /\
  is_Some (LastHandshakeTime np.2).

(** Each poll sees more traffic than the one before. *)
Fixpoint active (s tx rx : Z) (l : list (Z * Peer)) : Prop :=
  match l with
  | [] => True
  | np :: l =>
      poll_ok s np /\ tx <= TransmitBytes np.2 /\ rx <= ReceiveBytes np.2 /\
      (tx < TransmitBytes np.2 \/ rx < ReceiveBytes np.2) /\
      active (now_ms np.1) (TransmitBytes np.2) (ReceiveBytes np.2) l
  end.

Lemma active_run local l : forall s tx rx s' tx' rx' c m, saved s tx rx c ->
  0 <= s <= s' -> 0 <= tx <= tx' -> 0 <= rx <= rx' -> active s' tx' rx' l ->
  let c' := (polls local l (c, m)).1 in Status c' = Status c \/ Status c' = Connected.
Proof.
  induction l as [|[n p] l IH]; intros s tx rx s' tx' rx' c m Hsv Hs Ht Hr Ha; [by left|].
  destruct Ha as (((Hn1 & Hn2) & Ht2 & Hr2 & [t Hh]) & Hta & Hra & Hgrow & Hrest). cbn in *.
  pose proof (poll_cases n local p s tx rx t c m Hsv Hh ltac:(lia) ltac:(lia) ltac:(lia) ltac:(lia) ltac:(lia) ltac:(lia)) as Hp.
  cbn zeta in Hp. destruct (updateConnectionForPeer n local p c m) as [c1 m1]. cbn [fst] in Hp.
  destruct (now_ms n - s <? keepAliveMS).
  - subst c1. apply (IH s tx rx (now_ms n) (TransmitBytes p) (ReceiveBytes p)); [done|lia..|done].
  - replace ((tx <? TransmitBytes p) || (rx <? ReceiveBytes p)) with true in Hp.
    2: { symmetry. apply orb_true_iff. rewrite !Z.ltb_lt. lia. }
    destruct Hp as [Hst Hsv']. right.
    destruct (IH _ _ _ (now_ms n) (TransmitBytes p) (ReceiveBytes p) c1 m1 Hsv' ltac:(lia) ltac:(lia) ltac:(lia) Hrest) as [Hx|Hx];
      cbn zeta in Hx; unfold polls in Hx; congruence.
Qed.

(** A peer whose counters stand still. *)
Definition silent (s tx rx : Z) (np : Z * Peer) : Prop :=
  poll_ok s np /\ TransmitBytes np.2 = tx /\ ReceiveBytes np.2 = rx.

Lemma silent_run local l : forall s tx rx c m, saved s tx rx c -> 0 <= s -> 0 <= tx -> 0 <= rx ->
  Forall (silent s tx rx) l -> saved s tx rx (polls local l (c, m)).1.
Proof.
  induction l as [|[n p] l IH]; intros s tx rx c m Hsv Hs Ht Hr Hl; [done|].
  apply Forall_cons in Hl as ((((Hn1 & Hn2) & Ht2 & Hr2 & [t Hh]) & <- & <-) & Hl). cbn in *.
  pose proof (poll_cases n local p s _ _ t c m Hsv Hh ltac:(lia) ltac:(lia) ltac:(lia) ltac:(lia) ltac:(lia) ltac:(lia)) as Hp.
  cbn zeta in Hp. destruct (updateConnectionForPeer n local p c m) as [c1 m1]. cbn [fst] in Hp.
  apply IH; [|done..]. destruct (_ <? keepAliveMS); [by subst|]. rewrite !Z.ltb_irrefl in Hp. apply Hp.
Qed.

(** A peer that never had a handshake. *)
Definition unshaken (s tx rx : Z) (np : Z * Peer) : Prop :=
  s <= now_ms np.1 < 2 ^ 63 /\ tx <= TransmitBytes np.2 < 2 ^ 63 /\ rx <= ReceiveBytes np.2 < 2 ^ 63 /\
  LastHandshakeTime np.2 = None.

(** One poll of it: nothing is saved. *)
Lemma unshaken_poll n local p s tx rx c m : saved s tx rx c -> 0 <= s -> 0 <= tx -> 0 <= rx -> unshaken s tx rx (n, p) ->
  let c' := (updateConnectionForPeer n local p c m).1 in
  saved s tx rx c' /\
  Status c' = if now_ms n - s <? keepAliveMS then Status c
              else if Milliseconds HandshakeTimeout <? now_ms n - s then ConnectionError
              else if (tx <? TransmitBytes p) || (rx <? ReceiveBytes p) then Connecting else Status c.
Proof.
  intros Hsv Hs0 Ht0 Hr0 ([Hn1 Hn2] & Ht & Hr & Hh). cbn [fst snd] in *. pose proof Hsv as [Hs Htx Hrx].
  cbv zeta. unfold updateConnectionForPeer. rewrite (delta_saved c _ s) by first [done | lia | split; lia].
  destruct (_ <? keepAliveMS); [done|]. rewrite (delta_saved c _ tx), (delta_saved c _ rx), Hh by first [done | lia | split; lia].
  destruct (_ <? now_ms n - s); [done|].
  assert (Heq : (0 <? TransmitBytes p - tx) || (0 <? ReceiveBytes p - rx) = (tx <? TransmitBytes p) || (rx <? ReceiveBytes p)).
  { f_equal; apply eq_true_iff_eq; rewrite !Z.ltb_lt; lia. }
  rewrite Heq. by destruct ((tx <? TransmitBytes p) || (rx <? ReceiveBytes p)).
Qed.

Lemma unshaken_run local l : forall s tx rx c m, saved s tx rx c -> 0 <= s -> 0 <= tx -> 0 <= rx ->
  Forall (unshaken s tx rx) l -> saved s tx rx (polls local l (c, m)).1.
Proof.
  induction l as [|[n p] l IH]; intros s tx rx c m Hsv Hs Ht Hr Hl; [done|].
  apply Forall_cons in Hl as (Hp & Hl).
  pose proof (unshaken_poll n local p s tx rx c m Hsv Hs Ht Hr Hp) as [Hsv' _].
  unfold polls. cbn [foldl fst snd]. destruct (updateConnectionForPeer n local p c m) as [c1 m1]. by apply IH.
Qed.

(** C38: Given a connection whose time and counters were saved, with clock and counters
    that fit in 64 bits and do not go back: it is not reported broken while each poll of its peer, which had a handshake, sees new traffic; once
    the counters of such a peer stand still, any poll at least twice the keep-alive
    interval after the last traffic that was seen reports an error, whatever polls came
    in between; and for a peer that never had a handshake, whatever polls came before, a
    poll within the keep-alive interval after the saved time leaves the status, one later
    than the handshake timeout reports an error, and one in between reports that it is
    connecting when there is traffic and else leaves the status. *)
Theorem status_follows_traffic local s tx rx c m : saved s tx rx c -> 0 <= s -> 0 <= tx -> 0 <= rx ->
  (forall l, active s tx rx l ->
     Status (polls local l (c, m)).1 = Status c \/ Status (polls local l (c, m)).1 = Connected) /\
  (forall l np, Forall (silent s tx rx) (l ++ [np]) -> 20004 <= now_ms np.1 - s ->
     Status (polls local (l ++ [np]) (c, m)).1 = ConnectionError) /\
  (forall l n p, Forall (unshaken s tx rx) (l ++ [(n, p)]) ->
     Status (polls local (l ++ [(n, p)]) (c, m)).1 =
       if now_ms n - s <? 10002 then Status (polls local l (c, m)).1
       else if 130000 <? now_ms n - s then ConnectionError
       else if (tx <? TransmitBytes p) || (rx <? ReceiveBytes p) then Connecting
       else Status (polls local l (c, m)).1).
Proof.
  intros Hsv Hs Ht Hr. split; [|split].
  - intros l Ha. by apply (active_run local l s tx rx s tx rx).
  - intros l [n p] Hl Hlate. apply Forall_app in Hl as [Hl Hnp]. rewrite Forall_singleton in Hnp.
    pose proof (silent_run local l s tx rx c m Hsv Hs Ht Hr Hl) as Hsv'.
    unfold polls in *. rewrite foldl_app. cbn [foldl]. destruct (foldl _ (c, m) l) as [c1 m1]. cbn [fst snd] in *.
    destruct Hnp as (((Hn1 & Hn2) & Ht2 & Hr2 & [t Hh]) & Htx & Hrx). cbn in *. subst tx rx.
    pose proof (poll_cases n local p s _ _ t c1 m1 Hsv' Hh ltac:(lia) ltac:(lia) ltac:(lia) ltac:(lia) ltac:(lia) ltac:(lia)) as Hp.
    cbn zeta in Hp. destruct (Z.ltb_spec (now_ms n - s) keepAliveMS) as [Hlt|_]; [change keepAliveMS with 10002 in Hlt; lia|].
    rewrite !Z.ltb_irrefl in Hp. destruct Hp as [_ ->].
    destruct (Z.leb_spec (2 * keepAliveMS) (now_ms n - s)) as [_|Hlt]; [by rewrite orb_true_r|].
    change (2 * keepAliveMS) with 20004 in Hlt. lia.
  - intros l n p Hl. apply Forall_app in Hl as [Hl Hnp]. rewrite Forall_singleton in Hnp.
    pose proof (unshaken_run local l s tx rx c m Hsv Hs Ht Hr Hl) as Hsv'.
    unfold polls in *. rewrite foldl_app. cbn [foldl]. destruct (foldl _ (c, m) l) as [c1 m1]. cbn [fst snd] in *.
    exact (proj2 (unshaken_poll n local p s tx rx c1 m1 Hsv' Hs Ht Hr Hnp)).
Qed.
End status.

(** The driver keeps the contract of the engine: it shows no active connections, so
    that the engine never looks for duplicates. *)
#[global] Instance wireguard_driver_laws {W G} `{!WgClient W} `{!GaugeVec G} `{K8sNet}
    (ParseKey : string -> option string) (zero_key : string) (nowNs : Z)
    (range : gmap string Connection -> list (string * Connection)) :
  @DriverLaws (wireguard W G) _ (wireguard_driver ParseKey zero_key nowNs range).
Proof.
  refine {| conns := fun _ => []; valid := fun _ => True |}; try done; try (by intros; left).
  intros d d' c _ Hc. by apply elem_of_nil in Hc.
Defined.

(** * A concrete device *)
Definition ex_peer (kp : string * Peer) : Peer :=
  let p := kp.2 in
  mkPeer kp.1 (peer_PresharedKey p) (peer_Endpoint p) (peer_AllowedIPs p) (LastHandshakeTime p) (ReceiveBytes p) (TransmitBytes p).

Definition ex_configure (peers : gmap string Peer) (pc : PeerConfig) : gmap string Peer :=
  if pc_Remove pc then delete (pc_PublicKey pc) peers
  else <[pc_PublicKey pc := mkPeer (pc_PublicKey pc) (pc_PresharedKey pc) (pc_Endpoint pc) (pc_AllowedIPs pc) None 0 0]> peers.

#[local] Instance ex_wg : WgClient (gmap string Peer) := {
  NewClient := mret tt;
  CloseClient x := x;
  ConfigureDevice cfg := fun x => (Ok tt, foldl ex_configure (if cfg_ReplacePeers cfg then ∅ else x) (cfg_Peers cfg));
  Device := fun x => (Ok ("local-key", ex_peer <$> map_to_list x), x);
  GeneratePrivateKey := mret "private-key";
  wg_LinkByName := fail ErrLinkNotFound;
  wg_InterfaceByName := mret tt;
  wg_LinkDel := mret tt;
  wg_LinkAdd := mret tt;
  wg_LinkSetUp := mret tt;
}.
#[local] Existing Instance k8snet_ref.
#[local] Existing Instance Metrics.gauge_ref.

Definition ex_metrics : Metrics.metrics (gmap Labels Z) := Metrics.mkMetrics ∅ ∅ ∅ ∅ ∅ ∅ ∅ ∅.
Definition ex_remote (cluster key : string) (subnets : list string) : EndpointSpec :=
  mkSpec cluster ("cable-" +:+ cluster) "" [] "node" subnets "" [] "" [] false "wireguard" {[ PublicKey := key ]}.
Definition ex_info (cluster key ip : string) (subnets : list string) : NATEndpointInfo :=
  mkInfo (mkEndpoint cluster 1 (ex_remote cluster key subnets)) false ip IPv4.

Definition ex_wireguard : wireguard (gmap string Peer) (gmap Labels Z) :=
  mkWireguard (ex_remote "east" "local-key" []) ∅ 4500 "psk" ∅ ex_metrics.

Lemma ex_device_pure (x : gmap string Peer) r x' : Device x = (r, x') -> x' = x.
Proof. cbn. intros Hd. by injection Hd. Qed.

Lemma ex_range_ok (m : gmap string Connection) p : p ∈ map_to_list m <-> m !! p.1 = Some p.2.
Proof. destruct p. apply elem_of_map_to_list. Qed.

Lemma wireguard_one_per_cluster_witness :
  let w := wg_run Some "" map_to_list [(0, WgConnect (ex_info "west" "k1" "1.2.3.4" ["10.2.0.0/16"]));
                                       (1, WgConnect (ex_info "west" "k2" "1.2.3.5" ["10.2.0.0/16"]));
                                       (2, WgConnect (ex_info "north" "k3" "1.2.3.6" ["10.3.0.0/16"]))] ex_wireguard in
  exists l w', GetConnections Some "" 3 map_to_list w = (Ok l, w') /\ length l = 2%nat /\
    NoDup ((fun c => ClusterID (conn_Endpoint c)) <$> l).
Proof.
  intros w. destruct (GetConnections Some "" 3 map_to_list w) as [r w'] eqn:Hg.
  assert (Hl : (length <$> r) = Ok 2%nat).
  { assert (Hc : (length <$> (GetConnections Some "" 3 map_to_list w).1) = Ok 2%nat) by (vm_compute; reflexivity).
    by rewrite Hg in Hc. }
  destruct r as [l|e]; [|discriminate Hl]. exists l, w'. split; [reflexivity|]. split; [by injection Hl|].
  eapply (wireguard_one_per_cluster Some "" map_to_list ex_range_ok 3 _ ex_wireguard w); [reflexivity|reflexivity| |exact Hg|reflexivity].
  intros x k peers x' [= _ <- _]. rewrite <- list_fmap_compose.
  erewrite list_fmap_ext; [apply (NoDup_fst_map_to_list x)|]. reflexivity.
Defined.

(** The remote cluster gets a new address and new subnets. *)
Lemma known_key_not_updated_witness :
  let w := wg_run Some "" map_to_list [(0, WgConnect (ex_info "west" "k1" "1.2.3.4" ["10.2.0.0/16"]))] ex_wireguard in
  exists w' c', ConnectToEndpoint Some "" 1 (ex_info "west" "k1" "5.6.7.8" ["10.9.0.0/16"]) w = (Ok "5.6.7.8", w') /\
    world w' = world w /\ connections w' !! "west" = Some c' /\ Subnets (conn_Endpoint c') = ["10.2.0.0/16"] /\ UsingIP c' = "1.2.3.4".
Proof.
  intros w. destruct (connections w !! "west") as [old|] eqn:Hold; [|vm_compute in Hold; discriminate Hold].
  assert (Hf : Subnets (conn_Endpoint old) = ["10.2.0.0/16"] /\ UsingIP old = "1.2.3.4" /\
    keyFromSpec Some "" (conn_Endpoint old) = ("k1", true)).
  { assert (Hc : (fun c => (Subnets (conn_Endpoint c), UsingIP c, keyFromSpec Some "" (conn_Endpoint c))) <$> connections w !! "west" =
      Some (["10.2.0.0/16"], "1.2.3.4", ("k1", true))) by (vm_compute; reflexivity).
    rewrite Hold in Hc. apply (inj Some) in Hc. apply pair_equal_spec in Hc as [Hc H3]. by apply pair_equal_spec in Hc as [H1 H2]. }
  destruct Hf as (<- & <- & Hk).
  destruct (ParseSubnets (Spec (info_Endpoint (ex_info "west" "k1" "5.6.7.8" ["10.9.0.0/16"]))) IPv4) as [nets|e] eqn:Hn;
    [|vm_compute in Hn; discriminate Hn].
  apply (known_key_not_updated Some "" 1 ex_device_pure
    (ex_info "west" "k1" "5.6.7.8" ["10.9.0.0/16"]) old "k1" (ParseIP "5.6.7.8") nets w); [reflexivity|vm_compute; discriminate|exact Hn|exact Hold|reflexivity|exact Hk].
Defined.

Definition ex_polled : Connection :=
  mkConnection Connected "" (set_config lastChecked "1000" (set_config transmitBytes "5" (set_config receiveBytes "7"
    (ex_remote "west" "k1" [])))) "1.2.3.4" false None.
Definition ex_counters (tx rx : Z) : Peer := mkPeer "k1" "psk" None [] (Some 0) rx tx.

Definition ex_unshaken (tx rx : Z) : Peer := mkPeer "k1" "psk" None [] None rx tx.

Lemma ex_now_ms n : now_ms (n * 1000000) = n.
Proof. unfold now_ms, Milliseconds. by apply Z.quot_mul. Qed.

Lemma status_follows_traffic_witness :
  let status l := Status (polls (ex_remote "east" "local-key" []) l (ex_polled, ex_metrics)).1 in
  status [(12000 * 1000000, ex_counters 5 7); (22000 * 1000000, ex_counters 5 7)] = ConnectionError /\
  status [(12000 * 1000000, ex_unshaken 6 7)] = Connecting /\
  status [(12000 * 1000000, ex_unshaken 6 7); (131001 * 1000000, ex_unshaken 9 7)] = ConnectionError.
Proof.
  destruct (status_follows_traffic (ex_remote "east" "local-key" []) 1000 5 7 ex_polled ex_metrics) as (_ & Hs & Hn).
  - split; (eexists; split; [vm_compute; reflexivity|vm_compute; reflexivity]).
  - lia.
  - lia.
  - lia.
  - cbv zeta. split; [|split].
    + apply (Hs [(12000 * 1000000, ex_counters 5 7)] (22000 * 1000000, ex_counters 5 7)).
      * repeat constructor; cbn [fst snd]; rewrite ?ex_now_ms; cbn; try lia; by eexists.
      * cbn [fst]. rewrite ex_now_ms. lia.
    + specialize (Hn [] (12000 * 1000000) (ex_unshaken 6 7)). rewrite ex_now_ms in Hn. apply Hn.
      repeat constructor; cbn [fst snd]; rewrite ?ex_now_ms; cbn; lia.
    + specialize (Hn [(12000 * 1000000, ex_unshaken 6 7)] (131001 * 1000000) (ex_unshaken 9 7)).
      rewrite ex_now_ms in Hn. apply Hn. repeat constructor; cbn [fst snd]; rewrite ?ex_now_ms; cbn; lia.
Defined.
End WireGuard.
