(* ===== verification/AmneziaOptions.v ===== *)
(** The options of the AmneziaWG driver (src/pkg/cable/amneziawg/options.go and
    obfuscation.go): the table of options with their parsers, its application to a
    map of texts, and the checks across options.  The theorems say which maps are
    accepted and what the configuration is like then. *)
From stdpp Require Import base gmap list strings fin_maps.
From Stdlib Require String.
From Stdlib Require Import ZArith Lia Ascii.
From S2P Require Import Prelude GoNet GoStrings Endpoint.
Import Strconv Strings.
Local Open Scope Z_scope.

Module AmneziaOptions.

(** * Values and where they go

    A field of the device's configuration is a pointer, [None] when it is nil; the
    keep-alive interval is a field of the driver. *)
Inductive field :=
  | Jc | Jmin | Jmax | S1 | S2 | S3 | S4 | H1 | H2 | H3 | H4 | I1 | I2 | I3 | I4 | I5 | KeepAlive.

#[global] Instance field_eq_dec : EqDecision field.
Proof. solve_decision. Defined.

(** Durations in nanoseconds. *)
Inductive value := VInt (n : Z) | VText (s : string) | VDuration (d : Z).

#[global] Instance value_eq_dec : EqDecision value.
Proof. solve_decision. Defined.

Definition config : Type := field -> option value.

Definition no_config : config := fun _ => None.

Definition set_field (f : field) (v : value) (c : config) : config := fun g => if g =?? f then Some v else c g.

(** Configuration problems. *)
Inductive option_error :=
  | UnknownOption (key : string)
  | InvalidOption (key value : string)
  | JminAboveJmax
  | InvalidHeader (key : string)
  | OverlappingHeaders (l r : string).

#[global] Instance option_error_eq_dec : EqDecision option_error.
Proof. solve_decision. Defined.

(** One key: [parse] says what the text stands for. *)
Record cableDriverOption := option_ {
  key : string;
  def : string;
  parse : string -> option value;
  dest : field;
}.

(** * Parsers *)
Definition parsePositiveInt (s : string) : option value :=
  match ParseInt s with Ok n => if n <=? 0 then None else Some (VInt n) | Err _ => None end.

Definition parseNonNegativeInt (s : string) : option value :=
  match ParseInt s with Ok n => if n <? 0 then None else Some (VInt n) | Err _ => None end.

Definition maxKeepAliveSeconds : Z := 65535.

Definition parseKeepAliveSeconds (s : string) : option value :=
  match ParseInt s with
  | Ok sec => if (sec <? 0) || (maxKeepAliveSeconds <? sec) then None else Some (VDuration (sec * 10 ^ 9))
  | Err _ => None
  end.

Record headerRange := mkRange { start : Z; end_ : Z }.

Definition parseHeaderRange (s : string) : option headerRange :=
  let range start end_ := if end_ <? start then None else Some (mkRange start end_) in
  match Split "-" s with
  | [a] => match ParseUint a 32 with Ok start => range start start | Err _ => None end
  | [a; b] =>
      match ParseUint a 32, ParseUint b 32 with
      | Ok start, Ok end_ => range start end_
      | _, _ => None
      end
  | _ => None
  end.

Definition parseHeader (s : string) : option value :=
  match parseHeaderRange s with Some _ => Some (VText s) | None => None end.

(** ** Init packets *)
Definition trim_prefix (pre s : string) : string :=
  if HasPrefix s pre then text (drop (String.length pre) (chars s)) else s.

Definition hex_ok (s : string) : bool := forallb (fun c => bool_decide (is_Some (hex_digit c))) (chars s).

Definition validateInitPacketTag (name param : string) : bool :=
  if name =?? "b" then
    let hexStr := trim_prefix "0X" (trim_prefix "0x" param) in
    negb (hexStr =?? "") && Nat.even (String.length hexStr) && hex_ok hexStr
  else if bool_decide (name ∈ ["r"; "rc"; "rd"]) then
    match ParseInt param with Ok n => 0 <=? n | Err _ => false end
  else bool_decide (name ∈ ["t"; "d"; "ds"; "dz"]).

Fixpoint split_by (p : ascii -> bool) (l : list ascii) : list (list ascii) :=
  match l with
  | [] => [[]]
  | c :: l =>
      if p c then [] :: split_by p l
      else match split_by p l with x :: xs => (c :: x) :: xs | [] => [] end
  end.

(** [strings.Fields] *)
Definition Fields (l : list ascii) : list string := text <$> base.filter (fun x => x <> []) (split_by is_space l).

Definition tag_ok (tag : list ascii) : bool :=
  match Fields tag with
  | [] => false
  | name :: params => validateInitPacketTag name (default "" (head params))
  end.

Definition langle : ascii := "<".
Definition rangle : ascii := ">".

(** The tags that are left, each with its [<] and its [>]; the fuel bounds their number. *)
Fixpoint validate_loop (fuel : nat) (remaining : list ascii) (tagCount : nat) : option nat :=
  match fuel with
  | O => None
  | Datatypes.S fuel =>
      match (break (fun c => c =?? langle) remaining).2 with
      | [] => Some tagCount
      | _ :: rest =>
          match break (fun c => c =?? rangle) rest with
          | (_, []) => None
          | (tag, _ :: rest) => if tag_ok tag then validate_loop fuel rest (Datatypes.S tagCount) else None
          end
      end
  end.

Definition validateInitPacketSpec (spec : string) : bool :=
  match validate_loop (Datatypes.S (String.length spec)) (chars spec) 0 with
  | Some (Datatypes.S _) => true
  | _ => false
  end.

Definition parseInitPacket (s : string) : option value :=
  if validateInitPacketSpec s then Some (VText s) else None.

(** * The tables *)
Definition obfuscationOptionTable : list cableDriverOption := [
  option_ "jc" "7" parsePositiveInt Jc;
  option_ "jmin" "80" parsePositiveInt Jmin;
  option_ "jmax" "200" parsePositiveInt Jmax;
  option_ "s1" "45" parseNonNegativeInt S1;
  option_ "s2" "60" parseNonNegativeInt S2;
  option_ "s3" "35" parseNonNegativeInt S3;
  option_ "s4" "12" parseNonNegativeInt S4;
  option_ "h1" "200000000-280000000" parseHeader H1;
  option_ "h2" "400000000-480000000" parseHeader H2;
  option_ "h3" "600000000-680000000" parseHeader H3;
  option_ "h4" "800000000-880000000" parseHeader H4;
  option_ "i1" "<r 40>" parseInitPacket I1;
  option_ "i2" "<r 25>" parseInitPacket I2;
  option_ "i3" "<r 20>" parseInitPacket I3;
  option_ "i4" "<r 15>" parseInitPacket I4;
  option_ "i5" "<r 15>" parseInitPacket I5].

Definition driverOptionTable : list cableDriverOption := [option_ "keepalive" "10" parseKeepAliveSeconds KeepAlive].

Definition cableDriverOptionTable : list cableDriverOption := obfuscationOptionTable ++ driverOptionTable.

(** * Checks across options *)

(** What is at the destination of a key of the table. *)
Definition optionValue (table : list cableDriverOption) (k : string) (c : config) : option value :=
  match List.find (fun o => key o =?? k) table with Some o => c (dest o) | None => None end.

Definition overlap (l r : headerRange) : bool := (start l <=? end_ r) && (start r <=? end_ l).

(** The headers that are set, with their keys; a text that does not parse is an error. *)
Fixpoint read_headers (table : list cableDriverOption) (c : config) (keys : list string) :
    list option_error * list (string * headerRange) :=
  match keys with
  | [] => ([], [])
  | k :: keys =>
      let '(errs, headers) := read_headers table c keys in
      match optionValue table k c with
      | Some (VText s) =>
          match parseHeaderRange s with
          | Some r => (errs, (k, r) :: headers)
          | None => (InvalidHeader k :: errs, headers)
          end
      | _ => (errs, headers)
      end
  end.

Fixpoint overlap_errors (headers : list (string * headerRange)) : list option_error :=
  match headers with
  | [] => []
  | lh :: headers =>
      map (fun rh => OverlappingHeaders lh.1 rh.1) (List.filter (fun rh => overlap lh.2 rh.2) headers) ++
      overlap_errors headers
  end.

Definition header_keys : list string := ["h1"; "h2"; "h3"; "h4"].

Definition validateObfuscationOptions (table : list cableDriverOption) (c : config) : list option_error :=
  let '(errs, headers) := read_headers table c header_keys in
  match optionValue table "jmin" c, optionValue table "jmax" c with
  | Some (VInt jmin), Some (VInt jmax) => if jmax <? jmin then [JminAboveJmax] else []
  | _, _ => []
  end ++ errs ++ overlap_errors headers.

(** * The application of a map *)
Fixpoint insert_sorted (s : string) (l : list string) : list string :=
  match l with
  | [] => [s]
  | x :: l' => if String.leb s x then s :: l else x :: insert_sorted s l'
  end.

(** The keys of the map that the table does not have, sorted. *)
Definition unknown_keys (table : list cableDriverOption) (options : gmap string string) : list string :=
  foldr insert_sorted [] (List.filter (fun k => negb (bool_decide (k ∈ key <$> table))) (elements (dom options))).

(** The text of an option: the default when it is absent or empty. *)
Definition effective (options : gmap string string) (o : cableDriverOption) : string :=
  match options !! key o with
  | Some v => if v =?? "" then def o else v
  | None => def o
  end.

Fixpoint set_all (options : gmap string string) (table : list cableDriverOption) (c : config) : list option_error * config :=
  match table with
  | [] => ([], c)
  | o :: table =>
      match parse o (effective options o) with
      | Some v => set_all options table (set_field (dest o) v c)
      | None => let '(errs, c) := set_all options table c in (InvalidOption (key o) (effective options o) :: errs, c)
      end
  end.

(** The problems, all of them, and the configuration. *)
Definition applyCableDriverOptionsMap (c : config) (options : gmap string string) : list option_error * config :=
  let table := cableDriverOptionTable in
  let '(errs, c) := set_all options table c in
  (map UnknownOption (unknown_keys table options) ++ errs ++ validateObfuscationOptions table c, c).

(** The options come from the environment; [GetDriverOptions] may fail. *)
Definition applyCableDriverOptions (GetDriverOptions : result string (gmap string string)) (c : config) :
    result (list option_error) config :=
  match GetDriverOptions with
  | Err _ => Err []
  | Ok options => match applyCableDriverOptionsMap c options with ([], c) => Ok c | (errs, _) => Err errs end
  end.

(** * The grammar of init packets *)

(** Texts with [n] tags: anything around them is skipped. *)
Inductive packet : nat -> list ascii -> Prop :=
  | packet_end s : langle ∉ s -> packet 0 s
  | packet_tag n pre tag rest :
      langle ∉ pre -> rangle ∉ tag -> tag_ok tag = true -> packet n rest ->
      packet (Datatypes.S n) (pre ++ langle :: tag ++ rangle :: rest).

Lemma break_parts (c : ascii) l a b : break (fun x => x =?? c) l = (a, b) ->
  l = a ++ b /\ c ∉ a /\ (b = [] \/ exists b', b = c :: b').
Proof.
  revert a b. induction l as [|x l IH]; intros a b; cbn.
  - intros [= <- <-]. split; [done|]. split; [apply not_elem_of_nil|by left].
  - case_bool_decide as Hx.
    + intros [= <- <-]. split; [done|]. split; [apply not_elem_of_nil|right]. exists l. by rewrite Hx.
    + destruct (break _ l) as [a' b'] eqn:E. intros [= <- <-]. destruct (IH _ _ eq_refl) as (-> & Ha & Hb).
      split; [done|]. split; [|done]. apply not_elem_of_cons. by split.
Qed.

Lemma break_char (c : ascii) a b : c ∉ a -> break (fun x => x =?? c) (a ++ c :: b) = (a, c :: b).
Proof.
  intros Ha. apply break_at; [|by rewrite bool_decide_true]. intros x Hx. apply bool_decide_eq_false. by intros ->.
Qed.

Lemma break_none (c : ascii) a : c ∉ a -> break (fun x => x =?? c) a = (a, []).
Proof.
  induction a as [|x a IH]; [done|]. intros [Hx Ha]%not_elem_of_cons. cbn.
  rewrite bool_decide_false by congruence. by rewrite IH.
Qed.

(** With fuel for its length the loop counts the tags of a text of the grammar. *)
Lemma validate_loop_spec fuel : forall s k m, (length s < fuel)%nat ->
  validate_loop fuel s k = Some m <-> exists n, packet n s /\ m = (k + n)%nat.
Proof.
  induction fuel as [|fuel IH]; intros s k m Hf; [lia|]. cbn [validate_loop]. split.
  - destruct (break _ s) as [pre b] eqn:E. apply break_parts in E as (-> & Hpre & Hb). cbn [snd].
    destruct Hb as [->|[rest ->]].
    + intros [= <-]. exists 0%nat. split; [|lia]. rewrite app_nil_r. by apply packet_end.
    + destruct (break _ rest) as [tag b'] eqn:E. apply break_parts in E as (-> & Htag & Hb').
      destruct Hb' as [->|[rest' ->]]; [done|]. destruct (tag_ok tag) eqn:Hok; [|done].
      intros Hl. apply IH in Hl as (n & Hn & ->); [|rewrite !length_app in Hf; cbn in Hf; rewrite length_app in Hf; cbn in Hf; lia].
      exists (Datatypes.S n). split; [by apply packet_tag|lia].
  - intros (n & Hp & ->). destruct Hp as [s Hs|n pre tag rest Hpre Htag Hok Hn].
    + rewrite break_none by done. cbn. f_equal. lia.
    + rewrite break_char by done. cbn [snd]. rewrite break_char, Hok by done.
      apply IH; [rewrite !length_app in Hf; cbn in Hf; rewrite length_app in Hf; cbn in Hf; lia|].
      exists n. split; [done|lia].
Qed.

Lemma length_chars s : length (chars s) = String.length s.
Proof. induction s as [|c s IH]; [done|]. cbn. by f_equal. Qed.

(** A text is accepted for an init packet exactly when it has at least one tag and
    every tag between angle brackets is one of the known ones with a fitting parameter. *)
Lemma init_packet_grammar spec :
  validateInitPacketSpec spec = true <-> exists n, packet (Datatypes.S n) (chars spec).
Proof.
  unfold validateInitPacketSpec. pose proof (fun m => validate_loop_spec (Datatypes.S (String.length spec)) (chars spec) 0 m) as Hl.
  rewrite length_chars in Hl. split.
  - destruct (validate_loop _ _ _) as [[|n]|]; try done. intros _. destruct (proj1 (Hl _ ltac:(lia)) eq_refl) as (m & Hm & Heq). cbn in Heq. subst m. eauto.
  - intros [n Hn]. rewrite (proj2 (Hl (Datatypes.S n) ltac:(lia))); [done|]. by exists (Datatypes.S n).
Qed.

(** * The bounds of the parsers *)
Lemma ParseUint_bound s bits n : 0 <= bits -> ParseUint s bits = Ok n -> 0 <= n < 2 ^ bits.
Proof.
  intros Hb. unfold ParseUint. destruct (String.list_ascii_of_string s) as [|c l]; [done|].
  pose proof (Z.pow_pos_nonneg 2 bits ltac:(lia) Hb). intros Hp. apply Endpoint.parse_uint_loop_bound in Hp; lia.
Qed.

Lemma ParseInt_bound s n : ParseInt s = Ok n -> - 2 ^ 63 <= n < 2 ^ 63.
Proof.
  unfold ParseInt. destruct (match s with String.EmptyString => _ | _ => _ end) as [neg digits].
  destruct (ParseUint digits 64) as [un|] eqn:Hu; [|done]. apply ParseUint_bound in Hu; [|lia].
  destruct neg; cbn [negb andb].
  - destruct (Z.ltb_spec (2 ^ 63) un); [done|]. intros [= <-]. lia.
  - destruct (Z.leb_spec (2 ^ 63) un); [done|]. intros [= <-]. lia.
Qed.

Lemma positive_value s v : parsePositiveInt s = Some v -> exists n, v = VInt n /\ 0 < n < 2 ^ 63.
Proof.
  unfold parsePositiveInt. destruct (ParseInt s) as [n|] eqn:Hp; [|done]. apply ParseInt_bound in Hp.
  destruct (Z.leb_spec n 0); [done|]. intros [= <-]. exists n. split; [done|lia].
Qed.

Lemma non_negative_value s v : parseNonNegativeInt s = Some v -> exists n, v = VInt n /\ 0 <= n < 2 ^ 63.
Proof.
  unfold parseNonNegativeInt. destruct (ParseInt s) as [n|] eqn:Hp; [|done]. apply ParseInt_bound in Hp.
  destruct (Z.ltb_spec n 0); [done|]. intros [= <-]. exists n. split; [done|lia].
Qed.

Lemma keepalive_value s v : parseKeepAliveSeconds s = Some v -> exists n, v = VDuration (n * 10 ^ 9) /\ 0 <= n <= 65535.
Proof.
  unfold parseKeepAliveSeconds, maxKeepAliveSeconds. destruct (ParseInt s) as [n|]; [|done].
  destruct (Z.ltb_spec n 0); [done|]. destruct (Z.ltb_spec 65535 n); [done|]. intros [= <-]. exists n. split; [done|lia].
Qed.

Definition range_ok (r : headerRange) : Prop := 0 <= start r <= end_ r /\ end_ r < 2 ^ 32.

Lemma header_range_ok s r : parseHeaderRange s = Some r -> range_ok r.
Proof.
  unfold parseHeaderRange. destruct (Split "-" s) as [|a [|b [|? ?]]]; try done;
    (destruct (ParseUint a 32) as [x|] eqn:Ha; [apply ParseUint_bound in Ha; [|lia]|done]).
  - rewrite Z.ltb_irrefl. intros [= <-]. unfold range_ok. cbn. lia.
  - destruct (ParseUint b 32) as [y|] eqn:Hb; [apply ParseUint_bound in Hb; [|lia]|done].
    destruct (Z.ltb_spec y x); [done|]. intros [= <-]. unfold range_ok. cbn. lia.
Qed.

Lemma header_value s v : parseHeader s = Some v -> v = VText s /\ exists r, parseHeaderRange s = Some r /\ range_ok r.
Proof.
  unfold parseHeader. destruct (parseHeaderRange s) as [r|] eqn:Hr; [|done]. intros [= <-].
  split; [done|]. exists r. split; [done|by eapply header_range_ok].
Qed.

Lemma init_value s v : parseInitPacket s = Some v -> v = VText s /\ validateInitPacketSpec s = true.
Proof. unfold parseInitPacket. destruct (validateInitPacketSpec s); [|done]. by intros [= <-]. Qed.

(** Ranges without a common number. *)
Definition disjoint_ranges (l r : headerRange) : Prop := forall n, start l <= n <= end_ l -> ~ (start r <= n <= end_ r).

Lemma overlap_spec l r : range_ok l -> range_ok r -> overlap l r = false <-> disjoint_ranges l r.
Proof.
  unfold range_ok, overlap, disjoint_ranges. intros Hl Hr. rewrite andb_false_iff, !Z.leb_gt. split; [lia|].
  intros Hd. destruct (Z.le_gt_cases (start l) (end_ r)); [|by left]. destruct (Z.le_gt_cases (start r) (end_ l)); [|by right].
  exfalso. apply (Hd (Z.max (start l) (start r))); lia.
Qed.

(** * The table *)
Lemma insert_sorted_elem x s l : x ∈ insert_sorted s l <-> x = s \/ x ∈ l.
Proof.
  induction l as [|y l IH]; cbn; [set_solver|]. destruct (String.leb s y); [set_solver|].
  rewrite !elem_of_cons, IH. tauto.
Qed.

Lemma unknown_keys_elem table options k :
  k ∈ unknown_keys table options <-> is_Some (options !! k) /\ k ∉ key <$> table.
Proof.
  unfold unknown_keys. assert (Hs : forall l, k ∈ foldr insert_sorted [] l <-> k ∈ l).
  { induction l as [|x l IH]; [done|]. cbn. by rewrite insert_sorted_elem, IH, elem_of_cons. }
  rewrite Hs, list_elem_of_In, List.filter_In, <- list_elem_of_In, elem_of_elements, elem_of_dom, negb_true_iff, bool_decide_eq_false.
  done.
Qed.

Lemma no_unknown_keys table options : unknown_keys table options = [] <-> forall k, is_Some (options !! k) -> k ∈ key <$> table.
Proof.
  split.
  - intros He k Hk. destruct (decide (k ∈ key <$> table)) as [|Hn]; [done|].
    assert (Hi : k ∈ unknown_keys table options) by (by apply unknown_keys_elem). rewrite He in Hi. by apply elem_of_nil in Hi.
  - intros Hk. destruct (unknown_keys table options) as [|k l] eqn:E; [done|].
    assert (Hi : k ∈ unknown_keys table options) by (rewrite E; by left).
    apply unknown_keys_elem in Hi as [H1 H2]. by apply Hk in H1.
Qed.

Definition parses (options : gmap string string) (o : cableDriverOption) : Prop := is_Some (parse o (effective options o)).

(** Every destination holds what its text stands for, when all texts parse. *)
Lemma set_all_spec options table c : NoDup (dest <$> table) ->
  ((set_all options table c).1 = [] <-> Forall (parses options) table) /\
  (forall o v, o ∈ table -> parse o (effective options o) = Some v -> (set_all options table c).2 (dest o) = Some v) /\
  (forall f, f ∉ dest <$> table -> (set_all options table c).2 f = c f).
Proof.
  revert c. induction table as [|o table IH]; intros c Hnd; [split; [done|]; split; [|done]; intros o v Ho; by apply elem_of_nil in Ho|].
  cbn [fmap list_fmap] in Hnd. apply NoDup_cons in Hnd as [Ho Hnd]. cbn [set_all]. rewrite Forall_cons.
  destruct (parse o (effective options o)) as [v|] eqn:Hp.
  - destruct (IH (set_field (dest o) v c) Hnd) as (H1 & H2 & H3). split; [rewrite H1; unfold parses at 2; rewrite Hp; naive_solver|].
    split.
    + intros o' v' [->|Ho']%elem_of_cons Hv'; [|by apply H2]. rewrite H3 by done. unfold set_field.
      rewrite bool_decide_true by done. congruence.
    + intros f [Hf Hf']%not_elem_of_cons. rewrite H3 by done. unfold set_field. by rewrite bool_decide_false.
  - destruct (IH c Hnd) as (H1 & H2 & H3). destruct (set_all options table c) as [errs c']. cbn [fst snd] in *. split.
    + split; [done|]. intros [[v Hv] _]. congruence.
    + split; [|intros f [_ Hf]%not_elem_of_cons; by apply H3].
      intros o' v' [->|Ho']%elem_of_cons Hv'; [congruence|by apply H2].
Qed.

Lemma table_dests : NoDup (dest <$> cableDriverOptionTable).
Proof. apply (bool_decide_unpack _). vm_compute. reflexivity. Qed.

(** * What is accepted *)

(** The text that stands for a key of the table. *)
Definition text_of (options : gmap string string) (k : string) : string :=
  match List.find (fun o => key o =?? k) cableDriverOptionTable with Some o => effective options o | None => "" end.

(** The maps without a configuration problem. *)
Record accepted (options : gmap string string) : Prop := {
  accepted_keys : forall k, is_Some (options !! k) -> k ∈ key <$> cableDriverOptionTable;
  accepted_texts : Forall (parses options) cableDriverOptionTable;
  accepted_junk : forall a b, ParseInt (text_of options "jmin") = Ok a -> ParseInt (text_of options "jmax") = Ok b -> a <= b;
  accepted_headers : forall rs, Forall2 (fun k r => parseHeaderRange (text_of options k) = Some r) header_keys rs ->
    ForallOrdPairs disjoint_ranges rs;
}.

(** The configurations the device can be given. *)
Record config_ok (c : config) : Prop := {
  ok_jc : exists n, c Jc = Some (VInt n) /\ 0 < n < 2 ^ 63;
  ok_junk : exists a b, c Jmin = Some (VInt a) /\ c Jmax = Some (VInt b) /\ 0 < a <= b /\ b < 2 ^ 63;
  ok_padding : forall f, f ∈ [S1; S2; S3; S4] -> exists n, c f = Some (VInt n) /\ 0 <= n < 2 ^ 63;
  ok_headers : exists rs, Forall2 (fun f r => exists s, c f = Some (VText s) /\ parseHeaderRange s = Some r /\ range_ok r)
    [H1; H2; H3; H4] rs /\ ForallOrdPairs disjoint_ranges rs;
  ok_inits : forall f, f ∈ [I1; I2; I3; I4; I5] -> exists s n, c f = Some (VText s) /\ packet (Datatypes.S n) (chars s);
  ok_keepalive : exists n, c KeepAlive = Some (VDuration (n * 10 ^ 9)) /\ 0 <= n <= 65535;
}.

Lemma overlap_errors_nil headers : overlap_errors headers = [] <-> ForallOrdPairs (fun l r => overlap l.2 r.2 = false) headers.
Proof.
  induction headers as [|lh headers IH]; cbn; [split; [constructor|done]|]. rewrite app_nil, IH. split.
  - intros [Hl Ho]. constructor; [|done]. apply Forall_forall. intros x Hx. apply not_true_is_false. intros Hov.
    apply map_eq_nil in Hl. assert (Hi : List.In x (List.filter (fun rh => overlap lh.2 rh.2) headers)).
    { apply List.filter_In. split; [by apply list_elem_of_In|done]. }
    rewrite Hl in Hi. by destruct Hi.
  - intros Hf. inversion Hf as [|? ? Ha Hr]; subst. split; [|done]. rewrite Forall_forall in Ha.
    destruct (List.filter _ headers) as [|x l] eqn:E; [done|]. assert (Hi : List.In x (x :: l)) by (by left).
    rewrite <- E in Hi. apply List.filter_In in Hi as [Hi Hov]. apply list_elem_of_In in Hi. apply Ha in Hi. congruence.
Qed.

Lemma overlaps_disjoint (rs : list (string * headerRange)) : Forall (fun h => range_ok h.2) rs ->
  ForallOrdPairs (fun l r => overlap l.2 r.2 = false) rs <-> ForallOrdPairs disjoint_ranges (snd <$> rs).
Proof.
  induction 1 as [|h rs Hh Hrs IH]; cbn; [split; intros; constructor|].
  assert (Ha : Forall (fun r => overlap h.2 r.2 = false) rs <-> Forall (disjoint_ranges h.2) (snd <$> rs)).
  { rewrite Forall_fmap, !Forall_forall. rewrite Forall_forall in Hrs.
    split; intros Hx x Hi; apply (overlap_spec h.2 x.2); auto; by apply Hx. }
  split; intros Hf; inversion Hf as [|? ? Hf1 Hf2]; subst; constructor; tauto.
Qed.

(** Once all texts parse, the fields hold them. *)
Section parsed.
Context (options : gmap string string) (c0 : config) (Hparse : Forall (parses options) cableDriverOptionTable).
Let c := (set_all options cableDriverOptionTable c0).2.

Lemma field_value i o : cableDriverOptionTable !! i = Some o ->
  exists v, parse o (effective options o) = Some v /\ c (dest o) = Some v.
Proof.
  intros Ho%list_elem_of_lookup_2. rewrite Forall_forall in Hparse. destruct (Hparse o Ho) as [v Hv]. exists v. split; [done|].
  by apply (proj1 (proj2 (set_all_spec options cableDriverOptionTable c0 table_dests))).
Qed.

Lemma int_field i o f : cableDriverOptionTable !! i = Some o -> parse o = parsePositiveInt -> dest o = f ->
  exists n, c f = Some (VInt n) /\ ParseInt (effective options o) = Ok n /\ 0 < n < 2 ^ 63.
Proof.
  intros Ho Hp <-. destruct (field_value i o Ho) as (v & Hv & Hc). rewrite Hp in Hv. pose proof Hv as Hv'.
  apply positive_value in Hv as (n & -> & Hn). exists n. split; [done|]. split; [|done].
  unfold parsePositiveInt in Hv'. destruct (ParseInt _) as [m|]; [|done]. destruct (m <=? 0); [done|]. congruence.
Qed.

Lemma header_field i o f : cableDriverOptionTable !! i = Some o -> parse o = parseHeader -> dest o = f ->
  exists r, c f = Some (VText (effective options o)) /\ parseHeaderRange (effective options o) = Some r /\ range_ok r.
Proof.
  intros Ho Hp <-. destruct (field_value i o Ho) as (v & Hv & Hc). rewrite Hp in Hv. apply header_value in Hv as (-> & r & Hr). eauto.
Qed.

(** The checks across options find what the texts say. *)
Lemma validate_parsed : validateObfuscationOptions cableDriverOptionTable c = [] <->
  (forall a b, ParseInt (text_of options "jmin") = Ok a -> ParseInt (text_of options "jmax") = Ok b -> a <= b) /\
  (forall rs, Forall2 (fun k r => parseHeaderRange (text_of options k) = Some r) header_keys rs -> ForallOrdPairs disjoint_ranges rs).
Proof.
  destruct (int_field 1 _ Jmin eq_refl eq_refl eq_refl) as (a & Ha & Hpa & _).
  destruct (int_field 2 _ Jmax eq_refl eq_refl eq_refl) as (b & Hb & Hpb & _).
  destruct (header_field 7 _ H1 eq_refl eq_refl eq_refl) as (r1 & Hc1 & Hr1 & Ho1).
  destruct (header_field 8 _ H2 eq_refl eq_refl eq_refl) as (r2 & Hc2 & Hr2 & Ho2).
  destruct (header_field 9 _ H3 eq_refl eq_refl eq_refl) as (r3 & Hc3 & Hr3 & Ho3).
  destruct (header_field 10 _ H4 eq_refl eq_refl eq_refl) as (r4 & Hc4 & Hr4 & Ho4).
  unfold validateObfuscationOptions.
  assert (Hrd : read_headers cableDriverOptionTable c header_keys = ([], [("h1", r1); ("h2", r2); ("h3", r3); ("h4", r4)])).
  { unfold header_keys, read_headers, optionValue. cbn [List.find].
    change (List.find (fun o => key o =?? "h1") cableDriverOptionTable) with (cableDriverOptionTable !! 7%nat).
    change (List.find (fun o => key o =?? "h2") cableDriverOptionTable) with (cableDriverOptionTable !! 8%nat).
    change (List.find (fun o => key o =?? "h3") cableDriverOptionTable) with (cableDriverOptionTable !! 9%nat).
    change (List.find (fun o => key o =?? "h4") cableDriverOptionTable) with (cableDriverOptionTable !! 10%nat).
    cbn [lookup list_lookup cableDriverOptionTable obfuscationOptionTable app dest].
    by rewrite Hc1, Hc2, Hc3, Hc4, Hr1, Hr2, Hr3, Hr4. }
  rewrite Hrd. change (optionValue cableDriverOptionTable "jmin" c) with (c Jmin). change (optionValue cableDriverOptionTable "jmax" c) with (c Jmax).
  rewrite Ha, Hb, app_nil_l, app_nil, overlap_errors_nil, (overlaps_disjoint [("h1", r1); ("h2", r2); ("h3", r3); ("h4", r4)])
    by (repeat (apply Forall_cons; split; [assumption|]); by apply Forall_nil).
  cbn [fmap list_fmap snd].
  assert (Hj : (if b <? a then [JminAboveJmax] else []) = [] <->
    (forall a b, ParseInt (text_of options "jmin") = Ok a -> ParseInt (text_of options "jmax") = Ok b -> a <= b)).
  { change (text_of options "jmin") with (effective options (option_ "jmin" "80" parsePositiveInt Jmin)).
    change (text_of options "jmax") with (effective options (option_ "jmax" "200" parsePositiveInt Jmax)).
    rewrite Hpa, Hpb. destruct (Z.ltb_spec b a); split; try done.
    - intros Hab. specialize (Hab a b eq_refl eq_refl). lia.
    - intros _ a' b' [= <-] [= <-]. done. }
  rewrite Hj. apply and_iff_compat_l. split.
  - assert (Hk1 : parseHeaderRange (text_of options "h1") = Some r1) by exact Hr1.
    assert (Hk2 : parseHeaderRange (text_of options "h2") = Some r2) by exact Hr2.
    assert (Hk3 : parseHeaderRange (text_of options "h3") = Some r3) by exact Hr3.
    assert (Hk4 : parseHeaderRange (text_of options "h4") = Some r4) by exact Hr4.
    intros Hd rs Hrs. unfold header_keys in Hrs.
    repeat (apply Forall2_cons_inv_l in Hrs as (? & ? & ? & Hrs & ->)). apply Forall2_nil_inv_l in Hrs as ->. congruence.
  - intros Hd. apply Hd. unfold header_keys. repeat (apply Forall2_cons; split; [assumption|]). by apply Forall2_nil.
Qed.
End parsed.

Lemma parsed_config_ok options c0 : accepted options -> config_ok (set_all options cableDriverOptionTable c0).2.
Proof.
  intros [_ Hp Hj Hh]. pose proof (fun i o => field_value options c0 Hp i o) as Hf.
  assert (Hpad : forall i o f, cableDriverOptionTable !! i = Some o -> parse o = parseNonNegativeInt -> dest o = f ->
    exists n, (set_all options cableDriverOptionTable c0).2 f = Some (VInt n) /\ 0 <= n < 2 ^ 63).
  { intros i o f Ho Hpo <-. destruct (Hf i o Ho) as (v & Hv & Hc). rewrite Hpo in Hv.
    apply non_negative_value in Hv as (n & -> & Hn). by exists n. }
  assert (Hini : forall i o f, cableDriverOptionTable !! i = Some o -> parse o = parseInitPacket -> dest o = f ->
    exists s n, (set_all options cableDriverOptionTable c0).2 f = Some (VText s) /\ packet (Datatypes.S n) (chars s)).
  { intros i o f Ho Hpo <-. destruct (Hf i o Ho) as (v & Hv & Hc). rewrite Hpo in Hv.
    apply init_value in Hv as (-> & Hn). apply init_packet_grammar in Hn as [n Hn]. by exists (effective options o), n. }
  destruct (int_field options c0 Hp 1 _ Jmin eq_refl eq_refl eq_refl) as (a & Ha & Hpa & Hab).
  destruct (int_field options c0 Hp 2 _ Jmax eq_refl eq_refl eq_refl) as (b & Hb & Hpb & Hbb).
  destruct (header_field options c0 Hp 7 _ H1 eq_refl eq_refl eq_refl) as (r1 & Hc1 & Hr1 & Ho1).
  destruct (header_field options c0 Hp 8 _ H2 eq_refl eq_refl eq_refl) as (r2 & Hc2 & Hr2 & Ho2).
  destruct (header_field options c0 Hp 9 _ H3 eq_refl eq_refl eq_refl) as (r3 & Hc3 & Hr3 & Ho3).
  destruct (header_field options c0 Hp 10 _ H4 eq_refl eq_refl eq_refl) as (r4 & Hc4 & Hr4 & Ho4).
  split.
  - destruct (int_field options c0 Hp 0 _ Jc eq_refl eq_refl eq_refl) as (n & Hn & _ & Hb'). by exists n.
  - exists a, b. split; [done|]. split; [done|]. split; [|lia]. split; [lia|]. exact (Hj a b Hpa Hpb).
  - intros f Hin. repeat (apply elem_of_cons in Hin as [->|Hin]); [..|by apply elem_of_nil in Hin].
    + by eapply (Hpad 3%nat).
    + by eapply (Hpad 4%nat).
    + by eapply (Hpad 5%nat).
    + by eapply (Hpad 6%nat).
  - exists [r1; r2; r3; r4]. split.
    + repeat (apply Forall2_cons; split; [eexists; split; [eassumption|]; by split|]). by apply Forall2_nil.
    + apply Hh. unfold header_keys. repeat (apply Forall2_cons; split; [assumption|]). by apply Forall2_nil.
  - intros f Hin. repeat (apply elem_of_cons in Hin as [->|Hin]); [..|by apply elem_of_nil in Hin].
    + by eapply (Hini 11%nat).
    + by eapply (Hini 12%nat).
    + by eapply (Hini 13%nat).
    + by eapply (Hini 14%nat).
    + by eapply (Hini 15%nat).
  - destruct (Hf 16%nat _ eq_refl) as (v & Hv & Hc). apply keepalive_value in Hv as (n & -> & Hn). by exists n.
Qed.

(** C31: A map of options is taken without a problem exactly when all its keys are known,
    every text, or the default in its place, parses, jmin is at most jmax and the four
    header ranges have no number in common; then every field of the configuration has
    a value in its bounds, the one of the map. *)
Theorem options_well_typed c0 options :
  let '(errs, c) := applyCableDriverOptionsMap c0 options in
  (errs = [] <-> accepted options) /\
  (accepted options -> config_ok c /\ forall o, o ∈ cableDriverOptionTable -> c (dest o) = parse o (effective options o)).
Proof.
  unfold applyCableDriverOptionsMap.
  destruct (set_all_spec options cableDriverOptionTable c0 table_dests) as (He & Hf & _).
  pose proof (validate_parsed options c0) as Hv. pose proof (parsed_config_ok options c0) as Hok.
  destruct (set_all options cableDriverOptionTable c0) as [errs c]. cbn [fst snd] in *. split.
  - rewrite !app_nil, He. split.
    + intros (Hk & Hp & Hx). apply Hv in Hx as [Hj Hh]; [|done]. apply map_eq_nil in Hk. split; try done.
      by apply no_unknown_keys.
    + intros [Hk Hp Hj Hh]. split; [|split; [done|by apply Hv]]. by rewrite (proj2 (no_unknown_keys _ _) Hk).
  - intros Ha. split; [by apply Hok|]. intros o Ho. destruct Ha as [_ Hp _ _]. rewrite Forall_forall in Hp.
    destruct (Hp o Ho) as [v Hpv]. rewrite Hpv. by apply Hf.
Qed.

(** Options of two clusters, and texts that are refused for each reason. *)
Definition ex_options : gmap string string := {["jmin" := "50"; "jmax" := "50"; "h1" := "5"; "h2" := "6-9"; "keepalive" := "0"; "i1" := ""]}.

Lemma options_well_typed_witness :
  exists c, applyCableDriverOptionsMap no_config ex_options = ([], c) /\ config_ok c /\ c KeepAlive = Some (VDuration 0).
Proof.
  pose proof (options_well_typed no_config ex_options) as Ht.
  assert (He : (applyCableDriverOptionsMap no_config ex_options).1 = []) by (vm_compute; reflexivity).
  destruct (applyCableDriverOptionsMap no_config ex_options) as [errs c]. cbn in He. subst errs.
  destruct Ht as [[Ha _] Hok]. destruct (Hok (Ha eq_refl)) as [Hc Hf]. exists c. split; [reflexivity|]. split; [exact Hc|].
  exact (Hf _ (list_elem_of_lookup_2 cableDriverOptionTable 16 _ eq_refl)).
Defined.

Example bad_options :
  (applyCableDriverOptionsMap no_config {["jmin" := "300"; "h1" := "450000000"; "s1" := "-1"; "mtu" := "1300"; "i2" := "<r 10"]}).1 =
  [UnknownOption "mtu"; InvalidOption "s1" "-1"; InvalidOption "i2" "<r 10"; JminAboveJmax; OverlappingHeaders "h1" "h2"].
Proof. vm_compute. reflexivity. Qed.

Example defaults_accepted : (applyCableDriverOptionsMap no_config ∅).1 = [].
Proof. vm_compute. reflexivity. Qed.
End AmneziaOptions.
