(* ===== verification/AmneziaWG.v ===== *)
(** The AmneziaWG cable driver (src/pkg/cable/amneziawg): a variant of the WireGuard
    driver on a daemon in the gateway's process (daemon.go).  One connection per remote
    cluster, kept only once its peer was read back from the device (driver.go), and the
    status that is read from the peer's counters (getconnections.go).  The options are
    in [AmneziaOptions]; peers, their configuration and the helpers on the back-end map
    of an endpoint are those of [WireGuard]. *)
From stdpp Require Import base gmap list strings fin_maps.
From Stdlib Require String.
From Stdlib Require Import ZArith Lia Ascii.
From S2P Require Import Prelude GoNet GoStrings K8s Cidr Endpoint NatDiscovery CableEngine Metrics Netlink WireGuard AmneziaOptions.
Import Net Endpoint RemoteNAT Netlink.
Local Open Scope Z_scope.

Module AmneziaWG.
Import WireGuard(PeerConfig, mkPeerConfig, pc_PublicKey, pc_Remove, pc_PresharedKey, pc_Endpoint, pc_KeepAlive, pc_AllowedIPs,
  Peer, mkPeer, peer_PublicKey, peer_PresharedKey, peer_Endpoint, peer_AllowedIPs, LastHandshakeTime, ReceiveBytes, TransmitBytes,
  set_config, on_endpoint, status_str, Milliseconds, same_id).

Definition DefaultDeviceName : string := "submariner".
Definition PublicKey : string := "publicKey".
Definition cableDriverName : string := "amneziawg".
Definition receiveBytes : string := "ReceiveBytes".
Definition transmitBytes : string := "TransmitBytes".
Definition lastChecked : string := "LastChecked".

(** Durations in nanoseconds. *)
Definition StatusPollInterval : Z := 10 * 10 ^ 9.
Definition HandshakeTimeout : Z := 130 * 10 ^ 9.

(** [wgtypes.Config]; the obfuscation is what the options set. *)
Record DeviceConfig := mkDeviceConfig {
  cfg_PrivateKey : option string;
  cfg_ListenPort : option Z;
  cfg_ReplacePeers : bool;
  cfg_Peers : list PeerConfig;
  cfg_Obfuscation : AmneziaOptions.config;
}.

(** The parts of the daemon: a TUN device, the file of the configuration socket, the
    device on the TUN, which closes it too, and the listener on the file. *)
Class DaemonAPI (W : Type) := {
  CreateTUN : eff W string unit;
  CloseTUN : W -> W;
  UAPIOpen : eff W string unit;
  CloseUAPIFile : W -> W;
  NewDevice : W -> W;
  CloseDevice : W -> W;
  UAPIListen : eff W string unit;
  CloseListener : eff W string unit;
}.

(** The [awgctrl] client and the netlink calls on the device [submariner]. *)
Class AwgClient (W : Type) := {
  NewClient : eff W string unit;
  CloseClient : eff W string unit;
  ConfigureDevice : DeviceConfig -> eff W string unit;
  Device : eff W string (string * list Peer);
  GeneratePrivateKey : eff W string string;
  awg_LinkByName : eff W nl_error unit;
  awg_InterfaceByName : eff W nl_error unit;
  awg_LinkDel : eff W nl_error unit;
  awg_LinkSetUp : eff W nl_error unit;
}.

(** * The daemon *)
Section daemon.
Context {W : Type} `{!DaemonAPI W}.

(** Any failure closes what was opened before. *)
Definition StartUserspaceDevice : eff W string unit :=
  _ ← CreateTUN;
  file ← attempt UAPIOpen;
  match file with
  | Err _ => _ ← modifyw CloseTUN; fail "failed to open UAPI socket"
  | Ok _ =>
      _ ← modifyw NewDevice;
      uapi ← attempt UAPIListen;
      match uapi with
      | Err _ => _ ← modifyw (fun w => CloseDevice (CloseTUN (CloseUAPIFile w))); fail "failed to listen on UAPI socket"
      | Ok _ => mret tt
      end
  end.

(** The first call of [Close]; the listener's goroutine ends with it. *)
Definition CloseUserspaceDevice : eff W string unit :=
  r ← attempt CloseListener;
  _ ← modifyw CloseDevice;
  lift_result (map_err (fun _ => "error closing AmneziaWG UAPI listener") r).
End daemon.

Section driver.
Context {W G : Type} `{!AwgClient W} `{!DaemonAPI W} `{!GaugeVec G} `{K8sNet}.
(** [wgtypes.ParseKey]: the canonical text of a key; the text of the zero key; the
    public key of a private one; SHA-256 as a key; [time.Now]; the order in which
    Go ranges over the connections. *)
Context (ParseKey : string -> option string) (zero_key : string) (public_of : string -> string)
  (genPsk : string -> result string string) (nowNs : Z)
  (range : gmap string Connection -> list (string * Connection)).

(** The key, or the zero key and [false]. *)
Definition keyFromSpec (ep : EndpointSpec) : string * bool :=
  match BackendConfig ep !! PublicKey with
  | None => (zero_key, false)
  | Some s => match ParseKey s with Some k => (k, true) | None => (zero_key, false) end
  end.

Record amneziawgDriver := mkDriver {
  localEndpoint : EndpointSpec;
  connections : gmap string Connection;
  NATTPort : Z;
  psk : string;
  keepAlive : Z;
  userspaceDevice : bool;
  world : W;
  metrics : Metrics.metrics G;
}.

Abbreviation M := (eff amneziawgDriver string).

Definition with_connections f (w : amneziawgDriver) : amneziawgDriver :=
  mkDriver (localEndpoint w) (f (connections w)) (NATTPort w) (psk w) (keepAlive w) (userspaceDevice w) (world w) (metrics w).
Definition with_metrics f (w : amneziawgDriver) : amneziawgDriver :=
  mkDriver (localEndpoint w) (connections w) (NATTPort w) (psk w) (keepAlive w) (userspaceDevice w) (world w) (f (metrics w)).
Definition with_world x (w : amneziawgDriver) : amneziawgDriver :=
  mkDriver (localEndpoint w) (connections w) (NATTPort w) (psk w) (keepAlive w) (userspaceDevice w) x (metrics w).

(** A call to the outside, with the text its error is wrapped in. *)
Definition on_world {E A} (what : string) (m : eff W E A) : M A := fun w =>
  let '(r, x) := m (world w) in (map_err (fun _ => what) r, with_world x w).

(** * The status of a connection *)
Definition peerTrafficDelta (c : Connection) (key : string) (newVal : Z) : Z * Connection :=
  let init := (0, on_endpoint (set_config key (Strconv.Itoa newVal)) c) in
  match BackendConfig (conn_Endpoint c) !! key with
  | Some s => match Strconv.ParseInt s with Ok i => (int64 (newVal - i), c) | Err _ => init end
  | None => init
  end.

(** [SetStatus] and the record of it in the metrics. *)
Definition set_status (local : EndpointSpec) (status : ConnectionStatus) (message : string)
    (c : Connection) (m : Metrics.metrics G) : Connection * Metrics.metrics G :=
  let c := SetStatus status message c in
  (c, Metrics.RecordConnection nowNs cableDriverName local (conn_Endpoint c) (status_str (Status c)) false (GetFamily c) m).

Definition saveAndRecordPeerTraffic (local : EndpointSpec) (lc tx rx : Z) (family : IPFamily)
    (c : Connection) (m : Metrics.metrics G) : Connection * Metrics.metrics G :=
  let c := on_endpoint (fun ep => set_config receiveBytes (Strconv.Itoa rx)
                          (set_config transmitBytes (Strconv.Itoa tx) (set_config lastChecked (Strconv.Itoa lc) ep))) c in
  (c, Metrics.RecordRxBytes cableDriverName local (conn_Endpoint c) rx family
        (Metrics.RecordTxBytes cableDriverName local (conn_Endpoint c) tx family m)).

Definition now_ms : Z := Milliseconds nowNs.
Definition pollMS : Z := Milliseconds StatusPollInterval + 2.

(** The time in which traffic is expected: the peers' keep-alive, or the interval of
    the polls when there is none. *)
Definition trafficMS (keepAlive : Z) : Z :=
  Milliseconds (if keepAlive <=? 0 then StatusPollInterval else keepAlive) + 2.

Definition updateConnectionForPeer (keepAlive : Z) (local : EndpointSpec) (p : Peer) (c : Connection) (m : Metrics.metrics G) :
    Connection * Metrics.metrics G :=
  let '(lc, c) := peerTrafficDelta c lastChecked now_ms in
  if lc <? pollMS then (c, m)
  else
    let '(tx, c) := peerTrafficDelta c transmitBytes (TransmitBytes p) in
    let '(rx, c) := peerTrafficDelta c receiveBytes (ReceiveBytes p) in
    match LastHandshakeTime p with
    | None =>
        if Milliseconds HandshakeTimeout <? lc then set_status local ConnectionError "no initial handshake" c m
        else if (0 <? tx) || (0 <? rx) then set_status local Connecting "no initial handshake yet" c m
        else (c, m)
    | Some t =>
        if (0 <? tx) || (0 <? rx) then
          let family := GetFamily c in
          let '(c, m) := set_status local Connected "Rx, Tx" c m in
          saveAndRecordPeerTraffic local now_ms (TransmitBytes p) (ReceiveBytes p) family c m
        else if HandshakeTimeout <? nowNs - t then set_status local ConnectionError "no handshake" c m
        else if lc <? 2 * trafficMS keepAlive then (c, m)
        else set_status local ConnectionError "no bytes sent or received" c m
    end.

(** * Peers *)
Definition peer_config (peers : list PeerConfig) : DeviceConfig :=
  mkDeviceConfig None None false peers AmneziaOptions.no_config.

Definition removePeer (key : string) : M unit :=
  on_world "failed to remove AmneziaWG peer" (ConfigureDevice (peer_config [mkPeerConfig key true "" None 0 []])).

Definition peerByKey (key : string) : M Peer :=
  d ← on_world "failed to find device" Device;
  match List.find (fun p => peer_PublicKey p =?? key) (snd (d : string * list Peer)) with
  | Some p => mret p
  | None => fail "peer not found"
  end.

(** The connection of a cluster, mutated in place. *)
Definition update_connection (cid : string) (p : Peer) : M unit :=
  modifyw (fun w =>
    match connections w !! cid with
    | None => w
    | Some c => let '(c, m) := updateConnectionForPeer (keepAlive w) (localEndpoint w) p c (metrics w) in
                with_connections (insert cid c) (with_metrics (fun _ => m) w)
    end).

Definition updatePeerStatus (cid key : string) : M unit :=
  r ← attempt (peerByKey key);
  match r : result string Peer with
  | Ok p => update_connection cid p
  | Err _ =>
      modifyw (fun w =>
        match connections w !! cid with
        | None => w
        | Some c => let '(c, m) := set_status (localEndpoint w) ConnectionError "cannot fetch status for peer" c (metrics w) in
                    with_connections (insert cid c) (with_metrics (fun _ => m) w)
        end)
  end.

(** [UDPAddr.String] *)
Definition udp_string (a : option (IP * Z)) : string :=
  match a with
  | None => "<nil>"
  | Some (ip, port) =>
      let host := match ip with [] => "" | _ => ip_string ip end in
      (if Strings.Contains host ":" then "[" +:+ host +:+ "]" else host) +:+ ":" +:+ Strconv.Itoa port
  end.

Definition verifyNewPeer (peerCfg : PeerConfig) : M unit :=
  p ← peerByKey (pc_PublicKey peerCfg);
  if negb (peer_PresharedKey p =?? pc_PresharedKey peerCfg) then fail "peer PresharedKey does not match configured value"
  else if negb (udp_string (peer_Endpoint p) =?? udp_string (pc_Endpoint peerCfg)) then fail "peer's Endpoint does not match configured"
  else if negb (map net_string (peer_AllowedIPs p) =?? map net_string (pc_AllowedIPs peerCfg))
  then fail "peer's AllowedIPs does not match configured"
  else mret tt.

Definition keyMismatch (cid key : string) (w : amneziawgDriver) : bool :=
  match connections w !! cid with
  | None => true
  | Some c => negb ((keyFromSpec (conn_Endpoint c)).1 =?? key)
  end.

(** * The creation of the driver

    What it has so far: the client, the daemon and the outside. *)
Record setup := mkSetup { client : bool; device : bool; outside : W }.

Definition out {E A} (what : string) (m : eff W E A) : eff setup string A := fun s =>
  let '(r, x) := m (outside s) in (map_err (fun _ => what) r, mkSetup (client s) (device s) x).

Definition find_link : eff setup nl_error unit := fun s =>
  let '(r, x) := awg_LinkByName (outside s) in (r, mkSetup (client s) (device s) x).

Definition setupDevice : eff setup string unit :=
  r ← attempt find_link;
  _ ← match r with
      | Ok _ => out "failed to delete existing AmneziaWG device" awg_LinkDel
      | Err e => if IsLinkNotFoundError e then mret tt else fail "error checking for existing AmneziaWG device"
      end;
  _ ← out "failed to start the userspace device" StartUserspaceDevice;
  _ ← modifyw (fun s => mkSetup (client s) true (outside s));
  out "failed to find AmneziaWG link" awg_LinkByName.

Definition cleanup_setup : eff setup string unit :=
  s ← getw;
  _ ← (if device s then
         _ ← ignore (out "error closing userspace AmneziaWG device" CloseUserspaceDevice);
         modifyw (fun s => mkSetup (client s) false (outside s))
       else mret tt);
  r ← attempt find_link;
  match r with
  | Err e => if IsLinkNotFoundError e then mret tt else fail "error retrieving the AmneziaWG interface"
  | Ok _ => out "failed to delete existing AmneziaWG device" awg_LinkDel
  end.

(** Any error closes the client, when it was opened, and cleans up the device. *)
Definition cleaning {A} (m : eff setup string A) : eff setup string A := fun s =>
  match m s with
  | (Ok a, s) => (Ok a, s)
  | (Err e, s) =>
      let s := if client s then mkSetup false (device s) (CloseClient (outside s)).2 else s in
      (Err e, (cleanup_setup s).2)
  end.

(** The keys, the port, the options and the configuration of the device.  [Spec_] and
    [Update] are those of the local endpoint, [options] the outcome of [GetDriverOptions]. *)
Definition configure (natt : Z) (resolvedPSK : string) (Spec_ : W -> EndpointSpec)
    (Update : (EndpointSpec -> EndpointSpec) -> eff W string unit) (options : result string (gmap string string))
    (m : Metrics.metrics G) : eff setup string amneziawgDriver :=
  psKey ← lift_result (genPsk resolvedPSK);
  priv ← out "error generating private key" GeneratePrivateKey;
  s ← getw;
  match GetBackendPort (Spec_ (outside s)) UDPPortConfig natt with
  | (_, Some _) => fail "error parsing the port from local endpoint"
  | (port, None) =>
      match AmneziaOptions.applyCableDriverOptions options AmneziaOptions.no_config with
      | Err _ => fail "error applying AmneziaWG cable driver options"
      | Ok cfg =>
          let keepAlive := match cfg AmneziaOptions.KeepAlive with Some (AmneziaOptions.VDuration d) => d | _ => 0 end in
          _ ← out "failed to configure AmneziaWG device" (ConfigureDevice (mkDeviceConfig (Some priv) (Some port) true [] cfg));
          _ ← out "error updating local endpoint"
                (Update (fun existing => set_config WireGuard.InterfaceNameConfig DefaultDeviceName
                                           (set_config PublicKey (public_of priv) existing)));
          s ← getw;
          mret (mkDriver (Spec_ (outside s)) ∅ natt psKey keepAlive (device s) (outside s) m)
      end
  end.

(** The part of the creation that is undone on errors. *)
Definition create (natt : Z) (resolvedPSK : string) (Spec_ : W -> EndpointSpec)
    (Update : (EndpointSpec -> EndpointSpec) -> eff W string unit) (options : result string (gmap string string))
    (m : Metrics.metrics G) : eff setup string amneziawgDriver :=
  _ ← setupDevice;
  _ ← out "failed to open awgctrl client" NewClient;
  _ ← modifyw (fun s => mkSetup true (device s) (outside s));
  configure natt resolvedPSK Spec_ Update options m.

Definition NewDriver (env : result string Z) (resolvedPSK : result string string) (Spec_ : W -> EndpointSpec)
    (Update : (EndpointSpec -> EndpointSpec) -> eff W string unit) (options : result string (gmap string string))
    (m : Metrics.metrics G) : eff setup string amneziawgDriver :=
  natt ← lift_result env;
  key ← lift_result resolvedPSK;
  if (key =?? "") || (key =?? "default psk")
  then fail "CE_IPSEC_PSK must be set to a strong random value for the AmneziaWG driver"
  else cleaning (create natt key Spec_ Update options m).

(** * The operations of the driver *)
Definition Init : M unit :=
  _ ← on_world "cannot get AmneziaWG link by name" awg_InterfaceByName;
  d ← on_world "awgctrl cannot find AmneziaWG device" Device;
  w ← getw;
  if negb ((keyFromSpec (localEndpoint w)).1 =?? (d : string * list Peer).1)
  then fail "endpoint public key is different from device key"
  else on_world "failed to bring up AmneziaWG device" awg_LinkSetUp.

(** The connection is recorded once its peer was read back. *)
Definition connect_new (endpointInfo : NATEndpointInfo) (remoteIP : IP) (allowedIPs : list IPNet) (remoteKey : string) : M string :=
  let remote := Spec (info_Endpoint endpointInfo) in
  let ip := UseIP endpointInfo in
  let connection := SetStatus Connecting "Connection has been created but not yet started"
                      (NewConnection remote ip (UseNAT endpointInfo)) in
  w ← getw;
  let port := (GetBackendPort remote UDPPortConfig (NATTPort w)).1 in
  let peerCfg := mkPeerConfig remoteKey false (psk w) (Some (remoteIP, port)) (keepAlive w) allowedIPs in
  _ ← on_world "failed to configure peer" (ConfigureDevice (peer_config [peerCfg]));
  verified ← attempt (verifyNewPeer peerCfg);
  match verified : result string unit with
  | Err _ => _ ← ignore (removePeer remoteKey); fail "failed to verify peer configuration"
  | Ok _ =>
      _ ← modifyw (with_connections (insert (ClusterID remote) connection));
      _ ← modifyw (fun w => with_metrics (Metrics.RecordConnection nowNs cableDriverName (localEndpoint w) remote
                              "connected" true (UseFamily endpointInfo)) w);
      mret ip
  end.

Definition ConnectToEndpoint (endpointInfo : NATEndpointInfo) : M string :=
  let remote := Spec (info_Endpoint endpointInfo) in
  let ip := UseIP endpointInfo in
  match ParseIP ip with
  | [] => fail "failed to parse remote IP"
  | remoteIP =>
      match ParseSubnets remote (UseFamily endpointInfo) with
      | Err _ => fail "panic: bad subnet"
      | Ok allowedIPs =>
          match keyFromSpec remote with
          | (_, false) => fail "failed to obtain public key for endpoint"
          | (remoteKey, true) =>
              w ← getw;
              match connections w !! ClusterID remote with
              | None => connect_new endpointInfo remoteIP allowedIPs remoteKey
              | Some oldCon =>
                  let replace := _ ← modifyw (with_connections (delete (ClusterID remote)));
                                 connect_new endpointInfo remoteIP allowedIPs remoteKey in
                  match keyFromSpec (conn_Endpoint oldCon) with
                  | (oldKey, true) =>
                      if oldKey =?? remoteKey then
                        _ ← updatePeerStatus (ClusterID remote) oldKey;
                        mret ip
                      else _ ← ignore (removePeer oldKey); replace
                  | (_, false) => replace
                  end
              end
          end
      end
  end.

Definition DisconnectFromEndpoint (remote : EndpointSpec) (family : IPFamily) : M unit :=
  match keyFromSpec remote with
  | (_, false) => fail "failed to parse peer public key"
  | (remoteKey, true) =>
      _ ← ignore (removePeer remoteKey);
      w ← getw;
      if keyMismatch (ClusterID remote) remoteKey w then mret tt
      else
        _ ← modifyw (with_connections (delete (ClusterID remote)));
        modifyw (fun w => with_metrics (Metrics.RecordDisconnected cableDriverName (localEndpoint w) remote family) w)
  end.

(** The cluster whose connection has the key. *)
Definition connectionByKey (key : string) (w : amneziawgDriver) : option string :=
  fst <$> List.find (fun p => key =?? (keyFromSpec (conn_Endpoint p.2)).1) (range (connections w)).

Fixpoint collect_connections (peers : list Peer) (acc : list Connection) : M (list Connection) :=
  match peers with
  | [] => mret acc
  | p :: peers =>
      w ← getw;
      match connectionByKey (peer_PublicKey p) w with
      | None => _ ← ignore (removePeer (peer_PublicKey p)); collect_connections peers acc
      | Some cid =>
          _ ← update_connection cid p;
          w ← getw;
          collect_connections peers (acc ++ match connections w !! cid with Some c => [c] | None => [] end)
      end
  end.

Definition GetConnections : M (list Connection) :=
  d ← on_world "failed to find device" Device;
  collect_connections (snd (d : string * list Peer)) [].

Definition Cleanup : M unit := fun w =>
  let '(r, s) := cleanup_setup (mkSetup true (userspaceDevice w) (world w)) in
  (r, mkDriver (localEndpoint w) (connections w) (NATTPort w) (psk w) (keepAlive w) (device s) (outside s) (metrics w)).

(** [GetActiveConnections] returns an empty slice, so that the engine does not look
    for duplicates. *)
Definition amneziawg_driver : Driver amneziawgDriver := {|
  handle := unit;
  CableEngine.Init := Init;
  GetActiveConnections := mret tt;
  handle_len := fun _ => 0%nat;
  handle_read := fun _ _ _ => None;
  CableEngine.GetConnections := GetConnections;
  CableEngine.ConnectToEndpoint := ConnectToEndpoint;
  CableEngine.DisconnectFromEndpoint := DisconnectFromEndpoint;
  DriverCleanup := Cleanup;
|}.
End driver.
Arguments amneziawgDriver : clear implicits.
Arguments setup : clear implicits.

(** The driver keeps the contract of the engine: it shows no active connections, so
    that the engine never looks for duplicates. *)
#[global] Instance amneziawg_driver_laws {W G} `{!AwgClient W} `{!DaemonAPI W} `{!GaugeVec G} `{K8sNet}
    (ParseKey : string -> option string) (zero_key : string) (nowNs : Z)
    (range : gmap string Connection -> list (string * Connection)) :
  @DriverLaws (amneziawgDriver W G) _ (amneziawg_driver ParseKey zero_key nowNs range).
Proof.
  refine {| conns := fun _ => []; valid := fun _ => True |}; try done; try (by intros; left).
  intros d d' c _ Hc. by apply elem_of_nil in Hc.
Defined.

(** * Nothing stays open when the creation fails *)

(** What of the gateway's process is open. *)
Record open_parts := mkOpen { o_client : bool; o_tun : bool; o_file : bool; o_device : bool; o_listener : bool }.

Definition neutral {W E A} (opened : W -> open_parts) (m : eff W E A) : Prop := forall w, opened (m w).2 = opened w.

(** A call that fails opened nothing; closing closes, whatever it reports; the listener
    takes over the file. *)
Class OpenLaws (W : Type) `{!AwgClient W} `{!DaemonAPI W} := {
  opened : W -> open_parts;
  create_tun_opened : forall w r w', CreateTUN w = (r, w') ->
    opened w' = let o := opened w in mkOpen (o_client o) (is_ok r || o_tun o) (o_file o) (o_device o) (o_listener o);
  uapi_open_opened : forall w r w', UAPIOpen w = (r, w') ->
    opened w' = let o := opened w in mkOpen (o_client o) (o_tun o) (is_ok r || o_file o) (o_device o) (o_listener o);
  uapi_listen_opened : forall w r w', UAPIListen w = (r, w') ->
    opened w' = let o := opened w in
                if is_ok r then mkOpen (o_client o) (o_tun o) false (o_device o) true else o;
  new_device_opened : forall w,
    opened (NewDevice w) = let o := opened w in mkOpen (o_client o) (o_tun o) (o_file o) true (o_listener o);
  close_tun_opened : forall w,
    opened (CloseTUN w) = let o := opened w in mkOpen (o_client o) false (o_file o) (o_device o) (o_listener o);
  close_file_opened : forall w,
    opened (CloseUAPIFile w) = let o := opened w in mkOpen (o_client o) (o_tun o) false (o_device o) (o_listener o);
  close_device_opened : forall w,
    opened (CloseDevice w) = let o := opened w in mkOpen (o_client o) false (o_file o) false (o_listener o);
  close_listener_opened : forall w,
    opened (CloseListener w).2 = let o := opened w in mkOpen (o_client o) (o_tun o) (o_file o) (o_device o) false;
  new_client_opened : forall w r w', NewClient w = (r, w') ->
    opened w' = let o := opened w in mkOpen (is_ok r || o_client o) (o_tun o) (o_file o) (o_device o) (o_listener o);
  close_client_opened : forall w,
    opened (CloseClient w).2 = let o := opened w in mkOpen false (o_tun o) (o_file o) (o_device o) (o_listener o);
  configure_neutral : forall cfg, neutral opened (ConfigureDevice cfg);
  generate_neutral : neutral opened GeneratePrivateKey;
  link_neutral : neutral opened awg_LinkByName;
  link_del_neutral : neutral opened awg_LinkDel;
}.

Section creation.
Context {W G : Type} `{!AwgClient W} `{!DaemonAPI W} `{!OpenLaws W} `{!GaugeVec G} `{K8sNet}.
Context (genPsk : string -> result string string) (public_of : string -> string).

Definition parts (client daemon : bool) : open_parts := mkOpen client daemon false daemon daemon.

(** The fields say what is open. *)
Definition tracked (s : setup W) : Prop := opened (outside s) = parts (client s) (device s).

Definition same_open (s s' : setup W) : Prop :=
  opened (outside s') = opened (outside s) /\ client s' = client s /\ device s' = device s.

#[local] Instance same_open_preorder : PreOrder same_open.
Proof. split; [done|]. intros s1 s2 s3 (H1 & H2 & H3) (H4 & H5 & H6). unfold same_open. by rewrite H4, H5, H6. Qed.

Lemma same_open_tracked s s' : same_open s s' -> tracked s -> tracked s'.
Proof. intros (H1 & H2 & H3). unfold tracked. by rewrite H1, H2, H3. Qed.

Lemma out_neutral {E A} what (m : eff W E A) : neutral opened m -> keeps same_open (out what m).
Proof. intros Hm s. unfold out. specialize (Hm (outside s)). by destruct (m (outside s)). Qed.

Lemma find_neutral : keeps same_open (find_link : eff (setup W) nl_error unit).
Proof. intros s. unfold find_link. pose proof (link_neutral (outside s)) as Hl. by destruct (awg_LinkByName (outside s)). Qed.

Lemma start_opened w r w' c : opened w = parts c false -> StartUserspaceDevice w = (r, w') -> opened w' = parts c (is_ok r).
Proof.
  intros H0 Hr. unfold StartUserspaceDevice in Hr. apply eff_bind_inv in Hr as [([] & w1 & H1 & Hr)|(e & H1 & ->)];
    apply create_tun_opened in H1; rewrite H0 in H1; [|exact H1].
  unfold mbind, eff_bind, attempt, modifyw, fail, mret, eff_ret in Hr. destruct (UAPIOpen w1) as [[[]|e] w2] eqn:H2;
    apply uapi_open_opened in H2; rewrite H1 in H2.
  - destruct (UAPIListen (NewDevice w2)) as [[[]|e] w3] eqn:H3; apply uapi_listen_opened in H3; rewrite new_device_opened, H2 in H3;
      injection Hr as <- <-; [exact H3|]. by rewrite close_device_opened, close_tun_opened, close_file_opened, H3.
  - injection Hr as <- <-. by rewrite close_tun_opened, H2.
Qed.

Lemma setup_tracked s r s' : tracked s -> device s = false -> setupDevice s = (r, s') -> tracked s' /\ client s' = client s /\ (r = Ok tt -> device s' = true).
Proof.
  intros Ht Hd Hr. unfold setupDevice in Hr.
  apply eff_bind_inv in Hr as [(l & s1 & H1 & Hr)|(e & H1 & _)]; [|apply attempt_inv in H1 as (? & [=] & _)].
  apply attempt_inv in H1 as (r1 & [= ->] & H1). apply (keeps_run same_open) in H1; [|exact find_neutral].
  assert (Hmid : forall r (s2 : setup W), (match r1 with
      | Ok _ => out "failed to delete existing AmneziaWG device" awg_LinkDel
      | Err e => if IsLinkNotFoundError e then mret tt else fail "error checking for existing AmneziaWG device"
      end : eff (setup W) string unit) s1 = (r, s2) -> same_open s s2).
  { intros r0 s2 Hm. etrans; [exact H1|]. destruct r1 as [[]|e].
    - refine (keeps_run same_open _ _ _ _ _ Hm). apply out_neutral, link_del_neutral.
    - destruct (IsLinkNotFoundError e); injection Hm as _ <-; done. }
  apply eff_bind_inv in Hr as [([] & s2 & H2 & Hr)|(e & H2 & ->)]; apply Hmid in H2; pose proof (same_open_tracked _ _ H2 Ht) as Ht2;
    destruct H2 as (_ & Hc2 & Hd2); [|done]. clear H1 Hmid.
  apply eff_bind_inv in Hr as [([] & s3 & H3 & Hr)|(e & H3 & ->)]; unfold out in H3;
    (destruct (StartUserspaceDevice (outside s2)) as [rs x] eqn:Hs; unfold tracked in Ht2; rewrite Hd2, Hd in Ht2;
     apply (start_opened _ _ _ (client s2)) in Hs; [|done]).
  - destruct rs as [[]|e]; [|done]. injection H3 as <-. unfold mbind at 1, eff_bind at 1, modifyw in Hr.
    apply (keeps_run same_open) in Hr; [|apply out_neutral, link_neutral].
    split; [eapply same_open_tracked; [exact Hr|exact Hs]|]. destruct Hr as (_ & -> & ->). done.
  - destruct rs as [u|e']; [done|]. injection H3 as _ <-. split; [|done]. unfold tracked. cbn. by rewrite Hd2, Hd.
Qed.

Lemma cleanup_tracked s r s' : tracked s -> cleanup_setup s = (r, s') -> opened (outside s') = parts (client s) false.
Proof.
  intros Ht Hr. unfold cleanup_setup in Hr. unfold mbind at 1, eff_bind at 1, getw in Hr.
  assert (Hrest : forall (s1 : setup W) r s', opened (outside s1) = parts (client s) false ->
    (r ← attempt find_link;
     match r with
     | Err e => if IsLinkNotFoundError e then mret tt else fail "error retrieving the AmneziaWG interface"
     | Ok _ => out "failed to delete existing AmneziaWG device" awg_LinkDel
     end : eff (setup W) string unit) s1 = (r, s') -> opened (outside s') = parts (client s) false).
  { intros s1 r0 s2 H1 H2. rewrite <- H1. refine (proj1 (keeps_run same_open _ _ _ _ _ H2)).
    apply keeps_bind; [apply _|apply keeps_attempt, find_neutral|]. intros [u|e].
    - apply out_neutral, link_del_neutral.
    - destruct (IsLinkNotFoundError e); intros s3; done. }
  apply eff_bind_inv in Hr as [([] & s1 & H1 & Hr)|(e & H1 & ->)].
  - refine (Hrest _ _ _ _ Hr). unfold tracked in Ht. destruct (device s).
    + unfold mbind, eff_bind, ignore, modifyw in H1. injection H1 as <-. unfold out, CloseUserspaceDevice, mbind, eff_bind, attempt, modifyw, lift_result.
      pose proof (close_listener_opened (outside s)) as Hl. destruct (CloseListener (outside s)) as [rl x]. cbn in Hl |- *.
      by rewrite close_device_opened, Hl, Ht.
    + injection H1 as <-. done.
  - destruct (device s); [|done]. unfold mbind, eff_bind, ignore, modifyw in H1. done.
Qed.

Section steps.
Context (Spec_ : W -> EndpointSpec) (Update : (EndpointSpec -> EndpointSpec) -> eff W string unit)
  (options : result string (gmap string string)) (m : Metrics.metrics G).
Hypothesis update_neutral : forall f, neutral opened (Update f).

Lemma configure_same natt k : keeps same_open (configure public_of genPsk natt k Spec_ Update options m).
Proof.
  unfold configure. apply keeps_bind; [apply _|apply keeps_lift, _|]. intros psKey.
  apply keeps_bind; [apply _|apply out_neutral, generate_neutral|]. intros priv.
  apply keeps_bind; [apply _|apply keeps_getw, _|]. intros s. destruct (GetBackendPort _ _ _) as [port [e|]]; [apply keeps_fail, _|].
  destruct (AmneziaOptions.applyCableDriverOptions _ _) as [cfg|errs]; [|apply keeps_fail, _].
  apply keeps_bind; [apply _|apply out_neutral, configure_neutral|]. intros _.
  apply keeps_bind; [apply _|apply out_neutral, update_neutral|]. intros _.
  apply keeps_bind; [apply _|apply keeps_getw, _|]. intros s'. apply keeps_ret, _.
Qed.

Lemma configure_driver natt k s d s' : configure public_of genPsk natt k Spec_ Update options m s = (Ok d, s') ->
  world d = outside s' /\ userspaceDevice d = device s'.
Proof.
  unfold configure. intros Hr. apply eff_bind_inv in Hr as [(psKey & s1 & _ & Hr)|(e & _ & [=])].
  apply eff_bind_inv in Hr as [(priv & s2 & _ & Hr)|(e & _ & [=])].
  unfold mbind at 1, eff_bind at 1, getw at 1 in Hr. destruct (GetBackendPort _ _ _) as [port [e|]]; [done|].
  destruct (AmneziaOptions.applyCableDriverOptions _ _) as [cfg|errs]; [|done]. cbv zeta in Hr.
  apply eff_bind_inv in Hr as [(? & s3 & _ & Hr)|(e & _ & [=])].
  apply eff_bind_inv in Hr as [(? & s4 & _ & Hr)|(e & _ & [=])].
  unfold mbind, eff_bind, getw in Hr. by injection Hr as <- <-.
Qed.

Lemma create_tracked natt k s r s' : tracked s -> device s = false -> client s = false ->
  create public_of genPsk natt k Spec_ Update options m s = (r, s') ->
  tracked s' /\ forall d, r = Ok d -> opened (world d) = parts true true /\ userspaceDevice d = true.
Proof.
  intros Ht Hd0 Hc0 Hr. unfold create in Hr.
  apply eff_bind_inv in Hr as [([] & s1 & H1 & Hr)|(e & H1 & ->)]; apply setup_tracked in H1 as (Ht1 & Hc & Hd); try done.
  specialize (Hd eq_refl).
  apply eff_bind_inv in Hr as [([] & s2 & H2 & Hr)|(e & H2 & ->)]; unfold out in H2;
    (destruct (NewClient (outside s1)) as [rc x] eqn:Hn; apply new_client_opened in Hn; unfold tracked in Ht1; rewrite Ht1, Hc, Hc0, Hd in Hn).
  2: { destruct rc as [u|e']; [done|]. injection H2 as _ <-. split; [|done]. unfold tracked. cbn. by rewrite Hn, Hc, Hc0, Hd. }
  destruct rc as [[]|e]; [|done]. injection H2 as <-. unfold mbind at 1, eff_bind at 1, modifyw in Hr. cbn [device outside] in Hr.
  pose proof (keeps_run same_open _ _ _ _ (configure_same _ _) Hr) as Hs.
  assert (Ht2 : tracked (mkSetup true (device s1) x)) by (unfold tracked; cbn; by rewrite Hn, Hd).
  split; [by eapply same_open_tracked|]. intros d ->. apply configure_driver in Hr as [-> ->].
  destruct Hs as (Ho & _ & Hd'). cbn in Ho, Hd'. by rewrite Ho, Hd', Hd, Hn.
Qed.
End steps.

(** C32: When the creation of the driver fails, at any point, the client and every part
    of the daemon that was opened are closed again; when it succeeds they are open and
    the driver holds the daemon. *)
Theorem failed_creation_closes_all env key Spec_ Update options (m : Metrics.metrics G) w r s :
  (forall f, neutral opened (Update f)) -> opened w = parts false false ->
  NewDriver public_of genPsk env key Spec_ Update options m (mkSetup false false w) = (r, s) ->
  match r with
  | Ok d => opened (world d) = parts true true /\ userspaceDevice d = true
  | Err _ => opened (outside s) = parts false false
  end.
Proof.
  intros Hup H0 Hr. unfold NewDriver in Hr.
  apply eff_bind_inv in Hr as [(natt & s1 & H1 & Hr)|(e & H1 & ->)]; [|injection H1 as _ <-; done]. injection H1 as -> <-.
  apply eff_bind_inv in Hr as [(k & s1 & H1 & Hr)|(e & H1 & ->)]; [|injection H1 as _ <-; done]. injection H1 as -> <-.
  destruct (_ || _); [injection Hr as <- <-; done|]. unfold cleaning in Hr.
  destruct (create _ _ _ _ _ _ _ _ _) as [[d|e] s'] eqn:Hc; apply create_tracked in Hc as [Ht Hok]; try done; injection Hr as <- <-; [by apply Hok|].
  unfold tracked in Ht. destruct (client s') eqn:Hcl.
  - destruct (cleanup_setup _) as [rc s2] eqn:Hcu. apply cleanup_tracked in Hcu; [done|]. unfold tracked. cbn. by rewrite close_client_opened, Ht.
  - destruct (cleanup_setup s') as [rc s2] eqn:Hcu. apply cleanup_tracked in Hcu; [by rewrite Hcl in Hcu|]. unfold tracked. by rewrite Hcl, Ht.
Qed.
End creation.

(** * Every connection has its peer *)

(** What the device keeps of a peer: the pre-shared key and the allowed networks, as
    texts.  A change of one peer leaves the others, except for networks that it
    takes over. *)
Class AwgLaws (W : Type) `{!AwgClient W} := {
  peers : W -> gmap string (string * list string);
  device_spec : forall x r x', Device x = (r, x') ->
    peers x' = peers x /\
    match r with
    | Ok (_, l) => forall p, p ∈ l -> peers x !! peer_PublicKey p = Some (peer_PresharedKey p, map net_string (peer_AllowedIPs p))
    | Err _ => True
    end;
  configure_frame : forall cfg x r x' k v, ConfigureDevice cfg x = (r, x') -> cfg_ReplacePeers cfg = false ->
    k ∉ pc_PublicKey <$> cfg_Peers cfg ->
    (forall pc n, pc ∈ cfg_Peers cfg -> n ∈ pc_AllowedIPs pc -> net_string n ∉ v.2) ->
    peers x !! k = Some v -> peers x' !! k = Some v;
  interface_peers : forall x, peers (awg_InterfaceByName x).2 = peers x;
  link_up_peers : forall x, peers (awg_LinkSetUp x).2 = peers x;
}.

Section peers.
Context {W G : Type} `{!AwgClient W} `{!DaemonAPI W} `{!AwgLaws W} `{!GaugeVec G} `{K8sNet}.
Context (ParseKey : string -> option string) (zero_key : string)
  (range : gmap string Connection -> list (string * Connection)).
Hypothesis range_ok : forall m p, p ∈ range m <-> m !! p.1 = Some p.2.
(** No two clusters have a key or a network in common. *)
Context (key_owner net_owner : string -> string).
(** The calls of [ConnectToEndpoint] that were made. *)
Context (called : NATEndpointInfo -> Prop).

Abbreviation drv := (amneziawgDriver W G).
Abbreviation key_of := (fun c => keyFromSpec ParseKey zero_key (conn_Endpoint c)).
Implicit Types (w : drv) (c : Connection).

Definition nets_of (ep : EndpointSpec) (f : IPFamily) (nets : list string) : Prop :=
  exists l, ParseSubnets ep f = Ok l /\ map net_string l = nets.

(** The networks of a connection: those of its subnets that have the family of the
    call that made it. *)
Definition announced (k : string) c (f : IPFamily) (nets : list string) : Prop :=
  nets_of (conn_Endpoint c) f nets /\
  exists info, called info /\ UseFamily info = f /\
    ClusterID (Spec (info_Endpoint info)) = ClusterID (conn_Endpoint c) /\
    Subnets (Spec (info_Endpoint info)) = Subnets (conn_Endpoint c) /\
    keyFromSpec ParseKey zero_key (Spec (info_Endpoint info)) = (k, true).

(** A connection and the peer that serves it. *)
Definition served (x : W) (secret cid : string) c : Prop :=
  ClusterID (conn_Endpoint c) = cid /\
  exists k f nets, key_of c = (k, true) /\ key_owner k = cid /\ announced k c f nets /\
    Forall (fun n => net_owner n = cid) nets /\ peers x !! k = Some (secret, nets).

Definition driver_ok w : Prop := map_Forall (served (world w) (psk w)) (connections w).

(** Polling changes no connection but for its status, and no peer. *)
Definition steady w w' : Prop :=
  psk w' = psk w /\ peers (world w') = peers (world w) /\ dom (connections w') = dom (connections w) /\
  forall cid c', connections w' !! cid = Some c' -> exists c, connections w !! cid = Some c /\ same_id c c'.

#[local] Instance steady_preorder : PreOrder steady.
Proof.
  split; [intros w; split; [done|split; [done|split; [done|]]]; intros cid c Hc; by exists c|].
  intros w1 w2 w3 (H1 & H2 & Hd1 & H3) (H4 & H5 & Hd2 & H6). split; [congruence|]. split; [congruence|]. split; [congruence|].
  intros cid c3 Hc3. destruct (H6 _ _ Hc3) as (c2 & Hc2 & Hs2). destruct (H3 _ _ Hc2) as (c1 & Hc1 & Hs1).
  exists c1. split; [done|]. destruct Hs1, Hs2. split; congruence.
Qed.

Lemma same_id_served x secret cid c c' : same_id c c' -> served x secret cid c -> served x secret cid c'.
Proof.
  intros [[= Hcl Hsub _] Hk] (H1 & k & f & nets & H2 & H3 & ((l & Hl & Hn) & info & Hc1 & Hc2 & Hc3 & Hc4 & Hc5) & H4 & H5).
  split; [congruence|].
  exists k, f, nets. split; [rewrite <- H2; unfold keyFromSpec; change PublicKey with WireGuard.PublicKey; by rewrite Hk|]. split; [done|]. split; [|done].
  split; [|exists info; split_and!; congruence]. exists l. split; [|done]. rewrite <- Hl. unfold ParseSubnets. by rewrite Hsub.
Qed.

Lemma steady_ok w w' : steady w w' -> driver_ok w -> driver_ok w'.
Proof.
  intros (H1 & H2 & _ & H3) Hok cid c' Hc'. destruct (H3 _ _ Hc') as (c & Hc & Hs). apply (same_id_served _ _ _ _ _ Hs).
  destruct (Hok _ _ Hc) as (Hcl & k & f & nets & Hk & Ho & Hn & Hf & Hp). split; [done|]. exists k, f, nets.
  by rewrite H1, H2.
Qed.

(** Reading the device changes neither. *)
Definition quiet w w' : Prop := psk w' = psk w /\ peers (world w') = peers (world w) /\ connections w' = connections w.

#[local] Instance quiet_preorder : PreOrder quiet.
Proof. split; [done|]. intros w1 w2 w3 (H1 & H2 & H3) (H4 & H5 & H6). unfold quiet. by rewrite H4, H5, H6. Qed.

Lemma quiet_steady w w' : quiet w w' -> steady w w'.
Proof. intros (H1 & H2 & H3). split; [done|]. split; [done|]. rewrite H3. split; [done|]. intros cid c Hc. by exists c. Qed.

Lemma keeps_steady {A} (m : eff drv string A) : keeps quiet m -> keeps steady m.
Proof. intros Hm w. apply quiet_steady, Hm. Qed.

(** ** What the operations keep *)
Lemma on_world_quiet {E A} what (m : eff W E A) : (forall x, peers (m x).2 = peers x) -> keeps quiet (on_world what m : eff drv string A).
Proof. intros Hm w. unfold on_world. specialize (Hm (world w)). by destruct (m (world w)) as [r x]. Qed.

Lemma device_quiet what : keeps quiet (on_world what Device : eff drv string (string * list Peer)).
Proof. apply on_world_quiet. intros x. destruct (Device x) as [r x'] eqn:E. by apply device_spec in E as [E _]. Qed.

Lemma peerByKey_quiet key : keeps quiet (peerByKey key : eff drv string Peer).
Proof.
  unfold peerByKey. apply keeps_bind; [apply _|apply device_quiet|]. intros d.
  destruct (List.find _ _); [apply keeps_ret|apply keeps_fail]; apply _.
Qed.

Lemma insert_steady w cid c c' m : connections w !! cid = Some c -> same_id c c' ->
  steady w (with_connections (insert cid c') (with_metrics m w)).
Proof.
  intros Hc Hs. split; [done|]. split; [done|]. split; [cbn; apply dom_insert_lookup_L; by eexists|]. intros k x Hx. cbn in Hx.
  apply lookup_insert_Some in Hx as [[<- <-]|[_ Hx]]; [by exists c|by exists x].
Qed.

Lemma save_steady_id local lc tx rx f c (m : Metrics.metrics G) : same_id c (saveAndRecordPeerTraffic local lc tx rx f c m).1.
Proof. split; [done|]. cbn. by rewrite !lookup_insert_ne. Qed.

Lemma delta_id c key v : key <> PublicKey -> same_id c (peerTrafficDelta c key v).2.
Proof.
  intros Hk. unfold peerTrafficDelta. destruct (_ !! key) as [s|]; [destruct (Strconv.ParseInt s)|]; (split; [done|]); try done;
    cbn; by rewrite lookup_insert_ne.
Qed.

#[local] Instance same_id_trans : Transitive same_id.
Proof. intros c1 c2 c3 [H1 H2] [H3 H4]. split; congruence. Qed.

Lemma update_id nowNs ka local p c (m : Metrics.metrics G) : same_id c (updateConnectionForPeer nowNs ka local p c m).1.
Proof.
  assert (Hrefl : forall c, same_id c c) by done.
  unfold updateConnectionForPeer. pose proof (delta_id c lastChecked (now_ms nowNs) ltac:(done)) as H1.
  destruct (peerTrafficDelta c lastChecked _) as [lc c1]. cbn in H1. destruct (lc <? pollMS); [done|].
  pose proof (delta_id c1 transmitBytes (TransmitBytes p) ltac:(done)) as H2.
  destruct (peerTrafficDelta c1 transmitBytes _) as [tx c2]. cbn in H2.
  pose proof (delta_id c2 receiveBytes (ReceiveBytes p) ltac:(done)) as H3.
  destruct (peerTrafficDelta c2 receiveBytes _) as [rx c3]. cbn in H3.
  assert (H4 : same_id c c3) by (etrans; [|exact H3]; by etrans). clear H1 H2 H3.
  assert (Hset : forall st msg, same_id c (set_status nowNs local st msg c3 m).1) by (intros; by etrans).
  destruct (LastHandshakeTime p) as [t|].
  - destruct (_ || _).
    + pose proof (Hset Connected "Rx, Tx") as H5. destruct (set_status _ _ _ _ c3 m) as [c4 m4]. etrans; [exact H5|apply save_steady_id].
    + destruct (_ <? nowNs - t); [apply Hset|]. destruct (lc <? _); [done|apply Hset].
  - destruct (_ <? lc); [apply Hset|]. destruct (_ || _); [apply Hset|done].
Qed.

Lemma update_connection_steady nowNs cid p : keeps steady (update_connection nowNs cid p : eff drv string unit).
Proof.
  apply keeps_modify. intros w. destruct (connections w !! cid) as [c|] eqn:Hc; [|reflexivity].
  pose proof (update_id nowNs (keepAlive w) (localEndpoint w) p c (metrics w)) as Hid.
  destruct (updateConnectionForPeer _ _ _ _ _ _) as [c' m]. by eapply insert_steady.
Qed.

Lemma updatePeerStatus_steady nowNs cid key : keeps steady (updatePeerStatus nowNs cid key : eff drv string unit).
Proof.
  unfold updatePeerStatus. apply keeps_bind; [apply _|apply keeps_attempt, keeps_steady, peerByKey_quiet|]. intros [p|e].
  - apply update_connection_steady.
  - apply keeps_modify. intros w. destruct (connections w !! cid) as [c|] eqn:Hc; [|reflexivity].
    unfold set_status. by eapply insert_steady.
Qed.

Lemma verify_quiet pc : keeps quiet (verifyNewPeer pc : eff drv string unit).
Proof.
  unfold verifyNewPeer. apply keeps_bind; [apply _|apply peerByKey_quiet|]. intros p.
  repeat (destruct (negb _); [apply keeps_fail, _|]). apply keeps_ret, _.
Qed.

(** A peer that was verified is on the device with its networks. *)
Lemma verified_peer pc w w' : verifyNewPeer pc w = (Ok tt, w') ->
  peers (world w) !! pc_PublicKey pc = Some (pc_PresharedKey pc, map net_string (pc_AllowedIPs pc)).
Proof.
  unfold verifyNewPeer, peerByKey. intros Hr.
  apply eff_bind_inv in Hr as [(p & w1 & Hp & Hr)|(e & _ & [=])]. apply eff_bind_inv in Hp as [([k l] & w2 & Hd & Hp)|(e & _ & [=])].
  unfold on_world in Hd. destruct (Device (world w)) as [[d|e] x] eqn:E; [|done]. cbn in Hd. injection Hd as -> <-.
  apply device_spec in E as [_ E]. cbn [snd] in Hp. destruct (List.find _ l) as [p'|] eqn:Hf; [|done]. injection Hp as -> <-.
  apply List.find_some in Hf as [Hin Hk]. apply list_elem_of_In in Hin. apply bool_decide_eq_true in Hk.
  destruct (peer_PresharedKey p =?? _) eqn:H1; [|done]. destruct (udp_string _ =?? _); [|done]. cbn [negb] in Hr.
  destruct (map net_string (peer_AllowedIPs p) =?? _) eqn:H2; [|done]. bool_props. rewrite <- Hk, <- H1, <- H2. by apply E.
Qed.

(** ** Changes of one peer *)

(** The change of a peer that no connection has leaves the connections served. *)
Lemma configure_others pc (w w' : drv) r what : driver_ok w -> on_world what (ConfigureDevice (peer_config [pc])) w = (r, w') ->
  (forall cid c, connections w !! cid = Some c -> (key_of c).1 <> pc_PublicKey pc /\
     Forall (fun n => net_owner (net_string n) <> cid) (pc_AllowedIPs pc)) ->
  driver_ok w' /\ connections w' = connections w /\ psk w' = psk w.
Proof.
  intros Hok Hr Hne. unfold on_world in Hr. destruct (ConfigureDevice _ (world w)) as [r0 x] eqn:E. injection Hr as _ <-.
  split; [|done]. intros cid c Hc. destruct (Hok _ _ Hc) as (Hcl & k & f & nets & Hk & Ho & Hn & Hf & Hp). split; [done|].
  exists k, f, nets. split; [done|]. split; [done|]. split; [done|]. split; [done|]. cbn.
  destruct (Hne _ _ Hc) as [H1 H2]. rewrite Hk in H1. cbn in H1. eapply configure_frame; [exact E|done| | |exact Hp].
  - cbn. intros Hi. apply list_elem_of_singleton in Hi. congruence.
  - intros pc' n Hpc Hi Hin. apply list_elem_of_singleton in Hpc as ->. rewrite Forall_forall in H2. rewrite Forall_forall in Hf.
    by apply (H2 n Hi), Hf.
Qed.

Lemma removePeer_others key (w w' : drv) r : driver_ok w -> removePeer key w = (r, w') ->
  (forall cid c, connections w !! cid = Some c -> (key_of c).1 <> key) ->
  driver_ok w' /\ connections w' = connections w /\ psk w' = psk w.
Proof.
  intros Hok Hr Hne. eapply (configure_others (mkPeerConfig key true "" None 0 [])); [done|exact Hr|].
  intros cid c Hc. split; [by eapply Hne|by apply Forall_nil].
Qed.

(** The keys of other clusters' connections differ. *)
Lemma other_keys w cid key c : driver_ok w -> key_owner key <> cid -> connections w !! cid = Some c -> (key_of c).1 <> key.
Proof. intros Hok Ho Hc. destruct (Hok _ _ Hc) as (_ & k & f & nets & Hk & Hko & _). rewrite Hk. cbn. congruence. Qed.

(** Forgetting connections keeps the others served. *)
Lemma delete_ok cid w w' : driver_ok w -> connections w' = delete cid (connections w) -> world w' = world w -> psk w' = psk w -> driver_ok w'.
Proof. intros Hok Hc Hw Hp. unfold driver_ok. rewrite Hc, Hw, Hp. by apply map_Forall_delete. Qed.

(** Removing a peer and forgetting the connection of the cluster it belongs to. *)
Lemma removePeer_deleted key cid w w' r : driver_ok w -> removePeer key w = (r, w') ->
  (forall cid' c, connections w !! cid' = Some c -> cid' <> cid -> (key_of c).1 <> key) ->
  driver_ok (with_connections (delete cid) w') /\ connections w' = connections w /\ psk w' = psk w.
Proof.
  intros Hok Hr Hne. set (w0 := with_connections (delete cid) w). assert (Hok0 : driver_ok w0) by (by eapply delete_ok).
  destruct (removePeer key w0) as [r0 w0'] eqn:H0.
  assert (w0' = with_connections (delete cid) w' /\ connections w' = connections w /\ psk w' = psk w) as [-> Heq].
  { unfold removePeer, on_world in *. cbn [world w0 with_connections] in H0. destruct (ConfigureDevice _ (world w)) as [r1 x].
    injection Hr as _ <-. injection H0 as _ <-. done. }
  split; [|done]. eapply removePeer_others; [exact Hok0|exact H0|]. intros cid' c Hc. cbn in Hc.
  apply lookup_delete_Some in Hc as [Hcid Hc]. by apply (Hne cid' c).
Qed.

(** ** The calls *)

(** What a call of an endpoint says of its cluster's key and networks. *)
Definition key_owned (remote : EndpointSpec) : Prop :=
  forall k, keyFromSpec ParseKey zero_key remote = (k, true) -> key_owner k = ClusterID remote.

Definition nets_owned (remote : EndpointSpec) : Prop :=
  forall f nets, nets_of remote f nets -> Forall (fun n => net_owner n = ClusterID remote) nets.

(** The outcome of a connection on the map of connections. *)
Definition connect_outcome (cid : string) (r : result string string) w w' : Prop :=
  driver_ok w' /\
  match r with
  | Ok _ => is_Some (connections w' !! cid)
  | Err _ => connections w' = connections w \/ connections w' = delete cid (connections w)
  end.

Lemma connect_new_spec nowNs info ip nets key w r w' :
  let remote := Spec (info_Endpoint info) in
  called info -> driver_ok w -> connections w !! ClusterID remote = None -> key_owned remote -> nets_owned remote ->
  keyFromSpec ParseKey zero_key remote = (key, true) -> ParseSubnets remote (UseFamily info) = Ok nets ->
  connect_new nowNs info ip nets key w = (r, w') ->
  driver_ok w' /\ (is_err r = true -> connections w' = connections w) /\ (is_ok r = true -> is_Some (connections w' !! ClusterID remote)).
Proof.
  cbv zeta. set (remote := Spec (info_Endpoint info)). intros Hcalled Hok Hnone Hkey Hnets Hk Hp Hr.
  specialize (Hkey _ Hk). assert (Hn : nets_of remote (UseFamily info) (map net_string nets)) by (by exists nets).
  specialize (Hnets _ _ Hn).
  assert (Hfree : forall w cid c, driver_ok w -> connections w !! ClusterID remote = None -> connections w !! cid = Some c ->
    (key_of c).1 <> key /\ Forall (fun n => net_owner (net_string n) <> cid) nets).
  { intros w1 cid c Hok1 Hnone1 Hc. assert (cid <> ClusterID remote) by congruence. split.
    - eapply other_keys; [exact Hok1| |exact Hc]. congruence.
    - apply Forall_forall. intros n Hi. rewrite Forall_forall in Hnets. rewrite Hnets; [congruence|].
      apply list_elem_of_In, in_map, list_elem_of_In, Hi. }
  unfold connect_new in Hr. cbv zeta in Hr. unfold mbind at 1, eff_bind at 1, getw in Hr. fold remote in Hr.
  set (pc := mkPeerConfig key false (psk w) _ (keepAlive w) nets) in Hr.
  assert (Hconf : forall r w', on_world "failed to configure peer" (ConfigureDevice (peer_config [pc])) w = (r, w') ->
    driver_ok w' /\ connections w' = connections w /\ psk w' = psk w).
  { intros r0 w0 H0. apply (configure_others pc w w0 r0 _ Hok H0). intros cid c Hc. by apply (Hfree w). }
  apply eff_bind_inv in Hr as [([] & w1 & H1 & Hr)|(e & H1 & ->)]; apply Hconf in H1 as (Hok1 & Hc1 & Hp1); [|by split].
  apply eff_bind_inv in Hr as [(v & w2 & H2 & Hr)|(e & H2 & _)]; [|apply attempt_inv in H2 as (? & [=] & _)].
  apply attempt_inv in H2 as (v0 & [= ->] & H2). pose proof (keeps_run quiet _ _ _ _ (verify_quiet pc) H2) as Hq.
  pose proof (steady_ok _ _ (quiet_steady _ _ Hq) Hok1) as Hok2. destruct Hq as (Hpsk & Hpeers & Hconns).
  rewrite Hc1 in Hconns. destruct v0 as [[]|e].
  - apply verified_peer in H2. rewrite <- Hpeers in H2. cbn in H2. unfold mbind, eff_bind, modifyw, mret, eff_ret in Hr. injection Hr as <- <-.
    split; [|split; [done|cbn; rewrite lookup_insert_eq; by eexists]].
    unfold driver_ok. cbn. apply map_Forall_insert_2; [|exact Hok2]. split; [done|].
    exists key, (UseFamily info), (map net_string nets). cbn. split; [exact Hk|]. split; [done|].
    split; [split; [done|exists info; by split_and!]|]. split; [done|]. rewrite H2. do 2 f_equal. by rewrite Hpsk, Hp1.
  - unfold mbind, eff_bind, ignore, fail in Hr. destruct (removePeer key w2) as [r3 w3] eqn:H3. cbn in Hr. injection Hr as <- <-.
    apply removePeer_others in H3 as (Hok3 & Hc3 & _); [|done|].
    + split; [done|]. split; [by rewrite Hc3|done].
    + intros cid c Hc. refine (proj1 (Hfree w2 cid c _ _ Hc)); [done|]. by rewrite Hconns.
Qed.

Lemma connect_spec nowNs info w r w' :
  let remote := Spec (info_Endpoint info) in
  called info -> driver_ok w -> key_owned remote -> nets_owned remote ->
  ConnectToEndpoint ParseKey zero_key nowNs info w = (r, w') -> connect_outcome (ClusterID remote) r w w'.
Proof.
  cbv zeta. set (remote := Spec (info_Endpoint info)). intros Hcalled Hok Hkey Hnets Hr. unfold ConnectToEndpoint in Hr. cbv zeta in Hr. fold remote in Hr.
  destruct (ParseIP (UseIP info)) as [|b ip]; [injection Hr as <- <-; split; [done|by left]|].
  destruct (ParseSubnets remote _) as [nets|e] eqn:Hp; [|injection Hr as <- <-; split; [done|by left]].
  destruct (keyFromSpec ParseKey zero_key remote) as [key []] eqn:Hk; [|injection Hr as <- <-; split; [done|by left]].
  assert (Hnew : forall w1 r1 w2, driver_ok w1 -> connections w1 !! ClusterID remote = None ->
    connect_new nowNs info (b :: ip) nets key w1 = (r1, w2) ->
    driver_ok w2 /\ (is_err r1 = true -> connections w2 = connections w1) /\ (is_ok r1 = true -> is_Some (connections w2 !! ClusterID remote)))
    by (intros; by eapply connect_new_spec).
  unfold mbind at 1, eff_bind at 1, getw in Hr. destruct (connections w !! _) as [old|] eqn:Hold.
  2: { apply Hnew in Hr as (H1 & H2 & H3); [|done..]. split; [done|]. destruct r; [by apply H3|left; by apply H2]. }
  assert (Hreplace : forall w1 r1 w2, driver_ok w1 -> connections w1 = connections w ->
    (_ ← modifyw (with_connections (delete (ClusterID remote))); connect_new nowNs info (b :: ip) nets key) w1 = (r1, w2) ->
    connect_outcome (ClusterID remote) r1 w w2).
  { intros w1 r1 w2 Hok1 Hc1 H1. unfold mbind at 1, eff_bind at 1, modifyw in H1. apply Hnew in H1 as (H1 & H2 & H3).
    - split; [done|]. destruct r1; [by apply H3|right]. cbn in H2. rewrite H2 by done. by rewrite Hc1.
    - by eapply (delete_ok (ClusterID remote) w1).
    - cbn. by rewrite lookup_delete_eq. }
  destruct (keyFromSpec ParseKey zero_key (conn_Endpoint old)) as [okey []] eqn:Hok_old; [|by eapply Hreplace].
  case_bool_decide as Heq.
  - apply eff_bind_inv in Hr as [([] & w1 & H1 & Hr)|(e & H1 & ->)]; pose proof (keeps_run steady _ _ _ _ (updatePeerStatus_steady _ _ _) H1) as Hs.
    + injection Hr as <- <-. split; [by eapply steady_ok|]. destruct Hs as (_ & _ & Hd & _). apply elem_of_dom. rewrite Hd. apply elem_of_dom. by eexists.
    + exfalso. unfold updatePeerStatus in H1. apply eff_bind_inv in H1 as [(v & w2 & _ & H1)|(e' & H1 & _)]; [by destruct v|].
      by apply attempt_inv in H1 as (? & [=] & _).
  - unfold mbind at 1, eff_bind at 1, ignore in Hr. destruct (removePeer okey w) as [r1 w1] eqn:H1. cbn in Hr.
    (* the old peer goes with its connection *)
    destruct (removePeer_deleted okey (ClusterID remote) w w1 r1 Hok H1) as (Hok1 & Hc1 & Hp1).
    { intros cid c Hc Hne. destruct (Hok _ _ Hold) as (_ & k0 & f0 & n0 & Hk0 & Ho0 & _). rewrite Hok_old in Hk0. injection Hk0 as <-.
      eapply other_keys; [exact Hok| |exact Hc]. congruence. }
    unfold mbind at 1, eff_bind at 1, modifyw in Hr. apply Hnew in Hr as (H2 & H3 & H4).
    + split; [done|]. destruct r; [by apply H4|right]. cbn in H3. rewrite H3 by done. by rewrite Hc1.
    + done.
    + cbn. by rewrite lookup_delete_eq.
Qed.

Lemma disconnect_ok remote f w r w' : driver_ok w -> key_owned remote ->
  DisconnectFromEndpoint ParseKey zero_key remote f w = (r, w') -> driver_ok w'.
Proof.
  intros Hok Hkey Hr. unfold DisconnectFromEndpoint in Hr. destruct (keyFromSpec _ _ remote) as [key []] eqn:Hk; [|by injection Hr as _ <-].
  specialize (Hkey _ Hk). unfold mbind at 1, eff_bind at 1, ignore in Hr. destruct (removePeer key w) as [r1 w1] eqn:H1. cbn in Hr.
  destruct (removePeer_deleted key (ClusterID remote) w w1 r1 Hok H1) as (Hok1 & Hc1 & Hp1).
  { intros cid c Hc Hne. eapply other_keys; [exact Hok| |exact Hc]. congruence. }
  unfold mbind at 1, eff_bind at 1, getw in Hr. destruct (keyMismatch _ _ _ _ w1) eqn:Hm.
  - (* the connection, if any, has another key *)
    injection Hr as _ <-. eapply removePeer_others; [exact Hok|exact H1|]. intros cid c Hc.
    destruct (decide (cid = ClusterID remote)) as [->|Hne]; [|eapply other_keys; [exact Hok| |exact Hc]; congruence].
    unfold keyMismatch in Hm. rewrite Hc1, Hc in Hm. by bool_props.
  - unfold mbind, eff_bind, modifyw in Hr. by injection Hr as _ <-.
Qed.

Lemma unknown_key_unserved key w : connectionByKey ParseKey zero_key range key w = None ->
  forall cid c, connections w !! cid = Some c -> (key_of c).1 <> key.
Proof.
  unfold connectionByKey. destruct (List.find _ _) as [p|] eqn:Hf; [done|]. intros _ cid c Hc Hk.
  assert (Hin : List.In (cid, c) (range (connections w))) by (by apply list_elem_of_In, range_ok).
  apply (List.find_none _ _ Hf) in Hin. by rewrite bool_decide_true in Hin.
Qed.

(** An unknown peer that is removed serves no connection. *)
Lemma collect_ok nowNs l : forall acc w r w', driver_ok w ->
  collect_connections ParseKey zero_key nowNs range l acc w = (r, w') -> driver_ok w'.
Proof.
  induction l as [|p l IH]; intros acc w r w' Hok Hr; cbn [collect_connections] in Hr; [by injection Hr as _ <-|].
  unfold mbind at 1, eff_bind at 1, getw in Hr. destruct (connectionByKey _ _ _ _ w) as [cid|] eqn:Hk.
  - apply eff_bind_inv in Hr as [([] & w1 & H1 & Hr)|(e & H1 & _)]; [|done].
    pose proof (keeps_run steady _ _ _ _ (update_connection_steady _ _ _) H1) as Hs. unfold mbind, eff_bind, getw in Hr.
    eapply IH; [|exact Hr]. by eapply steady_ok.
  - unfold mbind at 1, eff_bind at 1, ignore in Hr. destruct (removePeer _ w) as [r1 w1] eqn:H1. eapply IH; [|exact Hr].
    eapply removePeer_others; [exact Hok|exact H1|]. by apply unknown_key_unserved.
Qed.
Lemma init_ok w r w' : driver_ok w -> Init ParseKey zero_key w = (r, w') -> driver_ok w'.
Proof.
  intros Hok Hr. refine (steady_ok _ _ (quiet_steady _ _ (keeps_run quiet _ _ _ _ _ Hr)) Hok). unfold Init.
  apply keeps_bind; [apply _|apply on_world_quiet, interface_peers|]. intros [].
  apply keeps_bind; [apply _|apply device_quiet|]. intros d. apply keeps_bind; [apply _|apply keeps_getw, _|]. intros w1.
  destruct (negb _); [apply keeps_fail, _|apply on_world_quiet, link_up_peers].
Qed.

(** Every call but the clean-up. *)
Inductive awg_op := AwgInit | AwgConnect (info : NATEndpointInfo) | AwgDisconnect (remote : EndpointSpec) (f : IPFamily) | AwgList.

Definition awg_run_op (nowNs : Z) (op : awg_op) (w : drv) : drv :=
  match op with
  | AwgInit => (Init ParseKey zero_key w).2
  | AwgConnect info => (ConnectToEndpoint ParseKey zero_key nowNs info w).2
  | AwgDisconnect remote f => (DisconnectFromEndpoint ParseKey zero_key remote f w).2
  | AwgList => (GetConnections ParseKey zero_key nowNs range w).2
  end.

Definition awg_run (ops : list (Z * awg_op)) (w : drv) : drv := foldl (fun w op => awg_run_op op.1 op.2 w) w ops.

Definition op_owned (op : awg_op) : Prop :=
  match op with
  | AwgConnect info => key_owned (Spec (info_Endpoint info)) /\ nets_owned (Spec (info_Endpoint info))
  | AwgDisconnect remote _ => key_owned remote
  | _ => True
  end.

Definition op_called (op : awg_op) : Prop :=
  match op with AwgConnect info => called info | _ => True end.

Lemma op_ok nowNs op w : op_called op -> op_owned op -> driver_ok w -> driver_ok (awg_run_op nowNs op w).
Proof.
  intros Hcl Ho Hok. destruct op as [|info|remote f|]; cbn [awg_run_op].
  - destruct (Init _ _ w) eqn:E. by eapply init_ok.
  - destruct (ConnectToEndpoint _ _ _ _ w) eqn:E. destruct Ho. by apply connect_spec in E as [E _].
  - destruct (DisconnectFromEndpoint _ _ _ _ w) eqn:E. by eapply disconnect_ok.
  - destruct (GetConnections _ _ _ _ w) as [r w'] eqn:E. cbn. unfold GetConnections in E.
    apply eff_bind_inv in E as [(d & w1 & Hd & E)|(e & Hd & _)]; pose proof (keeps_run quiet _ _ _ _ (device_quiet _) Hd) as Hq;
      pose proof (steady_ok _ _ (quiet_steady _ _ Hq) Hok) as Hok1; [by eapply collect_ok|done].
Qed.

Lemma run_ok ops w0 : connections w0 = ∅ -> Forall (fun op => op_called op.2 /\ op_owned op.2) ops ->
  driver_ok (awg_run ops w0).
Proof.
  intros H0 Hops. assert (Hok0 : driver_ok w0) by (unfold driver_ok; rewrite H0; apply map_Forall_empty). clear H0.
  unfold awg_run. revert w0 Hok0. induction Hops as [|op ops [Hc Ho] _ IH]; [done|]. intros w0 Hok0. by apply IH, op_ok.
Qed.
End peers.

Section connections.
Context {W G : Type} `{!AwgClient W} `{!DaemonAPI W} `{!AwgLaws W} `{!GaugeVec G} `{K8sNet}.
Context (ParseKey : string -> option string) (zero_key : string)
  (range : gmap string Connection -> list (string * Connection)).
Hypothesis range_ok : forall m p, p ∈ range m <-> m !! p.1 = Some p.2.
Context (key_owner net_owner : string -> string).

(** C5: When no two clusters share a key or a network, then after any calls, whichever of
    them failed, every connection of the driver was asked for by one of the calls, with its
    cluster, key and subnets, and has its peer on the device, with the pre-shared key
    and exactly those of its subnets that have the family of that call; and a further
    connection leaves an entry for its cluster when it succeeds, and when it fails at
    most takes the cluster's entry away. *)
Theorem connections_have_peers ops (w0 : amneziawgDriver W G) : connections w0 = ∅ ->
  Forall (fun op => op_owned ParseKey zero_key key_owner net_owner op.2) ops ->
  let w := awg_run ParseKey zero_key range ops w0 in
  (forall cid c, connections w !! cid = Some c ->
     exists nowNs info k nets, (nowNs, AwgConnect info) ∈ ops /\
       let remote := Spec (info_Endpoint info) in
       ClusterID remote = cid /\ ClusterID (conn_Endpoint c) = cid /\ Subnets (conn_Endpoint c) = Subnets remote /\
       keyFromSpec ParseKey zero_key remote = (k, true) /\ keyFromSpec ParseKey zero_key (conn_Endpoint c) = (k, true) /\
       ParseSubnets remote (UseFamily info) = Ok nets /\
       peers (world w) !! k = Some (psk w, map net_string nets)) /\
  (forall nowNs info r w', op_owned ParseKey zero_key key_owner net_owner (AwgConnect info) ->
     ConnectToEndpoint ParseKey zero_key nowNs info w = (r, w') ->
     let cid := ClusterID (Spec (info_Endpoint info)) in
     match r with
     | Ok _ => is_Some (connections w' !! cid)
     | Err _ => connections w' = connections w \/ connections w' = delete cid (connections w)
     end).
Proof.
  intros H0 Hops. cbv zeta.
  assert (Hok : forall called : NATEndpointInfo -> Prop, (forall nowNs info, (nowNs, AwgConnect info) ∈ ops -> called info) ->
    driver_ok ParseKey zero_key key_owner net_owner called (awg_run ParseKey zero_key range ops w0)).
  { intros called Hc. apply run_ok; [done..|]. rewrite Forall_forall in Hops |- *. intros [nowNs op] Hin.
    split; [|by apply (Hops _ Hin)]. destruct op as [|info| |]; try done. by eapply Hc. }
  split.
  - intros cid c Hc.
    assert (Hcalled : forall nowNs info, (nowNs, AwgConnect info) ∈ ops -> exists nowNs, (nowNs, AwgConnect info) ∈ ops) by eauto.
    destruct (Hok (fun info => exists nowNs, (nowNs, AwgConnect info) ∈ ops) Hcalled _ _ Hc)
      as (Hcl & k & f & nets & Hk & _ & ((l & Hl & Hn) & info & (nowNs & Hin) & <- & Hid & Hsub & Hkey) & _ & Hp).
    exists nowNs, info, k, l. split; [done|]. cbv zeta. rewrite Hn. split_and!; try congruence.
    rewrite <- Hl. unfold ParseSubnets. by rewrite Hsub.
  - intros nowNs info r w' [Ho1 Ho2] Hr. eapply (connect_spec _ _ key_owner net_owner (fun _ => True)) in Hr as [_ Hr]; try done.
    by apply Hok.
Qed.
End connections.

(** * A concrete gateway *)

(** What is open, the peers, and two keys: one the device refuses and one it takes
    without its networks. *)
Record gateway := mkGateway {
  g_open : open_parts;
  g_peers : gmap string Peer;
  g_refused : string;
  g_partial : string;
  g_listens : bool;
}.

Definition on_open (f : open_parts -> open_parts) (g : gateway) : gateway :=
  mkGateway (f (g_open g)) (g_peers g) (g_refused g) (g_partial g) (g_listens g).

Definition on_peers (f : gmap string Peer -> gmap string Peer) (g : gateway) : gateway :=
  mkGateway (g_open g) (f (g_peers g)) (g_refused g) (g_partial g) (g_listens g).

Definition take_nets (nets : list IPNet) (p : Peer) : Peer :=
  mkPeer (peer_PublicKey p) (peer_PresharedKey p) (peer_Endpoint p)
    (base.filter (fun n => net_string n ∉ map net_string nets) (peer_AllowedIPs p)) (LastHandshakeTime p) (ReceiveBytes p) (TransmitBytes p).

Definition set_peer (partial : string) (m : gmap string Peer) (pc : PeerConfig) : gmap string Peer :=
  if pc_Remove pc then delete (pc_PublicKey pc) m
  else
    let nets := if pc_PublicKey pc =?? partial then [] else pc_AllowedIPs pc in
    <[pc_PublicKey pc := mkPeer (pc_PublicKey pc) (pc_PresharedKey pc) (pc_Endpoint pc) nets None 0 0]> (take_nets nets <$> m).

#[local] Instance gateway_client : AwgClient gateway := {
  NewClient := fun g => (Ok tt, on_open (fun o => mkOpen true (o_tun o) (o_file o) (o_device o) (o_listener o)) g);
  CloseClient := fun g => (Ok tt, on_open (fun o => mkOpen false (o_tun o) (o_file o) (o_device o) (o_listener o)) g);
  ConfigureDevice := fun cfg g =>
    if bool_decide (g_refused g ∈ pc_PublicKey <$> cfg_Peers cfg) then (Err "refused", g)
    else (Ok tt, on_peers (fun m => foldl (set_peer (g_partial g)) (if cfg_ReplacePeers cfg then ∅ else m) (cfg_Peers cfg)) g);
  Device := fun g => (Ok ("local-key", (fun kp : string * Peer =>
      mkPeer kp.1 (peer_PresharedKey kp.2) (peer_Endpoint kp.2) (peer_AllowedIPs kp.2) (LastHandshakeTime kp.2) (ReceiveBytes kp.2) (TransmitBytes kp.2))
    <$> map_to_list (g_peers g)), g);
  GeneratePrivateKey := mret "private-key";
  awg_LinkByName := fail ErrLinkNotFound;
  awg_InterfaceByName := mret tt;
  awg_LinkDel := mret tt;
  awg_LinkSetUp := mret tt;
}.

#[local] Instance gateway_daemon : DaemonAPI gateway := {
  CreateTUN := fun g => (Ok tt, on_open (fun o => mkOpen (o_client o) true (o_file o) (o_device o) (o_listener o)) g);
  CloseTUN := on_open (fun o => mkOpen (o_client o) false (o_file o) (o_device o) (o_listener o));
  UAPIOpen := fun g => (Ok tt, on_open (fun o => mkOpen (o_client o) (o_tun o) true (o_device o) (o_listener o)) g);
  CloseUAPIFile := on_open (fun o => mkOpen (o_client o) (o_tun o) false (o_device o) (o_listener o));
  NewDevice := on_open (fun o => mkOpen (o_client o) (o_tun o) (o_file o) true (o_listener o));
  CloseDevice := on_open (fun o => mkOpen (o_client o) false (o_file o) false (o_listener o));
  UAPIListen := fun g => if g_listens g then (Ok tt, on_open (fun o => mkOpen (o_client o) (o_tun o) false (o_device o) true) g)
                         else (Err "address in use", g);
  CloseListener := fun g => (Ok tt, on_open (fun o => mkOpen (o_client o) (o_tun o) (o_file o) (o_device o) false) g);
}.
#[local] Existing Instance k8snet_ref.
#[local] Existing Instance Metrics.gauge_ref.

#[local] Instance gateway_open_laws : OpenLaws gateway.
Proof.
  refine {| opened := g_open |}; try done; try (by intros w r w' [= <- <-]).
  - intros w r w' E. cbn in E. destruct (g_listens w); by injection E as <- <-.
  - intros cfg w. cbn. by destruct (bool_decide _).
Defined.

Lemma take_nets_id nets p : (forall n, n ∈ nets -> net_string n ∉ map net_string (peer_AllowedIPs p)) -> take_nets nets p = p.
Proof.
  intros Hn. unfold take_nets. rewrite filter_all; [by destruct p|]. apply Forall_forall. intros x Hx Hin.
  apply list_elem_of_In, in_map_iff in Hin as (n & Heq & Hin). apply list_elem_of_In in Hin. apply (Hn n Hin). rewrite Heq.
  by apply list_elem_of_In, in_map, list_elem_of_In.
Qed.

#[local] Instance gateway_laws : AwgLaws gateway.
Proof.
  refine {| peers := fun g => (fun p => (peer_PresharedKey p, map net_string (peer_AllowedIPs p))) <$> g_peers g |}; try done.
  - intros g r g' [= <- <-]. split; [done|]. intros p Hp. apply list_elem_of_fmap in Hp as ([k p'] & -> & Hp).
    apply elem_of_map_to_list in Hp. cbn. by rewrite lookup_fmap, Hp.
  - intros cfg g r g' k v E Hrep. cbn in E. destruct (bool_decide _); [by injection E as _ <-|]. injection E as _ <-. cbn. rewrite Hrep.
    generalize (g_peers g). clear Hrep. induction (cfg_Peers cfg) as [|pc l IH]; intros m Hk Hn Hv; [done|]. cbn [foldl].
    cbn [fmap list_fmap] in Hk. apply not_elem_of_cons in Hk as [Hk1 Hk2]. apply IH; [done|intros pc' n Hpc; apply Hn; by right|].
    rewrite lookup_fmap in Hv |- *. destruct (m !! k) as [p|] eqn:Hp; [|done]. cbn in Hv. injection Hv as <-. unfold set_peer. destruct (pc_Remove pc).
    + by rewrite lookup_delete_ne, Hp.
    + rewrite lookup_insert_ne, lookup_fmap, Hp by done. cbn [fmap option_fmap option_map]. rewrite take_nets_id; [done|]. intros n Hin.
      destruct (pc_PublicKey pc =?? g_partial g); [by apply elem_of_nil in Hin|]. eapply (Hn pc); [by left|done].
Defined.

Definition ex_metrics : Metrics.metrics (gmap Labels Z) := Metrics.mkMetrics ∅ ∅ ∅ ∅ ∅ ∅ ∅ ∅.
Definition ex_remote (cluster key : string) (subnets : list string) : EndpointSpec :=
  mkSpec cluster ("cable-" +:+ cluster) "" [] "node" subnets "" [] "" [] false "amneziawg" {[ PublicKey := key ]}.
Definition ex_info (cluster key ip : string) (subnets : list string) : NATEndpointInfo :=
  mkInfo (mkEndpoint cluster 1 (ex_remote cluster key subnets)) false ip IPv4.

Definition ex_gateway (listens : bool) : gateway := mkGateway (parts false false) ∅ "k-refused" "k-partial" listens.

Definition ex_driver : amneziawgDriver gateway (gmap Labels Z) :=
  mkDriver (ex_remote "east" "local-key" []) ∅ 4500 "psk" (10 * 10 ^ 9) true (ex_gateway true) ex_metrics.

Definition ex_update (f : EndpointSpec -> EndpointSpec) : eff gateway string unit := mret tt.

Definition ex_create (listens : bool) (options : gmap string string) :=
  NewDriver (fun k => k) (fun k => Ok k) (Ok 4500) (Ok "a strong secret") (fun _ => ex_remote "east" "" []) ex_update (Ok options) ex_metrics
    (mkSetup false false (ex_gateway listens)).

(** The socket of the daemon is in use; and options that are refused when the client
    and the daemon are open. *)
Lemma failed_creation_closes_all_witness :
  is_err (ex_create false ∅).1 = true /\ opened (outside (ex_create false ∅).2) = parts false false /\
  is_err (ex_create true {["jc" := "0"]}).1 = true /\ opened (outside (ex_create true {["jc" := "0"]}).2) = parts false false.
Proof.
  assert (Hex : forall listens options, is_err (ex_create listens options).1 = true -> opened (outside (ex_create listens options).2) = parts false false).
  { intros listens options He. unfold ex_create in *.
    pose proof (failed_creation_closes_all (G := gmap Labels Z) (OpenLaws0 := gateway_open_laws) (fun k => Ok k) (fun k => k) (Ok 4500) (Ok "a strong secret")
      (fun _ => ex_remote "east" "" []) ex_update (Ok options) ex_metrics (ex_gateway listens) _ _ ltac:(intros f w; reflexivity) eq_refl
      (surjective_pairing _)) as Hc.
    destruct (NewDriver _ _ _ _ _ _ _ _ _) as [[d|e] s]; [discriminate He|exact Hc]. }
  split; [vm_compute; reflexivity|]. split; [apply Hex; vm_compute; reflexivity|].
  split; [vm_compute; reflexivity|]. apply Hex. vm_compute. reflexivity.
Defined.

(** The owners of the keys and the networks below. *)
Definition ex_key_owner (k : string) : string := if bool_decide (k ∈ ["k1"; "k3"]) then "west" else "north".
Definition ex_net_owner (n : string) : string := if bool_decide (n ∈ ["10.2.0.0/16"; "10.4.0.0/16"]) then "west" else "north".

(** The cluster's key changes, then its neighbour's peer is not taken as configured, and
    a third call is refused by the device. *)
Definition ex_ops : list (Z * awg_op) :=
  [(0, AwgConnect (ex_info "west" "k1" "1.2.3.4" ["10.2.0.0/16"]));
   (1, AwgConnect (ex_info "north" "k-partial" "1.2.3.5" ["10.3.0.0/16"]));
   (2, AwgConnect (ex_info "west" "k3" "1.2.3.6" ["10.2.0.0/16"; "10.4.0.0/16"]));
   (3, AwgConnect (ex_info "north" "k-refused" "1.2.3.7" ["10.3.0.0/16"]))].

Lemma ex_owned cluster key ip subnets : ex_key_owner key = cluster ->
  Forall (fun f => Forall (fun n => ex_net_owner n = cluster)
     (map net_string (from_result [] (ParseSubnets (ex_remote cluster key subnets) f)))) [IPv4; IPv6; IPFamilyUnknown] ->
  op_owned Some "" ex_key_owner ex_net_owner (AwgConnect (ex_info cluster key ip subnets)).
Proof.
  intros Hk Hn. split.
  - intros k. unfold keyFromSpec. cbn. rewrite lookup_insert_eq. intros [= <-]. exact Hk.
  - intros f nets (l & Hl & <-). change (ParseSubnets (ex_remote cluster key subnets) f = Ok l) in Hl. rewrite Forall_forall in Hn. specialize (Hn f).
    rewrite Hl in Hn. apply Hn. destruct f; set_solver.
Defined.

Lemma connections_have_peers_witness :
  let w := awg_run Some "" map_to_list ex_ops ex_driver in
  dom (connections w) = {["west"]} /\ peers (world w) !! "k3" = Some (psk w, ["10.2.0.0/16"; "10.4.0.0/16"]).
Proof.
  destruct (connections_have_peers Some "" map_to_list (fun m p => match p with (k, c) => elem_of_map_to_list m k c end)
    ex_key_owner ex_net_owner ex_ops ex_driver eq_refl) as [Hs _].
  { repeat (apply Forall_cons; split; [apply ex_owned; [vm_compute; reflexivity|apply (bool_decide_unpack _); vm_compute; reflexivity]|]). by apply Forall_nil. }
  assert (Hkey : (fun c => (keyFromSpec Some "" (conn_Endpoint c), Subnets (conn_Endpoint c))) <$>
    connections (awg_run Some "" map_to_list ex_ops ex_driver) !! "west" = Some (("k3", true), ["10.2.0.0/16"; "10.4.0.0/16"]))
    by (vm_compute; reflexivity).
  cbv zeta. split; [apply (bool_decide_unpack _); vm_compute; reflexivity|].
  destruct (connections _ !! "west") as [c|] eqn:Hw; [|discriminate Hkey].
  destruct (Hs _ _ Hw) as (nowNs & info & k & nets & Hin & _ & _ & Hsub & _ & Hk & Hn & Hp). cbn in Hkey.
  apply (inj Some) in Hkey. injection Hkey as Hk1 Hs1. rewrite Hk1 in Hk. injection Hk as <-.
  rewrite Hp. do 2 f_equal. unfold ParseSubnets in Hn. rewrite <- Hsub, Hs1 in Hn.
  assert (Hf : UseFamily info = IPv4).
  { clear - Hin. unfold ex_ops in Hin. rewrite !elem_of_cons, elem_of_nil in Hin.
    destruct Hin as [[= _ ->]|[[= _ ->]|[[= _ ->]|[[= _ ->]|[]]]]]; reflexivity. }
  rewrite Hf in Hn. vm_compute in Hn. injection Hn as <-. vm_compute. reflexivity.
Defined.

(** An endpoint with the key of its cluster's connection is reported as connected at
    its new address, but its peer and its connection stay as they were. *)
Lemma same_key_not_updated :
  let w := awg_run Some "" map_to_list [(0, AwgConnect (ex_info "west" "k1" "1.2.3.4" ["10.2.0.0/16"]))] ex_driver in
  let again := ConnectToEndpoint Some "" 1 (ex_info "west" "k1" "5.6.7.8" ["10.4.0.0/16"]) w in
  again.1 = Ok "5.6.7.8" /\ peers (world again.2) = peers (world w) /\ UsingIP <$> connections again.2 !! "west" = Some "1.2.3.4".
Proof. split; [vm_compute; reflexivity|]. split; [apply (bool_decide_unpack _)|]; vm_compute; reflexivity. Qed.
End AmneziaWG.
