(* ===== verification/RouteAgent.v ===== *)
(** What the handlers of the route agent share, the chains they work on
    ([pkg/routeagent_driver/chains]) and the handler that clamps the segment size
    of TCP connections between clusters ([pkg/routeagent_driver/handlers/mtu]). *)
From stdpp Require Import base gmap list strings fin_maps fin_sets.
From Stdlib Require String.
From Stdlib Require Import ZArith Lia Ascii.
From S2P Require Import Prelude GoNet K8s Cidr Endpoint NatDiscovery CableEngine Metrics Netlink Vxlan PacketFilter Event.
Import Strconv Net Endpoint.
Local Open Scope Z_scope.

Module RouteAgent.

(** A returned error, [logger.Fatalf], which ends the process, and a panic. *)
Inductive ra_error := RaError (what : string) | RaFatal (what : string) | RaPanic (what : string).

Fixpoint pf_ra_error (what : string) (e : PacketFilter.pf_error) : ra_error :=
  match e with
  | PacketFilter.PanicParse _ => RaPanic what
  | PacketFilter.Wrapped _ e => pf_ra_error what e
  | _ => RaError what
  end.

Definition vx_ra_error (what : string) (e : VxlanLink.vx_error) : ra_error :=
  match e with VxlanLink.PanicNotVxlan _ => RaPanic what | _ => RaError what end.

(** The error is logged and the code goes on; a panic is not an error. *)
Definition logged {X} (m : eff X ra_error unit) : eff X ra_error unit :=
  r ← attempt m;
  match r with Ok _ | Err (RaError _) => mret tt | Err e => fail e end.

(** [logger.Fatalf] on an error. *)
Definition fatal {X} (what : string) (m : eff X ra_error unit) : eff X ra_error unit :=
  r ← attempt m;
  match r with Ok _ => mret tt | Err (RaError _) => fail (RaFatal what) | Err e => fail e end.

(** The subnets of the family that an endpoint announces. *)
Definition subnets_of `{K8sNet} (family : IPFamily) (endpoint : EndpointSpec) : list string :=
  Cidr.ExtractSubnets family (Subnets endpoint).
End RouteAgent.

(** * The chains of the route agent *)
Module Chains.
Import PacketFilter.

Definition SmPostRouting : string := "SUBMARINER-POSTROUTING".
Definition SmPostRoutingMss : string := "SUBMARINER-POSTROUTING-MSS".
Definition SmInput : string := "SUBMARINER-INPUT".
Definition SmForward : string := "SUBMARINER-FORWARD".
Definition SmForwardMSSClamp : string := "SUBMARINER-FWD-MSSCLAMP".
Definition SmSelfSnat : string := "SUBMARINER-SELF-SNAT".

Definition NewPostRouting : ChainIPHook :=
  mkIPHook SmPostRouting ChainTypeNAT ChainHookPostrouting ChainPriorityFirst ChainPolicyAccept None.
Definition NewForwarding : ChainIPHook :=
  mkIPHook SmForward ChainTypeFilter ChainHookForward ChainPriorityFirst ChainPolicyAccept None.
Definition NewForwardingMSSClamp : ChainIPHook :=
  mkIPHook SmForwardMSSClamp ChainTypeFilter ChainHookForward ChainPriorityFirst ChainPolicyAccept None.

(** A rule that makes UDP traffic jump to a chain. *)
Definition jump_udp (chain : string) : Rule :=
  mkRule "" "" "" "" "" "" "" "" chain "" "" "" RuleActionJump RuleProtoUDP UndefinedMSS.

Definition NewInput : ChainIPHook :=
  mkIPHook SmInput ChainTypeFilter ChainHookInput ChainPriorityLast ChainPolicyAccept
    (Some (jump_udp SmInput)).
Definition NewSelfSnat : ChainIPHook :=
  mkIPHook SmSelfSnat ChainTypeNAT ChainHookPostrouting ChainPriorityMiddle ChainPolicyAccept None.
End Chains.

Module Mtu.
Import PacketFilter RouteAgent Chains.

Definition MaxIPSecOverhead : Z := 120.
Definition RemoteCIDRIPSetIPv4 : string := "SUBMARINER-REMOTECIDRS".
Definition LocalCIDRIPSetIPv4 : string := "SUBMARINER-LOCALCIDRS".
Definition RemoteCIDRIPSetIPv6 : string := "SUBMARINER-REMOTECIDRS-V6".
Definition LocalCIDRIPSetIPv6 : string := "SUBMARINER-LOCALCIDRS-V6".

Inductive forceMssSts := notNeeded | needed | configured.

#[global] Instance forceMssSts_eq_dec : EqDecision forceMssSts.
Proof. solve_decision. Defined.

(** [pFilter], [tableType], [chainType] and the sets are there once [Init] has
    succeeded; a set is known by the [SetInfo] it was made from. *)
Record mtuHandler := mkMtu {
  ipFamily : IPFamily;
  localClusterCidr : list string;
  tableType : TableType;
  chainType : ChainType;
  remoteIPSet : option SetInfo;
  localIPSet : option SetInfo;
  forceMss : forceMssSts;
  tcpMssValue : Z;
  localCIDRIPSet : string;
  remoteCIDRIPSet : string;
}.

Definition set_types (t : TableType) (c : ChainType) (h : mtuHandler) : mtuHandler :=
  mkMtu (ipFamily h) (localClusterCidr h) t c (remoteIPSet h) (localIPSet h) (forceMss h) (tcpMssValue h)
    (localCIDRIPSet h) (remoteCIDRIPSet h).
Definition set_remote (s : SetInfo) (h : mtuHandler) : mtuHandler :=
  mkMtu (ipFamily h) (localClusterCidr h) (tableType h) (chainType h) (Some s) (localIPSet h) (forceMss h)
    (tcpMssValue h) (localCIDRIPSet h) (remoteCIDRIPSet h).
Definition set_local (s : SetInfo) (h : mtuHandler) : mtuHandler :=
  mkMtu (ipFamily h) (localClusterCidr h) (tableType h) (chainType h) (remoteIPSet h) (Some s) (forceMss h)
    (tcpMssValue h) (localCIDRIPSet h) (remoteCIDRIPSet h).
Definition set_force (f : forceMssSts) (h : mtuHandler) : mtuHandler :=
  mkMtu (ipFamily h) (localClusterCidr h) (tableType h) (chainType h) (remoteIPSet h) (localIPSet h) f
    (tcpMssValue h) (localCIDRIPSet h) (remoteCIDRIPSet h).

Definition NewHandler `{K8sNet} (family : IPFamily) (clusterCidr : list string) (isGlobalnet : bool)
    (mss : Z) : mtuHandler :=
  let force := if isGlobalnet || negb (mss =? 0) then needed else notNeeded in
  let cidrs := Cidr.ExtractSubnets family clusterCidr in
  match family with
  | IPv6 => mkMtu family cidrs TableTypeFilter ChainTypeFilter None None force mss LocalCIDRIPSetIPv6 RemoteCIDRIPSetIPv6
  | _ => mkMtu family cidrs TableTypeFilter ChainTypeFilter None None force mss LocalCIDRIPSetIPv4 RemoteCIDRIPSetIPv4
  end.

(** A rule on the traffic from one set to another that clamps the segment size. *)
Definition mss_rule (src dst : string) (clamp : MssClampType) (value : string) : Rule :=
  mkRule "" "" src dst "" "" "" "" "" value "" "" RuleActionMss RuleProtoUndefined clamp.

Section handler.
Context {W S : Type} `{!NetlinkBasic W} `{!PFDriver S} `{K8sNet}.
(** [packetfilter.New]: the interface works on the same filter. *)
Context (NewFilter : IPFamily -> eff S pf_error unit).
(** The order in which Go ranges over a map of rules. *)
Context (range_rules : gset Rule -> list Rule).

Record world := mkWorld { mtu : mtuHandler; host : W; filter : S }.
Abbreviation M := (eff world ra_error).

Definition update (f : mtuHandler -> mtuHandler) : M unit :=
  modifyw (fun w => mkWorld (f (mtu w)) (host w) (filter w)).

Definition on_filter {A} (what : string) (m : eff S pf_error A) : M A := fun w =>
  let '(r, x) := m (filter w) in (map_err (pf_ra_error what) r, mkWorld (mtu w) (host w) x).

Definition on_host {A} (what : string) (m : eff W nl_error A) : M A := fun w =>
  let '(r, x) := m (host w) in (map_err (fun _ => RaError what) r, mkWorld (mtu w) x (filter w)).

Definition newNamedSetSet (key : string) : SetInfo := mkSetInfo key "" TableTypeFilter.

(** A call of a method of one of the sets. *)
Definition on_set (field : mtuHandler -> option SetInfo) (what : string) (f : SetInfo -> eff S pf_error unit) :
    M unit :=
  w ← getw;
  match field (mtu w) with
  | None => fail (RaPanic "nil set")
  | Some s => on_filter what (f s)
  end.

Definition mss_hook (h : mtuHandler) : ChainIPHook :=
  mkIPHook SmPostRoutingMss (chainType h) ChainHookPostrouting ChainPriorityFirst ChainPolicyAccept None.

Definition Init : M unit :=
  w ← getw;
  _ ← on_filter "error initializing iptables" (NewFilter (ipFamily (mtu w)));
  _ ← update (set_types GetMSSClampTypes.1 GetMSSClampTypes.2);
  w ← getw;
  let h := mtu w in
  _ ← on_filter "error creating IPHookChain chain" (CreateIPHookChainIfNotExists (mss_hook h));
  _ ← update (set_remote (newNamedSetSet (remoteCIDRIPSet h)));
  _ ← on_set remoteIPSet "error creating ipset" (fun s => set_Create s true);
  _ ← update (set_local (newNamedSetSet (localCIDRIPSet h)));
  _ ← on_set localIPSet "error creating ipset" (fun s => set_Create s true);
  if forceMss h =?? needed then mret tt
  else
    _ ← on_filter "error appending packetfilter rule" (AppendUnique (tableType h) SmPostRoutingMss
          (mss_rule (localCIDRIPSet h) (remoteCIDRIPSet h) ToPMTU ""));
    on_filter "error appending packetfilter rule" (AppendUnique (tableType h) SmPostRoutingMss
      (mss_rule (remoteCIDRIPSet h) (localCIDRIPSet h) ToPMTU "")).

(** The value to clamp to: the one the user asked for, or what is left of the
    MTU of the default interface. *)
Definition mss_value (backend : string) : M Z :=
  w ← getw;
  if tcpMssValue (mtu w) =? 0 then
    defaultHostIface ← on_host "Unable to find the default interface on host"
                         (Netlink.GetDefaultGatewayInterface (ipFamily (mtu w)));
    mret (iface_MTU defaultHostIface -
          (if backend =?? VxlanDriver.CableDriverName then VxlanLink.MTUOverhead else MaxIPSecOverhead))
  else mret (tcpMssValue (mtu w)).

Definition mss_rules (h : mtuHandler) (value : Z) : list Rule :=
  [mss_rule (localCIDRIPSet h) (remoteCIDRIPSet h) ToValue (Itoa value);
   mss_rule (remoteCIDRIPSet h) (localCIDRIPSet h) ToValue (Itoa value)].

Definition forceMssClamping (endpoint : EndpointSpec) : M unit :=
  value ← mss_value (Backend endpoint);
  w ← getw;
  on_filter "error updating chain"
    (UpdateChainRules range_rules (tableType (mtu w)) SmPostRoutingMss (mss_rules (mtu w) value)).

Definition add_entries (field : mtuHandler -> option SetInfo) (subnets : list string) : M unit :=
  for_each (fun subnet => on_set field "error adding IP set entry" (fun s => set_AddEntry s subnet true)) subnets.

Definition del_entries (field : mtuHandler -> option SetInfo) (subnets : list string) : M unit :=
  for_each (fun subnet => logged (on_set field "" (fun s => set_DelEntry s subnet))) subnets.

Definition LocalEndpointCreated (endpoint : EndpointSpec) : M unit :=
  w ← getw;
  _ ← add_entries localIPSet (subnets_of (ipFamily (mtu w)) endpoint);
  _ ← add_entries localIPSet (localClusterCidr (mtu w));
  if forceMss (mtu w) =?? needed then
    _ ← forceMssClamping endpoint;
    update (set_force configured)
  else mret tt.

Definition LocalEndpointRemoved (endpoint : EndpointSpec) : M unit :=
  w ← getw;
  _ ← del_entries localIPSet (subnets_of (ipFamily (mtu w)) endpoint);
  del_entries localIPSet (localClusterCidr (mtu w)).

Definition RemoteEndpointCreated (endpoint : EndpointSpec) : M unit :=
  w ← getw; add_entries remoteIPSet (subnets_of (ipFamily (mtu w)) endpoint).

Definition RemoteEndpointRemoved (endpoint : EndpointSpec) : M unit :=
  w ← getw; del_entries remoteIPSet (subnets_of (ipFamily (mtu w)) endpoint).

Definition Uninstall : M unit :=
  w ← getw;
  let h := mtu w in
  _ ← logged (on_filter "" (ClearChain (tableType h) SmPostRoutingMss));
  _ ← logged (on_filter "" (DeleteIPHookChain (mss_hook h)));
  _ ← logged (on_set localIPSet "" set_Flush);
  _ ← logged (on_set localIPSet "" set_Destroy);
  _ ← logged (on_set remoteIPSet "" set_Flush);
  logged (on_set remoteIPSet "" set_Destroy).
End handler.
Arguments world W S : clear implicits.
Arguments mkWorld {W S} _ _ _.
Arguments mtu {W S} _.
Arguments host {W S} _.
Arguments filter {W S} _.
(** * Lemmas *)
Section lemmas.
Context {W S : Type} `{!NetlinkBasic W} `{!PFDriver S} `{!FilterView S} `{!PFDriverLaws S} `{K8sNet}.
Context (range_rules : gset Rule -> list Rule).
Implicit Types (w : world W S).

(** Only the entries of the set [n] change, by [f]. *)
Definition entries_changed (n : string) (f : gset string -> gset string) w w' : Prop :=
  mtu w' = mtu w /\ host w' = host w /\ pf_wf (filter w') /\
  (forall t c, rules (filter w') t c = rules (filter w) t c) /\
  zget ∅ (named_sets (filter w')) n = f (zget ∅ (named_sets (filter w)) n) /\
  forall m, m <> n -> zget ∅ (named_sets (filter w')) m = zget ∅ (named_sets (filter w)) m.

Lemma entries_changed_trans n f g w w1 w2 : entries_changed n f w w1 -> entries_changed n g w1 w2 ->
  entries_changed n (fun x => g (f x)) w w2.
Proof.
  intros (H1 & H2 & H3 & H4 & H5 & H6) (G1 & G2 & G3 & G4 & G5 & G6). split_and!; [congruence..|done| | |].
  - intros t c. by rewrite G4.
  - by rewrite G5, H5.
  - intros m Hm. by rewrite G6, H6.
Qed.

Lemma entries_changed_id n w : pf_wf (filter w) -> entries_changed n id w w.
Proof. done. Qed.

Lemma entries_changed_ext n f g w w' : (forall x, f x = g x) -> entries_changed n f w w' ->
  entries_changed n g w w'.
Proof. intros Hfg (H1 & H2 & H3 & H4 & H5 & H6). split_and!; try done. by rewrite <- Hfg. Qed.

(** A call on a set that the handler has. *)
Lemma on_set_spec field what op f w r w' info : field (mtu w) = Some info -> pf_wf (filter w) ->
  call_spec (op info) (sets_changed (fun m => <[set_Name info := f (zget ∅ m (set_Name info))]> m)) ->
  on_set field what op w = (r, w') ->
  (r = Ok tt /\ entries_changed (set_Name info) f w w') \/
  (is_ok r = false /\ is_ok (op info (filter w)).1 = false /\ entries_changed (set_Name info) id w w').
Proof.
  intros Hf Hwf Hop. unfold on_set, mbind, eff_bind, getw. cbn beta iota. rewrite Hf. unfold on_filter.
  destruct (op info (filter w)) as [res x] eqn:E. intros [= <- <-].
  destruct (Hop _ _ _ Hwf E) as [Hwf' Hpost]. destruct res as [[]|e]; cbn [map_err is_ok fst].
  - left. destruct Hpost as [Hr Hs]. split; [done|]. split_and!; cbn; try done.
    + by rewrite Hs, zget_insert_eq.
    + intros m Hm. rewrite Hs. by rewrite zget_insert_ne.
  - right. destruct Hpost as [Hr Hs]. split; [done|]. split; [done|]. split_and!; cbn; try done.
    + by rewrite Hs.
    + intros m Hm. by rewrite Hs.
Qed.

Lemma add_entries_ok field info l : forall w w', field (mtu w) = Some info -> pf_wf (filter w) ->
  add_entries field l w = (Ok tt, w') ->
  entries_changed (set_Name info) (fun x => list_to_set l ∪ x) w w'.
Proof.
  induction l as [|a l IH]; intros w w' Hf Hwf Hrun.
  { injection Hrun as <-. apply (entries_changed_ext _ id); [set_solver|done]. }
  apply eff_bind_inv in Hrun as [([] & w1 & Ha & Hrun)|(e & _ & He)]; [|done].
  apply (on_set_spec _ _ _ (fun x => {[a]} ∪ x) _ _ _ info Hf Hwf) in Ha as [[_ Hc]|[Hno _]];
    [|done|apply set_add_spec].
  destruct Hc as (Hm & Hrest). assert (Hc : entries_changed (set_Name info) (fun x => {[a]} ∪ x) w w1) by done.
  eapply entries_changed_ext; [|eapply entries_changed_trans; [exact Hc|apply IH; [by rewrite Hm|apply Hrest|done]]].
  intros x. cbn. set_solver.
Qed.

Definition deletions_succeed : Prop := forall i e (s : S), is_ok (set_DelEntry i e s).1 = true.

(** Removing entries: those whose removal fails stay. *)
Lemma del_entries_some field info l : forall w w', field (mtu w) = Some info -> pf_wf (filter w) ->
  del_entries field l w = (Ok tt, w') -> exists gone, gone ⊆ list_to_set l /\ (deletions_succeed -> gone = list_to_set l) /\
    entries_changed (set_Name info) (fun x => x ∖ gone) w w'.
Proof.
  induction l as [|a l IH]; intros w w' Hf Hwf Hrun.
  { injection Hrun as <-. exists ∅. split_and!; [done..|].
    apply (entries_changed_ext _ id); [set_solver|done]. }
  apply eff_bind_inv in Hrun as [([] & w1 & Ha & Hrun)|(? & _ & ?)]; [|done].
  unfold logged, mbind, eff_bind, attempt in Ha.
  destruct (on_set field "" (fun s => set_DelEntry s a) w) as [res w1'] eqn:Hset.
  assert (w1' = w1) as -> by (by destruct res as [|[]]; injection Ha). clear Ha. rename Hset into Ha.
  assert (Hone : exists one, one ⊆ {[a]} /\ (deletions_succeed -> one = ({[a]} : gset string)) /\
    entries_changed (set_Name info) (fun x => x ∖ one) w w1).
  { apply (on_set_spec _ _ _ (fun x => x ∖ {[a]}) _ _ _ info Hf Hwf) in Ha as [[_ Hc]|(_ & Hno & Hc)];
      [by exists {[a]}| |apply set_del_spec].
    exists ∅. split; [set_solver|]. split; [intros Hok; by rewrite Hok in Hno|].
    eapply entries_changed_ext; [|exact Hc]. set_solver. }
  destruct Hone as (one & Ho1 & Ho2 & Hc). pose proof Hc as (Hm & _ & Hwf1 & _). clear Ha.
  destruct (IH w1 w') as (gone & Hg1 & Hg2 & Hc2); [by rewrite Hm|done|done|].
  exists (one ∪ gone). split; [set_solver|]. split; [intros Hok; rewrite (Ho2 Hok), (Hg2 Hok); set_solver|].
  eapply entries_changed_ext; [|exact (entries_changed_trans _ _ _ _ _ _ Hc Hc2)]. intros x. cbn. set_solver.
Qed.

(** What the handler was called with, an endpoint each time. *)
Inductive mtu_event :=
| LocalCreated (e : EndpointSpec)
| LocalRemoved (e : EndpointSpec)
| RemoteCreated (e : EndpointSpec)
| RemoteRemoved (e : EndpointSpec).

Definition handle (ev : mtu_event) : eff (world W S) ra_error unit :=
  match ev with
  | LocalCreated e => LocalEndpointCreated range_rules e
  | LocalRemoved e => LocalEndpointRemoved e
  | RemoteCreated e => RemoteEndpointCreated e
  | RemoteRemoved e => RemoteEndpointRemoved e
  end.

(** Endpoints that come ([true]) and go ([false]), as a set is concerned. *)
Definition remote_change (ev : mtu_event) : option (bool * EndpointSpec) :=
  match ev with RemoteCreated e => Some (true, e) | RemoteRemoved e => Some (false, e) | _ => None end.

Definition local_change (ev : mtu_event) : option (bool * EndpointSpec) :=
  match ev with LocalCreated e => Some (true, e) | LocalRemoved e => Some (false, e) | _ => None end.

(** The entries of an endpoint in each set. *)
Definition remote_entries (h : mtuHandler) (e : EndpointSpec) : gset string :=
  list_to_set (subnets_of (ipFamily h) e).

Definition local_entries (h : mtuHandler) (e : EndpointSpec) : gset string :=
  list_to_set (subnets_of (ipFamily h) e ++ localClusterCidr h).

(** ** A set that follows endpoints *)
Section follows.
Context (entries : EndpointSpec -> gset string).

(** The endpoints created and not removed since. *)
Definition live_step (l : list EndpointSpec) (c : bool * EndpointSpec) : list EndpointSpec :=
  if c.1 then c.2 :: l else base.filter (fun e => e <> c.2) l.

Definition live (cs : list (bool * EndpointSpec)) : list EndpointSpec := foldl live_step [] cs.

(** When an endpoint goes, no other one that is there has an entry in common with it. *)
Fixpoint undisturbed (l : list EndpointSpec) (cs : list (bool * EndpointSpec)) : Prop :=
  match cs with
  | [] => True
  | c :: cs => (c.1 = false -> Forall (fun e => e <> c.2 -> entries e ## entries c.2) l) /\ undisturbed (live_step l c) cs
  end.

#[global] Instance undisturbed_dec cs : forall l, Decision (undisturbed l cs).
Proof. induction cs as [|c cs IH]; intros l; cbn; apply _. Defined.

Definition follows (cs : list (bool * EndpointSpec)) (x x' : gset string) : Prop :=
  (undisturbed [] cs -> forall e s, e ∈ live cs -> s ∈ entries e -> s ∈ x') /\
  (deletions_succeed -> forall s, s ∈ x' ->
     (exists e, e ∈ live cs /\ s ∈ entries e) \/ (s ∈ x /\ forall e, (false, e) ∈ cs -> s ∉ entries e)) /\
  (forall s, s ∈ x -> (forall e, (false, e) ∈ cs -> s ∉ entries e) -> s ∈ x').

(** One endpoint comes, or goes. *)
Definition changes (c : bool * EndpointSpec) (x x' : gset string) : Prop :=
  if c.1 then x' = x ∪ entries c.2
  else exists gone, gone ⊆ entries c.2 /\ (deletions_succeed -> gone = entries c.2) /\ x' = x ∖ gone.

Fixpoint evolves (x : gset string) (cs : list (bool * EndpointSpec)) (x' : gset string) : Prop :=
  match cs with
  | [] => x' = x
  | c :: cs => exists x1, changes c x x1 /\ evolves x1 cs x'
  end.

Lemma evolves_live cs : forall l x x', undisturbed l cs -> (forall e s, e ∈ l -> s ∈ entries e -> s ∈ x) ->
  evolves x cs x' -> forall e s, e ∈ foldl live_step l cs -> s ∈ entries e -> s ∈ x'.
Proof.
  induction cs as [|[[] e0] cs IH]; intros l x x' Hu Hl Hev; cbn in *; [by subst x'|..];
    destruct Hu as [Hu Hus], Hev as (x1 & Hc & Hev); eapply IH; [exact Hus| |exact Hev|exact Hus| |exact Hev]; unfold changes in Hc; cbn in Hc.
  - subst x1. intros e s [->|He]%elem_of_cons Hs; [set_solver|]. apply elem_of_union_l. by eapply Hl.
  - destruct Hc as (gone & Hg & _ & ->). intros e s [Hne He]%list_elem_of_filter Hs. cbn in Hne.
    apply elem_of_difference. split; [by eapply Hl|]. pose proof (proj1 (Forall_forall _ _) (Hu eq_refl) e He Hne). set_solver.
Qed.

Lemma live_stays cs : forall l e s, e ∈ l -> s ∈ entries e -> (forall e', (false, e') ∈ cs -> s ∉ entries e') ->
  e ∈ foldl live_step l cs.
Proof.
  induction cs as [|[[] e0] cs IH]; intros l e s He Hs Hno; cbn; [done|..]; eapply IH; try exact Hs.
  - by right.
  - intros e' He'. apply Hno. by right.
  - apply list_elem_of_filter. split; [|done]. cbn. intros ->. apply (Hno e0); [by left|done].
  - intros e' He'. apply Hno. by right.
Qed.

Lemma evolves_only cs : deletions_succeed -> forall l x x', evolves x cs x' -> forall s, s ∈ x' ->
  (exists e, e ∈ foldl live_step l cs /\ s ∈ entries e) \/ (s ∈ x /\ forall e, (false, e) ∈ cs -> s ∉ entries e).
Proof.
  intros Hok. induction cs as [|[[] e0] cs IH]; intros l x x' Hev s Hs; cbn in *.
  { subst x'. right. split; [done|]. by intros e ?%elem_of_nil. }
  all: destruct Hev as (x1 & Hc & Hev); unfold changes in Hc; cbn in Hc.
  - destruct (IH (e0 :: l) _ _ Hev s Hs) as [Hl|[Hx Hno]]; [by left|]. subst x1.
    apply elem_of_union in Hx as [Hx|Hx].
    + right. split; [done|]. intros e [[=]|He]%elem_of_cons. by apply Hno.
    + left. exists e0. split; [|done]. by eapply live_stays; [left| |].
  - destruct Hc as (gone & _ & Hg & ->). rewrite (Hg Hok) in Hev.
    destruct (IH (base.filter (fun e => e <> e0) l) _ _ Hev s Hs) as [Hl|[Hx Hno]]; [by left|].
    apply elem_of_difference in Hx as [Hx Hn]. right. split; [done|].
    intros e [[= ->]|He]%elem_of_cons; [done|by apply Hno].
Qed.

Lemma evolves_kept cs : forall x x', evolves x cs x' ->
  forall s, s ∈ x -> (forall e, (false, e) ∈ cs -> s ∉ entries e) -> s ∈ x'.
Proof.
  induction cs as [|[[] e0] cs IH]; intros x x' Hev s Hs Hno; cbn in *; [by subst x'|..];
    destruct Hev as (x1 & Hc & Hev); unfold changes in Hc; cbn in Hc; (eapply IH; [exact Hev| |intros e He; apply Hno; by right]).
  - subst x1. set_solver.
  - destruct Hc as (gone & Hg & _ & ->). apply elem_of_difference. split; [done|]. intros Hin. apply (Hno e0); [by left|set_solver].
Qed.

Lemma evolves_follows cs x x' : evolves x cs x' -> follows cs x x'.
Proof.
  intros Hev. split; [|split].
  - intros Hu. eapply evolves_live; [exact Hu| |exact Hev]. by intros e s ?%elem_of_nil.
  - intros Hok s Hs. by apply (evolves_only cs Hok [] x x').
  - by apply evolves_kept.
Qed.
End follows.

(** The handler after a successful [Init]. *)
Record ready (h : mtuHandler) : Prop := {
  ready_remote : remoteIPSet h = Some (newNamedSetSet (remoteCIDRIPSet h));
  ready_local : localIPSet h = Some (newNamedSetSet (localCIDRIPSet h));
  ready_names : localCIDRIPSet h <> remoteCIDRIPSet h;
  ready_rules : forall v, Forall valid_rule (mss_rules h v);
}.

(** The same handler, up to the record of what it programmed. *)
Definition same_handler (h h' : mtuHandler) : Prop := exists f, h' = set_force f h.

Lemma same_handler_refl h : same_handler h h.
Proof. exists (forceMss h). by destruct h. Qed.

Lemma same_handler_ready h h' : same_handler h h' -> ready h -> ready h'.
Proof. intros [f ->] [H1 H2 H3 H4]. by split. Qed.

(** The two sets change by [fr] and [fl], no other set does. *)
Definition sets_step (h : mtuHandler) (fr fl : gset string -> gset string) w w' : Prop :=
  same_handler h (mtu w') /\ pf_wf (filter w') /\
  zget ∅ (named_sets (filter w')) (remoteCIDRIPSet h) = fr (zget ∅ (named_sets (filter w)) (remoteCIDRIPSet h)) /\
  zget ∅ (named_sets (filter w')) (localCIDRIPSet h) = fl (zget ∅ (named_sets (filter w)) (localCIDRIPSet h)) /\
  forall m, m <> remoteCIDRIPSet h -> m <> localCIDRIPSet h ->
    zget ∅ (named_sets (filter w')) m = zget ∅ (named_sets (filter w)) m.

Lemma remote_step f w w' : ready (mtu w) -> entries_changed (remoteCIDRIPSet (mtu w)) f w w' ->
  sets_step (mtu w) f id w w'.
Proof.
  intros Hr (Hm & _ & Hwf & _ & Hn & Ho). split_and!; [rewrite Hm; apply same_handler_refl|done|done| |].
  - apply Ho, Hr.
  - intros m H1 _. by apply Ho.
Qed.

Lemma local_step f w w' : ready (mtu w) -> entries_changed (localCIDRIPSet (mtu w)) f w w' ->
  sets_step (mtu w) id f w w'.
Proof.
  intros Hr (Hm & _ & Hwf & _ & Hn & Ho). split_and!; [rewrite Hm; apply same_handler_refl|done| |done|].
  - apply Ho, not_eq_sym, Hr.
  - intros m _ H2. by apply Ho.
Qed.

(** The value the rules clamp to. *)
Definition clamp_value (h : mtuHandler) (backend : string) (x : W) (value : Z) : Prop :=
  (tcpMssValue h <> 0 /\ value = tcpMssValue h) \/
  (tcpMssValue h = 0 /\ exists iface, (Netlink.GetDefaultGatewayInterface (ipFamily h) x).1 = Ok iface /\
     value = iface_MTU iface -
       (if backend =?? VxlanDriver.CableDriverName then VxlanLink.MTUOverhead else MaxIPSecOverhead)).

Lemma forceMssClamping_ok e w w' : forceMssClamping range_rules e w = (Ok tt, w') -> exists value,
  clamp_value (mtu w) (Backend e) (host w) value /\ mtu w' = mtu w /\
  UpdateChainRules range_rules (tableType (mtu w)) SmPostRoutingMss (mss_rules (mtu w) value) (filter w) =
    (Ok tt, filter w').
Proof.
  unfold forceMssClamping. intros Hrun.
  apply eff_bind_inv in Hrun as [(value & w1 & Hv & Hrun)|(? & _ & ?)]; [|done]. exists value.
  assert (clamp_value (mtu w) (Backend e) (host w) value /\ mtu w1 = mtu w /\ filter w1 = filter w)
    as (Hc & Hm & Hf).
  { unfold mss_value, mbind, eff_bind, getw in Hv. cbn beta iota in Hv.
    destruct (Z.eqb_spec (tcpMssValue (mtu w)) 0) as [H0|H0].
    - unfold on_host in Hv. destruct (Netlink.GetDefaultGatewayInterface _ (host w)) as [[i|err] x] eqn:Hg; [|done].
      injection Hv as <- <-. split; [|done]. right. split; [done|]. exists i. by rewrite Hg.
    - injection Hv as <- <-. split; [|done]. by left. }
  split; [done|]. unfold mbind, eff_bind, getw, on_filter in Hrun. cbn beta iota in Hrun. rewrite Hm, Hf in Hrun.
  destruct (UpdateChainRules _ _ _ _ (filter w)) as [[[]|?] x]; [|done]. by injection Hrun as <-.
Qed.

Lemma local_created_ok e w w' : (forall m, Permutation (range_rules m) (elements m)) ->
  ready (mtu w) -> pf_wf (filter w) ->
  LocalEndpointCreated range_rules e w = (Ok tt, w') ->
  sets_step (mtu w) id (fun x => x ∪ list_to_set (subnets_of (ipFamily (mtu w)) e ++ localClusterCidr (mtu w))) w w' /\
  (forceMss (mtu w) = needed -> exists x value,
     clamp_value (mtu w) (Backend e) (host w) value /\ pf_wf x /\ mtu w' = set_force configured (mtu w) /\
     (forall t c, rules x t c = rules (filter w) t c) /\
     UpdateChainRules range_rules (tableType (mtu w)) SmPostRoutingMss (mss_rules (mtu w) value) x =
       (Ok tt, filter w')).
Proof.
  intros Hrange Hr Hwf Hrun. unfold LocalEndpointCreated in Hrun.
  apply eff_bind_inv in Hrun as [(w0 & w0' & [= <- <-] & Hrun)|(? & _ & ?)]; [|done].
  apply eff_bind_inv in Hrun as [([] & w1 & H1 & Hrun)|(? & _ & ?)]; [|done].
  apply eff_bind_inv in Hrun as [([] & w2 & H2 & Hrun)|(? & _ & ?)]; [|done].
  apply (add_entries_ok _ _ _ _ _ (ready_local _ Hr) Hwf) in H1.
  pose proof H1 as (Hm1 & Hh1 & Hwf1 & _).
  apply (add_entries_ok localIPSet (newNamedSetSet (localCIDRIPSet (mtu w)))) in H2; [|by rewrite Hm1; apply Hr|done].
  pose proof (entries_changed_trans _ _ _ _ _ _ H1 H2) as Hc. cbn in Hc.
  assert (Hs : entries_changed (localCIDRIPSet (mtu w))
    (fun x => x ∪ list_to_set (subnets_of (ipFamily (mtu w)) e ++ localClusterCidr (mtu w))) w w2).
  { eapply entries_changed_ext; [|exact Hc]. intros x. cbn. rewrite list_to_set_app_L. set_solver. }
  apply local_step in Hs; [|done]. destruct Hc as (Hm2 & Hh2 & Hwf2 & Hrules & _).
  case_bool_decide as Hf; [|by injection Hrun as <-].
  apply eff_bind_inv in Hrun as [([] & w3 & H3 & Hrun)|(? & _ & ?)]; [|done]. injection Hrun as <-.
  apply forceMssClamping_ok in H3 as (value & Hv & Hm3 & Hu). rewrite Hm2 in Hu, Hv, Hm3. rewrite Hh2 in Hv.
  destruct (UpdateChainRules_effect _ _ _ _ _ _ Hrange Hwf2 (ready_rules _ Hr value) Hu)
    as (Hwf3 & added & gone & _ & _ & _ & _ & _ & _ & _ & Hsets).
  split.
  - destruct Hs as (_ & _ & S1 & S2 & S3). split_and!; cbn; [|done|by rewrite Hsets..|].
    + exists configured. by rewrite Hm3.
    + intros m N1 N2. rewrite Hsets. by apply S3.
  - intros _. exists (filter w2), value. split_and!; try done. cbn. by rewrite Hm3.
Qed.

(** What an event does to a set. *)
Definition set_change (entries : EndpointSpec -> gset string) (c : option (bool * EndpointSpec)) (x x' : gset string) : Prop :=
  match c with Some c => changes entries c x x' | None => x' = x end.

Lemma handle_ok ev w w' : (forall m, Permutation (range_rules m) (elements m)) ->
  ready (mtu w) -> pf_wf (filter w) -> handle ev w = (Ok tt, w') ->
  exists fr fl, sets_step (mtu w) fr fl w w' /\
    (forall x, set_change (remote_entries (mtu w)) (remote_change ev) x (fr x)) /\
    (forall x, set_change (local_entries (mtu w)) (local_change ev) x (fl x)).
Proof.
  intros Hrange Hr Hwf Hrun. destruct ev as [e|e|e|e]; cbn [handle remote_change local_change set_change] in *.
  - apply local_created_ok in Hrun as [Hs _]; [|done..]. by eexists _, _.
  - unfold LocalEndpointRemoved in Hrun.
    apply eff_bind_inv in Hrun as [(w0 & w0' & [= <- <-] & Hrun)|(? & _ & ?)]; [|done].
    apply eff_bind_inv in Hrun as [([] & w1 & H1 & H2)|(? & _ & ?)]; [|done].
    apply (del_entries_some _ _ _ _ _ (ready_local _ Hr) Hwf) in H1 as (g1 & Hg1 & Ho1 & H1).
    pose proof H1 as (Hm1 & _ & Hwf1 & _).
    apply (del_entries_some localIPSet (newNamedSetSet (localCIDRIPSet (mtu w)))) in H2 as (g2 & Hg2 & Ho2 & H2);
      [|by rewrite Hm1; apply Hr|done].
    exists id, (fun x => x ∖ (g1 ∪ g2)). split; [|split; [done|]].
    + apply local_step; [done|]. eapply entries_changed_ext; [|exact (entries_changed_trans _ _ _ _ _ _ H1 H2)].
      intros x. cbn. set_solver.
    + intros x. exists (g1 ∪ g2). unfold local_entries. cbn [snd]. rewrite list_to_set_app_L.
      split; [set_solver|]. split; [|done]. intros Hok. by rewrite (Ho1 Hok), (Ho2 Hok).
  - unfold RemoteEndpointCreated in Hrun. cbn in Hrun.
    apply (add_entries_ok _ _ _ _ _ (ready_remote _ Hr) Hwf) in Hrun.
    exists (fun x => x ∪ remote_entries (mtu w) e), id. split; [|done]. apply remote_step; [done|].
    eapply entries_changed_ext; [|exact Hrun]. intros x. cbn. unfold remote_entries. set_solver.
  - unfold RemoteEndpointRemoved in Hrun. cbn in Hrun.
    apply (del_entries_some _ _ _ _ _ (ready_remote _ Hr) Hwf) in Hrun as (g & Hg & Ho & Hrun).
    exists (fun x => x ∖ g), id. split; [by apply remote_step|]. split; [|done]. intros x. by exists g.
Qed.

Lemma mss_rules_nodup h v : ready h -> NoDup (mss_rules h v).
Proof.
  intros Hr. unfold mss_rules. apply NoDup_cons. split; [|apply NoDup_singleton].
  rewrite list_elem_of_singleton. intros [= Heq _]. by apply (ready_names _ Hr).
Qed.

(** Calls of the filter do not change the handler. *)
Lemma on_filter_mtu {A} what (m : eff S pf_error A) w r w' :
  on_filter what m w = (r, w') -> mtu w' = mtu w.
Proof. unfold on_filter. destruct (m (filter w)). by intros [= _ <-]. Qed.

Lemma on_set_mtu field what op w r w' : on_set field what op w = (r, w') -> mtu w' = mtu w.
Proof.
  unfold on_set, mbind, eff_bind, getw. cbn beta iota. destruct (field (mtu w)); [apply on_filter_mtu|].
  by intros [= _ <-].
Qed.

(** A successful [Init] of a new handler makes it ready. *)
Lemma Init_ready NewFilter family cidrs globalnet mss w w' :
  (forall h v, Forall valid_rule (mss_rules h v)) ->
  mtu w = NewHandler family cidrs globalnet mss -> Init NewFilter w = (Ok tt, w') -> ready (mtu w').
Proof.
  intros Hv Hm Hrun. unfold Init in Hrun.
  apply eff_bind_inv in Hrun as [(w0 & w0' & [= <- <-] & Hrun)|(? & _ & ?)]; [|done].
  apply eff_bind_inv in Hrun as [([] & w1 & H1%on_filter_mtu & Hrun)|(? & _ & ?)]; [|done].
  apply eff_bind_inv in Hrun as [([] & w2 & [= <-] & Hrun)|(? & _ & ?)]; [|done].
  apply eff_bind_inv in Hrun as [(w0 & w0' & [= <- <-] & Hrun)|(? & _ & ?)]; [|done].
  cbn [mtu] in Hrun. cbv zeta in Hrun. rewrite H1, Hm in Hrun.
  apply eff_bind_inv in Hrun as [([] & w3 & H3%on_filter_mtu & Hrun)|(? & _ & ?)]; [|done].
  apply eff_bind_inv in Hrun as [([] & w4 & [= <-] & Hrun)|(? & _ & ?)]; [|done].
  apply eff_bind_inv in Hrun as [([] & w5 & H5%on_set_mtu & Hrun)|(? & _ & ?)]; [|done].
  apply eff_bind_inv in Hrun as [([] & w6 & [= <-] & Hrun)|(? & _ & ?)]; [|done].
  apply eff_bind_inv in Hrun as [([] & w7 & H7%on_set_mtu & Hrun)|(? & _ & ?)]; [|done].
  assert (Hend : mtu w' = mtu w7).
  { case_bool_decide; [by injection Hrun as <-|].
    apply eff_bind_inv in Hrun as [([] & w8 & H8%on_filter_mtu & H9%on_filter_mtu)|(? & _ & ?)]; [|done]. congruence. }
  rewrite Hend, H7. cbn [mtu]. rewrite H5. cbn [mtu]. rewrite H3. cbn [mtu]. rewrite ?H1, ?Hm.
  unfold NewHandler. destruct family; split; cbn; done.
Qed.

(** * Properties *)

(** Over a sequence of events each set evolves by the changes that concern it. *)
Lemma handle_run evs : forall w w', (forall m, Permutation (range_rules m) (elements m)) ->
  ready (mtu w) -> pf_wf (filter w) -> for_each handle evs w = (Ok tt, w') ->
  let h := mtu w in
  evolves (remote_entries h) (zget ∅ (named_sets (filter w)) (remoteCIDRIPSet h)) (omap remote_change evs)
    (zget ∅ (named_sets (filter w')) (remoteCIDRIPSet h)) /\
  evolves (local_entries h) (zget ∅ (named_sets (filter w)) (localCIDRIPSet h)) (omap local_change evs)
    (zget ∅ (named_sets (filter w')) (localCIDRIPSet h)) /\
  forall m, m <> remoteCIDRIPSet h -> m <> localCIDRIPSet h ->
    zget ∅ (named_sets (filter w')) m = zget ∅ (named_sets (filter w)) m.
Proof.
  cbv zeta. induction evs as [|ev evs IH]; intros w w' Hrange Hr Hwf Hrun; [by injection Hrun as <-|].
  apply eff_bind_inv in Hrun as [([] & w1 & H1 & Hrun)|(? & _ & ?)]; [|done].
  apply handle_ok in H1 as (fr & fl & (Hsame & Hwf1 & S1 & S2 & S3) & Hfr & Hfl); [|done..].
  specialize (IH w1 w' Hrange (same_handler_ready _ _ Hsame Hr) Hwf1 Hrun).
  destruct Hsame as [f Hh]. rewrite Hh in IH.
  change (remote_entries (set_force f (mtu w))) with (remote_entries (mtu w)) in IH.
  change (local_entries (set_force f (mtu w))) with (local_entries (mtu w)) in IH.
  cbn [remoteCIDRIPSet localCIDRIPSet set_force] in IH. rewrite S1, S2 in IH. destruct IH as (I1 & I2 & I3).
  specialize (Hfr (zget ∅ (named_sets (filter w)) (remoteCIDRIPSet (mtu w)))).
  specialize (Hfl (zget ∅ (named_sets (filter w)) (localCIDRIPSet (mtu w)))). cbn [omap list_omap].
  split_and!.
  - destruct (remote_change ev); cbn in Hfr |- *; [by eexists|by rewrite Hfr in I1].
  - destruct (local_change ev); cbn in Hfl |- *; [by eexists|by rewrite Hfl in I2].
  - intros m N1 N2. rewrite I3, S3; done.
Qed.

(** C26: The two named sets follow the endpoints.  Over any sequence of successful
    calls of an initialised handler, the remote set holds all subnets, of the handler's
    family, of the remote endpoints that were created and not removed since, as
    long as no endpoint goes that shares a subnet with another one that stays; it holds
    nothing else but entries it had before that no removed endpoint announced, as long as
    no removal of an entry fails, which the code ignores.  The local set does so with
    the subnets of local endpoints and the CIDRs of the cluster; and no other set is
    touched. *)
Theorem mtu_sets_follow_endpoints evs w w' : (forall m, Permutation (range_rules m) (elements m)) ->
  ready (mtu w) -> pf_wf (filter w) -> for_each handle evs w = (Ok tt, w') ->
  let h := mtu w in
  follows (remote_entries h) (omap remote_change evs)
    (zget ∅ (named_sets (filter w)) (remoteCIDRIPSet h)) (zget ∅ (named_sets (filter w')) (remoteCIDRIPSet h)) /\
  follows (local_entries h) (omap local_change evs)
    (zget ∅ (named_sets (filter w)) (localCIDRIPSet h)) (zget ∅ (named_sets (filter w')) (localCIDRIPSet h)) /\
  forall m, m <> remoteCIDRIPSet h -> m <> localCIDRIPSet h ->
    zget ∅ (named_sets (filter w')) m = zget ∅ (named_sets (filter w)) m.
Proof.
  intros Hrange Hr Hwf Hrun. destruct (handle_run evs w w' Hrange Hr Hwf Hrun) as (H1 & H2 & H3).
  split_and!; [by apply evolves_follows..|exact H3].
Qed.

(** Clamping to a value happens when it was asked for and not done yet: a
    successful creation of the local endpoint leaves in the chain the two rules
    with the value the user gave, or else the MTU of the default interface less
    the overhead of the cable driver; when the chain had no duplicates and no
    deletion fails, the chain holds these two rules and nothing else. *)
Lemma mss_clamped_to_value e w w' : (forall m, Permutation (range_rules m) (elements m)) ->
  ready (mtu w) -> pf_wf (filter w) -> forceMss (mtu w) = needed ->
  LocalEndpointCreated range_rules e w = (Ok tt, w') ->
  forceMss (mtu w') = configured /\ exists value, clamp_value (mtu w) (Backend e) (host w) value /\
  let chain x := rules (filter x) (tableType (mtu w)) SmPostRoutingMss in
  (forall r, r ∈ mss_rules (mtu w) value -> r ∈ chain w') /\
  (NoDup (chain w) -> (forall t c r s, is_ok (Delete t c r s).1 = true) ->
   forall r, r ∈ chain w' -> r ∈ mss_rules (mtu w) value).
Proof.
  intros Hrange Hr Hwf Hneed Hrun.
  destruct (local_created_ok e w w' Hrange Hr Hwf Hrun) as [_ Hforce].
  destruct (Hforce Hneed) as (x & value & Hv & Hwfx & Hm & Hrules & Hu).
  split; [by rewrite Hm|]. exists value. split; [done|]. cbv zeta.
  destruct (UpdateChainRules_effect _ _ _ _ _ _ Hrange Hwfx (ready_rules _ Hr value) Hu)
    as (_ & added & gone & Hin & Hout & Hadded & Hgone & Hall & Hc & _). rewrite Hrules in *.
  split.
  - intros r Hw. rewrite Hc, remove_all_keeps by (intros ?%Hgone; naive_solver). apply elem_of_app.
    destruct (decide (r ∈ rules (filter w) (tableType (mtu w)) SmPostRoutingMss)); [by left|right; by apply Hout].
  - intros Hd Hok r. pose proof (mss_rules_nodup (mtu w) value Hr) as Hnd. specialize (Hall (Hok _ _)).
    rewrite Hc, remove_all_nodup.
    + rewrite list_elem_of_filter, elem_of_app, Hall. intros [Hng [Hold|Hadd]]; [|by apply Hin].
      destruct (decide (r ∈ mss_rules (mtu w) value)); [done|]. by destruct Hng.
    + rewrite (Hadded Hnd). apply NoDup_app. split; [done|]. split; [|by apply NoDup_filter].
      intros x' Hx' [Hn _]%list_elem_of_filter. done.
Qed.
End lemmas.

(** * Witnesses *)
#[local] Existing Instance kernel_ref.
#[local] Existing Instance k8snet_ref.
#[local] Existing Instance filter_ref.
#[local] Existing Instance filter_ref_view.
#[local] Existing Instance filter_ref_laws.

Definition ex_ep (subnets : list string) : EndpointSpec :=
  {| ClusterID := "east"; CableName := "c"; HealthCheckIP := ""; HealthCheckIPs := []; Hostname := "gw";
     Subnets := subnets; PrivateIP := ""; PrivateIPs := []; PublicIP := ""; PublicIPs := [];
     NATEnabled := false; Backend := "vxlan"; BackendConfig := ∅ |}.

Definition ex_world : world kernel filter_state :=
  mkWorld (NewHandler IPv4 ["10.1.0.0/16"; "fd00::/64"] true 0) VxlanDriver.ex_host
    (mkFilterState (fun _ _ => []) ∅).
Definition ex_init : eff (world kernel filter_state) ra_error unit := Init (fun _ => mret tt).
Definition ex_ready : world kernel filter_state := (ex_init ex_world).2.

Lemma ex_is_ready : ready (mtu ex_ready).
Proof.
  apply (Init_ready (fun _ => mret tt) IPv4 ["10.1.0.0/16"; "fd00::/64"] true 0 ex_world).
  - intros h v. apply Forall_forall. done.
  - reflexivity.
  - apply (run_pair ex_init). vm_compute. reflexivity.
Qed.

Definition ex_mtu_events : list mtu_event :=
  [LocalCreated (ex_ep ["100.1.0.0/16"]); RemoteCreated (ex_ep ["10.2.0.0/16"; "fd01::/64"]);
   RemoteCreated (ex_ep ["10.3.0.0/16"]); RemoteRemoved (ex_ep ["10.2.0.0/16"; "fd01::/64"])].

Definition ex_mtu_run : eff (world kernel filter_state) ra_error unit :=
  for_each (handle elements) ex_mtu_events.

Lemma ex_remote_undisturbed : undisturbed (remote_entries (mtu ex_ready)) [] (omap remote_change ex_mtu_events).
Proof. apply (bool_decide_unpack _). vm_compute. reflexivity. Qed.

Lemma ex_local_undisturbed : undisturbed (local_entries (mtu ex_ready)) [] (omap local_change ex_mtu_events).
Proof. apply (bool_decide_unpack _). vm_compute. reflexivity. Qed.

(** What is in the set is exactly what the endpoint that is left announces. *)
Lemma mtu_sets_follow_endpoints_witness :
  let w' := (ex_mtu_run ex_ready).2 in
  (forall s, s ∈ zget ∅ (named_sets (filter w')) RemoteCIDRIPSetIPv4 <-> s = "10.3.0.0/16") /\
  "10.1.0.0/16" ∈ zget ∅ (named_sets (filter w')) LocalCIDRIPSetIPv4.
Proof.
  intros w'. destruct (mtu_sets_follow_endpoints elements ex_mtu_events ex_ready w') as ((Hr1 & Hr2 & _) & (Hl & _) & _).
  - reflexivity.
  - exact ex_is_ready.
  - exact I.
  - apply (run_pair ex_mtu_run). vm_compute. reflexivity.
  - cbn zeta in *. split.
    + intros s. split.
      * intros Hs. destruct (Hr2 (fun _ _ _ => eq_refl) s Hs) as [(e & He & Hin)|[Hbefore _]].
        -- assert (Hlive : live (omap remote_change ex_mtu_events) = [ex_ep ["10.3.0.0/16"]]) by (vm_compute; reflexivity).
           rewrite Hlive in He. apply list_elem_of_singleton in He as ->.
           assert (Hen : remote_entries (mtu ex_ready) (ex_ep ["10.3.0.0/16"]) = {["10.3.0.0/16"]}) by (vm_compute; reflexivity).
           rewrite Hen in Hin. by apply elem_of_singleton in Hin.
        -- assert (Hempty : zget ∅ (named_sets (filter ex_ready)) (remoteCIDRIPSet (mtu ex_ready)) = ∅) by (vm_compute; reflexivity).
           rewrite Hempty in Hbefore. destruct (not_elem_of_empty _ Hbefore).
      * intros ->. apply (Hr1 ex_remote_undisturbed (ex_ep ["10.3.0.0/16"])).
        -- assert (Hlive : live (omap remote_change ex_mtu_events) = [ex_ep ["10.3.0.0/16"]]) by (vm_compute; reflexivity).
           rewrite Hlive. left.
        -- assert (Hen : remote_entries (mtu ex_ready) (ex_ep ["10.3.0.0/16"]) = {["10.3.0.0/16"]}) by (vm_compute; reflexivity).
           rewrite Hen. by apply elem_of_singleton.
    + apply (Hl ex_local_undisturbed (ex_ep ["100.1.0.0/16"])).
      * assert (Hlive : live (omap local_change ex_mtu_events) = [ex_ep ["100.1.0.0/16"]]) by (vm_compute; reflexivity).
        rewrite Hlive. left.
      * assert (Hen : local_entries (mtu ex_ready) (ex_ep ["100.1.0.0/16"]) = {[ "10.1.0.0/16"; "100.1.0.0/16" ]}) by (vm_compute; reflexivity).
        rewrite Hen. set_solver.
Defined.

(** An endpoint that goes takes the subnet away that another one still announces. *)
Lemma shared_subnet_lost :
  let evs := [RemoteCreated (ex_ep ["10.2.0.0/16"]); RemoteCreated (ex_ep ["10.2.0.0/16"; "10.3.0.0/16"]);
              RemoteRemoved (ex_ep ["10.2.0.0/16"; "10.3.0.0/16"])] in
  let w' := (for_each (handle elements) evs ex_ready).2 in
  live (omap remote_change evs) = [ex_ep ["10.2.0.0/16"]] /\
  zget ∅ (named_sets (filter w')) RemoteCIDRIPSetIPv4 = ∅.
Proof. split; vm_compute; reflexivity. Qed.

Lemma mss_clamped_to_value_witness :
  let w' := (LocalEndpointCreated elements (ex_ep ["100.1.0.0/16"]) ex_ready).2 in
  forceMss (mtu w') = configured /\
  mss_rule LocalCIDRIPSetIPv4 RemoteCIDRIPSetIPv4 ToValue "1450" ∈
    rules (filter w') TableTypeFilter SmPostRoutingMss.
Proof.
  intros w'. destruct (mss_clamped_to_value elements (ex_ep ["100.1.0.0/16"]) ex_ready w')
    as (Hc & value & Hv & Hin & _).
  - reflexivity.
  - exact ex_is_ready.
  - exact I.
  - reflexivity.
  - apply run_pair. vm_compute. reflexivity.
  - split; [exact Hc|].
    assert (Hval : value = 1450).
    { destruct Hv as [[Hne _]|(_ & i & Hi & ->)]; [by destruct Hne|]. vm_compute in Hi. by injection Hi as <-. }
    subst value. apply Hin. vm_compute. left.
Defined.
End Mtu.
