(* ===== verification/KubeProxy.v ===== *)
(** The route agent's handler for clusters whose nodes route the pod traffic
    themselves ([pkg/routeagent_driver/handlers/kubeproxy]), which keeps the
    VXLAN device, the routes and the filter rules of a node. *)
From stdpp Require Import base gmap list strings fin_maps.
From Stdlib Require String.
From Stdlib Require Import ZArith Lia Ascii.
From S2P Require Import Prelude GoNet K8s Cidr Endpoint NatDiscovery CableEngine Metrics Netlink Vxlan PacketFilter Event RouteAgent.
Import Strconv Net Endpoint.
Local Open Scope Z_scope.

(** * What the handler asks of the host, beside [NetlinkBasic] *)
Class HostNet (W : Type) := {
  FlushRouteTable : Z -> eff W nl_error unit;
  RouteGet : IP -> eff W nl_error (list Route);
  (** [net.InterfaceByName] *)
  InterfaceByName : string -> eff W nl_error NetworkInterface;
  (** [NetworkInterface.Addrs], each as its text. *)
  Addrs : NetworkInterface -> eff W nl_error (list string);
  (** [os.Hostname] *)
  Hostname_of_host : eff W nl_error string;
  (** [cni.HostInterfaces] *)
  HostInterfaces : eff W nl_error (list Cni.HostInterface);
}.

(** Looking does not change the routes. *)
Class HostNetLaws (W : Type) `{!NetlinkBasic W} `{!NetlinkLaws W} `{!HostNet W} := {
  link_by_name_routes : forall n w, routes (LinkByName n w).2 = routes w;
  route_list_routes : forall l f w, routes (RouteList l f w).2 = routes w;
}.

Module KubeProxy.
Import PacketFilter RouteAgent Chains.

(** * Constants (constants.go) *)
Definition VxLANIface : string := "vx-submariner".
Definition VxLANVTepNetworkPrefixCIDR : string := "240.0.0.0/8".
Definition VxLANVTepNetworkPrefixCIDRIPv6 : string := "fd00:100:100::/96".
Definition RouteAgentHostNetworkTableID : Z := 150.
Definition IntraClusterVxLAN : Z := 4800.
Definition RT_SCOPE_UNIVERSE : Z := 0.
Definition RT_SCOPE_LINK : Z := 253.

Inductive iface_type := VxInterfaceWorker | VxInterfaceGateway.
Inductive Operation := Add | Delete | Flush.

#[global] Instance Operation_eq_dec : EqDecision Operation.
Proof. solve_decision. Defined.

(** The fields of a Kubernetes node the handler reads: its addresses with their types. *)
Record Node := mkNode { node_Name : string; node_Addresses : list (string * string) }.
Definition NodeInternalIP : string := "InternalIP".

Record SyncHandler := mkSyncHandler {
  localEndpointIfaceName : string;
  localClusterCidr : list string;
  localServiceCidr : list string;
  ipFamily : IPFamily;
  remoteSubnets : gset string;
  remoteSubnetGw : gmap string IP;
  remoteVTEPs : gset string;
  routeCacheGWNode : gset string;
  vxlanDevice : option Vxlan;
  vxlanGwIP : option IP;
  vxlanIface : string;
  hostname : string;
  cniIface : option Cni.Interface;
  defaultHostIface : NetworkInterface;
  activeEndpointHostname : string;
  vtepPrefixCIDR : string;
}.

Section setters.
Variable h : SyncHandler.
Definition set_iface_name (v : string) : SyncHandler :=
  mkSyncHandler v (localClusterCidr h) (localServiceCidr h) (ipFamily h) (remoteSubnets h)
    (remoteSubnetGw h) (remoteVTEPs h) (routeCacheGWNode h) (vxlanDevice h) (vxlanGwIP h) (vxlanIface h)
    (hostname h) (cniIface h) (defaultHostIface h) (activeEndpointHostname h) (vtepPrefixCIDR h).
Definition set_remotes (s : gset string) (gw : gmap string IP) : SyncHandler :=
  mkSyncHandler (localEndpointIfaceName h) (localClusterCidr h) (localServiceCidr h) (ipFamily h) s
    gw (remoteVTEPs h) (routeCacheGWNode h) (vxlanDevice h) (vxlanGwIP h) (vxlanIface h)
    (hostname h) (cniIface h) (defaultHostIface h) (activeEndpointHostname h) (vtepPrefixCIDR h).
Definition set_vteps (v : gset string) : SyncHandler :=
  mkSyncHandler (localEndpointIfaceName h) (localClusterCidr h) (localServiceCidr h) (ipFamily h) (remoteSubnets h)
    (remoteSubnetGw h) v (routeCacheGWNode h) (vxlanDevice h) (vxlanGwIP h) (vxlanIface h)
    (hostname h) (cniIface h) (defaultHostIface h) (activeEndpointHostname h) (vtepPrefixCIDR h).
Definition set_cache (v : gset string) : SyncHandler :=
  mkSyncHandler (localEndpointIfaceName h) (localClusterCidr h) (localServiceCidr h) (ipFamily h) (remoteSubnets h)
    (remoteSubnetGw h) (remoteVTEPs h) v (vxlanDevice h) (vxlanGwIP h) (vxlanIface h)
    (hostname h) (cniIface h) (defaultHostIface h) (activeEndpointHostname h) (vtepPrefixCIDR h).
Definition set_device (v : option Vxlan) : SyncHandler :=
  mkSyncHandler (localEndpointIfaceName h) (localClusterCidr h) (localServiceCidr h) (ipFamily h) (remoteSubnets h)
    (remoteSubnetGw h) (remoteVTEPs h) (routeCacheGWNode h) v (vxlanGwIP h) (vxlanIface h)
    (hostname h) (cniIface h) (defaultHostIface h) (activeEndpointHostname h) (vtepPrefixCIDR h).
Definition set_gw_ip (v : option IP) : SyncHandler :=
  mkSyncHandler (localEndpointIfaceName h) (localClusterCidr h) (localServiceCidr h) (ipFamily h) (remoteSubnets h)
    (remoteSubnetGw h) (remoteVTEPs h) (routeCacheGWNode h) (vxlanDevice h) v (vxlanIface h)
    (hostname h) (cniIface h) (defaultHostIface h) (activeEndpointHostname h) (vtepPrefixCIDR h).
Definition set_active (v : string) : SyncHandler :=
  mkSyncHandler (localEndpointIfaceName h) (localClusterCidr h) (localServiceCidr h) (ipFamily h) (remoteSubnets h)
    (remoteSubnetGw h) (remoteVTEPs h) (routeCacheGWNode h) (vxlanDevice h) (vxlanGwIP h) (vxlanIface h)
    (hostname h) (cniIface h) (defaultHostIface h) v (vtepPrefixCIDR h).
Definition set_host (name : string) (i : NetworkInterface) : SyncHandler :=
  mkSyncHandler (localEndpointIfaceName h) (localClusterCidr h) (localServiceCidr h) (ipFamily h) (remoteSubnets h)
    (remoteSubnetGw h) (remoteVTEPs h) (routeCacheGWNode h) (vxlanDevice h) (vxlanGwIP h) (vxlanIface h)
    name (cniIface h) i (activeEndpointHostname h) (vtepPrefixCIDR h).
Definition set_cni (v : option Cni.Interface) : SyncHandler :=
  mkSyncHandler (localEndpointIfaceName h) (localClusterCidr h) (localServiceCidr h) (ipFamily h) (remoteSubnets h)
    (remoteSubnetGw h) (remoteVTEPs h) (routeCacheGWNode h) (vxlanDevice h) (vxlanGwIP h) (vxlanIface h)
    (hostname h) v (defaultHostIface h) (activeEndpointHostname h) (vtepPrefixCIDR h).
End setters.

Definition GetVxLANInterfaceName (family : IPFamily) : string :=
  if family =?? IPv6 then VxLANIface +:+ "-" +:+ family_str family else VxLANIface.

(** A rule's fields this handler sets. *)
Definition cidr_rule (src dst : string) (a : RuleAction) : Rule :=
  mkRule dst src "" "" "" "" "" "" "" "" "" "" a RuleProtoUndefined UndefinedMSS.
Definition snat_set_rule (srcCIDR srcSet dstSet : string) : Rule :=
  mkRule "" srcCIDR srcSet dstSet "" "" "" "" "" "" "" "" RuleActionSelfSNAT RuleProtoUndefined UndefinedMSS.

(** The text of the address of a CIDR, before the slash. *)
Definition cidr_address (s : string) : IP :=
  match cut_slash (String.list_ascii_of_string s) with
  | Some (addr, _) => match parse_addr addr with Some a => To16 a | None => [] end
  | None => []
  end.

Section handler.
Context {W S : Type} `{!NetlinkBasic W} `{!HostNet W} `{!PFDriver S} `{K8sNet}.
(** The order in which a set is listed. *)
Context (UnsortedList : gset string -> list string).
(** [packetfilter.New], whose interface works on the same filter. *)
Context (NewFilter : IPFamily -> eff S pf_error unit).

Record world := mkWorld { kp : SyncHandler; net : W; filter : S }.
Abbreviation M := (eff world ra_error).

Definition update (f : SyncHandler -> SyncHandler) : M unit :=
  modifyw (fun w => mkWorld (f (kp w)) (net w) (filter w)).

Definition on_net {A} (what : string) (m : eff W nl_error A) : M A := fun w =>
  let '(r, x) := m (net w) in (map_err (fun _ => RaError what) r, mkWorld (kp w) x (filter w)).

Definition on_vx {A} (what : string) (m : eff W VxlanLink.vx_error A) : M A := fun w =>
  let '(r, x) := m (net w) in (map_err (vx_ra_error what) r, mkWorld (kp w) x (filter w)).

Definition on_filter {A} (what : string) (m : eff S pf_error A) : M A := fun w =>
  let '(r, x) := m (filter w) in (map_err (pf_ra_error what) r, mkWorld (kp w) (net w) x).

(** * The VXLAN device (vxlan.go) *)
Definition newVxlanInterface (attrs : VxlanLink.Attributes) : M Vxlan :=
  vxlanInterface ← on_vx "error creating VxLAN interface" (VxlanLink.NewInterface attrs);
  _ ← on_vx "failed to bring up VxLAN interface" (VxlanLink.SetupLink vxlanInterface);
  mret vxlanInterface.

(** The field is assigned whatever the outcome. *)
Definition assign_device (attrs : VxlanLink.Attributes) : M Vxlan :=
  r ← attempt (newVxlanInterface attrs);
  match r with
  | Ok v => _ ← update (fun h => set_device h (Some v)); mret v
  | Err e => _ ← update (fun h => set_device h None); fail e
  end.

Fixpoint first_of_family (family : IPFamily) (addrs : list string) : result ra_error IP :=
  match addrs with
  | [] => Err (RaError "no default host interface IP found")
  | a :: addrs =>
      match ParseCIDR a with
      | None => Err (RaError "unable to parse CIDR")
      | Some _ =>
          if IPFamilyOf (cidr_address a) =?? family then Ok (cidr_address a)
          else first_of_family family addrs
      end
  end.

Definition getHostIfaceIPAddress : M IP :=
  w ← getw;
  addrs ← on_net "error getting default host addresses" (Addrs (defaultHostIface (kp w)));
  lift_result (first_of_family (ipFamily (kp w)) addrs).

Definition zero_mac : string := "00:00:00:00:00:00".

Definition vtep_of (ip : string) : M IP :=
  w ← getw;
  lift_result (map_err (vx_ra_error "failed to derive the VTEP address")
    (VxlanLink.GetVtepIPAddressFrom ip (vtepPrefixCIDR (kp w)) (ipFamily (kp w)))).

(** [Group] and [SrcAddr] with the hardware address derived from an address. *)
Definition device_attrs (h : SyncHandler) (group src : IP) : VxlanLink.Attributes :=
  VxlanLink.mkAttributes (vxlanIface h) 100 group src IntraClusterVxLAN
    (iface_MTU (defaultHostIface h)) (VxlanLink.HardwareAddrFromIP src).

Definition createVxLANInterface (ifaceType : iface_type) (gatewayNodeIP : IP) : M unit :=
  ipAddr ← getHostIfaceIPAddress;
  vtepIP ← vtep_of (ip_string ipAddr);
  w ← getw;
  let h := kp w in
  device ← match ifaceType with
    | VxInterfaceGateway =>
        let src := match vxlanGwIP h with
                   | Some ip => if ipFamily h =?? IPv6 then ip else ipAddr
                   | None => ipAddr
                   end in
        device ← assign_device (device_attrs h [] src);
        _ ← for_each (fun fdbAddress =>
               on_vx "failed to add FDB entry on the Gateway Node vxlan iface"
                 (VxlanLink.AddFDB device (ParseIP fdbAddress) zero_mac))
             (UnsortedList (remoteVTEPs h));
        _ ← on_net "error while validating loose mode"
              (Netlink.EnsureLooseModeIsConfigured (vxlanIface h) (ipFamily h));
        mret device
    | VxInterfaceWorker => assign_device (device_attrs h gatewayNodeIP ipAddr)
    end;
  ipNet ← match ParseCIDR (vtepPrefixCIDR h) with
          | None => fail (RaError "invalid VTEP CIDR")
          | Some n => mret n
          end;
  _ ← on_vx "failed to configure vxlan interface ipaddress on the Gateway Node"
        (VxlanLink.ConfigureIPAddress device vtepIP (net_Mask ipNet));
  on_net "error enabling forwarding" (Netlink.EnableForwarding (vxlanIface h) (ipFamily h)).

(** * Routes (routes_iface.go) *)
Definition isGatewayInRemoteCIDR (h : SyncHandler) (remoteCIDR : string) : result ra_error bool :=
  match remoteSubnetGw h !! remoteCIDR with
  | Some gwIP =>
      match ParseCIDR remoteCIDR with
      | Some ipnet => Ok (Contains ipnet gwIP)
      | None => Err (RaPanic "nil network")
      end
  | None => Ok false
  end.

Definition configureRoute (remoteSubnet : string) (operation : Operation) (viaGw : option IP) : M unit :=
  w ← getw;
  let h := kp w in
  match cniIface h with
  | None => fail (RaPanic "nil CNI interface")
  | Some cni =>
      match ParseCIDR remoteSubnet with
      | None => fail (RaError "error parsing cidr block")
      | Some dst =>
          ifaceIndex ← (if localEndpointIfaceName h =?? "" then mret (iface_Index (defaultHostIface h))
                        else r ← attempt (on_net "" (InterfaceByName (localEndpointIfaceName h)));
                             match r with
                             | Ok iface => mret (iface_Index iface)
                             | Err _ => mret (iface_Index (defaultHostIface h))
                             end);
          let route := mkRoute ifaceIndex (ParseIP (Cni.cni_IPAddress cni)) (Some dst)
            (default [] viaGw) 0 RouteAgentHostNetworkTableID
            (if viaGw then RT_SCOPE_UNIVERSE else RT_SCOPE_LINK) 4 in
          match operation with
          | Add => on_net "error adding the route" (fun x =>
              match RouteAdd route x with
              | (Err e, x) => (if is_exist e then Ok tt else Err e, x)
              | r => r
              end)
          | Delete => on_net "error deleting the route" (RouteDel route)
          | Flush => mret tt
          end
      end
  end.

Definition updateRoutingRulesForCIDRBlock (inputCidrBlock : string) (operation : Operation) : M unit :=
  w ← getw;
  inside ← lift_result (isGatewayInRemoteCIDR (kp w) inputCidrBlock);
  viaGW ← (if (inside : bool) then
             r ← attempt (on_net "" (RouteGet (zget [] (remoteSubnetGw (kp w)) inputCidrBlock)));
             (* an error is only logged, and the first route read all the same *)
             match r with
             | Ok (route :: _) => mret (Some (route_Gw route))
             | _ => fail (RaPanic "index out of range")
             end
           else mret None);
  let cached := bool_decide (inputCidrBlock ∈ routeCacheGWNode (kp w)) in
  match operation with
  | Add =>
      if cached then mret tt
      else _ ← update (fun h => set_cache h ({[inputCidrBlock]} ∪ routeCacheGWNode h));
           logged (configureRoute inputCidrBlock operation viaGW)
  | Delete =>
      if cached then
        _ ← update (fun h => set_cache h (routeCacheGWNode h ∖ {[inputCidrBlock]}));
        logged (configureRoute inputCidrBlock operation viaGW)
      else mret tt
  | Flush => mret tt
  end.

Definition updateRoutingRulesForHostNetworkSupport (st : Event.HandlerState) (inputCidrBlocks : list string)
    (operation : Operation) : M unit :=
  if operation =?? Flush then
    _ ← update (fun h => set_cache h ∅);
    logged (on_net "" (FlushRouteTable RouteAgentHostNetworkTableID))
  else
    w ← getw;
    if negb (Event.IsOnGateway st) || (cniIface (kp w) =?? None) then mret tt
    else for_each (fun c => updateRoutingRulesForCIDRBlock c operation) inputCidrBlocks.

(** The destination is a remote subnet, on a route that has a gateway. *)
Definition is_remote_route (h : SyncHandler) (r : Route) : bool :=
  match route_Dst r with
  | Some dst => bool_decide (net_string dst ∈ remoteSubnets h)
  | None => false
  end.

Definition has_gw_and_dst (r : Route) : bool :=
  match route_Dst r with Some _ => negb (route_Gw r =?? []) | None => false end.

Definition cleanVxSubmarinerRoutes : M unit :=
  w ← getw;
  rl ← attempt (on_net "" (LinkByName (vxlanIface (kp w))));
  match rl with
  | Err _ => mret tt
  | Ok link =>
      rr ← attempt (on_net "" (RouteList (Some link) (ipFamily (kp w))));
      match rr with
      | Err _ => mret tt
      | Ok currentRouteList =>
          for_each (fun r => if has_gw_and_dst r && is_remote_route (kp w) r
                             then logged (on_net "" (RouteDel r)) else mret tt) currentRouteList
      end
  end.

Definition removeUnknownRoutes (vxlanGw : IP) (currentRouteList : list Route) : M unit :=
  w ← getw;
  for_each (fun r =>
    if negb (has_gw_and_dst r) then mret tt
    else if is_remote_route (kp w) r && Equal (route_Gw r) vxlanGw then mret tt
    else logged (on_net "" (RouteDel r))) currentRouteList.

(** The route of a remote subnet through the gateway node. *)
Definition inter_cluster_route (linkIndex : Z) (gw : IP) (dst : IPNet) : Route :=
  mkRoute linkIndex [] (Some dst) gw 0 0 RT_SCOPE_UNIVERSE 4.

Definition equivalent_route (gw : IP) (dst : IPNet) (r : Route) : bool :=
  has_gw_and_dst r && Equal (route_Gw r) gw &&
  match route_Dst r with Some d => net_string d =?? net_string dst | None => false end.

(** The loop over the remote subnets stops at one that is no CIDR. *)
Fixpoint add_missing_routes (linkIndex : Z) (vxlanGw : IP) (currentRouteList : list Route)
    (cidrBlocks : list string) : M unit :=
  match cidrBlocks with
  | [] => mret tt
  | cidrBlock :: cidrBlocks =>
      match ParseCIDR cidrBlock with
      | None => mret tt
      | Some dst =>
          _ ← (if existsb (equivalent_route vxlanGw dst) currentRouteList then mret tt
               else logged (on_net "" (RouteAdd (inter_cluster_route linkIndex vxlanGw dst))));
          add_missing_routes linkIndex vxlanGw currentRouteList cidrBlocks
      end
  end.

Definition reconcileRoutes (vxlanGw : IP) : M unit :=
  w ← getw;
  link ← on_net "error retrieving link by name" (LinkByName (vxlanIface (kp w)));
  currentRouteList ← on_net "error retrieving routes for link" (RouteList (Some link) (ipFamily (kp w)));
  _ ← removeUnknownRoutes vxlanGw currentRouteList;
  currentRouteList ← on_net "error retrieving routes for link" (RouteList (Some link) (ipFamily (kp w)));
  add_missing_routes (Netlink.link_index link) vxlanGw currentRouteList (UnsortedList (remoteSubnets (kp w))).

Definition updateRoutingRulesForInterClusterSupport (st : Event.HandlerState) (remoteCIDRs : list string)
    (operation : Operation) : M unit :=
  if Event.IsOnGateway st then mret tt
  else
    w ← getw;
    match vxlanDevice (kp w), vxlanGwIP (kp w) with
    | Some _, Some gw =>
        link ← on_net "error retrieving link by name" (LinkByName (vxlanIface (kp w)));
        for_each (fun cidrBlock =>
          match ParseCIDR cidrBlock with
          | None => fail (RaError "error parsing cidr block")
          | Some dst =>
              let route := inter_cluster_route (Netlink.link_index link) gw dst in
              match operation with
              | Add => on_net "error adding route" (Netlink.RouteAddOrReplace route)
              | Delete => on_net "error deleting route" (RouteDel route)
              | Flush => mret tt
              end
          end) remoteCIDRs
    | _, _ => mret tt
    end.

(** * Filter rules (packetfilter_iface.go) *)
Definition createPFilterChains : M unit :=
  _ ← for_each (fun c => on_filter "error installing IPHook chain" (CreateIPHookChainIfNotExists c))
        [NewPostRouting; NewInput; NewForwarding; NewSelfSnat];
  w ← getw;
  let h := kp w in
  _ ← on_filter "unable to append rule" (AppendUnique TableTypeFilter SmInput
        (mkRule "" "" "" "" "" "" "" "" "" "" (Itoa IntraClusterVxLAN) "" RuleActionAccept RuleProtoUDP UndefinedMSS));
  _ ← on_filter "unable to append rule to allow vxlan traffic" (PrependUnique TableTypeFilter SmForward
        [mkRule "" "" "" "" "" "" (vxlanIface h) "" "" "" "" "" RuleActionAccept RuleProtoUndefined UndefinedMSS]);
  match cniIface h with
  | None => mret tt
  | Some cni =>
      on_filter "unable to append rule" (AppendUnique TableTypeNAT SmPostRouting
        (mkRule "" (vtepPrefixCIDR h) "" "" (Cni.cni_IPAddress cni) "" (vxlanIface h) "" "" "" "" ""
           RuleActionSNAT RuleProtoUndefined UndefinedMSS))
  end.

Definition programIptableRulesForInterClusterTraffic (remoteCidrBlock : string) (operation : Operation) : M unit :=
  w ← getw;
  for_each (fun localCidr =>
    let outboundRule := cidr_rule localCidr remoteCidrBlock RuleActionAccept in
    let incomingRule := cidr_rule remoteCidrBlock localCidr RuleActionAccept in
    match operation with
    | Add =>
        _ ← on_filter "error appending packetfilter rule" (AppendUnique TableTypeNAT SmPostRouting outboundRule);
        on_filter "error appending packetfilter rule" (AppendUnique TableTypeNAT SmPostRouting incomingRule)
    | Delete =>
        _ ← on_filter "error deleting packetfilter rule" (PacketFilter.Delete TableTypeNAT SmPostRouting outboundRule);
        on_filter "error deleting packetfilter rule" (PacketFilter.Delete TableTypeNAT SmPostRouting incomingRule)
    | Flush => mret tt
    end) (localClusterCidr (kp w)).

Definition updateIptableRulesForInterClusterTraffic (inputCidrBlocks : list string) (operation : Operation) :
    M unit :=
  for_each (fun c => logged (programIptableRulesForInterClusterTraffic c operation)) inputCidrBlocks.

(** * Endpoints (endpoint_handler.go) *)
Definition drop_old_device (endpoint : EndpointSpec) : M unit :=
  w ← getw;
  match vxlanDevice (kp w) with
  | Some d =>
      if activeEndpointHostname (kp w) =?? Hostname endpoint then mret tt
      else
        _ ← on_vx "failed to delete the vxlan interface that points to old endpoint" (VxlanLink.DeleteLinkDevice d);
        update (fun h => set_active (set_device h None) "")
  | None => mret tt
  end.

Definition LocalEndpointCreated (st : Event.HandlerState) (endpoint : EndpointSpec) : M unit :=
  _ ← update (fun h => set_iface_name h (zget "" (BackendConfig endpoint) "interface-name"));
  w ← getw;
  let localClusterGwNodeIP := ParseIP (GetPrivateIP endpoint (ipFamily (kp w))) in
  _ ← (if negb (Event.IsOnGateway st) then
         _ ← drop_old_device endpoint;
         remoteVtepIP ← vtep_of (ip_string localClusterGwNodeIP);
         _ ← fatal "Unable to create VxLAN interface on non-GatewayNode"
               (createVxLANInterface VxInterfaceWorker localClusterGwNodeIP);
         _ ← update (fun h => set_active (set_gw_ip h (Some remoteVtepIP)) (Hostname endpoint));
         reconcileRoutes remoteVtepIP
       else update (fun h => set_gw_ip h (Some localClusterGwNodeIP)));
  let v6 := ipFamily (kp w) =?? IPv6 in
  let localEndpointCIDRsSet := if v6 then Mtu.LocalCIDRIPSetIPv6 else Mtu.LocalCIDRIPSetIPv4 in
  let remoteEndpointCIDRsSet := if v6 then Mtu.RemoteCIDRIPSetIPv6 else Mtu.RemoteCIDRIPSetIPv4 in
  match localClusterCidr (kp w) with
  | [] => fail (RaPanic "index out of range")
  | c :: _ =>
      _ ← on_filter "unable to append rule"
            (AppendUnique TableTypeNAT SmSelfSnat (snat_set_rule c "" remoteEndpointCIDRsSet));
      on_filter "unable to append rule"
        (AppendUnique TableTypeNAT SmSelfSnat (snat_set_rule "" remoteEndpointCIDRsSet localEndpointCIDRsSet))
  end.

Definition LocalEndpointRemoved (endpoint : EndpointSpec) : M unit :=
  w ← getw;
  match vxlanDevice (kp w) with
  | Some d =>
      if activeEndpointHostname (kp w) =?? Hostname endpoint then
        r ← attempt (on_vx "failed to delete the vxlan interface on Endpoint removal" (VxlanLink.DeleteLinkDevice d));
        _ ← update (fun h => set_active (set_gw_ip (set_device h None) None) "");
        lift_result r
      else mret tt
  | None => mret tt
  end.

Definition add_subnets (gwIP : IP) (subnets : list string) (h : SyncHandler) : SyncHandler :=
  foldl (fun h c => set_remotes h ({[c]} ∪ remoteSubnets h) (<[c := gwIP]> (remoteSubnetGw h))) h subnets.
Definition remove_subnets (subnets : list string) (h : SyncHandler) : SyncHandler :=
  foldl (fun h c => set_remotes h (remoteSubnets h ∖ {[c]}) (delete c (remoteSubnetGw h))) h subnets.

Definition RemoteEndpointCreated (st : Event.HandlerState) (endpoint : EndpointSpec) : M unit :=
  w ← getw;
  let subnets := Cidr.ExtractSubnets (ipFamily (kp w)) (Subnets endpoint) in
  if is_err (Cidr.OverlappingSubnets (localServiceCidr (kp w)) (localClusterCidr (kp w)) subnets) then mret tt
  else
    _ ← update (add_subnets (GatewayIP endpoint (ipFamily (kp w))) subnets);
    _ ← updateRoutingRulesForInterClusterSupport st subnets Add;
    _ ← updateRoutingRulesForHostNetworkSupport st subnets Add;
    updateIptableRulesForInterClusterTraffic subnets Add.

Definition RemoteEndpointRemoved (st : Event.HandlerState) (endpoint : EndpointSpec) : M unit :=
  w ← getw;
  let subnets := Cidr.ExtractSubnets (ipFamily (kp w)) (Subnets endpoint) in
  _ ← update (remove_subnets subnets);
  _ ← updateRoutingRulesForInterClusterSupport st subnets Delete;
  _ ← updateRoutingRulesForHostNetworkSupport st subnets Delete;
  updateIptableRulesForInterClusterTraffic subnets Delete.

(** * Nodes (node_handler.go) *)
Definition change_fdb (vtepIP : string) (operation : Operation) (d : Vxlan) : M unit :=
  match operation with
  | Add => logged (on_vx "" (VxlanLink.AddFDB d (ParseIP vtepIP) zero_mac))
  | Delete => logged (on_vx "" (VxlanLink.DelFDB d (ParseIP vtepIP) zero_mac))
  | Flush => mret tt
  end.

Definition populateRemoteVtepIps (st : Event.HandlerState) (vtepIP : string) (operation : Operation) : M unit :=
  _ ← update (fun h => match operation with
                       | Add => set_vteps h ({[vtepIP]} ∪ remoteVTEPs h)
                       | Delete => set_vteps h (remoteVTEPs h ∖ {[vtepIP]})
                       | Flush => h
                       end);
  w ← getw;
  match vxlanDevice (kp w) with
  | Some d => if Event.IsOnGateway st then change_fdb vtepIP operation d else mret tt
  | None => mret tt
  end.

(** The first internal address that [p] accepts. *)
Definition internal_address (p : string -> bool) (node : Node) : option string :=
  snd <$> List.find (fun a => (a.1 =?? NodeInternalIP) && p a.2) (node_Addresses node).

Definition NodeCreated (st : Event.HandlerState) (node : Node) : M unit :=
  w ← getw;
  match internal_address (fun a => IPFamilyOfString a =?? ipFamily (kp w)) node with
  | Some a => populateRemoteVtepIps st a Add
  | None => mret tt
  end.

Definition NodeRemoved (st : Event.HandlerState) (node : Node) : M unit :=
  match internal_address (fun _ => true) node with
  | Some a => populateRemoteVtepIps st a Delete
  | None => mret tt
  end.

(** * Gateway transitions (gw_transition.go) *)
Definition TransitionToNonGateway (st : Event.HandlerState) : M unit :=
  _ ← cleanVxSubmarinerRoutes;
  _ ← updateRoutingRulesForHostNetworkSupport st [] Flush;
  w ← getw;
  logged (on_net "" (Netlink.RuleDelIfPresent (Netlink.NewTableRule RouteAgentHostNetworkTableID (ipFamily (kp w))))).

Definition TransitionToGateway (st : Event.HandlerState) : M unit :=
  _ ← cleanVxSubmarinerRoutes;
  _ ← update (fun h => set_active h (hostname h));
  _ ← fatal "Unable to create VxLAN interface on gateway node" (createVxLANInterface VxInterfaceGateway []);
  w ← getw;
  _ ← logged (on_net "" (Netlink.RuleAddIfNotPresent
        (Netlink.NewTableRule RouteAgentHostNetworkTableID (ipFamily (kp w)))));
  updateRoutingRulesForHostNetworkSupport st (UnsortedList (remoteSubnets (kp w))) Add.

(** * Life cycle (kp_packetfilter.go, uninstall.go) *)
Definition NewSyncHandler (family : IPFamily) (clusterCidr serviceCidr : list string) (s : S) :
    result ra_error SyncHandler * S :=
  match NewFilter family s with
  | (Err _, s) => (Err (RaPanic "error creating packet filter Driver"), s)
  | (Ok _, s) =>
      (Ok (mkSyncHandler "" (Cidr.ExtractSubnets family clusterCidr) (Cidr.ExtractSubnets family serviceCidr)
             family ∅ ∅ ∅ ∅ None None (GetVxLANInterfaceName family) "" None (mkIface 0 0 "") ""
             (if family =?? IPv6 then VxLANVTepNetworkPrefixCIDRIPv6 else VxLANVTepNetworkPrefixCIDR)), s)
  end.

(** [discoverCNIRetryConfig] allows 12 rounds; the context may end them sooner. *)
Definition discover_steps : nat := 12.

Fixpoint discover_cni (rounds : nat) : M (option Cni.Interface) :=
  match rounds with
  | O => mret None
  | Datatypes.S rounds =>
      w ← getw;
      r ← attempt (on_net "" HostInterfaces);
      match Cni.Discover (match r with Ok l => Some l | Err _ => None end)
              (localClusterCidr (kp w)) (ipFamily (kp w)) with
      | Ok i => mret (Some i)
      | Err (Cni.PanicBadCIDR _) => fail (RaPanic "unable to ParseCIDR")
      | Err _ => discover_cni rounds
      end
  end.

Definition Init (rounds : nat) : M unit :=
  name ← on_net "unable to determine hostname" Hostname_of_host;
  w ← getw;
  _ ← update (fun h => set_host h name (defaultHostIface h));
  iface ← on_net "Unable to find the default interface on host"
            (Netlink.GetDefaultGatewayInterface (ipFamily (kp w)));
  _ ← update (fun h => set_host h name iface);
  found ← discover_cni (Nat.min rounds discover_steps);
  _ ← match found with
      | Some i =>
          _ ← update (fun h => set_cni h (Some i));
          on_net "error enabling loose mode"
            (Netlink.EnableLooseModeReversePathFilter (Cni.cni_Name i) (ipFamily (kp w)))
      | None => mret tt
      end;
  createPFilterChains.

Definition deleteVxLANInterface : M unit :=
  w ← getw;
  logged (on_net "" (LinkDel (LVxlan (mkVxlan (vxlanIface (kp w)) 0 [] 0 100 [] [] IntraClusterVxLAN)))).

Definition deleteIPTableChains : M unit :=
  w ← getw;
  r ← attempt (on_filter "" (NewFilter (ipFamily (kp w))));
  match r with
  | Err _ => mret tt
  | Ok _ =>
      for_each (fun '(table, hook) =>
        _ ← logged (on_filter "" (ClearChain table (hook_Name hook)));
        logged (on_filter "" (DeleteIPHookChain hook)))
        [(TableTypeNAT, NewPostRouting); (TableTypeFilter, NewInput);
         (TableTypeNAT, NewSelfSnat); (TableTypeFilter, NewForwarding)]
  end.

Definition Uninstall : M unit :=
  _ ← logged (on_net "" (FlushRouteTable RouteAgentHostNetworkTableID));
  w ← getw;
  _ ← logged (on_net "" (Netlink.RuleDelIfPresent
        (Netlink.NewTableRule RouteAgentHostNetworkTableID (ipFamily (kp w)))));
  _ ← deleteVxLANInterface;
  deleteIPTableChains.

(** The calls the controller makes; the others are the stubs of the base handler. *)
Definition on_callback (st : Event.HandlerState) (cb : Event.callback Node) : M unit :=
  let spec e := Spec (Event.ep_obj e) in
  match cb with
  | Event.TransitionToNonGateway _ => TransitionToNonGateway st
  | Event.TransitionToGateway => TransitionToGateway st
  | Event.LocalEndpointCreated e => LocalEndpointCreated st (spec e)
  | Event.LocalEndpointRemoved e => LocalEndpointRemoved (spec e)
  | Event.RemoteEndpointCreated e => RemoteEndpointCreated st (spec e)
  | Event.RemoteEndpointRemoved e => RemoteEndpointRemoved st (spec e)
  | Event.NodeCreated n => NodeCreated st n
  | Event.NodeRemoved n => NodeRemoved st n
  | _ => mret tt
  end.
End handler.
Arguments world W S : clear implicits.
Arguments mkWorld {W S} _ _ _.
Arguments kp {W S} _.
Arguments net {W S} _.
Arguments filter {W S} _.
(** * Lemmas *)
Section lemmas.
Context {W S : Type} `{!NetlinkBasic W} `{!NetlinkLaws W} `{!HostNet W} `{!HostNetLaws W} `{!PFDriver S} `{K8sNet}.
Implicit Types (w : world W S) (h : SyncHandler).

(** A call of the filter leaves the handler and the host alone. *)
Definition same_host w w' : Prop := kp w' = kp w /\ net w' = net w.

#[local] Instance same_host_preorder : PreOrder same_host.
Proof.
  split; [by intros w|]. intros w1 w2 w3 [H1 H2] [H3 H4]. split; congruence.
Qed.

Lemma on_filter_host {A} what (m : eff S pf_error A) : keeps same_host (on_filter (W := W) what m).
Proof. intros w. unfold on_filter. by destruct (m (filter w)). Qed.

Lemma iptables_host l op : keeps same_host (updateIptableRulesForInterClusterTraffic (W := W) l op).
Proof.
  unfold updateIptableRulesForInterClusterTraffic, logged, programIptableRulesForInterClusterTraffic.
  frames; apply on_filter_host.
Qed.

(** The routes asked for to one gateway through one link: all are there, and a
    route of another key is there when it was before. *)
Lemma install_routes_ok idx gw l : forall w w',
  for_each (fun cidrBlock =>
    match ParseCIDR cidrBlock with
    | None => fail (RaError "error parsing cidr block")
    | Some dst => on_net "error adding route" (Netlink.RouteAddOrReplace (inter_cluster_route idx gw dst))
    end) l w = (Ok tt, w') ->
  kp w' = kp w /\ filter w' = filter w /\
  (forall c, c ∈ l -> exists dst, ParseCIDR c = Some dst /\ inter_cluster_route idx gw dst ∈ routes (net w')) /\
  (forall r, (forall c dst, c ∈ l -> ParseCIDR c = Some dst -> ~ same_route_key r (inter_cluster_route idx gw dst)) ->
     r ∈ routes (net w') <-> r ∈ routes (net w)).
Proof.
  induction l as [|c l IH]; intros w w' Hrun.
  { injection Hrun as <-. split_and!; [done|done| |done]. intros c Hc. by apply elem_of_nil in Hc. }
  apply eff_bind_inv in Hrun as [([] & w1 & H1 & Hrun)|(? & _ & ?)]; [|done].
  destruct (ParseCIDR c) as [dst|] eqn:Hdst; [|done].
  unfold on_net in H1. destruct (Netlink.RouteAddOrReplace _ (net w)) as [[[]|e] x] eqn:Ha; [|done].
  injection H1 as <-. apply Netlink.RouteAddOrReplace_ok in Ha as [Hin Hother].
  destruct (IH _ _ Hrun) as (Hk & Hf & Hall & Hrest). cbn [kp net filter] in *.
  split_and!; [done|done| |].
  - intros c' [->|Hc']%elem_of_cons; [|by apply Hall]. exists dst. split; [done|].
    destruct (decide (Exists (fun c' => ParseCIDR c' = Some dst) l)) as [(c' & Hc' & Hd)%Exists_exists|Hno].
    + destruct (Hall c' Hc') as (dst' & Hd' & Hr). by simplify_eq.
    + apply Hrest; [|done]. intros c' dst' Hc' Hd' (_ & Heq & _). cbn in Heq. injection Heq as <-.
      apply Hno, Exists_exists. eauto.
  - intros r Hr. rewrite Hrest by (intros c' dst' Hc'; apply Hr; by right). apply Hother.
    apply (Hr c dst); [by left|done].
Qed.

Lemma add_subnets_has gw l : forall h c, c ∈ remoteSubnets (add_subnets gw l h) <-> c ∈ l \/ c ∈ remoteSubnets h.
Proof.
  induction l as [|a l IH]; intros h c; [set_solver|].
  unfold add_subnets in *. cbn [foldl]. rewrite IH. cbn. set_solver.
Qed.

Lemma add_subnets_same gw l : forall h, vxlanDevice (add_subnets gw l h) = vxlanDevice h /\
  vxlanGwIP (add_subnets gw l h) = vxlanGwIP h /\ vxlanIface (add_subnets gw l h) = vxlanIface h.
Proof.
  induction l as [|a l IH]; intros h; [done|]. unfold add_subnets in *. cbn [foldl].
  destruct (IH (set_remotes h ({[a]} ∪ remoteSubnets h) (<[a := gw]> (remoteSubnetGw h)))) as (-> & -> & ->). done.
Qed.
End lemmas.

(** * Properties *)
Section properties.
Context {W S : Type} `{!NetlinkBasic W} `{!NetlinkLaws W} `{!HostNet W} `{!HostNetLaws W} `{!PFDriver S} `{K8sNet}.
Implicit Types (w : world W S).

(** C33: On a node that is no gateway and has its VXLAN device, a remote endpoint
    that does not overlap the cluster's own networks and was processed without error
    has a route for each of its subnets of the handler's family: with the subnet as
    destination, the link found under the device's name, the VTEP address of the gateway
    node as gateway, no source address, the main table (0, left to the kernel), the
    universe scope (0) and the protocol static (4).  The subnets are remembered for the
    next gateway, and the routes of other destinations are as they were. *)
Theorem worker_routes_installed st e w w' d gw : Event.IsOnGateway st = false ->
  vxlanDevice (kp w) = Some d -> vxlanGwIP (kp w) = Some gw ->
  let subnets := subnets_of (ipFamily (kp w)) e in
  Cidr.OverlappingSubnets (localServiceCidr (kp w)) (localClusterCidr (kp w)) subnets = Ok tt ->
  RemoteEndpointCreated st e w = (Ok tt, w') ->
  exists link, (LinkByName (vxlanIface (kp w)) (net w)).1 = Ok link /\
  let route dst := {| route_LinkIndex := Netlink.link_index link; route_Src := []; route_Dst := Some dst; route_Gw := gw;
    route_Priority := 0; route_Table := 0; route_Scope := 0; route_Protocol := 4 |} in
  (forall c, c ∈ subnets -> c ∈ remoteSubnets (kp w') /\
     exists dst, ParseCIDR c = Some dst /\ route dst ∈ routes (net w')) /\
  (forall r, (forall c dst, c ∈ subnets -> ParseCIDR c = Some dst -> ~ same_route_key r (route dst)) ->
     r ∈ routes (net w') <-> r ∈ routes (net w)).
Proof.
  intros Hst Hd Hgw subnets Hov Hrun. unfold RemoteEndpointCreated in Hrun.
  apply eff_bind_inv in Hrun as [(w0 & w0' & [= <- <-] & Hrun)|(? & _ & ?)]; [|done].
  fold (subnets_of (ipFamily (kp w)) e) in Hrun. fold subnets in Hrun. rewrite Hov in Hrun. cbn [is_err negb is_ok] in Hrun.
  apply eff_bind_inv in Hrun as [([] & w1 & [= <-] & Hrun)|(? & _ & ?)]; [|done].
  apply eff_bind_inv in Hrun as [([] & w2 & H2 & Hrun)|(? & _ & ?)]; [|done].
  apply eff_bind_inv in Hrun as [([] & w3 & H3 & Hrun)|(? & _ & ?)]; [|done].
  destruct (add_subnets_same (GatewayIP e (ipFamily (kp w))) subnets (kp w)) as (Hsd & Hsg & Hsi).
  unfold updateRoutingRulesForInterClusterSupport in H2. rewrite Hst in H2.
  apply eff_bind_inv in H2 as [(w0 & w0' & [= <- <-] & H2)|(? & _ & ?)]; [|done]. cbn [kp] in H2.
  rewrite Hsd, Hsg, Hsi, Hd, Hgw in H2.
  apply eff_bind_inv in H2 as [(link & w4 & H4 & H2)|(? & _ & ?)]; [|done].
  unfold on_net in H4. cbn [net] in H4. pose proof (link_by_name_routes (vxlanIface (kp w)) (net w)) as Hlr.
  destruct (LinkByName (vxlanIface (kp w)) (net w)) as [[lk|err] x] eqn:Hl; [|done]. injection H4 as <- <-.
  apply install_routes_ok in H2 as (Hk & _ & Hall & Hrest).
  assert (w3 = w2) as ->.
  { unfold updateRoutingRulesForHostNetworkSupport in H3. rewrite Hst in H3. cbn in H3. by injection H3. }
  destruct (keeps_run _ _ _ _ _ (iptables_host subnets Add) Hrun) as [Hk' Hn].
  exists lk. split; [done|]. rewrite Hk', Hn, Hk. cbn [kp net fst snd] in *. split.
  - intros c Hc. split; [apply add_subnets_has; by left|by apply Hall].
  - intros r Hr. rewrite Hrest by done. by rewrite Hlr.
Qed.

(** ** The nodes of the cluster *)
(** A node that came ([true]) or went. *)
Definition handle_node st (ev : bool * Node) : eff (world W S) ra_error unit :=
  if ev.1 then NodeCreated st ev.2 else NodeRemoved st ev.2.

Definition run_nodes st (evs : list (bool * Node)) w : world W S := foldl (fun w ev => (handle_node st ev w).2) w evs.

(** The remote VTEPs after an event, when the first internal address of the node
    is of the handler's family. *)
Definition vteps_after (vteps : gset string) (ev : bool * Node) : gset string :=
  match internal_address (fun _ => true) ev.2 with
  | Some a => if ev.1 then {[a]} ∪ vteps else vteps ∖ {[a]}
  | None => vteps
  end.

Definition family_first (family : IPFamily) (node : Node) : Prop :=
  internal_address (fun a => IPFamilyOfString a =?? family) node = internal_address (fun _ => true) node.

Definition same_handler w w' : Prop := kp w' = kp w.

#[local] Instance same_handler_preorder : PreOrder same_handler.
Proof. split; [by intros w|]. intros w1 w2 w3 H1 H2. unfold same_handler in *. congruence. Qed.

Lemma change_fdb_handler a op d : keeps same_handler (change_fdb (S := S) a op d).
Proof.
  unfold change_fdb, logged, same_handler. frames; intros w; unfold on_vx;
    [destruct (VxlanLink.AddFDB d (ParseIP a) zero_mac (net w))|destruct (VxlanLink.DelFDB d (ParseIP a) zero_mac (net w))];
    done.
Qed.

Lemma populate_vteps st a op w :
  remoteVTEPs (kp (populateRemoteVtepIps st a op w).2) =
    match op with
    | Add => {[a]} ∪ remoteVTEPs (kp w)
    | Delete => remoteVTEPs (kp w) ∖ {[a]}
    | Flush => remoteVTEPs (kp w)
    end /\ ipFamily (kp (populateRemoteVtepIps st a op w).2) = ipFamily (kp w).
Proof.
  unfold populateRemoteVtepIps, mbind, eff_bind, update, modifyw, getw. cbn beta iota zeta.
  set (w1 := mkWorld _ (net w) (filter w)).
  assert (Hk : forall m : eff (world W S) ra_error unit, keeps same_handler m -> kp (m w1).2 = kp w1) by (intros m Hm; apply Hm).
  destruct (vxlanDevice (kp w1)) as [d|], (Event.IsOnGateway st); rewrite ?Hk by (apply change_fdb_handler);
    by destruct op.
Qed.

(** The VTEPs a gateway would send to are the internal addresses of the nodes of
    the cluster, whatever fails, as long as the first internal address of each
    node is of the handler's family. *)
Lemma vteps_follow_nodes st evs : forall w,
  Forall (fun ev => family_first (ipFamily (kp w)) ev.2) evs ->
  remoteVTEPs (kp (run_nodes st evs w)) = foldl vteps_after (remoteVTEPs (kp w)) evs.
Proof.
  induction evs as [|[c n] evs IH]; intros w Hf; [done|]. apply Forall_cons in Hf as [Hn Hf].
  unfold run_nodes in *. cbn [foldl].
  assert (remoteVTEPs (kp (handle_node st (c, n) w).2) = vteps_after (remoteVTEPs (kp w)) (c, n) /\
          ipFamily (kp (handle_node st (c, n) w).2) = ipFamily (kp w)) as [Hv Hfam].
  { unfold handle_node, vteps_after, NodeCreated, NodeRemoved. cbn [fst snd]. destruct c.
    - unfold mbind, eff_bind, getw. cbn beta iota. unfold family_first in Hn. cbn [snd] in Hn. rewrite Hn.
      destruct (internal_address (fun _ => true) n); [apply populate_vteps|done].
    - destruct (internal_address (fun _ => true) n); [apply populate_vteps|done]. }
  rewrite IH by (by rewrite Hfam). by rewrite Hv.
Qed.
End properties.

(** * Witnesses *)
#[local] Existing Instance kernel_ref.
#[local] Existing Instance Netlink.kernel_ref_laws.
#[local] Existing Instance k8snet_ref.
#[local] Existing Instance filter_ref.

Definition host_ref : HostNet kernel := {|
  FlushRouteTable := fun t k => (Ok tt, with_routes (base.filter (fun r => route_Table r <> t)) k);
  RouteGet := fun _ k => (Err (ErrOther "network is unreachable"), k);
  InterfaceByName := fun n k => (Ok (mkIface 2 1500 n), k);
  Addrs := fun _ k => (Ok ["192.168.1.10/24"; "fd00:abcd::10/64"], k);
  Hostname_of_host := fun k => (Ok "worker", k);
  HostInterfaces := fun k => (Ok [Cni.mkHost "cni0" (ParseIP "10.1.0.1")], k);
|}.
#[local] Existing Instance host_ref.

Lemma host_ref_laws : HostNetLaws kernel.
Proof.
  split; [|done]. intros n w. cbn. by destruct (List.find _ _).
Qed.
#[local] Existing Instance host_ref_laws.

Definition ex_kernel : kernel :=
  mkKernel [] [] [mkRoute 1 [] None (ParseIP "192.168.1.1") 0 254 0 0]
    {[ "/proc/sys/net/ipv4/conf/cni0/rp_filter"%string := ["0"%char];
       "/proc/sys/net/ipv4/conf/vx-submariner/rp_filter"%string := ["2"%char];
       "/proc/sys/net/ipv4/conf/vx-submariner/forwarding"%string := ["0"%char] ]}.

Definition ex_kp_world : world kernel filter_state :=
  match NewSyncHandler (fun _ => mret tt) IPv4 ["10.1.0.0/16"] ["100.1.0.0/16"] (mkFilterState (fun _ _ => []) ∅) with
  | (Ok h, s) => mkWorld h ex_kernel s
  | (Err _, s) => mkWorld (mkSyncHandler "" [] [] IPv4 ∅ ∅ ∅ ∅ None None "" "" None (mkIface 0 0 "") "" "") ex_kernel s
  end.

Definition ex_gateway_ep : EndpointSpec :=
  {| ClusterID := "east"; CableName := "c"; HealthCheckIP := ""; HealthCheckIPs := []; Endpoint.Hostname := "gw";
     Subnets := ["10.1.0.0/16"]; PrivateIP := ""; PrivateIPs := ["192.168.1.20"]; PublicIP := ""; PublicIPs := [];
     NATEnabled := false; Backend := "vxlan"; BackendConfig := ∅ |}.
Definition ex_remote_ep : EndpointSpec :=
  {| ClusterID := "west"; CableName := "w"; HealthCheckIP := ""; HealthCheckIPs := []; Endpoint.Hostname := "gw2";
     Subnets := ["10.2.0.0/16"; "fd01::/64"; "100.2.0.0/16"]; PrivateIP := ""; PrivateIPs := ["192.168.9.20"];
     PublicIP := ""; PublicIPs := []; NATEnabled := false; Backend := "vxlan"; BackendConfig := ∅ |}.

(** A worker node that knows its gateway node. *)
Definition ex_start : eff (world kernel filter_state) ra_error unit :=
  _ ← Init 3;
  LocalEndpointCreated elements Event.DefaultHandlerState ex_gateway_ep.
Definition ex_worker : world kernel filter_state := (ex_start ex_kp_world).2.
Definition ex_remote_run : eff (world kernel filter_state) ra_error unit :=
  RemoteEndpointCreated Event.DefaultHandlerState ex_remote_ep.

Definition ex_vtep : IP := ParseIP "240.168.1.20".

Definition ex_link_index : Z := 2.

Lemma worker_routes_installed_witness :
  Forall (fun c => exists dst, ParseCIDR c = Some dst /\
    mkRoute ex_link_index [] (Some dst) (ParseIP "240.168.1.20") 0 0 0 4 ∈ routes (net (ex_remote_run ex_worker).2))
    ["10.2.0.0/16"; "100.2.0.0/16"].
Proof.
  destruct (worker_routes_installed Event.DefaultHandlerState ex_remote_ep ex_worker (ex_remote_run ex_worker).2
    (default (mkVxlan "" 0 [] 0 0 [] [] 0) (vxlanDevice (kp ex_worker))) ex_vtep) as (link & Hl & Hall & _).
  - reflexivity.
  - vm_compute. reflexivity.
  - vm_compute. reflexivity.
  - vm_compute. reflexivity.
  - apply (run_pair ex_remote_run). vm_compute. reflexivity.
  - apply Forall_forall. intros c Hc. destruct (Hall c) as (_ & dst & Hd & Hr); [exact Hc|].
    exists dst. split; [exact Hd|]. assert (Hi : Netlink.link_index link = ex_link_index).
    { unfold ex_link_index. vm_compute in Hl. vm_compute. by injection Hl as <-. }
    rewrite <- Hi. exact Hr.
Defined.

(** ** What the handler does on nodes with two families *)
Definition ex_dual_node : Node :=
  mkNode "worker" [(NodeInternalIP, "192.168.1.30"); (NodeInternalIP, "fd00:abcd::30")].

Definition ex_v6_world : world kernel filter_state :=
  mkWorld (mkSyncHandler "" [] [] IPv6 ∅ ∅ ∅ ∅ None None "" "" None (mkIface 0 0 "") "" "") ex_kernel
    (mkFilterState (fun _ _ => []) ∅).

(** [NodeRemoved] takes the first internal address whatever its family: the
    IPv6 handler forgets the IPv4 address of a dual-stack node, and keeps the
    address that it learnt when the node came. *)
Lemma dual_stack_vtep_stays :
  remoteVTEPs (kp (run_nodes Event.DefaultHandlerState [(true, ex_dual_node); (false, ex_dual_node)] ex_v6_world)) =
    {["fd00:abcd::30"]}.
Proof. vm_compute. reflexivity. Qed.

(** A failed look-up of the route to a remote gateway inside a remote subnet is
    logged, and the first route of the missing list read all the same. *)
Lemma route_get_failure_panics :
  let h := kp ex_worker in
  let w := mkWorld (set_remotes h {["10.2.0.0/16"]} {["10.2.0.0/16" := ParseIP "10.2.0.7"]}) (net ex_worker) (filter ex_worker) in
  (updateRoutingRulesForHostNetworkSupport (Event.mkState true ∅) ["10.2.0.0/16"] Add w).1 =
    Err (RaPanic "index out of range").
Proof. vm_compute. reflexivity. Qed.
End KubeProxy.
