(* ===== verification/AgentHealth.v ===== *)
(** The route agent's health checker ([pkg/routeagent_driver/handlers/healthchecker]),
    which pings the remote endpoints from the nodes that are no gateway and
    publishes what it finds, and the handlers that clean up after a cable driver
    ([pkg/routeagent_driver/cabledriver]). *)
From stdpp Require Import base gmap list strings fin_maps.
From Stdlib Require String.
From Stdlib Require Import ZArith Lia.
From S2P Require Import Prelude GoNet K8s Cidr Endpoint NatDiscovery CableEngine Metrics Netlink Vxlan Pinger Syncer Event.
Import Net Endpoint.
Local Open Scope Z_scope.

(** * Clean-up after a cable driver *)
Module DriverCleanup.
Section handlers.
Context {W : Type} `{!NetlinkBasic W}.

(** [errors.Join(errv6, errv4)], both calls made. *)
Definition join_families (f : IPFamily -> eff W nl_error unit) : eff W (list nl_error) unit :=
  errv6 ← attempt (f IPv6);
  errv4 ← attempt (f IPv4);
  match errv6, errv4 with
  | Ok _, Ok _ => mret tt
  | Err e, Ok _ | Ok _, Err e => fail [e]
  | Err e6, Err e4 => fail [e6; e4]
  end.

Definition xfrm_TransitionToNonGateway : eff W (list nl_error) unit := join_families Netlink.DeleteXfrmRules.

Definition vxlan_TransitionToNonGateway (localEndpoint : EndpointSpec) : eff W (list nl_error) unit :=
  if negb (Backend localEndpoint =?? VxlanDriver.CableDriverName) then mret tt
  else join_families (fun family =>
         Netlink.DeleteIfaceAndAssociatedRoutes (VxlanDriver.GetVxlanInterfaceName family)
           VxlanDriver.TableID family).
End handlers.
End DriverCleanup.

(** * The health checker *)
Module AgentHealth.
Import PingerController.

(** [Config], beside the pinger controller's. *)
Record Config := mkConfig {
  HealthCheckerEnabled : bool;
  Namespace : string;
  LocalNodeName : string;
  Version : string;
}.

Record RemoteEndpoint := mkRemote {
  re_Status : ConnectionStatus;
  re_StatusMessage : string;
  re_Spec : EndpointSpec;
  re_LatencyRTT : option LatencyRTTSpec;
}.

Record RouteAgent := mkRouteAgent {
  ra_Name : string;
  ra_Owners : list string;
  ra_Version : string;
  ra_StatusFailure : string;
  ra_RemoteEndpoints : list RemoteEndpoint;
}.

(** The client of RouteAgents and admiral's [util.CreateOrUpdate]. *)
Class AgentClient (C : Type) := {
  agent_CreateOrUpdate : RouteAgent -> (RouteAgent -> RouteAgent) -> eff C string unit;
  (** [true]: the error is not found. *)
  agent_Delete : string -> eff C bool unit;
}.

(** The object is created, or the existing one changed as asked. *)
Class AgentClientLaws (C : Type) `{!AgentClient C} := {
  agents : C -> gmap string RouteAgent;
  agent_created : forall ra f c c', agent_CreateOrUpdate ra f c = (Ok tt, c') ->
    agents c' = <[ra_Name ra := match agents c !! ra_Name ra with Some old => f old | None => ra end]> (agents c);
}.

Section handlers.
Context {C : Type} `{!AgentClient C} `{K8sNet} `{AdmiralSlices}.
(** [time.Duration.String] and the texts of the pinger's failures. *)
Variable DurationString : Z -> string.
Variable failureText : Pinger.failure -> string -> string.
(** The references that [controllerutil.SetOwnerReference] sets. *)
Variable owners : list string.
Variable config : Config.

Record world := mkWorld { pingerController : controller; client : C }.
Abbreviation M := (eff world string).

Definition update (f : controller -> controller) : M unit :=
  modifyw (fun w => mkWorld (f (pingerController w)) (client w)).

Definition processEndpointCreatedOrUpdated (spec : EndpointSpec) : M unit :=
  update (EndpointCreatedOrUpdated spec).

Definition onRemoteEndpint (st : Event.HandlerState) (spec : EndpointSpec) : M unit :=
  if negb (HealthCheckerEnabled config) || Event.IsOnGateway st then mret tt
  else processEndpointCreatedOrUpdated spec.

Definition RemoteEndpointRemoved (spec : EndpointSpec) : M unit := update (EndpointRemoved spec).
Definition StaleRemoteEndpointRemoved (spec : EndpointSpec) : M unit := update (EndpointRemoved spec).

(** The connection status, its message and the latencies of a remote endpoint;
    [GetLatencyInfo] of a pinger never is nil. *)
Definition remote_status (st : Event.HandlerState) (c : controller) (spec : EndpointSpec) (family : IPFamily) :
    ConnectionStatus * string * option LatencyRTTSpec :=
  if negb (HealthCheckerEnabled config) then (ConnectionNone, "Health check is not enabled", None)
  else if Event.IsOnGateway st then (ConnectionNone, "Health check is not performed on gateway nodes", None)
  else match Get spec family c with
       | Some pingerObject =>
           let latencyInfo := Pinger.GetLatencyInfo pingerObject in
           match Pinger.li_status latencyInfo with
           | Pinger.Connected => (Connected, "", Some (Syncer.latency_spec DurationString latencyInfo))
           | Pinger.ConnectionError | Pinger.ConnectionUnknown =>
               (ConnectionError, failureText (Pinger.li_error latencyInfo) (Pinger.li_IP latencyInfo), None)
           | Pinger.StatusUnset => (StatusUnset, "", None)
           end
       | None => (ConnectionNone, "IPv" +:+ family_str family +:+ " health check IP is not configured", None)
       end%string.

Definition toPluralIPs (ip : string) : list string := if ip =?? "" then [] else [ip].

Definition with_ips (family : IPFamily) (s : EndpointSpec) : EndpointSpec :=
  {| ClusterID := ClusterID s; CableName := CableName s; HealthCheckIP := HealthCheckIP s;
     HealthCheckIPs := toPluralIPs (GetHealthCheckIP s family); Hostname := Hostname s; Subnets := Subnets s;
     PrivateIP := PrivateIP s; PrivateIPs := toPluralIPs (GetPrivateIP s family);
     PublicIP := PublicIP s; PublicIPs := toPluralIPs (GetPublicIP s family);
     NATEnabled := NATEnabled s; Backend := Backend s; BackendConfig := BackendConfig s |}.

Definition createRemoteEndpoint (st : Event.HandlerState) (c : controller) (spec : EndpointSpec)
    (family : IPFamily) : RemoteEndpoint :=
  let '(connectionStatus, statusMessage, latencyRTT) := remote_status st c spec family in
  mkRemote connectionStatus statusMessage (with_ips family spec) latencyRTT.

Definition generateRouteAgentObject (remotes : list RemoteEndpoint) : RouteAgent :=
  mkRouteAgent (LocalNodeName config) owners (Version config) "" remotes.

Definition remote_specs (st : Event.HandlerState) : list EndpointSpec :=
  (fun e => Spec (Event.ep_obj e)) <$> Event.GetRemoteEndpoints st.

(** What is published: an entry for each remote endpoint and each family that both support. *)
Definition remote_endpoints (st : Event.HandlerState) (c : controller) : list RemoteEndpoint :=
  spec ← remote_specs st;
  createRemoteEndpoint st c spec <$>
    filter (fun family => family ∈ GetIPFamilies spec) (SupportedIPFamilies (PingerController.config c)).

(** A failure is only reported. *)
Definition syncRouteAgentStatus (st : Event.HandlerState) : M unit := fun w =>
  let routeAgent := generateRouteAgentObject (remote_endpoints st (pingerController w)) in
  let mutate existing :=
    mkRouteAgent (ra_Name existing) (ra_Owners routeAgent) (ra_Version routeAgent) (ra_StatusFailure routeAgent)
      (ra_RemoteEndpoints routeAgent) in
  (Ok tt, mkWorld (pingerController w) (agent_CreateOrUpdate routeAgent mutate (client w)).2).

Definition TransitionToNonGateway (st : Event.HandlerState) : M unit :=
  if HealthCheckerEnabled config then for_each processEndpointCreatedOrUpdated (remote_specs st) else mret tt.

Definition TransitionToGateway (st : Event.HandlerState) : M unit :=
  _ ← (if HealthCheckerEnabled config then update StopAll else mret tt);
  syncRouteAgentStatus st.

Definition deleteRouteAgent : M unit := fun w =>
  match agent_Delete (LocalNodeName config) (client w) with
  | (Err false, c) => (Err "Error deleting RouteAgent", mkWorld (pingerController w) c)
  | (_, c) => (Ok tt, mkWorld (pingerController w) c)
  end.

(** The channel that ends the rounds is closed too. *)
Definition Stop : M unit := _ ← update StopAll; deleteRouteAgent.

Definition on_callback {Node} (st : Event.HandlerState) (cb : Event.callback Node) : M unit :=
  let spec e := Spec (Event.ep_obj e) in
  match cb with
  | Event.TransitionToNonGateway _ => TransitionToNonGateway st
  | Event.TransitionToGateway => TransitionToGateway st
  | Event.RemoteEndpointCreated e | Event.RemoteEndpointUpdated e => onRemoteEndpint st (spec e)
  | Event.RemoteEndpointRemoved e => RemoteEndpointRemoved (spec e)
  | Event.StaleRemoteEndpointRemoved e => StaleRemoteEndpointRemoved (spec e)
  | _ => mret tt
  end.

(** What happens to the handler: a call, or a round of the goroutine that
    [Init] starts. *)
Inductive agent_event {Node : Type} :=
| Callback (st : Event.HandlerState) (cb : Event.callback Node)
| Round (st : Event.HandlerState).

Definition agent_step {Node} (w : world) (e : agent_event (Node := Node)) : world :=
  match e with
  | Callback st cb => (on_callback st cb w).2
  | Round st => (syncRouteAgentStatus st w).2
  end.

Definition agent_run {Node} (w : world) (es : list (agent_event (Node := Node))) : world := foldl agent_step w es.
End handlers.
Arguments world C : clear implicits.
Arguments mkWorld {C} _ _.
Arguments pingerController {C} _.
Arguments client {C} _.
Arguments agent_event Node : clear implicits.

(** * Lemmas *)
Section lemmas.
Context {C : Type} `{!AgentClient C} `{K8sNet} `{AdmiralSlices} {Node : Type}.
Context (DurationString : Z -> string) (failureText : Pinger.failure -> string -> string).
Context (owners : list string) (config : Config).
Abbreviation step := (agent_step (C := C) (Node := Node) DurationString failureText owners config).
Abbreviation run := (agent_run (C := C) (Node := Node) DurationString failureText owners config).
Implicit Types (w : world C) (es : list (agent_event Node)).

(** The state that a handler reads in an event. *)
Definition event_state (e : agent_event Node) : Event.HandlerState :=
  match e with Callback st _ => st | Round st => st end.

Definition to_non_gateway (e : agent_event Node) : Prop :=
  match e with Callback _ (Event.TransitionToNonGateway _) => True | _ => False end.

Definition to_gateway (e : agent_event Node) : Prop :=
  match e with Callback _ Event.TransitionToGateway => True | _ => False end.

Lemma syncRouteAgentStatus_pingers st w :
  pingerController (syncRouteAgentStatus DurationString failureText owners config st w).2 = pingerController w.
Proof. done. Qed.

Lemma remove_none (c : controller) spec : pingers c = ∅ -> pingers (EndpointRemoved spec c) = ∅.
Proof.
  unfold EndpointRemoved. generalize (SupportedIPFamilies (PingerController.config c)) as l. intros l. revert c.
  induction l as [|f l IH]; intros c Hc; [done|]. cbn [foldl]. apply IH. unfold remove_pinger.
  rewrite Hc, lookup_empty. exact Hc.
Qed.

Lemma stop_all_none c : pingers (StopAll c) = ∅.
Proof. done. Qed.

(** On a gateway no event but the transition starts a pinger. *)
Lemma gateway_step w e : HealthCheckerEnabled config = true ->
  (pingers (pingerController w) = ∅ \/ to_gateway e) -> Event.IsOnGateway (event_state e) = true ->
  ~ to_non_gateway e -> pingers (pingerController (step w e)) = ∅.
Proof.
  intros Hen Hp Hst Hno. destruct e as [st cb|st]; cbn [event_state] in Hst.
  - destruct cb; cbn in Hno; try (by destruct Hno); cbn [to_gateway] in Hp; cbn [agent_step on_callback];
      try (destruct Hp as [Hp|[]]; exact Hp).
    + unfold TransitionToGateway, mbind, eff_bind. rewrite Hen. done.
    + destruct Hp as [Hp|[]]. unfold onRemoteEndpint. by rewrite Hst, orb_true_r.
    + destruct Hp as [Hp|[]]. unfold onRemoteEndpint. by rewrite Hst, orb_true_r.
    + destruct Hp as [Hp|[]]. by apply remove_none.
    + destruct Hp as [Hp|[]]. by apply remove_none.
  - destruct Hp as [Hp|[]]. exact Hp.
Qed.

(** What a round publishes, when the client does what it is asked. *)
Lemma route_agent_published `{!AgentClientLaws C} st w ra f c' :
  ra = generateRouteAgentObject owners config
         (remote_endpoints DurationString failureText config st (pingerController w)) ->
  (forall old, ra_RemoteEndpoints (f old) = ra_RemoteEndpoints ra) ->
  agent_CreateOrUpdate ra f (client w) = (Ok tt, c') ->
  exists ra', agents c' !! LocalNodeName config = Some ra' /\ forall re, re ∈ ra_RemoteEndpoints ra' <->
    exists spec family, spec ∈ remote_specs st /\ family ∈ GetIPFamilies spec /\
      family ∈ SupportedIPFamilies (PingerController.config (pingerController w)) /\
      re = createRemoteEndpoint DurationString failureText config st (pingerController w) spec family.
Proof.
  intros -> Hf Hc. rewrite (agent_created _ _ _ _ Hc). cbn [ra_Name generateRouteAgentObject].
  rewrite lookup_insert_eq. eexists. split; [done|]. intros re.
  assert (Hin : forall o : option RouteAgent,
    ra_RemoteEndpoints (match o with Some old => f old | None => generateRouteAgentObject owners config
      (remote_endpoints DurationString failureText config st (pingerController w)) end) =
    remote_endpoints DurationString failureText config st (pingerController w)) by (intros [o|]; [apply Hf|done]).
  rewrite Hin. unfold remote_endpoints. rewrite list_elem_of_bind. split.
  - intros (spec & Hre & Hs). apply list_elem_of_fmap in Hre as (family & -> & Hfam).
    apply list_elem_of_filter in Hfam as [H1 H2]. by exists spec, family.
  - intros (spec & family & Hs & H1 & H2 & ->). exists spec. split; [|done].
    apply list_elem_of_fmap. exists family. split; [done|]. by apply list_elem_of_filter.
Qed.

(** A remote endpoint is never published as connecting: before the first answer
    or loss of its pinger its status is empty. *)
Lemma never_published_connecting st c spec family :
  re_Status (createRemoteEndpoint DurationString failureText config st c spec family) <> Connecting.
Proof.
  unfold createRemoteEndpoint, remote_status. destruct (HealthCheckerEnabled config); [|done].
  destruct (Event.IsOnGateway st); [done|]. cbn [negb]. destruct (Get spec family c) as [p|]; [|done].
  by destruct (Pinger.li_status _).
Qed.

(** * Properties *)

(** A gateway does not ping: from the transition to the gateway to the next
    transition back, whatever is created, updated or removed meanwhile, the
    handler has no pinger. *)
Lemma no_pings_on_gateway es st w : HealthCheckerEnabled config = true ->
  Forall (fun e => Event.IsOnGateway (event_state e) = true /\ ~ to_non_gateway e) es ->
  Event.IsOnGateway st = true ->
  pingers (pingerController (run w (Callback st Event.TransitionToGateway :: es))) = ∅.
Proof.
  intros Hen Hes Hst. unfold agent_run. cbn [foldl].
  assert (Hp : pingers (pingerController (step w (Callback st Event.TransitionToGateway))) = ∅).
  { apply gateway_step; [done|by right|done|]. by intros []. }
  revert Hp. generalize (step w (Callback st Event.TransitionToGateway)) as w1.
  induction Hes as [|e es [He Hno] _ IH]; intros w1 Hp; [done|]. cbn [foldl]. apply IH.
  apply gateway_step; [done|by left|done..].
Qed.
End lemmas.

(** * Witnesses *)
#[local] Existing Instance k8snet_ref.
#[local] Existing Instance slices_ref.

Definition agents_ref : AgentClient (gmap string RouteAgent) := {|
  agent_CreateOrUpdate := fun ra f m =>
    (Ok tt, <[ra_Name ra := match m !! ra_Name ra with Some old => f old | None => ra end]> m);
  agent_Delete := fun n m => match m !! n with Some _ => (Ok tt, delete n m) | None => (Err true, m) end;
|}.
#[local] Existing Instance agents_ref.

Lemma agents_ref_laws : AgentClientLaws (gmap string RouteAgent).
Proof. refine {| agents := fun m => m |}. by intros ra f c c' [= <-]. Defined.

Definition ex_agent_config : Config := mkConfig true "submariner-operator" "worker-1" "devel".
Definition ex_remote : Event.EndpointMeta :=
  Event.mkEp (mkEndpoint "west" 1
    {| ClusterID := "west"; CableName := "submariner-cable-west"; HealthCheckIP := "";
       HealthCheckIPs := ["10.2.0.1"]; Hostname := "gw"; Subnets := ["10.2.0.0/16"]; PrivateIP := "";
       PrivateIPs := ["192.168.2.1"]; PublicIP := ""; PublicIPs := []; NATEnabled := false; Backend := "vxlan";
       BackendConfig := ∅ |}) "uid-1".
Definition ex_agent : world (gmap string RouteAgent) :=
  mkWorld (mkController (mkControllerConfig [IPv4] 1 5) [] ∅) ∅.
Definition ex_worker_state : Event.HandlerState := Event.mkState false {[ "west" := ex_remote ]}.
Definition ex_gateway_state : Event.HandlerState := Event.mkState true {[ "west" := ex_remote ]}.

Definition ex_agent_events : list (agent_event unit) :=
  [Callback ex_gateway_state (Event.RemoteEndpointCreated ex_remote); Round ex_gateway_state].
Definition ex_agent_run (es : list (agent_event unit)) : world (gmap string RouteAgent) :=
  agent_run (fun _ => "1ms") (fun _ _ => "") [] ex_agent_config ex_agent es.

(** A pinger that runs on the worker is gone once the node became the gateway. *)
Lemma no_pings_on_gateway_witness :
  let created := Callback ex_worker_state (Event.RemoteEndpointCreated ex_remote) in
  pingers (pingerController (ex_agent_run [created])) <> ∅ /\
  pingers (pingerController
    (ex_agent_run (created :: Callback ex_gateway_state Event.TransitionToGateway :: ex_agent_events))) = ∅.
Proof.
  split; [vm_compute; discriminate|].
  refine (no_pings_on_gateway (fun _ => "1ms") (fun _ _ => "") [] ex_agent_config ex_agent_events ex_gateway_state
    (ex_agent_run [Callback ex_worker_state (Event.RemoteEndpointCreated ex_remote)]) _ _ _); [reflexivity| |reflexivity].
  repeat constructor; by intros [].
Defined.

(** The status that the worker publishes for it is empty. *)
Lemma fresh_status_unset :
  (fun ra => re_Status <$> ra_RemoteEndpoints ra) <$>
    (client (ex_agent_run [Callback ex_worker_state (Event.RemoteEndpointCreated ex_remote); Round ex_worker_state])
      !! "worker-1") = Some [StatusUnset].
Proof. vm_compute. reflexivity. Qed.
End AgentHealth.
