(* ===== verification/Calico.v ===== *)
(** The handler for Calico (src/pkg/routeagent_driver/handlers/calico): on the gateway
    it keeps a disabled IP pool for every IPv4 subnet of a remote endpoint, so that
    Calico does not translate the addresses of traffic to it, and on IBM's ROKS it
    changes the encapsulation of the default pool.  The API clients are classes. *)
From stdpp Require Import base gmap list strings.
From Stdlib Require String.
From Stdlib Require Import ZArith Lia Ascii.
From S2P Require Import Prelude GoNet GoStrings K8s Cidr Endpoint Event RouteAgent.
Import Endpoint Strings.
Local Open Scope Z_scope.

Module Calico.
Import Event.

Definition SubmarinerIPPool : string := "submariner.io/ippool".
Definition GwLBSvcROKSAnnotation : string := "service.kubernetes.io/ibm-load-balancer-cloud-provider-ip-type".
Definition SubmarinerManagedLabel : string := "submariner-managed".
Definition SubmarinerPrevEncapsulation : string := "submariner-prev-encapsulation".
Definition EncapsulationIPIP : string := "IPIP".

(** The fields of a pool that the handler sets. *)
Record IPPool := mkPool {
  pool_Labels : gmap string string;
  CIDR : string;
  NATOutgoing : bool;
  Disabled : bool;
  DisableBGPExport : bool;
}.

(** The fields of Tigera's Installation that it reads and writes: the annotations and
    the encapsulations of the pools of the Calico network, when it has one. *)
Record Installation := mkInst { Annotations : gmap string string; CalicoNetwork : option (list string) }.
#[global] Instance Installation_eq_dec : EqDecision Installation.
Proof. solve_decision. Defined.

Inductive api_error := AlreadyExists | NotFound | ApiOther (msg : string).

(** The clients: pools by name, the deletion of the pools with a label, the
    annotations of the gateway's service, and admiral's [Update] of the default
    Installation, whose mutation may panic. *)
Class CalicoAPI (A : Type) := {
  CreatePool : string -> IPPool -> eff A api_error unit;
  DeletePool : string -> eff A api_error unit;
  DeletePools : string -> eff A api_error unit;
  GetService : eff A api_error (gmap string string);
  UpdateInstallation : (Installation -> option Installation) -> eff A api_error unit;
}.

(** Errors of the handler; a nil pointer is not one. *)
Inductive error := Failed (what : string) | Panic.

Section handler.
Context {A : Type} `{!CalicoAPI A} `{K8sNet}.
(** [EncapsulationType.String] of Tigera's API. *)
Context (Encapsulation_String : string -> string).
Abbreviation M := (eff A error).

Definition getEndpointSubnetIPPoolName (endpoint : EndpointSpec) (subnet : string) : string :=
  "submariner-" +:+ ClusterID endpoint +:+ "-" +:+ replace_char "/" "-" subnet.

Definition new_pool (subnet : string) : IPPool := mkPool {[SubmarinerIPPool := "true"]} subnet false true true.

(** [goerrors.Join] of calls that are all made. *)
Fixpoint joined {T} (f : T -> M unit) (l : list T) : M unit :=
  match l with
  | [] => mret tt
  | x :: l =>
      r ← attempt (f x);
      _ ← joined f l;
      lift_result r
  end.

(** A call on a pool whose error of one kind is no error. *)
Definition pool_call (ignored : api_error) (what : string) (m : eff A api_error unit) : M unit := fun a =>
  match m a with
  | (Ok _, a') => (Ok tt, a')
  | (Err e, a') =>
      (match e, ignored with
       | AlreadyExists, AlreadyExists | NotFound, NotFound => Ok tt
       | _, _ => Err (Failed what)
       end, a')
  end.

Definition createIPPool (endpoint : EndpointSpec) : M unit :=
  joined (fun subnet =>
    pool_call AlreadyExists "error creating Calico IPPool" (CreatePool (getEndpointSubnetIPPoolName endpoint subnet) (new_pool subnet)))
    (Cidr.ExtractSubnets IPv4 (Subnets endpoint)).

Definition deleteIPPool (endpoint : EndpointSpec) : M unit :=
  joined (fun subnet => pool_call NotFound "error deleting Calico IPPool" (DeletePool (getEndpointSubnetIPPoolName endpoint subnet)))
    (Cidr.ExtractSubnets IPv4 (Subnets endpoint)).

Definition RemoteEndpointCreated (st : HandlerState) (endpoint : EndpointSpec) : M unit :=
  if IsOnGateway st then createIPPool endpoint else mret tt.

Definition RemoteEndpointRemoved (st : HandlerState) (endpoint : EndpointSpec) : M unit :=
  if IsOnGateway st then deleteIPPool endpoint else mret tt.

Definition TransitionToGateway (st : HandlerState) : M unit :=
  joined (fun e => createIPPool (Spec (ep_obj e))) (GetRemoteEndpoints st).

(** * The encapsulation on ROKS *)
Definition platformIsROKS : M bool := fun a =>
  match GetService a with
  | (Ok annotations, a') => (Ok (negb (zget "" annotations GwLBSvcROKSAnnotation =?? "")), a')
  | (Err NotFound, a') => (Ok false, a')
  | (Err _, a') => (Err (Failed "error reading gw lb service"), a')
  end.

Definition to_ipip (i : Installation) : option Installation :=
  Some match CalicoNetwork i with
       | Some (e :: pools) =>
           if e =?? EncapsulationIPIP then i
           else mkInst (<[SubmarinerManagedLabel := "true"]> (<[SubmarinerPrevEncapsulation := Encapsulation_String e]> (Annotations i)))
                  (Some (EncapsulationIPIP :: pools))
       | _ => i
       end.

(** A nil Calico network is not checked here. *)
Definition from_ipip (i : Installation) : option Installation :=
  let prevEncapsulation := zget "" (Annotations i) SubmarinerPrevEncapsulation in
  if prevEncapsulation =?? "" then Some i
  else match CalicoNetwork i with
       | None => None
       | Some pools =>
           Some (mkInst (delete SubmarinerPrevEncapsulation (delete SubmarinerManagedLabel (Annotations i)))
                   (Some (match pools with _ :: pools => prevEncapsulation :: pools | [] => [] end)))
       end.

Definition update_installation (what : string) (mutate : Installation -> option Installation) : M unit := fun a =>
  match UpdateInstallation mutate a with
  | (Ok _, a') => (Ok tt, a')
  | (Err (ApiOther "panic"), a') => (Err Panic, a')
  | (Err _, a') => (Err (Failed what), a')
  end.

Definition updateROKSCalicoCfg : M unit :=
  isROKS ← platformIsROKS;
  if isROKS : bool then update_installation "failed to update Installation" to_ipip else mret tt.

Definition restoreROKSCalicoCfg : M unit := update_installation "failed to restore ROKS Calico config" from_ipip.

(** The client is made and the scheme is extended with the given outcome. *)
Definition Init (client : result error unit) : M unit := _ ← lift_result client; updateROKSCalicoCfg.

Definition Uninstall : M unit :=
  _ ← pool_call NotFound "Failed to delete Calico IPPools" (DeletePools SubmarinerIPPool);
  restoreROKSCalicoCfg.
End handler.

(** A deletion and a creation do what they say; the errors that are ignored mean that
    there was nothing to do. *)
Class CalicoLaws (A : Type) `{!CalicoAPI A} := {
  pools : A -> gmap string IPPool;
  create_pool_spec : forall n p a r a', CreatePool n p a = (r, a') ->
    match r with
    | Ok _ => pools a' = <[n := p]> (pools a) /\ pools a !! n = None
    | Err AlreadyExists => pools a' = pools a /\ is_Some (pools a !! n)
    | Err _ => pools a' = pools a
    end;
  delete_pool_spec : forall n a r a', DeletePool n a = (r, a') ->
    match r with
    | Ok _ => pools a' = delete n (pools a)
    | Err NotFound => pools a' = pools a /\ pools a !! n = None
    | Err _ => pools a' = pools a
    end;
  delete_pools_spec : forall label a r a', DeletePools label a = (r, a') ->
    match r with
    | Ok _ => pools a' = base.filter (fun '(_, p) => pool_Labels p !! label <> Some "true") (pools a)
    | Err NotFound => pools a' = pools a /\ forall n p, pools a !! n = Some p -> pool_Labels p !! label <> Some "true"
    | Err _ => pools a' = pools a
    end;
}.

Section pools.
Context {A : Type} `{!CalicoAPI A} `{!CalicoLaws A} `{K8sNet}.

Definition pool_names (e : EndpointSpec) : gset string :=
  list_to_set (getEndpointSubnetIPPoolName e <$> Cidr.ExtractSubnets IPv4 (Subnets e)).

(** A pool that the handler would make for a subnet of the endpoint. *)
Definition pool_for (e : EndpointSpec) (n : string) (p : IPPool) : Prop :=
  exists subnet, subnet ∈ Subnets e /\ n = getEndpointSubnetIPPoolName e subnet /\ p = new_pool subnet.

Lemma joined_inv {T} (f : T -> eff A error unit) x l a r a' : joined f (x :: l) a = (r, a') ->
  exists r1 r2 a1, f x a = (r1, a1) /\ joined f l a1 = (r2, a') /\ (r = Ok tt -> r1 = Ok tt /\ r2 = Ok tt).
Proof.
  cbn [joined]. unfold attempt, mbind, eff_bind, lift_result. destruct (f x a) as [r1 a1].
  destruct (joined f l a1) as [r2 a2] eqn:E. destruct r2 as [[]|e2]; intros [= <- <-]; exists r1; eauto 10.
  by exists (Err e2), a1.
Qed.

Definition create_one (e : EndpointSpec) (subnet : string) : eff A error unit :=
  pool_call AlreadyExists "error creating Calico IPPool" (CreatePool (getEndpointSubnetIPPoolName e subnet) (new_pool subnet)).

Definition delete_one (e : EndpointSpec) (subnet : string) : eff A error unit :=
  pool_call NotFound "error deleting Calico IPPool" (DeletePool (getEndpointSubnetIPPoolName e subnet)).

(** What a call leaves: pools of before or made for the endpoint, no change to other
    names, and on success the names with [f]. *)
Definition call_leaves (made : string -> IPPool -> Prop) (names : gset string) (f : gset string -> gset string) (r : result error unit) (a a' : A) : Prop :=
  (forall n p, pools a' !! n = Some p -> pools a !! n = Some p \/ made n p) /\
  (forall n, n ∉ names -> n ∈ dom (pools a') <-> n ∈ dom (pools a)) /\
  (r = Ok tt -> dom (pools a') = f (dom (pools a))).

Lemma create_one_spec e subnet a r a' : create_one e subnet a = (r, a') ->
  let n := getEndpointSubnetIPPoolName e subnet in
  call_leaves (fun n' p => n' = n /\ p = new_pool subnet) {[n]} (fun s => {[n]} ∪ s) r a a'.
Proof.
  unfold create_one, pool_call. destruct (CreatePool _ _ a) as [[u|err] a1] eqn:E; apply create_pool_spec in E.
  - intros [= <- <-]. destruct E as [E _]. unfold call_leaves. rewrite E, dom_insert_L. split; [|split; [set_solver|done]].
    intros n p [[<- <-]|[_ Hp]]%lookup_insert_Some; auto.
  - unfold call_leaves. destruct err; intros [= <- <-]; [destruct E as [-> E]|rewrite E..]; (split; [auto|split; [done|]]); intros Hr; try done.
    apply elem_of_dom in E. set_solver.
Qed.

Lemma delete_one_spec e subnet a r a' : delete_one e subnet a = (r, a') ->
  let n := getEndpointSubnetIPPoolName e subnet in
  call_leaves (fun _ _ => False) {[n]} (fun s => s ∖ {[n]}) r a a'.
Proof.
  unfold delete_one, pool_call. destruct (DeletePool _ a) as [[u|err] a1] eqn:E; apply delete_pool_spec in E.
  - intros [= <- <-]. unfold call_leaves. rewrite E, dom_delete_L. split; [|split; [set_solver|done]].
    intros n p [_ ?]%lookup_delete_Some. by left.
  - unfold call_leaves. destruct err; intros [= <- <-]; [rewrite E|destruct E as [-> E]|rewrite E]; (split; [auto|split; [done|]]); intros Hr; try done.
    apply not_elem_of_dom in E. set_solver.
Qed.

(** The calls for the subnets of an endpoint, one after the other. *)
Lemma joined_leaves (f : string -> eff A error unit) (name : string -> string) (made : string -> string -> IPPool -> Prop) (add : bool) :
  (forall t a r a', f t a = (r, a') ->
     call_leaves (made t) {[name t]} (fun s => if add then {[name t]} ∪ s else s ∖ {[name t]}) r a a') ->
  forall l a r a', joined f l a = (r, a') ->
  call_leaves (fun n p => exists t, t ∈ l /\ made t n p) (list_to_set (name <$> l))
    (fun s => if add then list_to_set (name <$> l) ∪ s else s ∖ list_to_set (name <$> l)) r a a'.
Proof.
  intros Hf. induction l as [|t l IH]; intros a r a' Hr.
  - injection Hr as <- <-. split; [auto|]. split; [done|]. intros _. destruct add; set_solver.
  - apply joined_inv in Hr as (r1 & r2 & a1 & E & Hr & Hok). apply Hf in E as (E1 & E2 & E3).
    apply IH in Hr as (H1 & H2 & H3). split; [|split].
    + intros n p Hp. apply H1 in Hp as [Hp|(t' & Ht' & Hm)]; [|right; exists t'; split; [by right|done]].
      apply E1 in Hp as [?|Hm]; [by left|right]. exists t. split; [by left|done].
    + intros n Hn. cbn in Hn. rewrite H2, E2; set_solver.
    + intros Hr'. apply Hok in Hr' as [-> ->]. rewrite H3, E3 by done. cbn. destruct add; set_solver.
Qed.

Lemma extract_elem l t : t ∈ Cidr.ExtractSubnets IPv4 l -> t ∈ l.
Proof.
  induction l as [|x l IH]; cbn; [done|]. case_bool_decide; [rewrite !elem_of_cons; naive_solver|]. intros Ht. right. auto.
Qed.

(** * The gateway's handler over any events *)
Definition handle (st : HandlerState) (ev : bool * EndpointSpec) : eff A error unit :=
  if ev.1 then RemoteEndpointCreated st ev.2 else RemoteEndpointRemoved st ev.2.

Definition names_after (s : gset string) (ev : bool * EndpointSpec) : gset string :=
  if ev.1 then pool_names ev.2 ∪ s else s ∖ pool_names ev.2.

(** Events, of which one that fails is handled again until it succeeds. *)
Inductive handled (st : HandlerState) : list (bool * EndpointSpec) -> A -> A -> Prop :=
| handled_nil a : handled st [] a a
| handled_retry ev evs a e a1 a' : handle st ev a = (Err e, a1) -> handled st (ev :: evs) a1 a' -> handled st (ev :: evs) a a'
| handled_ok ev evs a a1 a' : handle st ev a = (Ok tt, a1) -> handled st evs a1 a' -> handled st (ev :: evs) a a'.

Lemma handle_spec st ev a r a' : IsOnGateway st = true -> handle st ev a = (r, a') ->
  call_leaves (pool_for ev.2) (pool_names ev.2) (fun s => names_after s ev) r a a'.
Proof.
  intros Hst Hr. unfold handle, RemoteEndpointCreated, RemoteEndpointRemoved in Hr. rewrite Hst in Hr.
  unfold names_after, pool_names. destruct ev as [[] e]; cbn [fst snd] in *.
  - apply (joined_leaves (create_one e) (getEndpointSubnetIPPoolName e) (fun t n p => n = getEndpointSubnetIPPoolName e t /\ p = new_pool t) true)
      in Hr as (H1 & H2 & H3); [|intros; by apply create_one_spec].
    split; [|by split]. intros n p Hp. apply H1 in Hp as [?|(t & Ht & ? & ?)]; [by left|right]. exists t.
    split; [by apply extract_elem|done].
  - apply (joined_leaves (delete_one e) (getEndpointSubnetIPPoolName e) (fun _ _ _ => False) false)
      in Hr as (H1 & H2 & H3); [|intros; by apply delete_one_spec].
    split; [|by split]. intros n p Hp. apply H1 in Hp as [?|(t & Ht & [])]. by left.
Qed.

(** C30: On the gateway, after any creations and removals of remote endpoints, each
    repeated until it succeeds, there is a pool exactly for the IPv4 subnets that were
    announced and not withdrawn since and for what was there before; every pool that was
    not there is a disabled one for a subnet of one of the endpoints. *)
Theorem pools_follow_endpoints st evs a a' : IsOnGateway st = true -> handled st evs a a' ->
  dom (pools a') = foldl names_after (dom (pools a)) evs /\
  forall n p, pools a' !! n = Some p -> pools a !! n = Some p \/ exists ev, ev ∈ evs /\ pool_for ev.2 n p.
Proof.
  intros Hst. induction 1 as [a|ev evs a e a1 a' E _ [IH1 IH2]|ev evs a a1 a' E _ [IH1 IH2]]; [split; [done|auto]|..];
    apply handle_spec in E as (E1 & E2 & E3); try done.
  - split.
    + rewrite IH1. cbn. f_equal. unfold names_after. apply set_eq. intros n. specialize (E2 n). destruct ev.1; [rewrite !elem_of_union|rewrite !elem_of_difference].
      * destruct (decide (n ∈ pool_names ev.2)); [tauto|]. rewrite E2 by done. done.
      * split; intros [Hn Hp]; (split; [|done]); by apply E2.
    + intros n p Hp. apply IH2 in Hp as [Hp|?]; [|by right]. apply E1 in Hp as [?|?]; [by left|right]. exists ev. split; [by left|done].
  - split.
    + rewrite IH1. cbn. by rewrite E3.
    + intros n p Hp. apply IH2 in Hp as [Hp|(ev' & Hev & ?)]; [|right; exists ev'; split; [by right|done]].
      apply E1 in Hp as [?|?]; [by left|right]. exists ev. split; [by left|done].
Qed.
End pools.

(** * The encapsulation is restored *)
Section roks.
Context (Encapsulation_String : string -> string) (prints : forall e, Encapsulation_String e = e).

(** Submariner's annotations are not there before. *)
Definition unmarked (i : Installation) : Prop :=
  Annotations i !! SubmarinerPrevEncapsulation = None /\ Annotations i !! SubmarinerManagedLabel = None.

Lemma iter_fixed (g : Installation -> option Installation) x n : g x = Some x ->
  Nat.iter n (fun o => o ≫= g) (Some x) = Some x.
Proof. intros Hg. induction n as [|n IH]; [done|]. by rewrite Nat.iter_succ, IH. Qed.

(** However often the change is made, undoing it gives the installation back, when its
    first pool has an encapsulation. *)
Lemma encapsulation_restored i n : unmarked i ->
  (forall e l, CalicoNetwork i = Some (e :: l) -> e <> "") ->
  Nat.iter n (fun o => o ≫= to_ipip Encapsulation_String) (Some i) ≫= from_ipip = Some i.
Proof.
  intros [Hp Hm] He. assert (Hsame : from_ipip i = Some i) by (unfold from_ipip, zget; by rewrite Hp).
  destruct (decide (to_ipip Encapsulation_String i = Some i)) as [Hf|Hf]; [by rewrite iter_fixed|].
  destruct i as [an [[|e l]|]]; cbn in *; try done.
  unfold to_ipip in Hf. cbn in Hf. destruct (decide (e = EncapsulationIPIP)) as [->|Hne]; [by rewrite bool_decide_true in Hf|].
  destruct n as [|n]; [done|]. rewrite Nat.iter_succ_r. cbn [mbind option_bind].
  set (i' := mkInst (<[SubmarinerManagedLabel := "true"]> (<[SubmarinerPrevEncapsulation := e]> an)) (Some (EncapsulationIPIP :: l))).
  assert (to_ipip Encapsulation_String (mkInst an (Some (e :: l))) = Some i') as ->.
  { unfold to_ipip. cbn. by rewrite bool_decide_false, prints. }
  rewrite iter_fixed by done. cbn. unfold from_ipip, zget. cbn [i' Annotations CalicoNetwork].
  rewrite lookup_insert_ne, lookup_insert_eq by done. cbn [default from_option id].
  rewrite bool_decide_false by (by eapply He). rewrite delete_insert_id by (by rewrite lookup_insert_ne). by rewrite delete_insert_id.
Qed.

(** A pool whose encapsulation is the default one is changed and never changed back. *)
Lemma default_encapsulation_lost an l : an !! SubmarinerPrevEncapsulation = None ->
  exists i', to_ipip Encapsulation_String (mkInst an (Some ("" :: l))) = Some i' /\
    CalicoNetwork i' = Some (EncapsulationIPIP :: l) /\ from_ipip i' = Some i'.
Proof.
  intros Hp. exists (mkInst (<[SubmarinerManagedLabel := "true"]> (<[SubmarinerPrevEncapsulation := ""]> an)) (Some (EncapsulationIPIP :: l))).
  split; [unfold to_ipip; cbn; by rewrite prints|]. split; [done|]. unfold from_ipip, zget. cbn [Annotations].
  by rewrite lookup_insert_ne, lookup_insert_eq by done.
Qed.
End roks.

(** * A cluster *)
Definition cluster : Type := gmap string IPPool * Installation.

Definition cluster_api : CalicoAPI cluster := {|
  CreatePool := fun n p a =>
    match a.1 !! n with Some _ => (Err AlreadyExists, a) | None => (Ok tt, (<[n := p]> a.1, a.2)) end;
  DeletePool := fun n a =>
    match a.1 !! n with Some _ => (Ok tt, (delete n a.1, a.2)) | None => (Err NotFound, a) end;
  DeletePools := fun label a =>
    (Ok tt, (base.filter (fun '(_, p) => pool_Labels p !! label <> Some "true") a.1, a.2));
  GetService := fun a => (Ok {[GwLBSvcROKSAnnotation := "public"]}, a);
  UpdateInstallation := fun mutate a =>
    match mutate a.2 with Some i => (Ok tt, (a.1, i)) | None => (Err (ApiOther "panic"), a) end;
|}.
#[local] Existing Instance cluster_api.

#[local] Instance cluster_laws : CalicoLaws cluster.
Proof.
  refine {| pools := fst |}.
  - intros n p a r a' E. cbn in E. destruct (a.1 !! n) eqn:Hn; injection E as <- <-; [|done]. split; [done|by eexists].
  - intros n a r a' E. cbn in E. destruct (a.1 !! n) eqn:Hn; by injection E as <- <-.
  - by intros label a r a' [= <- <-].
Defined.
#[local] Existing Instance k8snet_ref.

Definition ex_remote (cluster : string) (subnets : list string) : EndpointSpec :=
  {| ClusterID := cluster; CableName := cluster +:+ "-cable"; HealthCheckIP := ""; HealthCheckIPs := [];
     Hostname := "gw-" +:+ cluster; Subnets := subnets; PrivateIP := "192.168.1.1"; PrivateIPs := [];
     PublicIP := ""; PublicIPs := []; NATEnabled := false; Backend := "vxlan"; BackendConfig := ∅ |}.

Definition ex_events : list (bool * EndpointSpec) :=
  [(true, ex_remote "west" ["10.4.0.0/16"; "fd00:4::/64"]); (true, ex_remote "north" ["10.5.0.0/16"; "172.31.0.0/16"]);
   (false, ex_remote "west" ["10.4.0.0/16"; "fd00:4::/64"])].

Definition ex_cluster : cluster := (∅, mkInst ∅ (Some ["None"])).

Definition ex_after (evs : list (bool * EndpointSpec)) : cluster :=
  foldl (fun a ev => (handle (mkState true ∅) ev a).2) ex_cluster evs.

Lemma pools_follow_endpoints_witness :
  dom (pools (ex_after ex_events)) = {["submariner-north-10.5.0.0-16"; "submariner-north-172.31.0.0-16"]}.
Proof.
  assert (Hh : handled (mkState true ∅) ex_events ex_cluster (ex_after ex_events)).
  { unfold ex_events. repeat (eapply handled_ok; [vm_compute; reflexivity|]). apply handled_nil. }
  rewrite (proj1 (pools_follow_endpoints (mkState true ∅) ex_events ex_cluster (ex_after ex_events) eq_refl Hh)).
  apply (bool_decide_unpack _). vm_compute. reflexivity.
Defined.
End Calico.
