(* ===== verification/OvnRoutes.v ===== *)
(** The routes of a cluster with OVN (src/pkg/routeagent_driver/handlers/ovn): the
    handlers that publish GatewayRoute and NonGatewayRoute objects on the gateway
    (gateway_route_handler.go, non_gateway_route_handler.go, transit_switch_ip.go),
    the controllers that read them on every node (gateway_route_controller.go,
    non_gateway_route_controller.go) and the logical router policies and static
    routes they keep in the northbound database (ovn_logical_routes.go).  The
    database's library and the API client are classes. *)
From stdpp Require Import base gmap list strings.
From Stdlib Require String.
From Stdlib Require Import ZArith Lia Ascii Permutation.
From S2P Require Import Prelude GoNet GoStrings K8s Cidr Endpoint Event RouteAgent.
Import Strings.
Local Open Scope Z_scope.

(** * The northbound database *)
Record LogicalRouterPolicy := mkLRP {
  lrp_Priority : Z;
  lrp_Action : string;
  lrp_Match : string;
  lrp_Nexthops : list string;
  lrp_Nexthop : option string;
  lrp_ExternalIDs : gmap string string;
}.

Record LogicalRouterStaticRoute := mkLRSR {
  lrsr_Nexthop : string;
  lrsr_IPPrefix : string;
  lrsr_ExternalIDs : gmap string string;
}.

(** libovsdbops on the rows of the cluster's router. *)
Class NorthboundDB (W : Type) := {
  DeleteLogicalRouterPoliciesWithPredicate : (LogicalRouterPolicy -> bool) -> eff W string unit;
  CreateOrUpdateLogicalRouterPolicyWithPredicate :
    LogicalRouterPolicy -> (LogicalRouterPolicy -> bool) -> eff W string unit;
  DeleteLogicalRouterStaticRoutesWithPredicate : (LogicalRouterStaticRoute -> bool) -> eff W string unit;
  CreateOrUpdateLogicalRouterStaticRoutesWithPredicate :
    LogicalRouterStaticRoute -> (LogicalRouterStaticRoute -> bool) -> eff W string unit;
}.

(** An update replaces the fields that are not at their default. *)
Definition merge_lrp (old new : LogicalRouterPolicy) : LogicalRouterPolicy :=
  mkLRP (if lrp_Priority new =? 0 then lrp_Priority old else lrp_Priority new)
    (if lrp_Action new =?? "" then lrp_Action old else lrp_Action new)
    (if lrp_Match new =?? "" then lrp_Match old else lrp_Match new)
    (if lrp_Nexthops new =?? [] then lrp_Nexthops old else lrp_Nexthops new)
    (match lrp_Nexthop new with Some n => Some n | None => lrp_Nexthop old end)
    (if lrp_ExternalIDs new =?? ∅ then lrp_ExternalIDs old else lrp_ExternalIDs new).

Definition merge_lrsr (old new : LogicalRouterStaticRoute) : LogicalRouterStaticRoute :=
  mkLRSR (if lrsr_Nexthop new =?? "" then lrsr_Nexthop old else lrsr_Nexthop new)
    (if lrsr_IPPrefix new =?? "" then lrsr_IPPrefix old else lrsr_IPPrefix new)
    (if lrsr_ExternalIDs new =?? ∅ then lrsr_ExternalIDs old else lrsr_ExternalIDs new).

(** A row is created when none matches, and the one that matches is updated. *)
Definition upserted {A} (merge : A -> A -> A) (x : A) (p : A -> bool) (l l' : list A) : Prop :=
  (Forall (fun y => p y = false) l /\ l' ≡ₚ x :: l) \/
  (exists old rest, l ≡ₚ old :: rest /\ p old = true /\ Forall (fun y => p y = false) rest /\ l' ≡ₚ merge old x :: rest).

(** A call is a transaction: it does what it says or nothing.  The rows have no order. *)
Class NorthboundLaws (W : Type) `{!NorthboundDB W} := {
  policies : W -> list LogicalRouterPolicy;
  static_routes : W -> list LogicalRouterStaticRoute;
  delete_policies_spec : forall p w r w', DeleteLogicalRouterPoliciesWithPredicate p w = (r, w') ->
    static_routes w' = static_routes w /\
    match r with Ok _ => policies w' ≡ₚ filter (fun y => p y = false) (policies w) | Err _ => policies w' = policies w end;
  upsert_policy_spec : forall x p w r w', CreateOrUpdateLogicalRouterPolicyWithPredicate x p w = (r, w') ->
    static_routes w' = static_routes w /\
    match r with Ok _ => upserted merge_lrp x p (policies w) (policies w') | Err _ => policies w' = policies w end;
  delete_static_spec : forall p w r w', DeleteLogicalRouterStaticRoutesWithPredicate p w = (r, w') ->
    policies w' = policies w /\
    match r with
    | Ok _ => static_routes w' ≡ₚ filter (fun y => p y = false) (static_routes w)
    | Err _ => static_routes w' = static_routes w
    end;
  upsert_static_spec : forall x p w r w', CreateOrUpdateLogicalRouterStaticRoutesWithPredicate x p w = (r, w') ->
    policies w' = policies w /\
    match r with
    | Ok _ => upserted merge_lrsr x p (static_routes w) (static_routes w')
    | Err _ => static_routes w' = static_routes w
    end;
}.

(** * The API objects *)
Record RoutePolicySpec := mkRPS { NextHops : list string; RemoteCIDRs : list string }.

#[global] Instance RoutePolicySpec_eq_dec : EqDecision RoutePolicySpec.
Proof. solve_decision. Defined.

Inductive api_error := NotFound | ApiOther (msg : string).

(** The client of one of the two kinds of objects, in the endpoints' namespace;
    [CreateOrUpdate] is admiral's, with the object replacing the existing one, and
    [Update] changes an object that exists. *)
Class RouteClient (A : Type) := {
  CreateOrUpdate : string -> RoutePolicySpec -> eff A api_error unit;
  DeleteRoute : string -> eff A api_error unit;
  UpdateRoute : string -> (RoutePolicySpec -> RoutePolicySpec) -> eff A api_error unit;
}.

Class RouteClientLaws (A : Type) `{!RouteClient A} := {
  route_objects : A -> gmap string RoutePolicySpec;
  create_or_update_spec : forall n s a r a', CreateOrUpdate n s a = (r, a') ->
    route_objects a' = match r with Ok _ => <[n := s]> (route_objects a) | Err _ => route_objects a end;
  delete_route_spec : forall n a r a', DeleteRoute n a = (r, a') ->
    match r with
    | Ok _ => route_objects a' = delete n (route_objects a)
    | Err NotFound => route_objects a' = route_objects a /\ route_objects a !! n = None
    | Err _ => route_objects a' = route_objects a
    end;
  update_route_spec : forall n f a r a', UpdateRoute n f a = (r, a') ->
    route_objects a' = match r with Ok _ => alter f n (route_objects a) | Err _ => route_objects a end;
}.

Module OvnRoutes.
Import Endpoint Event.

Definition ovnRoutePoliciesPrioV4 : Z := 20000.
Definition ovnRoutePoliciesPrioV6 : Z := 20100.
Definition SubmarinerExternalIDKey : string := "submariner".

Section logical_routes.
Context {W : Type} `{!NorthboundDB W}.
(** [versions.Submariner()], and the order in which a set is listed. *)
Context (version : string) (UnsortedList : gset string -> list string) (family : IPFamily).

(** * Logical routes (ovn_logical_routes.go) *)
Definition has_key (ids : gmap string string) : bool := bool_decide (is_Some (ids !! SubmarinerExternalIDKey)).

Definition staleLRSRPred (remoteSubnets : gset string) (nextHop : string) (item : LogicalRouterStaticRoute) : bool :=
  if has_key (lrsr_ExternalIDs item) then
    (lrsr_Nexthop item =?? nextHop) && negb (bool_decide (lrsr_IPPrefix item ∈ remoteSubnets)) ||
    negb (lrsr_Nexthop item =?? nextHop) && bool_decide (lrsr_IPPrefix item ∈ remoteSubnets)
  else false.

Definition build_lrsr (nextHop subnet : string) : LogicalRouterStaticRoute :=
  mkLRSR nextHop subnet {[SubmarinerExternalIDKey := version]}.

Definition buildLRSRsFromSubnets (subnetsToAdd : list string) (nextHop : string) : list LogicalRouterStaticRoute :=
  map (build_lrsr nextHop) subnetsToAdd.

Definition LRSRPred (nextHop : string) (lrsr item : LogicalRouterStaticRoute) : bool :=
  (lrsr_Nexthop item =?? nextHop) && (lrsr_IPPrefix item =?? lrsr_IPPrefix lrsr).

Definition reconcileOvnLogicalRouterStaticRoutes (remoteSubnets : gset string) (nextHop : string) : eff W string unit :=
  _ ← DeleteLogicalRouterStaticRoutesWithPredicate (staleLRSRPred remoteSubnets nextHop);
  for_each (fun lrsr => CreateOrUpdateLogicalRouterStaticRoutesWithPredicate lrsr (LRSRPred nextHop lrsr))
    (buildLRSRsFromSubnets (UnsortedList remoteSubnets) nextHop).

Definition policy_priority : Z := if family =?? IPv6 then ovnRoutePoliciesPrioV6 else ovnRoutePoliciesPrioV4.

Definition ipMatchField : string := if family =?? IPv6 then "ip6.dst" else "ip4.dst".

Definition build_lrp (priority : Z) (nextHop subnet : string) : LogicalRouterPolicy :=
  mkLRP priority "reroute" (ipMatchField +:+ " == " +:+ subnet) [nextHop] None {[SubmarinerExternalIDKey := version]}.

Definition buildLRPsFromSubnets (subnetsToAdd : list string) (nextHop : string) (priority : Z) : list LogicalRouterPolicy :=
  map (build_lrp priority nextHop) subnetsToAdd.

Definition lrpStalePredicate (remoteSubnets : gset string) (nextHop : string) (item : LogicalRouterPolicy) : bool :=
  if has_key (lrp_ExternalIDs item) then
    if lrp_Priority item =? policy_priority then
      match Split " " (lrp_Match item) with
      | _ :: _ :: subnet :: _ =>
          negb (bool_decide (subnet ∈ remoteSubnets)) || negb (lrp_Nexthops item =?? [nextHop]) ||
          bool_decide (is_Some (lrp_Nexthop item))
      | _ => false
      end
    else false
  else false.

Definition lrpSubPredicate (lrp item : LogicalRouterPolicy) : bool :=
  (lrp_Priority item =? lrp_Priority lrp) && (lrp_Match item =?? lrp_Match lrp) && (lrp_Nexthops item =?? lrp_Nexthops lrp).

Definition reconcileSubOvnLogicalRouterPolicies (remoteSubnets : gset string) (nextHop : string) : eff W string unit :=
  _ ← DeleteLogicalRouterPoliciesWithPredicate (lrpStalePredicate remoteSubnets nextHop);
  for_each (fun lrp => CreateOrUpdateLogicalRouterPolicyWithPredicate lrp (lrpSubPredicate lrp))
    (buildLRPsFromSubnets (UnsortedList remoteSubnets) nextHop policy_priority).

(** * The controllers of the two kinds of objects

    Their state is the set of remote subnets, beside the database. *)
Record controller := mkController { remoteSubnets : gset string; ovn_db : W }.

Definition on_db {A} (m : eff W string A) : eff controller string A := fun c =>
  let '(r, w) := m (ovn_db c) in (r, mkController (remoteSubnets c) w).

Context `{K8sNet}.

Definition change_subnets (addSubnet : bool) (cidrs : list string) (c : controller) : controller :=
  mkController (foldl (fun s subnet => if addSubnet then {[subnet]} ∪ s else s ∖ {[subnet]}) (remoteSubnets c) cidrs) (ovn_db c).

(** GatewayRouteController.reconcileRemoteSubnets *)
Definition gateway_reconcileRemoteSubnets (mgmtIP : string) (route : RoutePolicySpec) (addSubnet : bool) :
    eff controller string unit :=
  match NextHops route with
  | [] => mret tt
  | nextHop :: _ =>
      if negb (nextHop =?? mgmtIP) then mret tt
      else
        _ ← modifyw (change_subnets addSubnet
                       (List.filter (fun subnet => IPFamilyOfCIDRString subnet =?? family) (RemoteCIDRs route)));
        c ← getw;
        _ ← on_db (reconcileSubOvnLogicalRouterPolicies (remoteSubnets c) mgmtIP);
        on_db (reconcileOvnLogicalRouterStaticRoutes (remoteSubnets c) mgmtIP)
  end.

(** NonGatewayRouteController.reconcileRemoteSubnets *)
Definition nongateway_reconcileRemoteSubnets (transitSwitchIP : string) (route : RoutePolicySpec) (addSubnet : bool) :
    eff controller string unit :=
  match NextHops route with
  | [] => mret tt
  | nextHop :: _ =>
      if negb (IPFamilyOfString nextHop =?? family) then mret tt
      else if nextHop =?? transitSwitchIP then mret tt
      else
        _ ← modifyw (change_subnets addSubnet (RemoteCIDRs route));
        c ← getw;
        on_db (reconcileSubOvnLogicalRouterPolicies (remoteSubnets c) nextHop)
  end.

(** The watcher's callbacks: an event whose handling fails is delivered again. *)
Definition requeue (m : eff controller string unit) : eff controller string bool :=
  r ← attempt m; mret (is_err r).

Definition gatewayRouteCreatedOrUpdated mgmtIP route := requeue (gateway_reconcileRemoteSubnets mgmtIP route true).
Definition gatewayRouteDeleted mgmtIP route := requeue (gateway_reconcileRemoteSubnets mgmtIP route false).
Definition nonGatewayRouteCreatedOrUpdated ip route := requeue (nongateway_reconcileRemoteSubnets ip route true).
Definition nonGatewayRouteDeleted ip route := requeue (nongateway_reconcileRemoteSubnets ip route false).
End logical_routes.

(** * The transit switch address (transit_switch_ip.go, utils.go) *)
Definition OvnTransitSwitchIPAnnotation : string := "k8s.ovn.org/node-transit-switch-port-ifaddr".

Record Node := mkNode { node_Name : string; node_Annotations : gmap string string }.

Section handlers.
Context {A : Type} `{!RouteClient A} `{K8sNet}.
(** [json.Unmarshal] into a map of strings, the local node's name and the family. *)
Context (Unmarshal : string -> option (gmap string string)) (NODE_NAME : string) (family : IPFamily).

Definition jsonToIP (jsonData : string) : result string string :=
  match Unmarshal jsonData with
  | None => Err "error unmarshalling the JSON IP"
  | Some data =>
      let ipStr := zget "" data ("ipv" +:+ family_str family) in
      if ipStr =?? "" then Err "JSON data does not contain the field"
      else match Net.ParseCIDR ipStr, Net.cut_slash (chars ipStr) with
           | Some _, Some (addr, _) => Ok (Net.ip_string (Net.ParseIP (text addr)))
           | _, _ => Err "invalid IP CIDR address"
           end
  end.

(** [familySuffix] *)
Definition familySuffix : string := if family =?? IPv6 then "-v6" else "".

(** The address kept by the handler: the result tells whether it changed. *)
Definition transit_UpdateFrom (node : Node) : eff string string bool := fun value =>
  if negb (node_Name node =?? NODE_NAME) then (Ok false, value)
  else match node_Annotations node !! OvnTransitSwitchIPAnnotation with
       | None => (Ok false, value)
       | Some json =>
           match jsonToIP json with
           | Err e => (Err "error parsing the transit switch IP", value)
           | Ok ip => (Ok (negb (ip =?? value)), ip)
           end
       end.

Definition transit_Init (GetLocalNode : result string Node) : eff string string unit :=
  node ← lift_result GetLocalNode; _ ← transit_UpdateFrom node; mret tt.

(** * The handler of gateway routes (gateway_route_handler.go)

    [nextHopIP] is the address of the management interface that Init reads. *)
Definition route_name (endpoint : EndpointSpec) : string := ClusterID endpoint +:+ familySuffix.

Definition newRoute (nextHop : string) (endpoint : EndpointSpec) : option RoutePolicySpec :=
  match Cidr.ExtractSubnets family (Subnets endpoint) with
  | [] => None
  | famCIDRs => Some (mkRPS [nextHop] famCIDRs)
  end.

Definition wrap_api {T} (m : eff A api_error T) : eff A string T := fun a =>
  let '(r, a') := m a in (map_err (fun e => match e with NotFound => "not found" | ApiOther m => m end) r, a').

(** [if err != nil && !apierrors.IsNotFound(err)] *)
Definition delete_ignoring_missing (name : string) : eff A string unit := fun a =>
  match DeleteRoute name a with
  | (Err (ApiOther m), a') => (Err m, a')
  | (_, a') => (Ok tt, a')
  end.

Definition publish (nextHop : string) (endpoint : EndpointSpec) : eff A string unit :=
  match newRoute nextHop endpoint with
  | None => mret tt
  | Some route => wrap_api (CreateOrUpdate (route_name endpoint) route)
  end.

Definition gw_RemoteEndpointCreated (st : HandlerState) (nextHopIP : string) (endpoint : EndpointSpec) : eff A string unit :=
  if IsOnGateway st then publish nextHopIP endpoint else mret tt.

Definition gw_RemoteEndpointRemoved (st : HandlerState) (endpoint : EndpointSpec) : eff A string unit :=
  if IsOnGateway st then delete_ignoring_missing (route_name endpoint) else mret tt.

(** The object with the endpoint's name is one of a version before 0.16.3. *)
Definition gw_TransitionToGateway (st : HandlerState) (nextHopIP : string) : eff A string unit :=
  for_each (fun endpoint =>
    _ ← delete_ignoring_missing (ep_key endpoint);
    publish nextHopIP (Spec (ep_obj endpoint))) (GetRemoteEndpoints st).

(** * The handler of non-gateway routes (non_gateway_route_handler.go) *)
Definition ngw_RemoteEndpointCreated (st : HandlerState) (transit : string) (endpoint : EndpointSpec) : eff A string unit :=
  if negb (IsOnGateway st) || (transit =?? "") then mret tt else publish transit endpoint.

Definition ngw_RemoteEndpointRemoved (st : HandlerState) (transit : string) (endpoint : EndpointSpec) : eff A string unit :=
  if negb (IsOnGateway st) || (transit =?? "") then mret tt else delete_ignoring_missing (route_name endpoint).

Definition ngw_TransitionToGateway (st : HandlerState) (transit : string) : eff A string unit :=
  if transit =?? "" then mret tt
  else for_each (fun endpoint =>
         _ ← delete_ignoring_missing (ep_key endpoint);
         publish transit (Spec (ep_obj endpoint))) (GetRemoteEndpoints st).

(** An error of the new address is only logged. *)
Definition ngw_NodeUpdated (st : HandlerState) (node : Node) : eff (string * A) string unit := fun w =>
  let '(r, transit) := transit_UpdateFrom node w.1 in
  match r with
  | Ok true =>
      if negb (IsOnGateway st) then (Ok tt, (transit, w.2))
      else
        let '(r, a) := for_each (fun endpoint =>
               match newRoute transit (Spec (ep_obj endpoint)) with
               | None => mret tt
               | Some route =>
                   wrap_api (UpdateRoute (route_name (Spec (ep_obj endpoint))) (fun existing => mkRPS [transit] (RemoteCIDRs existing)))
               end) (GetRemoteEndpoints st) w.2 in
        (r, (transit, a))
  | _ => (Ok tt, (transit, w.2))
  end.
End handlers.

(** * Rows that are kept, created and updated *)
Section rows.
Context {A : Type} (merge : A -> A -> A) (p : A -> A -> bool).

(** The rows after the items were upserted one after the other. *)
Inductive upserts : list A -> list A -> list A -> Prop :=
| upserts_nil l : upserts [] l l
| upserts_cons x xs l l1 l2 : upserted merge x (p x) l l1 -> upserts xs l1 l2 -> upserts (x :: xs) l l2.

(** Old rows that all match one of the items become the items, and rows that match
    none stay. *)
Lemma upserts_exact xs : NoDup xs ->
  (forall x x' y, x ∈ xs -> x' ∈ xs -> p x y = true -> p x' y = true -> x = x') ->
  (forall x, x ∈ xs -> p x x = true) ->
  forall old rest l l', l ≡ₚ old ++ rest ->
    (forall y, y ∈ old -> exists x, x ∈ xs /\ p x y = true) ->
    (forall x y, x ∈ xs -> y ∈ old -> p x y = true -> merge y x = x) ->
    (forall x y, x ∈ xs -> y ∈ rest -> p x y = false) ->
    upserts xs l l' -> l' ≡ₚ xs ++ rest.
Proof.
  induction xs as [|x xs IH]; intros Hnd Hdet Hself old rest l l' Hl Hold Hmerge Hrest Hup.
  - inversion Hup; subst. rewrite Hl. destruct old as [|y old]; [done|].
    destruct (Hold y) as (x & Hx & _); [by left|]. inversion Hx.
  - apply NoDup_cons in Hnd as [Hx Hnd]. inversion Hup as [|? ? ? l1 ? Hu Hups]; subst.
    assert (Hdet' : forall x0 x' y, x0 ∈ xs -> x' ∈ xs -> p x0 y = true -> p x' y = true -> x0 = x')
      by (intros; eapply Hdet; eauto; by right).
    assert (Hself' : forall x, x ∈ xs -> p x x = true) by (intros; apply Hself; by right).
    assert (Hxx : forall x', x' ∈ xs -> p x' x = false).
    { intros x' Hx'. destruct (p x' x) eqn:E; [|done]. exfalso. apply Hx.
      rewrite (Hdet x x' x); [done|by left|by right|apply Hself; by left|done]. }
    destruct Hu as [[Hno Hl1]|(o & r & Hlo & Hpo & Hno & Hl1)]; rewrite Forall_forall in Hno.
    + rewrite (IH Hnd Hdet' Hself' old (x :: rest) l1 l'); [by rewrite <- Permutation_middle|..]; try done.
      * by rewrite Hl1, Hl, <- Permutation_middle.
      * intros y Hy. destruct (Hold y Hy) as (x' & [->|Hx']%elem_of_cons & Hp); [|by exists x'].
        rewrite Hno in Hp; [done|]. rewrite Hl. apply elem_of_app. by left.
      * intros x' y Hx' Hy. apply Hmerge; [by right|done].
      * intros x' y Hx' [->|Hy]%elem_of_cons; [by apply Hxx|]. apply Hrest; [by right|done].
    + assert (Ho : o ∈ old).
      { assert (Ho : o ∈ l) by (rewrite Hlo; by left). rewrite Hl in Ho. apply elem_of_app in Ho as [Ho|Ho]; [done|].
        rewrite Hrest in Hpo; [done|by left|done]. }
      apply elem_of_Permutation in Ho as [old' Hold'].
      assert (Hr : r ≡ₚ old' ++ rest).
      { apply (Permutation_cons_inv (a := o)). by rewrite <- Hlo, Hl, Hold'. }
      rewrite (Hmerge x o) in Hl1; [|by left|rewrite Hold'; by left|done].
      rewrite (IH Hnd Hdet' Hself' old' (x :: rest) l1 l'); [by rewrite <- Permutation_middle|..]; try done.
      * by rewrite Hl1, Hr, <- Permutation_middle.
      * intros y Hy. destruct (Hold y) as (x' & [->|Hx']%elem_of_cons & Hp); [rewrite Hold'; by right| |by exists x'].
        rewrite Hno in Hp; [done|]. rewrite Hr. apply elem_of_app. by left.
      * intros x' y Hx' Hy. apply Hmerge; [by right|rewrite Hold'; by right].
      * intros x' y Hx' [->|Hy]%elem_of_cons; [by apply Hxx|]. apply Hrest; [by right|done].
Qed.

(** A property of the rows and the rows of a kind of their own are kept, when an
    updated row has the property again and is of none of that kind. *)
Lemma upserted_keeps (P : A -> Prop) (q : A -> bool) x l l' :
  (forall y, P y -> p x y = true -> q y = false) -> q x = false -> (forall y, p x y = true -> q (merge y x) = false) ->
  P x -> (forall y, P y -> p x y = true -> P (merge y x)) ->
  upserted merge x (p x) l l' -> Forall P l ->
  Forall P l' /\ filter (fun y => q y = true) l' ≡ₚ filter (fun y => q y = true) l.
Proof.
  intros Hq Hqx Hqm HPx HPm [[Hno Hl']|(o & r & Hlo & Hpo & Hno & Hl')] HP; rewrite Hl'.
  - split; [by apply Forall_cons|]. rewrite filter_cons_False by (by rewrite Hqx). done.
  - rewrite Hlo in HP |- *. apply Forall_cons in HP as [HPo HP]. split; [apply Forall_cons; auto|].
    rewrite !filter_cons_False; [done|by rewrite (Hq _ HPo Hpo)|by rewrite Hqm].
Qed.
End rows.

Lemma filter_sub_permutation {T} (P Q : T -> Prop) `{!forall x, Decision (P x)} `{!forall x, Decision (Q x)} (l : list T) :
  (forall x, Q x -> P x) -> filter Q (filter P l) = filter Q l.
Proof.
  intros HQ. rewrite list_filter_filter. apply filter_ext_elem. naive_solver.
Qed.

Lemma Split_none c t : no_char c t -> Split c t = [t].
Proof.
  unfold no_char. induction t as [|x t IH]; [done|]. cbn. intros [Hx Ht]%not_elem_of_cons.
  rewrite bool_decide_false by congruence. by rewrite IH.
Qed.

Lemma filter_split {T} (q : T -> bool) (l : list T) : l ≡ₚ filter (fun y => q y = true) l ++ filter (fun y => negb (q y) = true) l.
Proof.
  rewrite <- (filter_app_complement (fun y => q y = true) l) at 1. f_equiv. apply reflexive_eq, filter_ext_elem.
  intros x _. rewrite negb_true_iff. by destruct (q x).
Qed.

(** * What reconciling leaves in the database *)
Section exact.
Context {W : Type} `{!NorthboundDB W} `{!NorthboundLaws W}.
Context (version : string) (UnsortedList : gset string -> list string) (family : IPFamily).
Context (listed : forall s, UnsortedList s ≡ₚ elements s).

Local Abbreviation lrp_of := (build_lrp version family (policy_priority family)).
Local Abbreviation lrsr_of := (build_lrsr version).

Lemma no_space_parts t : no_char " " t -> Split " " (ipMatchField family +:+ " == " +:+ t) = [ipMatchField family; "=="; t].
Proof.
  intros Ht. change (" == " +:+ t) with (String.String " " ("==" +:+ String.String " " t)).
  rewrite Split_app by (unfold ipMatchField; case_bool_decide; by apply (bool_decide_unpack _); vm_compute).
  rewrite Split_app by (by apply (bool_decide_unpack _); vm_compute). by rewrite Split_none.
Qed.

(** The rows of the priority that Submariner uses are its own, and match on a subnet. *)
Definition our_policy (y : LogicalRouterPolicy) : bool := lrp_Priority y =? policy_priority family.

Definition policy_ok (y : LogicalRouterPolicy) : Prop :=
  our_policy y = true -> has_key (lrp_ExternalIDs y) = true /\
    exists t, no_char " " t /\ lrp_Match y = ipMatchField family +:+ " == " +:+ t.

Lemma has_key_version v : has_key {[SubmarinerExternalIDKey := v]} = true.
Proof. apply bool_decide_eq_true. rewrite lookup_singleton_eq. by eexists. Qed.

Lemma build_lrp_ok nh t : no_char " " t -> policy_ok (lrp_of nh t).
Proof. intros Ht _. split; [apply has_key_version|by exists t]. Qed.

Lemma match_inj t t' : ipMatchField family +:+ " == " +:+ t = ipMatchField family +:+ " == " +:+ t' -> t = t'.
Proof. intros He. by apply (inj (String.append _)), (inj (String.append _)) in He. Qed.

Lemma lrp_pred nh t y : lrpSubPredicate (lrp_of nh t) y = true <->
  lrp_Priority y = policy_priority family /\ lrp_Match y = ipMatchField family +:+ " == " +:+ t /\ lrp_Nexthops y = [nh].
Proof.
  unfold lrpSubPredicate. cbn. rewrite !andb_true_iff, Z.eqb_eq, !bool_decide_eq_true. naive_solver.
Qed.

Lemma merge_lrp_built nh t y : lrpSubPredicate (lrp_of nh t) y = true -> lrp_Nexthop y = None -> merge_lrp y (lrp_of nh t) = lrp_of nh t.
Proof.
  intros _ Hn. unfold merge_lrp, build_lrp. cbn [lrp_Priority lrp_Action lrp_Match lrp_Nexthops lrp_Nexthop lrp_ExternalIDs]. rewrite Hn.
  assert (Hp : (policy_priority family =? 0) = false) by (unfold policy_priority; by case_bool_decide).
  rewrite Hp. rewrite (bool_decide_false (_ +:+ _ = "")) by (unfold ipMatchField; by case_bool_decide).
  rewrite (bool_decide_false ({[_ := _]} = ∅)) by apply map_non_empty_singleton. done.
Qed.

(** A step of the reconciliation keeps the other policies, and the shape of ours. *)
Definition policies_kept (w w' : W) : Prop :=
  (Forall policy_ok (policies w) -> Forall policy_ok (policies w') /\
     filter (fun y => negb (our_policy y) = true) (policies w') ≡ₚ filter (fun y => negb (our_policy y) = true) (policies w)).

#[local] Instance policies_kept_pre : PreOrder policies_kept.
Proof.
  split; [by intros w Hw|]. intros w1 w2 w3 H12 H23 H1. destruct (H12 H1) as [H2 P2]. destruct (H23 H2) as [H3 P3].
  split; [done|]. by rewrite P3.
Qed.

Lemma policy_upsert_kept nh t : no_char " " t ->
  keeps policies_kept (CreateOrUpdateLogicalRouterPolicyWithPredicate (lrp_of nh t) (lrpSubPredicate (lrp_of nh t)) : eff W _ _).
Proof.
  intros Ht w Hw. destruct (CreateOrUpdateLogicalRouterPolicyWithPredicate _ _ w) as [r w'] eqn:E.
  apply upsert_policy_spec in E as [_ E]. simpl. destruct r; [|by rewrite E].
  eapply upserted_keeps; [..|exact E|exact Hw].
  - intros y _ (Hp & _)%lrp_pred. unfold our_policy. by rewrite Hp, Z.eqb_refl.
  - unfold our_policy. cbn. by rewrite Z.eqb_refl.
  - intros y (Hp & _)%lrp_pred. unfold our_policy. cbn.
    replace (policy_priority family =? 0) with false by (unfold policy_priority; by case_bool_decide). by rewrite Z.eqb_refl.
  - by apply build_lrp_ok.
  - intros y Hy (Hp & Hm & _)%lrp_pred _. unfold merge_lrp, build_lrp.
    cbn [lrp_Priority lrp_Action lrp_Match lrp_Nexthops lrp_Nexthop lrp_ExternalIDs].
    rewrite (bool_decide_false ({[_ := _]} = ∅)) by apply map_non_empty_singleton.
    rewrite (bool_decide_false (_ +:+ _ = "")) by (unfold ipMatchField; by case_bool_decide).
    split; [apply has_key_version|by exists t].
Qed.

Lemma policy_delete_kept subnets nh :
  keeps policies_kept (DeleteLogicalRouterPoliciesWithPredicate (lrpStalePredicate family subnets nh) : eff W _ _).
Proof.
  intros w Hw. destruct (DeleteLogicalRouterPoliciesWithPredicate _ w) as [r w'] eqn:E.
  apply delete_policies_spec in E as [_ E]. simpl. destruct r; [|by rewrite E]. rewrite E. split.
  - apply Forall_forall. intros y [_ Hy]%list_elem_of_filter. rewrite Forall_forall in Hw. by apply Hw.
  - rewrite filter_sub_permutation; [done|]. intros y Hy. unfold lrpStalePredicate, our_policy in *.
    apply negb_true_iff in Hy. rewrite Hy. by destruct (has_key _).
Qed.

Lemma reconcile_policies_kept subnets nh : set_Forall (no_char " ") subnets ->
  keeps policies_kept (reconcileSubOvnLogicalRouterPolicies version UnsortedList family subnets nh : eff W _ _).
Proof.
  intros Hs. unfold reconcileSubOvnLogicalRouterPolicies. apply keeps_bind; [apply _|apply policy_delete_kept|].
  intros _. unfold buildLRPsFromSubnets.
  assert (Hl : Forall (no_char " ") (UnsortedList subnets)).
  { apply Forall_forall. intros t Ht. apply Hs. rewrite (listed subnets) in Ht. by apply elem_of_elements. }
  induction Hl as [|t l Ht _ IH]; cbn; [apply keeps_ret, _|].
  apply keeps_bind; [apply _|by apply policy_upsert_kept|done].
Qed.

Lemma policies_upserts xs : forall w w',
  for_each (fun lrp => CreateOrUpdateLogicalRouterPolicyWithPredicate lrp (lrpSubPredicate lrp)) xs w = (Ok tt, w') ->
  static_routes w' = static_routes w /\ upserts merge_lrp lrpSubPredicate xs (policies w) (policies w').
Proof.
  induction xs as [|x xs IH]; intros w w'; cbn.
  - intros [= <-]. split; [done|constructor].
  - intros [([] & w1 & E & Hr)|(? & _ & [=])]%eff_bind_inv. apply upsert_policy_spec in E as [Hs E].
    apply IH in Hr as [Hs' Hr]. split; [congruence|]. by econstructor.
Qed.

Lemma static_upserts nh xs : forall w w',
  for_each (fun lrsr => CreateOrUpdateLogicalRouterStaticRoutesWithPredicate lrsr (LRSRPred nh lrsr)) xs w = (Ok tt, w') ->
  policies w' = policies w /\ upserts merge_lrsr (LRSRPred nh) xs (static_routes w) (static_routes w').
Proof.
  induction xs as [|x xs IH]; intros w w'; cbn.
  - intros [= <-]. split; [done|constructor].
  - intros [([] & w1 & E & Hr)|(? & _ & [=])]%eff_bind_inv. apply upsert_static_spec in E as [Hs E].
    apply IH in Hr as [Hs' Hr]. split; [congruence|]. by econstructor.
Qed.

Lemma elements_no_space subnets t : set_Forall (no_char " ") subnets -> t ∈ UnsortedList subnets -> no_char " " t.
Proof. intros Hs Ht. apply Hs. rewrite (listed subnets) in Ht. by apply elem_of_elements. Qed.

(** Afterwards our policies are the ones built for the remote subnets, and the others
    are as they were. *)
Lemma reconcile_policies_exact subnets nh w w' : set_Forall (no_char " ") subnets -> Forall policy_ok (policies w) ->
  reconcileSubOvnLogicalRouterPolicies version UnsortedList family subnets nh w = (Ok tt, w') ->
  static_routes w' = static_routes w /\
  policies w' ≡ₚ (lrp_of nh <$> elements subnets) ++ filter (fun y => negb (our_policy y) = true) (policies w).
Proof.
  intros Hns Hok. unfold reconcileSubOvnLogicalRouterPolicies.
  intros [(u & w1 & Hd & Hr)|(? & _ & [=])]%eff_bind_inv.
  apply delete_policies_spec in Hd as [Hs Hd]. apply policies_upserts in Hr as [Hs' Hr]. split; [congruence|].
  unfold buildLRPsFromSubnets in Hr. change (map ?f ?l) with (f <$> l) in Hr.
  rewrite (upserts_exact merge_lrp lrpSubPredicate (lrp_of nh <$> UnsortedList subnets))
    with (old := filter (fun y => our_policy y = true) (policies w1))
         (rest := filter (fun y => negb (our_policy y) = true) (policies w1)); [..|exact Hr].
  - rewrite (listed subnets). f_equiv. rewrite Hd, filter_sub_permutation; [done|].
    intros y Hy. apply negb_true_iff in Hy. unfold lrpStalePredicate, our_policy in *. rewrite Hy. by destruct (has_key _).
  - apply NoDup_fmap_2_strong; [|by rewrite (listed subnets); apply NoDup_elements].
    intros t t' _ _ He. apply (f_equal lrp_Match) in He. by apply match_inj in He.
  - intros x x' y [t [-> _]]%list_elem_of_fmap [t' [-> _]]%list_elem_of_fmap (_ & Hm & _)%lrp_pred (_ & Hm' & _)%lrp_pred.
    f_equal. apply match_inj. congruence.
  - intros x [t [-> _]]%list_elem_of_fmap. by apply lrp_pred.
  - apply filter_split.
  - intros y [Hy Hi]%list_elem_of_filter. rewrite Hd in Hi. apply list_elem_of_filter in Hi as [Hst Hi].
    rewrite Forall_forall in Hok. destruct (Hok _ Hi Hy) as (Hk & t & Ht & Hm).
    unfold lrpStalePredicate, our_policy in *. rewrite Hk, Hy, Hm, no_space_parts in Hst by done.
    apply orb_false_iff in Hst as [[Ht'%negb_false_iff Hn%negb_false_iff]%orb_false_iff _]. bool_props.
    exists (lrp_of nh t). split; [apply list_elem_of_fmap_2; rewrite (listed subnets); by apply elem_of_elements|].
    apply lrp_pred. split; [by apply Z.eqb_eq|done].
  - intros x y [t [-> _]]%list_elem_of_fmap [Hy Hi]%list_elem_of_filter Hp. apply merge_lrp_built; [done|].
    rewrite Hd in Hi. apply list_elem_of_filter in Hi as [Hst Hi].
    rewrite Forall_forall in Hok. destruct (Hok _ Hi Hy) as (Hk & t' & Ht & Hm).
    unfold lrpStalePredicate, our_policy in *. rewrite Hk, Hy, Hm, no_space_parts in Hst by done.
    apply orb_false_iff in Hst as [_ Hn]. destruct (lrp_Nexthop y); [|done]. by rewrite bool_decide_true in Hn by eauto.
  - intros x y [t [-> _]]%list_elem_of_fmap [Hy Hi]%list_elem_of_filter.
    destruct (lrpSubPredicate _ y) eqn:E; [|done]. apply lrp_pred in E as [E _]. unfold our_policy in Hy.
    rewrite E, Z.eqb_refl in Hy. done.
Qed.

(** The routes with a next hop are Submariner's if the next hop is. *)
Definition static_ok (nh : string) (y : LogicalRouterStaticRoute) : Prop :=
  lrsr_Nexthop y = nh -> has_key (lrsr_ExternalIDs y) = true.

Lemma lrsr_pred nh t y : LRSRPred nh (lrsr_of nh t) y = true <-> lrsr_Nexthop y = nh /\ lrsr_IPPrefix y = t.
Proof. unfold LRSRPred. cbn. by rewrite !andb_true_iff, !bool_decide_eq_true. Qed.

Lemma merge_lrsr_built nh t y : nh <> "" -> t <> "" -> merge_lrsr y (lrsr_of nh t) = lrsr_of nh t.
Proof.
  intros Hn Ht. unfold merge_lrsr, build_lrsr. cbn [lrsr_Nexthop lrsr_IPPrefix lrsr_ExternalIDs].
  rewrite (bool_decide_false (nh = "")), (bool_decide_false (t = "")) by done.
  by rewrite (bool_decide_false ({[_ := _]} = ∅)) by apply map_non_empty_singleton.
Qed.

(** Afterwards the routes with the next hop are the ones built for the remote subnets,
    and of the other routes those of Submariner to a remote subnet are gone. *)
Lemma reconcile_static_exact subnets nh w w' : nh <> "" -> "" ∉ subnets -> Forall (static_ok nh) (static_routes w) ->
  reconcileOvnLogicalRouterStaticRoutes version UnsortedList subnets nh w = (Ok tt, w') ->
  policies w' = policies w /\
  static_routes w' ≡ₚ (lrsr_of nh <$> elements subnets) ++
    filter (fun y => negb (lrsr_Nexthop y =?? nh) && negb (has_key (lrsr_ExternalIDs y) && bool_decide (lrsr_IPPrefix y ∈ subnets)) = true)
      (static_routes w).
Proof.
  intros Hnh Hne Hok. unfold reconcileOvnLogicalRouterStaticRoutes.
  intros [(u & w1 & Hd & Hr)|(? & _ & [=])]%eff_bind_inv.
  apply delete_static_spec in Hd as [Hs Hd]. apply static_upserts in Hr as [Hs' Hr]. split; [congruence|].
  unfold buildLRSRsFromSubnets in Hr. change (map ?f ?l) with (f <$> l) in Hr.
  rewrite (upserts_exact merge_lrsr (LRSRPred nh) (lrsr_of nh <$> UnsortedList subnets))
    with (old := filter (fun y => (lrsr_Nexthop y =?? nh) = true) (static_routes w1))
         (rest := filter (fun y => negb (lrsr_Nexthop y =?? nh) = true) (static_routes w1)); [..|exact Hr].
  - rewrite (listed subnets). f_equiv. rewrite Hd, list_filter_filter. apply reflexive_eq, filter_ext_elem.
    intros y _. unfold staleLRSRPred. destruct (has_key _), (lrsr_Nexthop y =?? nh), (bool_decide (lrsr_IPPrefix y ∈ subnets)); cbn; naive_solver.
  - apply NoDup_fmap_2_strong; [|by rewrite (listed subnets); apply NoDup_elements]. by intros t t' _ _ [= ->].
  - intros x x' y [t [-> _]]%list_elem_of_fmap [t' [-> _]]%list_elem_of_fmap (_ & Hm)%lrsr_pred (_ & Hm')%lrsr_pred. congruence.
  - intros x [t [-> _]]%list_elem_of_fmap. by apply lrsr_pred.
  - apply filter_split.
  - intros y [Hy%bool_decide_eq_true Hi]%list_elem_of_filter. rewrite Hd in Hi. apply list_elem_of_filter in Hi as [Hst Hi].
    rewrite Forall_forall in Hok. pose proof (Hok _ Hi Hy) as Hk. unfold staleLRSRPred in Hst.
    rewrite Hk, (bool_decide_true _ Hy) in Hst. cbn in Hst. rewrite orb_false_r in Hst. bool_props.
    exists (lrsr_of nh (lrsr_IPPrefix y)). split; [|by apply lrsr_pred].
    apply list_elem_of_fmap_2. rewrite (listed subnets). by apply elem_of_elements.
  - intros x y [t [-> Ht]]%list_elem_of_fmap _ _. apply merge_lrsr_built; [done|]. intros ->. apply Hne.
    rewrite (listed subnets) in Ht. by apply elem_of_elements.
  - intros x y [t [-> _]]%list_elem_of_fmap [Hy Hi]%list_elem_of_filter. bool_props.
    destruct (LRSRPred _ _ y) eqn:E; [|done]. by apply lrsr_pred in E as [E _].
Qed.

(** The static routes that are not Submariner's stay. *)
Definition static_kept (nh : string) (w w' : W) : Prop :=
  (Forall (static_ok nh) (static_routes w) -> Forall (static_ok nh) (static_routes w') /\
     filter (fun y => negb (has_key (lrsr_ExternalIDs y)) = true) (static_routes w') ≡ₚ
     filter (fun y => negb (has_key (lrsr_ExternalIDs y)) = true) (static_routes w)).

#[local] Instance static_kept_pre nh : PreOrder (static_kept nh).
Proof.
  split; [by intros w Hw|]. intros w1 w2 w3 H12 H23 H1. destruct (H12 H1) as [H2 P2]. destruct (H23 H2) as [H3 P3].
  split; [done|]. by rewrite P3.
Qed.

Lemma reconcile_static_kept subnets nh :
  keeps (static_kept nh) (reconcileOvnLogicalRouterStaticRoutes version UnsortedList subnets nh : eff W _ _).
Proof.
  unfold reconcileOvnLogicalRouterStaticRoutes. apply keeps_bind; [apply _| |intros _].
  - intros w Hw. destruct (DeleteLogicalRouterStaticRoutesWithPredicate _ w) as [r w'] eqn:E.
    apply delete_static_spec in E as [_ E]. simpl. destruct r; [|by rewrite E]. rewrite E. split.
    + apply Forall_forall. intros y [_ Hy]%list_elem_of_filter. rewrite Forall_forall in Hw. by apply Hw.
    + rewrite filter_sub_permutation; [done|]. intros y Hy%negb_true_iff. unfold staleLRSRPred. by rewrite Hy.
  - unfold buildLRSRsFromSubnets. change (map ?f ?l) with (f <$> l). induction (UnsortedList subnets) as [|t l IH]; cbn; [apply keeps_ret, _|].
    apply keeps_bind; [apply _| |done]. clear IH.
    intros w Hw. destruct (CreateOrUpdateLogicalRouterStaticRoutesWithPredicate _ _ w) as [r w'] eqn:E.
    apply upsert_static_spec in E as [_ E]. simpl. destruct r; [|by rewrite E].
    assert (Hm : forall y, has_key (lrsr_ExternalIDs (merge_lrsr y (lrsr_of nh t))) = true).
    { intros y. unfold merge_lrsr, build_lrsr. cbn [lrsr_ExternalIDs].
      rewrite (bool_decide_false ({[_ := _]} = ∅)) by apply map_non_empty_singleton. apply has_key_version. }
    eapply upserted_keeps; [..|exact E|exact Hw].
    + intros y Hy [Hn _]%lrsr_pred. apply negb_false_iff. by apply Hy.
    + apply negb_false_iff, has_key_version.
    + intros y _. apply negb_false_iff, Hm.
    + intros _. apply has_key_version.
    + intros y _ _ _. apply Hm.
Qed.

(** * The gateway route controller over any events *)
Context `{K8sNet} (mgmtIP : string) (mgmtIP_set : mgmtIP <> "").

Definition gateway_handle (ev : bool * RoutePolicySpec) : eff (@controller W) string bool :=
  if ev.1 then gatewayRouteCreatedOrUpdated version UnsortedList family mgmtIP ev.2
  else gatewayRouteDeleted version UnsortedList family mgmtIP ev.2.

(** The events of routes through this node. *)
Definition concerns (ev : bool * RoutePolicySpec) : Prop := head (NextHops ev.2) = Some mgmtIP.

#[global] Instance concerns_dec ev : Decision (concerns ev).
Proof. unfold concerns. apply _. Defined.

(** The subnets of the family that such events added and did not remove again. *)
Definition subnets_after (s : gset string) (ev : bool * RoutePolicySpec) : gset string :=
  if decide (concerns ev) then
    let cidrs := List.filter (fun subnet => IPFamilyOfCIDRString subnet =?? family) (RemoteCIDRs ev.2) in
    if ev.1 then list_to_set cidrs ∪ s else s ∖ list_to_set cidrs
  else s.

Lemma change_subnets_set b l (c : @controller W) :
  remoteSubnets (change_subnets b l c) = if b then list_to_set l ∪ remoteSubnets c else remoteSubnets c ∖ list_to_set l.
Proof.
  unfold change_subnets. cbn [remoteSubnets]. generalize (remoteSubnets c).
  induction l as [|t l IH]; intros s; cbn; [destruct b; set_solver|]. rewrite IH. destruct b; set_solver.
Qed.

Definition subnet_text (t : string) : Prop := no_char " " t /\ t <> "".

Definition good_event (ev : bool * RoutePolicySpec) : Prop := Forall subnet_text (RemoteCIDRs ev.2).

#[global] Instance good_event_dec ev : Decision (good_event ev).
Proof. unfold good_event, subnet_text. apply _. Defined.

Definition controller_ok (c : @controller W) : Prop :=
  set_Forall subnet_text (remoteSubnets c) /\ Forall policy_ok (policies (ovn_db c)) /\
  Forall (static_ok mgmtIP) (static_routes (ovn_db c)).

Lemma on_db_run {A} (m : eff W string A) c r c' : on_db m c = (r, c') ->
  remoteSubnets c' = remoteSubnets c /\ m (ovn_db c) = (r, ovn_db c').
Proof. unfold on_db. destruct (m (ovn_db c)) as [r0 w0]. by intros [= <- <-]. Qed.

Lemma policies_same_static subnets nh w : 
  static_routes (reconcileSubOvnLogicalRouterPolicies version UnsortedList family subnets nh w).2 = static_routes w.
Proof.
  apply (keeps_run (fun w w' => static_routes w' = static_routes w) (reconcileSubOvnLogicalRouterPolicies version UnsortedList family subnets nh) w
    (reconcileSubOvnLogicalRouterPolicies version UnsortedList family subnets nh w).1); [|apply surjective_pairing].
  assert (PreOrder (fun w w' : W => static_routes w' = static_routes w)) by (split; [by intros ?|intros ??? ? ?; congruence]).
  change (keeps (fun w w' => static_routes w' = static_routes w) (reconcileSubOvnLogicalRouterPolicies version UnsortedList family subnets nh : eff W _ _)).
  apply keeps_bind; [done| |intros _].
  - intros w1. destruct (DeleteLogicalRouterPoliciesWithPredicate _ w1) as [r w2] eqn:E. by apply delete_policies_spec in E as [E _].
  - apply keeps_for_each; [done|]. intros x w1.
    destruct (CreateOrUpdateLogicalRouterPolicyWithPredicate _ _ w1) as [r w2] eqn:E. by apply upsert_policy_spec in E as [E _].
Qed.

Lemma static_same_policies subnets nh w :
  policies (reconcileOvnLogicalRouterStaticRoutes version UnsortedList subnets nh w).2 = policies w.
Proof.
  assert (PreOrder (fun w w' : W => policies w' = policies w)) by (split; [by intros ?|intros ??? ? ?; congruence]).
  revert w. change (keeps (fun w w' => policies w' = policies w) (reconcileOvnLogicalRouterStaticRoutes version UnsortedList subnets nh : eff W _ _)).
  apply keeps_bind; [done| |intros _].
  - intros w1. destruct (DeleteLogicalRouterStaticRoutesWithPredicate _ w1) as [r w2] eqn:E. by apply delete_static_spec in E as [E _].
  - apply keeps_for_each; [done|]. intros x w1.
    destruct (CreateOrUpdateLogicalRouterStaticRoutesWithPredicate _ _ w1) as [r w2] eqn:E. by apply upsert_static_spec in E as [E _].
Qed.

(** What reconciling both leaves of the database. *)
Lemma reconcile_both c r c' : controller_ok c ->
  (_ ← on_db (reconcileSubOvnLogicalRouterPolicies version UnsortedList family (remoteSubnets c) mgmtIP);
   on_db (reconcileOvnLogicalRouterStaticRoutes version UnsortedList (remoteSubnets c) mgmtIP)) c = (r, c') ->
  controller_ok c' /\ remoteSubnets c' = remoteSubnets c /\
  filter (fun y => negb (our_policy y) = true) (policies (ovn_db c')) ≡ₚ
    filter (fun y => negb (our_policy y) = true) (policies (ovn_db c)) /\
  filter (fun y => negb (has_key (lrsr_ExternalIDs y)) = true) (static_routes (ovn_db c')) ≡ₚ
    filter (fun y => negb (has_key (lrsr_ExternalIDs y)) = true) (static_routes (ovn_db c)) /\
  (r = Ok tt ->
     filter (fun y => our_policy y = true) (policies (ovn_db c')) ≡ₚ lrp_of mgmtIP <$> elements (remoteSubnets c) /\
     filter (fun y => (lrsr_Nexthop y =?? mgmtIP) = true) (static_routes (ovn_db c')) ≡ₚ
       lrsr_of mgmtIP <$> elements (remoteSubnets c)).
Proof.
  intros (Hs & Hp & Hst) Hr.
  assert (Hns : set_Forall (no_char " ") (remoteSubnets c)) by (intros t Ht; by apply Hs).
  assert (Hne : "" ∉ remoteSubnets c) by (intros Ht; by apply Hs in Ht as [_ ?]).
  assert (Hpol : forall rp c2, on_db (reconcileSubOvnLogicalRouterPolicies version UnsortedList family (remoteSubnets c) mgmtIP) c = (rp, c2) ->
    remoteSubnets c2 = remoteSubnets c /\ static_routes (ovn_db c2) = static_routes (ovn_db c) /\
    policies_kept (ovn_db c) (ovn_db c2)).
  { intros rp c2 [Hs2 E]%on_db_run. split; [done|]. split.
    - rewrite <- (policies_same_static (remoteSubnets c) mgmtIP (ovn_db c)). by rewrite E.
    - eapply keeps_run; [|exact E]. intros w. by apply reconcile_policies_kept. }
  apply eff_bind_inv in Hr as [(u & c2 & E & Hr)|(e & E & ->)]; pose proof (Hpol _ _ E) as (Hs2 & Hst2 & Hk); destruct (Hk Hp) as [Hp2 Hf2].
  2:{ unfold controller_ok. rewrite Hs2, Hst2. done. }
  apply on_db_run in E as [_ E]. apply on_db_run in Hr as [Hs3 Hr].
  assert (Hp3 : policies (ovn_db c') = policies (ovn_db c2)).
  { rewrite <- (static_same_policies (remoteSubnets c) mgmtIP (ovn_db c2)). by rewrite Hr. }
  assert (Hk3 : static_kept mgmtIP (ovn_db c2) (ovn_db c')).
  { eapply keeps_run; [|exact Hr]. intros w. apply reconcile_static_kept. }
  rewrite <- Hst2 in Hst. destruct (Hk3 Hst) as [Hst3 Hf3].
  unfold controller_ok. rewrite Hs3, Hs2, Hp3. split; [done|]. split; [done|]. split; [done|]. split; [by rewrite Hf3, Hst2|].
  intros ->. destruct u. apply reconcile_policies_exact in E as [_ E]; [|done..].
  apply reconcile_static_exact in Hr as [_ Hr]; [|done..]. split.
  - rewrite E, filter_app, filter_all, filter_none, app_nil_r; [done|..].
    + apply Forall_forall. intros y [Hy _]%list_elem_of_filter. apply negb_true_iff in Hy. by rewrite Hy.
    + apply Forall_forall. intros y [t [-> _]]%list_elem_of_fmap. unfold our_policy. cbn. apply Z.eqb_refl.
  - rewrite Hr, filter_app, filter_all, filter_none, app_nil_r; [done|..].
    + apply Forall_forall. intros y [[Hy _]%andb_true_iff _]%list_elem_of_filter. apply negb_true_iff in Hy. by rewrite Hy.
    + apply Forall_forall. intros y [t [-> _]]%list_elem_of_fmap. cbn. by apply bool_decide_eq_true.
Qed.

(** What an event leaves, and what one that concerns the node and succeeds leaves. *)
Lemma gateway_event_spec ev c b c' : gateway_handle ev c = (Ok b, c') -> good_event ev -> controller_ok c ->
  controller_ok c' /\ remoteSubnets c' = subnets_after (remoteSubnets c) ev /\
  filter (fun y => negb (our_policy y) = true) (policies (ovn_db c')) ≡ₚ
    filter (fun y => negb (our_policy y) = true) (policies (ovn_db c)) /\
  filter (fun y => negb (has_key (lrsr_ExternalIDs y)) = true) (static_routes (ovn_db c')) ≡ₚ
    filter (fun y => negb (has_key (lrsr_ExternalIDs y)) = true) (static_routes (ovn_db c)) /\
  (concerns ev -> b = false ->
     filter (fun y => our_policy y = true) (policies (ovn_db c')) ≡ₚ lrp_of mgmtIP <$> elements (remoteSubnets c') /\
     filter (fun y => (lrsr_Nexthop y =?? mgmtIP) = true) (static_routes (ovn_db c')) ≡ₚ
       lrsr_of mgmtIP <$> elements (remoteSubnets c')).
Proof.
  intros Hr Hg Hc.
  assert (Hr' : exists r, b = is_err r /\
    gateway_reconcileRemoteSubnets version UnsortedList family mgmtIP ev.2 ev.1 c = (r, c')).
  { unfold gateway_handle, gatewayRouteCreatedOrUpdated, gatewayRouteDeleted in Hr.
    destruct ev as [[] route]; simpl in *; unfold requeue in Hr;
      apply eff_bind_inv in Hr as [(r & c1 & (r0 & [= <-] & E)%attempt_inv & [= <- <-])|(? & (? & [=] & _)%attempt_inv & _)]; eauto. }
  destruct Hr' as (r & -> & Hr'). clear Hr. unfold gateway_reconcileRemoteSubnets in Hr'. unfold subnets_after.
  destruct (decide (concerns ev)) as [Hcon|Hcon].
  2:{ assert (Hsame : c' = c).
      { unfold concerns in Hcon. destruct (NextHops ev.2) as [|nh l]; [by injection Hr'|]. cbn in Hcon.
        rewrite bool_decide_false in Hr' by congruence. by injection Hr'. }
      by subst c'. }
  unfold concerns in Hcon. destruct (NextHops ev.2) as [|nh l]; [done|]. injection Hcon as ->.
  rewrite bool_decide_true in Hr' by done. cbn [negb] in Hr'.
  erewrite eff_bind_ok in Hr' by reflexivity. erewrite eff_bind_ok in Hr' by reflexivity.
  set (cidrs := List.filter _ _) in *. rewrite <- (change_subnets_set ev.1 cidrs c).
  assert (Hc1 : controller_ok (change_subnets ev.1 cidrs c)).
  { destruct Hc as (Hs & Hp & Hst). split; [|done]. rewrite change_subnets_set. unfold good_event in Hg. rewrite Forall_forall in Hg.
    assert (Hcidrs : forall t, t ∈ cidrs -> subnet_text t).
    { intros t Ht. apply Hg. apply list_elem_of_In. apply list_elem_of_In, filter_In in Ht. apply Ht. }
    destruct ev.1; intros t Ht; [|by apply Hs; set_solver].
    apply elem_of_union in Ht as [Ht|Ht]; [|by apply Hs]. apply elem_of_list_to_set in Ht. by apply Hcidrs. }
  destruct (reconcile_both _ _ _ Hc1 Hr') as (H1 & H2 & H3 & H4 & H5). rewrite H2. split; [done|]. split; [done|].
  split; [done|]. split; [done|]. intros _ Hb. apply H5. by destruct r as [[]|].
Qed.

Lemma gateway_handle_total ev c : exists b, (gateway_handle ev c).1 = Ok b.
Proof.
  unfold gateway_handle, gatewayRouteCreatedOrUpdated, gatewayRouteDeleted, requeue.
  destruct ev.1; unfold attempt, mbind, eff_bind; destruct (gateway_reconcileRemoteSubnets _ _ _ _ _ _ c); by eexists.
Qed.

Definition gateway_run (evs : list (bool * RoutePolicySpec)) (c : @controller W) : @controller W :=
  foldl (fun c ev => (gateway_handle ev c).2) c evs.

Lemma gateway_run_spec evs : forall c, Forall good_event evs -> controller_ok c ->
  controller_ok (gateway_run evs c) /\ remoteSubnets (gateway_run evs c) = foldl subnets_after (remoteSubnets c) evs /\
  filter (fun y => negb (our_policy y) = true) (policies (ovn_db (gateway_run evs c))) ≡ₚ
    filter (fun y => negb (our_policy y) = true) (policies (ovn_db c)) /\
  filter (fun y => negb (has_key (lrsr_ExternalIDs y)) = true) (static_routes (ovn_db (gateway_run evs c))) ≡ₚ
    filter (fun y => negb (has_key (lrsr_ExternalIDs y)) = true) (static_routes (ovn_db c)).
Proof.
  induction evs as [|ev evs IH]; intros c Hg Hc; [done|]. apply Forall_cons in Hg as [Hg Hgs].
  destruct (gateway_handle_total ev c) as [b Hb]. apply run_pair in Hb.
  apply gateway_event_spec in Hb as (H1 & H2 & H3 & H4 & _); [|done..]. cbn. rewrite <- H2, <- H3, <- H4. by apply IH.
Qed.

(** C29: Whatever gateway routes come and go and whichever calls fail, once an event of a
    route through this node is handled without error, the router's policies of
    Submariner's priority and its static routes through the node are exactly those of
    the subnets that events added and did not remove; foreign rows are untouched. *)
Theorem gateway_rows_exact evs ev c c' :
  Forall good_event (evs ++ [ev]) -> controller_ok c -> concerns ev ->
  gateway_handle ev (gateway_run evs c) = (Ok false, c') ->
  let subnets := foldl subnets_after (remoteSubnets c) (evs ++ [ev]) in
  policies (ovn_db c') ≡ₚ (lrp_of mgmtIP <$> elements subnets) ++
    filter (fun y => negb (our_policy y) = true) (policies (ovn_db c)) /\
  filter (fun y => (lrsr_Nexthop y =?? mgmtIP) = true) (static_routes (ovn_db c')) ≡ₚ (lrsr_of mgmtIP <$> elements subnets) /\
  filter (fun y => negb (has_key (lrsr_ExternalIDs y)) = true) (static_routes (ovn_db c')) ≡ₚ
    filter (fun y => negb (has_key (lrsr_ExternalIDs y)) = true) (static_routes (ovn_db c)).
Proof.
  intros [Hg [Hg1 _]%Forall_cons]%Forall_app Hc Hcon Hr. cbv zeta.
  destruct (gateway_run_spec evs c Hg Hc) as (Hc1 & Hs1 & Hp1 & Hst1).
  apply gateway_event_spec in Hr as (_ & Hs & Hp & Hst & Hex); [|done..].
  rewrite foldl_app. cbn. rewrite <- Hs1, <- Hs. destruct (Hex Hcon eq_refl) as [He1 He2].
  split; [|split; [done|by rewrite Hst, Hst1]].
  by rewrite (filter_split our_policy (policies (ovn_db c'))), He1, Hp, Hp1.
Qed.

(** * From the endpoint to the database *)
Context {A : Type} `{!RouteClient A} `{!RouteClientLaws A}.

Lemma publish_spec nh e a r a' : publish family nh e a = (r, a') ->
  match newRoute family nh e, r with
  | Some route, Ok _ => route_objects a' = <[route_name family e := route]> (route_objects a)
  | _, _ => route_objects a' = route_objects a
  end.
Proof.
  unfold publish. destruct (newRoute family nh e) as [route|]; [|by intros [= <- <-]].
  unfold wrap_api. destruct (CreateOrUpdate _ _ a) as [r0 a0] eqn:E. intros [= <- <-]. apply create_or_update_spec in E. by destruct r0.
Qed.

Lemma delete_ignoring_missing_spec n a r a' : delete_ignoring_missing n a = (r, a') ->
  route_objects a' = match r with Ok _ => delete n (route_objects a) | Err _ => route_objects a end.
Proof.
  unfold delete_ignoring_missing. destruct (DeleteRoute n a) as [r0 a0] eqn:E. apply delete_route_spec in E.
  destruct r0 as [|[]]; intros [= <- <-]; [done| |done]. destruct E as [-> Hn]. by rewrite delete_id.
Qed.

(** On the gateway a remote endpoint ends up as a policy and a static route through
    the management interface for each of its subnets of the family. *)
Lemma endpoint_reaches_database st e a a' c c' route : IsOnGateway st = true ->
  gw_RemoteEndpointCreated family st mgmtIP e a = (Ok tt, a') -> newRoute family mgmtIP e = Some route ->
  Forall subnet_text (RemoteCIDRs route) -> controller_ok c ->
  gateway_handle (true, route) c = (Ok false, c') ->
  route_objects a' !! route_name family e = Some route /\
  forall t, t ∈ RemoteCIDRs route -> IPFamilyOfCIDRString t = family ->
    lrp_of mgmtIP t ∈ policies (ovn_db c') /\ lrsr_of mgmtIP t ∈ static_routes (ovn_db c').
Proof.
  intros Hst Hpub Hroute Hg Hc Hr. unfold gw_RemoteEndpointCreated in Hpub. rewrite Hst in Hpub.
  apply publish_spec in Hpub. rewrite Hroute in Hpub. split; [by rewrite Hpub, lookup_insert_eq|].
  assert (Hcon : concerns (true, route)).
  { unfold newRoute in Hroute. destruct (Cidr.ExtractSubnets _ _); [done|]. by injection Hroute as <-. }
  apply gateway_event_spec in Hr as (_ & Hs & _ & _ & Hex); [|done..]. destruct (Hex Hcon eq_refl) as [Hp Hstat].
  intros t Ht Hf.
  assert (Hi : t ∈ remoteSubnets c').
  { rewrite Hs. unfold subnets_after. rewrite decide_True by done. cbn. apply elem_of_union. left.
    apply elem_of_list_to_set, list_elem_of_In, filter_In. split; [by apply list_elem_of_In|by apply bool_decide_eq_true]. }
  split.
  - eapply (list_elem_of_filter (fun y => our_policy y = true)). rewrite Hp. apply list_elem_of_fmap_2. by apply elem_of_elements.
  - eapply (list_elem_of_filter (fun y => (lrsr_Nexthop y =?? mgmtIP) = true)). rewrite Hstat. apply list_elem_of_fmap_2. by apply elem_of_elements.
Qed.

(** The loop of a transition, over endpoints whose clusters and names do not clash. *)
Lemma transition_publishes nh eps : NoDup (route_name family ∘ Spec ∘ ep_obj <$> eps) ->
  (forall e e', e ∈ eps -> e' ∈ eps -> ep_key e <> route_name family (Spec (ep_obj e'))) ->
  forall a a', for_each (fun endpoint => _ ← delete_ignoring_missing (ep_key endpoint); publish family nh (Spec (ep_obj endpoint))) eps a = (Ok tt, a') ->
  (forall e route, e ∈ eps -> newRoute family nh (Spec (ep_obj e)) = Some route ->
     route_objects a' !! route_name family (Spec (ep_obj e)) = Some route) /\
  (forall n, n ∉ (ep_key <$> eps) -> n ∉ (route_name family ∘ Spec ∘ ep_obj <$> eps) -> route_objects a' !! n = route_objects a !! n).
Proof.
  induction eps as [|e eps IH]; intros Hnd Hne a a' Hr; cbn in Hr; [injection Hr as <-; split; [|done]; intros e route He; inversion He|].
  apply eff_bind_inv in Hr as [([] & a2 & E & Hr)|(? & _ & [=])].
  apply eff_bind_inv in E as [(u & a1 & Ed & E)|(? & _ & [=])].
  apply delete_ignoring_missing_spec in Ed. apply publish_spec in E. cbn in Hnd. apply NoDup_cons in Hnd as [He Hnd].
  apply IH in Hr as [Hpub Hrest]; [|done|intros ????; apply Hne; by right]. split.
  - intros e' route [->|He']%elem_of_cons Hroute; [|by apply Hpub]. rewrite Hrest.
    + rewrite Hroute in E. rewrite E. by rewrite lookup_insert_eq.
    + intros (e2 & Heq & He2)%list_elem_of_fmap. apply (Hne e2 e); [by right|by left|done].
    + done.
  - intros n Hn1 Hn2. cbn in Hn1, Hn2. apply not_elem_of_cons in Hn1 as [Hk Hn1]. apply not_elem_of_cons in Hn2 as [Hk2 Hn2].
    rewrite Hrest by done. destruct (newRoute family nh (Spec (ep_obj e))); rewrite E, Ed;
      [rewrite lookup_insert_ne by done|]; by rewrite lookup_delete_ne.
Qed.
End exact.

(** * A database and a client *)
Definition rows : Type := list LogicalRouterPolicy * list LogicalRouterStaticRoute.

#[global] Instance lrp_eq_dec : EqDecision LogicalRouterPolicy.
Proof. solve_decision. Defined.
#[global] Instance lrsr_eq_dec : EqDecision LogicalRouterStaticRoute.
Proof. solve_decision. Defined.

(** More than one row that matches is an error. *)
Definition upsert_rows {A} (merge : A -> A -> A) (x : A) (p : A -> bool) (l : list A) : option (list A) :=
  match filter (fun y => p y = true) l with
  | [] => Some (x :: l)
  | [old] => Some (merge old x :: filter (fun y => negb (p y) = true) l)
  | _ => None
  end.

Definition rows_db : NorthboundDB rows := {|
  DeleteLogicalRouterPoliciesWithPredicate := fun p w => (Ok tt, (filter (fun y => p y = false) w.1, w.2));
  CreateOrUpdateLogicalRouterPolicyWithPredicate := fun x p w =>
    match upsert_rows merge_lrp x p w.1 with Some l => (Ok tt, (l, w.2)) | None => (Err "multiple results", w) end;
  DeleteLogicalRouterStaticRoutesWithPredicate := fun p w => (Ok tt, (w.1, filter (fun y => p y = false) w.2));
  CreateOrUpdateLogicalRouterStaticRoutesWithPredicate := fun x p w =>
    match upsert_rows merge_lrsr x p w.2 with Some l => (Ok tt, (w.1, l)) | None => (Err "multiple results", w) end;
|}.
#[local] Existing Instance rows_db.

Lemma upsert_rows_spec {A} (merge : A -> A -> A) x p l l' : upsert_rows merge x p l = Some l' -> upserted merge x p l l'.
Proof.
  unfold upsert_rows. destruct (filter (fun y => p y = true) l) as [|o [|]] eqn:E; [| |done]; intros [= <-].
  - left. split; [|done]. apply Forall_forall. intros y Hy. destruct (p y) eqn:Hp; [|done].
    assert (Hi : y ∈ filter (fun y => p y = true) l) by (by apply list_elem_of_filter). rewrite E in Hi. inversion Hi.
  - right. exists o, (filter (fun y => negb (p y) = true) l).
    assert (Hi : o ∈ filter (fun y => p y = true) l) by (rewrite E; by left). apply list_elem_of_filter in Hi as [Ho _].
    split; [|split; [done|split; [|done]]].
    + rewrite (filter_split p l) at 1. by rewrite E.
    + apply Forall_forall. intros y [Hy%negb_true_iff _]%list_elem_of_filter. done.
Qed.

#[local] Instance rows_laws : NorthboundLaws rows.
Proof.
  refine {| policies := fst; static_routes := snd |}.
  - by intros p w r w' [= <- <-].
  - intros x p w r w' H. cbn in H. destruct (upsert_rows _ _ _ _) eqn:E; injection H as <- <-; [|done].
    split; [done|]. by apply upsert_rows_spec.
  - by intros p w r w' [= <- <-].
  - intros x p w r w' H. cbn in H. destruct (upsert_rows _ _ _ _) eqn:E; injection H as <- <-; [|done].
    split; [done|]. by apply upsert_rows_spec.
Defined.

Definition objects_client : RouteClient (gmap string RoutePolicySpec) := {|
  CreateOrUpdate := fun n s a => (Ok tt, <[n := s]> a);
  DeleteRoute := fun n a => match a !! n with Some _ => (Ok tt, delete n a) | None => (Err NotFound, a) end;
  UpdateRoute := fun n f a => (Ok tt, alter f n a);
|}.
#[local] Existing Instance objects_client.

#[local] Instance objects_laws : RouteClientLaws (gmap string RoutePolicySpec).
Proof.
  refine {| route_objects := fun a => a |}.
  - by intros n s a r a' [= <- <-].
  - intros n a r a' H. cbn in H. destruct (a !! n) eqn:E; by injection H as <- <-.
  - by intros n f a r a' [= <- <-].
Defined.

#[local] Existing Instance k8snet_ref.

Definition ex_mgmt : string := "10.128.0.2".
Definition route_via (nh : string) (cidrs : list string) : RoutePolicySpec := mkRPS [nh] cidrs.

(** A row of another program, an old one of Submariner to a subnet that is gone, and
    one with the field that earlier versions used. *)
Definition ex_foreign : LogicalRouterPolicy := mkLRP 1004 "reroute" "inport == rtos-node1" ["100.64.0.2"] None ∅.
Definition ex_old (t : string) (nexthop : option string) : LogicalRouterPolicy :=
  mkLRP 20000 "reroute" ("ip4.dst == " +:+ t) ["10.128.0.2"] nexthop {["submariner" := "0.18"]}.
Definition ex_rows : rows := ([ex_foreign; ex_old "10.9.0.0/16" None; ex_old "10.2.0.0/16" (Some "10.128.0.2")], []).

Definition ex_events : list (bool * RoutePolicySpec) :=
  [ (true, route_via ex_mgmt ["10.2.0.0/16"; "fd00::/64"]); (true, route_via "10.128.4.2" ["10.4.0.0/16"]);
    (true, route_via ex_mgmt ["10.3.0.0/16"]); (false, route_via ex_mgmt ["10.2.0.0/16"; "fd00::/64"]) ].
Definition ex_event : bool * RoutePolicySpec := (true, route_via ex_mgmt ["10.5.0.0/16"]).

Definition ex_controller : @controller rows := mkController ∅ ex_rows.

Definition ex_handle := gateway_handle "0.20" elements IPv4 ex_mgmt.
Definition ex_run := gateway_run "0.20" elements IPv4 ex_mgmt.

Lemma gateway_rows_exact_witness :
  policies (ovn_db (ex_handle ex_event (ex_run ex_events ex_controller)).2) ≡ₚ
    [build_lrp "0.20" IPv4 20000 ex_mgmt "10.3.0.0/16"; build_lrp "0.20" IPv4 20000 ex_mgmt "10.5.0.0/16"; ex_foreign].
Proof.
  assert (Hg : Forall good_event (ex_events ++ [ex_event])).
  { apply (bool_decide_unpack _). vm_compute. reflexivity. }
  assert (Hc : controller_ok IPv4 ex_mgmt ex_controller).
  { split; [exact (set_Forall_empty _)|]. split; [|exact (Forall_nil_2 _)].
    repeat (apply Forall_cons; split); [..|by apply Forall_nil].
    - intros Hp. vm_compute in Hp. discriminate Hp.
    - intros _. split; [vm_compute; reflexivity|]. exists "10.9.0.0/16".
      split; [apply (bool_decide_unpack _); vm_compute; reflexivity|reflexivity].
    - intros _. split; [vm_compute; reflexivity|]. exists "10.2.0.0/16".
      split; [apply (bool_decide_unpack _); vm_compute; reflexivity|reflexivity]. }
  assert (Hr : (ex_handle ex_event (ex_run ex_events ex_controller)).1 = Ok false) by (vm_compute; reflexivity).
  apply run_pair in Hr.
  pose proof (gateway_rows_exact "0.20" elements IPv4 (fun s => reflexivity _) ex_mgmt ltac:(discriminate)
    ex_events ex_event ex_controller _ Hg Hc eq_refl Hr) as [Hp _].
  rewrite Hp.
  replace (foldl (subnets_after IPv4 ex_mgmt) (remoteSubnets ex_controller) (ex_events ++ [ex_event])) with ({["10.3.0.0/16"; "10.5.0.0/16"]} : gset string)
    by (apply (bool_decide_unpack _); vm_compute; reflexivity).
  apply (bool_decide_unpack _). vm_compute. reflexivity.
Defined.

(** An update that takes a subnet off a route leaves the subnet's policy. *)
Lemma dropped_subnet_stays :
  let c := ex_run [(true, route_via ex_mgmt ["10.2.0.0/16"; "10.3.0.0/16"]); (true, route_via ex_mgmt ["10.2.0.0/16"])] (mkController ∅ ([], [])) in
  build_lrp "0.20" IPv4 20000 ex_mgmt "10.3.0.0/16" ∈ policies (ovn_db c).
Proof. apply (bool_decide_unpack _). vm_compute. reflexivity. Qed.

(** A cluster that goes away while another node is the gateway, so that its route is
    deleted with that node's next hop, gets its policy again when this node is the
    gateway again and handles the route of any cluster. *)
Lemma removed_elsewhere_returns :
  let c := ex_run [(true, route_via ex_mgmt ["10.2.0.0/16"]); (true, route_via "10.128.4.2" ["10.2.0.0/16"]);
                   (false, route_via "10.128.4.2" ["10.2.0.0/16"]); (true, route_via ex_mgmt ["10.3.0.0/16"])] (mkController ∅ ([], [])) in
  build_lrp "0.20" IPv4 20000 ex_mgmt "10.2.0.0/16" ∈ policies (ovn_db c) /\
  build_lrsr "0.20" ex_mgmt "10.2.0.0/16" ∈ static_routes (ovn_db c).
Proof. split; apply (bool_decide_unpack _); vm_compute; reflexivity. Qed.
End OvnRoutes.
