(* ===== verification/OvnHost.v ===== *)
(** The handler that connects the host to OVN (src/pkg/routeagent_driver/handlers/ovn):
    ip rules and routes that lead traffic of and to remote subnets through the
    management interface of ovn-kubernetes (host_networking.go, south_rules.go,
    subnets.go), the gateway's forwarding, clamping and SNAT rules and the annotation
    of its node (gateway_dataplane.go), the callbacks (handler.go), the watch of the
    interface's address (route_config_syncer.go) and the clean-up (uninstall.go). *)
From stdpp Require Import base gmap list strings fin_maps fin_sets.
From Stdlib Require String.
From Stdlib Require Import ZArith Lia Ascii.
From S2P Require Import Prelude GoNet GoStrings K8s Cidr Endpoint Metrics Netlink PacketFilter Event RouteAgent KubeProxy.
Import Net Endpoint.
Local Open Scope Z_scope.

(** * What the handler asks for beside the netlink layer and the filter *)
Class RuleTable (W : Type) := {
  RuleList : IPFamily -> eff W nl_error (list Netlink.Rule);
  (** The addresses of a link: their networks, of which one may be missing. *)
  AddrList : Link -> IPFamily -> eff W nl_error (list (option IPNet));
}.

(** The client of the local node: [MustUpdate] of admiral, with the mutation of the
    annotations, which may refuse; [Update] changes nothing when the node is gone. *)
Class NodeClient (C : Type) := {
  MustUpdateNode : (gmap string string -> result string (gmap string string)) -> eff C string unit;
  UpdateNode : (gmap string string -> gmap string string) -> eff C string unit;
}.

(** The lists of strings of an annotation: JSON, and admiral's helpers for slices. *)
Class StringLists := {
  Marshal : list string -> string;
  Unmarshal : string -> option (list string);
  AppendStringIfNotPresent : list string -> string -> list string;
  RemoveString : list string -> string -> list string;
}.

Class StringListsLaws `{!StringLists} := {
  unmarshal_marshal : forall l, Unmarshal (Marshal l) = Some l;
  marshal_not_empty : forall l, Marshal l <> "";
  append_string_elem : forall l s x, x ∈ AppendStringIfNotPresent l s <-> x ∈ l \/ x = s;
  remove_string_elem : forall l s x, x ∈ RemoveString l s <-> x ∈ l /\ x <> s;
}.

Module OvnHost.
Import PacketFilter RouteAgent Chains.

(** * Constants *)
Definition OVNK8sMgmntIntfName : string := "ovn-k8s-mp0".
Definition RouteAgentInterClusterNetworkTableID : Z := 149.
Definition RouteAgentHostNetworkTableID : Z := 150.
Definition OVNKSNATExcludeSubnetsAnnotation : string := "k8s.ovn.org/node-ingress-snat-exclude-subnets".
Definition IPTCPOverHead : Z := 40.
Definition ExpectedIPSECOverhead : Z := 62.
Definition MSSFor1500MTU : Z := 1500 - IPTCPOverHead - ExpectedIPSECOverhead.
Definition InterfaceNameConfig : string := "interface-name".

(** What does not change after the handler was made. *)
Record HandlerConfig := mkConfig {
  ipFamily : IPFamily;
  ClusterCIDR : list string;
  ServiceCIDR : list string;
  IntraRoutingDisabled : bool;
  TCPMssValue : Z;
  (** [global.Get(disableOVNSelfSNATKey, false)] *)
  disableOVNSelfSNAT : bool;
}.

Section handler.
Context {W S C : Type} `{!NetlinkBasic W} `{!HostNet W} `{!RuleTable W} `{!PFDriver S} `{!NodeClient C} `{!StringLists} `{K8sNet}.
(** The order in which a set is listed and the existing rules are ranged over. *)
Context (UnsortedList : gset string -> list string) (range_rules : gset PacketFilter.Rule -> list PacketFilter.Rule).
Context (cfg : HandlerConfig).

Record world := mkWorld {
  cableRoutingInterface : option NetworkInterface;
  isLocalGWMode : bool;
  net : W;
  filter : S;
  node : C;
}.
Abbreviation M := (eff world ra_error).

Definition on_net {A} (what : string) (m : eff W nl_error A) : M A := fun w =>
  let '(r, x) := m (net w) in
  (map_err (fun _ => RaError what) r, mkWorld (cableRoutingInterface w) (isLocalGWMode w) x (filter w) (node w)).

Definition on_filter {A} (what : string) (m : eff S pf_error A) : M A := fun w =>
  let '(r, x) := m (filter w) in
  (map_err (pf_ra_error what) r, mkWorld (cableRoutingInterface w) (isLocalGWMode w) (net w) x (node w)).

Definition on_node {A} (what : string) (m : eff C string A) : M A := fun w =>
  let '(r, x) := m (node w) in
  (map_err (fun _ => RaError what) r, mkWorld (cableRoutingInterface w) (isLocalGWMode w) (net w) (filter w) x).

(** [goerrors.Join] of calls that are all made; a panic ends them. *)
Fixpoint joined (ms : list (M unit)) : M unit :=
  match ms with
  | [] => mret tt
  | m :: ms =>
      r ← attempt m;
      match r with
      | Ok _ => joined ms
      | Err (RaError e) => r2 ← attempt (joined ms); match r2 with Ok _ => fail (RaError e) | Err e2 => fail e2 end
      | Err e => fail e
      end
  end.

(** * Subnets and rules (subnets.go, south_rules.go) *)
Definition getRemoteSubnets (st : Event.HandlerState) : gset string :=
  foldl (fun s e => s ∪ list_to_set (subnets_of (ipFamily cfg) (Spec (Event.ep_obj e)))) ∅ (Event.GetRemoteEndpoints st).

Definition parse_side (s : string) : result ra_error (option IPNet) :=
  if s =?? "" then Ok None
  else match ParseCIDR s with Some n => Ok (Some n) | None => Err (RaError "error trying to parse subnet") end.

Definition getRuleSpec (dest src : string) (tableID : Z) : result ra_error Netlink.Rule :=
  dst ← parse_side dest; sc ← parse_side src; Ok (Netlink.mkRule tableID tableID 0 dst sc).

Definition localCIDRs : gset string :=
  list_to_set (Cidr.ExtractSubnets (ipFamily cfg) (ClusterCIDR cfg)) ∪
  list_to_set (Cidr.ExtractSubnets (ipFamily cfg) (ServiceCIDR cfg)).

Definition handleSubnets (remoteSubnets : list string) (ruleFunc : Netlink.Rule -> eff W nl_error unit) : M unit :=
  for_each (fun subnetToHandle =>
    for_each (fun localSubnet =>
      rule ← lift_result (getRuleSpec localSubnet subnetToHandle RouteAgentInterClusterNetworkTableID);
      on_net "error handling rule" (ruleFunc rule)) (UnsortedList localCIDRs))
    (Cidr.ExtractSubnets (ipFamily cfg) remoteSubnets).

(** The networks on one side of the rules of a table. *)
Definition rule_texts (table : Z) (side : Netlink.Rule -> option IPNet) (rules : list Netlink.Rule) : gset string :=
  list_to_set (omap (fun r => if rule_Table r =? table then net_string <$> side r else None) rules).

Definition getExistingRuleSubnets : M (gset string) :=
  rules ← on_net "error listing rules" (RuleList (ipFamily cfg));
  mret (rule_texts RouteAgentInterClusterNetworkTableID rule_Src rules).

(** * The host's own traffic (host_networking.go) *)
Definition getExistingHostNetworkRoutes : M (gset string) :=
  rules ← on_net "error listing rules" (RuleList (ipFamily cfg));
  mret (rule_texts RouteAgentHostNetworkTableID rule_Dst rules).

Definition programRulesForRemoteSubnets (subnets : list string) (ruleFunc : Netlink.Rule -> eff W nl_error unit) : M unit :=
  for_each (fun remoteSubnet =>
    rule ← lift_result (getRuleSpec remoteSubnet "" RouteAgentHostNetworkTableID);
    on_net "error handling rule" (ruleFunc rule)) subnets.

(** The next hop that a route to one of the cluster's networks gives: its gateway, or
    its destination when that is an address and not a network. *)
Definition matches_cluster (dst : IPNet) (cidrNet : IPNet) : bool :=
  (net_string dst =?? net_string cidrNet) || Net.Contains cidrNet (net_IP dst) || Net.Contains dst (net_IP cidrNet).

Definition next_hop_of (cidrs : list IPNet) (route : Route) : option IP :=
  match route_Dst route with
  | None => None
  | Some dst =>
      if existsb (matches_cluster dst) cidrs then
        if negb (route_Gw route =?? []) then Some (route_Gw route)
        else
          let '(ones, bits) := mask_size (net_Mask dst) in
          if negb (ones =? bits) && Net.Equal (net_IP dst) (ip_mask (net_IP dst) (net_Mask dst)) then None
          else Some (net_IP dst)
      else None
  end.

Fixpoint first_next_hop (cidrs : list IPNet) (routes : list Route) : option IP :=
  match routes with
  | [] => None
  | r :: routes => match next_hop_of cidrs r with Some ip => Some ip | None => first_next_hop cidrs routes end
  end.

Definition getNextHopOnK8sMgmtIntf : M IP :=
  link ← on_net "error retrieving link by name" (LinkByName OVNK8sMgmntIntfName);
  routes ← on_net "error retrieving routes" (RouteList (Some link) (ipFamily cfg));
  match first_next_hop (omap ParseCIDR (ClusterCIDR cfg)) routes with
  | Some ip => mret ip
  | None => fail (RaError "could not find the route to any of the cluster's networks")
  end.

Definition table_route (table : Z) (gw : IP) : Route := mkRoute 0 [] None gw 0 table 0 0.

(** The outcome of a call on a route when some errors are no errors. *)
Definition tolerate (p : nl_error -> bool) (m : eff W nl_error unit) : eff W nl_error unit := fun x =>
  match m x with
  | (Err e, x') => (if p e then Ok tt else Err e, x')
  | r => r
  end.

(** [os.IsNotExist], which does not look through wrapped errors. *)
Definition os_IsNotExist (e : nl_error) : bool := match e with ErrNotExist => true | _ => false end.

Definition updateHostNetworkDataplane (st : Event.HandlerState) : M unit :=
  let cleanup := negb (Event.IsOnGateway st) && IntraRoutingDisabled cfg in
  let endpointSubnets := if cleanup then ∅ else getRemoteSubnets st in
  currentRuleRemotes ← getExistingHostNetworkRoutes;
  _ ← programRulesForRemoteSubnets (UnsortedList (endpointSubnets ∖ currentRuleRemotes)) Netlink.RuleAddIfNotPresent;
  _ ← programRulesForRemoteSubnets (UnsortedList (currentRuleRemotes ∖ endpointSubnets)) Netlink.RuleDelIfPresent;
  nextHop ← getNextHopOnK8sMgmtIntf;
  let route := table_route RouteAgentHostNetworkTableID nextHop in
  if cleanup then on_net "error deleting submariner default route" (tolerate os_IsNotExist (RouteDel route))
  else on_net "error adding submariner default route" (tolerate is_exist (RouteAdd route)).

(** * The gateway (gateway_dataplane.go) *)
Definition getRouteToOVNDataPlane : M Route :=
  nextHop ← getNextHopOnK8sMgmtIntf; mret (table_route RouteAgentInterClusterNetworkTableID nextHop).

Definition forward_rule (src dst outIf inIf : string) : PacketFilter.Rule :=
  mkRule dst src "" "" "" "" outIf inIf "" "" "" "" RuleActionAccept RuleProtoUndefined UndefinedMSS.

Definition getForwardingRuleSpecs (st : Event.HandlerState) (w : world) : result ra_error (list PacketFilter.Rule) :=
  match cableRoutingInterface w with
  | None => Err (RaError "the cable interface isn't discovered yet")
  | Some i =>
      Ok (flat_map (fun remoteCIDR =>
            [forward_rule "" remoteCIDR (iface_Name i) OVNK8sMgmntIntfName;
             forward_rule remoteCIDR "" OVNK8sMgmntIntfName (iface_Name i)]) (UnsortedList (getRemoteSubnets st)))
  end.

Definition getMSSClampingRuleSpecs (st : Event.HandlerState) : list PacketFilter.Rule :=
  let mssValue := if TCPMssValue cfg =? 0 then MSSFor1500MTU else TCPMssValue cfg in
  flat_map (fun remoteCIDR => [Mtu.mss_rule "" remoteCIDR ToValue (Strconv.Itoa mssValue); Mtu.mss_rule remoteCIDR "" ToValue (Strconv.Itoa mssValue)])
    (UnsortedList (getRemoteSubnets st)).

Definition shouldApplyOVNSelfSNAT (w : world) : bool := negb (disableOVNSelfSNAT cfg) && isLocalGWMode w.

Definition getOVNSelfSNATRuleSpecs (st : Event.HandlerState) (w : world) : list PacketFilter.Rule :=
  if negb (Event.IsOnGateway st) then []
  else if negb (shouldApplyOVNSelfSNAT w) then []
  else
    let remoteSetName := if ipFamily cfg =?? IPv4 then Mtu.RemoteCIDRIPSetIPv4 else Mtu.RemoteCIDRIPSetIPv6 in
    map (fun localCIDR => KubeProxy.snat_set_rule localCIDR "" remoteSetName) (Cidr.ExtractSubnets (ipFamily cfg) (ClusterCIDR cfg)).

Definition update_chain (table : TableType) (chain : string) (rules : list PacketFilter.Rule) : M unit :=
  on_filter "error updating chain rules" (UpdateChainRules range_rules table chain rules).

Definition setupOVNSelfSNAT (st : Event.HandlerState) : M unit :=
  w ← getw; update_chain TableTypeNAT SmSelfSnat (getOVNSelfSNATRuleSpecs st w).

Definition setupForwardingIptables (st : Event.HandlerState) : M unit :=
  _ ← update_chain TableTypeFilter SmForwardMSSClamp (getMSSClampingRuleSpecs st);
  w ← getw;
  rules ← lift_result (getForwardingRuleSpecs st w);
  _ ← update_chain TableTypeFilter SmForward rules;
  setupOVNSelfSNAT st.

Definition cleanupForwardingIptables : M unit :=
  joined [on_filter "error clearing chain" (ClearChain TableTypeFilter SmForwardMSSClamp);
          on_filter "error clearing chain" (ClearChain TableTypeFilter SmForward)].

Definition cleanupGatewayDataplane : M unit :=
  currentRemoteSubnets ← getExistingRuleSubnets;
  _ ← handleSubnets (UnsortedList currentRemoteSubnets) Netlink.RuleDelIfPresent;
  defaultRoute ← getRouteToOVNDataPlane;
  _ ← on_net "error deleting submariner default route" (tolerate is_not_exist (RouteDel defaultRoute));
  cleanupForwardingIptables.

Definition updateGatewayDataplane (st : Event.HandlerState) : M unit :=
  currentRuleRemotes ← getExistingRuleSubnets;
  let endpointSubnets := getRemoteSubnets st in
  _ ← handleSubnets (UnsortedList (endpointSubnets ∖ currentRuleRemotes)) Netlink.RuleAddIfNotPresent;
  _ ← handleSubnets (UnsortedList (currentRuleRemotes ∖ endpointSubnets)) Netlink.RuleDelIfPresent;
  defaultRoute ← getRouteToOVNDataPlane;
  _ ← on_net "error adding submariner default" (tolerate is_exist (RouteAdd defaultRoute));
  setupForwardingIptables st.

Definition updateNoMasqueradeRules (subnet : string) (add : bool) : M unit :=
  for_each (fun rule =>
    on_filter "error updating rule"
      (if add then AppendUnique TableTypeNAT SmPostRouting rule else Delete TableTypeNAT SmPostRouting rule))
    [KubeProxy.cidr_rule "" subnet RuleActionAccept; KubeProxy.cidr_rule subnet "" RuleActionAccept].

(** The annotation's list after the change: it must parse. *)
Definition change_annotation (add : bool) (subnets : list string) (annotations : gmap string string) :
    result string (gmap string string) :=
  let currentJSON := zget "" annotations OVNKSNATExcludeSubnetsAnnotation in
  match (if currentJSON =?? "" then Some [] else Unmarshal currentJSON) with
  | None => Err "failed to unmarshal annotation list"
  | Some l =>
      let l := foldl (fun l subnet => if add then AppendStringIfNotPresent l subnet else RemoveString l subnet) l subnets in
      Ok (<[OVNKSNATExcludeSubnetsAnnotation := Marshal l]> annotations)
  end.

Definition processEndpointSubnets (add : bool) (endpoints : list EndpointSpec) : M unit :=
  let allSubnets := flat_map (fun e => List.filter (fun s => IPFamilyOfCIDRString s =?? ipFamily cfg) (Subnets e)) endpoints in
  _ ← for_each (fun subnet => updateNoMasqueradeRules subnet add) allSubnets;
  match allSubnets with
  | [] => mret tt
  | _ => on_node "error updating node annotation" (MustUpdateNode (change_annotation add allSubnets))
  end.

Definition ensureForwardChains : M unit :=
  for_each (fun chain => on_filter "error creating forwarding IPHook chain" (CreateIPHookChainIfNotExists chain))
    [NewForwarding; NewForwardingMSSClamp].

Definition initIPtablesChains : M unit :=
  _ ← on_filter "error installing IPHook chain" (CreateIPHookChainIfNotExists NewPostRouting);
  _ ← ensureForwardChains;
  on_filter "error installing IPHook chain" (CreateIPHookChainIfNotExists NewSelfSnat).

(** Whether OVN-Kubernetes runs in the local gateway mode, by an annotation of the local
    node, which is given with the mode of each of its networks that it parses to. *)
Definition ovnGatewayConfigAnnotation : string := "k8s.ovn.org/l3-gateway-config".

Definition detectLocalGWMode (UnmarshalModes : string -> option (gmap string string))
    (GetLocalNode : result string (gmap string string)) : bool :=
  match GetLocalNode with
  | Err _ => false
  | Ok annotations =>
      match annotations !! ovnGatewayConfigAnnotation with
      | None => false
      | Some annotation =>
          match UnmarshalModes annotation with
          | None => false
          | Some gwConfig => zget "" gwConfig "default" =?? "local"
          end
      end
  end.

(** The address of the management interface, the next hop of the gateway routes
    (utils.go and the Init of the gateway route handler). *)
Fixpoint first_net (l : list (option IPNet)) : option IPNet :=
  match l with [] => None | Some n :: _ => Some n | None :: l => first_net l end.

Definition mgmt_NextHop : M string :=
  link ← on_net "failed to retrieve link by name" (LinkByName OVNK8sMgmntIntfName);
  addrs ← on_net "failed to retrieve addresses for link" (AddrList link (ipFamily cfg));
  match first_net addrs with
  | Some n => mret (ip_string (net_IP n))
  | None => fail (RaError "no address found on interface")
  end.

(** * Callbacks (handler.go) *)

(** [LegacyCleanup], whose errors are logged, is not part of it.  The connection to the
    database, the transit switch address, the watchers of the two controllers and the
    local node are given by their outcome; the result is the address the controller of
    the gateway routes keeps. *)
Definition Init (connect initTransitSwitchIP newWatcher startWatcher newNonGateway : result ra_error unit)
    (UnmarshalModes : string -> option (gmap string string)) (GetLocalNode : result string (gmap string string)) : M string :=
  _ ← initIPtablesChains;
  _ ← lift_result connect;
  _ ← lift_result initTransitSwitchIP;
  _ ← modifyw (fun w => mkWorld (cableRoutingInterface w) (detectLocalGWMode UnmarshalModes GetLocalNode) (net w) (filter w) (node w));
  _ ← lift_result newWatcher;
  mgmtIP ← mgmt_NextHop;
  _ ← lift_result startWatcher;
  _ ← (if IntraRoutingDisabled cfg then mret tt else lift_result newNonGateway);
  mret mgmtIP.

Definition LocalEndpointCreated (endpoint : EndpointSpec) : M unit :=
  let interfaceName := zget "" (BackendConfig endpoint) InterfaceNameConfig in
  routingInterface ←
    (if negb (interfaceName =?? "") then on_net "error getting local endpoint interface" (InterfaceByName interfaceName)
     else fun w => match on_net "" (Netlink.GetDefaultGatewayInterface (ipFamily cfg)) w with
                   | (Err _, w') => (Err (RaFatal "Unable to find the default interface on host"), w')
                   | r => r
                   end);
  modifyw (fun w => mkWorld (Some routingInterface) (isLocalGWMode w) (net w) (filter w) (node w)).

Definition overlaps (endpoint : EndpointSpec) : bool :=
  is_err (Cidr.OverlappingSubnets (ServiceCIDR cfg) (ClusterCIDR cfg) (Subnets endpoint)).

Definition RemoteEndpointCreated (st : Event.HandlerState) (endpoint : EndpointSpec) : M unit :=
  if overlaps endpoint then mret tt
  else joined (updateHostNetworkDataplane st ::
               (if Event.IsOnGateway st then [processEndpointSubnets true [endpoint]; updateGatewayDataplane st] else [])).

Definition RemoteEndpointUpdated (st : Event.HandlerState) (endpoint : EndpointSpec) : M unit :=
  if overlaps endpoint then mret tt
  else joined (updateHostNetworkDataplane st :: (if Event.IsOnGateway st then [updateGatewayDataplane st] else [])).

Definition RemoteEndpointRemoved (st : Event.HandlerState) (endpoint : EndpointSpec) : M unit :=
  joined (updateHostNetworkDataplane st ::
          (if Event.IsOnGateway st then [processEndpointSubnets false [endpoint]; updateGatewayDataplane st] else [])).

Definition remote_specs (st : Event.HandlerState) : list EndpointSpec := map (fun e => Spec (Event.ep_obj e)) (Event.GetRemoteEndpoints st).

Definition TransitionToNonGateway (st : Event.HandlerState) : M unit :=
  joined [processEndpointSubnets false (remote_specs st); cleanupGatewayDataplane; updateHostNetworkDataplane st].

Definition TransitionToGateway (st : Event.HandlerState) : M unit :=
  joined [processEndpointSubnets true (remote_specs st); updateGatewayDataplane st; updateHostNetworkDataplane st].

(** * The watch of the management interface (route_config_syncer.go)

    [prevIP] is the last address acted upon; an update tells the link and whether an
    address came or went.  The retries take at most [steps] attempts. *)
Definition sync_once (st : Event.HandlerState) : M unit :=
  _ ← (if Event.IsOnGateway st then updateGatewayDataplane st else mret tt);
  _ ← updateHostNetworkDataplane st;
  on_filter "error installing IPHook chain" (CreateIPHookChainIfNotExists NewPostRouting).

Fixpoint handleInterfaceAddressChange (steps : nat) (st : Event.HandlerState) : M unit :=
  r ← attempt (sync_once st);
  match r, steps with
  | Err (RaError _), Datatypes.S steps => handleInterfaceAddressChange steps st
  | r, _ => lift_result r
  end.

Definition first_address (l : list (option IPNet)) : option IP :=
  match l with Some n :: _ => Some (net_IP n) | _ => None end.

Definition handleAddressChange (steps : nat) (st : Event.HandlerState) (iface : Link) (prevIP : IP)
    (linkIndex : Z) (newAddr : bool) : M IP :=
  if negb (linkIndex =? Netlink.link_index iface) then mret prevIP
  else if negb newAddr then mret []
  else
    addrs ← attempt (on_net "" (AddrList iface IPv4));
    match addrs with
    | Err _ | Ok [] => mret prevIP
    | Ok l =>
        match first_address l with
        | Some newIP =>
            if (newIP =?? []) || Net.Equal newIP prevIP then mret prevIP
            else r ← attempt (handleInterfaceAddressChange steps st); mret (match r with Ok _ => newIP | Err _ => [] end)
        | None => fail (RaPanic "invalid memory address")
        end
    end.

(** * Uninstall (uninstall.go) *)
Definition deleteIPHookChain (table : TableType) (chain : ChainIPHook) : M unit :=
  _ ← logged (on_filter "" (ClearChain table (hook_Name chain)));
  logged (on_filter "" (DeleteIPHookChain chain)).

Definition cleanupRoutes : M unit :=
  rules ← on_net "error listing rules" (RuleList IPv4);
  for_each (fun r =>
    if (rule_Table r =? RouteAgentInterClusterNetworkTableID) || (rule_Table r =? RouteAgentHostNetworkTableID)
    then on_net "error deleting the rule" (RuleDel r) else mret tt) rules.

Definition Uninstall : M unit :=
  _ ← logged cleanupRoutes;
  _ ← logged (on_net "" (FlushRouteTable RouteAgentInterClusterNetworkTableID));
  _ ← logged (on_net "" (FlushRouteTable RouteAgentHostNetworkTableID));
  _ ← deleteIPHookChain TableTypeFilter NewForwarding;
  _ ← deleteIPHookChain TableTypeFilter NewForwardingMSSClamp;
  _ ← deleteIPHookChain TableTypeNAT NewPostRouting;
  _ ← deleteIPHookChain TableTypeNAT NewSelfSnat;
  logged (on_node "" (UpdateNode (delete OVNKSNATExcludeSubnetsAnnotation))).

(** The calls the controller makes; the others are the stubs of the base handler. *)
Definition on_callback {Node} (st : Event.HandlerState) (cb : Event.callback Node) : M unit :=
  let spec e := Spec (Event.ep_obj e) in
  match cb with
  | Event.TransitionToNonGateway _ => TransitionToNonGateway st
  | Event.TransitionToGateway => TransitionToGateway st
  | Event.LocalEndpointCreated e => LocalEndpointCreated (spec e)
  | Event.RemoteEndpointCreated e => RemoteEndpointCreated st (spec e)
  | Event.RemoteEndpointUpdated e => RemoteEndpointUpdated st (spec e)
  | Event.RemoteEndpointRemoved e => RemoteEndpointRemoved st (spec e)
  | _ => mret tt
  end.
End handler.
Arguments world W S C : clear implicits.
Arguments mkWorld {W S C} _ _ _ _ _.
Arguments cableRoutingInterface {W S C} _.
Arguments isLocalGWMode {W S C} _.
Arguments net {W S C} _.
Arguments filter {W S C} _.
Arguments node {W S C} _.

(** * What the rules of the host are *)

(** What tells rules apart: table, priority and the texts of the two sides. *)
Definition rule_id : Type := Z * Z * option string * option string.

Definition rule_key (r : Netlink.Rule) : rule_id :=
  (rule_Table r, rule_Priority r, net_string <$> rule_Dst r, net_string <$> rule_Src r).

Definition sides_in `{K8sNet} (family : IPFamily) (k : rule_id) : Prop :=
  match k with
  | (_, _, Some d, _) => IPFamilyOfCIDRString d = family
  | (_, _, None, Some s) => IPFamilyOfCIDRString s = family
  | _ => False
  end.

(** Adding a rule that exists and deleting one that does not are the errors the code
    takes for success; a listing shows the rules of the family that have a side, and
    the other calls leave the rules alone. *)
Class RuleLaws (W : Type) `{!NetlinkBasic W} `{!RuleTable W} `{K8sNet} := {
  ip_rules : W -> gset rule_id;
  rule_add_spec : forall r w x w', RuleAdd r w = (x, w') ->
    match x with
    | Ok _ => ip_rules w' = {[rule_key r]} ∪ ip_rules w
    | Err e => ip_rules w' = ip_rules w /\ (is_exist e = true -> rule_key r ∈ ip_rules w)
    end;
  rule_del_spec : forall r w x w', RuleDel r w = (x, w') ->
    match x with
    | Ok _ => ip_rules w' = ip_rules w ∖ {[rule_key r]}
    | Err e => ip_rules w' = ip_rules w /\ (is_not_exist e = true -> rule_key r ∉ ip_rules w)
    end;
  rule_list_spec : forall f w x w', RuleList f w = (x, w') -> ip_rules w' = ip_rules w /\
    forall l, x = Ok l -> forall k, sides_in f k -> k ∈ (rule_key <$> l) <-> k ∈ ip_rules w;
  rule_list_family : forall f w l w' r, RuleList f w = (Ok l, w') -> r ∈ l ->
    (is_Some (rule_Dst r) \/ is_Some (rule_Src r)) -> sides_in f (rule_key r);
  link_by_name_rules : forall n w, ip_rules (LinkByName n w).2 = ip_rules w;
  route_list_rules : forall l f w, ip_rules (RouteList l f w).2 = ip_rules w;
  route_add_rules : forall r w, ip_rules (RouteAdd r w).2 = ip_rules w;
  route_del_rules : forall r w, ip_rules (RouteDel r w).2 = ip_rules w;
}.

Section rules.
Context {W S C : Type} `{!NetlinkBasic W} `{!HostNet W} `{!RuleTable W} `{!PFDriver S} `{!NodeClient C} `{!StringLists} `{K8sNet}.
Context `{!RuleLaws W}.
Context (UnsortedList : gset string -> list string) (range_rules : gset PacketFilter.Rule -> list PacketFilter.Rule).
Context (listed : forall s, UnsortedList s ≡ₚ elements s) (cfg : HandlerConfig).

Local Abbreviation f := (ipFamily cfg).
Local Abbreviation state := (world W S C).

Definition rules_of (w : state) : gset rule_id := ip_rules (net w).

(** A CIDR in the form in which the kernel's rule prints it. *)
Definition canonical (t : string) : Prop :=
  exists n, ParseCIDR t = Some n /\ net_string n = t /\ t <> "" /\ IPFamilyOfCIDRString t = f.

#[global] Instance canonical_dec t : Decision (canonical t).
Proof.
  refine (cast_if (decide ((net_string <$> ParseCIDR t) = Some t /\ t <> "" /\ IPFamilyOfCIDRString t = f))).
  - destruct a as ((n & Hn & Ht)%fmap_Some & Hne & Hf). by exists n.
  - intros (m & Hm & Ht & Hne & Hf). apply n. rewrite Hm. cbn. by rewrite Ht.
Defined.

Definition host_key (d : string) : rule_id := (150, 150, Some d, None).
Definition gw_key (l s : string) : rule_id := (149, 149, Some l, Some s).

Definition same_rules (w w' : state) : Prop := rules_of w' = rules_of w.

#[local] Instance same_rules_pre : PreOrder same_rules.
Proof. split; [by intros w|intros w1 w2 w3 H1 H2; unfold same_rules in *; congruence]. Qed.

Lemma on_filter_rules {A} what (m : eff S pf_error A) : keeps same_rules (on_filter (W := W) (C := C) what m).
Proof. intros w. unfold on_filter. by destruct (m (filter w)). Qed.

Lemma on_node_rules {A} what (m : eff C string A) : keeps same_rules (on_node (W := W) (S := S) what m).
Proof. intros w. unfold on_node. by destruct (m (node w)). Qed.

Lemma on_net_rules {A} what (m : eff W nl_error A) : (forall x, ip_rules (m x).2 = ip_rules x) ->
  keeps same_rules (on_net (S := S) (C := C) what m).
Proof.
  intros Hm w. unfold on_net, same_rules, rules_of. specialize (Hm (net w)). by destruct (m (net w)).
Qed.

Lemma tolerate_rules p (m : eff W nl_error unit) : (forall x, ip_rules (m x).2 = ip_rules x) ->
  forall x, ip_rules (tolerate p m x).2 = ip_rules x.
Proof. intros Hm x. specialize (Hm x). unfold tolerate. destruct (m x) as [[|e] x']; done. Qed.

#[local] Hint Resolve on_filter_rules on_node_rules link_by_name_rules route_list_rules route_add_rules route_del_rules : frames.
#[local] Hint Extern 1 (keeps same_rules (on_net _ _)) => (apply on_net_rules; auto using tolerate_rules with frames) : frames.

Lemma next_hop_rules : keeps same_rules (getNextHopOnK8sMgmtIntf (S := S) (C := C) cfg : eff state _ _).
Proof. unfold getNextHopOnK8sMgmtIntf. frames. Qed.
#[local] Hint Resolve next_hop_rules : frames.

(** One rule that is added or deleted. *)
Definition adds (x y : gset rule_id) : gset rule_id := y ∪ x.
Definition dels (x y : gset rule_id) : gset rule_id := x ∖ y.

Lemma add_rule_ok (r : Netlink.Rule) (w w' : state) what : on_net what (Netlink.RuleAddIfNotPresent r) w = (Ok tt, w') ->
  rules_of w' = {[rule_key r]} ∪ rules_of w.
Proof.
  unfold on_net, Netlink.RuleAddIfNotPresent, attempt, mbind, eff_bind, rules_of.
  destruct (RuleAdd r (net w)) as [[u|e] x] eqn:E; apply rule_add_spec in E.
  - by intros [= <-].
  - destruct (is_exist e) eqn:He; [|done]. intros [= <-]. simpl. destruct E as [-> E]. specialize (E eq_refl). set_solver.
Qed.

Lemma del_rule_ok (r : Netlink.Rule) (w w' : state) what : on_net what (Netlink.RuleDelIfPresent r) w = (Ok tt, w') ->
  rules_of w' = rules_of w ∖ {[rule_key r]}.
Proof.
  unfold on_net, Netlink.RuleDelIfPresent, attempt, mbind, eff_bind, rules_of.
  destruct (RuleDel r (net w)) as [[u|e] x] eqn:E; apply rule_del_spec in E.
  - by intros [= <-].
  - destruct (is_not_exist e) eqn:He; [|done]. intros [= <-]. simpl. destruct E as [-> E]. specialize (E eq_refl). set_solver.
Qed.

Lemma rule_spec_host d : canonical d -> exists r, getRuleSpec d "" RouteAgentHostNetworkTableID = Ok r /\ rule_key r = host_key d.
Proof.
  intros (n & Hp & Hn & Hd & _). unfold getRuleSpec, parse_side. rewrite (bool_decide_false _ Hd), Hp. cbn.
  eexists. split; [done|]. unfold rule_key, host_key. cbn. by rewrite Hn.
Qed.

Lemma rule_spec_gw l t : canonical l -> canonical t -> exists r, getRuleSpec l t RouteAgentInterClusterNetworkTableID = Ok r /\ rule_key r = gw_key l t.
Proof.
  intros (n & Hp & Hn & Hd & _) (m & Hp' & Hm & Hd' & _). unfold getRuleSpec, parse_side.
  rewrite (bool_decide_false _ Hd), Hp, (bool_decide_false _ Hd'), Hp'. cbn.
  eexists. split; [done|]. unfold rule_key, gw_key. cbn. by rewrite Hn, Hm.
Qed.

(** Rules programmed one after the other, for any way of changing one. *)
Definition keyed (op : gset rule_id -> gset rule_id -> gset rule_id) (ruleFunc : Netlink.Rule -> eff W nl_error unit) : Prop :=
  forall r (w w' : state) what, on_net what (ruleFunc r) w = (Ok tt, w') -> rules_of w' = op (rules_of w) {[rule_key r]}.

Definition op_law (op : gset rule_id -> gset rule_id -> gset rule_id) : Prop :=
  (forall x, op x ∅ = x) /\ forall x a b, op (op x a) b = op x (a ∪ b).

Lemma adds_law : op_law adds.
Proof. unfold adds. split; [set_solver|]. intros. set_solver. Qed.
Lemma dels_law : op_law dels.
Proof. unfold dels. split; [set_solver|]. intros. set_solver. Qed.
Lemma adds_keyed : keyed adds Netlink.RuleAddIfNotPresent.
Proof. intros r w w' what E. apply add_rule_ok in E as ->. unfold adds. done. Qed.
Lemma dels_keyed : keyed dels Netlink.RuleDelIfPresent.
Proof. intros r w w' what E. by apply del_rule_ok in E as ->. Qed.

Lemma host_rules_programmed op ruleFunc l : op_law op -> keyed op ruleFunc -> Forall canonical l -> forall w w' : state,
  programRulesForRemoteSubnets l ruleFunc w = (Ok tt, w') -> rules_of w' = op (rules_of w) (list_to_set (host_key <$> l)).
Proof.
  intros [Hop0 Hop1] Hk. induction 1 as [|d l Hd _ IH]; intros w w'; cbn.
  - intros [= <-]. by rewrite Hop0.
  - intros [([] & w1 & E & Hr)|(? & _ & [=])]%eff_bind_inv. apply IH in Hr as ->.
    destruct (rule_spec_host _ Hd) as (r & Hs & Hkey). rewrite Hs in E. apply Hk in E as ->. by rewrite Hkey, Hop1.
Qed.

Lemma extract_subnets_elem l t : t ∈ Cidr.ExtractSubnets f l <-> t ∈ l /\ IPFamilyOfCIDRString t = f.
Proof.
  induction l as [|x l IH]; cbn; [split; [intros Ht; inversion Ht|intros [Ht _]; inversion Ht]|].
  case_bool_decide as Hx; [rewrite !elem_of_cons, IH; naive_solver|]. rewrite elem_of_cons, IH. naive_solver.
Qed.

Definition gw_keys (locals : list string) (t : string) : gset rule_id := list_to_set ((fun l => gw_key l t) <$> locals).

Lemma gw_rules_inner op ruleFunc t locals : op_law op -> keyed op ruleFunc -> canonical t -> Forall canonical locals -> forall w w' : state,
  for_each (fun localSubnet =>
    rule ← lift_result (getRuleSpec localSubnet t RouteAgentInterClusterNetworkTableID);
    on_net "error handling rule" (ruleFunc rule)) locals w = (Ok tt, w') ->
  rules_of w' = op (rules_of w) (gw_keys locals t).
Proof.
  intros [Hop0 Hop1] Hk Ht. unfold gw_keys. induction 1 as [|d l Hd _ IH]; intros w w'; cbn.
  - intros [= <-]. by rewrite Hop0.
  - intros [([] & w1 & E & Hr)|(? & _ & [=])]%eff_bind_inv. apply IH in Hr as ->.
    destruct (rule_spec_gw _ _ Hd Ht) as (r & Hs & Hkey). rewrite Hs in E. apply Hk in E as ->. by rewrite Hkey, Hop1.
Qed.

Definition local_list : list string := UnsortedList (localCIDRs cfg).

Lemma gw_rules_programmed op ruleFunc l : op_law op -> keyed op ruleFunc -> Forall canonical l -> Forall canonical local_list -> forall w w' : state,
  handleSubnets UnsortedList cfg l ruleFunc w = (Ok tt, w') ->
  rules_of w' = op (rules_of w) (⋃ (gw_keys local_list <$> l)).
Proof.
  intros Hop Hk Hl Hloc w w'. unfold handleSubnets.
  assert (He : Cidr.ExtractSubnets f l = l).
  { induction Hl as [|t l (n & _ & _ & _ & Ht) _ IH]; [done|]. cbn. by rewrite bool_decide_true, IH. }
  rewrite He. clear He. revert w w'. induction Hl as [|t l Ht _ IH]; intros w w'; cbn.
  - intros [= <-]. by rewrite (proj1 Hop).
  - intros [([] & w1 & E & Hr)|(? & _ & [=])]%eff_bind_inv. apply IH in Hr as ->.
    eapply gw_rules_inner in E as ->; [|done..]. by rewrite (proj2 Hop).
Qed.

(** * The rules of the tables are exactly those of the remote subnets *)

(** Nobody else has rules with these sides in the tables, and the kernel prints what
    it was given. *)
Definition host_table_ok (w : state) : Prop :=
  forall k, k ∈ rules_of w -> forall p d s, k = (150, p, Some d, s) -> IPFamilyOfCIDRString d = f -> k = host_key d /\ canonical d.

Lemma remote_subnets_family st t : t ∈ getRemoteSubnets cfg st -> IPFamilyOfCIDRString t = f.
Proof.
  unfold getRemoteSubnets. assert (Hgen : forall l (s0 : gset string), (forall t, t ∈ s0 -> IPFamilyOfCIDRString t = f) ->
    t ∈ foldl (fun s e => s ∪ list_to_set (subnets_of f (Spec (Event.ep_obj e)))) s0 l -> IPFamilyOfCIDRString t = f).
  { induction l as [|e l IH]; intros s0 Hs0; cbn; [apply Hs0|]. apply IH. intros t' [Ht'|Ht']%elem_of_union; [by apply Hs0|].
    apply elem_of_list_to_set, extract_subnets_elem in Ht'. apply Ht'. }
  apply Hgen. set_solver.
Qed.

Lemma existing_host (w w' : state) x : getExistingHostNetworkRoutes (S := S) (C := C) cfg w = (x, w') ->
  rules_of w' = rules_of w /\
  forall s, x = Ok s -> host_table_ok w -> forall d, d ∈ s <-> host_key d ∈ rules_of w /\ IPFamilyOfCIDRString d = f.
Proof.
  unfold getExistingHostNetworkRoutes. intros Hr.
  apply eff_bind_inv in Hr as [(l & w1 & E & [= <- <-])|(e & E & ->)]; unfold on_net in E;
    destruct (RuleList f (net w)) as [y z] eqn:El; injection E as E <-; pose proof (rule_list_spec _ _ _ _ El) as [Hz Hl];
    unfold rules_of; cbn [net]; (split; [exact Hz|]); intros s Hs Hok d; [injection Hs as <-|done].
  destruct y as [l'|]; [|done]. injection E as ->. specialize (Hl l eq_refl).
  unfold rule_texts. rewrite elem_of_list_to_set, list_elem_of_omap. split.
  - intros (r & Hi & Hr). destruct (rule_Table r =? RouteAgentHostNetworkTableID) eqn:Ht; [|done]. apply Z.eqb_eq in Ht.
    destruct (rule_Dst r) as [n|] eqn:Hd; [|done]. injection Hr as Hr.
    assert (Hf : sides_in f (rule_key r)) by (eapply rule_list_family; [exact El|done|left; by rewrite Hd]).
    assert (Hk : rule_key r ∈ ip_rules (net w)) by (apply Hl; [done|by apply list_elem_of_fmap_2]).
    unfold rule_key in Hk, Hf. rewrite Ht, Hd in Hk, Hf. cbn in Hk, Hf. rewrite Hr in Hk, Hf.
    destruct (Hok _ Hk _ _ _ eq_refl Hf) as [Heq _]. by rewrite Heq in Hk.
  - intros [Hk Hf]. specialize (Hl (host_key d) Hf). apply Hl in Hk as Hk'. apply list_elem_of_fmap in Hk' as (r & Hkey & Hi).
    exists r. split; [done|]. unfold rule_key, host_key in Hkey. injection Hkey as Ht _ Hd _.
    rewrite <- Ht. cbn. by rewrite <- Hd.
Qed.

Definition host_wanted (st : Event.HandlerState) : gset string :=
  if negb (Event.IsOnGateway st) && IntraRoutingDisabled cfg then ∅ else getRemoteSubnets cfg st.

(** The host's rules after an update without error; no other rule changes. *)
Lemma host_rules_exact st (w w' : state) :
  set_Forall canonical (getRemoteSubnets cfg st) -> host_table_ok w ->
  updateHostNetworkDataplane UnsortedList cfg st w = (Ok tt, w') ->
  (forall d, host_key d ∈ rules_of w' -> IPFamilyOfCIDRString d = f -> d ∈ host_wanted st) /\
  (forall d, d ∈ host_wanted st -> host_key d ∈ rules_of w') /\
  (forall k, (forall d, IPFamilyOfCIDRString d = f -> k <> host_key d) -> k ∈ rules_of w' <-> k ∈ rules_of w).
Proof.
  intros Hcan Hok Hr. unfold updateHostNetworkDataplane in Hr. fold (host_wanted st) in Hr.
  apply eff_bind_inv in Hr as [(cur & w1 & E & Hr)|(? & _ & [=])]. apply existing_host in E as [Hw1 Hcur].
  specialize (Hcur cur eq_refl Hok).
  apply eff_bind_inv in Hr as [([] & w2 & Ea & Hr)|(? & _ & [=])].
  apply eff_bind_inv in Hr as [([] & w3 & Ed & Hr)|(? & _ & [=])].
  apply eff_bind_inv in Hr as [(gw & w4 & En & Hr)|(? & _ & [=])].
  assert (Hwant : set_Forall canonical (host_wanted st)).
  { unfold host_wanted. by case_match. }
  apply (host_rules_programmed adds _ _ adds_law adds_keyed) in Ea.
  2:{ apply Forall_forall. intros d Hd. rewrite (listed _) in Hd. apply elem_of_elements, elem_of_difference in Hd as [Hd _]. by apply Hwant. }
  apply (host_rules_programmed dels _ _ dels_law dels_keyed) in Ed.
  2:{ apply Forall_forall. intros d Hd. rewrite (listed _) in Hd. apply elem_of_elements, elem_of_difference in Hd as [Hd _].
      apply Hcur in Hd as [Hd Hf]. by eapply Hok. }
  assert (H4 : rules_of w' = rules_of w3).
  { assert (Hn : rules_of w4 = rules_of w3) by exact (keeps_run same_rules _ _ _ _ next_hop_rules En).
    assert (Hn' : rules_of w' = rules_of w4); [|congruence].
    revert Hr. case_match; intros Hr; refine (keeps_run same_rules _ _ _ _ _ Hr).
    - exact (on_net_rules _ _ (tolerate_rules _ _ (route_del_rules _))).
    - exact (on_net_rules _ _ (tolerate_rules _ _ (route_add_rules _))). }
  rewrite Hw1 in Ea. rewrite Ea in Ed.
  assert (Hkeys : forall k, k ∈ rules_of w' <->
    (k ∈ rules_of w \/ exists d, k = host_key d /\ d ∈ host_wanted st /\ d ∉ cur) /\
    ~ exists d, k = host_key d /\ d ∈ cur /\ d ∉ host_wanted st).
  { intros k. rewrite H4, Ed. unfold adds, dels.
    rewrite elem_of_difference, elem_of_union, !elem_of_list_to_set, !list_elem_of_fmap.
    setoid_rewrite (listed _). setoid_rewrite elem_of_elements. setoid_rewrite elem_of_difference. naive_solver. }
  split; [|split].
  - intros d Hd Hf. apply Hkeys in Hd as [[Hd|(d' & [= <-] & Hd & _)] Hn]; [|done].
    destruct (decide (d ∈ host_wanted st)); [done|]. destruct Hn. exists d. split; [done|]. split; [|done]. by apply Hcur.
  - intros d Hd. apply Hkeys. split; [|by intros (d' & [= <-] & _ & ?)].
    destruct (decide (d ∈ cur)) as [Hc|Hc]; [left; by apply Hcur in Hc as [? _]|right; by exists d].
  - intros k Hk. rewrite Hkeys. split.
    + intros [[?|(d & -> & Hd & _)] _]; [done|]. destruct (Hwant d Hd) as (_ & _ & _ & _ & Hf). by destruct (Hk d Hf).
    + intros Hi. split; [by left|]. intros (d & -> & Hd & _). apply Hcur in Hd as [_ Hf]. by destruct (Hk d Hf).
Qed.

(** The same for the gateway's table: nobody else has rules from a network in it, and
    the rules of a remote subnet are there for all local networks or for none. *)
Definition gw_table_ok (w : state) : Prop :=
  (forall p d t, (149, p, d, Some t) ∈ rules_of w -> sides_in f (149, p, d, Some t) ->
     exists l, (149, p, d, Some t) = gw_key l t /\ l ∈ localCIDRs cfg /\ canonical t) /\
  (forall l l' t, gw_key l t ∈ rules_of w -> canonical t -> l ∈ localCIDRs cfg -> l' ∈ localCIDRs cfg -> gw_key l' t ∈ rules_of w).

Lemma existing_gw (w w' : state) x : getExistingRuleSubnets (S := S) (C := C) cfg w = (x, w') ->
  rules_of w' = rules_of w /\
  forall s, x = Ok s -> gw_table_ok w -> set_Forall canonical (localCIDRs cfg) ->
    forall t, t ∈ s <-> exists l, gw_key l t ∈ rules_of w /\ l ∈ localCIDRs cfg /\ canonical t.
Proof.
  unfold getExistingRuleSubnets. intros Hr.
  apply eff_bind_inv in Hr as [(l & w1 & E & [= <- <-])|(e & E & ->)]; unfold on_net in E;
    destruct (RuleList f (net w)) as [y z] eqn:El; injection E as E <-; pose proof (rule_list_spec _ _ _ _ El) as [Hz Hl];
    unfold rules_of; cbn [net]; (split; [exact Hz|]); intros s Hs Hok Hloc t; [injection Hs as <-|done].
  destruct y as [l'|]; [|done]. injection E as ->. specialize (Hl l eq_refl).
  unfold rule_texts. rewrite elem_of_list_to_set, list_elem_of_omap. split.
  - intros (r & Hi & Hr). destruct (rule_Table r =? RouteAgentInterClusterNetworkTableID) eqn:Ht; [|done]. apply Z.eqb_eq in Ht.
    destruct (rule_Src r) as [n|] eqn:Hd; [|done]. injection Hr as Hr.
    assert (Hf : sides_in f (rule_key r)) by (eapply rule_list_family; [exact El|done|right; by rewrite Hd]).
    assert (Hk : rule_key r ∈ ip_rules (net w)) by (apply Hl; [done|by apply list_elem_of_fmap_2]).
    unfold rule_key in Hk, Hf. rewrite Ht, Hd in Hk, Hf. cbn in Hk, Hf. rewrite Hr in Hk, Hf.
    destruct (proj1 Hok _ _ _ Hk Hf) as (l0 & Heq & Hl0 & Hc). exists l0. rewrite <- Heq. done.
  - intros (l0 & Hk & Hl0 & Hc). assert (Hf : sides_in f (gw_key l0 t)) by (destruct (Hloc l0 Hl0) as (_ & _ & _ & _ & Hf); exact Hf).
    specialize (Hl (gw_key l0 t) Hf). apply Hl in Hk as Hk'. apply list_elem_of_fmap in Hk' as (r & Hkey & Hi).
    exists r. split; [done|]. unfold rule_key, gw_key in Hkey. injection Hkey as Ht _ _ Hs.
    rewrite <- Ht. cbn. by rewrite <- Hs.
Qed.

Lemma gw_keys_elem k ts : k ∈ (⋃ (gw_keys local_list <$> ts) : gset rule_id) <-> exists l t, k = gw_key l t /\ l ∈ localCIDRs cfg /\ t ∈ ts.
Proof.
  rewrite elem_of_union_list. unfold gw_keys, local_list. split.
  - intros (x & (t & -> & Ht)%list_elem_of_fmap & Hk). apply elem_of_list_to_set, list_elem_of_fmap in Hk as (l & -> & Hl).
    rewrite (listed _) in Hl. apply elem_of_elements in Hl. eauto.
  - intros (l & t & -> & Hl & Ht). eexists. split; [by apply list_elem_of_fmap_2|].
    apply elem_of_list_to_set, (list_elem_of_fmap_2 (fun l => gw_key l t)). rewrite (listed _). by apply elem_of_elements.
Qed.

Lemma setup_forwarding_rules st : keeps same_rules (setupForwardingIptables UnsortedList range_rules cfg st : eff state _ _).
Proof. unfold setupForwardingIptables, setupOVNSelfSNAT, update_chain. frames. Qed.

(** The rules of the gateway's table after an update without error. *)
Lemma gw_rules_exact st (w w' : state) :
  set_Forall canonical (getRemoteSubnets cfg st) -> set_Forall canonical (localCIDRs cfg) -> gw_table_ok w ->
  updateGatewayDataplane UnsortedList range_rules cfg st w = (Ok tt, w') ->
  (forall l t, l ∈ localCIDRs cfg -> canonical t -> gw_key l t ∈ rules_of w' <-> t ∈ getRemoteSubnets cfg st) /\
  (forall k, (forall l t, l ∈ localCIDRs cfg -> canonical t -> k <> gw_key l t) -> k ∈ rules_of w' <-> k ∈ rules_of w) /\
  gw_table_ok w'.
Proof.
  intros Hcan Hloc Hok Hr. unfold updateGatewayDataplane in Hr.
  apply eff_bind_inv in Hr as [(cur & w1 & E & Hr)|(? & _ & [=])]. apply existing_gw in E as [Hw1 Hcur].
  specialize (Hcur cur eq_refl Hok Hloc).
  apply eff_bind_inv in Hr as [([] & w2 & Ea & Hr)|(? & _ & [=])].
  apply eff_bind_inv in Hr as [([] & w3 & Ed & Hr)|(? & _ & [=])].
  apply eff_bind_inv in Hr as [(route & w4 & En & Hr)|(? & _ & [=])].
  apply eff_bind_inv in Hr as [(u & w5 & Er & Hr)|(? & _ & [=])].
  assert (Hll : Forall canonical local_list).
  { apply Forall_forall. intros l Hl. unfold local_list in Hl. rewrite (listed _) in Hl. apply Hloc. by apply elem_of_elements. }
  apply (gw_rules_programmed adds _ _ adds_law adds_keyed) in Ea; [|apply Forall_forall; intros d Hd; rewrite (listed _) in Hd;
    apply elem_of_elements, elem_of_difference in Hd as [Hd _]; by apply Hcan|done].
  apply (gw_rules_programmed dels _ _ dels_law dels_keyed) in Ed; [|apply Forall_forall; intros d Hd; rewrite (listed _) in Hd;
    apply elem_of_elements, elem_of_difference in Hd as [Hd _]; apply Hcur in Hd as (_ & _ & _ & Hd); exact Hd|done].
  assert (H5 : rules_of w' = rules_of w3).
  { assert (Hn : rules_of w4 = rules_of w3).
    { refine (keeps_run same_rules (getRouteToOVNDataPlane cfg) _ _ _ _ En).
      apply keeps_bind; [apply _|apply next_hop_rules|intros; apply keeps_ret, _]. }
    assert (Hn' : rules_of w5 = rules_of w4) by exact (keeps_run same_rules _ _ _ _ (on_net_rules _ _ (tolerate_rules _ _ (route_add_rules _))) Er).
    assert (Hn'' : rules_of w' = rules_of w5) by exact (keeps_run same_rules _ _ _ _ (setup_forwarding_rules st) Hr). congruence. }
  rewrite Hw1 in Ea. rewrite Ea in Ed.
  assert (Hkeys : forall k, k ∈ rules_of w' <->
    (k ∈ rules_of w \/ exists l t, k = gw_key l t /\ l ∈ localCIDRs cfg /\ t ∈ getRemoteSubnets cfg st /\ t ∉ cur) /\
    ~ exists l t, k = gw_key l t /\ l ∈ localCIDRs cfg /\ t ∈ cur /\ t ∉ getRemoteSubnets cfg st).
  { intros k. rewrite H5, Ed. unfold adds, dels. rewrite elem_of_difference, elem_of_union, !gw_keys_elem.
    setoid_rewrite (listed _). setoid_rewrite elem_of_elements. setoid_rewrite elem_of_difference. naive_solver. }
  assert (Hex : forall l t, l ∈ localCIDRs cfg -> canonical t -> gw_key l t ∈ rules_of w' <-> t ∈ getRemoteSubnets cfg st).
  { intros l t Hl Ht. rewrite Hkeys. split.
    - intros [[Hi|(l' & t' & [= <- <-] & _ & Hi & _)] Hn]; [|done]. destruct (decide (t ∈ getRemoteSubnets cfg st)); [done|].
      destruct Hn. exists l, t. split; [done|]. split; [done|]. split; [|done]. apply Hcur. eauto.
    - intros Hi. split; [|intros (l' & t' & [= <- <-] & _ & _ & Hn); done].
      destruct (decide (t ∈ cur)) as [Hc|Hc]; [left|right; by exists l, t].
      apply Hcur in Hc as (l' & Hk & Hl' & _). by eapply (proj2 Hok). }
  split; [done|]. split.
  - intros k Hk. rewrite Hkeys. split.
    + intros [[?|(l & t & -> & Hl & Ht & _)] _]; [done|]. by destruct (Hk l t Hl (Hcan t Ht)).
    + intros Hi. split; [by left|]. intros (l & t & -> & Hl & Ht & _). apply Hcur in Ht as (_ & _ & _ & Ht). by destruct (Hk l t Hl Ht).
  - split.
    + intros p d t [[Hi|(l & t' & Heq & Hl & Ht & _)] _]%Hkeys Hs; [by apply (proj1 Hok)|].
      assert (t' = t) as -> by (unfold gw_key in Heq; congruence). exists l. split; [done|]. split; [done|]. by apply Hcan.
    + intros l l' t Hi Ht Hl Hl'. apply Hex in Hi; [|done..]. by apply Hex.
Qed.

(** * The callbacks *)
Lemma joined_cons_ok (m : eff state ra_error unit) ms w w' : joined (m :: ms) w = (Ok tt, w') ->
  exists w1, m w = (Ok tt, w1) /\ joined ms w1 = (Ok tt, w').
Proof.
  cbn [joined]. intros [(r & w1 & (r0 & [= <-] & E)%attempt_inv & Hr)|(? & (? & [=] & _)%attempt_inv & _)]%eff_bind_inv.
  destruct r as [[]|[]]; try done; [by exists w1|].
  apply eff_bind_inv in Hr as [(r2 & w2 & _ & Hr)|(? & _ & [=])]. by destruct r2.
Qed.

Lemma process_rules add l : keeps same_rules (processEndpointSubnets cfg add l : eff state _ _).
Proof. unfold processEndpointSubnets, updateNoMasqueradeRules. frames. Qed.

Definition tables_ok (w : state) : Prop := host_table_ok w /\ gw_table_ok w.

(** Both tables hold the rules of the remote endpoints' subnets and no others. *)
Definition tables_exact (st : Event.HandlerState) (w : state) : Prop :=
  (forall d, canonical d -> host_key d ∈ rules_of w <-> d ∈ host_wanted st) /\
  (forall l t, l ∈ localCIDRs cfg -> canonical t -> gw_key l t ∈ rules_of w <-> t ∈ getRemoteSubnets cfg st).

Lemma host_update_tables st (w w' : state) : set_Forall canonical (getRemoteSubnets cfg st) -> tables_ok w ->
  updateHostNetworkDataplane UnsortedList cfg st w = (Ok tt, w') ->
  tables_ok w' /\ (forall d, canonical d -> host_key d ∈ rules_of w' <-> d ∈ host_wanted st) /\
  (forall l t, gw_key l t ∈ rules_of w' <-> gw_key l t ∈ rules_of w).
Proof.
  intros Hcan [Hh Hg] Hr. apply host_rules_exact in Hr as (H1 & H2 & H3); [|done..].
  assert (Hother : forall p d t, (149, p, d, Some t) ∈ rules_of w' <-> (149, p, d, Some t) ∈ rules_of w) by (intros; by apply H3).
  split; [|split; [|intros l t; apply Hother]].
  - split.
    + intros k Hk p d s -> Hf. destruct (decide ((150, p, Some d, s) = host_key d)) as [He|He].
      * split; [done|]. rewrite He in Hk. apply H1 in Hk; [|done]. revert Hk. unfold host_wanted. case_match; [set_solver|]. apply Hcan.
      * apply H3 in Hk; [by eapply Hh|]. intros d' _ Heq. apply He. rewrite Heq. unfold host_key in *. congruence.
    + split; [intros p d t Hi Hs; apply Hother in Hi; by apply (proj1 Hg)|].
      intros l l' t Hi Ht Hl Hl'. apply Hother in Hi. apply Hother. by eapply (proj2 Hg).
  - intros d Hd. split; [|apply H2]. intros Hi. apply H1; [done|]. by destruct Hd as (? & _ & _ & _ & ?).
Qed.

Lemma gw_update_tables st (w w' : state) : set_Forall canonical (getRemoteSubnets cfg st) -> set_Forall canonical (localCIDRs cfg) ->
  tables_ok w -> updateGatewayDataplane UnsortedList range_rules cfg st w = (Ok tt, w') ->
  tables_ok w' /\ (forall l t, l ∈ localCIDRs cfg -> canonical t -> gw_key l t ∈ rules_of w' <-> t ∈ getRemoteSubnets cfg st) /\
  (forall d, host_key d ∈ rules_of w' <-> host_key d ∈ rules_of w).
Proof.
  intros Hcan Hloc [Hh Hg] Hr. apply gw_rules_exact in Hr as (H1 & H2 & H3); [|done..].
  assert (Hother : forall p d s, (150, p, d, s) ∈ rules_of w' <-> (150, p, d, s) ∈ rules_of w) by (intros; by apply H2).
  split; [|split; [done|intros d; apply Hother]]. split; [|done].
  intros k Hk p d s -> Hf. apply Hother in Hk. by eapply Hh.
Qed.

Lemma tables_same (w w' : state) : same_rules w w' -> tables_ok w -> tables_ok w'.
Proof.
  unfold same_rules. intros Hs [Hh [Hg1 Hg2]]. split; [|split].
  - intros k Hk. rewrite Hs in Hk. by apply Hh.
  - intros p d t. rewrite Hs. apply Hg1.
  - intros l l' t. rewrite Hs. apply Hg2.
Qed.

Definition programs_rules {Node} (cb : Event.callback Node) : Prop :=
  match cb with
  | Event.TransitionToGateway | Event.RemoteEndpointRemoved _ => True
  | Event.RemoteEndpointCreated e | Event.RemoteEndpointUpdated e => overlaps cfg (Spec (Event.ep_obj e)) = false
  | _ => False
  end.

(** C28: On a gateway, when the handler of the transition to gateway, of the removal of a
    remote endpoint, or of the creation or update of one that does not overlap the
    cluster's own networks reports no error, the ip rules of both tables are exactly those of the subnets of the remote endpoints, and the tables are as the
    handler expects them the next time.  It expects that the subnets of the remote
    endpoints and the cluster's networks are in canonical form, that nobody else has rules
    with these sides in the tables, and that each subnet has, in the gateway's table, the
    rules for all local networks or for none: [missing_rule_stays] and
    [unnormalised_subnet_loses_rules] below show what happens otherwise. *)
Theorem ovn_rules_follow_endpoints {Node} st (cb : Event.callback Node) (w w' : state) :
  Event.IsOnGateway st = true -> programs_rules cb ->
  set_Forall canonical (getRemoteSubnets cfg st) -> set_Forall canonical (localCIDRs cfg) -> tables_ok w ->
  on_callback UnsortedList range_rules cfg st cb w = (Ok tt, w') ->
  tables_ok w' /\ tables_exact st w'.
Proof.
  intros Hst Hcb Hcan Hloc Hok Hr.
  assert (Hhost_first : forall ms (w w' : state), tables_ok w -> Forall (keeps same_rules) ms ->
    joined (updateHostNetworkDataplane UnsortedList cfg st :: ms ++ [updateGatewayDataplane UnsortedList range_rules cfg st]) w = (Ok tt, w') ->
    tables_ok w' /\ tables_exact st w').
  { intros ms w0 w0' H0' Hms Hj. apply joined_cons_ok in Hj as (w1 & E & Hj).
    apply host_update_tables in E as (Hok1 & Hh & _); [|done..].
    assert (Hg : exists w2, same_rules w1 w2 /\ updateGatewayDataplane UnsortedList range_rules cfg st w2 = (Ok tt, w0')).
    { clear -Hms Hj. revert w1 Hj. induction Hms as [|m ms Hm _ IH]; intros w1 Hj.
      - apply joined_cons_ok in Hj as (w2 & E & Hj). cbn in Hj. injection Hj as <-. exists w1. by split.
      - apply joined_cons_ok in Hj as (w2 & E & Hj). apply IH in Hj as (w3 & Hs & Hj). exists w3. split; [|done].
        etrans; [exact (keeps_run same_rules _ _ _ _ Hm E)|done]. }
    destruct Hg as (w2 & Hs & Hg). pose proof (tables_same _ _ Hs Hok1) as Hok2.
    apply gw_update_tables in Hg as (Hok3 & Hg & Hhk); [|done..]. split; [done|]. split; [|done].
    intros d Hd. rewrite Hhk, Hs. by apply Hh. }
  destruct cb as [| |?|?|?|e|e|e|?|?|?|?]; try done; cbn [on_callback programs_rules] in Hr, Hcb; cbv beta zeta in Hr; unfold TransitionToGateway, RemoteEndpointCreated, RemoteEndpointUpdated, RemoteEndpointRemoved in Hr;
    rewrite ?Hst, ?Hcb in Hr.
  - apply joined_cons_ok in Hr as (w1 & E & Hr). apply joined_cons_ok in Hr as (w2 & E2 & Hr).
    apply joined_cons_ok in Hr as (w3 & E3 & Hr). cbn in Hr. injection Hr as <-.
    pose proof (tables_same _ _ (keeps_run same_rules _ _ _ _ (process_rules _ _) E) Hok) as Hok1.
    apply gw_update_tables in E2 as (Hok2 & Hg & _); [|done..].
    apply host_update_tables in E3 as (Hok3 & Hh & Hgk); [|done..]. split; [done|]. split; [done|].
    intros l t Hl Ht. rewrite Hgk. by apply Hg.
  - eapply (Hhost_first [processEndpointSubnets cfg true [Spec (Event.ep_obj e)]]); [done| |exact Hr].
    apply Forall_cons. split; [apply process_rules|by apply Forall_nil].
  - by eapply (Hhost_first []).
  - eapply (Hhost_first [processEndpointSubnets cfg false [Spec (Event.ep_obj e)]]); [done| |exact Hr].
    apply Forall_cons. split; [apply process_rules|by apply Forall_nil].
Qed.
End rules.

(** * The annotation *)

(** The subnets that ovn-kubernetes excludes from source NAT, as the annotation lists them. *)
Definition excluded `{!StringLists} (annotations : gmap string string) : option (list string) :=
  let t := zget "" annotations OVNKSNATExcludeSubnetsAnnotation in if t =?? "" then Some [] else Unmarshal t.

(** The annotation gains or loses exactly the subnets of the endpoints, and no other
    annotation changes; afterwards it parses. *)
Lemma change_annotation_exact `{!StringLists} `{!StringListsLaws} add subnets annotations annotations' l :
  excluded annotations = Some l -> change_annotation add subnets annotations = Ok annotations' ->
  (exists l', excluded annotations' = Some l' /\
     forall x, x ∈ l' <-> if add : bool then x ∈ l \/ x ∈ subnets else x ∈ l /\ x ∉ subnets) /\
  (forall k, k <> OVNKSNATExcludeSubnetsAnnotation -> annotations' !! k = annotations !! k).
Proof.
  unfold excluded, change_annotation. intros -> [= <-]. split; [|intros k Hk; by rewrite lookup_insert_ne].
  rewrite zget_insert_eq, bool_decide_false by apply marshal_not_empty. eexists. split; [apply unmarshal_marshal|].
  revert l. induction subnets as [|s subnets IH]; intros l x; cbn.
  - destruct add; set_solver.
  - rewrite IH. destruct add; rewrite ?append_string_elem, ?remove_string_elem; set_solver.
Qed.

(** * A host *)

(** Its rules, and after how many additions of a rule one fails. *)
Record host := mkHost { h_rules : list Netlink.Rule; h_fails : option nat }.

Definition mgmt_route : Route := mkRoute 2 [] (ParseCIDR "10.0.0.0/8") [10;128;0;1] 0 254 0 0.

Definition rule_family `{K8sNet} (r : Netlink.Rule) : option IPFamily :=
  match rule_Dst r, rule_Src r with
  | Some n, _ | None, Some n => Some (IPFamilyOfCIDRString (net_string n))
  | None, None => None
  end.

Definition host_netlink : NetlinkBasic host := {|
  LinkAdd := fun v h => (Ok v, h);
  LinkDel := fun _ h => (Ok tt, h);
  LinkByName := fun n h => (Ok (LOther n 2), h);
  LinkSetUp := fun _ h => (Ok tt, h);
  AddrAdd := fun _ _ h => (Ok tt, h);
  NeighAppend := fun _ h => (Ok tt, h);
  NeighDel := fun _ h => (Ok tt, h);
  RouteAdd := fun _ h => (Ok tt, h);
  RouteDel := fun _ h => (Ok tt, h);
  RouteReplace := fun _ h => (Ok tt, h);
  RouteList := fun _ _ h => (Ok [mgmt_route], h);
  RuleAdd := fun r h =>
    match h_fails h with
    | Some O => (Err (ErrOther "netlink receive: timeout"), mkHost (h_rules h) None)
    | n =>
        if bool_decide (rule_key r ∈ rule_key <$> h_rules h) then (Err ErrExist, h)
        else (Ok tt, mkHost (r :: h_rules h) (pred <$> n))
    end;
  RuleDel := fun r h =>
    if bool_decide (rule_key r ∈ rule_key <$> h_rules h)
    then (Ok tt, mkHost (base.filter (fun r' => rule_key r' <> rule_key r) (h_rules h)) (h_fails h))
    else (Err ErrNotExist, h);
  XfrmPolicyDel := fun _ h => (Ok tt, h);
  XfrmPolicyList := fun _ h => (Ok [], h);
  InterfaceByIndex := fun i h => (Ok (mkIface i 1500 "eth0"), h);
  ReadFile := fun _ h => (Err ErrNotExist, h);
  WriteFile := fun _ _ h => (Ok tt, h);
|}.
#[local] Existing Instance host_netlink.

Definition host_net : HostNet host := {|
  FlushRouteTable := fun _ h => (Ok tt, h);
  RouteGet := fun _ h => (Ok [], h);
  InterfaceByName := fun n h => (Ok (mkIface 3 1500 n), h);
  Addrs := fun _ h => (Ok [], h);
  Hostname_of_host := fun h => (Ok "gw", h);
  HostInterfaces := fun h => (Ok [], h);
|}.
#[local] Existing Instance host_net.
#[local] Existing Instance k8snet_ref.

Definition host_rule_table : RuleTable host := {|
  RuleList := fun f h => (Ok (base.filter (fun r => rule_family r = Some f) (h_rules h)), h);
  AddrList := fun _ _ h => (Ok [], h);
|}.
#[local] Existing Instance host_rule_table.

#[local] Instance host_laws : RuleLaws host.
Proof.
  refine {| ip_rules := fun h => list_to_set (rule_key <$> h_rules h) |}.
  - intros r w x w' E. cbn in E. destruct (h_fails w) as [[|n]|].
    + injection E as <- <-. split; [done|discriminate].
    + case_bool_decide as Hi; injection E as <- <-; [split; [done|intros _; by apply elem_of_list_to_set]|done].
    + case_bool_decide as Hi; injection E as <- <-; [split; [done|intros _; by apply elem_of_list_to_set]|done].
  - intros r w x w' E. cbn in E. case_bool_decide as Hi; injection E as <- <-.
    + apply set_eq. intros k. cbn. rewrite elem_of_difference, !elem_of_list_to_set, !list_elem_of_fmap, elem_of_singleton.
      setoid_rewrite list_elem_of_filter. naive_solver.
    + split; [done|]. intros _. by rewrite elem_of_list_to_set.
  - intros f w x w' [= <- <-]. split; [done|]. intros l [= <-] k Hk. rewrite elem_of_list_to_set, !list_elem_of_fmap.
    setoid_rewrite list_elem_of_filter. split; [naive_solver|]. intros (r & -> & Hr). exists r. split; [done|]. split; [|done].
    unfold rule_key, sides_in, rule_family in *. destruct (rule_Dst r), (rule_Src r); cbn in *; try congruence; done.
  - intros f w l w' r [= <- <-] [Hr _]%list_elem_of_filter _. unfold rule_key, sides_in, rule_family in *.
    destruct (rule_Dst r), (rule_Src r); cbn in *; try congruence.
  - done.
  - done.
  - done.
  - done.
Defined.

Definition annotations_client : NodeClient (gmap string string) := {|
  MustUpdateNode := fun f a => match f a with Ok a' => (Ok tt, a') | Err e => (Err e, a) end;
  UpdateNode := fun f a => (Ok tt, f a);
|}.
#[local] Existing Instance annotations_client.

Definition comma_lists : StringLists := {|
  Marshal := fun l => Strings.Join l ",";
  Unmarshal := fun s => Some (Strings.Split "," s);
  AppendStringIfNotPresent := fun l s => if bool_decide (s ∈ l) then l else l ++ [s];
  RemoveString := fun l s => base.filter (fun x => x <> s) l;
|}.
#[local] Existing Instance comma_lists.
#[local] Existing Instance filter_ref.

Definition ex_config (family : IPFamily) : HandlerConfig := mkConfig family ["10.128.0.0/14"; "fd01::/48"] ["172.30.0.0/16"; "fd02::/112"] false 0 false.

Definition ex_remote (cluster : string) (subnets : list string) : Event.EndpointMeta :=
  Event.mkEp (mkEndpoint (cluster +:+ "-cable") 1
    {| ClusterID := cluster; CableName := cluster +:+ "-cable"; HealthCheckIP := ""; HealthCheckIPs := [];
       Hostname := "gw-" +:+ cluster; Subnets := subnets; PrivateIP := "192.168.1.1"; PrivateIPs := [];
       PublicIP := ""; PublicIPs := []; NATEnabled := false; Backend := "vxlan"; BackendConfig := ∅ |}) "uid".

Definition ex_state (on : bool) (eps : list Event.EndpointMeta) : Event.HandlerState :=
  Event.mkState on (list_to_map ((fun e => (Event.ep_cluster e, e)) <$> eps)).

Definition ex_world (rules : list Netlink.Rule) (fails : option nat) : world host filter_state (gmap string string) :=
  mkWorld (Some (mkIface 3 1500 "eth0")) false (mkHost rules fails) (mkFilterState (fun _ _ => []) ∅) ∅.

Definition text_rule (table : Z) (d s : string) : Netlink.Rule := Netlink.mkRule table table 0 (ParseCIDR d) (ParseCIDR s).

Definition ex_callback (family : IPFamily) st (cb : Event.callback unit) w :=
  on_callback (W := host) (S := filter_state) (C := gmap string string) elements elements (ex_config family) st cb w.

Definition ex_west := ex_remote "west" ["10.4.0.0/16"; "fd00:4::/64"].
Definition ex_north := ex_remote "north" ["10.5.0.0/16"].

(** A subnet of a cluster that is gone, and an IPv6 rule of the other handler. *)
Definition ex_start : world host filter_state (gmap string string) :=
  ex_world [text_rule 150 "10.9.0.0/16" ""; text_rule 149 "10.128.0.0/14" "10.9.0.0/16"; text_rule 149 "172.30.0.0/16" "10.9.0.0/16";
            text_rule 150 "fd00:4::/64" ""] None.

Definition ex_ids (w : world host filter_state (gmap string string)) : list rule_id := rule_key <$> h_rules (net w).

Definition ex_st : Event.HandlerState := ex_state true [ex_west; ex_north].

Lemma ex_start_ok : tables_ok (S := filter_state) (C := gmap string string) (ex_config IPv4) ex_start.
Proof.
  assert (Hr : forall k, k ∈ rules_of ex_start -> k ∈ [(150, 150, Some "10.9.0.0/16", None); (149, 149, Some "10.128.0.0/14", Some "10.9.0.0/16");
    (149, 149, Some "172.30.0.0/16", Some "10.9.0.0/16"); (150, 150, Some "fd00:4::/64", None)]).
  { intros k Hk. apply elem_of_list_to_set in Hk. exact Hk. }
  split; [|split].
  - intros k Hk p d t -> Hf. apply Hr in Hk.
    repeat (apply elem_of_cons in Hk as [Hk|Hk]; [try discriminate Hk; injection Hk as -> -> ->|]); [..|inversion Hk].
    + split; [done|]. apply (bool_decide_unpack _). vm_compute. reflexivity.
    + vm_compute in Hf. discriminate Hf.
  - intros p d t Hk _. apply Hr in Hk.
    repeat (apply elem_of_cons in Hk as [Hk|Hk]; [try discriminate Hk; injection Hk as -> -> ->|]); [..|inversion Hk].
    + exists "10.128.0.0/14". split; [done|]. split; apply (bool_decide_unpack _); vm_compute; reflexivity.
    + exists "172.30.0.0/16". split; [done|]. split; apply (bool_decide_unpack _); vm_compute; reflexivity.
  - intros l l' t Hk _ _ Hl'. apply Hr in Hk.
    assert (Ht : t = "10.9.0.0/16").
    { repeat (apply elem_of_cons in Hk as [Hk|Hk]; [unfold gw_key in Hk; congruence|]). inversion Hk. }
    subst t. assert (Hll : l' ∈ ["10.128.0.0/14"; "172.30.0.0/16"]).
    { unfold localCIDRs in Hl'. apply elem_of_union in Hl' as [Hl'|Hl']; apply elem_of_list_to_set in Hl'; vm_compute in Hl'; set_solver. }
    repeat (apply elem_of_cons in Hll as [->|Hll]; [apply (bool_decide_unpack _); vm_compute; reflexivity|]). inversion Hll.
Defined.

Lemma ovn_rules_follow_endpoints_witness :
  let w := (ex_callback IPv4 ex_st (Event.RemoteEndpointCreated ex_north) ex_start).2 in
  host_key "10.9.0.0/16" ∉ rules_of w /\ gw_key "172.30.0.0/16" "10.4.0.0/16" ∈ rules_of w.
Proof.
  assert (Hr : (ex_callback IPv4 ex_st (Event.RemoteEndpointCreated ex_north) ex_start).1 = Ok tt) by (vm_compute; reflexivity).
  apply run_pair in Hr. revert Hr. generalize (ex_callback IPv4 ex_st (Event.RemoteEndpointCreated ex_north) ex_start).2. intros w Hr. cbv zeta.
  destruct (ovn_rules_follow_endpoints elements elements (fun s => reflexivity _) (ex_config IPv4) ex_st
    (Event.RemoteEndpointCreated ex_north : Event.callback unit) ex_start w eq_refl ltac:(vm_compute; reflexivity)
    ltac:(apply (bool_decide_unpack _); vm_compute; reflexivity) ltac:(apply (bool_decide_unpack _); vm_compute; reflexivity) ex_start_ok Hr)
    as [_ [Hh Hg]].
  split.
  - intros Hi. apply Hh in Hi; [|apply (bool_decide_unpack _); vm_compute; reflexivity].
    apply (bool_decide_pack _) in Hi. vm_compute in Hi. exact Hi.
  - apply Hg; apply (bool_decide_unpack _); vm_compute; reflexivity.
Defined.

(** A rule that could not be added is never added later, because its subnet has
    another rule: the handler then reports success. *)
Lemma missing_rule_stays :
  let st := ex_state true [ex_north] in
  let first := ex_callback IPv4 st (Event.RemoteEndpointCreated ex_north) (ex_world [] (Some 2%nat)) in
  let second := ex_callback IPv4 st (Event.RemoteEndpointCreated ex_north) first.2 in
  is_err first.1 = true /\ second.1 = Ok tt /\
  ex_ids second.2 = [gw_key "172.30.0.0/16" "10.5.0.0/16"; host_key "10.5.0.0/16"].
Proof. vm_compute. repeat split. Qed.

(** A subnet that is not written as the kernel prints it loses its rules at every
    second call. *)
Lemma unnormalised_subnet_loses_rules :
  let e := ex_remote "west" ["10.4.0.1/16"] in let st := ex_state true [e] in
  let first := ex_callback IPv4 st (Event.RemoteEndpointCreated e) (ex_world [] None) in
  let second := ex_callback IPv4 st (Event.RemoteEndpointUpdated e) first.2 in
  length (ex_ids first.2) = 3%nat /\ second.1 = Ok tt /\ ex_ids second.2 = [].
Proof. vm_compute. repeat split. Qed.

(** The clean-up of an IPv6 handler lists the IPv4 rules, and leaves its own. *)
Lemma uninstall_leaves_ipv6_rules :
  let w := ex_world [text_rule 150 "10.5.0.0/16" ""; text_rule 150 "fd00:4::/64" ""] None in
  ex_ids (Uninstall (W := host) (S := filter_state) (C := gmap string string) w).2 = [host_key "fd00:4::/64"].
Proof. vm_compute. reflexivity. Qed.
End OvnHost.
