(* ===== verification/OvnConnection.v ===== *)
(** How the handlers for OVN find and open the northbound database
    (src/pkg/routeagent_driver/handlers/ovn/connection.go), and the files, secrets and
    config maps of the cluster that hold its certificates
    (src/pkg/util/clusterfiles/cluster_files.go).  What is read from the API server is
    given by its outcome. *)
From stdpp Require Import base gmap list strings.
From Stdlib Require String.
From Stdlib Require Import ZArith Lia Ascii.
From S2P Require Import Prelude GoNet GoStrings K8s.
Import Strings.
Local Open Scope Z_scope.

Module ClusterFiles.

(** The parts of a URL that are used; [url.Parse] is a parameter. *)
Record URL := mkURL { Scheme : string; Host : string; Path : string }.

(** [path.Split]: up to the last slash, and after it. *)
Definition path_Split (p : string) : string * string :=
  let '(file, dir) := break (fun c => c =?? "/"%char) (rev (chars p)) in (text (rev dir), text (rev file)).

Section files.
Context (Parse : string -> option URL) (ReadFile : string -> result string string)
  (GetSecret : string -> string -> result string (gmap string string))
  (GetConfigMap : string -> string -> result string (gmap string string * gmap string string)).

Definition Get (urlAddress : string) : result string string :=
  match Parse urlAddress with
  | None => Err "error parsing cluster file URL"
  | Some parsedURL =>
      let namespace := Host parsedURL in
      let '(dir, pathFile) := path_Split (Path parsedURL) in
      let pathContainerObject := trim (fun c => c =?? "/"%char) dir in
      if (pathContainerObject =?? "") || (pathFile =?? "") then Err "cluster file URL is not well formed"
      else if Scheme parsedURL =?? "file" then
        if negb (Host parsedURL =?? "") then Err "file: URIs shouldn't specify a host"
        else map_err (fun _ => "error reading file") (ReadFile (Path parsedURL))
      else if Scheme parsedURL =?? "secret" then
        match GetSecret namespace pathContainerObject with
        | Err _ => Err "error reading secret"
        | Ok data => match data !! pathFile with Some d => Ok d | None => Err "cluster file data not found in secret" end
        end
      else if Scheme parsedURL =?? "configmap" then
        match GetConfigMap namespace pathContainerObject with
        | Err _ => Err "error reading configmap"
        | Ok (binary, data) =>
            match binary !! pathFile with
            | Some d => Ok d
            | None => match data !! pathFile with Some d => Ok d | None => Err "cluster file data not found" end
            end
        end
      else Err "the scheme in cluster file URL is not supported"
  end.
End files.
End ClusterFiles.

(** The client of the database that [newClient] makes. *)
Class OvsdbClient (W : Type) := {
  newClient : string -> bool -> eff W string unit;
  Connect : eff W string unit;
  MonitorAll : eff W string unit;
  MonitorChassis : eff W string unit;
  CloseOvsdb : W -> W;
}.

Module OvnConnection.

Definition ovnKubeService : string := "ovnkube-db".
Definition defaultOVNUnixSocket : string := "unix:/var/run/openvswitch/ovnnb_db.sock".
Definition defaultOVNOpenshiftUnixSocket : string := "unix:/var/run/ovn-ic/ovnnb_db.sock".
Definition ovnNBDBDefaultPort : Z := 6641.
Definition defaultOpenshiftOVNNBDB : string := "ssl:ovnkube-db.openshift-ovn-kubernetes.svc.cluster.local:9641".
Definition ovnPodLabel : string := "app=ovnkube-node".

(** The fields of pods and Endpoints that are read; a pod's environment by container. *)
Record Pod := mkPod { pod_Namespace : string; pod_Env : list (list (string * string)) }.
Record Port := mkPort { port_Name : string; Protocol : string }.
Record Subset := mkSubset { Addresses : list string; Ports : list Port }.
Record Endpoints := mkEndpoints { eps_Name : string; Subsets : list Subset }.

(** Errors; the dereference of a pod that was not found is one of its own. *)
Inductive error := Failed (what : string) | NilPod.

#[global] Instance error_eq_dec : EqDecision error.
Proof. solve_decision. Defined.

(** The first result of a loop that returns from its body. *)
Fixpoint first_some {A B} (f : A -> option B) (l : list A) : option B :=
  match l with
  | [] => None
  | x :: l => match f x with Some y => Some y | None => first_some f l end
  end.

Definition findProtocol (pod : Pod) : string :=
  if existsb (existsb (fun '(name, value) => (name =?? "OVN_SSL_ENABLE") && negb (ToLower value =?? "no"))) (pod_Env pod)
  then "ssl" else "tcp".

Section discovery.
Context `{K8sNet} (family : IPFamily).
Context (ListPods : string -> result string (list Pod)) (GetService : string -> string -> result string unit)
  (ListEndpoints : string -> result string (list Endpoints)).

Definition FindPod (labelSelector : string) : result error (option Pod) :=
  map_err (fun _ => Failed "error listing Pods by label selector") (head <$> ListPods labelSelector).

Definition discoverOpenshiftOvnKubernetesNetwork : result error string :=
  ovnPod ← FindPod ovnPodLabel;
  match ovnPod with
  | None => Err NilPod
  | Some pod =>
      match GetService (pod_Namespace pod) ovnKubeService with
      | Ok _ => Ok defaultOpenshiftOVNNBDB
      | Err _ => Ok defaultOVNOpenshiftUnixSocket
      end
  end.

Definition discoverKindOvnDBClusterNetwork (ovnDBPod : Pod) : result error string :=
  match GetService (pod_Namespace ovnDBPod) ovnKubeService with
  | Err _ => Err (Failed "OVN DB service is not present but expected")
  | Ok _ => Ok (findProtocol ovnDBPod +:+ ":" +:+ ovnKubeService +:+ "." +:+ pod_Namespace ovnDBPod +:+ ":" +:+ Strconv.Itoa ovnNBDBDefaultPort)
  end.

Definition address_of (ip : string) (port : Port) : option string :=
  if Contains (port_Name port) "north" then
    Some (Protocol port +:+ ":" +:+ (if family =?? IPv6 then "[" +:+ ip +:+ "]" else ip) +:+ ":" +:+ Strconv.Itoa ovnNBDBDefaultPort)
  else None.

Definition createClusterNetworkWithEndpoints (endPoints : list Endpoints) (zoneName : string) : result error string :=
  match first_some (fun e =>
    if negb (Contains (eps_Name e) zoneName) then None
    else first_some (fun subset =>
           first_some (fun ip => if negb (IPFamilyOfString ip =?? family) then None else first_some (address_of ip) (Ports subset))
             (Addresses subset)) (Subsets e)) endPoints with
  | Some a => Ok a
  | None => Err (Failed "error finding an endpoint for the zone")
  end.

Definition discoverKindOvnNodeClusterNetwork (zoneName : string) (ovnPod : Pod) : result error string :=
  match ListEndpoints (pod_Namespace ovnPod) with
  | Err _ => Err (Failed "error retrieving the endpoints")
  | Ok [] => Ok defaultOVNUnixSocket
  | Ok endpointList => createClusterNetworkWithEndpoints endpointList zoneName
  end.

Definition discoverKindOvnKubernetesNetwork (zoneName : string) : result error string :=
  ovnDBPod ← FindPod "name=ovnkube-db";
  match ovnDBPod with
  | Some pod => discoverKindOvnDBClusterNetwork pod
  | None =>
      ovnPod ← FindPod ovnPodLabel;
      match ovnPod with
      | None => Err (Failed "error finding the pod with label")
      | Some pod => discoverKindOvnNodeClusterNetwork zoneName pod
      end
  end.

(** [openshift]: whether there is an OpenShift network. *)
Definition discoverOvnKubernetesNetwork (openshift : result string bool) (zoneName : string) : result error string :=
  match openshift with
  | Err e => Err (Failed e)
  | Ok true => discoverOpenshiftOvnKubernetesNetwork
  | Ok false => discoverKindOvnKubernetesNetwork zoneName
  end.

(** The certificate, the key and the CA, by the URLs of their files; the decoding is a
    parameter. *)
Definition getTLSConfig {TLS} (Get : string -> result string string) (decode : string -> string -> string -> result string TLS)
    (certPath keyPath caPath : string) : result error TLS :=
  let get what path := map_err (fun _ => Failed what) (Get path) in
  certData ← get "error retrieving certificate data" certPath;
  pkData ← get "error retrieving private key data" keyPath;
  caData ← get "error retrieving CA data" caPath;
  map_err (fun _ => Failed "error getting OVN TLS config") (decode pkData certData caData).

(** ** The client *)
Context {W : Type} `{!OvsdbClient W}.

Definition calls {A} (what : string) (m : eff W string A) : eff W error A := fun w =>
  let '(r, w) := m w in (map_err (fun _ => Failed what) r, w).

(** [tls] is the outcome of [getTLSConfig], which is read for addresses over SSL. *)
Definition createLibovsdbClient {TLS} (zoneName : result string string) (openshift : result string bool) (tls : result error TLS)
    (northbound : bool) : eff W error unit :=
  zone ← lift_result (map_err (fun _ => Failed "error getting the node") zoneName);
  dbAddress ← lift_result (discoverOvnKubernetesNetwork openshift zone);
  let ssl := HasPrefix dbAddress "ssl:" in
  _ ← (if ssl then _ ← lift_result tls; mret tt else mret tt);
  _ ← calls "error creating ovsdbClient" (newClient dbAddress ssl);
  r ← attempt (_ ← calls "error connecting to ovsdb" Connect;
               if northbound then calls "error setting OVN NBDB client to monitor-all" MonitorAll
               else calls "error monitoring chassis table in OVN SBDB" MonitorChassis);
  match r with
  | Err e => _ ← modifyw CloseOvsdb; fail e
  | Ok _ => mret tt
  end.
End discovery.

(** * What is found *)

Lemma first_some_Some {A B} (f : A -> option B) l y : first_some f l = Some y -> exists x, x ∈ l /\ f x = Some y.
Proof.
  induction l as [|x l IH]; cbn; [done|]. destruct (f x) eqn:Hf; [intros [= ->]; exists x; split; [by left|done]|].
  intros (x' & Hx' & Hy)%IH. exists x'. split; [by right|done].
Qed.

(** The database of a zone is one whose Endpoints' name contains the zone's name, at an
    address of the handler's family. *)
Lemma zone_address `{K8sNet} family eps zone a : createClusterNetworkWithEndpoints family eps zone = Ok a ->
  exists e subset ip port, e ∈ eps /\ subset ∈ Subsets e /\ ip ∈ Addresses subset /\ port ∈ Ports subset /\
    Contains (eps_Name e) zone = true /\ IPFamilyOfString ip = family /\ address_of family ip port = Some a.
Proof.
  unfold createClusterNetworkWithEndpoints. destruct (first_some _ eps) as [a'|] eqn:Hf; [|done]. intros [= ->].
  apply first_some_Some in Hf as (e & He & Hf). destruct (Contains (eps_Name e) zone) eqn:Hc; [|done]. cbn [negb] in Hf.
  apply first_some_Some in Hf as (s & Hs & Hf). apply first_some_Some in Hf as (ip & Hip & Hf).
  case_bool_decide as Hfam; [|done]. cbn [negb] in Hf. apply first_some_Some in Hf as (p & Hp & Hf). by exists e, s, ip, p.
Qed.

(** A client that was made and could not connect is closed, and no other is. *)
Lemma client_closed `{K8sNet} {W TLS} `{!OvsdbClient W} (opened : W -> bool) family lp gs le zone os (tls : result error TLS) nb w r w' :
  (forall a s w r w', newClient a s w = (r, w') -> opened w' = is_ok r || opened w) ->
  (forall w, opened (Connect w).2 = opened w) -> (forall w, opened (MonitorAll w).2 = opened w) ->
  (forall w, opened (MonitorChassis w).2 = opened w) -> (forall w, opened (CloseOvsdb w) = false) ->
  opened w = false -> createLibovsdbClient family lp gs le zone os tls nb w = (r, w') -> opened w' = is_ok r.
Proof.
  intros Hnew Hconn Hall Hch Hclose H0 Hr. unfold createLibovsdbClient in Hr.
  apply eff_bind_inv in Hr as [(z & w1 & [= _ <-] & Hr)|(e & [= _ <-] & ->)]; [|done].
  apply eff_bind_inv in Hr as [(a & w1 & [= _ <-] & Hr)|(e & [= _ <-] & ->)]; [|done]. cbv zeta in Hr.
  assert (Htls : forall r w', (if HasPrefix a "ssl:" then _ ← lift_result tls; mret tt else mret tt : eff W error unit) w = (r, w') -> w' = w).
  { intros r0 w0. destruct (HasPrefix _ _); [|by intros [= _ <-]]. unfold mbind, eff_bind, lift_result. destruct tls; by intros [= _ <-]. }
  apply eff_bind_inv in Hr as [(t & w1 & H1 & Hr)|(e & H1 & ->)]; apply Htls in H1 as ->; [|done].
  assert (Hcalls : forall A what (m : eff W string A) w r w', (forall w, opened (m w).2 = opened w) -> calls what m w = (r, w') -> opened w' = opened w).
  { intros A what m w0 r0 w0' Hm. unfold calls. specialize (Hm w0). destruct (m w0). by intros [= _ <-]. }
  apply eff_bind_inv in Hr as [(t' & w1 & H1 & Hr)|(e & H1 & ->)]; unfold calls in H1;
    destruct (newClient _ _ w) as [rn x] eqn:Hn; apply Hnew in Hn; rewrite H0 in Hn; destruct rn; cbn in H1, Hn; simplify_eq; [|done].
  apply eff_bind_inv in Hr as [(v & w2 & H2 & Hr)|(e & H2 & _)]; apply attempt_inv in H2 as (v0 & Hv & H2); [|done]. injection Hv as ->.
  assert (H3 : opened w2 = true).
  { apply eff_bind_inv in H2 as [(u & w3 & H3 & H2)|(e & H2 & _)]; [|apply Hcalls in H2; [by rewrite H2|done]].
    apply Hcalls in H3; [|done]. destruct nb; apply Hcalls in H2; try done; by rewrite H2, H3. }
  destruct v0; [by injection Hr as <- <-|]. unfold mbind, eff_bind, modifyw, fail in Hr. injection Hr as <- <-. by rewrite Hclose.
Qed.

#[local] Existing Instance k8snet_ref.

Definition ex_endpoints (name ip : string) : Endpoints := mkEndpoints name [mkSubset [ip] [mkPort "north-db" "TCP"]].

(** The zone of one node is taken for that of another whose name it begins. *)
Lemma other_zone_taken :
  createClusterNetworkWithEndpoints IPv4 [ex_endpoints "ovnkube-node10" "10.0.0.10"; ex_endpoints "ovnkube-node1" "10.0.0.1"] "node1" =
  Ok "TCP:10.0.0.10:6641".
Proof. vm_compute. reflexivity. Qed.

(** On OpenShift the pod is used without a check that there is one. *)
Lemma missing_pod_dereferenced GetService : discoverOpenshiftOvnKubernetesNetwork (fun _ => Ok []) GetService = Err NilPod.
Proof. reflexivity. Qed.

Example secret_read :
  ClusterFiles.Get (fun _ => Some (ClusterFiles.mkURL "secret" "ns" "/ovn-cert/tls.crt")) (fun _ => Err "") 
    (fun ns name => if (ns =?? "ns") && (name =?? "ovn-cert") then Ok {["tls.crt" := "data"]} else Err "not found") (fun _ _ => Err "")
    "secret://ns/ovn-cert/tls.crt" = Ok "data".
Proof. vm_compute. reflexivity. Qed.
End OvnConnection.
