(* ===== verification/GatewayMonitor.v ===== *)
(** The gateway monitor of globalnet (src/pkg/globalnet/controllers/gateway_monitor.go):
    the chains and the marks of the traffic to other clusters, and the leader
    election that starts and stops the controllers with the gateway.  The goroutines
    of the elections and the thread of the event handler interleave. *)
From stdpp Require Import base gmap list strings fin_maps.
From Stdlib Require String.
From Stdlib Require Import ZArith Lia Ascii.
From S2P Require Import Prelude GoNet K8s Cidr Endpoint NatDiscovery CableEngine Metrics Netlink Vxlan PacketFilter Event RouteAgent GlobalnetBase.
Import Endpoint.
Local Open Scope Z_scope.

Module GatewayMonitor.
Import PacketFilter RouteAgent Globalnet.

(** * The filter *)
Definition jump_rule (chain : string) : Rule :=
  mkRule "" "" "" "" "" "" "" "" chain "" "" "" RuleActionJump RuleProtoUndefined UndefinedMSS.

Definition mark_rule (subnet : string) : Rule :=
  mkRule subnet "" "" "" "" "" "" "" "" "" "" globalNetIPTableMark RuleActionMark RuleProtoUndefined UndefinedMSS.

Section filter.
Context {S : Type} `{!PFDriver S} `{K8sNet}.

(** The first error is returned; [PanicParse] is a panic all the same. *)
Definition on_pf {A} (what : string) (m : eff S pf_error A) : eff S ra_error A := fun s =>
  let '(r, s') := m s in (map_err (pf_ra_error what) r, s').

Definition createNATChain (chainName : string) : eff S ra_error unit :=
  on_pf "error creating packetfilter chain"
    (CreateChainIfNotExists TableTypeNAT (mkChain chainName ChainPolicyAccept)).

Definition egress_jumps : list Rule :=
  jump_rule <$> [SmGlobalnetMark; SmGlobalnetEgressForPods; SmGlobalnetEgressForHeadlessSvcPods;
                 SmGlobalnetEgressForHeadlessSvcEPs; SmGlobalnetEgressForNamespace; SmGlobalnetEgressForCluster].

Definition createGlobalnetChains : eff S ra_error unit :=
  _ ← for_each (fun h => on_pf "error creating IPHook chain" (CreateIPHookChainIfNotExists h))
        [NewGlobalnetIngress; Chains.NewPostRouting];
  _ ← for_each createNATChain
        [SmGlobalnetEgress; SmGlobalnetMark; SmGlobalnetEgressForPods; SmGlobalnetEgressForHeadlessSvcPods;
         SmGlobalnetEgressForHeadlessSvcEPs; SmGlobalnetEgressForNamespace; SmGlobalnetEgressForCluster];
  _ ← on_pf "Error prepending rule"
        (PrependUnique TableTypeNAT Chains.SmPostRouting [jump_rule SmGlobalnetEgress]);
  logged (on_pf "" (PrependUnique TableTypeNAT SmGlobalnetEgress egress_jumps)).

Definition clearGlobalnetChains : eff S ra_error unit :=
  for_each (fun chain => logged (on_pf "" (ClearChain TableTypeNAT chain)))
    [SmGlobalnetIngress; SmGlobalnetEgress; SmGlobalnetMark].

(** Subnets that are not IPv4 are skipped. *)
Definition markRemoteClusterTraffic (addRules : bool) (subnets : list string) : eff S ra_error unit :=
  for_each (fun subnet =>
    if negb (IPFamilyOfCIDRString subnet =?? IPv4) then mret tt
    else logged (on_pf "" (if addRules then AppendUnique TableTypeNAT SmGlobalnetMark (mark_rule subnet)
                           else Delete TableTypeNAT SmGlobalnetMark (mark_rule subnet)))) subnets.

(** The controllers' packet filter is cleaned up by the uninstallation
    (uninstall.go); the chains are deleted in this order. *)
Definition natTableChains : list string :=
  [SmGlobalnetEgressForCluster; SmGlobalnetEgressForHeadlessSvcPods; SmGlobalnetEgressForHeadlessSvcEPs;
   SmGlobalnetEgressForNamespace; SmGlobalnetEgressForPods; SmGlobalnetIngress; SmGlobalnetMark; SmGlobalnetEgress].

(** [NewFilter]: both packet filters could be made, else the process ends. *)
Definition UninstallDataPath (prefix : string) (NewFilter : eff S pf_error unit) : eff S ra_error unit :=
  _ ← fatal "Error initializing GN PacketFilter" (on_pf "" NewFilter);
  _ ← fatal "Error initializing PacketFilter" (on_pf "" NewFilter);
  _ ← for_each (fun c => logged (on_pf "" (FlushNatChain c))) natTableChains;
  _ ← logged (on_pf "" (FlushNatChain Chains.SmPostRouting));
  _ ← logged (on_pf "" (DeleteIPHookChain NewGlobalnetIngress));
  _ ← for_each (fun c => if c =?? SmGlobalnetIngress then mret tt else logged (on_pf "" (DeleteNatChain c)))
        natTableChains;
  logged (on_pf "" (DestroySets (String.prefix prefix))).
End filter.

(** * The controllers *)
Inductive controller :=
| ClusterGlobalEgressIPController | GlobalEgressIPController | GlobalIngressIPController
| ServiceExportController | ServiceController | GatewayController.

(** What [startControllers] makes after the chains, in order: the pool and the
    collections of controllers are [None]. *)
Definition build_steps (cniIP : string) : list (option controller) :=
  [None; Some ClusterGlobalEgressIPController; Some GlobalEgressIPController; Some GlobalIngressIPController;
   None; None; None; Some ServiceExportController; Some ServiceController] ++
  (if cniIP =?? "" then [] else [Some GatewayController]).

(** The controllers made before the first step that [fails], and whether one did. *)
Fixpoint build (fails : nat -> bool) (i : nat) (steps : list (option controller)) : list controller * bool :=
  match steps with
  | [] => ([], false)
  | st :: steps =>
      if fails i then ([], true)
      else let '(l, failed) := build fails (Datatypes.S i) steps in (option_list st ++ l, failed)
  end.

(** * The monitor and its elections

    An election is the call of [RunOrDie] with the goroutines of its callbacks:
    [el_led] tells whether it got the lease, [el_starting] that the goroutine of
    [OnStartedLeading] has not run yet; its phases after [Campaign] are those of
    [OnStoppedLeading], from the closing of [stopped] on. *)
Inductive phase :=
| Campaign
| Closed
| Awaiting (other : option nat)
| Restarting
| Finished.

#[global] Instance phase_eq_dec : EqDecision phase.
Proof. solve_decision. Defined.

Record election := mkElection {
  el_cancelled : bool;
  el_led : bool;
  el_starting : bool;
  el_phase : phase;
}.

(** The thread of the event handler: between two calls, before a transition it
    is about to make, and waiting for an election to stop. *)
Inductive handler_pc :=
| HIdle
| HToGateway
| HToNonGateway
| HAwait (o : option nat)
| HStopping (o : option nat)
| HStopped.

#[global] Instance handler_pc_eq_dec : EqDecision handler_pc.
Proof. solve_decision. Defined.

Record monitor (S W : Type) := mkMonitor {
  GlobalCIDR : list string;
  cniIP : string;
  IsOnGateway : bool;
  remotes : list EndpointSpec;
  shuttingDown : bool;
  controllers : list controller;
  leaderElectionInfo : option nat;
  elections : list election;
  pc : handler_pc;
  pFilter : S;
  net : W;
}.
Arguments mkMonitor {S W}.
Arguments GlobalCIDR {S W} _.
Arguments cniIP {S W} _.
Arguments IsOnGateway {S W} _.
Arguments remotes {S W} _.
Arguments shuttingDown {S W} _.
Arguments controllers {S W} _.
Arguments leaderElectionInfo {S W} _.
Arguments elections {S W} _.
Arguments pc {S W} _.
Arguments pFilter {S W} _.
Arguments net {S W} _.

Section monitor.
Context {S W : Type} `{!PFDriver S} `{!NetlinkBasic W} `{K8sNet}.
Implicit Types (m : monitor S W).

Definition set_state (g : bool) (r : list EndpointSpec) m : monitor S W :=
  mkMonitor (GlobalCIDR m) (cniIP m) g r (shuttingDown m) (controllers m) (leaderElectionInfo m) (elections m)
    (pc m) (pFilter m) (net m).
Definition set_down (b : bool) m : monitor S W :=
  mkMonitor (GlobalCIDR m) (cniIP m) (IsOnGateway m) (remotes m) b (controllers m) (leaderElectionInfo m)
    (elections m) (pc m) (pFilter m) (net m).
Definition set_controllers (l : list controller) m : monitor S W :=
  mkMonitor (GlobalCIDR m) (cniIP m) (IsOnGateway m) (remotes m) (shuttingDown m) l (leaderElectionInfo m)
    (elections m) (pc m) (pFilter m) (net m).
Definition set_elections (i : option nat) (l : list election) m : monitor S W :=
  mkMonitor (GlobalCIDR m) (cniIP m) (IsOnGateway m) (remotes m) (shuttingDown m) (controllers m) i l
    (pc m) (pFilter m) (net m).
Definition set_pc (p : handler_pc) m : monitor S W :=
  mkMonitor (GlobalCIDR m) (cniIP m) (IsOnGateway m) (remotes m) (shuttingDown m) (controllers m)
    (leaderElectionInfo m) (elections m) p (pFilter m) (net m).
Definition set_host (s : S) (w : W) m : monitor S W :=
  mkMonitor (GlobalCIDR m) (cniIP m) (IsOnGateway m) (remotes m) (shuttingDown m) (controllers m)
    (leaderElectionInfo m) (elections m) (pc m) s w.

(** A call of the filter whose errors are logged. *)
Definition on_filter (f : eff S ra_error unit) m : monitor S W := set_host (f (pFilter m)).2 (net m) m.

(** [configureTCPMTUProbe]: the values are 2 and 1024, a failure is logged. *)
Definition configureTCPMTUProbe m : monitor S W :=
  set_host (pFilter m)
    (Netlink.ConfigureTCPMTUProbe ["2"%char] ["1"%char; "0"%char; "2"%char; "4"%char] (net m)).2 m.

Definition cancel (e : election) : election := mkElection true (el_led e) (el_starting e) (el_phase e).
Definition with_phase (p : phase) (e : election) : election :=
  mkElection (el_cancelled e) (el_led e) (el_starting e) p.

(** ** Leader election *)
Definition startLeaderElection m : monitor S W :=
  if shuttingDown m || negb (IsOnGateway m) then m
  else set_elections (Some (length (elections m))) (elections m ++ [mkElection false false false Campaign]) m.

(** [OnStartedLeading] of election [i]; [fails] tells which steps of the
    construction fail, [start_fails] whether a controller does not start. *)
Definition startControllers (fails : nat -> bool) (start_fails : bool) m : bool * monitor S W :=
  if shuttingDown m || negb (IsOnGateway m) || negb (controllers m =?? []) then (true, m)
  else
    let '(r, s) := createGlobalnetChains (pFilter m) in
    let m := set_host s (net m) m in
    match r with
    | Err _ => (false, m)
    | Ok _ =>
        let '(l, failed) := build fails 0 (build_steps (cniIP m)) in
        (negb failed && negb start_fails, set_controllers l m)
    end.

(** The part of [stopControllers] under the lock; the result is the election to wait for. *)
Definition stopControllers (clearGlobalnetChains' : bool) m : option nat * monitor S W :=
  let m := set_controllers [] m in
  let m := if clearGlobalnetChains' then on_filter clearGlobalnetChains m else m in
  let info := leaderElectionInfo m in
  (info, set_elections None
           (match info with Some i => alter cancel i (elections m) | None => elections m end) m).

(** [stopped] is closed, or there is none to wait for. *)
Definition is_stopped (o : option nat) m : bool :=
  match o with
  | None => true
  | Some i => match elections m !! i with Some e => negb (el_phase e =?? Campaign) | None => false end
  end.

(** ** The event handler *)
Definition TransitionToGateway m : monitor S W :=
  let m := foldl (fun m ep => on_filter (markRemoteClusterTraffic true (Subnets ep)) m) m (remotes m) in
  startLeaderElection (configureTCPMTUProbe m).

(** [None]: there is no global CIDR. *)
Definition RemoteEndpointCreated (ep : EndpointSpec) m : option (monitor S W) :=
  match GlobalCIDR m with
  | [] => None
  | globalCIDR :: _ =>
      Some (if from_result false (Cidr.IsOverlapping (Subnets ep) globalCIDR) then m
            else on_filter (markRemoteClusterTraffic true (Subnets ep)) m)
  end.

Definition RemoteEndpointUpdated (ep : EndpointSpec) m : option (monitor S W) := RemoteEndpointCreated ep m.

Definition RemoteEndpointRemoved (ep : EndpointSpec) m : monitor S W :=
  on_filter (markRemoteClusterTraffic false (Subnets ep)) m.

Definition TransitionToNonGateway m : option nat * monitor S W := stopControllers true m.

Definition Stop m : option nat * monitor S W := stopControllers true (set_down true m).

(** ** Steps *)
Inductive action :=
(** The event controller notes the role of the node, then calls the handler. *)
| BecomeGateway
| LeaveGateway
| CallTransition
| RemoteCreated (ep : EndpointSpec)
| RemoteUpdated (ep : EndpointSpec)
| RemoteRemoved (ep : EndpointSpec)
| Shutdown
(** A wait ends. *)
| Resume
(** The lease is acquired; the goroutine of [OnStartedLeading] runs. *)
| Acquire (i : nat)
| RunStart (i : nat) (fails : nat -> bool) (start_fails : bool)
(** [RunOrDie] returns, when it was cancelled or the lease could not be renewed,
    and [OnStoppedLeading] closes [stopped]. *)
| StopLeading (i : nat)
(** The rest of [OnStoppedLeading]. *)
| CheckRole (i : nat)
| Awaited (i : nat)
| StartAgain (i : nat).

Definition set_phase (i : nat) (p : phase) m : monitor S W :=
  set_elections (leaderElectionInfo m) (alter (with_phase p) i (elections m)) m.

Definition exec (a : action) m : option (monitor S W) :=
  match a with
  | BecomeGateway =>
      if pc m =?? HIdle then Some (set_pc (if IsOnGateway m then HIdle else HToGateway) (set_state true (remotes m) m))
      else None
  | LeaveGateway =>
      if pc m =?? HIdle then Some (set_pc (if IsOnGateway m then HToNonGateway else HIdle) (set_state false (remotes m) m))
      else None
  | CallTransition =>
      match pc m with
      | HToGateway => Some (set_pc HIdle (TransitionToGateway m))
      | HToNonGateway => let '(o, m) := TransitionToNonGateway m in Some (set_pc (HAwait o) m)
      | _ => None
      end
  | RemoteCreated ep =>
      if pc m =?? HIdle then RemoteEndpointCreated ep (set_state (IsOnGateway m) (remotes m ++ [ep]) m) else None
  | RemoteUpdated ep =>
      if pc m =?? HIdle then
        RemoteEndpointUpdated ep
          (set_state (IsOnGateway m) ((fun r => if CableName r =?? CableName ep then ep else r) <$> remotes m) m)
      else None
  | RemoteRemoved ep =>
      if pc m =?? HIdle then
        Some (RemoteEndpointRemoved ep
          (set_state (IsOnGateway m) (List.filter (fun r => negb (CableName r =?? CableName ep)) (remotes m)) m))
      else None
  | Shutdown =>
      if pc m =?? HIdle then
        let '(o, m) := Stop m in Some (set_pc (HStopping o) m)
      else None
  | Resume =>
      match pc m with
      | HAwait o => if is_stopped o m then Some (set_pc HIdle m) else None
      | HStopping o => Some (set_pc HStopped m)
      | _ => None
      end
  | Acquire i =>
      match elections m !! i with
      | Some e =>
          if (el_phase e =?? Campaign) && negb (el_led e) && negb (el_cancelled e)
          then Some (set_elections (leaderElectionInfo m) (<[i := mkElection false true true Campaign]> (elections m)) m)
          else None
      | None => None
      end
  | RunStart i fails start_fails =>
      match elections m !! i with
      | Some e =>
          if el_starting e then
            let '(ok, m) := startControllers fails start_fails m in
            Some (set_elections (leaderElectionInfo m)
              (<[i := mkElection (el_cancelled e || negb ok) (el_led e) false (el_phase e)]> (elections m)) m)
          else None
      | None => None
      end
  | StopLeading i =>
      match elections m !! i with
      | Some e => if (el_phase e =?? Campaign) && (el_cancelled e || el_led e) then Some (set_phase i Closed m) else None
      | None => None
      end
  | CheckRole i =>
      match elections m !! i with
      | Some e =>
          if el_phase e =?? Closed then
            if negb (shuttingDown m) && IsOnGateway m then
              let '(o, m) := stopControllers false m in Some (set_phase i (Awaiting o) m)
            else Some (set_phase i Finished m)
          else None
      | None => None
      end
  | Awaited i =>
      match elections m !! i with
      | Some e =>
          match el_phase e with
          | Awaiting o => if is_stopped o m then Some (set_phase i Restarting m) else None
          | _ => None
          end
      | None => None
      end
  | StartAgain i =>
      match elections m !! i with
      | Some e =>
          if el_phase e =?? Restarting then Some (set_phase i Finished (startLeaderElection m)) else None
      | None => None
      end
  end.

Fixpoint run (l : list action) m : option (monitor S W) :=
  match l with
  | [] => Some m
  | a :: l => m ← exec a m; run l m
  end.

(** [NewGatewayMonitor] and [Init], which creates the chain of the marks. *)
Definition start (globalCIDR : list string) (cni : string) (s : S) (w : W) : monitor S W :=
  mkMonitor globalCIDR cni false [] false [] None [] HIdle s w.

Definition Init : eff S ra_error unit := createNATChain SmGlobalnetMark.

(** * Lemmas *)

(** ** What the calls that touch the host leave alone *)
Lemma mark_remotes_host l m :
  exists s, foldl (fun m ep => on_filter (markRemoteClusterTraffic true (Subnets ep)) m) m l = set_host s (net m) m.
Proof.
  revert m. induction l as [|ep l IH]; intros m.
  { exists (pFilter m). by destruct m. }
  simpl. destruct (IH (on_filter (markRemoteClusterTraffic true (Subnets ep)) m)) as [s ->]. by exists s.
Qed.

Lemma TransitionToGateway_host m : exists s w, TransitionToGateway m = startLeaderElection (set_host s w m).
Proof.
  unfold TransitionToGateway. destruct (mark_remotes_host (remotes m) m) as [s ->].
  by eexists _, _.
Qed.

Lemma RemoteEndpointCreated_host ep m m' : RemoteEndpointCreated ep m = Some m' -> exists s, m' = set_host s (net m) m.
Proof.
  unfold RemoteEndpointCreated. destruct (GlobalCIDR m); [done|]. intros [= <-].
  case_match; [exists (pFilter m); by destruct m|by eexists].
Qed.

Definition cancel_info m : list election :=
  match leaderElectionInfo m with Some i => alter cancel i (elections m) | None => elections m end.

Lemma stopControllers_host b m : exists s,
  stopControllers b m = (leaderElectionInfo m, set_elections None (cancel_info m) (set_controllers [] (set_host s (net m) m))).
Proof. destruct b; [by eexists|]. exists (pFilter m). by destruct m. Qed.

(** Controllers are made only on the gateway, before the shutdown. *)
Lemma startControllers_inv fails sf m ok m' : startControllers fails sf m = (ok, m') -> exists s,
  m' = set_host s (net m) m \/
  (shuttingDown m = false /\ IsOnGateway m = true /\ exists l, m' = set_controllers l (set_host s (net m) m)).
Proof.
  unfold startControllers. destruct (shuttingDown m) eqn:Hd; simpl.
  { intros [= _ <-]. exists (pFilter m). left. by destruct m. }
  destruct (IsOnGateway m) eqn:Hg; simpl.
  2:{ intros [= _ <-]. exists (pFilter m). left. by destruct m. }
  case_match; [intros [= _ <-]; exists (pFilter m); left; by destruct m|].
  destruct (createGlobalnetChains (pFilter m)) as [[u|e] s]; [|intros [= _ <-]; exists s; by left].
  case_match. intros [= _ <-]. exists s. right. by eauto.
Qed.

(** ** Elections only advance *)
Definition over (e : election) : Prop := el_cancelled e = true \/ el_phase e <> Campaign.

Definition settled (o : option nat) (es : list election) : Prop :=
  forall i, o = Some i -> exists e, es !! i = Some e /\ over e.

(** Every wait of [m] is for an election that is over or about to be. *)
Definition waits m (o : option nat) : Prop :=
  pc m = HAwait o \/ pc m = HStopping o \/ exists j e, elections m !! j = Some e /\ el_phase e = Awaiting o.

Definition advances (es es' : list election) : Prop :=
  forall i e, es !! i = Some e -> exists e', es' !! i = Some e' /\ (over e -> over e').

Lemma advances_refl es : advances es es.
Proof. intros i e He. eauto. Qed.

Lemma advances_alter (f : election -> election) i es :
  (forall e, es !! i = Some e -> over e -> over (f e)) -> advances es (alter f i es).
Proof.
  intros Hf j e He. destruct (decide (i = j)) as [<-|Hne].
  - exists (f e). rewrite list_lookup_alter_eq, He. by eauto.
  - exists e. by rewrite list_lookup_alter_ne.
Qed.

Lemma advances_insert i e0 x es : es !! i = Some e0 -> (over e0 -> over x) -> advances es (<[i := x]> es).
Proof.
  intros H0 Hx j e He. destruct (decide (i = j)) as [<-|Hne].
  - exists x. rewrite list_lookup_insert_eq by eauto using lookup_lt_Some. split; [done|]. by simplify_eq.
  - exists e. by rewrite list_lookup_insert_ne.
Qed.

Lemma advances_snoc es e : advances es (es ++ [e]).
Proof. intros j x Hx. exists x. split; [by apply lookup_app_l_Some|done]. Qed.

Lemma settled_advances o es es' : advances es es' -> settled o es -> settled o es'.
Proof. intros Ha Hs i Hi. destruct (Hs i Hi) as (e & He & Ho). destruct (Ha i e He) as (e' & ? & ?). eauto. Qed.

Record inv m : Prop := {
  inv_down : shuttingDown m = true -> controllers m = [];
  inv_gateway : controllers m <> [] -> IsOnGateway m = true \/ pc m = HToNonGateway;
  inv_info : forall i, leaderElectionInfo m = Some i -> is_Some (elections m !! i);
  inv_waits : forall o, waits m o -> settled o (elections m);
}.

(** ** The invariant is kept *)
Lemma inv_advance m m' : inv m -> advances (elections m) (elections m') ->
  (shuttingDown m' = true -> controllers m' = []) ->
  (controllers m' <> [] -> IsOnGateway m' = true \/ pc m' = HToNonGateway) ->
  (forall i, leaderElectionInfo m' = Some i -> leaderElectionInfo m = Some i \/ is_Some (elections m' !! i)) ->
  (forall o, waits m' o -> waits m o \/ settled o (elections m')) -> inv m'.
Proof.
  intros Hi Ha Hd Hg Hf Hw. split; [done|done| |].
  - intros i [Hold|]%Hf; [|done]. destruct (inv_info _ Hi i Hold) as [e He]. destruct (Ha i e He) as (e' & -> & _). eauto.
  - intros o [Hold|]%Hw; [|done]. eapply settled_advances; [exact Ha|]. by apply (inv_waits _ Hi).
Qed.

Lemma waits_alter m m' i f o : elections m' = alter f i (elections m) ->
  (forall e, elections m !! i = Some e -> el_phase (f e) = Awaiting o -> waits m o \/ settled o (elections m')) ->
  pc m' = pc m -> waits m' o -> waits m o \/ settled o (elections m').
Proof.
  intros He Hf Hpc [Hw|[Hw|(j & e & Hj & Hp)]].
  - left. left. by rewrite <- Hpc.
  - left. right. left. by rewrite <- Hpc.
  - rewrite He in Hj. destruct (decide (i = j)) as [<-|Hne].
    + rewrite list_lookup_alter_eq in Hj. destruct (elections m !! i) as [e0|] eqn:E0; [|done].
      simplify_eq/=. by apply (Hf e0).
    + rewrite list_lookup_alter_ne in Hj by done. left. right. right. by exists j, e.
Qed.

(** An election that awaits nothing new is set. *)
Lemma waits_phase i p m o : (forall o', p <> Awaiting o') -> waits (set_phase i p m) o -> waits m o.
Proof.
  intros Hp [Hw|[Hw|(j & e & Hj & Hq)]]; [by left|by right; left|].
  simpl in Hj. destruct (decide (i = j)) as [<-|Hne].
  - rewrite list_lookup_alter_eq in Hj. destruct (elections m !! i); simplify_eq/=. by destruct (Hp o).
  - rewrite list_lookup_alter_ne in Hj by done. right. right. by exists j, e.
Qed.

Lemma advances_phase i p es : p <> Campaign -> advances es (alter (with_phase p) i es).
Proof. intros Hp. apply advances_alter. intros e _ _. by right. Qed.

Lemma inv_phase i p m : p <> Campaign -> (forall o', p <> Awaiting o') -> inv m -> inv (set_phase i p m).
Proof.
  intros Hc Ho Hi. apply (inv_advance m); [done|by apply advances_phase|apply Hi|apply Hi|by left|].
  intros o Hw. left. by apply waits_phase in Hw.
Qed.

Lemma inv_startLeaderElection m : inv m -> inv (startLeaderElection m).
Proof.
  intros Hi. unfold startLeaderElection. destruct (shuttingDown m || negb (IsOnGateway m)); [done|].
  apply (inv_advance m); [done|apply advances_snoc|apply Hi|apply Hi| |].
  - intros i [= <-]. right. simpl. rewrite lookup_app_r, Nat.sub_diag by lia. eauto.
  - intros o [Hw|[Hw|(j & e & Hj & Hp)]]; [by left; left|by left; right; left|].
    simpl in Hj. apply lookup_app_Some in Hj as [Hj|[_ Hj]]; [left; right; right; by eauto|].
    destruct (j - length (elections m))%nat; simplify_eq/=.
Qed.

Lemma inv_host s w m : inv m -> inv (set_host s w m).
Proof. intros [H1 H2 H3 H4]. by split. Qed.

Lemma cancel_settled m : inv m -> settled (leaderElectionInfo m) (cancel_info m).
Proof.
  intros Hi i Hl. destruct (inv_info _ Hi i Hl) as [e He]. exists (cancel e).
  unfold cancel_info. rewrite Hl, list_lookup_alter_eq, He. split; [done|by left].
Qed.

Lemma cancel_advances m : advances (elections m) (cancel_info m).
Proof.
  unfold cancel_info. destruct (leaderElectionInfo m); [|apply advances_refl].
  apply advances_alter. by left.
Qed.

Lemma cancel_waits m o : (exists j e, cancel_info m !! j = Some e /\ el_phase e = Awaiting o) -> waits m o.
Proof.
  unfold cancel_info. intros (j & e & Hj & Hp). right. right.
  destruct (leaderElectionInfo m) as [i|]; [|by eauto]. destruct (decide (i = j)) as [<-|Hne].
  - rewrite list_lookup_alter_eq in Hj. destruct (elections m !! i) as [e0|] eqn:E0; simplify_eq/=. by eauto.
  - rewrite list_lookup_alter_ne in Hj by done. by eauto.
Qed.

Lemma stop_inv down b m p o m' : inv m -> stopControllers b (set_down down m) = (o, m') ->
  (forall o', p = HAwait o' \/ p = HStopping o' -> o' = o \/ waits m o') ->
  inv (set_pc p m') /\ settled o (elections m').
Proof.
  intros Hi Hs Hp. destruct (stopControllers_host b (set_down down m)) as [s Hst]. rewrite Hst in Hs.
  injection Hs as <- <-. split; [|by apply cancel_settled].
  apply (inv_advance m); [done|apply cancel_advances|done|done|done|].
  intros o' [Hw|[Hw|Hw]]; [| |left; exact (cancel_waits m o' Hw)].
  - destruct (Hp o') as [->|]; [by left| |by left]. right. by apply cancel_settled.
  - destruct (Hp o') as [->|]; [by right| |by left]. right. by apply cancel_settled.
Qed.

Lemma set_down_same m : set_down (shuttingDown m) m = m.
Proof. by destruct m. Qed.

Lemma stop_pc b m o m' : stopControllers b m = (o, m') -> pc m' = pc m /\ set_pc (pc m) m' = m'.
Proof.
  destruct (stopControllers_host b m) as [s ->]. intros [= <- <-]. by destruct m.
Qed.

(** The waits of a state whose thread does not wait are those of its elections. *)
Lemma inv_idle m m' : inv m -> (forall o, pc m' <> HAwait o) -> (forall o, pc m' <> HStopping o) ->
  elections m' = elections m -> leaderElectionInfo m' = leaderElectionInfo m ->
  (shuttingDown m' = true -> controllers m' = []) ->
  (controllers m' <> [] -> IsOnGateway m' = true \/ pc m' = HToNonGateway) -> inv m'.
Proof.
  intros Hi H1 H2 He Hl Hd Hg. apply (inv_advance m); [done|rewrite He; apply advances_refl|done|done| |].
  - intros i. rewrite Hl. by left.
  - intros o [Hw|[Hw|(j & e & Hj & Hp)]]; [by destruct (H1 o)|by destruct (H2 o)|].
    left. right. right. rewrite He in Hj. eauto.
Qed.

Lemma inv_checkRole i m m' : inv m -> exec (CheckRole i) m = Some m' -> inv m'.
Proof.
  intros Hi. unfold exec. destruct (elections m !! i) as [e|] eqn:E; [|done].
  destruct (el_phase e =?? Closed); [|done].
  destruct (negb (shuttingDown m) && IsOnGateway m); [|intros [= <-]; by apply inv_phase].
  destruct (stopControllers false m) as [o m1] eqn:Hs. intros [= <-].
  pose proof (stop_pc _ _ _ _ Hs) as [Hpc Hset]. rewrite <- (set_down_same m) in Hs.
  destruct (stop_inv _ _ _ (pc m) _ _ Hi Hs) as [Hi1 Ho].
  { intros o' [Hw|Hw]; right; [by left|by right; left]. }
  rewrite Hset in Hi1. apply (inv_advance m1); [done|by apply advances_phase|apply Hi1|apply Hi1|by left|].
  intros o'. apply (waits_alter _ _ i (with_phase (Awaiting o))); [done| |done].
  intros e0 _ [= <-]. right. eapply settled_advances; [|exact Ho]. by apply advances_phase.
Qed.

Lemma inv_runStart i fails sf m m' : inv m -> exec (RunStart i fails sf) m = Some m' -> inv m'.
Proof.
  intros Hi. unfold exec. destruct (elections m !! i) as [e|] eqn:E; [|done]. destruct (el_starting e); [|done].
  destruct (startControllers fails sf m) as [ok m1] eqn:Hs. intros [= <-].
  assert (Hm1 : exists s, m1 = set_host s (net m) m \/ (shuttingDown m = false /\ IsOnGateway m = true /\
    exists l, m1 = set_controllers l (set_host s (net m) m))) by (by eapply startControllers_inv).
  assert (Hes : elections m1 = elections m /\ leaderElectionInfo m1 = leaderElectionInfo m /\ pc m1 = pc m)
    by (destruct Hm1 as [s [->|(_ & _ & l & ->)]]; done).
  destruct Hes as (Hes & Hl & Hpc).
  apply (inv_advance m); [done| | | | |]; simpl.
  - rewrite Hes. eapply advances_insert; [exact E|]. intros [Hc|Hp]; [left; simpl; by rewrite Hc|by right].
  - destruct Hm1 as [s [->|(Hd & _ & l & ->)]]; [apply Hi|]. simpl. by rewrite Hd.
  - destruct Hm1 as [s [->|(_ & Hg & l & ->)]]; [apply Hi|]. simpl. by left.
  - intros j. rewrite Hl. by left.
  - intros o [Hw|[Hw|(j & x & Hj & Hp)]]; left.
    + left. by rewrite <- Hpc.
    + right. left. by rewrite <- Hpc.
    + right. right. simpl in Hj. rewrite Hes in Hj. apply list_lookup_insert_Some in Hj as [(<- & <- & _)|[_ Hj]]; eauto.
Qed.

Lemma inv_acquire i m m' : inv m -> exec (Acquire i) m = Some m' -> inv m'.
Proof.
  intros Hi. unfold exec. destruct (elections m !! i) as [e|] eqn:E; [|done].
  destruct (el_phase e =?? Campaign) eqn:Hp; [|done]. simpl. destruct (el_led e); [done|].
  destruct (el_cancelled e) eqn:Hc; [done|]. intros [= <-].
  apply (inv_advance m); [done| |apply Hi|apply Hi|by left|]; simpl.
  - eapply advances_insert; [exact E|]. bool_props. intros [Ho|Ho]; congruence.
  - intros o [Hw|[Hw|(j & x & Hj & Hq)]]; left; [by left|by right; left|].
    right. right. simpl in Hj. apply list_lookup_insert_Some in Hj as [(<- & <- & _)|[_ Hj]]; [done|eauto].
Qed.

Lemma inv_transition m m' : inv m -> exec CallTransition m = Some m' -> inv m'.
Proof.
  intros Hi. unfold exec. destruct (pc m) eqn:Hpc; try done.
  - destruct (TransitionToGateway_host m) as (s & w & ->). intros [= <-].
    assert (Hsw : set_pc HIdle (startLeaderElection (set_host s w m)) = startLeaderElection (set_pc HIdle (set_host s w m))).
    { unfold startLeaderElection. simpl. by destruct (_ || _). }
    rewrite Hsw. apply inv_startLeaderElection, (inv_idle m); try done; [apply Hi|]. intros Hn. destruct (inv_gateway _ Hi Hn) as [|]; [by left|congruence].
  - unfold TransitionToNonGateway. destruct (stopControllers true m) as [o m1] eqn:Hs. intros [= <-]. rewrite <- (set_down_same m) in Hs.
    apply (stop_inv _ _ _ _ _ _ Hi Hs). intros o' [[= ->]|?]; [by left|done].
Qed.

Lemma inv_step a m m' : inv m -> exec a m = Some m' -> inv m'.
Proof.
  intros Hi. destruct a as [| | |ep|ep|ep| | |i|i fails sf|i|i|i|i].
  3: by apply inv_transition.
  8: by eapply inv_acquire. 8: by eapply inv_runStart. 9: by eapply inv_checkRole.
  all: unfold exec; try (destruct (pc m =?? HIdle) eqn:Hpc; [|done]; apply bool_decide_eq_true in Hpc).
  all: try (destruct (elections m !! i) as [e|] eqn:E; [|done]).
  - intros [= <-]. destruct (IsOnGateway m) eqn:Hg; apply (inv_idle m); try done; simpl; try apply Hi; by left.
  - intros [= <-]. pose proof (inv_gateway _ Hi) as Hgw.
    destruct (IsOnGateway m) eqn:Hg; apply (inv_idle m); try done; simpl; try apply Hi; [by right|].
    intros [|?]%Hgw; congruence.
  - intros (s & ->)%RemoteEndpointCreated_host. apply (inv_idle m); simpl; try apply Hi; try done; congruence.
  - intros (s & ->)%RemoteEndpointCreated_host. apply (inv_idle m); simpl; try apply Hi; try done; congruence.
  - intros [= <-]. apply (inv_idle m); simpl; try apply Hi; try done; congruence.
  - unfold Stop. destruct (stopControllers true _) as [o m1] eqn:Hs. intros [= <-].
    apply (stop_inv _ _ _ _ _ _ Hi Hs). intros o' [?|[= ->]]; [done|by left].
  - pose proof (inv_gateway _ Hi) as Hgw. destruct (pc m) as [| | |o|o|] eqn:Hpc; try done.
    + destruct (is_stopped o m); [|done]. intros [= <-]. apply (inv_idle m); simpl; try apply Hi; try done.
      intros [|?]%Hgw; [by left|done].
    + intros [= <-]. apply (inv_idle m); simpl; try apply Hi; try done. intros [|?]%Hgw; [by left|done].
  - case_match; [|done]. intros [= <-]. by apply inv_phase.
  - destruct (el_phase e); try done. destruct (is_stopped other m); [|done]. intros [= <-]. by apply inv_phase.
  - destruct (el_phase e =?? Restarting); [|done]. intros [= <-]. apply inv_phase; [done|done|].
    by apply inv_startLeaderElection.
Qed.

Lemma inv_run l m m' : inv m -> run l m = Some m' -> inv m'.
Proof.
  revert m. induction l as [|a l IH]; intros m Hi; simpl; [by intros [= <-]|].
  destruct (exec a m) as [m1|] eqn:E; [|done]. simpl. apply IH. by eapply inv_step.
Qed.

Lemma inv_start cidrs cni s w : inv (start cidrs cni s w).
Proof.
  split; [done|done|done|]. intros o [Hw|[Hw|(j & e & Hj & _)]]; done.
Qed.

Lemma stopped_or_stops o m : settled o (elections m) ->
  is_stopped o m = true \/
  exists i m', o = Some i /\ exec (StopLeading i) m = Some m' /\ is_stopped o m' = true /\ pc m' = pc m /\
    forall j e, elections m !! j = Some e -> el_phase e <> Campaign -> elections m' !! j = Some e.
Proof.
  intros Hs. destruct o as [i|]; [|by left]. destruct (Hs i eq_refl) as (e & He & Ho).
  simpl. rewrite He. destruct (el_phase e =?? Campaign) eqn:Hp; [|by left]. right. bool_props.
  destruct Ho as [Hc|]; [|done]. exists i, (set_phase i Closed m). split; [done|]. split.
  { unfold exec. by rewrite He, Hc, (bool_decide_true _ Hp). }
  simpl. rewrite list_lookup_alter_eq, He. split; [done|]. split; [done|].
  intros j e' Hj Hn. destruct (decide (i = j)) as [<-|]; [congruence|]. by rewrite list_lookup_alter_ne.
Qed.

Lemma await_restarts j e o m : elections m !! j = Some e -> el_phase e = Awaiting o -> is_stopped o m = true ->
  exists m' e', run [Awaited j; StartAgain j] m = Some m' /\ elections m' !! j = Some e' /\ el_phase e' = Finished.
Proof.
  intros Hj Hp Ho.
  assert (H1 : exec (Awaited j) m = Some (set_phase j Restarting m)) by (unfold exec; by rewrite Hj, Hp, Ho).
  assert (Hj' : elections (set_phase j Restarting m) !! j = Some (with_phase Restarting e)).
  { simpl. by rewrite list_lookup_alter_eq, Hj. }
  assert (H2 : exec (StartAgain j) (set_phase j Restarting m) =
               Some (set_phase j Finished (startLeaderElection (set_phase j Restarting m)))).
  { unfold exec. by rewrite Hj'. }
  exists (set_phase j Finished (startLeaderElection (set_phase j Restarting m))),
    (with_phase Finished (with_phase Restarting e)).
  split; [cbn [run]; rewrite H1; cbn [mbind option_bind]; by rewrite H2|]. split; [|done].
  unfold startLeaderElection. destruct (_ || _); simpl; rewrite list_lookup_alter_eq;
    [|rewrite lookup_app_l by (rewrite length_alter; eauto using lookup_lt_Some)]; by rewrite list_lookup_alter_eq, Hj.
Qed.

(** * Properties *)

(** C34: in every reachable state, whatever the elections do and however their
    goroutines interleave with the event handler, controllers run only when the
    monitor is not shutting down and the node is the gateway or its transition to
    non-gateway is about to be handled; the handling of that transition and the
    shutdown leave none. *)
Theorem controllers_only_on_gateway cidrs cni s w l m m' a :
  run l (start cidrs cni s w) = Some m ->
  (controllers m <> [] -> shuttingDown m = false /\ (IsOnGateway m = true \/ pc m = HToNonGateway)) /\
  (a = Shutdown \/ (a = CallTransition /\ pc m = HToNonGateway) -> exec a m = Some m' -> controllers m' = []).
Proof.
  intros Hrun. pose proof (inv_run _ _ _ (inv_start _ _ _ _) Hrun) as Hi. split.
  - intros Hc. split; [|by apply (inv_gateway _ Hi)]. destruct (shuttingDown m) eqn:Hd; [|done].
    by destruct (Hc (inv_down _ Hi Hd)).
  - unfold exec. intros [->|[-> Hpc]].
    + unfold Stop. destruct (pc m =?? HIdle); [|done]. destruct (stopControllers_host true (set_down true m)) as [s' ->].
      by intros [= <-].
    + unfold TransitionToNonGateway. rewrite Hpc. destruct (stopControllers_host true m) as [s' ->]. by intros [= <-].
Qed.

(** in every reachable state a transition that waits for an election to stop
    can be completed in at most two steps, and an election that waits for another
    one to stop before it starts again can start again in at most three: no wait
    is forever, because what is awaited was cancelled or has stopped. *)
Lemma election_waits_end cidrs cni s w l m :
  run l (start cidrs cni s w) = Some m ->
  (forall o, pc m = HAwait o -> exists l' m', (length l' <= 2)%nat /\ run l' m = Some m' /\ pc m' = HIdle) /\
  (forall j e o, elections m !! j = Some e -> el_phase e = Awaiting o ->
     exists l' m' e', (length l' <= 3)%nat /\ run l' m = Some m' /\
       elections m' !! j = Some e' /\ el_phase e' = Finished).
Proof.
  intros Hrun. pose proof (inv_run _ _ _ (inv_start _ _ _ _) Hrun) as Hi. split.
  - intros o Hpc. destruct (stopped_or_stops o m) as [Ho|(i & m1 & -> & Hex & Ho & Hpc1 & _)].
    { apply (inv_waits _ Hi). by left. }
    + exists [Resume]. eexists. split; [simpl; lia|]. unfold run, exec. by rewrite Hpc, Ho.
    + exists [StopLeading i; Resume]. exists (set_pc HIdle m1). split; [simpl; lia|]. split; [|done].
      cbn [run]. rewrite Hex. cbn [mbind option_bind]. unfold exec. by rewrite Hpc1, Hpc, Ho.
  - intros j e o Hj Hp. destruct (stopped_or_stops o m) as [Ho|(i & m1 & -> & Hex & Ho & _ & Hkeep)].
    { apply (inv_waits _ Hi). right. right. by eauto. }
    + destruct (await_restarts j e o m Hj Hp Ho) as (m' & e' & Hr & ?). exists [Awaited j; StartAgain j], m', e'.
      split; [simpl; lia|done].
    + apply Hkeep in Hj; [|by rewrite Hp].
      destruct (await_restarts j e (Some i) m1 Hj Hp Ho) as (m' & e' & Hr & ?).
      exists [StopLeading i; Awaited j; StartAgain j], m', e'. split; [simpl; lia|]. split; [|done].
      cbn [run]. rewrite Hex. exact Hr.
Qed.
End monitor.
Arguments action : clear implicits.

(** ** The marks *)
Section marks.
Context {S W : Type} `{!PFDriver S} `{!FilterView S} `{!PFDriverLaws S} `{!NetlinkBasic W} `{K8sNet}.
Implicit Types (m : monitor S W).

Hypothesis marks_valid : forall subnet, valid_rule (mark_rule subnet).
Hypothesis append_succeeds : forall r s, is_ok (AppendUnique TableTypeNAT SmGlobalnetMark r s).1 = true.

Definition marked (s : S) : list Rule := rules s TableTypeNAT SmGlobalnetMark.

Definition marks_added (l : list string) (s s' : S) : Prop :=
  pf_wf s' /\ (forall r, r ∈ marked s' <-> r ∈ marked s \/ exists subnet, subnet ∈ l /\
    IPFamilyOfCIDRString subnet = IPv4 /\ r = mark_rule subnet) /\
  (forall t c, c <> SmGlobalnetMark -> rules s' t c = rules s t c).

Lemma marks_added_nil s : pf_wf s -> marks_added [] s s.
Proof.
  intros Hwf. split; [done|]. split; [|done]. intros r. split; [by left|].
  intros [|(subnet & Hs & _)]; [done|set_solver].
Qed.

Lemma marks_added_app l1 l2 s s1 s2 : marks_added l1 s s1 -> marks_added l2 s1 s2 -> marks_added (l1 ++ l2) s s2.
Proof.
  intros (_ & H1 & R1) (Hw & H2 & R2). split; [done|]. split.
  - intros r. rewrite H2, H1. setoid_rewrite elem_of_app. naive_solver.
  - intros t c Hc. by rewrite R2, R1.
Qed.

Lemma mark_subnets l s : pf_wf s -> marks_added l s (markRemoteClusterTraffic true l s).2.
Proof.
  revert s. induction l as [|subnet l IH]; intros s Hwf; [by apply marks_added_nil|].
  change (subnet :: l) with ([subnet] ++ l). unfold markRemoteClusterTraffic. cbn [for_each app].
  destruct (IPFamilyOfCIDRString subnet =?? IPv4) eqn:Hf; bool_props; simpl negb; cbn match.
  - assert (Hstep : exists s1, logged (on_pf "" (AppendUnique TableTypeNAT SmGlobalnetMark (mark_rule subnet))) s = (Ok tt, s1) /\
      marks_added [subnet] s s1).
    { unfold logged, attempt, on_pf, mbind, eff_bind.
      destruct (AppendUnique TableTypeNAT SmGlobalnetMark (mark_rule subnet) s) as [r s1] eqn:Hr.
      pose proof (append_succeeds (mark_rule subnet) s) as Hok. rewrite Hr in Hok. destruct r as [[]|e]; [|done].
      exists s1. split; [done|].
      destruct (append_unique_spec TableTypeNAT SmGlobalnetMark _ (marks_valid subnet) _ _ _ Hwf Hr) as (Hw & Hc & Ho & _).
      split; [done|]. split; [|by intros; apply Ho]. intros r. unfold marked. rewrite Hc.
      case_bool_decide as Hin; [|rewrite elem_of_app, list_elem_of_singleton].
      - split; [by left|]. intros [|(? & ->%list_elem_of_singleton & _ & ->)]; done.
      - split; [intros [| -> ]; [by left|right; exists subnet; set_solver]|].
        intros [|(? & ->%list_elem_of_singleton & _ & ->)]; [by left|by right]. }
    destruct Hstep as (s1 & Hs & Hm). rewrite (eff_bind_ok _ _ _ _ _ Hs).
    apply (marks_added_app [subnet] l s s1); [done|]. apply IH, Hm.
  - apply (marks_added_app [subnet] l s s); [|by apply IH]. split; [done|]. split; [|done]. intros r.
    split; [by left|]. intros [|(? & ->%list_elem_of_singleton & ? & _)]; done.
Qed.

(** After the transition to gateway the marks are those there were and one for
    each IPv4 subnet of every remote endpoint; no other chain changed. *)
Lemma gateway_transition_marks m : pf_wf (pFilter m) ->
  marks_added (r ← remotes m; Subnets r) (pFilter m) (pFilter (TransitionToGateway m)).
Proof.
  intros Hwf. unfold TransitionToGateway.
  set (m1 := foldl _ m _). assert (Hm : marks_added (r ← remotes m; Subnets r) (pFilter m) (pFilter m1)).
  { subst m1. generalize (remotes m) as l. intros l. revert m Hwf. induction l as [|r l IH]; intros m Hwf.
    - by apply marks_added_nil.
    - cbn [foldl]. rewrite bind_cons. pose proof (mark_subnets (Subnets r) _ Hwf) as Hr.
      eapply marks_added_app; [exact Hr|]. apply (IH (on_filter (markRemoteClusterTraffic true (Subnets r)) m)).
      apply Hr. }
  assert (Hs : pFilter (startLeaderElection (configureTCPMTUProbe m1)) = pFilter m1).
  { unfold startLeaderElection. by destruct (_ || _). }
  by rewrite Hs.
Qed.
End marks.

(** * Witnesses *)
#[local] Existing Instance kernel_ref.
#[local] Existing Instance k8snet_ref.
#[local] Existing Instance filter_ref.
#[local] Existing Instance filter_ref_view.
#[local] Existing Instance filter_ref_laws.

Definition ex_start : monitor filter_state kernel :=
  start ["242.0.0.0/16"] "10.1.0.7" (mkFilterState (fun _ _ => []) ∅) VxlanDriver.ex_host.

Definition ex_gateway_run : list action := [BecomeGateway; CallTransition; Acquire 0; RunStart 0 (fun _ => false) false].

Definition after (l : list action) : monitor filter_state kernel := default ex_start (run l ex_start).

Lemma after_run l : match run l ex_start with Some _ => true | None => false end = true -> run l ex_start = Some (after l).
Proof. unfold after. by destruct (run l ex_start). Qed.

Lemma controllers_only_on_gateway_witness :
  let m := after ex_gateway_run in
  run ex_gateway_run ex_start = Some m /\ length (controllers m) = 6%nat /\ shuttingDown m = false /\
  (IsOnGateway m = true \/ pc m = HToNonGateway).
Proof.
  intros m. assert (Hr : run ex_gateway_run ex_start = Some m) by (apply after_run; vm_compute; reflexivity).
  assert (Hc : length (controllers m) = 6%nat) by (vm_compute; reflexivity). clearbody m.
  split; [exact Hr|]. split; [exact Hc|].
  apply (controllers_only_on_gateway ["242.0.0.0/16"] "10.1.0.7" (mkFilterState (fun _ _ => []) ∅) VxlanDriver.ex_host
    ex_gateway_run m ex_start Shutdown); [exact Hr|].
  intros Hn. rewrite Hn in Hc. discriminate Hc.
Defined.

(** The node stops being the gateway while its election holds the lease. *)
Definition ex_leaving_run : list action := ex_gateway_run ++ [LeaveGateway; CallTransition].

Lemma election_waits_end_witness :
  let m := after ex_leaving_run in
  run ex_leaving_run ex_start = Some m /\ pc m = HAwait (Some 0%nat) /\
  exists l' m', run l' m = Some m' /\ pc m' = HIdle.
Proof.
  intros m. assert (Hr : run ex_leaving_run ex_start = Some m) by (apply after_run; vm_compute; reflexivity).
  assert (Hp : pc m = HAwait (Some 0%nat)) by (vm_compute; reflexivity). clearbody m.
  split; [exact Hr|]. split; [exact Hp|].
  destruct (election_waits_end ["242.0.0.0/16"] "10.1.0.7" (mkFilterState (fun _ _ => []) ∅) VxlanDriver.ex_host
    ex_leaving_run m Hr) as [Hw _].
  destruct (Hw (Some 0%nat) Hp) as (l' & m' & _ & Hrun & Hidle). exists l', m'. split; [exact Hrun|exact Hidle].
Defined.

Definition ex_two_restarts : list action :=
  ex_leaving_run ++
  [StopLeading 0; Resume; BecomeGateway; CallTransition; CheckRole 0; StopLeading 1; CheckRole 1;
   Awaited 0; Awaited 1; StartAgain 0; StartAgain 1; LeaveGateway; CallTransition; StopLeading 3; CheckRole 3; Resume].

(** an election can be left running on a node that is no gateway.  The gateway
    leaves and comes back before the first election checks its role; it then
    cancels the second election, whose own check finds nothing to wait for, and
    both start an election again: the information of the first of them is lost, so
    when the gateway leaves it is neither cancelled nor awaited, and it can still
    acquire the lease. *)
Lemma election_left_running :
  let m := after ex_two_restarts in
  let m' := after (ex_two_restarts ++ [Acquire 2]) in
  run ex_two_restarts ex_start = Some m /\ pc m = HIdle /\ IsOnGateway m = false /\ leaderElectionInfo m = None /\
  run (ex_two_restarts ++ [Acquire 2]) ex_start = Some m' /\
  elections m' !! 2%nat = Some (mkElection false true true Campaign).
Proof.
  cbv zeta. split; [apply after_run; vm_compute; reflexivity|]. do 3 (split; [vm_compute; reflexivity|]).
  split; [apply after_run; vm_compute; reflexivity|]. vm_compute. reflexivity.
Qed.

(** A remote endpoint whose subnets overlap the global CIDR is not marked when it
    is created, but it is by the next transition to gateway. *)
Lemma overlapping_endpoint_marked :
  let l := [RemoteCreated (RouteAgent.Mtu.ex_ep ["242.0.1.0/24"])] in
  let l' := l ++ [BecomeGateway; CallTransition] in
  run l ex_start = Some (after l) /\ rules (pFilter (after l)) TableTypeNAT SmGlobalnetMark = [] /\
  run l' ex_start = Some (after l') /\
  rules (pFilter (after l')) TableTypeNAT SmGlobalnetMark = [mark_rule "242.0.1.0/24"].
Proof.
  cbv zeta. split; [apply after_run; vm_compute; reflexivity|]. split; [vm_compute; reflexivity|].
  split; [apply after_run; vm_compute; reflexivity|]. vm_compute. reflexivity.
Qed.
End GatewayMonitor.
