(* ===== verification/ServiceExport.v ===== *)
(** The controllers of exported services in globalnet: service_export_controller.go,
    service_controller.go, the collections of controllers they start
    (ingress_pod_controllers.go, ingress_endpoints_controllers.go,
    service_export_endpoints_controllers.go) with the controllers of one service
    (ingress_pod_controller.go, ingress_endpoints_controller.go,
    endpoints_controller.go), and the clean-up of uninstall.go, all under
    src/pkg/globalnet/controllers.  They create and delete GlobalIngressIPs, which
    GlobalIngress.v processes. *)
From stdpp Require Import base gmap list strings fin_sets.
From Stdlib Require String Ascii.
From Stdlib Require Import ZArith Lia.
From S2P Require Import Prelude GoNet K8s PacketFilter GlobalnetBase GlobalEgress GlobalIngress.

Module ServiceExport.
Import GlobalIngress.

Definition ServiceRefLabel : string := "submariner.io/serviceRef".
Definition EndpointClonedFrom : string := "endpoints.submariner.io/cloned-from".
Definition ServiceTypeClusterIP : string := "ClusterIP".
Definition ClusterIPNone : string := "None".
Definition IPv4Protocol : string := "IPv4".
Definition PodRunning : string := "Running".

(** A GlobalIngressIP with its labels. *)
Record IngressIP := mkLabelled { ii_Labels : gmap string string; ii_obj : GlobalIngressIP }.

Definition ii_Name (g : IngressIP) : string := gi_Name (ii_obj g).
Definition ii_Namespace (g : IngressIP) : string := gi_Namespace (ii_obj g).
Definition ii_Annotations (g : IngressIP) : gmap string string := gi_Annotations (ii_obj g).

(** An object that only has metadata, as it is given to a deletion. *)
Definition named (name namespace : string) (labels : gmap string string) : IngressIP :=
  mkLabelled labels (mkIngressIP name namespace ∅ (OtherTarget "") None None [] "").

Definition with_spec (annotations : gmap string string) (t : Target) (svc pod : option string) (g : IngressIP) : IngressIP :=
  mkLabelled (ii_Labels g) (mkIngressIP (ii_Name g) (ii_Namespace g) annotations t svc pod [] "").

(** The selector of a list call. *)
Inductive Selector := SelectAll | SelectLabel (key value : string) | SelectName (name : string).

Definition selects (sel : Selector) (g : IngressIP) : bool :=
  match sel with
  | SelectAll => true
  | SelectLabel k v => ii_Labels g !! k =?? Some v
  | SelectName n => ii_Name g =?? n
  end.

Definition in_namespace (ns : option string) (g : IngressIP) : bool :=
  match ns with None => true | Some ns => ii_Namespace g =?? ns end.

(** A [corev1.Service] as far as its export reads it. *)
Record ExportedService := mkExported {
  es_Name : string;
  es_Namespace : string;
  es_Type : string;
  es_ClusterIP : string;
  es_Selector : gmap string string;
  es_IPFamilies : list string;
  es_PublishNotReadyAddresses : bool;
}.

Record Pod := mkPod { pod_Name : string; pod_Namespace : string; PodIP : string; pod_Phase : string }.

(** The client and admiral's syncers: [fed_Create] and [fed_Delete] are the
    distribution by a federator that creates what does not exist, [syncer_Start]
    makes and starts the resource syncer of that name in a namespace. *)
Class ExportAPI (A : Type) := {
  gip_List : option string -> Selector -> eff A string (list IngressIP);
  gip_Create : IngressIP -> eff A string unit;
  gip_Delete : string -> string -> eff A string unit;
  gip_DeleteCollection : string -> Selector -> eff A string unit;
  fed_Create : IngressIP -> eff A string unit;
  fed_Delete : IngressIP -> eff A string unit;
  es_Get : string -> string -> eff A string (option ExportedService);
  syncer_Start : string -> string -> eff A string unit;
}.

(** [gips] are the stored objects by namespace and name; a failing call changes nothing. *)
Class ExportAPILaws (A : Type) `{!ExportAPI A} := {
  gips : A -> gmap (string * string) IngressIP;
  gips_key : forall a ns n g, gips a !! (ns, n) = Some g -> ii_Namespace g = ns /\ ii_Name g = n;
  list_gips : forall ns sel a r a', gip_List ns sel a = (r, a') -> gips a' = gips a /\
    forall l, r = Ok l -> NoDup l /\ forall g, g ∈ l <->
      gips a !! (ii_Namespace g, ii_Name g) = Some g /\ in_namespace ns g = true /\ selects sel g = true;
  create_gip : forall g a r a', gip_Create g a = (r, a') ->
    match r with
    | Ok _ => gips a !! (ii_Namespace g, ii_Name g) = None /\ gips a' = <[(ii_Namespace g, ii_Name g) := g]> (gips a)
    | Err _ => gips a' = gips a
    end;
  delete_gip : forall ns n a r a', gip_Delete ns n a = (r, a') ->
    gips a' = if is_ok r then delete (ns, n) (gips a) else gips a;
  delete_gips : forall ns sel a r a', gip_DeleteCollection ns sel a = (r, a') ->
    gips a' = if is_ok r
              then base.filter (fun '(_, g) => in_namespace (Some ns) g && selects sel g = false) (gips a)
              else gips a;
  fed_create_gip : forall g a r a', fed_Create g a = (r, a') ->
    gips a' = if is_ok r
              then match gips a !! (ii_Namespace g, ii_Name g) with
                   | Some _ => gips a
                   | None => <[(ii_Namespace g, ii_Name g) := g]> (gips a)
                   end
              else gips a;
  fed_delete_gip : forall g a r a', fed_Delete g a = (r, a') ->
    gips a' = if is_ok r then delete (ii_Namespace g, ii_Name g) (gips a) else gips a;
  get_keeps : forall ns n a, gips (es_Get ns n a).2 = gips a;
  start_keeps : forall n ns a, gips (syncer_Start n ns a).2 = gips a;
  get_named : forall ns n a s a', es_Get ns n a = (Ok (Some s), a') -> es_Namespace s = ns /\ es_Name s = n;
}.

(** [baseSyncerController.reconcile]: what its function lists. *)
Definition reconcile {A T} `{!ExportAPI A} (ns : option string) (sel : Selector) (transform : IngressIP -> option T) :
    eff A string (list T) :=
  r ← attempt (gip_List ns sel);
  mret (match r : result string (list IngressIP) with Err _ => [] | Ok l => omap transform l end).

(** * The pods of a headless service (ingress_pod_controller.go) *)
Record podController := mkPodController {
  pc_svcName : string;
  pc_namespace : string;
  pc_publishNotReadyAddresses : bool;
  ingressIPMap : gset string;
}.

Definition set_map (m : gset string) (c : podController) : podController :=
  mkPodController (pc_svcName c) (pc_namespace c) (pc_publishNotReadyAddresses c) m.

(** [fmt.Sprintf("pod-%.59s", pod.Name)] *)
Definition pod_ip_name (name : string) : string := "pod-" +:+ String.substring 0 59 name.

Section pods.
Context `{K8sNet}.

Definition IsIPv4String (s : string) : bool := IPFamilyOfString s =?? IPv4.

(** Whether a global IP is wanted for a pod. *)
Definition pod_ready (c : podController) (pod : Pod) : bool :=
  IsIPv4String (PodIP pod) && (pc_publishNotReadyAddresses c || (pod_Phase pod =?? PodRunning)).

Definition pod_process (pod : Pod) (op : GlobalEgress.Operation) (c : podController) : option IngressIP * podController :=
  let ingressIP := named (pod_ip_name (pod_Name pod)) (pod_Namespace pod) {[ServiceRefLabel := pc_svcName c]} in
  match op with
  | GlobalEgress.Delete => (Some ingressIP, set_map (ingressIPMap c ∖ {[ii_Name ingressIP]}) c)
  | _ =>
      if bool_decide (ii_Name ingressIP ∈ ingressIPMap c) || negb (pod_ready c pod) then (None, c)
      else (Some (with_spec {[headlessSvcPodIP := PodIP pod]} HeadlessServicePod (Some (pc_svcName c))
                    (Some (pod_Name pod)) ingressIP),
            set_map ({[ii_Name ingressIP]} ∪ ingressIPMap c) c)
  end.

Definition arePodsEqual (p1 p2 : Pod) : bool := (pod_Phase p1 =?? pod_Phase p2) && (PodIP p1 =?? PodIP p2).
End pods.

Definition startIngressPodController {A} `{!ExportAPI A} (svc : ExportedService) :
    eff A string (podController * list Pod) :=
  _ ← syncer_Start "Ingress Pod syncer" (es_Namespace svc);
  gone ← reconcile (Some (es_Namespace svc)) (SelectLabel ServiceRefLabel (es_Name svc))
           (fun g => (fun pod => mkPod pod (ii_Namespace g) "" "") <$> gi_PodRef (ii_obj g));
  mret (mkPodController (es_Name svc) (es_Namespace svc) (es_PublishNotReadyAddresses svc) ∅, gone).

(** * The endpoints of a service without selector (ingress_endpoints_controller.go) *)
Record Endpoints (Subset : Type) := mkEndpoints {
  ep_Name : string;
  ep_Namespace : string;
  ep_Labels : gmap string string;
  ep_Subsets : list Subset;
}.
Arguments mkEndpoints {Subset} _ _ _ _.
Arguments ep_Name {Subset} _.
Arguments ep_Namespace {Subset} _.
Arguments ep_Labels {Subset} _.
Arguments ep_Subsets {Subset} _.

Record endpointsController := mkEndpointsController { ec_svcName : string; ec_namespace : string }.

(** [fmt.Sprintf("ep-%.44s-%.15s", name, epIP)] *)
Definition ep_ip_name (name epIP : string) : string :=
  "ep-" +:+ String.substring 0 44 name +:+ "-" +:+ String.substring 0 15 epIP.

Definition newIngressIP (name namespace epIP : string) : IngressIP :=
  named (ep_ip_name name epIP) namespace {[ServiceRefLabel := name]}.

Definition ep_ingressIP (svc name namespace epIP : string) : IngressIP :=
  with_spec {[headlessSvcEndpointsIP := epIP]} HeadlessServiceEndpoints (Some svc) None (newIngressIP name namespace epIP).

Section endpoints.
Context {A Subset : Type} `{!ExportAPI A} `{K8sNet} (Addresses : Subset -> list string).
(** The order in which Go iterates over a map. *)
Context (range_ips : gset string -> list string).

Definition usedEpIPs (endpoints : Endpoints Subset) : gset string :=
  list_to_set (base.filter (fun ip => IsIPv4String ip = true) (ep_Subsets endpoints ≫= Addresses)).

(** The loop over the existing objects: the addresses that have none yet. *)
Fixpoint delete_unused (existing : list IngressIP) (used : gset string) : eff A string (gset string) :=
  match existing with
  | [] => mret used
  | g :: existing =>
      match ii_Annotations g !! headlessSvcEndpointsIP with
      | Some epIP =>
          if bool_decide (epIP ∈ used) then delete_unused existing (used ∖ {[epIP]})
          else _ ← gip_Delete (ii_Namespace g) (ii_Name g); delete_unused existing used
      | None => _ ← gip_Delete (ii_Namespace g) (ii_Name g); delete_unused existing used
      end
  end.

(** Every error makes the endpoints be processed again. *)
Definition ep_sync (c : endpointsController) (endpoints : Endpoints Subset) : eff A string unit :=
  existing ← gip_List (Some (ep_Namespace endpoints)) (SelectLabel ServiceRefLabel (ep_Name endpoints));
  used ← delete_unused existing (usedEpIPs endpoints);
  for_each (fun epIP => gip_Create (ep_ingressIP (ec_svcName c) (ep_Name endpoints) (ep_Namespace endpoints) epIP))
    (range_ips used).

Definition ep_onCreateOrUpdate (c : endpointsController) (endpoints : Endpoints Subset) : eff A string bool :=
  r ← attempt (ep_sync c endpoints); mret (is_err (E := string) (A := unit) r).

Definition ep_onDelete (endpoints : Endpoints Subset) : eff A string bool :=
  r ← attempt (gip_DeleteCollection (ep_Namespace endpoints) (SelectLabel ServiceRefLabel (ep_Name endpoints)));
  mret (is_err (E := string) (A := unit) r).

Definition ep_process (c : endpointsController) (endpoints : Endpoints Subset) (op : GlobalEgress.Operation) :
    eff A string bool :=
  match op with
  | GlobalEgress.Create | GlobalEgress.Update => ep_onCreateOrUpdate c endpoints
  | GlobalEgress.Delete => ep_onDelete endpoints
  end.

Definition startIngressEndpointsController (svc : ExportedService) :
    eff A string (endpointsController * list (Endpoints Subset)) :=
  _ ← syncer_Start "Ingress Endpoints syncer" (es_Namespace svc);
  gone ← reconcile (Some (es_Namespace svc)) (SelectName (es_Name svc))
           (fun g => (fun name => mkEndpoints name (ii_Namespace g) ∅ []) <$> gi_ServiceRef (ii_obj g));
  mret (mkEndpointsController (es_Name svc) (es_Namespace svc), gone).

Definition areEndpointsEqual `{EqDecision Subset} (e1 e2 : Endpoints Subset) : bool := ep_Subsets e1 =?? ep_Subsets e2.
End endpoints.

(** * Clones of the endpoints of a service without selector that is not headless
    (endpoints_controller.go) *)
Section clones.
Context {Subset : Type} (encoded_hash : string -> string).

Definition clone_onCreateOrUpdate (ep : Endpoints Subset) : Endpoints Subset :=
  match ep_Labels ep !! EndpointClonedFrom with
  | Some _ => ep
  | None => mkEndpoints (GetInternalSvcName encoded_hash (ep_Name ep)) (ep_Namespace ep)
              {[EndpointClonedFrom := ep_Name ep]} (ep_Subsets ep)
  end.

Definition clone_onDelete (ep : Endpoints Subset) : Endpoints Subset :=
  mkEndpoints (GetInternalSvcName encoded_hash (ep_Name ep)) (ep_Namespace ep) ∅ [].

(** The object to distribute; nothing is called again. *)
Definition clone_process (ep : Endpoints Subset) (op : GlobalEgress.Operation) : Endpoints Subset :=
  match op with
  | GlobalEgress.Create | GlobalEgress.Update => clone_onCreateOrUpdate ep
  | GlobalEgress.Delete => clone_onDelete ep
  end.
End clones.

(** The client for endpoints; [ep_Delete] is [false] when there is nothing to delete. *)
Class EndpointsClient (E Subset : Type) := {
  ep_List : eff E string (list (Endpoints Subset));
  ep_Delete : string -> string -> eff E string bool;
}.

Section cloned.
Context {E Subset : Type} `{!EndpointsClient E Subset}.

Definition deleteEndpoints (namespace name : string) : eff E string unit :=
  _ ← ep_Delete (E := E) (Subset := Subset) namespace name; mret tt.

(** Whether [ep] is a clone whose original is not listed. *)
Definition orphan (items : list (Endpoints Subset)) (ep : Endpoints Subset) : bool :=
  match ep_Labels ep !! EndpointClonedFrom with
  | None => false
  | Some origEp => negb (existsb (fun ep2 => (ep_Namespace ep =?? ep_Namespace ep2) && (origEp =?? ep_Name ep2)) items)
  end.

Definition ensureClonedHasOriginal : eff E string unit :=
  items ← ep_List;
  for_each (fun ep => if orphan items ep then deleteEndpoints (ep_Namespace ep) (ep_Name ep) else mret tt) items.
End cloned.

(** * The collections of controllers and the controller of exports *)
Definition key (n ns : string) : string := ns +:+ "/" +:+ n.

Record world (A : Type) := mkWorld {
  pods : gmap string podController;
  clones : gmap string (string * string);
  eps : gmap string endpointsController;
  api : A;
}.
Arguments mkWorld {A} _ _ _ _.
Arguments pods {A} _.
Arguments clones {A} _.
Arguments eps {A} _.
Arguments api {A} _.

Section export.
Context {A : Type} `{!ExportAPI A} `{K8sNet}.
Notation M := (eff (world A) string).

Definition set_pods (m : gmap string podController) (w : world A) : world A := mkWorld m (clones w) (eps w) (api w).
Definition set_clones (m : gmap string (string * string)) (w : world A) : world A := mkWorld (pods w) m (eps w) (api w).
Definition set_eps (m : gmap string endpointsController) (w : world A) : world A := mkWorld (pods w) (clones w) m (api w).

Definition on_api {T} (m : eff A string T) : M T := fun w =>
  let '(r, a) := m (api w) in (r, mkWorld (pods w) (clones w) (eps w) a).

(** ** [start] of the three collections *)
Definition start_pods (service : ExportedService) : M unit :=
  w ← getw;
  match pods w !! key (es_Name service) (es_Namespace service) with
  | Some _ => mret tt
  | None =>
      c ← on_api (startIngressPodController service);
      modifyw (fun w => set_pods (<[key (es_Name service) (es_Namespace service) := c.1]> (pods w)) w)
  end.

Definition start_clones (name namespace : string) : M unit :=
  w ← getw;
  match clones w !! key name namespace with
  | Some _ => mret tt
  | None =>
      _ ← on_api (syncer_Start "Endpoints syncer" namespace);
      modifyw (fun w => set_clones (<[key name namespace := (name, namespace)]> (clones w)) w)
  end.

Definition start_eps (service : ExportedService) : M unit :=
  w ← getw;
  match eps w !! key (es_Name service) (es_Namespace service) with
  | Some _ => mret tt
  | None =>
      c ← on_api (startIngressEndpointsController (Subset := unit) service);
      modifyw (fun w => set_eps (<[key (es_Name service) (es_Namespace service) := c.1]> (eps w)) w)
  end.

(** ** [stopAll] and [stopAndCleanup] *)
Definition stop_pods (w : world A) : world A := set_pods ∅ w.
Definition stop_clones (w : world A) : world A := set_clones ∅ w.
Definition stop_eps (w : world A) : world A := set_eps ∅ w.

Definition cleanup_pods (name namespace : string) : M unit :=
  _ ← modifyw (fun w => set_pods (delete (key name namespace) (pods w)) w);
  ignore (on_api (gip_DeleteCollection namespace (SelectLabel ServiceRefLabel name))).

Definition cleanup_clones (name namespace : string) : M unit :=
  modifyw (fun w => set_clones (delete (key name namespace) (clones w)) w).

Definition cleanup_eps (name namespace : string) : M unit :=
  _ ← modifyw (fun w => set_eps (delete (key name namespace) (eps w)) w);
  ignore (on_api (gip_DeleteCollection namespace (SelectLabel ServiceRefLabel name))).

(** ** The ServiceExport controller *)
Definition export_onCreate (name namespace : string) : M (option IngressIP * bool) :=
  r ← attempt (on_api (es_Get namespace name));
  match r : result string (option ExportedService) with
  | Err _ | Ok None => mret (None, true)
  | Ok (Some service) =>
      if negb (es_Type service =?? ServiceTypeClusterIP) then mret (None, false)
      else
        r ← attempt (if (es_Selector service =?? ∅) && negb (es_ClusterIP service =?? ClusterIPNone)
                     then start_clones name namespace else mret tt);
        match r : result string unit with
        | Err _ => mret (None, true)
        | Ok _ =>
            if es_ClusterIP service =?? ClusterIPNone then
              r ← attempt (if es_Selector service =?? ∅ then start_eps service else start_pods service);
              mret (None, is_err (E := string) (A := unit) r)
            else if negb (bool_decide (IPv4Protocol ∈ es_IPFamilies service)) then mret (None, false)
            else mret (Some (with_spec ∅ ClusterIPService (Some name) None (named name namespace ∅)), false)
        end
  end.

Definition export_onDelete (name namespace : string) : M (option IngressIP * bool) :=
  _ ← cleanup_pods name namespace;
  _ ← cleanup_clones name namespace;
  _ ← cleanup_eps name namespace;
  mret (Some (named name namespace ∅), false).

Definition export_process (name namespace : string) (op : GlobalEgress.Operation) : M (option IngressIP * bool) :=
  match op with
  | GlobalEgress.Create => export_onCreate name namespace
  | GlobalEgress.Delete => export_onDelete name namespace
  | GlobalEgress.Update => mret (None, false)
  end.

Definition export_Stop (w : world A) : world A := stop_eps (stop_clones (stop_pods w)).

(** The exports whose GlobalIngressIPs are stored: those that are gone are processed as deleted. *)
Definition export_reconcile : M (list (string * string)) :=
  on_api (reconcile None SelectAll (fun g => (fun name => (name, ii_Namespace g)) <$> gi_ServiceRef (ii_obj g))).

(** ** The Service controller *)
Inductive requeued := RequeueExport (name namespace : string) | RequeueIngressIP (name namespace : string).

Definition service_onDelete (service : ExportedService) : M (option IngressIP) :=
  _ ← cleanup_pods (es_Name service) (es_Namespace service);
  mret (if es_ClusterIP service =?? ClusterIPNone then None
        else Some (named (es_Name service) (es_Namespace service) ∅)).

Definition service_process (service : ExportedService) (op : GlobalEgress.Operation) :
    M (option IngressIP * list requeued) :=
  if negb (es_Type service =?? ServiceTypeClusterIP) then mret (None, [])
  else
    match op with
    | GlobalEgress.Create => mret (None, [RequeueExport (es_Name service) (es_Namespace service)])
    | GlobalEgress.Delete => obj ← service_onDelete service; mret (obj, [])
    | GlobalEgress.Update => mret (None, [RequeueIngressIP (es_Name service) (es_Namespace service)])
    end.
End export.

(** * Uninstallation (uninstall.go) *)
Section uninstall.
Context {A K Port : Type} `{!ExportAPI A} `{!ServiceClient K Port} (encoded_hash : string -> string).

Definition on_fst {T} (m : eff A string T) : eff (A * K) string T := fun w =>
  let '(r, a) := m w.1 in (r, (a, w.2)).
Definition on_snd {T} (m : eff K string T) : eff (A * K) string T := fun w =>
  let '(r, k) := m w.2 in (r, (w.1, k)).

(** The errors are logged. *)
Definition deleteInternalService (g : IngressIP) : eff (A * K) string unit :=
  match gi_ServiceRef (ii_obj g) with
  | None => mret tt
  | Some ref =>
      let internalSvc := GetInternalSvcName encoded_hash ref in
      r ← attempt (on_snd (svc_Get (ii_Namespace g) internalSvc));
      match r : result string (option (Service Port)) with
      | Ok (Some service) =>
          _ ← ignore (on_snd (svc_RemoveFinalizer (ii_Namespace g) service InternalServiceFinalizer));
          ignore (on_snd (svc_Delete (K := K) (Port := Port) (ii_Namespace g) internalSvc))
      | _ => mret tt
      end
  end.

(** [delete_all]: the deletion of all GlobalIngressIPs, which is deferred until the
    services are deleted. *)
Definition deleteGlobalIngressIPs (delete_all : eff A string unit) : eff (A * K) string unit :=
  r ← attempt (on_fst (gip_List None SelectAll));
  match r : result string (list IngressIP) with
  | Err _ => mret tt
  | Ok items => _ ← for_each deleteInternalService items; ignore (on_fst delete_all)
  end.

(** [delete_cluster_egress], [delete_egress]: the deletion of the other two kinds. *)
Definition DeleteGlobalnetObjects (delete_cluster_egress delete_egress delete_all : eff A string unit) :
    eff (A * K) string unit :=
  _ ← ignore (on_fst delete_cluster_egress);
  _ ← ignore (on_fst delete_egress);
  deleteGlobalIngressIPs delete_all.

(** [items]: the internal services listed by their label, and whether they have a
    deletion timestamp. *)
Definition RemoveStaleInternalServices (list_services : eff K string (list (Service Port * bool))) :
    eff K string unit :=
  items ← list_services;
  for_each (fun '(svc, deleting) =>
    if deleting : bool then svc_RemoveFinalizer (svc_Namespace svc) svc InternalServiceFinalizer else mret tt) items.
End uninstall.

(** * An API on which the laws hold: every call succeeds, except the creation of an
    object that exists and, when it is [down], the creations of the federator;
    [running] is the service that can be read. *)
Abbreviation gip_map := (gmap (string * string) IngressIP).

Definition keyOf (g : IngressIP) : string * string := (ii_Namespace g, ii_Name g).

(** Objects have the namespace and the name they are stored under. *)
Definition at_key (k : string * string) (g : IngressIP) : IngressIP :=
  mkLabelled (ii_Labels g) (mkIngressIP k.2 k.1 (ii_Annotations g) (gi_Target (ii_obj g)) (gi_ServiceRef (ii_obj g))
    (gi_PodRef (ii_obj g)) (gi_Conditions (ii_obj g)) (gi_AllocatedIP (ii_obj g))).

Definition stored (m : gip_map) : gip_map := map_imap (fun k g => Some (at_key k g)) m.

Definition export_ref (running : option ExportedService) (down : bool) : ExportAPI gip_map := {|
  gip_List := fun ns sel m =>
    (Ok (base.filter (fun g => in_namespace ns g && selects sel g = true) (map_to_list (stored m)).*2), m);
  gip_Create := fun g m =>
    match m !! keyOf g with Some _ => (Err "already exists", m) | None => (Ok tt, <[keyOf g := g]> m) end;
  gip_Delete := fun ns n => modifyw (delete (ns, n));
  gip_DeleteCollection := fun ns sel =>
    modifyw (fun m => base.filter (fun '(k, g) => in_namespace (Some ns) (at_key k g) && selects sel (at_key k g) = false) m);
  fed_Create := fun g m =>
    if down then (Err "the server is down", m)
    else (Ok tt, match m !! keyOf g with Some _ => m | None => <[keyOf g := g]> m end);
  fed_Delete := fun g => modifyw (delete (keyOf g));
  es_Get := fun ns n => mret
    match running with
    | Some s => if (es_Namespace s =?? ns) && (es_Name s =?? n) then Some s else None
    | None => None
    end;
  syncer_Start := fun _ _ => mret tt;
|}.

Lemma stored_gip_lookup m k : stored m !! k = at_key k <$> m !! k.
Proof. unfold stored. rewrite map_lookup_imap. by destruct (m !! k). Qed.

Lemma at_own_key g : at_key (keyOf g) g = g.
Proof. by destruct g as [l []]. Qed.

Lemma stored_insert m g : stored (<[keyOf g := g]> m) = <[keyOf g := g]> (stored m).
Proof.
  apply map_eq. intros k. rewrite stored_gip_lookup. destruct (decide (k = keyOf g)) as [->|Hk].
  - rewrite !lookup_insert_eq. simpl. by rewrite at_own_key.
  - by rewrite !lookup_insert_ne, stored_gip_lookup.
Qed.

Lemma stored_delete m k : stored (delete k m) = delete k (stored m).
Proof.
  apply map_eq. intros k'. rewrite stored_gip_lookup. destruct (decide (k' = k)) as [->|Hk].
  - by rewrite !lookup_delete_eq.
  - by rewrite !lookup_delete_ne, stored_gip_lookup.
Qed.

Lemma stored_some m k : is_Some (stored m !! k) <-> is_Some (m !! k).
Proof. rewrite stored_gip_lookup. by rewrite fmap_is_Some. Qed.

Lemma stored_key m k g : stored m !! k = Some g -> keyOf g = k.
Proof. rewrite stored_gip_lookup. destruct (m !! k); [|done]. intros [= <-]. by destruct k. Qed.

Lemma stored_listed m : NoDup (map_to_list (stored m)).*2 /\
  forall g, g ∈ (map_to_list (stored m)).*2 <-> stored m !! keyOf g = Some g.
Proof.
  split.
  - apply NoDup_fmap_2_strong; [|apply NoDup_map_to_list]. intros [k1 g1] [k2 g2] H1%elem_of_map_to_list H2%elem_of_map_to_list.
    simpl. intros <-. apply stored_key in H1 as <-. by apply stored_key in H2 as <-.
  - intros g. rewrite list_elem_of_fmap. split.
    + intros ([k g'] & -> & Hk%elem_of_map_to_list). simpl. by rewrite (stored_key _ _ _ Hk).
    + intros Hg. exists (keyOf g, g). split; [done|]. by apply elem_of_map_to_list.
Qed.

Lemma export_ref_laws running down : @ExportAPILaws gip_map (export_ref running down).
Proof.
  unshelve esplit; [exact stored|..]; cbn [gip_List gip_Create gip_Delete gip_DeleteCollection fed_Create fed_Delete
    es_Get syncer_Start export_ref]; unfold modifyw; try (by intros; simplify_eq/=; rewrite ?stored_delete).
  - intros a ns n g Hg%stored_key. by injection Hg as -> ->.
  - intros ns sel a r a' [= <- <-]. split; [done|]. intros l [= <-]. destruct (stored_listed a) as [Hn Hin]. split.
    + by apply NoDup_filter.
    + intros g. rewrite list_elem_of_filter, Hin, andb_true_iff. unfold keyOf. tauto.
  - intros g a r a'. destruct (a !! keyOf g) eqn:Hk; intros [= <- <-]; [done|]. split.
    + change (stored a !! keyOf g = None). by rewrite stored_gip_lookup, Hk.
    + apply stored_insert.
  - intros ns sel a r a' [= <- <-]. simpl. apply map_eq. intros k. rewrite stored_gip_lookup, !map_lookup_filter, stored_gip_lookup.
    destruct (a !! k) as [g|]; [|done]. simpl. unfold guard. repeat case_decide; done.
  - intros g a r a'. destruct down; intros [= <- <-]; [done|]. simpl. change (ii_Namespace g, ii_Name g) with (keyOf g). rewrite stored_gip_lookup.
    destruct (a !! keyOf g); [done|]. apply stored_insert.
  - intros ns n a s a' [= Hs <-]. destruct running as [s0|]; [|done].
    destruct ((es_Namespace s0 =?? ns) && (es_Name s0 =?? n)) eqn:Hb; [|done]. injection Hs as <-. by bool_props.
Defined.

(** * The endpoints of a service *)
Section endpoints_lemmas.
Context {A Subset : Type} `{!ExportAPI A} `{!ExportAPILaws A} `{K8sNet} (Addresses : Subset -> list string).
Context (range_ips : gset string -> list string).
Implicit Types (a : A) (g : IngressIP).

Definition ep_ip g : option string := ii_Annotations g !! headlessSvcEndpointsIP.

(** [gone] are deleted. *)
Definition without (gone : list IngressIP) (m : gip_map) : gip_map := foldr (fun g => delete (keyOf g)) m gone.

Lemma without_lookup gone m k g : without gone m !! k = Some g <-> m !! k = Some g /\ k ∉ keyOf <$> gone.
Proof.
  induction gone as [|g0 gone IH]; simpl; [set_solver|].
  destruct (decide (k = keyOf g0)) as [->|Hk].
  - rewrite lookup_delete_eq. set_solver.
  - rewrite lookup_delete_ne, IH, not_elem_of_cons by done. tauto.
Qed.

Lemma without_delete g gone m : without gone (delete (keyOf g) m) = without (g :: gone) m.
Proof. simpl. induction gone as [|g0 gone IH]; [done|]. simpl. rewrite IH. apply delete_delete. Qed.

(** What the first loop deletes, keeps and leaves to be created. *)
Record loop_spec (existing gone : list IngressIP) (used used' : gset string) : Prop := {
  ls_gone : gone ⊆ existing;
  ls_used : used' ⊆ used;
  ls_kept : forall g, g ∈ existing -> g ∉ gone -> exists ip, ep_ip g = Some ip /\ ip ∈ used /\ ip ∉ used';
  ls_served : forall ip, ip ∈ used -> ip ∉ used' -> exists g, g ∈ existing /\ g ∉ gone /\ ep_ip g = Some ip;
  ls_unique : forall g1 g2, g1 ∈ existing -> g2 ∈ existing -> g1 ∉ gone -> g2 ∉ gone -> ep_ip g1 = ep_ip g2 -> g1 = g2;
  ls_found : forall ip g, ip ∈ used -> g ∈ existing -> ep_ip g = Some ip -> ip ∉ used';
}.

Lemma loop_keep g existing gone used used' ip : ep_ip g = Some ip -> ip ∈ used -> g ∉ existing ->
  loop_spec existing gone (used ∖ {[ip]}) used' -> loop_spec (g :: existing) gone used used'.
Proof.
  intros Hg Hip Hn [H1 H2 H3 H4 H5 H6]. assert (Hgg : g ∉ gone) by set_solver. split.
  - set_solver.
  - set_solver.
  - intros g' [->|Hin]%elem_of_cons Hg'; [exists ip; set_solver|].
    destruct (H3 g' Hin Hg') as (ip' & ? & ? & ?). exists ip'. set_solver.
  - intros ip' Hu Hu'. destruct (decide (ip' = ip)) as [->|Hne]; [exists g; set_solver|].
    destruct (H4 ip') as (g' & ? & ? & ?); [set_solver|done|]. exists g'. set_solver.
  - assert (Hother : forall g', g' ∈ existing -> g' ∉ gone -> ep_ip g' <> Some ip).
    { intros g' Hin Hg' Heq. destruct (H3 g' Hin Hg') as (ip' & ? & ? & ?). simplify_eq. set_solver. }
    intros g1 g2 [->|Hi1]%elem_of_cons [->|Hi2]%elem_of_cons Hg1 Hg2 Heq; [done| | |by apply H5].
    + destruct (Hother g2 Hi2 Hg2). by rewrite <- Heq.
    + destruct (Hother g1 Hi1 Hg1). by rewrite Heq.
  - intros ip' g' Hu [->|Hin]%elem_of_cons Heq; [simplify_eq; set_solver|].
    destruct (decide (ip' = ip)) as [->|Hne]; [set_solver|]. apply (H6 ip' g'); [set_solver|done|done].
Qed.

Lemma loop_drop g existing gone used used' : (forall ip, ep_ip g = Some ip -> ip ∉ used) -> g ∉ existing ->
  loop_spec existing gone used used' -> loop_spec (g :: existing) (g :: gone) used used'.
Proof.
  intros Hg Hn [H1 H2 H3 H4 H5 H6]. split.
  - set_solver.
  - done.
  - intros g' [->|Hin]%elem_of_cons [Hg' Hgg]%not_elem_of_cons; [done|by apply H3].
  - intros ip Hu Hu'. destruct (H4 ip Hu Hu') as (g' & ? & ? & ?). exists g'.
    split; [by right|]. split; [|done]. apply not_elem_of_cons. split; [|done]. intros ->. done.
  - intros g1 g2 [->|Hi1]%elem_of_cons [->|Hi2]%elem_of_cons [? ?]%not_elem_of_cons [? ?]%not_elem_of_cons Heq;
      try done. by apply H5.
  - intros ip g' Hu [->|Hin]%elem_of_cons Heq; [|by apply (H6 ip g')]. by destruct (Hg ip Heq).
Qed.

Lemma delete_unused_ok existing : forall used a used' a', NoDup existing ->
  delete_unused existing used a = (Ok used', a') ->
  exists gone, gips a' = without gone (gips a) /\ loop_spec existing gone used used'.
Proof.
  induction existing as [|g existing IH]; intros used a used' a' Hnd.
  { intros [= <- <-]. exists []. split; [done|]. split; set_solver. }
  apply NoDup_cons in Hnd as [Hn Hnd].
  assert (Hdel : (forall ip, ep_ip g = Some ip -> ip ∉ used) ->
    (_ ← gip_Delete (ii_Namespace g) (ii_Name g); delete_unused existing used) a = (Ok used', a') ->
    exists gone, gips a' = without gone (gips a) /\ loop_spec (g :: existing) gone used used').
  { intros Hu Hrun. apply eff_bind_inv in Hrun as [([] & a1 & Hd & Hrun)|(? & _ & ?)]; [|done].
    apply delete_gip in Hd. destruct (IH _ _ _ _ Hnd Hrun) as (gone & Hg & Hs). exists (g :: gone).
    split; [|by apply loop_drop]. rewrite Hg, Hd. by rewrite <- without_delete. }
  simpl. destruct (ii_Annotations g !! headlessSvcEndpointsIP) as [ip|] eqn:Hip.
  - case_bool_decide as Hu; [|apply Hdel; intros ip' Hip'; unfold ep_ip in Hip'; by simplify_eq].
    intros Hrun. destruct (IH _ _ _ _ Hnd Hrun) as (gone & Hg & Hs). exists gone. split; [done|].
    by apply (loop_keep _ _ _ _ _ ip).
  - apply Hdel. intros ip' Hip'. unfold ep_ip in Hip'. by simplify_eq.
Qed.

Lemma create_all_ok (new : string -> IngressIP) l : forall a a',
  for_each (fun ip => gip_Create (new ip)) l a = (Ok tt, a') ->
  (forall ip, ip ∈ l -> gips a !! keyOf (new ip) = None) /\
  forall k g, gips a' !! k = Some g <-> gips a !! k = Some g \/ exists ip, ip ∈ l /\ g = new ip /\ k = keyOf g.
Proof.
  induction l as [|ip l IH]; intros a a'; simpl.
  { intros [= <-]. split; [set_solver|]. intros k g. set_solver. }
  intros Hrun. apply eff_bind_inv in Hrun as [([] & a1 & Hc & Hrun)|(? & _ & ?)]; [|done].
  apply create_gip in Hc as [Hnone Hc]. change (_, _) with (keyOf (new ip)) in Hnone, Hc.
  destruct (IH _ _ Hrun) as [Hfresh Hin]. rewrite Hc in Hfresh, Hin. split.
  - intros ip' [->|Hi]%elem_of_cons; [done|]. specialize (Hfresh ip' Hi).
    destruct (decide (keyOf (new ip) = keyOf (new ip'))) as [<-|Hne]; [done|]. by rewrite lookup_insert_ne in Hfresh.
  - intros k g. rewrite Hin, lookup_insert_Some. split.
    + intros [[[<- <-]|[? ?]]|(ip' & ? & ? & ?)]; [right; exists ip; set_solver|by left|right; exists ip'; set_solver].
    + intros [Hk|(ip' & [->|Hi]%elem_of_cons & -> & ->)].
      * destruct (decide (k = keyOf (new ip))) as [->|Hne]; [congruence|]. left. right. split; [done|done].
      * left. by left.
      * right. by exists ip'.
Qed.

(** The object belongs to the endpoints [e]. *)
Definition mine (e : Endpoints Subset) g : Prop :=
  ii_Namespace g = ep_Namespace e /\ ii_Labels g !! ServiceRefLabel = Some (ep_Name e).

#[local] Instance mine_dec e g : Decision (mine e g).
Proof. unfold mine. apply _. Defined.

Lemma ep_ingressIP_mine c e ip : mine e (ep_ingressIP (ec_svcName c) (ep_Name e) (ep_Namespace e) ip) /\
  ep_ip (ep_ingressIP (ec_svcName c) (ep_Name e) (ep_Namespace e) ip) = Some ip.
Proof. done. Qed.

(** What a run that is not repeated did: it kept, deleted and created. *)
Lemma ep_run_effect c e a a' : (forall m, Permutation (range_ips m) (elements m)) ->
  ep_onCreateOrUpdate Addresses range_ips c e a = (Ok false, a') ->
  exists existing gone used', loop_spec existing gone (usedEpIPs Addresses e) used' /\
    (forall g, g ∈ existing <-> gips a !! keyOf g = Some g /\ mine e g) /\
    forall k g, gips a' !! k = Some g <-> (gips a !! k = Some g /\ k ∉ keyOf <$> gone) \/
      exists ip, ip ∈ used' /\ g = ep_ingressIP (ec_svcName c) (ep_Name e) (ep_Namespace e) ip /\ k = keyOf g.
Proof.
  intros Hrange Hrun. unfold ep_onCreateOrUpdate in Hrun.
  apply eff_bind_inv in Hrun as [(r0 & a1 & Hr & Hret)|(? & _ & ?)]; [|done].
  apply attempt_inv in Hr as (r & [= ->] & Hsync). injection Hret as Hok ->.
  destruct r as [[]|]; [|done]. clear Hok. unfold ep_sync in Hsync.
  apply eff_bind_inv in Hsync as [(existing & a2 & Hl & Hsync)|(? & _ & ?)]; [|done].
  apply eff_bind_inv in Hsync as [(used' & a3 & Hd & Hc)|(? & _ & ?)]; [|done].
  apply list_gips in Hl as [Hsame Hlist]. destruct (Hlist _ eq_refl) as [Hnd Hin].
  destruct (delete_unused_ok _ _ _ _ _ Hnd Hd) as (gone & Hgone & Hs).
  apply create_all_ok in Hc as [_ Hc]. exists existing, gone, used'. split; [done|]. split.
  - intros g. rewrite Hin. simpl. rewrite !bool_decide_eq_true. done.
  - intros k g. rewrite Hc, Hgone, without_lookup, Hsame. setoid_rewrite Hrange. by setoid_rewrite elem_of_elements.
Qed.

Lemma listed_gone (existing gone : list IngressIP) k g (e : Endpoints Subset) a : gone ⊆ existing ->
  (forall g, g ∈ existing <-> gips a !! keyOf g = Some g /\ mine e g) ->
  gips a !! k = Some g -> keyOf g = k /\ (k ∈ keyOf <$> gone <-> g ∈ gone).
Proof.
  intros Hgone Hin Hg. assert (Hk : keyOf g = k).
  { destruct k as [ns n]. by destruct (gips_key _ _ _ _ Hg) as [<- <-]. }
  split; [done|]. rewrite list_elem_of_fmap. split; [|intros Hgg; by exists g].
  intros (g' & -> & Hg'). destruct (proj1 (Hin g') (Hgone _ Hg')) as [Hs _]. rewrite Hg in Hs. by injection Hs as ->.
Qed.

(** The objects a run keeps, which serve an address each, and the addresses it
    creates one for. *)
Lemma ep_run_view c e a a' : (forall m, Permutation (range_ips m) (elements m)) ->
  ep_onCreateOrUpdate Addresses range_ips c e a = (Ok false, a') ->
  let new := ep_ingressIP (ec_svcName c) (ep_Name e) (ep_Namespace e) in
  let used := usedEpIPs Addresses e in
  exists (kept : IngressIP -> Prop) used',
    (forall g, kept g -> gips a !! keyOf g = Some g /\ mine e g /\ exists ip, ep_ip g = Some ip /\ ip ∈ used /\ ip ∉ used') /\
    (forall g1 g2, kept g1 -> kept g2 -> ep_ip g1 = ep_ip g2 -> g1 = g2) /\
    (forall ip, ip ∈ used -> ip ∉ used' -> exists g, kept g /\ ep_ip g = Some ip) /\
    (forall k g ip, gips a !! k = Some g -> mine e g -> ep_ip g = Some ip -> ip ∈ used -> ip ∉ used') /\
    used' ⊆ used /\
    (forall k g, gips a' !! k = Some g <->
       keyOf g = k /\ (kept g \/ (~ mine e g /\ gips a !! k = Some g) \/ exists ip, ip ∈ used' /\ g = new ip)).
Proof.
  intros Hrange Hrun new used. destruct (ep_run_effect c e a a' Hrange Hrun) as (existing & gone & used' & Hs & Hin & Hafter).
  exists (fun g => g ∈ existing /\ g ∉ gone), used'. split; [|split; [|split; [|split; [|split]]]].
  - intros g [He Hg]. destruct (proj1 (Hin g) He) as [? ?]. split; [done|]. split; [done|]. by apply (ls_kept _ _ _ _ Hs).
  - intros g1 g2 [? ?] [? ?]. by apply (ls_unique _ _ _ _ Hs).
  - intros ip Hu Hu'. destruct (ls_served _ _ _ _ Hs ip Hu Hu') as (g & ? & ? & ?). by exists g.
  - intros k g ip Hg Hm Hip Hu. apply (ls_found _ _ _ _ Hs ip g); [done| |done]. apply Hin.
    by rewrite (proj1 (listed_gone _ _ k g e a (ls_gone _ _ _ _ Hs) Hin Hg)).
  - apply (ls_used _ _ _ _ Hs).
  - intros k g. rewrite Hafter. split.
    + intros [[Hg Hk]|(ip & Hi & -> & ->)]; [|split; [done|]; right; right; by exists ip].
      destruct (listed_gone _ _ k g e a (ls_gone _ _ _ _ Hs) Hin Hg) as [<- Hiff]. rewrite Hiff in Hk. split; [done|].
      destruct (decide (mine e g)) as [Hm|Hm]; [|by right; left]. left. by rewrite Hin.
    + intros [<- [[He Hgg]|[[Hm Hg]|(ip & Hi & ->)]]]; [| |right; by exists ip].
      * left. destruct (proj1 (Hin g) He) as [Hg _]. split; [done|].
        by rewrite (proj2 (listed_gone _ _ _ g e a (ls_gone _ _ _ _ Hs) Hin Hg)).
      * left. split; [done|]. rewrite (proj2 (listed_gone _ _ _ g e a (ls_gone _ _ _ _ Hs) Hin Hg)).
        intros Hgg%(ls_gone _ _ _ _ Hs)%Hin. apply Hm, Hgg.
Qed.

(** C18: when the processing of the endpoints of a headless service without selector
    is not to be repeated, the GlobalIngressIPs labelled with the service are one for
    each used IPv4 address of the endpoints and no other, no address has two, an
    address that had one keeps one it had, and no other object changed. *)
Theorem ingress_endpoints_exact c e a a' : (forall m, Permutation (range_ips m) (elements m)) ->
  ep_onCreateOrUpdate Addresses range_ips c e a = (Ok false, a') ->
  (forall ip, ip ∈ usedEpIPs Addresses e <-> exists k g, gips a' !! k = Some g /\ mine e g /\ ep_ip g = Some ip) /\
  (forall k g, gips a' !! k = Some g -> mine e g -> is_Some (ep_ip g)) /\
  (forall k1 g1 k2 g2, gips a' !! k1 = Some g1 -> gips a' !! k2 = Some g2 -> mine e g1 -> mine e g2 ->
     ep_ip g1 = ep_ip g2 -> k1 = k2) /\
  (forall k g ip, gips a !! k = Some g -> mine e g -> ep_ip g = Some ip -> ip ∈ usedEpIPs Addresses e ->
     exists k0 g0, gips a !! k0 = Some g0 /\ gips a' !! k0 = Some g0 /\ mine e g0 /\ ep_ip g0 = Some ip) /\
  (forall k g, ~ mine e g -> gips a' !! k = Some g <-> gips a !! k = Some g).
Proof.
  intros Hrange Hrun.
  destruct (ep_run_view c e a a' Hrange Hrun) as (kept & used' & Hk & Huni & Hserved & Hfound & Hsub & Hafter).
  split; [|split; [|split; [|split]]].
  - intros ip. split.
    + intros Hu. destruct (decide (ip ∈ used')) as [Hu'|Hu'].
      * eexists _, _. split; [apply Hafter; split; [reflexivity|]; right; right; by exists ip|apply ep_ingressIP_mine].
      * destruct (Hserved ip Hu Hu') as (g & Hg & Hip). exists (keyOf g), g. split; [apply Hafter; auto|].
        split; [apply (Hk g Hg)|done].
    + intros (k & g & [_ [Hg|[[Hm' _]|(ip' & Hi & ->)]]]%Hafter & Hm & Hip); [|done|].
      * destruct (Hk g Hg) as (_ & _ & ? & ? & ? & _). by simplify_eq.
      * rewrite (proj2 (ep_ingressIP_mine c e ip')) in Hip. simplify_eq. by apply Hsub.
  - intros k g [_ [Hg|[[Hm' _]|(ip' & Hi & ->)]]]%Hafter Hm; [|done|done].
    by destruct (Hk g Hg) as (_ & _ & ? & -> & _).
  - assert (Hcross : forall g ip', kept g -> ip' ∈ used' -> ep_ip g <> Some ip').
    { intros g ip' Hg Hi Hip. destruct (Hk g Hg) as (_ & _ & ? & ? & _ & ?). by simplify_eq. }
    intros k1 g1 k2 g2 [<- [Hg1|[[? _]|(ip1 & Hi1 & ->)]]]%Hafter [<- [Hg2|[[? _]|(ip2 & Hi2 & ->)]]]%Hafter Hm1 Hm2 Heq;
      try done.
    + by rewrite (Huni g1 g2).
    + by destruct (Hcross g1 ip2 Hg1 Hi2).
    + by destruct (Hcross g2 ip1 Hg2 Hi1).
    + rewrite !(proj2 (ep_ingressIP_mine c e _)) in Heq. by injection Heq as ->.
  - intros k g ip Hg Hm Hip Hu. destruct (Hserved ip Hu (Hfound k g ip Hg Hm Hip Hu)) as (g0 & Hg0 & Hip0).
    destruct (Hk g0 Hg0) as (? & ? & _). exists (keyOf g0), g0. split; [done|]. split; [|done]. apply Hafter. auto.
  - intros k g Hm. rewrite Hafter. split.
    + intros [_ [Hg|[[_ ?]|(ip & _ & ->)]]]; [|done|by destruct Hm]. by destruct Hm; apply (Hk g Hg).
    + intros Hg. split; [|by right; left]. destruct k as [ns n]. by destruct (gips_key _ _ _ _ Hg) as [<- <-].
Qed.
End endpoints_lemmas.

(** * The pods of a service *)
Section pods_lemmas.
Context {A : Type} `{!ExportAPI A} `{!ExportAPILaws A} `{K8sNet}.
Implicit Types (a : A) (c : podController).

(** The syncer distributes what [pod_process] returns; an error is logged, and the
    pod is processed again later. *)
Definition pod_event (pod : Pod) (op : GlobalEgress.Operation) (c : podController) : eff A string (podController * bool) :=
  let '(obj, c) := pod_process pod op c in
  r ← attempt (match obj, op with
               | None, _ => mret tt
               | Some g, GlobalEgress.Delete => fed_Delete g
               | Some g, _ => fed_Create g
               end);
  mret (c, is_ok (E := string) (A := unit) r).

Fixpoint pod_run (evs : list (Pod * GlobalEgress.Operation)) (c : podController) : eff A string (podController * bool) :=
  match evs with
  | [] => mret (c, true)
  | (pod, op) :: evs =>
      out ← pod_event pod op c;
      res ← pod_run evs out.1;
      mret (res.1, out.2 && res.2)
  end.

(** The address a pod has a GlobalIngressIP for: the first it was ready with since
    it was last deleted. *)
Definition assigned_step (c : podController) (n : string) (cur : option string) (ev : Pod * GlobalEgress.Operation) : option string :=
  if pod_Name ev.1 =?? n then
    match ev.2, cur with
    | GlobalEgress.Delete, _ => None
    | _, Some ip => Some ip
    | _, None => if pod_ready c ev.1 then Some (PodIP ev.1) else None
    end
  else cur.

Definition assigned (c : podController) (n : string) (evs : list (Pod * GlobalEgress.Operation)) : option string :=
  foldl (assigned_step c n) None evs.

Definition pod_ingressIP (c : podController) (n ip : string) : IngressIP :=
  with_spec {[headlessSvcPodIP := ip]} HeadlessServicePod (Some (pc_svcName c)) (Some n)
    (named (pod_ip_name n) (pc_namespace c) {[ServiceRefLabel := pc_svcName c]}).

Definition pod_inv (names : list string) (c0 : podController) (cur : string -> option string) (m0 : gip_map) c a : Prop :=
  c = set_map (ingressIPMap c) c0 /\
  (forall n, n ∈ names -> gips a !! (pc_namespace c0, pod_ip_name n) = pod_ingressIP c0 n <$> cur n /\
                          (pod_ip_name n ∈ ingressIPMap c <-> is_Some (cur n))) /\
  (forall k, (forall n, n ∈ names -> k <> (pc_namespace c0, pod_ip_name n)) -> gips a !! k = m0 !! k).

(** Only what is kept for the pod [n0] changes. *)
Lemma pod_inv_update names c0 cur cur' m0 c a c' a' n0 :
  (forall n1 n2, n1 ∈ names -> n2 ∈ names -> pod_ip_name n1 = pod_ip_name n2 -> n1 = n2) -> n0 ∈ names ->
  pod_inv names c0 cur m0 c a -> c' = set_map (ingressIPMap c') c0 ->
  (forall k, k <> (pc_namespace c0, pod_ip_name n0) -> gips a' !! k = gips a !! k) ->
  (forall nm, nm <> pod_ip_name n0 -> nm ∈ ingressIPMap c' <-> nm ∈ ingressIPMap c) ->
  gips a' !! (pc_namespace c0, pod_ip_name n0) = pod_ingressIP c0 n0 <$> cur' n0 ->
  (pod_ip_name n0 ∈ ingressIPMap c' <-> is_Some (cur' n0)) ->
  (forall n, n <> n0 -> cur' n = cur n) -> pod_inv names c0 cur' m0 c' a'.
Proof.
  intros Hinj H0 (_ & Hin & Hout) Hc Hg Hm Hg0 Hm0 Hcur. split; [done|]. split.
  - intros n Hn. destruct (decide (n = n0)) as [->|Hne]; [done|]. destruct (Hin n Hn) as [H1 H2].
    assert (Hnm : pod_ip_name n <> pod_ip_name n0) by (intros Heq; by apply Hne, Hinj).
    rewrite Hcur, Hg, Hm by congruence. done.
  - intros k Hk. rewrite Hg by by apply Hk. by apply Hout.
Qed.

Lemma assigned_step_other c n cur ev : n <> pod_Name ev.1 -> assigned_step c n cur ev = cur.
Proof. intros Hn. unfold assigned_step. by rewrite bool_decide_false by congruence. Qed.

(** What is made of a pod that was not deleted: nothing, or its GlobalIngressIP. *)
Lemma pod_process_kept pod op c : op <> GlobalEgress.Delete -> pod_Namespace pod = pc_namespace c ->
  pod_process pod op c =
    if bool_decide (pod_ip_name (pod_Name pod) ∈ ingressIPMap c) || negb (pod_ready c pod) then (None, c)
    else (Some (pod_ingressIP c (pod_Name pod) (PodIP pod)),
          set_map ({[pod_ip_name (pod_Name pod)]} ∪ ingressIPMap c) c).
Proof. intros Hop Hns. unfold pod_ingressIP. rewrite <- Hns. by destruct op. Qed.

Lemma pod_inv_deleted names c0 cur m0 c a pod a' :
  (forall n1 n2, n1 ∈ names -> n2 ∈ names -> pod_ip_name n1 = pod_ip_name n2 -> n1 = n2) ->
  pod_Name pod ∈ names -> pod_inv names c0 cur m0 c a ->
  gips a' = delete (pc_namespace c0, pod_ip_name (pod_Name pod)) (gips a) ->
  pod_inv names c0 (fun n => assigned_step c0 n (cur n) (pod, GlobalEgress.Delete)) m0
    (set_map (ingressIPMap c ∖ {[pod_ip_name (pod_Name pod)]}) c) a'.
Proof.
  intros Hinj Hn Hi Hg. pose proof Hi as (Hc & _ & _).
  assert (Hself : assigned_step c0 (pod_Name pod) (cur (pod_Name pod)) (pod, GlobalEgress.Delete) = None).
  { unfold assigned_step. simpl. by rewrite bool_decide_true. }
  apply (pod_inv_update names c0 cur _ m0 c a _ a' (pod_Name pod)); rewrite ?Hself; try done.
  - by rewrite Hc.
  - intros k Hk. by rewrite Hg, lookup_delete_ne.
  - intros nm Hnm. set_solver.
  - by rewrite Hg, lookup_delete_eq.
  - split; [set_solver|]. by intros [? ?].
  - intros n Hne. by rewrite assigned_step_other.
Qed.

Lemma pod_inv_kept names c0 cur m0 c a pod op c1 obj a' : op <> GlobalEgress.Delete ->
  (forall n1 n2, n1 ∈ names -> n2 ∈ names -> pod_ip_name n1 = pod_ip_name n2 -> n1 = n2) ->
  pod_Name pod ∈ names -> pod_Namespace pod = pc_namespace c0 -> pod_inv names c0 cur m0 c a ->
  pod_process pod op c = (obj, c1) ->
  (forall g, obj = Some g -> gips a !! keyOf g = None -> gips a' = <[keyOf g := g]> (gips a)) ->
  (obj = None -> gips a' = gips a) ->
  pod_inv names c0 (fun n => assigned_step c0 n (cur n) (pod, op)) m0 c1 a'.
Proof.
  intros Hop Hinj Hn Hns Hi Hp Hsome Hnone. pose proof Hi as (Hc & Hin & _). destruct (Hin _ Hn) as [Hcur Hmap].
  assert (Hself : assigned_step c0 (pod_Name pod) (cur (pod_Name pod)) (pod, op) =
    match cur (pod_Name pod) with Some ip => Some ip | None => if pod_ready c0 pod then Some (PodIP pod) else None end).
  { unfold assigned_step. simpl. rewrite bool_decide_true by done. by destruct op. }
  rewrite pod_process_kept in Hp; [|done|by rewrite Hc].
  assert (Hready : pod_ready c pod = pod_ready c0 pod) by by rewrite Hc.
  assert (Hgip : forall n ip, pod_ingressIP c n ip = pod_ingressIP c0 n ip) by (intros; by rewrite Hc). rewrite Hgip in Hp.
  apply (pod_inv_update names c0 cur _ m0 c a _ a' (pod_Name pod)); rewrite ?Hself; try done;
    try (intros n Hne; by rewrite assigned_step_other); clear Hself.
  all: case_bool_decide as Hd; simpl in Hp.
  all: try (destruct (proj1 Hmap Hd) as [ip Hip]; rewrite Hip in *; injection Hp as <- <-; rewrite ?Hnone by done; done).
  all: destruct (cur (pod_Name pod)) as [ip|]; [by destruct Hd; apply Hmap|].
  all: rewrite Hready in Hp; destruct (pod_ready c0 pod); simpl in Hp; injection Hp as <- <-.
  all: try (rewrite (Hnone eq_refl)); try (rewrite (Hsome _ eq_refl Hcur)); try done.
  - by rewrite Hc.
  - intros k Hk. apply lookup_insert_ne. by intros <-.
  - intros nm Hnm. simpl. set_solver.
  - apply lookup_insert_eq.
  - simpl. split; [done|set_solver].
Qed.

Lemma pod_event_inv names c0 cur m0 c a pod op c' a' :
  (forall n1 n2, n1 ∈ names -> n2 ∈ names -> pod_ip_name n1 = pod_ip_name n2 -> n1 = n2) ->
  pod_Name pod ∈ names -> pod_Namespace pod = pc_namespace c0 ->
  pod_inv names c0 cur m0 c a -> pod_event pod op c a = (Ok (c', true), a') ->
  pod_inv names c0 (fun n => assigned_step c0 n (cur n) (pod, op)) m0 c' a'.
Proof.
  intros Hinj Hn Hns Hi Hrun.
  unfold pod_event in Hrun. destruct (pod_process pod op c) as [obj c1] eqn:Hp.
  apply eff_bind_inv in Hrun as [(r0 & a1 & Hr & Hret)|(? & _ & ?)]; [|done]. injection Hret as -> Hok ->.
  apply attempt_inv in Hr as (r & [= ->] & Hr). destruct r as [[]|]; [|done].
  assert (Hop : op = GlobalEgress.Delete \/ op <> GlobalEgress.Delete) by (destruct op; auto).
  destruct Hop as [->|Hop].
  - simpl in Hp. injection Hp as <- <-. apply fed_delete_gip in Hr. simpl in Hr.
    apply (pod_inv_deleted _ _ _ _ _ a); [done..|]. rewrite Hr. simpl. by rewrite <- Hns.
  - apply (pod_inv_kept names c0 cur m0 c a pod op c' obj a'); try done.
    + intros g -> Hnone. assert (Hf : fed_Create g a = (Ok tt, a')) by (by destruct op).
      apply fed_create_gip in Hf. simpl in Hf. change (_, _) with (keyOf g) in Hf. by rewrite Hnone in Hf.
    + intros ->. by injection Hr as <-.
Qed.

Lemma pod_run_inv names c0 m0 evs : forall cur c a c' a',
  (forall n1 n2, n1 ∈ names -> n2 ∈ names -> pod_ip_name n1 = pod_ip_name n2 -> n1 = n2) ->
  (forall pod op, (pod, op) ∈ evs -> pod_Name pod ∈ names /\ pod_Namespace pod = pc_namespace c0) ->
  pod_inv names c0 cur m0 c a -> pod_run evs c a = (Ok (c', true), a') ->
  pod_inv names c0 (fun n => foldl (assigned_step c0 n) (cur n) evs) m0 c' a'.
Proof.
  induction evs as [|[pod op] evs IH]; intros cur c a c' a' Hinj Hev Hi; [by intros [= <- <-]|].
  cbn [pod_run]. intros Hrun. apply eff_bind_inv in Hrun as [([c1 b1] & a1 & H1 & Hrun)|(? & _ & ?)]; [|done].
  apply eff_bind_inv in Hrun as [([c2 b2] & a2 & H2 & Hret)|(? & _ & ?)]; [|done]. cbn in Hret, H2.
  destruct (b1 && b2) eqn:Hb; [|done]. apply andb_true_iff in Hb as [-> ->]. injection Hret as -> ->.
  destruct (Hev pod op) as [Hn Hns]; [by left|].
  apply (IH (fun n => assigned_step c0 n (cur n) (pod, op)) c1 a1); try done.
  - intros pod' op' Hin. apply (Hev pod' op'). by right.
  - by apply (pod_event_inv names c0 cur m0 c a).
Qed.

(** C19: a new controller of the pods of a headless service, whose distributions
    succeed, leaves exactly one GlobalIngressIP for each pod that was ready since it
    was last deleted, with the address it had when it was first ready, and no other
    object changes, as long as the names of the pods differ in their first 59 characters. *)
Theorem pod_ips_follow_pods c evs a c' a' : ingressIPMap c = ∅ ->
  (forall pod op, (pod, op) ∈ evs -> pod_Namespace pod = pc_namespace c) ->
  (forall n1 n2, n1 ∈ ((fun ev => pod_Name ev.1) <$> evs) -> n2 ∈ ((fun ev => pod_Name ev.1) <$> evs) ->
     pod_ip_name n1 = pod_ip_name n2 -> n1 = n2) ->
  (forall pod op, (pod, op) ∈ evs -> gips a !! (pc_namespace c, pod_ip_name (pod_Name pod)) = None) ->
  pod_run evs c a = (Ok (c', true), a') ->
  (forall pod op, (pod, op) ∈ evs ->
     gips a' !! (pc_namespace c, pod_ip_name (pod_Name pod)) =
       pod_ingressIP c (pod_Name pod) <$> assigned c (pod_Name pod) evs) /\
  (forall k, (forall pod op, (pod, op) ∈ evs -> k <> (pc_namespace c, pod_ip_name (pod_Name pod))) ->
     gips a' !! k = gips a !! k).
Proof.
  intros Hmap Hns Hinj Hnone Hrun. set (names := (fun ev => pod_Name ev.1) <$> evs).
  assert (Hin : forall n, n ∈ names <-> exists pod op, (pod, op) ∈ evs /\ n = pod_Name pod).
  { intros n. unfold names. rewrite list_elem_of_fmap. split; [intros ([pod op] & -> & ?); by exists pod, op|].
    intros (pod & op & ? & ->). by exists (pod, op). }
  assert (Hi : pod_inv names c (fun _ => None) (gips a) c a).
  { split; [by destruct c|]. split; [|done]. intros n (pod & op & Hev & ->)%Hin. split; [by apply (Hnone pod op)|].
    rewrite Hmap. split; [set_solver|by intros [? ?]]. }
  destruct (pod_run_inv names c (gips a) evs (fun _ => None) c a c' a' Hinj) as (_ & H1 & H2); [|exact Hi|exact Hrun|].
  - intros pod op Hev. split; [apply Hin; by exists pod, op|by apply (Hns pod op)].
  - split.
    + intros pod op Hev. apply H1, Hin. by exists pod, op.
    + intros k Hk. apply H2. intros n (pod & op & Hev & ->)%Hin. by apply (Hk pod op).
Qed.

(** C36: when the creation of the GlobalIngressIP of a pod fails it is not made up
    for: however often the pod is processed again before it is deleted, nothing is
    created, because the controller has noted the name already.  Every distribution
    is reported as successful. *)
Theorem pod_ip_creation_lost c pod op a c1 a1 evs : op <> GlobalEgress.Delete ->
  pod_event pod op c a = (Ok (c1, false), a1) ->
  (forall pod' op', (pod', op') ∈ evs -> op' <> GlobalEgress.Delete /\ pod_Name pod' = pod_Name pod) ->
  exists a2, pod_run evs c1 a1 = (Ok (c1, true), a2) /\ gips a2 = gips a.
Proof.
  intros Hop Hev Hevs. unfold pod_event in Hev. destruct (pod_process pod op c) as [obj c2] eqn:Hp.
  apply eff_bind_inv in Hev as [(r0 & a0 & Hr & Hret)|(? & _ & ?)]; [|done]. injection Hret as -> Hok ->.
  apply attempt_inv in Hr as (r & [= ->] & Hr). destruct r as [|e]; [done|]. clear Hok.
  assert (Hg : gips a1 = gips a /\ pod_ip_name (pod_Name pod) ∈ ingressIPMap c1).
  { unfold pod_process in Hp. change (ii_Name (named ?n _ _)) with n in Hp.
    destruct op; [| |done]; (destruct (_ || _); injection Hp as <- <-; [done|]);
      (split; [by apply fed_create_gip in Hr|simpl; set_solver]). }
  destruct Hg as [Hg Hin]. rewrite <- Hg. clear Hp Hr Hop Hg. revert Hevs. induction evs as [|[pod' op'] evs IH]; intros Hevs.
  { by exists a1. }
  destruct (Hevs pod' op') as [Hop' Hname]; [by left|].
  assert (Hskip : pod_process pod' op' c1 = (None, c1)).
  { unfold pod_process. change (ii_Name (named ?n _ _)) with n. rewrite Hname, bool_decide_true by done. by destruct op'. }
  destruct IH as (a2 & Hrun & Hg2); [intros pod0 op0 Hin0; apply (Hevs pod0 op0); by right|].
  exists a2. split; [|done]. cbn [pod_run]. unfold pod_event, mbind, eff_bind. rewrite Hskip. cbn. by rewrite Hrun.
Qed.
End pods_lemmas.

(** * The controllers of exported services *)
Section export_lemmas.
Context {A : Type} `{!ExportAPI A} `{!ExportAPILaws A} `{K8sNet}.
Implicit Types (w : world A).

Inductive export_event :=
| ExportEvent (name namespace : string) (op : GlobalEgress.Operation)
| ServiceEvent (service : ExportedService) (op : GlobalEgress.Operation)
| ExportStop.

Definition export_handle (ev : export_event) : eff (world A) string unit :=
  match ev with
  | ExportEvent name namespace op => _ ← export_process name namespace op; mret tt
  | ServiceEvent service op => _ ← service_process service op; mret tt
  | ExportStop => modifyw export_Stop
  end.

(** The keys of the exports that were created and not deleted since. *)
Definition exported_step (l : gset string) (ev : export_event) : gset string :=
  match ev with
  | ExportEvent name namespace GlobalEgress.Create => {[key name namespace]} ∪ l
  | ExportEvent name namespace GlobalEgress.Delete => l ∖ {[key name namespace]}
  | _ => l
  end.

(** The controllers of [w] run for exports of [l], each under the key of its service. *)
Definition runs_for (l : gset string) w : Prop :=
  (forall k c, pods w !! k = Some c -> k ∈ l /\ k = key (pc_svcName c) (pc_namespace c)) /\
  (forall k n, clones w !! k = Some n -> k ∈ l /\ k = key n.1 n.2) /\
  (forall k c, eps w !! k = Some c -> k ∈ l /\ k = key (ec_svcName c) (ec_namespace c)).

Lemma runs_for_mono l l' w : l ⊆ l' -> runs_for l w -> runs_for l' w.
Proof.
  intros Hl (H1 & H2 & H3). split; [|split]; intros k c Hk.
  - destruct (H1 k c Hk). set_solver.
  - destruct (H2 k c Hk). set_solver.
  - destruct (H3 k c Hk). set_solver.
Qed.

Lemma on_api_maps {T} (m : eff A string T) w r w' : on_api m w = (r, w') ->
  pods w' = pods w /\ clones w' = clones w /\ eps w' = eps w /\ m (api w) = (r, api w').
Proof. unfold on_api. destruct (m (api w)). by intros [= <- <-]. Qed.

Lemma on_api_runs {T} l (m : eff A string T) w r w' : on_api m w = (r, w') -> runs_for l w -> runs_for l w'.
Proof. intros (H1 & H2 & H3 & _)%on_api_maps. unfold runs_for. by rewrite H1, H2, H3. Qed.

Lemma insert_runs {C} (P : string -> C -> Prop) (m : gmap string C) k0 c0 (l : gset string) :
  (forall k c, m !! k = Some c -> k ∈ l /\ P k c) -> k0 ∈ l -> P k0 c0 ->
  forall k c, <[k0 := c0]> m !! k = Some c -> k ∈ l /\ P k c.
Proof. intros Hm Hk Hp k c [[<- <-]|[_ Hc]]%lookup_insert_Some; [done|by apply Hm]. Qed.

Lemma start_pods_runs l service w r w' : start_pods service w = (r, w') ->
  key (es_Name service) (es_Namespace service) ∈ l -> runs_for l w -> runs_for l w'.
Proof.
  intros Hrun Hl Hr. unfold start_pods in Hrun.
  apply eff_bind_inv in Hrun as [(w0 & w0' & [= <- <-] & Hrun)|(? & [= <- _] & _)]. destruct (pods w !! _); [by injection Hrun as _ <-|].
  apply eff_bind_inv in Hrun as [(c & w1 & Hs & Hrun)|(e & Hs & _)]; [|by eapply on_api_runs].
  pose proof (on_api_runs l _ _ _ _ Hs Hr) as (H1 & H2 & H3). injection Hrun as _ <-. split; [|done].
  apply on_api_maps in Hs as (_ & _ & _ & Hs). unfold startIngressPodController in Hs.
  apply eff_bind_inv in Hs as [([] & a1 & _ & Hs)|(? & _ & ?)]; [|done].
  apply eff_bind_inv in Hs as [(gone & a2 & _ & Hs)|(? & _ & ?)]; [|done]. injection Hs as <- _.
  by apply insert_runs.
Qed.

Lemma start_eps_runs l service w r w' : start_eps service w = (r, w') ->
  key (es_Name service) (es_Namespace service) ∈ l -> runs_for l w -> runs_for l w'.
Proof.
  intros Hrun Hl Hr. unfold start_eps in Hrun.
  apply eff_bind_inv in Hrun as [(w0 & w0' & [= <- <-] & Hrun)|(? & [= <- _] & _)]. destruct (eps w !! _); [by injection Hrun as _ <-|].
  apply eff_bind_inv in Hrun as [(c & w1 & Hs & Hrun)|(e & Hs & _)]; [|by eapply on_api_runs].
  pose proof (on_api_runs l _ _ _ _ Hs Hr) as (H1 & H2 & H3). injection Hrun as _ <-. split; [done|]. split; [done|].
  apply on_api_maps in Hs as (_ & _ & _ & Hs). unfold startIngressEndpointsController in Hs.
  apply eff_bind_inv in Hs as [([] & a1 & _ & Hs)|(? & _ & ?)]; [|done].
  apply eff_bind_inv in Hs as [(gone & a2 & _ & Hs)|(? & _ & ?)]; [|done]. injection Hs as <- _.
  by apply insert_runs.
Qed.

Lemma start_clones_runs l name namespace w r w' : start_clones name namespace w = (r, w') ->
  key name namespace ∈ l -> runs_for l w -> runs_for l w'.
Proof.
  intros Hrun Hl Hr. unfold start_clones in Hrun.
  apply eff_bind_inv in Hrun as [(w0 & w0' & [= <- <-] & Hrun)|(? & [= <- _] & _)]. destruct (clones w !! _); [by injection Hrun as _ <-|].
  apply eff_bind_inv in Hrun as [(c & w1 & Hs & Hrun)|(e & Hs & _)]; [|by eapply on_api_runs].
  pose proof (on_api_runs l _ _ _ _ Hs Hr) as (H1 & H2 & H3). injection Hrun as _ <-.
  split; [done|]. split; [|done]. by apply insert_runs.
Qed.

Lemma ignore_api {T} (m : eff A string T) w :
  ignore (E' := string) (on_api m) w = (Ok tt, mkWorld (pods w) (clones w) (eps w) (m (api w)).2).
Proof. unfold ignore, on_api. by destruct (m (api w)). Qed.

(** The deletion of an export, with its effect on the API server. *)
Definition after_cleanup (name namespace : string) (a : A) : A :=
  (gip_DeleteCollection namespace (SelectLabel ServiceRefLabel name) a).2.

Lemma export_onDelete_eq name namespace w :
  let k := key name namespace in
  export_onDelete name namespace w =
    (Ok (Some (named name namespace ∅), false),
     mkWorld (delete k (pods w)) (delete k (clones w)) (delete k (eps w))
       (after_cleanup name namespace (after_cleanup name namespace (api w)))).
Proof.
  intros k. unfold export_onDelete, cleanup_pods, cleanup_clones, cleanup_eps, mbind, eff_bind, modifyw.
  rewrite ignore_api. cbn [pods clones eps api set_pods set_clones set_eps]. by rewrite ignore_api.
Qed.

Lemma delete_runs {C} (P : string -> C -> Prop) (m : gmap string C) k0 (l : gset string) :
  (forall k c, m !! k = Some c -> k ∈ l /\ P k c) ->
  forall k c, delete k0 m !! k = Some c -> k ∈ l ∖ {[k0]} /\ P k c.
Proof. intros Hm k c [Hne Hk]%lookup_delete_Some. destruct (Hm k c Hk). set_solver. Qed.

Lemma export_onCreate_runs name namespace (l : gset string) w : key name namespace ∈ l -> runs_for l w ->
  exists out w', export_onCreate name namespace w = (Ok out, w') /\ runs_for l w'.
Proof.
  intros Hl Hr. unfold export_onCreate.
  assert (Hstep : forall (T : Type) (m : eff (world A) string T) (f : result string T -> eff (world A) string (option IngressIP * bool)) w0,
    (forall r w1, m w0 = (r, w1) -> exists out w', f r w1 = (Ok out, w') /\ runs_for l w') ->
    exists out w', (r ← attempt m; f r) w0 = (Ok out, w') /\ runs_for l w').
  { intros T m f w0 Hm. unfold attempt, mbind, eff_bind. destruct (m w0) as [r w1] eqn:E. by apply Hm. }
  apply Hstep. intros r w1 Hget. pose proof (on_api_runs l _ _ _ _ Hget Hr) as Hr1.
  destruct r as [[service|]|]; [|by eexists _, _|by eexists _, _].
  apply on_api_maps in Hget as (_ & _ & _ & Hget). apply get_named in Hget as [<- <-].
  destruct (negb (es_Type service =?? ServiceTypeClusterIP)); [by eexists _, _|].
  apply Hstep. intros r w2 Hclone.
  assert (Hr2 : runs_for l w2).
  { destruct (_ && _); [by eapply start_clones_runs|]. by injection Hclone as _ <-. }
  destruct r as [[]|]; [|by eexists _, _].
  destruct (es_ClusterIP service =?? ClusterIPNone).
  2:{ destruct (negb (bool_decide (IPv4Protocol ∈ es_IPFamilies service))); eexists _, _; (split; [reflexivity|done]). }
  apply Hstep. intros r w3 Hstart. eexists _, _. split; [reflexivity|].
  destruct (es_Selector service =?? ∅); [by eapply start_eps_runs|by eapply start_pods_runs].
Qed.

Lemma cleanup_pods_runs name namespace l w :
  exists w', cleanup_pods name namespace w = (Ok tt, w') /\ (runs_for l w -> runs_for l w').
Proof.
  unfold cleanup_pods, mbind, eff_bind, modifyw. rewrite ignore_api. eexists. split; [reflexivity|].
  intros (H1 & H2 & H3). split; [|done]. intros k c Hk. simpl in Hk. apply lookup_delete_Some in Hk as [_ Hk]. by apply H1.
Qed.

Lemma export_handle_runs ev (l : gset string) w : runs_for l w ->
  exists w', export_handle ev w = (Ok tt, w') /\ runs_for (exported_step l ev) w'.
Proof.
  intros Hr. destruct ev as [name namespace op|service op|].
  - destruct op; cbn [export_handle export_process exported_step].
    + destruct (export_onCreate_runs name namespace ({[key name namespace]} ∪ l) w) as (out & w' & Hrun & Hr'); [set_solver|..].
      { eapply runs_for_mono; [|exact Hr]. set_solver. }
      exists w'. unfold mbind, eff_bind. by rewrite Hrun.
    + by exists w.
    + unfold mbind, eff_bind. rewrite export_onDelete_eq. eexists. split; [reflexivity|].
      destruct Hr as (H1 & H2 & H3). split; [|split]; by apply delete_runs.
  - cbn [export_handle exported_step]. unfold service_process.
    destruct (negb (es_Type service =?? ServiceTypeClusterIP)); [by exists w|]. destruct op; [by exists w|by exists w|].
    unfold service_onDelete. destruct (cleanup_pods_runs (es_Name service) (es_Namespace service) l w) as (w' & Hrun & Hw').
    exists w'. unfold mbind, eff_bind. rewrite Hrun. split; [done|]. by apply Hw'.
  - eexists. split; [reflexivity|]. split; [|split]; intros k c Hk; simpl in Hk; by rewrite lookup_empty in Hk.
Qed.

(** C20: whatever exports and services come and go, and whichever calls fail, a
    controller of pods, of cloned endpoints or of endpoints runs only for a service
    whose export was created and not deleted since, and under the key of that service. *)
Theorem controllers_only_for_exports evs a :
  exists w', for_each export_handle evs (mkWorld ∅ ∅ ∅ a) = (Ok tt, w') /\
    runs_for (foldl exported_step ∅ evs) w'.
Proof.
  assert (Hr : runs_for ∅ (mkWorld ∅ ∅ ∅ a)) by (split; [|split]; intros k c Hk; simpl in Hk; by rewrite lookup_empty in Hk).
  revert Hr. generalize (mkWorld (A := A) ∅ ∅ ∅ a) as w. generalize (∅ : gset string) as l.
  induction evs as [|ev evs IH]; intros l w Hr; [by exists w|].
  destruct (export_handle_runs ev l w Hr) as (w1 & H1 & Hr1). destruct (IH _ _ Hr1) as (w' & Hrun & Hr').
  exists w'. split; [|done]. cbn [for_each]. by rewrite (eff_bind_ok _ _ _ _ _ H1).
Qed.

(** After the deletion of an export and the distribution of what it returns there is
    no GlobalIngressIP of the service, when the API server does not fail. *)
Lemma export_deletion_clean name namespace w obj w' a' :
  (forall ns sel a, is_ok (gip_DeleteCollection ns sel a).1 = true) ->
  export_onDelete name namespace w = (Ok (Some obj, false), w') -> fed_Delete obj (api w') = (Ok tt, a') ->
  gips a' !! (namespace, name) = None /\
  forall k g, gips a' !! k = Some g -> ii_Namespace g = namespace -> ii_Labels g !! ServiceRefLabel <> Some name.
Proof.
  intros Hok. rewrite export_onDelete_eq. intros [= <- <-] Hd%fed_delete_gip. cbn [api is_ok] in Hd.
  unfold after_cleanup in Hd. set (a1 := (gip_DeleteCollection namespace _ (api w)).2) in Hd.
  pose proof (Hok namespace (SelectLabel ServiceRefLabel name) a1) as Hok1.
  destruct (gip_DeleteCollection namespace (SelectLabel ServiceRefLabel name) a1) as [r a2] eqn:E.
  apply delete_gips in E. cbn [fst snd] in Hok1, Hd. rewrite Hok1 in E. split.
  - rewrite Hd. apply lookup_delete_eq.
  - intros k g Hg Hns Hlabel. rewrite Hd in Hg. apply lookup_delete_Some in Hg as [_ Hg]. rewrite E in Hg.
    apply map_lookup_filter_Some in Hg as [_ Hf]. simpl in Hf. by rewrite !bool_decide_true in Hf.
Qed.
End export_lemmas.

(** * Witnesses *)
#[local] Existing Instance k8snet_ref.

Section witnesses.
#[local] Instance ex_api : ExportAPI gip_map := export_ref None false.
#[local] Instance ex_api_laws : ExportAPILaws gip_map := export_ref_laws None false.

Definition ex_endpoints : Endpoints (list string) := mkEndpoints "db" "ns" ∅ [["10.1.0.5"; "fd00::5"]; ["10.1.0.6"]].
Definition ex_controller : endpointsController := mkEndpointsController "db" "ns".
(** One of the addresses has a GlobalIngressIP, and one that is not used any more. *)
Definition ex_gips : gip_map :=
  <[("ns", "a") := with_spec {[headlessSvcEndpointsIP := "10.1.0.6"]} HeadlessServiceEndpoints (Some "db") None
                     (named "a" "ns" {[ServiceRefLabel := "db"]})]>
  {[("ns", "b") := with_spec {[headlessSvcEndpointsIP := "10.1.0.9"]} HeadlessServiceEndpoints (Some "db") None
                     (named "b" "ns" {[ServiceRefLabel := "db"]})]}.
Definition ex_ep_run : eff gip_map string bool := ep_onCreateOrUpdate id elements ex_controller ex_endpoints.
Definition ex_ep_after : gip_map := (ex_ep_run ex_gips).2.

Lemma ingress_endpoints_exact_witness :
  "10.1.0.5" ∈ usedEpIPs id ex_endpoints /\
  exists k g, gips ex_ep_after !! k = Some g /\ mine ex_endpoints g /\ ep_ip g = Some "10.1.0.5".
Proof.
  assert (Hu : "10.1.0.5" ∈ usedEpIPs id ex_endpoints) by (apply (bool_decide_unpack _); vm_compute; exact I).
  split; [exact Hu|].
  assert (Hrun : ex_ep_run ex_gips = (Ok false, ex_ep_after)).
  { unfold ex_ep_after. assert (Hr : (ex_ep_run ex_gips).1 = Ok false) by (vm_compute; reflexivity).
    rewrite <- Hr. by destruct (ex_ep_run ex_gips). }
  unfold ex_ep_run in Hrun. clear -Hu Hrun. revert Hrun. generalize ex_ep_after as m. intros m Hrun.
  destruct (ingress_endpoints_exact id elements ex_controller ex_endpoints ex_gips m (fun m => reflexivity _) Hrun) as [Hall _].
  exact (proj1 (Hall _) Hu).
Defined.

Definition ex_pods : podController := mkPodController "web" "ns" false ∅.
Definition ex_pod_events : list (Pod * GlobalEgress.Operation) :=
  [(mkPod "web-0" "ns" "10.1.0.5" "Pending", GlobalEgress.Create); (mkPod "web-0" "ns" "10.1.0.5" "Running", GlobalEgress.Update);
   (mkPod "web-1" "ns" "10.1.0.6" "Running", GlobalEgress.Create); (mkPod "web-1" "ns" "10.1.0.6" "Running", GlobalEgress.Delete);
   (mkPod "web-0" "ns" "10.1.0.7" "Running", GlobalEgress.Update)].
Definition ex_pods_after : gip_map := (pod_run ex_pod_events ex_pods ∅).2.

(** The pod keeps the address it was first ready with. *)
Lemma pod_ips_follow_pods_witness :
  gips ex_pods_after !! ("ns", "pod-web-0") = Some (pod_ingressIP ex_pods "web-0" "10.1.0.5") /\
  gips ex_pods_after !! ("ns", "pod-web-1") = None.
Proof.
  assert (Hr : (pod_run ex_pod_events ex_pods ∅).1 = Ok (set_map {["pod-web-0"]} ex_pods, true)) by (vm_compute; reflexivity).
  destruct (pod_ips_follow_pods ex_pods ex_pod_events ∅ (set_map {["pod-web-0"]} ex_pods) ex_pods_after) as [H _].
  - reflexivity.
  - intros pod op Hev. repeat (apply elem_of_cons in Hev as [[= -> ->]|Hev]; [reflexivity|]). by apply elem_of_nil in Hev.
  - intros n1 n2 H1 H2. simpl in H1, H2. set_unfold. naive_solver.
  - intros pod op Hev. change (stored ∅ !! (pc_namespace ex_pods, pod_ip_name (pod_Name pod)) = None). by rewrite stored_gip_lookup, lookup_empty.
  - rewrite <- Hr. apply surjective_pairing.
  - split.
    + apply (H (mkPod "web-0" "ns" "10.1.0.5" "Pending") GlobalEgress.Create). left.
    + apply (H (mkPod "web-1" "ns" "10.1.0.6" "Running") GlobalEgress.Create). right. right. left.
Defined.

(** Two pods whose names differ after their first 59 characters share the name of
    their GlobalIngressIP: the second pod gets none, and the deletion of the first
    one takes it away. *)
Lemma pod_names_collide :
  let long := "a-deployment-with-a-long-name-of-forty-seven-chars-7c9f8d6b5" in
  let p1 := mkPod (long +:+ "x2k4m") "ns" "10.1.0.5" "Running" in
  let p2 := mkPod (long +:+ "x9z7q") "ns" "10.1.0.6" "Running" in
  match pod_run [(p1, GlobalEgress.Create); (p2, GlobalEgress.Create)] ex_pods ∅ with
  | (Ok (c, true), m) =>
      size m = 1%nat /\ m !! ("ns", pod_ip_name (pod_Name p2)) = Some (pod_ingressIP ex_pods (pod_Name p1) "10.1.0.5") /\
      (pod_run [(p1, GlobalEgress.Delete)] c m).2 = ∅
  | _ => False
  end.
Proof. vm_compute. done. Qed.

(** Services whose names agree in their first 44 characters share the names of the
    GlobalIngressIPs of equal addresses: the endpoints of the second one are
    processed again and again. *)
Lemma ep_names_collide :
  let svc n := "a-headless-service-with-a-rather-long-name-x" +:+ n in
  let ep n : Endpoints (list string) := mkEndpoints (svc n) "ns" ∅ [["10.1.0.5"]] in
  let c n := mkEndpointsController (svc n) "ns" in
  let m := (ep_onCreateOrUpdate id elements (c "a") (ep "a") ∅).2 in
  (ep_onCreateOrUpdate id elements (c "b") (ep "b") m).1 = Ok true.
Proof. vm_compute. reflexivity. Qed.
End witnesses.

Section down.
#[local] Instance down_api : ExportAPI gip_map := export_ref None true.
#[local] Instance down_api_laws : ExportAPILaws gip_map := export_ref_laws None true.

Lemma pod_ip_creation_lost_witness :
  let pod := mkPod "web-0" "ns" "10.1.0.5" "Running" in
  exists c a, (pod_event pod GlobalEgress.Create ex_pods ∅ = (Ok (c, false), a)) /\
    exists a', pod_run [(pod, GlobalEgress.Create); (pod, GlobalEgress.Update)] c a = (Ok (c, true), a') /\ gips a' = gips (∅ : gip_map).
Proof.
  intros pod. exists (set_map {["pod-web-0"]} ex_pods), ∅. split; [vm_compute; reflexivity|].
  apply (pod_ip_creation_lost ex_pods pod GlobalEgress.Create ∅ _ ∅); [discriminate|vm_compute; reflexivity|].
  intros pod' op' Hev. repeat (apply elem_of_cons in Hev as [[= -> ->]|Hev]; [done|]). by apply elem_of_nil in Hev.
Defined.
End down.

(** ** What the start of a controller of endpoints reconciles *)
Lemma char_append c s1 s2 : In c (String.list_ascii_of_string (s1 +:+ s2)) <->
  In c (String.list_ascii_of_string s1) \/ In c (String.list_ascii_of_string s2).
Proof.
  assert (Happ : String.list_ascii_of_string (s1 +:+ s2) = String.list_ascii_of_string s1 ++ String.list_ascii_of_string s2).
  { induction s1 as [|c1 s1 IH]; [done|]. simpl. f_equal. exact IH. }
  rewrite Happ. apply in_app_iff.
Qed.

(** The field selector asks for the objects with the name of the service, but the
    name of a GlobalIngressIP of its endpoints holds the dots of the address: no
    such object is listed, so those of addresses that went away while nothing ran
    are not found. *)
Lemma ep_reconcile_lists_nothing svc name namespace epIP :
  ~ In (Ascii.ascii_of_nat 46) (String.list_ascii_of_string svc) ->
  In (Ascii.ascii_of_nat 46) (String.list_ascii_of_string (String.substring 0 15 epIP)) ->
  selects (SelectName svc) (ep_ingressIP svc name namespace epIP) = false.
Proof.
  intros Hsvc Hip. apply bool_decide_eq_false. change (ii_Name _) with (ep_ip_name name epIP). intros <-. apply Hsvc.
  unfold ep_ip_name. do 3 (apply char_append; right). exact Hip.
Qed.
End ServiceExport.
