(* ===== verification/Libreswan.v ===== *)
(** The libreswan cable driver (src/pkg/cable/libreswan): the connections of pluto,
    one for each pair of a local and a remote subnet, in the modes with a pre-shared
    key (libreswan.go) and with certificates (certificate_auth_mode.go), the choice of
    the side that is the server (preferred_server.go) and the file of the connections
    (connection_file.go).  Pluto, its command line and the files are a class. *)
From stdpp Require Import base gmap list strings fin_sets.
From Stdlib Require String.
From Stdlib Require Import ZArith Lia Ascii.
From S2P Require Import Prelude GoNet GoStrings K8s Cidr Endpoint NatDiscovery CableEngine Metrics WireGuard.
Import Net Endpoint RemoteNAT Strings.
Local Open Scope Z_scope.

(** Pluto and the files of libreswan: [whack_run] is one run of [ipsec whack],
    [ExitError] its exit with a code; the lists are the lines it printed; [conf_*]
    work on the file of the connections, whose absence is [None]; [socket_polls] is the
    number of looks at the control socket of pluto that fit into its time limit. *)
Inductive stat_error := ErrNotExist | StatError (msg : string).

Inductive whack_error := ExitError (code : Z) | OtherError (msg : string).

Class Pluto (W : Type) := {
  whack_run : list string -> eff W whack_error unit;
  traffic_status : eff W string (list string);
  whack_status : eff W string (list string);
  auto_add : string -> eff W string unit;
  open_log : string -> eff W string unit;
  pluto_start : list string -> eff W string unit;
  stat_socket : eff W stat_error unit;
  socket_polls : nat;
  write_secrets : string -> eff W string unit;
  issue_certificate : string -> list string -> eff W string unit;
  certificate_cleanup : eff W string unit;
  conf_Read : eff W string (option string);
  conf_Write : string -> eff W string unit;
  conf_Append : string -> eff W string unit;
  conf_Remove : eff W string unit;
}.

Module Libreswan.

Definition cableDriverName : string := "libreswan".
Definition dpdDelay : Z := 30.
Definition encryptArg : string := "--encrypt".
Definition forceencapsArg : string := "--encaps=".
Definition nameArg : string := "--name".
Definition hostArg : string := "--host".
Definition clientArg : string := "--client".
Definition ikeportArg : string := "--ikeport".
Definition dpdactionHoldArg : string := "--dpdaction=hold".
Definition dpddelayArg : string := "--dpddelay".
Definition ClientCertName : string := "subm-client-cert".
Definition certModeReconcileThreshold : Z := 3.

Inductive AuthMode := AuthModePSK | AuthModeCert.

#[global] Instance AuthMode_eq_dec : EqDecision AuthMode.
Proof. solve_decision. Defined.

Definition ipFamilyArgs (f : IPFamily) : string :=
  match f with IPv4 => "--ipv4" | IPv6 => "--ipv6" | IPFamilyUnknown => "" end.

(** * Validation *)
(** [^[a-zA-Z0-9._-]{1,200}$] *)
Definition cable_name_char (c : ascii) : bool :=
  let n := nat_of_ascii c in
  ((97 <=? n) && (n <=? 122) || (65 <=? n) && (n <=? 90) || (48 <=? n) && (n <=? 57) ||
   (n =? 46) || (n =? 95) || (n =? 45))%nat.

Definition validateCableName (cableName : string) : bool :=
  let l := String.list_ascii_of_string cableName in
  negb (cableName =?? "") && (length l <=? 200)%nat && forallb cable_name_char l.

Definition validateEndpointInputs (endpoint : EndpointSpec) (localIP remoteIP : string) : option string :=
  if negb (validateCableName (CableName endpoint)) then Some "invalid cable name"
  else if negb (forallb (fun s => match ParseCIDR s with Some _ => true | None => false end) (Subnets endpoint))
  then Some "invalid CIDR"
  else if ParseIP remoteIP =?? [] then Some "invalid IP address"
  else if ParseIP localIP =?? [] then Some "invalid IP address"
  else None.

(** * Names *)
Definition toConnectionName (cableName : string) (family : IPFamily) (lsi rsi : nat) : string :=
  cableName +:+ "-v" +:+ family_str family +:+ "-" +:+ Strconv.Itoa (Z.of_nat lsi) +:+ "-" +:+ Strconv.Itoa (Z.of_nat rsi).

Definition toEndpointIdentifier (ip : string) (lsi rsi : nat) : string :=
  "@" +:+ ip +:+ "-" +:+ Strconv.Itoa (Z.of_nat lsi) +:+ "-" +:+ Strconv.Itoa (Z.of_nat rsi).

Definition missedRefreshesKey (cableName : string) (family : IPFamily) : string :=
  cableName +:+ "-v" +:+ family_str family.

(** * The server (preferred_server.go) *)
Inductive operationMode := operationModeBidirectional | operationModeServer | operationModeClient.

#[global] Instance operationMode_eq_dec : EqDecision operationMode.
Proof. solve_decision. Defined.

(** A value that is no boolean is logged and taken as false. *)
Definition calculateOperationMode (localEndpoint remoteEndpoint : EndpointSpec) : operationMode :=
  let leftPreferred := (GetBackendBool localEndpoint PreferredServerConfig false).1 in
  let rightPreferred := (GetBackendBool remoteEndpoint PreferredServerConfig false).1 in
  if negb leftPreferred && negb rightPreferred then operationModeBidirectional
  else if leftPreferred && negb rightPreferred then operationModeServer
  else if rightPreferred && negb leftPreferred then operationModeClient
  else match String.compare (CableName localEndpoint) (CableName remoteEndpoint) with
       | Gt => operationModeServer
       | _ => operationModeClient
       end.

(** [env]: CE_IPSEC_PREFERREDSERVER; [update] is that of the local endpoint. *)
Definition processPreferredServerConfig {A} (env : string) (now : Z)
    (update : (EndpointSpec -> EndpointSpec) -> eff A string unit) (localSpec : EndpointSpec) : eff A string unit :=
  let configured := config_get localSpec PreferredServerConfig in
  let preferredServerStr := if configured =?? "" then env else configured in
  let preferredServerStr := if preferredServerStr =?? "" then "false" else preferredServerStr in
  match Strconv.ParseBool preferredServerStr with
  | Err _ => fail "error parsing the preferred server bool"
  | Ok preferredServer =>
      update (fun existing =>
        let config := <[PreferredServerConfig := preferredServerStr]> (BackendConfig existing) in
        let config := if preferredServer : bool
                      then <[PreferredServerConfig +:+ "-timestamp" := Strconv.Itoa now]> config else config in
        {| ClusterID := ClusterID existing; CableName := CableName existing;
           HealthCheckIP := HealthCheckIP existing; HealthCheckIPs := HealthCheckIPs existing;
           Hostname := Hostname existing; Subnets := Subnets existing;
           PrivateIP := PrivateIP existing; PrivateIPs := PrivateIPs existing;
           PublicIP := PublicIP existing; PublicIPs := PublicIPs existing;
           NATEnabled := NATEnabled existing; Backend := Backend existing; BackendConfig := config |})
  end.

(** * The output of whack *)
(** [.*] before something: the last place at which it matches. *)
Fixpoint last_match {T} (f : list ascii -> option T) (l : list ascii) : option T :=
  match l with
  | [] => f []
  | _ :: l' => match last_match f l' with Some x => Some x | None => f l end
  end.

Fixpoint strip (pre l : list ascii) : option (list ascii) :=
  match pre, l with
  | [], _ => Some l
  | c :: pre, c' :: l => if c =?? c' then strip pre l else None
  | _ :: _, [] => None
  end.

Definition is_digit : ascii -> bool := Strconv.is_digit.

(** A character that is no quote, then [-v[46]-[0-1]-[0-1]] at the end. *)
Definition connection_name (l : list ascii) : bool :=
  match rev l with
  | b :: d2 :: a :: d1 :: f :: v :: d0 :: _ :: _ =>
      bool_decide (b ∈ chars "01") && bool_decide (a ∈ chars "01") && bool_decide (f ∈ chars "46") &&
      (d2 =?? "-"%char) && (d1 =?? "-"%char) && (v =?? "v"%char) && (d0 =?? "-"%char)
  | _ => false
  end.

(** [inBytes=(\d+), outBytes=(\d+)] *)
Definition match_bytes (l : list ascii) : option (string * string) :=
  l ← strip (chars "inBytes=") l;
  let '(rx, l) := break (fun c => negb (is_digit c)) l in
  l ← strip (chars ", outBytes=") l;
  let '(tx, _) := break (fun c => negb (is_digit c)) l in
  if (rx =?? []) || (tx =?? []) then None else Some (text rx, text tx).

(** From the space before the name on. *)
Definition match_connection (l : list ascii) : option (string * string * string) :=
  l ← strip [" "%char; quote] l;
  let '(name, l) := break (fun c => c =?? quote) l in
  l ← strip [quote] l;
  l ← strip (chars ", ") (break (fun c => c =?? ","%char) l).2;
  bytes ← last_match match_bytes l;
  if connection_name name then Some (text name, bytes.1, bytes.2) else None.

(** [TrafficStatusRE.FindStringSubmatch] *)
Definition TrafficStatusRE (line : string) : option (string * string * string) :=
  last_match match_connection (chars line).

(** [LoadedConnectionRE]: an optional code of three digits, a name in quotes and a colon. *)
Definition quoted_name (l : list ascii) : option string :=
  l ← strip [quote] l;
  let '(name, l) := break (fun c => c =?? quote) l in
  _ ← strip [quote; ":"%char] l;
  if name =?? [] then None else Some (text name).

Definition LoadedConnectionRE (line : string) : option string :=
  match chars line with
  | d1 :: d2 :: d3 :: " "%char :: l =>
      if is_digit d1 && is_digit d2 && is_digit d3 then quoted_name l else quoted_name (chars line)
  | l => quoted_name l
  end.

(** Bytes received and sent by connection. *)
Definition traffic : Type := gmap string Z * gmap string Z.

Definition add_bytes (name digits : string) (m : gmap string Z) : gmap string Z :=
  let m := <[name := zget 0 m name]> m in
  match Strconv.ParseInt digits with
  | Ok n => <[name := int64 (zget 0 m name + n)]> m
  | Err _ => m
  end.

Definition read_traffic (lines : list string) : traffic :=
  foldl (fun t line => match TrafficStatusRE line with
                       | Some (name, rx, tx) => (add_bytes name rx t.1, add_bytes name tx t.2)
                       | None => t
                       end) (∅, ∅) lines.

Definition read_loaded (lines : list string) : gset string := list_to_set (omap LoadedConnectionRE lines).

(** * The file of the connections (connection_file.go) *)
Definition join_lines (lines : list string) : string := foldr (fun l s => l +:+ String.String newline s) "" lines.

Definition remove_stanza (connName : string) (lines : list string) : option (list string) :=
  start ← IndexFunc (fun s => TrimSpace s =?? "conn " +:+ connName) lines;
  let rest := drop (Datatypes.S start) lines in
  let end_ := match IndexFunc (fun s => String.prefix "conn " (TrimSpace s)) rest with
              | None => length lines
              | Some e => (e + start + 1)%nat
              end in
  Some (take start lines ++ drop end_ lines).

Section connection_file.
Context {W : Type} `{!Pluto W}.

Definition RemoveConnectionStanza (connName : string) : eff W string unit :=
  data ← conf_Read;
  match data with
  | None => mret tt
  | Some data =>
      let lines := base.filter (fun s => s <> "") (Split newline data) in
      match remove_stanza connName lines with
      | None => mret tt
      | Some [] => conf_Remove
      | Some lines => conf_Write (join_lines lines)
      end
  end.

Definition AppendConnectionStanza (stanza connName : string) : eff W string unit :=
  _ ← RemoveConnectionStanza connName;
  conf_Append (if negb (last (chars stanza) =?? Some newline) then stanza +:+ String.String newline "" else stanza).
End connection_file.

(** * The driver *)
(** [connections] is a slice: its elements, and the slots of its array past them
    that earlier slices still see; [missedRefreshes] is nil with a pre-shared key. *)
Record libreswan (W G : Type) := mkLibreswan {
  localEndpoint : EndpointSpec;
  connections : list Connection;
  stale : list Connection;
  secretKey : string;
  logFile : string;
  ipSecNATTPort : string;
  defaultNATTPort : Z;
  debug : bool;
  forceUDPEncapsulation : bool;
  plutoStarted : bool;
  authMode : AuthMode;
  missedRefreshes : option (gmap string Z);
  host : W;
  recorded_metrics : Metrics.metrics G;
}.
Arguments mkLibreswan {W G}.
Arguments localEndpoint {W G}.
Arguments connections {W G}.
Arguments stale {W G}.
Arguments secretKey {W G}.
Arguments logFile {W G}.
Arguments ipSecNATTPort {W G}.
Arguments defaultNATTPort {W G}.
Arguments debug {W G}.
Arguments forceUDPEncapsulation {W G}.
Arguments plutoStarted {W G}.
Arguments authMode {W G}.
Arguments missedRefreshes {W G}.
Arguments host {W G}.
Arguments recorded_metrics {W G}.

(** The environment of the process. *)
Record specification := mkSpecification {
  spec_Debug : bool;
  spec_ForceEncaps : bool;
  spec_PSK : string;
  spec_PSKSecret : string;
  spec_LogFile : string;
  spec_NATTPort : string;
  spec_AuthMode : string;
}.

Section driver.
Context {W G : Type} `{!Pluto W} `{!GaugeVec G} `{K8sNet}.
(** The clock. *)
Context (now : Z).

Abbreviation drv := (libreswan W G).
Abbreviation M := (eff (libreswan W G) string).
Implicit Types (i : drv).

Definition with_connections (l s : list Connection) i : drv :=
  mkLibreswan (localEndpoint i) l s (secretKey i) (logFile i) (ipSecNATTPort i) (defaultNATTPort i) (debug i)
    (forceUDPEncapsulation i) (plutoStarted i) (authMode i) (missedRefreshes i) (host i) (recorded_metrics i).
Definition with_started (b : bool) i : drv :=
  mkLibreswan (localEndpoint i) (connections i) (stale i) (secretKey i) (logFile i) (ipSecNATTPort i)
    (defaultNATTPort i) (debug i) (forceUDPEncapsulation i) b (authMode i) (missedRefreshes i) (host i) (recorded_metrics i).
Definition with_missed (m : option (gmap string Z)) i : drv :=
  mkLibreswan (localEndpoint i) (connections i) (stale i) (secretKey i) (logFile i) (ipSecNATTPort i)
    (defaultNATTPort i) (debug i) (forceUDPEncapsulation i) (plutoStarted i) (authMode i) m (host i) (recorded_metrics i).
Definition with_host (w : W) i : drv :=
  mkLibreswan (localEndpoint i) (connections i) (stale i) (secretKey i) (logFile i) (ipSecNATTPort i)
    (defaultNATTPort i) (debug i) (forceUDPEncapsulation i) (plutoStarted i) (authMode i) (missedRefreshes i) w
    (recorded_metrics i).
Definition with_metrics (f : Metrics.metrics G -> Metrics.metrics G) i : drv :=
  mkLibreswan (localEndpoint i) (connections i) (stale i) (secretKey i) (logFile i) (ipSecNATTPort i)
    (defaultNATTPort i) (debug i) (forceUDPEncapsulation i) (plutoStarted i) (authMode i) (missedRefreshes i) (host i)
    (f (recorded_metrics i)).

Definition on_host {E A} (wrap : E -> string) (m : eff W E A) : M A := fun i =>
  let '(r, w) := m (host i) in (map_err wrap r, with_host w i).

(** [ExtractSubnetsExcludingIP] panics when a subnet is no CIDR. *)
Definition subnets_excluding (ep : EndpointSpec) (ip : string) : M (list string) := fun i =>
  (map_err (fun _ => "panic: bad subnet") (ExtractSubnetsExcludingIP ep ip), i).

(** The loops over the pairs of subnets, with their indices. *)
Definition for_pairs (left right : list string) (f : nat -> string -> nat -> string -> M unit) : M unit :=
  for_each (fun '(lsi, l) => for_each (fun '(rsi, r) => f lsi l rsi r) (imap pair right)) (imap pair left).

(** ** Command lines *)
(** Three attempts, a second apart; the error of the last one is kept. *)
Fixpoint whack_tries (n : nat) (args : list string) : eff W whack_error unit :=
  match n with
  | O => mret tt
  | Datatypes.S n =>
      r ← attempt (whack_run args);
      match r : result whack_error unit with
      | Ok _ => mret tt
      | Err e => match n with O => fail e | _ => whack_tries n args end
      end
  end.

Definition whack (args : list string) : eff W whack_error unit := whack_tries 3 args.

Definition whack_failed (_ : whack_error) : string := "error whacking".

Definition encaps (useNAT : bool) i : string :=
  forceencapsArg +:+ (if useNAT || forceUDPEncapsulation i then "yes" else "auto").

Definition bidirectional_args (connectionName : string) (info : NATEndpointInfo) (leftSubnet rightSubnet : string)
    (rightNATTPort : Z) i : list string :=
  ["--psk"; encryptArg; encaps (UseNAT info) i; nameArg; connectionName; ipFamilyArgs (UseFamily info);
   "--id"; GetPrivateIP (localEndpoint i) (UseFamily info);
   hostArg; GetPrivateIP (localEndpoint i) (UseFamily info); clientArg; leftSubnet; ikeportArg; ipSecNATTPort i;
   "--to";
   "--id"; GetPrivateIP (Spec (info_Endpoint info)) (UseFamily info);
   hostArg; UseIP info; clientArg; rightSubnet; ikeportArg; Strconv.Itoa rightNATTPort;
   dpdactionHoldArg; dpddelayArg; Strconv.Itoa dpdDelay].

Definition server_args (connectionName : string) (info : NATEndpointInfo) (leftSubnet rightSubnet : string)
    (lsi rsi : nat) i : list string :=
  ["--psk"; encryptArg; encaps (UseNAT info) i; nameArg; connectionName; ipFamilyArgs (UseFamily info);
   "--id"; toEndpointIdentifier (GetPrivateIP (localEndpoint i) (UseFamily info)) lsi rsi;
   hostArg; GetPrivateIP (localEndpoint i) (UseFamily info); clientArg; leftSubnet; ikeportArg; ipSecNATTPort i;
   "--to";
   "--id"; toEndpointIdentifier (GetPrivateIP (Spec (info_Endpoint info)) (UseFamily info)) rsi lsi;
   hostArg; "%any"; clientArg; rightSubnet;
   dpdactionHoldArg; dpddelayArg; Strconv.Itoa dpdDelay].

Definition client_args (connectionName : string) (info : NATEndpointInfo) (leftSubnet rightSubnet : string)
    (rightNATTPort : Z) (lsi rsi : nat) i : list string :=
  ["--psk"; encryptArg; encaps (UseNAT info) i; nameArg; connectionName; ipFamilyArgs (UseFamily info);
   "--id"; toEndpointIdentifier (GetPrivateIP (localEndpoint i) (UseFamily info)) lsi rsi;
   hostArg; GetPrivateIP (localEndpoint i) (UseFamily info); clientArg; leftSubnet;
   "--to";
   "--id"; toEndpointIdentifier (GetPrivateIP (Spec (info_Endpoint info)) (UseFamily info)) rsi lsi;
   hostArg; UseIP info; clientArg; rightSubnet; ikeportArg; Strconv.Itoa rightNATTPort;
   dpdactionHoldArg; dpddelayArg; Strconv.Itoa dpdDelay].

Definition route_and_initiate (connectionName : string) : M unit :=
  _ ← on_host whack_failed (whack ["--route"; nameArg; connectionName]);
  on_host whack_failed (whack ["--initiate"; "--asynchronous"; nameArg; connectionName]).

Definition bidirectionalConnectToEndpoint (connectionName : string) (info : NATEndpointInfo)
    (leftSubnet rightSubnet : string) (rightNATTPort : Z) : M unit :=
  i ← getw;
  _ ← on_host whack_failed (whack (bidirectional_args connectionName info leftSubnet rightSubnet rightNATTPort i));
  route_and_initiate connectionName.

Definition serverConnectToEndpoint (connectionName : string) (info : NATEndpointInfo)
    (leftSubnet rightSubnet : string) (lsi rsi : nat) : M unit :=
  i ← getw;
  on_host whack_failed (whack (server_args connectionName info leftSubnet rightSubnet lsi rsi i)).

Definition clientConnectToEndpoint (connectionName : string) (info : NATEndpointInfo)
    (leftSubnet rightSubnet : string) (rightNATTPort : Z) (lsi rsi : nat) : M unit :=
  i ← getw;
  _ ← on_host whack_failed (whack (client_args connectionName info leftSubnet rightSubnet rightNATTPort lsi rsi i));
  route_and_initiate connectionName.

(** ** The start of pluto, which ends the process when it fails *)
Fixpoint poll_socket (n : nat) : eff W string unit :=
  match n with
  | O => fail "timed out waiting for the control socket"
  | Datatypes.S n =>
      r ← attempt stat_socket;
      match r : result stat_error unit with
      | Ok _ => mret tt
      | Err ErrNotExist => poll_socket n
      | Err (StatError e) => fail e
      end
  end.

Definition waitForControlSocket : eff W string unit := poll_socket socket_polls.

Definition runPluto : M unit :=
  i ← getw;
  _ ← (if logFile i =?? "" then mret tt else on_host (fun _ => "failed to open log file") (open_log (logFile i)));
  _ ← on_host (fun _ => "error starting the Pluto process") (pluto_start (if debug i then ["--stderrlog"] else []));
  _ ← on_host (fun e => e) waitForControlSocket;
  if debug i then on_host whack_failed (whack ["--debug"; "base"]) else mret tt.

Definition waitForPluto : M unit :=
  i ← getw;
  if plutoStarted i then mret tt
  else
    r ← attempt runPluto;
    match r : result string unit with
    | Err _ => fail "fatal: error running Pluto"
    | Ok _ => modifyw (with_started true)
    end.

(** ** Connections *)
(** [append]: a slot of the array that follows the slice is overwritten. *)
Definition append_connection (c : Connection) i : drv := with_connections (connections i ++ [c]) (drop 1 (stale i)) i.

Definition of_cable (spec : EndpointSpec) (family : IPFamily) (c : Connection) : bool :=
  (CableName (conn_Endpoint c) =?? CableName spec) && (GetFamily c =?? family).

(** [copy] shifts the elements after the first match inside the array; its last
    slot keeps its value. *)
Definition removeConnectionForEndpoint (spec : EndpointSpec) (family : IPFamily) i : drv :=
  match IndexFunc (of_cable spec family) (connections i) with
  | None => i
  | Some j =>
      let n := length (connections i) in
      let shifted := take j (connections i) ++ drop (Datatypes.S j) (connections i) ++ drop (n - 1) (connections i) in
      with_connections (take (n - 1) shifted) (drop (n - 1) shifted ++ stale i) i
  end.

Definition record_connection (remote : EndpointSpec) (st : string) (isNew : bool) (family : IPFamily) : M unit :=
  modifyw (fun i => with_metrics (Metrics.RecordConnection now cableDriverName (localEndpoint i) remote st isNew family) i).

Definition connectToEndpointPSKMode (info : NATEndpointInfo) : M string :=
  _ ← waitForPluto;
  i ← getw;
  let remote := Spec (info_Endpoint info) in
  let localIP := GetPrivateIP (localEndpoint i) (UseFamily info) in
  match validateEndpointInputs remote localIP (UseIP info) with
  | Some e => fail e
  | None =>
      let rightNATTPort := (GetBackendPort remote UDPPortConfig (defaultNATTPort i)).1 in
      leftSubnets ← subnets_excluding (localEndpoint i) (UseIP info);
      rightSubnets ← subnets_excluding remote (UseIP info);
      _ ← on_host whack_failed (whack ["--listen"]);
      _ ← for_pairs leftSubnets rightSubnets (fun lsi leftSubnet rsi rightSubnet =>
            let connectionName := toConnectionName (CableName remote) (UseFamily info) lsi rsi in
            match calculateOperationMode (localEndpoint i) remote with
            | operationModeBidirectional =>
                bidirectionalConnectToEndpoint connectionName info leftSubnet rightSubnet rightNATTPort
            | operationModeServer => serverConnectToEndpoint connectionName info leftSubnet rightSubnet lsi rsi
            | operationModeClient =>
                clientConnectToEndpoint connectionName info leftSubnet rightSubnet rightNATTPort lsi rsi
            end);
      _ ← modifyw (append_connection (mkConnection Connected "" remote (UseIP info) (UseNAT info) None));
      _ ← record_connection remote "connected" true (UseFamily info);
      mret (UseIP info)
  end.

(** ** Certificates (certificate_auth_mode.go) *)
Definition nl : string := String.String newline "".

Definition stanza_text (connName left leftSubnet right rightSubnet : string) (encapsulation : bool) : string :=
  "conn " +:+ connName +:+ nl +:+
  "    left=" +:+ left +:+ nl +:+
  "    leftid=%fromcert" +:+ nl +:+
  "    leftcert=" +:+ ClientCertName +:+ nl +:+
  "    leftrsasigkey=%cert" +:+ nl +:+
  "    leftsubnet=" +:+ leftSubnet +:+ nl +:+
  "    leftmodecfgclient=false" +:+ nl +:+
  "    right=" +:+ right +:+ nl +:+
  "    rightid=%fromcert" +:+ nl +:+
  "    rightsubnet=" +:+ rightSubnet +:+ nl +:+
  (if encapsulation then "    encapsulation=yes" +:+ nl else "") +:+
  "    auto=add" +:+ nl +:+
  "    ikev2=insist" +:+ nl +:+
  "    authby=rsasig" +:+ nl +:+
  "    type=tunnel".

(** The connection of a pair of subnets; [onlyConns]: [None] installs every one. *)
Definition install_pair (endpoint : EndpointSpec) (useIP : string) (useFamily : IPFamily) (useNAT : bool)
    (onlyConns : option (gset string)) i (lsi : nat) (leftSubnet : string) (rsi : nat) (rightSubnet : string) : M unit :=
  let connName := toConnectionName (CableName endpoint) useFamily lsi rsi in
  if match onlyConns with Some s => negb (bool_decide (connName ∈ s)) | None => false end then mret tt
  else
    let conf := stanza_text connName (GetPrivateIP (localEndpoint i) useFamily) leftSubnet useIP rightSubnet
                  (useNAT || forceUDPEncapsulation i) in
    _ ← on_host (fun _ => "failed to append connection stanza") (AppendConnectionStanza conf connName);
    _ ← on_host (fun _ => "failed to add connection") (auto_add connName);
    match calculateOperationMode (localEndpoint i) endpoint with
    | operationModeServer => mret tt
    | _ => on_host (fun _ => "failed to bring up connection")
             (whack_run [nameArg; connName; "--asynchronous"; "--initiate"])
    end.

Definition installCertModeConnections (endpoint : EndpointSpec) (useIP : string) (useFamily : IPFamily) (useNAT : bool)
    (onlyConns : option (gset string)) : M unit :=
  i ← getw;
  match validateEndpointInputs endpoint (GetPrivateIP (localEndpoint i) useFamily) useIP with
  | Some e => fail e
  | None =>
      leftSubnets ← subnets_excluding (localEndpoint i) useIP;
      rightSubnets ← subnets_excluding endpoint useIP;
      for_pairs leftSubnets rightSubnets (install_pair endpoint useIP useFamily useNAT onlyConns i)
  end.

Definition connectToEndpointCertMode (info : NATEndpointInfo) : M string :=
  let remote := Spec (info_Endpoint info) in
  _ ← installCertModeConnections remote (UseIP info) (UseFamily info) (UseNAT info) None;
  _ ← modifyw (append_connection (mkConnection Connected "" remote (UseIP info) (UseNAT info) None));
  mret (UseIP info).

Definition ConnectToEndpoint (info : NATEndpointInfo) : M string :=
  i ← getw;
  if authMode i =?? AuthModeCert then connectToEndpointCertMode info else connectToEndpointPSKMode info.

(** ** Disconnection *)
Definition disconnectPSKMode (connectionName : string) : M unit := fun i =>
  match whack ["--delete"; nameArg; connectionName] (host i) with
  | (Ok _, w) | (Err (ExitError _), w) => (Ok tt, with_host w i)
  | (Err (OtherError _), w) => (Err "error deleting a connection", with_host w i)
  end.

Definition disconnectCertMode (connectionName : string) : M unit :=
  on_host (fun _ => "failed to remove connection stanza") (RemoveConnectionStanza connectionName).

Definition forget_missed (key : string) : M unit := modifyw (fun i => with_missed (delete key <$> missedRefreshes i) i).

Definition DisconnectFromEndpoint (remote : EndpointSpec) (family : IPFamily) : M unit :=
  i ← getw;
  leftSubnets ← subnets_excluding (localEndpoint i) (GetPrivateIP (localEndpoint i) family);
  rightSubnets ← subnets_excluding remote (GetPrivateIP remote family);
  _ ← for_pairs leftSubnets rightSubnets (fun lsi _ rsi _ =>
        let connectionName := toConnectionName (CableName remote) family lsi rsi in
        if authMode i =?? AuthModeCert then disconnectCertMode connectionName else disconnectPSKMode connectionName);
  _ ← modifyw (removeConnectionForEndpoint remote family);
  _ ← (if authMode i =?? AuthModeCert then forget_missed (missedRefreshesKey (CableName remote) family) else mret tt);
  modifyw (fun i => with_metrics (Metrics.RecordDisconnected cableDriverName (localEndpoint i) remote family) i).

(** ** Status *)
(** Bytes of the active connections among the names, and whether there is one. *)
Definition count_name (t : traffic) (acc : Z * Z * bool) (name : string) : Z * Z * bool :=
  let '(rx, tx, connected) := acc in
  match t.1 !! name, t.2 !! name with
  | None, None => (rx, tx, connected)
  | subRx, subTx => (int64 (rx + default 0 subRx), int64 (tx + default 0 subTx), true)
  end.

Definition active_bytes (t : traffic) (names : list string) : Z * Z * bool := foldl (count_name t) (0, 0, false) names.

Definition pair_names (cableName : string) (family : IPFamily) (left right : list string) : list string :=
  lsi ← seq 0 (length left); rsi ← seq 0 (length right); [toConnectionName cableName family lsi rsi].

Definition refresh_connection (t : traffic) (localSubnets : IPFamily -> list string) (c : Connection) : M Connection :=
  let family := GetFamily c in
  remoteSubnets ← subnets_excluding (conn_Endpoint c) (GetPrivateIP (conn_Endpoint c) family);
  let '(rx, tx, isConnected) := active_bytes t (pair_names (CableName (conn_Endpoint c)) family (localSubnets family) remoteSubnets) in
  let with_status st := mkConnection st (StatusMessage c) (conn_Endpoint c) (UsingIP c) (UsingNAT c) (LatencyRTT c) in
  let c := if isConnected then with_status Connected else c in
  _ ← record_connection (conn_Endpoint c) (WireGuard.status_str (Status c)) false family;
  _ ← modifyw (fun i => with_metrics (Metrics.RecordRxBytes cableDriverName (localEndpoint i) (conn_Endpoint c) rx family) i);
  _ ← modifyw (fun i => with_metrics (Metrics.RecordTxBytes cableDriverName (localEndpoint i) (conn_Endpoint c) tx family) i);
  if isConnected then mret c
  else _ ← record_connection (conn_Endpoint c) "connecting" false family; mret (with_status Connecting).

(** Connection [j] is replaced in the slice, in place. *)
Fixpoint refresh_loop (t : traffic) (localSubnets : IPFamily -> list string) (js : list nat) : M unit :=
  match js with
  | [] => mret tt
  | j :: js =>
      i ← getw;
      match connections i !! j with
      | None => fail "panic: index out of range"
      | Some c =>
          c ← refresh_connection t localSubnets c;
          _ ← modifyw (fun i => with_connections (<[j := c]> (connections i)) (stale i) i);
          refresh_loop t localSubnets js
      end
  end.

(** The connections without an established SA for the third time in a row, and the
    counters. *)
Fixpoint count_missed (j : nat) (l : list Connection) (missed : gmap string Z) : list nat * gmap string Z :=
  match l with
  | [] => ([], missed)
  | c :: l =>
      let key := missedRefreshesKey (CableName (conn_Endpoint c)) (GetFamily c) in
      if Status c =?? Connected then count_missed (Datatypes.S j) l (delete key missed)
      else
        let n := zget 0 missed key + 1 in
        if certModeReconcileThreshold <=? n
        then let '(js, missed) := count_missed (Datatypes.S j) l (delete key missed) in (j :: js, missed)
        else count_missed (Datatypes.S j) l (<[key := n]> missed)
  end.

Definition reinstall (loaded : gset string) (j : nat) : M unit :=
  i ← getw;
  match connections i !! j with
  | None => fail "panic: index out of range"
  | Some c =>
      let family := GetFamily c in
      localSubnets ← subnets_excluding (localEndpoint i) (UsingIP c);
      remoteSubnets ← subnets_excluding (conn_Endpoint c) (UsingIP c);
      let missing := list_to_set (pair_names (CableName (conn_Endpoint c)) family localSubnets remoteSubnets) ∖ loaded in
      if missing =?? (∅ : gset string) then mret tt
      else ignore (installCertModeConnections (conn_Endpoint c) (UsingIP c) family (UsingNAT c) (Some missing))
  end.

Definition reconcileCertModeConnections : M unit :=
  i ← getw;
  let '(stale_js, missed) := count_missed 0 (connections i) (default ∅ (missedRefreshes i)) in
  _ ← modifyw (with_missed (Some missed));
  match stale_js with
  | [] => mret tt
  | _ =>
      r ← attempt (on_host (fun e => e) whack_status);
      match r : result string (list string) with
      | Err _ => mret tt
      | Ok lines => for_each (reinstall (read_loaded lines)) stale_js
      end
  end.

Definition refreshConnectionStatus : M unit :=
  lines ← on_host (fun e => e) traffic_status;
  i ← getw;
  local4 ← subnets_excluding (localEndpoint i) (GetPrivateIP (localEndpoint i) IPv4);
  local6 ← subnets_excluding (localEndpoint i) (GetPrivateIP (localEndpoint i) IPv6);
  let localSubnets f := match f with IPv4 => local4 | IPv6 => local6 | IPFamilyUnknown => [] end in
  _ ← refresh_loop (read_traffic lines) localSubnets (seq 0 (length (connections i)));
  if authMode i =?? AuthModeCert then reconcileCertModeConnections else mret tt.

Definition GetConnections : M (list Connection) :=
  i ← getw;
  if negb (plutoStarted i) then mret []
  else _ ← refreshConnectionStatus; i ← getw; mret (connections i).

(** ** Start and end *)
Definition Init : M unit :=
  i ← getw;
  match authMode i with
  | AuthModePSK => on_host (fun e => e) (write_secrets ("%any %any : PSK " +:+ text [quote] +:+ secretKey i +:+ text [quote; newline]))
  | AuthModeCert =>
      _ ← modifyw (with_started true);
      _ ← modifyw (with_missed (Some ∅));
      on_host (fun _ => "unable to issue certificate")
        (issue_certificate ("libreswan-" +:+ Hostname (localEndpoint i))
           (PrivateIPs (localEndpoint i) ++ PublicIPs (localEndpoint i)))
  end.

(** The handler of the certificates is there when the counters are. *)
Definition Cleanup : M unit :=
  i ← getw;
  _ ← (match missedRefreshes i with
       | Some _ => ignore (on_host (fun e => e) certificate_cleanup)
       | None => mret tt
       end);
  ignore (on_host (fun e => e) conf_Remove).

(** [prefer]: [processPreferredServerConfig] on the local endpoint, with the spec it
    has then; [resolve]: the pre-shared key. *)
Definition NewLibreswan (spec : specification) (local : EndpointSpec) (prefer : result string EndpointSpec)
    (resolve : result string string) (w : W) (m : Metrics.metrics G) : result string drv :=
  let mode := if spec_AuthMode spec =?? "psk" then Some AuthModePSK
              else if spec_AuthMode spec =?? "cert" then Some AuthModeCert else None in
  match mode with
  | None => Err "invalid authentication mode"
  | Some mode =>
      match Strconv.ParseUint (spec_NATTPort spec) 16 with
      | Err _ => Err "error parsing CE_IPSEC_NATTPORT environment variable"
      | Ok defaultNATTPort =>
          match GetBackendPort local UDPPortConfig defaultNATTPort with
          | (_, Some _) => Err "error parsing the port of the local endpoint"
          | (nattPort, None) =>
              local ← prefer;
              psk ← (match mode with AuthModePSK => resolve | AuthModeCert => Ok "" end);
              Ok (mkLibreswan local [] [] psk (spec_LogFile spec) (Strconv.Itoa nattPort) defaultNATTPort
                    (spec_Debug spec) (spec_ForceEncaps spec) false mode None w m)
          end
      end
  end.

(** A handle is the length of the slice that was returned; its elements are read
    from the array, until the next [append]. *)
Definition libreswan_driver : Driver drv := {|
  handle := nat;
  CableEngine.Init := Init;
  GetActiveConnections := fun i => (Ok (length (connections i)), i);
  handle_len := fun n => n;
  handle_read := fun i n j => if (j <? n)%nat then (connections i ++ stale i) !! j else None;
  CableEngine.GetConnections := GetConnections;
  CableEngine.ConnectToEndpoint := ConnectToEndpoint;
  CableEngine.DisconnectFromEndpoint := DisconnectFromEndpoint;
  DriverCleanup := Cleanup;
|}.
End driver.

(** * The contract of the engine *)
Section contract.
Context {W G : Type} `{!Pluto W} `{!GaugeVec G} `{K8sNet}.
Context (now : Z).
Implicit Types (i : libreswan W G).

Lemma remove_first_cable spec f l : CableEngine.list_remove spec f l =
  match IndexFunc (of_cable spec f) l with Some j => take j l ++ drop (Datatypes.S j) l | None => l end.
Proof.
  induction l as [|c l IH]; simpl; [done|]. unfold of_cable at 1. destruct (_ && _); [done|].
  rewrite IH. by destruct (IndexFunc _ l).
Qed.

(** The slice after the removal, and its array: nothing else moves. *)
Lemma libreswan_removeConnection_spec spec f i :
  connections (removeConnectionForEndpoint spec f i) = CableEngine.list_remove spec f (connections i) /\
  length (connections (removeConnectionForEndpoint spec f i) ++ stale (removeConnectionForEndpoint spec f i))
    = length (connections i ++ stale i) /\
  localEndpoint (removeConnectionForEndpoint spec f i) = localEndpoint i /\
  authMode (removeConnectionForEndpoint spec f i) = authMode i.
Proof.
  rewrite remove_first_cable. unfold removeConnectionForEndpoint.
  destruct (IndexFunc _ _) as [j|] eqn:Hj; [|done]. simpl.
  apply IndexFunc_Some in Hj as (l1 & x & l2 & -> & <- & _). split.
  - rewrite app_assoc, take_app_le.
    + apply take_ge. repeat rewrite ?length_app, ?length_take, ?length_drop. simpl. lia.
    + repeat rewrite ?length_app, ?length_take, ?length_drop. simpl. lia.
  - split; [|done]. rewrite app_assoc, take_drop. repeat rewrite ?length_app, ?length_take, ?length_drop. simpl. lia.
Qed.

(** Only the host, the metrics and the counters change. *)
Definition same_slice i i' : Prop :=
  connections i' = connections i /\ stale i' = stale i /\ localEndpoint i' = localEndpoint i /\ authMode i' = authMode i.

#[local] Instance same_slice_pre : PreOrder same_slice.
Proof.
  unfold same_slice. split; [done|]. intros a b c (? & ? & ? & ?) (? & ? & ? & ?). split_and!; congruence.
Qed.

Lemma on_host_slice {E A} wrap (m : eff W E A) : keeps same_slice (on_host (G := G) wrap m).
Proof. intros i. unfold on_host. by destruct (m (host i)). Qed.

Lemma subnets_slice ep ip : keeps same_slice (subnets_excluding (W := W) (G := G) ep ip).
Proof. by intros i. Qed.

Lemma for_pairs_slice left right f : (forall l1 s1 l2 s2, keeps same_slice (f l1 s1 l2 s2)) ->
  keeps same_slice (for_pairs (W := W) (G := G) left right f).
Proof.
  intros Hf. unfold for_pairs. apply keeps_for_each; [apply _|]. intros [lsi l].
  apply keeps_for_each; [apply _|]. intros [rsi r]. apply Hf.
Qed.

Lemma modify_slice f : (forall i, same_slice i (f i)) -> keeps same_slice (modifyw f : eff (libreswan W G) string unit).
Proof. by intros Hf i. Qed.

Lemma disconnect_psk_slice n : keeps same_slice (disconnectPSKMode (W := W) (G := G) n).
Proof. intros i. unfold disconnectPSKMode. by destruct (whack _ _) as [[|[]] w]. Qed.

#[local] Hint Resolve on_host_slice subnets_slice disconnect_psk_slice : frames.
#[local] Hint Extern 1 (keeps _ (modifyw _)) => (by apply modify_slice) : frames.
#[local] Hint Extern 5 (keeps _ (for_pairs _ _ _)) => (apply for_pairs_slice; intros; frames) : frames.

Lemma install_slice spec ip f nat only : keeps same_slice (installCertModeConnections (W := W) (G := G) spec ip f nat only).
Proof. unfold installCertModeConnections, install_pair. frames. Qed.

Lemma whack_pair_slice mode name info ls rs port lsi rsi :
  keeps same_slice (match mode with
                    | operationModeBidirectional => bidirectionalConnectToEndpoint (W := W) (G := G) name info ls rs port
                    | operationModeServer => serverConnectToEndpoint name info ls rs lsi rsi
                    | operationModeClient => clientConnectToEndpoint name info ls rs port lsi rsi
                    end).
Proof.
  unfold bidirectionalConnectToEndpoint, serverConnectToEndpoint, clientConnectToEndpoint, route_and_initiate.
  frames.
Qed.

Lemma waitForPluto_slice : keeps same_slice (waitForPluto (W := W) (G := G)).
Proof. unfold waitForPluto, runPluto. frames. Qed.

(** What a connection, that succeeds or fails, leaves. *)
Lemma libreswan_connect_shape info i r i' : ConnectToEndpoint now info i = (r, i') ->
  localEndpoint i' = localEndpoint i /\ authMode i' = authMode i /\
  match r with
  | Ok ip => ip = UseIP info /\ connections i' =
      connections i ++ [mkConnection Connected "" (Spec (info_Endpoint info)) (UseIP info) (UseNAT info) None]
  | Err _ => connections i' = connections i
  end.
Proof.
  unfold ConnectToEndpoint. intros Hrun. apply eff_bind_inv in Hrun as [(? & ? & [= <- <-] & Hrun)|(? & [=] & _)].
  case_bool_decide.
  - unfold connectToEndpointCertMode in Hrun.
    apply eff_bind_inv in Hrun as [([] & i1 & Hm & Hrun)|(e & Hm & ->)];
      apply (keeps_run same_slice) in Hm as (Hc & _ & Hl & Ha); try apply install_slice; [|done].
    injection Hrun as <- <-. simpl. by rewrite Hc.
  - unfold connectToEndpointPSKMode in Hrun.
    apply eff_bind_inv in Hrun as [([] & i1 & Hm & Hrun)|(e & Hm & ->)];
      apply (keeps_run same_slice) in Hm as (Hc & _ & Hl & Ha); try apply waitForPluto_slice; [|done].
    apply eff_bind_inv in Hrun as [(? & ? & [= <- <-] & Hrun)|(? & [=] & _)].
    destruct (validateEndpointInputs _ _ _); [injection Hrun as <- <-; done|].
    cbv zeta in Hrun.
    apply eff_bind_inv in Hrun as [(ls & i2 & Hm & Hrun)|(e & Hm & ->)];
      apply (keeps_run same_slice) in Hm as (Hc2 & _ & Hl2 & Ha2); try apply subnets_slice; [|split_and!; congruence].
    apply eff_bind_inv in Hrun as [(rs & i3 & Hm & Hrun)|(e & Hm & ->)];
      apply (keeps_run same_slice) in Hm as (Hc3 & _ & Hl3 & Ha3); try apply subnets_slice; [|split_and!; congruence].
    apply eff_bind_inv in Hrun as [([] & i4 & Hm & Hrun)|(e & Hm & ->)];
      apply (keeps_run same_slice) in Hm as (Hc4 & _ & Hl4 & Ha4); try apply on_host_slice; [|split_and!; congruence].
    apply eff_bind_inv in Hrun as [([] & i5 & Hm & Hrun)|(e & Hm & ->)];
      apply (keeps_run same_slice) in Hm as (Hc5 & _ & Hl5 & Ha5);
      try (apply for_pairs_slice; intros; apply whack_pair_slice); [|split_and!; congruence].
    injection Hrun as <- <-. simpl. split_and!; congruence.
Qed.

Lemma libreswan_disconnect_shape spec f i r i' : DisconnectFromEndpoint spec f i = (r, i') ->
  localEndpoint i' = localEndpoint i /\ authMode i' = authMode i /\
  length (connections i' ++ stale i') = length (connections i ++ stale i) /\
  match r with
  | Ok _ => connections i' = CableEngine.list_remove spec f (connections i)
  | Err _ => connections i' = connections i
  end.
Proof.
  unfold DisconnectFromEndpoint. intros Hrun. apply eff_bind_inv in Hrun as [(? & ? & [= <- <-] & Hrun)|(? & [=] & _)].
  apply eff_bind_inv in Hrun as [(ls & i2 & Hm & Hrun)|(e & Hm & ->)];
    apply (keeps_run same_slice) in Hm as (Hc2 & Hs2 & Hl2 & Ha2); try apply subnets_slice; [|by rewrite Hc2, Hs2].
  apply eff_bind_inv in Hrun as [(rs & i3 & Hm & Hrun)|(e & Hm & ->)];
    apply (keeps_run same_slice) in Hm as (Hc3 & Hs3 & Hl3 & Ha3); try apply subnets_slice;
    [|rewrite Hc3, Hs3, Hc2, Hs2; split_and!; congruence].
  apply eff_bind_inv in Hrun as [([] & i4 & Hm & Hrun)|(e & Hm & ->)];
    apply (keeps_run same_slice) in Hm as (Hc4 & Hs4 & Hl4 & Ha4);
    try (apply for_pairs_slice; intros; frames); [|rewrite Hc4, Hs4, Hc3, Hs3, Hc2, Hs2; split_and!; congruence].
  destruct (libreswan_removeConnection_spec spec f i4) as (Hr & Hn & Hl & Ha).
  destruct (authMode i =?? AuthModeCert); injection Hrun as <- <-; simpl;
    rewrite Hn, Hr, Hc4, Hs4, Hc3, Hs3, Hc2, Hs2; split_and!; congruence.
Qed.

(** The refresh of the status replaces connections by the same cables. *)
Definition same_but_status i i' : Prop :=
  CableEngine.same_cables (connections i) (connections i') /\ localEndpoint i' = localEndpoint i.

#[local] Instance same_but_status_pre : PreOrder same_but_status.
Proof.
  split; [intros i; split; [apply same_cables_refl|done]|].
  intros a b c (Hab & ?) (Hbc & ?). split; [|congruence].
  revert Hbc. generalize (connections c). induction Hab as [|x y l k (? & ? & ?) _ IH]; intros l' Hl'; [done|].
  inversion Hl' as [|? z ? k' (? & ? & ?) Hk]; subst. constructor; [split_and!; congruence|by apply IH].
Qed.

Lemma slice_status {A} (m : eff (libreswan W G) string A) : keeps same_slice m -> keeps same_but_status m.
Proof. intros Hm i. destruct (Hm i) as (Hc & _ & Hl & _). split; [rewrite Hc; apply same_cables_refl|done]. Qed.

Lemma refresh_connection_slice t local c : keeps same_slice (refresh_connection (W := W) (G := G) now t local c).
Proof.
  unfold refresh_connection, record_connection. frames; destruct (active_bytes _ _) as [[rx tx] b]; frames.
Qed.

Lemma refresh_connection_cable t local c i c' i' :
  refresh_connection (W := W) (G := G) now t local c i = (Ok c', i') -> same_cable c c'.
Proof.
  unfold refresh_connection. intros Hrun. apply eff_bind_inv in Hrun as [(rs & ? & _ & Hrun)|(? & _ & [=])].
  destruct (active_bytes _ _) as [[rx tx] []]; cbn in Hrun; injection Hrun as <- _; done.
Qed.

Lemma refresh_loop_status t local js : keeps same_but_status (refresh_loop (W := W) (G := G) now t local js).
Proof.
  induction js as [|j js IH]; [frames|]. cbn [refresh_loop]. intros i.
  unfold mbind at 1, eff_bind. cbn. destruct (connections i !! j) as [c|] eqn:Hj; [|done].
  unfold mbind at 1, eff_bind. destruct (refresh_connection now t local c i) as [[c'|e] i1] eqn:Hr.
  - pose proof (refresh_connection_cable _ _ _ _ _ _ Hr) as Hsame.
    apply (keeps_run same_slice) in Hr as (Hc & _ & Hl & _); [|apply refresh_connection_slice].
    unfold mbind at 1, eff_bind. cbn.
    etrans; [|apply IH]. split; [|done]. cbn. rewrite Hc.
    rewrite <- (list_insert_id (connections i) j c Hj) at 1. apply Forall2_insert; [apply same_cables_refl|done].
  - apply (keeps_run same_slice) in Hr as (Hc & _ & Hl & _); [|apply refresh_connection_slice].
    split; [cbn; rewrite Hc; apply same_cables_refl|done].
Qed.

#[local] Opaque installCertModeConnections.
#[local] Hint Resolve install_slice : frames.

Lemma reinstall_slice loaded j : keeps same_slice (reinstall (W := W) (G := G) loaded j).
Proof. unfold reinstall. frames. Qed.

#[local] Opaque reinstall.
#[local] Hint Resolve reinstall_slice : frames.

Lemma reconcile_slice : keeps same_slice (reconcileCertModeConnections (W := W) (G := G)).
Proof. unfold reconcileCertModeConnections. frames. Qed.

#[local] Opaque reconcileCertModeConnections refresh_loop.

Lemma GetConnections_status : keeps same_but_status (GetConnections (W := W) (G := G) now).
Proof.
  unfold GetConnections, refreshConnectionStatus. frames;
    first [apply slice_status; solve [apply reconcile_slice|frames] | apply refresh_loop_status].
Qed.

#[local] Transparent installCertModeConnections reinstall reconcileCertModeConnections refresh_loop.

Lemma Init_slice : keeps same_slice (Init (W := W) (G := G)).
Proof. unfold Init. frames. Qed.

Lemma libreswan_Cleanup_slice : keeps same_slice (Cleanup (W := W) (G := G)).
Proof. unfold Cleanup. frames. Qed.
End contract.

(** The driver keeps the contract of the engine. *)
#[global] Instance libreswan_driver_laws {W G} `{!Pluto W} `{!GaugeVec G} `{K8sNet} (now : Z) :
  @DriverLaws (libreswan W G) _ (libreswan_driver now).
Proof.
  refine {| conns := connections : libreswan W G -> _; valid := fun _ => True |}; simpl; [done..| | | | | | | | |].
  - intros i n i' [= <- <-]. split; [done|split; [done|]]. intros j Hj.
    rewrite (proj2 (Nat.ltb_lt _ _) Hj). by apply lookup_app_l.
  - done.
  - intros i n spec f r i' j (_ & _ & Hlen & _)%libreswan_disconnect_shape. destruct (j <? n)%nat; [|done].
    by rewrite !lookup_lt_is_Some, Hlen.
  - intros i spec f r i' (_ & _ & _ & Hc)%libreswan_disconnect_shape. destruct r; [|by left].
    rewrite Hc. apply CableEngine.list_remove_spec.
  - intros i i' c _ Hc _ (_ & _ & _ & ->)%libreswan_disconnect_shape. by apply CableEngine.list_remove_gone.
  - intros i r i' Hr. apply (keeps_run same_slice) in Hr; [apply Hr|apply Init_slice].
  - intros i r i' Hr. apply (keeps_run same_but_status) in Hr; [apply Hr|apply GetConnections_status].
  - intros i r i' Hr. left. apply (keeps_run same_slice) in Hr; [apply Hr|apply libreswan_Cleanup_slice].
  - intros i info r i' (_ & _ & Hc)%libreswan_connect_shape. destruct r; [right|by left].
    destruct Hc as [_ ->]. by eexists.
Defined.

(** * Names of connections *)
(** What comes before the first character that is no digit. *)
Lemma digits_then (d1 d2 t1 t2 : list ascii) c : is_digit c = false ->
  Forall (fun c => is_digit c = true) d1 -> Forall (fun c => is_digit c = true) d2 ->
  d1 ++ c :: t1 = d2 ++ c :: t2 -> d1 = d2 /\ t1 = t2.
Proof.
  intros Hc H1. revert d2. induction H1 as [|x d1 Hx _ IH]; intros d2 H2 He; destruct H2 as [|y d2 Hy H2]; simpl in He.
  - by injection He.
  - injection He as <- _. congruence.
  - injection He as -> _. congruence.
  - injection He as <- He. destruct (IH d2 H2 He) as [-> ->]. done.
Qed.

(** The names of the connections of a cable tell the pairs of subnets apart. *)
Lemma toConnectionName_inj cable f l r l' r' :
  toConnectionName cable f l r = toConnectionName cable f l' r' -> l = l' /\ r = r'.
Proof.
  unfold toConnectionName. intros He. apply (inj (String.append cable)) in He.
  apply (inj (String.append "-v")) in He. apply (inj (String.append (family_str f))) in He.
  apply (inj (String.append "-")) in He. apply (f_equal chars) in He. rewrite !chars_app in He. cbn in He.
  apply digits_then in He as [Hl Hr]; [|done|apply Itoa_digits; lia|apply Itoa_digits; lia].
  apply chars_inj, Itoa_inj in Hl; [|lia|lia]. apply chars_inj, Itoa_inj in Hr; [|lia|lia]. lia.
Qed.

Lemma quote_name_char c : cable_name_char c = true -> c <> quote.
Proof. intros Hc ->. by vm_compute in Hc. Qed.

Lemma digit_name_char c : is_digit c = true -> c <> quote.
Proof. intros Hc ->. by vm_compute in Hc. Qed.

(** * What pluto is asked *)
(** The options of a command line of whack: those before [--to] describe the left
    end, those after it the right end; the last value of an option is first. *)
Definition options : Type := list (string * string).

Definition option_value (o : string) (l : options) : option string :=
  snd <$> List.find (fun kv => String.eqb (fst kv) o) l.

Record request := mkRequest { q_flags : list string; q_left : options; q_right : option options }.

Definition takes_value (o : string) : bool :=
  existsb (String.eqb o) ["--name"; "--id"; "--host"; "--client"; "--ikeport"; "--dpddelay"; "--debug"]%string.

Definition set_option (o v : string) (q : request) : request :=
  match q_right q with
  | Some r => mkRequest (q_flags q) (q_left q) (Some ((o, v) :: r))
  | None => mkRequest (q_flags q) ((o, v) :: q_left q) None
  end.

Fixpoint read_args (args : list string) (q : request) : request :=
  match args with
  | [] => q
  | o :: rest =>
      if String.eqb o "--to" then read_args rest (mkRequest (q_flags q) (q_left q) (Some []))
      else if takes_value o then match rest with
                                 | v :: rest => read_args rest (set_option o v q)
                                 | [] => q
                                 end
      else read_args rest (mkRequest (o :: q_flags q) (q_left q) (q_right q))
  end.

(** What a run does to the connections of pluto, by name. *)
Definition pluto_effect (args : list string) (m : gmap string request) : gmap string request :=
  let q := read_args args (mkRequest [] [] None) in
  match option_value nameArg (q_left q), q_right q with
  | Some name, Some _ => <[name := q]> m
  | Some name, None => if existsb (String.eqb "--delete") (q_flags q) then delete name m else m
  | None, _ => m
  end.

(** A name that can be printed in quotes. *)
Definition printable (n : string) : Prop := n <> "" /\ quote ∉ chars n.

#[global] Instance printable_dec n : Decision (printable n).
Proof. unfold printable. apply _. Defined.

(** A run that succeeds has this effect, and one that fails this one or none; its
    start, the secrets and the files change no connection. *)
Class PlutoLaws (W : Type) `{!Pluto W} := {
  pluto_conns : W -> gmap string request;
  whack_ok : forall args w w', whack_run args w = (Ok tt, w') -> pluto_conns w' = pluto_effect args (pluto_conns w);
  whack_err : forall args w e w', whack_run args w = (Err e, w') ->
    pluto_conns w' = pluto_conns w \/ pluto_conns w' = pluto_effect args (pluto_conns w);
  log_conns : forall f w, pluto_conns (open_log f w).2 = pluto_conns w;
  start_conns : forall args w, pluto_conns (pluto_start args w).2 = pluto_conns w;
  stat_conns : forall w, pluto_conns (stat_socket w).2 = pluto_conns w;
  read_conns : forall w, pluto_conns (conf_Read w).2 = pluto_conns w;
  write_conns : forall s w, pluto_conns (conf_Write s w).2 = pluto_conns w;
  append_conns : forall s w, pluto_conns (conf_Append s w).2 = pluto_conns w;
  remove_conns : forall w, pluto_conns (conf_Remove w).2 = pluto_conns w;
  status_loaded : forall w lines w' n, whack_status w = (Ok lines, w') -> printable n ->
    n ∈ read_loaded lines <-> n ∈ dom (pluto_conns w);
  status_conns : forall w, pluto_conns (whack_status w).2 = pluto_conns w;
  add_ok : forall n w w', auto_add n w = (Ok tt, w') -> n ∈ dom (pluto_conns w');
  add_other : forall n n' w, n' <> n -> pluto_conns (auto_add n w).2 !! n' = pluto_conns w !! n';
}.

Lemma toConnectionName_printable cable f l r : validateCableName cable = true -> printable (toConnectionName cable f l r).
Proof.
  unfold validateCableName. intros [[_ _]%andb_true_iff Hc]%andb_true_iff. rewrite forallb_forall in Hc.
  assert (Hi : forall n, quote ∉ chars (Strconv.Itoa (Z.of_nat n))).
  { intros n Hin. pose proof (Itoa_digits (Z.of_nat n) ltac:(lia)) as Hd. rewrite Forall_forall in Hd.
    by apply (digit_name_char quote); [apply Hd|]. }
  unfold toConnectionName. split.
  - intros He. apply (f_equal chars) in He. rewrite !chars_app in He. by destruct (chars cable).
  - rewrite !chars_app, !not_elem_of_app. split; [|split; [|split; [|split; [|split; [|split; [|]]]]]]; try apply Hi.
    + intros Hin. apply list_elem_of_In in Hin. by apply (quote_name_char quote); [apply Hc|].
    + by vm_compute; set_solver.
    + by destruct f; vm_compute; set_solver.
    + by vm_compute; set_solver.
    + by vm_compute; set_solver.
Qed.

Lemma pluto_effect_twice args m : pluto_effect args (pluto_effect args m) = pluto_effect args m.
Proof.
  unfold pluto_effect. destruct (option_value _ _) as [n|]; [|done]. destruct (q_right _); [apply insert_insert_eq|].
  destruct (existsb _ _); [apply delete_delete_eq|done].
Qed.

Section requests.
Context {W G : Type} `{!Pluto W} `{!PlutoLaws W} `{!GaugeVec G} `{K8sNet}.
Context (now : Z).
Implicit Types (i : libreswan W G) (w : W).


Lemma whack_effect args w w' : whack args w = (Ok tt, w') -> pluto_conns w' = pluto_effect args (pluto_conns w).
Proof.
  unfold whack. enough (Hn : forall n w, whack_tries (S n) args w = (Ok tt, w') ->
    pluto_conns w' = pluto_effect args (pluto_conns w)) by apply Hn.
  clear w. intros n. induction n as [|n IH]; intros w; cbn [whack_tries];
    unfold mbind, eff_bind, attempt; destruct (whack_run args w) as [[[]|e] w1] eqn:Hw; try done.
  - intros [= <-]. by apply whack_ok.
  - intros [= <-]. by apply whack_ok.
  - intros Hr. apply IH in Hr. rewrite Hr. apply whack_err in Hw as [->| ->]; [done|apply pluto_effect_twice].
Qed.

(** ** Every pair of subnets *)
Definition all_pairs (left right : list string) : list (nat * string * nat * string) :=
  l ← imap pair left; r ← imap pair right; [(l.1, l.2, r.1, r.2)].

Lemma elem_of_all_pairs left right x : x ∈ all_pairs left right <->
  left !! x.1.1.1 = Some x.1.1.2 /\ right !! x.1.2 = Some x.2.
Proof.
  unfold all_pairs. rewrite list_elem_of_bind. split.
  - intros ([a l] & Hx & (j & y & [= -> ->] & Hl)%elem_of_lookup_imap). apply list_elem_of_bind in Hx.
    destruct Hx as ([b r] & ->%list_elem_of_singleton & (k & z & [= -> ->] & Hr)%elem_of_lookup_imap). done.
  - destruct x as [[[a l] b] r]. simpl. intros [Hl Hr]. exists (a, l). split.
    + apply list_elem_of_bind. exists (b, r). split; [by left|]. apply elem_of_lookup_imap. eauto.
    + apply elem_of_lookup_imap. eauto.
Qed.

Lemma for_each_app {A} (f : A -> eff (libreswan W G) string unit) l1 l2 i :
  for_each f (l1 ++ l2) i = (_ ← for_each f l1; for_each f l2) i.
Proof.
  revert i. induction l1 as [|x l1 IH]; intros i; [done|]. cbn [app for_each]. unfold mbind, eff_bind in *.
  destruct (f x i) as [[[]|] i1]; [apply IH|done].
Qed.

Lemma bind_ext {A B} (m m' : eff (libreswan W G) string A) (f f' : A -> eff (libreswan W G) string B) i :
  (forall i, m i = m' i) -> (forall a i, f a i = f' a i) -> (m ≫= f) i = (m' ≫= f') i.
Proof. intros Hm Hf. unfold mbind, eff_bind. rewrite Hm. destruct (m' i) as [[a|] i1]; [apply Hf|done]. Qed.


Lemma for_pairs_all left right f i : for_pairs left right f i =
  for_each (fun '(lsi, l, rsi, r) => f lsi l rsi r) (all_pairs left right) i.
Proof.
  unfold for_pairs, all_pairs. revert i. induction (imap pair left) as [|[a l] ls IH]; intros i; [done|].
  rewrite bind_cons, for_each_app. apply bind_ext; [|intros; apply IH]. clear.
  assert (Hr : forall i, for_each (fun '(rsi, r) => f a l rsi r) (imap pair right) i =
    for_each (fun '(lsi, l, rsi, r) => f lsi l rsi r) (imap pair right ≫= (fun r => [(a, l, r.1, r.2)])) i).
  { induction (imap pair right) as [|[b r] rs IH]; intros i; [done|].
    cbn. apply bind_ext; [done|intros; apply IH]. }
  apply Hr.
Qed.

(** A loop of which each round changes pluto in one way. *)
Lemma for_each_effect {A} (f : A -> eff (libreswan W G) string unit) (g : A -> gmap string request -> gmap string request)
    l i w i' :
  (forall x w i', x ∈ l -> f x (with_host w i) = (Ok tt, i') ->
     exists w', i' = with_host w' i /\ pluto_conns w' = g x (pluto_conns w)) ->
  for_each f l (with_host w i) = (Ok tt, i') ->
  exists w', i' = with_host w' i /\ pluto_conns w' = foldl (fun m x => g x m) (pluto_conns w) l.
Proof.
  revert w. induction l as [|x l IH]; intros w Hf; cbn [for_each]; [intros [= <-]; eauto|]. intros Hr.
  apply eff_bind_inv in Hr as [([] & i1 & Hx & Hr)|(? & _ & [=])].
  apply Hf in Hx as (w1 & -> & Hw1); [|by left]. destruct (IH w1) as (w' & -> & Hw'); [|done|].
  - intros y w2 i2 Hy. apply Hf. by right.
  - exists w'. split; [done|]. by rewrite Hw', Hw1.
Qed.

Lemma on_host_ok {E A} (wrap : E -> string) (m : eff W E A) i a i' :
  on_host wrap m i = (Ok a, i') -> exists w', m (host i) = (Ok a, w') /\ i' = with_host w' i.
Proof. unfold on_host. destruct (m (host i)) as [[b|e] w]; [|done]. intros [= <- <-]. eauto. Qed.

(** ** The connections that are loaded *)
Lemma foldl_insert_lookup {A} (k : A -> string) (v : A -> request) l (m : gmap string request) x :
  (forall x y, x ∈ l -> y ∈ l -> k x = k y -> v x = v y) -> x ∈ l ->
  foldl (fun m x => <[k x := v x]> m) m l !! k x = Some (v x).
Proof.
  induction l as [|y l IH] using rev_ind; [intros _ []%elem_of_nil|]. intros Hk Hx. rewrite foldl_app. cbn [foldl].
  destruct (decide (k y = k x)) as [He|He].
  - rewrite He, lookup_insert_eq. f_equal. apply Hk; [set_solver|done|done].
  - rewrite lookup_insert_ne by done. apply IH; [set_solver|]. set_solver.
Qed.

Lemma foldl_insert_other {A} (k : A -> string) (v : A -> request) l (m : gmap string request) n :
  n ∉ k <$> l -> foldl (fun m x => <[k x := v x]> m) m l !! n = m !! n.
Proof.
  revert m. induction l as [|y l IH]; intros m Hn; [done|]. cbn in *. apply not_elem_of_cons in Hn as [Hy Hn].
  rewrite IH by done. by apply lookup_insert_ne.
Qed.

Lemma foldl_delete_lookup {A} (k : A -> string) l (m : gmap string request) n :
  foldl (fun m x => delete (k x) m) m l !! n = if decide (n ∈ k <$> l) then None else m !! n.
Proof.
  revert m. induction l as [|y l IH]; intros m; [done|]. cbn. rewrite IH.
  destruct (decide (n ∈ k <$> l)) as [Hn|Hn]; [by rewrite decide_True by (by right)|].
  destruct (decide (n = k y)) as [->|Hy].
  - rewrite lookup_delete_eq, decide_True; [done|by left].
  - rewrite lookup_delete_ne by done. rewrite decide_False; [done|]. rewrite elem_of_cons. tauto.
Qed.

(** ** A connection and a disconnection with a pre-shared key *)
Definition pair_args (mode : operationMode) (name : string) (info : NATEndpointInfo) (ls rs : string) (port : Z)
    (lsi rsi : nat) i : list string :=
  match mode with
  | operationModeBidirectional => bidirectional_args name info ls rs port i
  | operationModeServer => server_args name info ls rs lsi rsi i
  | operationModeClient => client_args name info ls rs port lsi rsi i
  end.

Definition pair_request mode name info ls rs port lsi rsi i : request :=
  read_args (pair_args mode name info ls rs port lsi rsi i) (mkRequest [] [] None).

Definition remote_port (info : NATEndpointInfo) i : Z :=
  (GetBackendPort (Spec (info_Endpoint info)) UDPPortConfig (defaultNATTPort i)).1.

(** The name and the request for a pair of subnets, by their indices. *)
Definition pair_name (info : NATEndpointInfo) (x : nat * string * nat * string) : string :=
  toConnectionName (CableName (Spec (info_Endpoint info))) (UseFamily info) x.1.1.1 x.1.2.

Definition wanted (info : NATEndpointInfo) i (x : nat * string * nat * string) : request :=
  let remote := Spec (info_Endpoint info) in
  pair_request (calculateOperationMode (localEndpoint i) remote) (pair_name info x) info x.1.1.2 x.2
    (remote_port info i) x.1.1.1 x.1.2 i.

Lemma encaps_cases useNAT i : encaps useNAT i = "--encaps=yes" \/ encaps useNAT i = "--encaps=auto".
Proof. unfold encaps. destruct (_ || _); [by left|by right]. Qed.

Lemma pair_effect mode name info ls rs port lsi rsi i m :
  pluto_effect (pair_args mode name info ls rs port lsi rsi i) m =
  <[name := pair_request mode name info ls rs port lsi rsi i]> m.
Proof.
  unfold pluto_effect, pair_request, pair_args, bidirectional_args, server_args, client_args.
  destruct (encaps_cases (UseNAT info) i) as [-> | ->]; destruct mode, (UseFamily info); reflexivity.
Qed.

Lemma route_effect name i i' : route_and_initiate (W := W) (G := G) name i = (Ok tt, i') ->
  exists w', i' = with_host w' i /\ pluto_conns w' = pluto_conns (host i).
Proof.
  unfold route_and_initiate. intros Hr. apply eff_bind_inv in Hr as [([] & i1 & H1 & Hr)|(? & _ & [=])].
  apply on_host_ok in H1 as (w1 & H1 & ->). apply on_host_ok in Hr as (w2 & H2 & ->). cbn in H2.
  exists w2. split; [done|]. apply whack_effect in H1, H2. rewrite H2, H1. reflexivity.
Qed.

Lemma pair_connect_effect mode name info ls rs port lsi rsi w i i' :
  match mode with
  | operationModeBidirectional => bidirectionalConnectToEndpoint (W := W) (G := G) name info ls rs port
  | operationModeServer => serverConnectToEndpoint name info ls rs lsi rsi
  | operationModeClient => clientConnectToEndpoint name info ls rs port lsi rsi
  end (with_host w i) = (Ok tt, i') ->
  exists w', i' = with_host w' i /\
    pluto_conns w' = <[name := pair_request mode name info ls rs port lsi rsi i]> (pluto_conns w).
Proof.
  intros Hr. rewrite <- pair_effect.
  destruct mode; unfold bidirectionalConnectToEndpoint, serverConnectToEndpoint, clientConnectToEndpoint in Hr;
    apply eff_bind_inv in Hr as [(? & ? & [= <- <-] & Hr)|(? & [=] & _)].
  - apply eff_bind_inv in Hr as [([] & i1 & H1 & Hr)|(? & _ & [=])].
    apply on_host_ok in H1 as (w1 & H1%whack_effect & ->).
    apply route_effect in Hr as (w2 & -> & Hw). exists w2. split; [done|]. by rewrite Hw.
  - apply on_host_ok in Hr as (w1 & H1%whack_effect & ->). by exists w1.
  - apply eff_bind_inv in Hr as [([] & i1 & H1 & Hr)|(? & _ & [=])].
    apply on_host_ok in H1 as (w1 & H1%whack_effect & ->).
    apply route_effect in Hr as (w2 & -> & Hw). exists w2. split; [done|]. by rewrite Hw.
Qed.

Definition same_loaded (w w' : W) : Prop := pluto_conns w' = pluto_conns w.

#[local] Instance same_loaded_pre : PreOrder same_loaded.
Proof. unfold same_loaded. split; [done|]. intros a b c ? ?. congruence. Qed.

Lemma wait_socket_loaded : keeps same_loaded (waitForControlSocket (W := W)).
Proof.
  unfold waitForControlSocket. induction socket_polls as [|n IH]; cbn [poll_socket]; frames.
  all: first [apply IH | intros w; apply stat_conns].
Qed.

Lemma waitForPluto_effect i i' : waitForPluto (W := W) (G := G) i = (Ok tt, i') ->
  exists w' b, i' = with_started b (with_host w' i) /\ pluto_conns w' = pluto_conns (host i).
Proof.
  unfold waitForPluto. intros Hr. apply eff_bind_inv in Hr as [(? & ? & [= <- <-] & Hr)|(? & [=] & _)].
  destruct (plutoStarted i) eqn:Hs.
  - injection Hr as <-. exists (host i), true. split; [|done]. destruct i. cbn in Hs. by rewrite Hs.
  - apply eff_bind_inv in Hr as [(r & i1 & H1 & Hr)|(? & _ & [=])]. apply attempt_inv in H1 as (r0 & [= ->] & H1).
    destruct r0 as [[]|]; [|done]. injection Hr as <-. unfold runPluto in H1.
    apply eff_bind_inv in H1 as [(? & ? & [= <- <-] & H1)|(? & [=] & _)].
    apply eff_bind_inv in H1 as [([] & i2 & H2 & H1)|(? & _ & [=])].
    assert (Hlog : exists w2, i2 = with_host w2 i /\ same_loaded (host i) w2).
    { destruct (logFile i =?? ""); [injection H2 as <-; exists (host i); by destruct i|].
      apply on_host_ok in H2 as (w2 & H2 & ->). exists w2. split; [done|]. by apply (keeps_run same_loaded) in H2; [|apply log_conns]. }
    clear H2. destruct Hlog as (w2 & -> & Hc2).
    apply eff_bind_inv in H1 as [([] & i3 & H3 & H1)|(? & _ & [=])]. apply on_host_ok in H3 as (w3 & H3 & ->).
    apply (keeps_run same_loaded) in H3; [|intros; apply start_conns].
    apply eff_bind_inv in H1 as [([] & i4 & H4 & H1)|(? & _ & [=])]. apply on_host_ok in H4 as (w4 & H4 & ->).
    apply (keeps_run same_loaded) in H4; [|apply wait_socket_loaded]. cbn in H3, H4. unfold same_loaded in *.
    destruct (debug i).
    + apply on_host_ok in H1 as (w5 & H5%whack_effect & ->). exists w5, true. split; [done|]. rewrite H5. cbn. congruence.
    + injection H1 as <-. exists w4, true. split; [done|congruence].
Qed.

Lemma subnets_excluding_ok ep ip i l i' : subnets_excluding (W := W) (G := G) ep ip i = (Ok l, i') ->
  ExtractSubnetsExcludingIP ep ip = Ok l /\ i' = i.
Proof. unfold subnets_excluding. destruct (ExtractSubnetsExcludingIP ep ip); [|done]. by intros [= <- <-]. Qed.

(** A connection that succeeds loads the wanted request of every pair of subnets. *)
Lemma connect_loads info i ip i' : authMode i = AuthModePSK -> ConnectToEndpoint now info i = (Ok ip, i') ->
  exists ls rs, ExtractSubnetsExcludingIP (localEndpoint i) (UseIP info) = Ok ls /\
    ExtractSubnetsExcludingIP (Spec (info_Endpoint info)) (UseIP info) = Ok rs /\
    pluto_conns (host i') =
      foldl (fun m x => <[pair_name info x := wanted info i x]> m) (pluto_conns (host i)) (all_pairs ls rs).
Proof.
  intros Ha. unfold ConnectToEndpoint. intros Hr. apply eff_bind_inv in Hr as [(? & ? & [= <- <-] & Hr)|(? & [=] & _)].
  rewrite Ha in Hr. rewrite bool_decide_false in Hr by done. unfold connectToEndpointPSKMode in Hr.
  apply eff_bind_inv in Hr as [([] & i1 & H1 & Hr)|(? & _ & [=])].
  apply waitForPluto_effect in H1 as (w1 & b & -> & Hw1). rewrite <- Hw1.
  apply eff_bind_inv in Hr as [(? & ? & [= <- <-] & Hr)|(? & [=] & _)].
  set (i1 := with_started b i) in *. change (with_started b (with_host w1 i)) with (with_host w1 i1) in Hr.
  destruct (validateEndpointInputs _ _ _); [done|]. cbv zeta in Hr.
  apply eff_bind_inv in Hr as [(ls & i2 & H2 & Hr)|(? & _ & [=])]. apply subnets_excluding_ok in H2 as [Hls ->].
  apply eff_bind_inv in Hr as [(rs & i3 & H3 & Hr)|(? & _ & [=])]. apply subnets_excluding_ok in H3 as [Hrs ->].
  exists ls, rs. split; [done|split; [done|]].
  apply eff_bind_inv in Hr as [([] & i4 & H4 & Hr)|(? & _ & [=])].
  apply on_host_ok in H4 as (w4 & H4%whack_effect & ->).
  apply eff_bind_inv in Hr as [([] & i5 & H5 & Hr)|(? & _ & [=])]. rewrite for_pairs_all in H5.
  apply (for_each_effect _ (fun x => <[pair_name info x := wanted info i x]>)) in H5 as (w5 & -> & Hw5).
  - injection Hr as <- <-. cbn. by rewrite Hw5, H4.
  - clear. intros [[[lsi l] rsi] r] w i' _ H5.
    apply (pair_connect_effect (calculateOperationMode (localEndpoint i) (Spec (info_Endpoint info)))) in H5
      as (w' & -> & Hw'). by exists w'.
Qed.







(** ** The two ends of a tunnel *)
Definition left_value (o : string) (q : request) : option string := option_value o (q_left q).
Definition right_value (o : string) (q : request) : option string := q_right q ≫= option_value o.

(** An end that has the port of the other one initiates the connection. *)
Definition dials (q : request) : bool := match right_value ikeportArg q with Some _ => true | None => false end.

(** What an end says of itself is what the other end expects. *)
Definition meets (q q' : request) : Prop :=
  left_value "--id" q = right_value "--id" q' /\ left_value clientArg q = right_value clientArg q' /\
  (dials q = true -> right_value ikeportArg q = left_value ikeportArg q').

Definition identifier (mode : operationMode) (ip : string) (a b : nat) : string :=
  match mode with operationModeBidirectional => ip | _ => toEndpointIdentifier ip a b end.

Lemma pair_values mode name info ls rs port lsi rsi i :
  let q := pair_request mode name info ls rs port lsi rsi i in
  left_value clientArg q = Some ls /\ right_value clientArg q = Some rs /\
  left_value "--id" q = Some (identifier mode (GetPrivateIP (localEndpoint i) (UseFamily info)) lsi rsi) /\
  right_value "--id" q = Some (identifier mode (GetPrivateIP (Spec (info_Endpoint info)) (UseFamily info)) rsi lsi) /\
  right_value hostArg q = Some (match mode with operationModeServer => "%any" | _ => UseIP info end) /\
  right_value ikeportArg q = (match mode with operationModeServer => None | _ => Some (Strconv.Itoa port) end) /\
  left_value ikeportArg q = (match mode with operationModeClient => None | _ => Some (ipSecNATTPort i) end).
Proof.
  unfold pair_request, pair_args, bidirectional_args, server_args, client_args, identifier. cbv zeta.
  destruct (encaps_cases (UseNAT info) i) as [-> | ->]; destruct mode, (UseFamily info); split_and!; reflexivity.
Qed.

(** A pair of subnets is not overwritten by another one. *)
Lemma pair_loaded info i (m : gmap string request) ls rs x : x ∈ all_pairs ls rs ->
  foldl (fun m x => <[pair_name info x := wanted info i x]> m) m (all_pairs ls rs) !! pair_name info x =
  Some (wanted info i x).
Proof.
  intros Hx. apply foldl_insert_lookup; [|done].
  intros [[[a la] b] rb] [[[a' la'] b'] rb'] H1%elem_of_all_pairs H2%elem_of_all_pairs [Ha Hb]%toConnectionName_inj.
  cbn in *. f_equal. destruct H1, H2. congruence.
Qed.

(** The modes the two ends choose. *)
Lemma modes_opposite (a b : EndpointSpec) : CableName a <> CableName b ->
  (calculateOperationMode a b, calculateOperationMode b a) ∈
    [(operationModeBidirectional, operationModeBidirectional); (operationModeServer, operationModeClient);
     (operationModeClient, operationModeServer)].
Proof.
  intros Hne. unfold calculateOperationMode. rewrite (String.compare_antisym (CableName b) (CableName a)).
  destruct (GetBackendBool a _ _).1, (GetBackendBool b _ _).1; cbn; try set_solver.
  destruct (String.compare (CableName a) (CableName b)) eqn:Hc; cbn; try set_solver.
  by apply String.compare_eq_iff in Hc.
Qed.

(** C6: When two gateways connect to each other with a pre-shared key, each pair of
    their subnets gets a connection in both plutos: each end identifies itself as
    the other expects and protects the subnet the other expects, at least one end
    initiates, to the address that was discovered, and at the port at which the
    other end listens.  The addresses used must exclude the same subnets. *)
Theorem tunnel_ends_match (i j i' j' : libreswan W G) info_i info_j ip_i ip_j (f : IPFamily) :
  authMode i = AuthModePSK -> authMode j = AuthModePSK ->
  Spec (info_Endpoint info_i) = localEndpoint j -> Spec (info_Endpoint info_j) = localEndpoint i ->
  UseFamily info_i = f -> UseFamily info_j = f -> CableName (localEndpoint i) <> CableName (localEndpoint j) ->
  defaultNATTPort i = defaultNATTPort j ->
  ipSecNATTPort i = Strconv.Itoa (GetBackendPort (localEndpoint i) UDPPortConfig (defaultNATTPort i)).1 ->
  ipSecNATTPort j = Strconv.Itoa (GetBackendPort (localEndpoint j) UDPPortConfig (defaultNATTPort j)).1 ->
  ExtractSubnetsExcludingIP (localEndpoint i) (UseIP info_i) = ExtractSubnetsExcludingIP (localEndpoint i) (UseIP info_j) ->
  ExtractSubnetsExcludingIP (localEndpoint j) (UseIP info_i) = ExtractSubnetsExcludingIP (localEndpoint j) (UseIP info_j) ->
  ConnectToEndpoint now info_i i = (Ok ip_i, i') -> ConnectToEndpoint now info_j j = (Ok ip_j, j') ->
  exists ls rs, ExtractSubnetsExcludingIP (localEndpoint i) (UseIP info_i) = Ok ls /\
    ExtractSubnetsExcludingIP (localEndpoint j) (UseIP info_i) = Ok rs /\
    forall lsi l rsi r, ls !! lsi = Some l -> rs !! rsi = Some r -> exists qi qj,
      pluto_conns (host i') !! toConnectionName (CableName (localEndpoint j)) f lsi rsi = Some qi /\
      pluto_conns (host j') !! toConnectionName (CableName (localEndpoint i)) f rsi lsi = Some qj /\
      left_value clientArg qi = Some l /\ right_value clientArg qi = Some r /\ meets qi qj /\ meets qj qi /\
      (dials qi || dials qj = true) /\
      (dials qi = true -> right_value hostArg qi = Some (UseIP info_i)) /\
      (dials qj = true -> right_value hostArg qj = Some (UseIP info_j)).
Proof.
  intros Hai Haj Hi Hj Hfi Hfj Hne Hd Hpi Hpj Hei Hej Hci Hcj.
  apply connect_loads in Hci as (ls & rs & Hls & Hrs & Hci); [|done]. rewrite Hi in Hrs.
  apply connect_loads in Hcj as (rs' & ls' & Hrs' & Hls' & Hcj); [|done]. rewrite Hj in Hls'.
  assert (rs' = rs) as -> by congruence. assert (ls' = ls) as -> by congruence.
  exists ls, rs. split; [done|split; [done|]]. intros lsi l rsi r Hl Hr.
  exists (wanted info_i i (lsi, l, rsi, r)), (wanted info_j j (rsi, r, lsi, l)).
  rewrite Hci, Hcj. rewrite <- Hi at 1. rewrite <- Hj at 1. rewrite <- Hfi at 1. rewrite <- Hfj at 1.
  split; [apply (pair_loaded info_i i _ ls rs (lsi, l, rsi, r)), elem_of_all_pairs; done|].
  split; [apply (pair_loaded info_j j _ rs ls (rsi, r, lsi, l)), elem_of_all_pairs; done|]. clear Hci Hcj.
  unfold wanted, remote_port, meets, dials. rewrite Hi, Hj. cbn [fst snd].
  pose proof (modes_opposite _ _ Hne) as Hm. revert Hm.
  generalize (calculateOperationMode (localEndpoint i) (localEndpoint j)). intros mi.
  generalize (calculateOperationMode (localEndpoint j) (localEndpoint i)). intros mj Hm.
  repeat match goal with |- context [pair_request ?m ?n ?inf ?ls ?rs ?p ?a ?b ?k] =>
    let Hv := fresh "Hv" in
    pose proof (pair_values m n inf ls rs p a b k) as Hv; cbv zeta in Hv; revert Hv;
    generalize (pair_request m n inf ls rs p a b k); intros ? Hv end.
  destruct Hv as (-> & -> & -> & -> & -> & -> & ->), Hv0 as (-> & -> & -> & -> & -> & -> & ->).
  rewrite Hi, Hj, Hfi, Hfj, Hpi, Hpj, Hd.
  repeat (apply elem_of_cons in Hm as [[= -> ->]|Hm]; [split_and!; done|]). by apply elem_of_nil in Hm.
Qed.

Lemma foldl_insert_delete {A} (k : A -> string) (v : A -> request) l (m : gmap string request) :
  (forall x, x ∈ l -> m !! k x = None) ->
  foldl (fun m x => delete (k x) m) (foldl (fun m x => <[k x := v x]> m) m l) l = m.
Proof.
  intros Hfresh. apply map_eq. intros n. rewrite foldl_delete_lookup. case_decide as Hn.
  - apply list_elem_of_fmap in Hn as (x & -> & Hx). symmetry. by apply Hfresh.
  - by apply foldl_insert_other.
Qed.


(** ** Certificates *)
Lemma remove_stanza_loaded n : keeps same_loaded (RemoveConnectionStanza (W := W) n).
Proof.
  unfold RemoveConnectionStanza. frames; first [intros w; apply read_conns|intros w; apply remove_conns|intros w; apply write_conns].
Qed.

#[local] Opaque RemoveConnectionStanza.

Lemma append_stanza_loaded st n : keeps same_loaded (AppendConnectionStanza (W := W) st n).
Proof. unfold AppendConnectionStanza. frames; [apply remove_stanza_loaded|intros w; apply append_conns]. Qed.

(** Only the host changes, and on it no connection of the names in [L]. *)
Definition untouched (L : gset string) i i' : Prop :=
  i' = with_host (host i') i /\ forall n, n ∈ L -> pluto_conns (host i') !! n = pluto_conns (host i) !! n.

#[local] Instance untouched_pre L : PreOrder (untouched L).
Proof.
  split; [intros i; split; [by destruct i|done]|].
  intros a b c [Hab Hb] [Hbc Hc]. split.
  - rewrite Hab in Hbc. exact Hbc.
  - intros n Hn. by rewrite Hc, Hb.
Qed.

Lemma on_host_untouched {E A} L (wrap : E -> string) (m : eff W E A) :
  (forall n w, n ∈ L -> pluto_conns (m w).2 !! n = pluto_conns w !! n) -> keeps (untouched L) (on_host (G := G) wrap m).
Proof.
  intros Hm i. unfold on_host. specialize (fun n => Hm n (host i)). destruct (m (host i)) as [r w]. split; [by destruct i|].
  intros n Hn. by apply Hm.
Qed.

Lemma on_host_loaded {E A} L (wrap : E -> string) (m : eff W E A) :
  keeps same_loaded m -> keeps (untouched L) (on_host (G := G) wrap m).
Proof. intros Hm. apply on_host_untouched. intros n w _. by rewrite (Hm w). Qed.

(** Disconnecting in the mode with certificates only edits the file of the
    connections: whatever happens, pluto keeps every connection it has loaded. *)
Lemma cert_disconnect_keeps_loaded (i : libreswan W G) (remote : EndpointSpec) (f : IPFamily) :
  authMode i = AuthModeCert ->
  pluto_conns (host (DisconnectFromEndpoint remote f i).2) = pluto_conns (host i).
Proof.
  intros Ha. set (R := fun i i' : libreswan W G => pluto_conns (host i') = pluto_conns (host i)).
  assert (PreOrder R) by (unfold R; split; [done|intros a b c ? ?; congruence]).
  destruct (DisconnectFromEndpoint remote f i) as [r i'] eqn:Hr. cbn. change (R i i').
  unfold DisconnectFromEndpoint in Hr. apply eff_bind_inv in Hr as [(? & ? & [= <- <-] & Hr)|(? & [=] & _)].
  rewrite Ha, bool_decide_true in Hr by done. revert Hr. apply (keeps_run R).
  assert (Hs : forall ep ip, keeps R (subnets_excluding (W := W) (G := G) ep ip)) by (by intros ep ip k).
  assert (Hd : forall n, keeps R (disconnectCertMode (W := W) (G := G) n)).
  { intros n k. unfold disconnectCertMode, on_host, R. pose proof (remove_stanza_loaded n (host k)) as Hk.
    by destruct (RemoveConnectionStanza n (host k)). }
  assert (Hc : forall k, R k (removeConnectionForEndpoint remote f k)).
  { intros k. unfold R, removeConnectionForEndpoint. by destruct (IndexFunc _ _). }
  unfold for_pairs, forget_missed. frames; first [apply Hs|apply Hd|by apply keeps_modify].
Qed.

(** Every command succeeds. *)
Definition commands_succeed : Prop :=
  (forall args w, (whack_run args w).1 = Ok tt) /\ (forall n w, (auto_add n w).1 = Ok tt) /\
  (forall s n w, (AppendConnectionStanza s n w).1 = Ok tt) /\ (forall w, is_ok (whack_status w).1 = true).

Definition grows i i' : Prop := i' = with_host (host i') i /\ dom (pluto_conns (host i)) ⊆ dom (pluto_conns (host i')).

#[local] Instance grows_pre : PreOrder grows.
Proof.
  split; [intros i; split; [by destruct i|done]|].
  intros a b c [Hab Hb] [Hbc Hc]. split; [rewrite Hab in Hbc; exact Hbc|set_solver].
Qed.

(** A loop of which each round succeeds and has an effect that stays. *)
Lemma for_each_grows {A} (f : A -> eff (libreswan W G) string unit) (P : A -> libreswan W G -> Prop) l i0 :
  (forall x i, x ∈ l -> grows i0 i -> (f x i).1 = Ok tt /\ grows i (f x i).2 /\ P x (f x i).2) ->
  (forall x i i', grows i i' -> P x i -> P x i') ->
  forall i, grows i0 i ->
  (for_each f l i).1 = Ok tt /\ grows i (for_each f l i).2 /\ forall x, x ∈ l -> P x (for_each f l i).2.
Proof.
  intros Hf HP. induction l as [|x l IH]; intros i Hi; cbn [for_each].
  - split; [done|split; [reflexivity|]]. intros x Hx. by apply elem_of_nil in Hx.
  - destruct (Hf x i) as (H1 & H2 & H3); [by left|done|].
    unfold mbind, eff_bind. destruct (f x i) as [[[]|] i1]; [|done]. cbn [snd] in *.
    destruct (IH ltac:(intros; apply Hf; [by right|done]) i1) as (H4 & H5 & H6); [by etrans|].
    split; [done|]. split; [by etrans|]. intros y [->|Hy]%elem_of_cons; [by eapply HP|by apply H6].
Qed.

Lemma install_pair_untouched L ep ip f nat only i0 lsi l rsi r :
  toConnectionName (CableName ep) f lsi rsi ∉ L \/ toConnectionName (CableName ep) f lsi rsi ∉ only ->
  keeps (untouched L) (install_pair (W := W) (G := G) ep ip f nat (Some only) i0 lsi l rsi r).
Proof.
  intros Hn. unfold install_pair. cbv zeta. case_bool_decide as Ho; cbn [negb]; [|frames].
  destruct Hn as [Hn|Hn]; [|done].
  apply keeps_bind; [apply _|apply on_host_loaded, append_stanza_loaded|intros _].
  apply keeps_bind; [apply _| |intros _].
  - apply on_host_untouched. intros n w HnL. apply add_other. by intros ->.
  - assert (Hw : forall name, keeps same_loaded (whack_run (W := W) [nameArg; name; "--asynchronous"; "--initiate"])).
    { intros name w. unfold same_loaded. destruct (whack_run _ w) as [[[]|e] w'] eqn:Hr; cbn.
      - apply whack_ok in Hr. exact Hr.
      - by apply whack_err in Hr as [Hr|Hr]. }
    destruct (calculateOperationMode _ _); [|frames|]; apply on_host_loaded, Hw.
Qed.

Lemma on_host_succeeds {E A} (wrap : E -> string) (m : eff W E A) a i : (m (host i)).1 = Ok a ->
  on_host (G := G) wrap m i = (Ok a, with_host (m (host i)).2 i).
Proof. intros Hm. unfold on_host. destruct (m (host i)) as [r w]. cbn in *. by subst r. Qed.

Lemma initiate_succeeds wrap name i : (forall args w, (whack_run args w).1 = Ok tt) ->
  let m : eff (libreswan W G) string unit := on_host wrap (whack_run [nameArg; name; "--asynchronous"; "--initiate"]) in
  (m i).1 = Ok tt /\ pluto_conns (host (m i).2) = pluto_conns (host i).
Proof.
  intros Hw m. unfold m, on_host. pose proof (run_pair _ _ _ (Hw [nameArg; name; "--asynchronous"; "--initiate"] (host i))) as Hr.
  rewrite Hr. split; [done|]. apply whack_ok in Hr. exact Hr.
Qed.

Lemma install_pair_grows ep ip f nat only i0 lsi l rsi r i : commands_succeed ->
  let m := install_pair (W := W) (G := G) ep ip f nat (Some only) i0 lsi l rsi r in
  let name := toConnectionName (CableName ep) f lsi rsi in
  (m i).1 = Ok tt /\ grows i (m i).2 /\ (name ∈ only -> name ∈ dom (pluto_conns (host (m i).2))).
Proof.
  intros (Hw & Ha & Hs & _) m name.
  assert (Hadd : (m i).1 = Ok tt /\ (name ∈ only -> name ∈ dom (pluto_conns (host (m i).2)))).
  { unfold m, install_pair. fold name. cbv zeta. case_bool_decide as Ho; [|done]. cbn [negb].
    erewrite eff_bind_ok; [|apply on_host_succeeds, Hs]. erewrite eff_bind_ok; [|apply on_host_succeeds, Ha].
    set (i1 := with_host _ _). assert (Hin : name ∈ dom (pluto_conns (host i1))).
    { unfold i1. cbn. eapply add_ok, run_pair, Ha. }
    destruct (calculateOperationMode _ _); [|done|];
      (destruct (initiate_succeeds (fun _ => "failed to bring up connection") name i1 Hw) as [Hi1 Hi2];
       split; [exact Hi1|intros _; by rewrite Hi2]). }
  destruct Hadd as [H1 H2]. split; [done|]. split; [|done].
  destruct (install_pair_untouched (dom (pluto_conns (host i)) ∖ {[name]}) ep ip f nat only i0 lsi l rsi r ltac:(left; set_solver) i)
    as [Hi Hl]. fold m in Hi, Hl. split; [done|]. intros n Hn.
  destruct (decide (n = name)) as [->|Hne].
  - destruct (decide (name ∈ only)) as [Ho|Ho]; [by apply H2|].
    destruct (install_pair_untouched {[name]} ep ip f nat only i0 lsi l rsi r ltac:(by right) i) as [_ Hs1].
    apply elem_of_dom. fold m in Hs1. rewrite Hs1 by set_solver. by apply elem_of_dom.
  - apply elem_of_dom. rewrite Hl by set_solver. by apply elem_of_dom.
Qed.

Lemma install_grows ep ip f nat only ls rs i : commands_succeed ->
  validateEndpointInputs ep (GetPrivateIP (localEndpoint i) f) ip = None ->
  ExtractSubnetsExcludingIP (localEndpoint i) ip = Ok ls -> ExtractSubnetsExcludingIP ep ip = Ok rs ->
  let m := installCertModeConnections (W := W) (G := G) ep ip f nat (Some only) in
  (m i).1 = Ok tt /\ grows i (m i).2 /\
  forall x, x ∈ all_pairs ls rs -> toConnectionName (CableName ep) f x.1.1.1 x.1.2 ∈ only ->
    toConnectionName (CableName ep) f x.1.1.1 x.1.2 ∈ dom (pluto_conns (host (m i).2)).
Proof.
  intros Hok Hv Hl Hr m.
  assert (Hm : m i = for_each (fun '(lsi, l, rsi, r) => install_pair ep ip f nat (Some only) i lsi l rsi r) (all_pairs ls rs) i).
  { unfold m, installCertModeConnections. erewrite eff_bind_ok by reflexivity. rewrite Hv.
    erewrite eff_bind_ok by (unfold subnets_excluding; rewrite Hl; reflexivity).
    erewrite eff_bind_ok by (unfold subnets_excluding; rewrite Hr; reflexivity). apply for_pairs_all. }
  rewrite Hm. apply (for_each_grows _ (fun x i => toConnectionName (CableName ep) f x.1.1.1 x.1.2 ∈ only ->
    toConnectionName (CableName ep) f x.1.1.1 x.1.2 ∈ dom (pluto_conns (host i))) _ i); [|set_unfold; unfold grows; set_solver|reflexivity].
  intros [[[lsi l] rsi] r] k _ _. by apply install_pair_grows.
Qed.

(** A connection whose input is well-formed, with the subnets of the two sides. *)
Definition well_formed i (c : Connection) (ls rs : list string) : Prop :=
  validateEndpointInputs (conn_Endpoint c) (GetPrivateIP (localEndpoint i) (GetFamily c)) (UsingIP c) = None /\
  ExtractSubnetsExcludingIP (localEndpoint i) (UsingIP c) = Ok ls /\
  ExtractSubnetsExcludingIP (conn_Endpoint c) (UsingIP c) = Ok rs.

Definition names_of (c : Connection) (ls rs : list string) : list string :=
  pair_names (CableName (conn_Endpoint c)) (GetFamily c) ls rs.

Lemma elem_of_names c ls rs n : n ∈ names_of c ls rs <->
  exists x, x ∈ all_pairs ls rs /\ n = toConnectionName (CableName (conn_Endpoint c)) (GetFamily c) x.1.1.1 x.1.2.
Proof.
  unfold names_of, pair_names. rewrite list_elem_of_bind. split.
  - intros (a & Hn & [_ Ha]%elem_of_seq). apply list_elem_of_bind in Hn as (b & ->%list_elem_of_singleton & [_ Hb]%elem_of_seq).
    destruct (lookup_lt_is_Some_2 ls a ltac:(lia)) as [l Hl], (lookup_lt_is_Some_2 rs b ltac:(lia)) as [r Hr].
    exists (a, l, b, r). by rewrite elem_of_all_pairs.
  - intros ([[[a l] b] r] & [Ha Hb]%elem_of_all_pairs & ->). cbn in *. apply lookup_lt_Some in Ha, Hb.
    exists a. rewrite elem_of_seq. split; [|lia]. apply list_elem_of_bind. exists b. rewrite elem_of_seq. split; [by left|lia].
Qed.

Lemma names_printable i c ls rs n : well_formed i c ls rs -> n ∈ names_of c ls rs -> printable n.
Proof.
  intros (Hv & _) (x & _ & ->)%elem_of_names. apply toConnectionName_printable.
  unfold validateEndpointInputs in Hv. by destruct (validateCableName _).
Qed.

Lemma reinstall_grows (L : gset string) j c ls rs i : commands_succeed ->
  (forall n, printable n -> n ∈ L -> n ∈ dom (pluto_conns (host i))) ->
  connections i !! j = Some c -> well_formed i c ls rs ->
  let m := reinstall (W := W) (G := G) L j in
  (m i).1 = Ok tt /\ grows i (m i).2 /\ forall n, n ∈ names_of c ls rs -> n ∈ dom (pluto_conns (host (m i).2)).
Proof.
  intros Hok HL Hj Hwf m. pose proof (fun n => names_printable i c ls rs n Hwf) as Hp.
  destruct Hwf as (Hv & Hl & Hr). unfold m, reinstall. erewrite eff_bind_ok by reflexivity. rewrite Hj.
  erewrite eff_bind_ok by (unfold subnets_excluding; rewrite Hl; reflexivity).
  erewrite eff_bind_ok by (unfold subnets_excluding; rewrite Hr; reflexivity).
  case_bool_decide as Hm.
  - split; [done|split; [reflexivity|]]. intros n Hn. apply HL; [by apply Hp|]. revert Hm Hn. unfold names_of. set_solver.
  - destruct (install_grows (conn_Endpoint c) (UsingIP c) (GetFamily c) (UsingNAT c)
      (list_to_set (pair_names (CableName (conn_Endpoint c)) (GetFamily c) ls rs) ∖ L) ls rs i Hok Hv Hl Hr) as (H1 & H2 & H3).
    split; [done|split; [exact H2|]]. intros n Hn. destruct (decide (n ∈ L)) as [HnL|HnL]; [by apply H2, HL; [apply Hp|]|].
    apply elem_of_names in Hn as Hn'. destruct Hn' as (x & Hx & ->). apply H3; [done|].
    apply elem_of_difference. split; [|done]. by apply elem_of_list_to_set.
Qed.

#[local] Opaque install_pair.
Lemma install_untouched L ep ip f nat only : only ## L ->
  keeps (untouched L) (installCertModeConnections (W := W) (G := G) ep ip f nat (Some only)).
Proof.
  intros Hd. unfold installCertModeConnections, for_pairs.
  assert (Hs : forall ep ip, keeps (untouched L) (subnets_excluding (W := W) (G := G) ep ip)) by (intros ep' ip' k; cbn; reflexivity).
  assert (Hp : forall i lsi l rsi r, keeps (untouched L) (install_pair (W := W) (G := G) ep ip f nat (Some only) i lsi l rsi r)).
  { intros. apply install_pair_untouched. destruct (decide (toConnectionName (CableName ep) f lsi rsi ∈ L)); [right|by left]. set_solver. }
  frames; first [apply Hs|apply Hp].
Qed.
#[local] Transparent install_pair.

#[local] Opaque installCertModeConnections.
Lemma reinstall_untouched (L loaded : gset string) j : L ⊆ loaded -> keeps (untouched L) (reinstall (W := W) (G := G) loaded j).
Proof.
  intros HL. unfold reinstall.
  assert (Hs : forall ep ip, keeps (untouched L) (subnets_excluding (W := W) (G := G) ep ip)) by (intros ep' ip' k; cbn; reflexivity).
  frames; first [apply Hs|apply install_untouched; set_solver].
Qed.
#[local] Transparent installCertModeConnections.

(** The counters: the connections of one cable and family share one. *)
Definition counter (c : Connection) : string := missedRefreshesKey (CableName (conn_Endpoint c)) (GetFamily c).

Lemma count_missed_other l : forall j m js m' k, count_missed j l m = (js, m') -> k ∉ counter <$> l -> m' !! k = m !! k.
Proof.
  induction l as [|c l IH]; intros j m js m' k Hc Hk; cbn in *; [by injection Hc as _ <-|].
  apply not_elem_of_cons in Hk as [Hk1 Hk2]. fold (counter c) in Hc.
  destruct (Status c =?? Connected); [erewrite (IH _ _ _ _ k Hc Hk2); by rewrite lookup_delete_ne|].
  destruct (certModeReconcileThreshold <=? _); [|erewrite (IH _ _ _ _ k Hc Hk2); by rewrite lookup_insert_ne].
  destruct (count_missed _ l _) as [js1 m1] eqn:Hc1. injection Hc as _ <-.
  erewrite (IH _ _ _ _ k Hc1 Hk2). by rewrite lookup_delete_ne.
Qed.

(** A connection is stale at its third refresh in a row without an SA. *)
Lemma count_missed_spec l : NoDup (counter <$> l) -> forall j m js m' k c, count_missed j l m = (js, m') ->
  l !! k = Some c ->
  let n := zget 0 m (counter c) + 1 in
  let stale := negb (Status c =?? Connected) && (certModeReconcileThreshold <=? n) in
  ((j + k)%nat ∈ js <-> stale = true) /\
  m' !! counter c = if (Status c =?? Connected) || stale then None else Some n.
Proof.
  assert (Hlow : forall l j m js m' x, count_missed j l m = (js, m') -> x ∈ js -> (j <= x)%nat).
  { clear l. induction l as [|c l IH]; intros j m js m' x Hc Hx; cbn in *; [injection Hc as <- _; by apply elem_of_nil in Hx|].
    fold (counter c) in Hc. destruct (Status c =?? Connected); [pose proof (IH _ _ _ _ _ Hc Hx); lia|].
    destruct (certModeReconcileThreshold <=? _); [|pose proof (IH _ _ _ _ _ Hc Hx); lia].
    destruct (count_missed _ l _) as [js1 m1] eqn:Hc1. injection Hc as <- _.
    apply elem_of_cons in Hx as [->|Hx]; [lia|]. pose proof (IH _ _ _ _ _ Hc1 Hx). lia. }
  induction l as [|c0 l IH]; intros Hnd j m js m' k c Hc Hk; [done|]. cbn in Hnd. apply NoDup_cons in Hnd as [Hni Hnd].
  cbn in Hc. fold (counter c0) in Hc. destruct k as [|k]; cbn in Hk.
  - injection Hk as ->. cbv zeta. rewrite Nat.add_0_r.
    assert (Hnot : forall m js m', count_missed (S j) l m = (js, m') -> j ∉ js).
    { intros m1 js1 m1' H1 Hin. apply (Hlow _ _ _ _ _ _ H1) in Hin. lia. }
    destruct (Status c =?? Connected); cbn [negb andb orb].
    + split; [split; [intros Hin; by apply Hnot in Hc|done]|].
      rewrite (count_missed_other _ _ _ _ _ _ Hc Hni). apply lookup_delete_eq.
    + destruct (certModeReconcileThreshold <=? _).
      * destruct (count_missed _ l _) as [js1 m1] eqn:Hc1. injection Hc as <- <-. split; [split; [done|by left]|].
        rewrite (count_missed_other _ _ _ _ _ _ Hc1 Hni). apply lookup_delete_eq.
      * split; [split; [intros Hin; by apply Hnot in Hc|done]|].
        rewrite (count_missed_other _ _ _ _ _ _ Hc Hni). apply lookup_insert_eq.
  - assert (Hne : counter c0 <> counter c).
    { intros He. apply Hni. rewrite He. apply list_elem_of_fmap. exists c. split; [done|]. by eapply list_elem_of_lookup_2. }
    replace (j + S k)%nat with (S j + k)%nat by lia. cbv zeta.
    destruct (Status c0 =?? Connected).
    + specialize (IH Hnd _ _ _ _ _ _ Hc Hk). unfold zget in IH. by rewrite lookup_delete_ne in IH.
    + destruct (certModeReconcileThreshold <=? _).
      * destruct (count_missed _ l _) as [js1 m1] eqn:Hc1. injection Hc as <- <-.
        specialize (IH Hnd _ _ _ _ _ _ Hc1 Hk). unfold zget in IH. rewrite lookup_delete_ne in IH by done.
        destruct IH as [IH1 IH2]. split; [|done]. rewrite elem_of_cons, IH1. split; [intros [?|?]; [lia|done]|by right].
      * specialize (IH Hnd _ _ _ _ _ _ Hc Hk). unfold zget in IH. by rewrite lookup_insert_ne in IH.
Qed.

Lemma count_missed_bound l : forall j m js m' x, count_missed j l m = (js, m') -> x ∈ js -> (x < j + length l)%nat.
Proof.
  induction l as [|c l IH]; intros j m js m' x Hc Hx; cbn in *; [injection Hc as <- _; by apply elem_of_nil in Hx|].
  destruct (Status c =?? Connected); [pose proof (IH _ _ _ _ _ Hc Hx); lia|].
  destruct (certModeReconcileThreshold <=? _); [|pose proof (IH _ _ _ _ _ Hc Hx); lia].
  destruct (count_missed _ l _) as [js1 m1] eqn:Hc1. injection Hc as <- _.
  apply elem_of_cons in Hx as [->|Hx]; [lia|]. pose proof (IH _ _ _ _ _ Hc1 Hx). lia.
Qed.

(** The part of a reconciliation that reads the connections pluto has loaded. *)
Definition recover (js : list nat) : eff (libreswan W G) string unit :=
  match js with
  | [] => mret tt
  | _ => r ← attempt (on_host (fun e => e) whack_status);
         match r : result string (list string) with
         | Err _ => mret tt
         | Ok lines => for_each (reinstall (read_loaded lines)) js
         end
  end.

Definition loaded_names i : gset string := base.filter printable (dom (pluto_conns (host i))).

Lemma elem_of_loaded_names i n : n ∈ loaded_names i <-> printable n /\ n ∈ dom (pluto_conns (host i)).
Proof. unfold loaded_names. apply elem_of_filter. Qed.

Lemma recover_untouched js i : untouched (loaded_names i) i (recover js i).2.
Proof.
  unfold recover. destruct js as [|j js]; [cbn; reflexivity|]. unfold mbind, eff_bind, attempt, on_host.
  pose proof (status_conns (host i)) as Hs.
  destruct (whack_status (host i)) as [[lines|e] w] eqn:Hw; cbn in Hs.
  - cbn [map_err]. etrans; [|apply (keeps_for_each (untouched (loaded_names i))); intros; apply reinstall_untouched].
    2:{ intros n Hin. apply elem_of_loaded_names in Hin as [Hn Hd]. by eapply status_loaded. }
    split; [by destruct i|]. cbn. intros n _. by rewrite Hs.
  - split; [by destruct i|]. cbn. intros n _. by rewrite Hs.
Qed.

Lemma recover_loads js i : commands_succeed ->
  (forall j, j ∈ js -> exists c ls rs, connections i !! j = Some c /\ well_formed i c ls rs) ->
  (recover js i).1 = Ok tt /\ forall j c ls rs, j ∈ js -> connections i !! j = Some c -> well_formed i c ls rs ->
    forall n, n ∈ names_of c ls rs -> n ∈ dom (pluto_conns (host (recover js i).2)).
Proof.
  intros Hok Hwf. unfold recover. destruct js as [|j0 js0]; [split; [done|]; intros ? ? ? ? Hj; by apply elem_of_nil in Hj|].
  set (js := j0 :: js0) in *. unfold mbind, eff_bind, attempt, on_host.
  pose proof (status_conns (host i)) as Hs. pose proof (proj2 (proj2 (proj2 Hok)) (host i)) as Hst.
  destruct (whack_status (host i)) as [[lines|e] w] eqn:Hw; [|done]. cbn in Hs. cbn [map_err].
  set (i0 := with_host w i).
  assert (Hsl : forall n, printable n -> n ∈ read_loaded lines -> n ∈ dom (pluto_conns w)).
  { intros n Hn. rewrite Hs. by apply (status_loaded _ _ _ _ Hw). }
  destruct (for_each_grows (reinstall (read_loaded lines))
    (fun j i => forall c ls rs, connections i0 !! j = Some c -> well_formed i0 c ls rs ->
       forall n, n ∈ names_of c ls rs -> n ∈ dom (pluto_conns (host i))) js i0) with (i := i0) as (H1 & _ & H3).
  - intros j k Hj [Hk Hd]. destruct (Hwf j Hj) as (c & ls & rs & Hc & Hcw).
    assert (Hwk : forall c ls rs, well_formed i0 c ls rs -> well_formed k c ls rs) by (by rewrite Hk).
    destruct (reinstall_grows (read_loaded lines) j c ls rs k Hok) as (H1 & H2 & H3); [intros n Hn HnL; by apply Hd, Hsl|by rewrite Hk|by apply Hwk|].
    split; [done|split; [done|]]. intros c' ls' rs' Hc' Hw' n Hn. assert (c' = c) as -> by (cbn in Hc'; congruence).
    apply H3. destruct Hw' as (_ & Hl' & Hr'), Hcw as (_ & Hl & Hr). cbn in Hl'.
    assert (ls' = ls) as -> by congruence. by assert (rs' = rs) as -> by congruence.
  - intros j k k' [_ Hd] HP c ls rs Hc Hcw n Hn. by eapply Hd, HP.
  - reflexivity.
  - split; [done|]. intros j c ls rs Hj Hc Hcw. by apply (H3 j Hj c ls rs).
Qed.

(** States at refreshes in a row, the latest first, from one without counters on;
    between them the statuses, pluto and all else may change, but no cable comes or goes. *)
Inductive history : list (libreswan W G) -> Prop :=
| history_start i : default ∅ (missedRefreshes i) = ∅ -> history [i]
| history_next i p past : history (p :: past) ->
    missedRefreshes i = missedRefreshes (reconcileCertModeConnections p).2 ->
    counter <$> connections i = counter <$> connections p -> history (i :: p :: past).

Definition lacks_sa (key : string) i : bool :=
  existsb (fun c => (counter c =?? key) && negb (Status c =?? Connected)) (connections i).

(** The number of the latest refreshes in a row at which the cable had no SA. *)
Fixpoint streak (key : string) (states : list (libreswan W G)) : Z :=
  match states with
  | [] => 0
  | i :: past => if lacks_sa key i then streak key past + 1 else 0
  end.

(** Every third of them. *)
Definition due (key : string) (states : list (libreswan W G)) : Prop :=
  0 < streak key states /\ streak key states mod 3 = 0.

Lemma streak_nonneg key states : 0 <= streak key states.
Proof. induction states as [|i past IH]; cbn; [lia|]. destruct (lacks_sa key i); lia. Qed.

Lemma lacks_sa_status i c : NoDup (counter <$> connections i) -> c ∈ connections i ->
  lacks_sa (counter c) i = negb (Status c =?? Connected).
Proof.
  intros Hnd Hc. apply eq_true_iff_eq. unfold lacks_sa. rewrite existsb_exists. split.
  - intros (c' & Hin & [Hk Hs]%andb_true_iff). apply list_elem_of_In in Hin. apply bool_decide_eq_true in Hk.
    apply list_elem_of_lookup in Hc as [j Hj]. apply list_elem_of_lookup in Hin as [j' Hj'].
    assert (j' = j) as ->; [|assert (c' = c) as -> by congruence; exact Hs].
    eapply (NoDup_lookup (counter <$> connections i) _ _ (counter c)); [done| |]; rewrite list_lookup_fmap; [by rewrite Hj', <- Hk|by rewrite Hj].
  - intros Hs. exists c. split; [by apply list_elem_of_In|]. by rewrite bool_decide_true.
Qed.

(** A refresh: what it counts, and the rest of it. *)
Lemma reconcile_run i i' r : reconcileCertModeConnections i = (r, i') ->
  exists js missed, count_missed 0 (connections i) (default ∅ (missedRefreshes i)) = (js, missed) /\
    recover js (with_missed (Some missed) i) = (r, i') /\ missedRefreshes i' = Some missed.
Proof.
  unfold reconcileCertModeConnections. intros Hr. apply eff_bind_inv in Hr as [(? & ? & [= <- <-] & Hr)|(? & [=] & _)].
  destruct (count_missed _ _ _) as [js missed]. exists js, missed. split; [done|].
  assert (Hrec : recover js (with_missed (Some missed) i) = (r, i')) by exact Hr. split; [done|].
  pose proof (recover_untouched js (with_missed (Some missed) i)) as [Hi _]. rewrite Hrec in Hi. cbn [snd] in Hi. by rewrite Hi.
Qed.

(** The counter is the length of the streak, up to the multiples of three. *)
Lemma counted_before i past c : history (i :: past) -> NoDup (counter <$> connections i) -> c ∈ connections i ->
  zget 0 (default ∅ (missedRefreshes i)) (counter c) = streak (counter c) past mod 3.
Proof.
  revert i c. induction past as [|p past IH]; intros i c Hh Hnd Hc.
  - inversion Hh as [? H0|]; subst. rewrite H0. done.
  - inversion Hh as [|? ? ? Hp Hm Hk]; subst. rewrite Hk in Hnd.
    assert (Hcp : exists cp, cp ∈ connections p /\ counter c = counter cp).
    { assert (Hin : counter c ∈ counter <$> connections i) by (apply list_elem_of_fmap; eauto).
      rewrite Hk in Hin. apply list_elem_of_fmap in Hin as (cp & ? & ?). eauto. }
    destruct Hcp as (cp & Hcp & ->). destruct (reconcileCertModeConnections p) as [r p'] eqn:Hr.
    destruct (reconcile_run _ _ _ Hr) as (js & missed & Hcount & _ & Hm'). cbn [snd] in Hm. rewrite Hm, Hm'. cbn [default id].
    apply list_elem_of_lookup in Hcp as Hj. destruct Hj as [j Hj].
    destruct (count_missed_spec _ Hnd _ _ _ _ _ _ Hcount Hj) as [_ Hn]. rewrite (IH p cp Hp Hnd Hcp) in Hn.
    unfold zget. rewrite Hn. cbn [streak]. rewrite lacks_sa_status by done. pose proof (streak_nonneg (counter cp) past) as Hs0.
    destruct (Status cp =?? Connected); cbn [negb andb orb]; [done|].
    pose proof (Z.mod_pos_bound (streak (counter cp) past) 3 ltac:(lia)).
    unfold certModeReconcileThreshold. destruct (3 <=? streak (counter cp) past mod 3 + 1) eqn:Hle; cbn [default id];
      [apply Z.leb_le in Hle|apply Z.leb_gt in Hle]; pose proof (Z.div_mod (streak (counter cp) past) 3 ltac:(lia));
      [apply (Z.mod_unique _ _ (streak (counter cp) past / 3 + 1))|apply (Z.mod_unique _ _ (streak (counter cp) past / 3))]; lia.
Qed.

(** What a refresh counts of a cable, and whether it is repaired. *)
Lemma counted_after i past js missed j c : history (i :: past) -> NoDup (counter <$> connections i) ->
  count_missed 0 (connections i) (default ∅ (missedRefreshes i)) = (js, missed) -> connections i !! j = Some c ->
  (j ∈ js <-> due (counter c) (i :: past)) /\ zget 0 missed (counter c) = streak (counter c) (i :: past) mod 3.
Proof.
  intros Hh Hnd Hcount Hj. assert (Hc : c ∈ connections i) by (by eapply list_elem_of_lookup_2).
  destruct (count_missed_spec _ Hnd _ _ _ _ _ _ Hcount Hj) as [Hin Hn].
  rewrite (counted_before i past c Hh Hnd Hc) in Hin, Hn. unfold zget, due. rewrite Hn, Hin. clear Hn Hin.
  cbn [streak]. rewrite lacks_sa_status by done. pose proof (streak_nonneg (counter c) past) as Hs0.
  destruct (Status c =?? Connected); cbn [negb andb orb]; [split; [split; [done|lia]|done]|].
  set (s := streak (counter c) past) in *. clearbody s. pose proof (Z.mod_pos_bound s 3 ltac:(lia)).
  pose proof (Z.div_mod s 3 ltac:(lia)). unfold certModeReconcileThreshold. rewrite Z.leb_le.
  pose proof (Z.mod_pos_bound (s + 1) 3 ltac:(lia)). pose proof (Z.div_mod (s + 1) 3 ltac:(lia)).
  split; [split; lia|]. destruct (3 <=? s mod 3 + 1) eqn:Hle; cbn [default id];
    [apply Z.leb_le in Hle|apply Z.leb_gt in Hle]; lia.
Qed.

(** C16: In the mode with certificates a refresh never touches a connection that pluto
    has loaded.  After refreshes in a row from a state without counters, the
    counter of a cable is the number of the latest ones at which it had no SA, modulo
    three; only when that number is three, or another multiple of it, is anything
    repaired, and then, when no command fails, all connections of the cable
    are loaded. *)
Theorem reconcile_repairs (i i' : libreswan W G) r : reconcileCertModeConnections i = (r, i') ->
  (forall n q, printable n -> pluto_conns (host i) !! n = Some q -> pluto_conns (host i') !! n = Some q) /\
  forall past, history (i :: past) -> NoDup (counter <$> connections i) ->
    (forall c, c ∈ connections i ->
       zget 0 (default ∅ (missedRefreshes i')) (counter c) = streak (counter c) (i :: past) mod 3) /\
    ((forall c, c ∈ connections i -> ~ due (counter c) (i :: past)) -> host i' = host i) /\
    (commands_succeed ->
     (forall c, c ∈ connections i -> due (counter c) (i :: past) -> exists ls rs, well_formed i c ls rs) ->
     r = Ok tt /\
     forall c ls rs, c ∈ connections i -> due (counter c) (i :: past) -> well_formed i c ls rs ->
       forall name, name ∈ names_of c ls rs -> name ∈ dom (pluto_conns (host i'))).
Proof.
  intros Hr. destruct (reconcile_run _ _ _ Hr) as (js & missed & Hc & Hrec & Hm). clear Hr.
  set (i1 := with_missed (Some missed) i) in Hrec.
  pose proof (recover_untouched js i1) as Hsafe. rewrite Hrec in Hsafe. destruct Hsafe as [_ Hsafe]. cbn [snd] in *. split.
  { intros n q Hn Hq. rewrite Hsafe; [exact Hq|]. apply elem_of_loaded_names. split; [done|].
    apply elem_of_dom. by exists q. }
  intros past Hh Hnd. split; [|split].
  - intros c [j Hj]%list_elem_of_lookup. rewrite Hm. by apply (counted_after i past js missed j c).
  - intros Hnone. assert (js = []) as ->; [|by injection Hrec as _ <-].
    destruct js as [|j js]; [done|exfalso]. pose proof (count_missed_bound _ _ _ _ _ j Hc ltac:(by left)) as Hlt.
    destruct (lookup_lt_is_Some_2 (connections i) j ltac:(lia)) as [c Hjc].
    apply (Hnone c); [by eapply list_elem_of_lookup_2|].
    apply (counted_after i past _ _ j c Hh Hnd Hc Hjc). by left.
  - intros Hok Hwf. destruct (recover_loads js i1 Hok) as [H1 H2].
    { intros j Hj. pose proof (count_missed_bound _ _ _ _ _ _ Hc Hj) as Hlt.
      destruct (lookup_lt_is_Some_2 (connections i) j ltac:(lia)) as [c Hjc].
      destruct (Hwf c) as (ls & rs & Hw); [by eapply list_elem_of_lookup_2|by apply (counted_after i past _ _ j c Hh Hnd Hc Hjc)|].
      by exists c, ls, rs. }
    rewrite Hrec in H1, H2. cbn [fst snd] in *. split; [done|]. intros c ls rs [j Hj]%list_elem_of_lookup Hdue Hw.
    apply (H2 j c ls rs); [by apply (counted_after i past _ _ j c Hh Hnd Hc Hj)|done|done].
Qed.
End requests.

(** * What is read of pluto's output *)
(** The first line pluto prints of a connection gives its name back. *)
Definition status_line (n rest : string) : string := text (quote :: chars n ++ quote :: ":"%char :: chars rest).

Lemma status_line_read n rest : printable n -> LoadedConnectionRE (status_line n rest) = Some n.
Proof.
  intros [Hn Hq]. unfold LoadedConnectionRE, status_line. rewrite chars_text.
  assert (Hb : break (fun c => c =?? quote) (chars n ++ quote :: ":"%char :: chars rest) = (chars n, quote :: ":"%char :: chars rest)).
  { apply break_at; [intros x Hx; apply bool_decide_eq_false; by intros ->|by apply bool_decide_eq_true]. }
  assert (Hf : quoted_name (quote :: chars n ++ quote :: ":"%char :: chars rest) = Some n).
  { unfold quoted_name. change (strip [quote] (quote :: ?l)) with (Some l). cbn [mbind option_bind]. rewrite Hb.
    change (strip [quote; ":"%char] (quote :: ":"%char :: ?l)) with (Some l). cbn [mbind option_bind].
    rewrite bool_decide_false; [by rewrite text_chars|]. intros He. apply Hn. by apply chars_inj. }
  assert (Hd : is_digit quote = false) by reflexivity. revert Hf. generalize (chars n ++ quote :: ":"%char :: chars rest).
  revert Hd. generalize quote. intros q Hd t Hf.
  destruct t as [|x [|y [|z t]]]; [exact Hf..|]. rewrite Hd. cbn [andb]. destruct z as [[] [] [] [] [] [] [] []]; exact Hf.
Qed.

Lemma last_match_result {T} (f : list ascii -> option T) (P : T -> Prop) l x :
  (forall l x, f l = Some x -> P x) -> last_match f l = Some x -> P x.
Proof.
  intros Hf. induction l as [|c l IH]; cbn; [apply Hf|]. destruct (last_match f l); [intros [= ->]; by apply IH|apply Hf].
Qed.

Lemma TrafficStatusRE_name line n rx tx : TrafficStatusRE line = Some (n, rx, tx) -> connection_name (chars n) = true.
Proof.
  apply (last_match_result match_connection (fun x => connection_name (chars x.1.1) = true)). clear.
  intros l [[n rx] tx] Hm. unfold match_connection in Hm. cbn [fst].
  destruct (strip _ l) as [l1|]; [|done]. cbn [mbind option_bind] in Hm.
  destruct (break _ l1) as [name l2]. destruct (strip _ l2) as [l3|]; [|done]. cbn [mbind option_bind] in Hm.
  destruct (strip _ _) as [l4|]; [|done]. cbn [mbind option_bind] in Hm.
  destruct (last_match match_bytes l4) as [bytes|]; [|done]. cbn [mbind option_bind] in Hm.
  destruct (connection_name name) eqn:Hn; [|done]. injection Hm as <- _ _. by rewrite chars_text.
Qed.

(** A number printed with one digit that is 0 or 1, before something that is no digit. *)
Lemma Itoa_01 n b d t l : rev (chars (Strconv.Itoa (Z.of_nat n))) ++ "-"%char :: t = b :: d :: l ->
  b ∈ chars "01" -> d = "-"%char -> (n < 2)%nat /\ l = t.
Proof.
  pose proof (Itoa_digits (Z.of_nat n) ltac:(lia)) as Hd. apply Forall_rev in Hd.
  intros He Hb ->. assert (Hl : rev (chars (Strconv.Itoa (Z.of_nat n))) = [b] /\ t = l).
  { apply digits_then with (c := "-"%char) (d2 := [b]); [reflexivity|done| |done].
    constructor; [|constructor]. cbn in Hb. set_unfold. by destruct Hb as [->|[->|[]]]. }
  destruct Hl as [Hl <-]. split; [|done]. apply (f_equal (@rev _)) in Hl. rewrite rev_involutive in Hl. cbn in Hb.
  apply elem_of_cons in Hb as [->|Hb%list_elem_of_singleton]; [|subst b].
  - enough (Z.of_nat n = 0) by lia. apply Itoa_inj; [lia|lia|]. by apply chars_inj.
  - enough (Z.of_nat n = 1) by lia. apply Itoa_inj; [lia|lia|]. by apply chars_inj.
Qed.

Lemma connection_name_indices cable f l r : connection_name (chars (toConnectionName cable f l r)) = true -> (l < 2)%nat /\ (r < 2)%nat.
Proof.
  unfold connection_name, toConnectionName. rewrite !chars_app.
  set (li := chars (Strconv.Itoa (Z.of_nat l))). set (ri := chars (Strconv.Itoa (Z.of_nat r))).
  assert (Hrev : rev (chars cable ++ chars "-v" ++ chars (family_str f) ++ chars "-" ++ li ++ chars "-" ++ ri) =
    rev ri ++ "-"%char :: rev li ++ "-"%char :: rev (chars (family_str f)) ++ rev (chars "-v") ++ rev (chars cable)).
  { rewrite !rev_app_distr. cbn [rev app chars String.list_ascii_of_string]. rewrite <- !app_assoc. reflexivity. }
  rewrite Hrev. destruct (rev ri ++ _) as [|b [|d2 [|a [|d1 [|f' [|v [|d0 [|z rest]]]]]]]] eqn:He; try done. intros H. bool_props.
  apply Itoa_01 in He as [Hr He]; [|done|done]. split; [|done]. symmetry in He. apply Itoa_01 in He as [Hl _]; done.
Qed.

Definition names_ok (m : gmap string Z) : Prop := forall n, is_Some (m !! n) -> connection_name (chars n) = true.

Lemma add_bytes_ok n d m : connection_name (chars n) = true -> names_ok m -> names_ok (add_bytes n d m).
Proof.
  intros Hn Hm k. unfold add_bytes. destruct (Strconv.ParseInt d); rewrite !lookup_insert_is_Some;
    intros Hk; destruct (decide (n = k)) as [<-|Hne]; [done| |done|]; apply Hm; naive_solver.
Qed.

Lemma read_traffic_ok lines : names_ok (read_traffic lines).1 /\ names_ok (read_traffic lines).2.
Proof.
  unfold read_traffic. enough (Hf : forall t, names_ok t.1 /\ names_ok t.2 -> let t' := foldl (fun t line =>
    match TrafficStatusRE line with
    | Some (name, rx, tx) => (add_bytes name rx t.1, add_bytes name tx t.2)
    | None => t
    end) t lines in names_ok t'.1 /\ names_ok t'.2).
  { apply (Hf (∅, ∅)). split; intros n [? Hn]; cbn [fst snd] in Hn; by rewrite lookup_empty in Hn. }
  induction lines as [|line lines IH]; intros t Ht; [done|]. cbn. apply IH.
  destruct (TrafficStatusRE line) as [[[n rx] tx]|] eqn:Hl; [|done]. apply TrafficStatusRE_name in Hl.
  destruct Ht. split; by apply add_bytes_ok.
Qed.

Lemma count_unseen t l acc : (forall n, n ∈ l -> t.1 !! n = None /\ t.2 !! n = None) -> foldl (count_name t) acc l = acc.
Proof.
  revert acc. induction l as [|n l IH]; intros acc Hl; [done|]. cbn. destruct (Hl n) as [H1 H2]; [by left|].
  assert (Hn : count_name t acc n = acc) by (unfold count_name; destruct acc as [[? ?] ?]; by rewrite H1, H2).
  rewrite Hn. apply IH. intros k Hk. apply Hl. by right.
Qed.

(** Whatever pluto prints, only the connections between the first two subnets of
    each side count for the bytes and the status of a cable: those between further
    subnets are never seen. *)
Lemma traffic_first_two_subnets lines cable f (left right : list string) :
  active_bytes (read_traffic lines) (pair_names cable f left right) =
  active_bytes (read_traffic lines) (pair_names cable f (take 2 left) (take 2 right)).
Proof.
  set (t := read_traffic lines).
  assert (Hun : forall l r, (2 <= l \/ 2 <= r)%nat -> t.1 !! toConnectionName cable f l r = None /\ t.2 !! toConnectionName cable f l r = None).
  { intros l r Hlr. destruct (read_traffic_ok lines) as [H1 H2]. fold t in H1, H2.
    split; apply eq_None_not_Some; intros Hs; [apply H1 in Hs|apply H2 in Hs]; apply connection_name_indices in Hs; lia. }
  assert (Hseq : forall (l : list string), seq 0 (length l) = seq 0 (length (take 2 l)) ++ seq (length (take 2 l)) (length l - 2)).
  { intros l. rewrite <- seq_app. f_equal. rewrite length_take. lia. }
  assert (Hrow : forall l acc, foldl (count_name t) acc (rsi ← seq 0 (length right); [toConnectionName cable f l rsi]) =
    foldl (count_name t) acc (rsi ← seq 0 (length (take 2 right)); [toConnectionName cable f l rsi])).
  { intros l acc. rewrite (Hseq right), bind_app, foldl_app. apply count_unseen.
    intros n (r & ->%list_elem_of_singleton & Hr%elem_of_seq)%list_elem_of_bind. apply Hun. rewrite length_take in Hr. lia. }
  unfold active_bytes, pair_names. rewrite (Hseq left), bind_app, foldl_app, count_unseen.
  - generalize (seq 0 (length (take 2 left))). intros ls. generalize (0, 0, false).
    induction ls as [|l ls IH]; intros acc; [done|]. rewrite !bind_cons, !foldl_app, Hrow. apply IH.
  - intros n (l & Hn & Hl%elem_of_seq)%list_elem_of_bind.
    apply list_elem_of_bind in Hn as (r & ->%list_elem_of_singleton & _). apply Hun. rewrite length_take in Hl. lia.
Qed.

(** * A pluto that always succeeds *)
#[local] Instance ex_pluto : Pluto (gmap string request) := {
  whack_run args := fun m => (Ok tt, pluto_effect args m);
  traffic_status := mret [];
  whack_status := fun m => (Ok ((fun n => status_line n " unrouted;") <$> base.filter printable (elements (dom m))), m);
  auto_add n := fun m => (Ok tt, <[n := mkRequest [] [] None]> m);
  open_log _ := mret tt;
  pluto_start _ := mret tt;
  stat_socket := mret tt;
  socket_polls := 600;
  write_secrets _ := mret tt;
  issue_certificate _ _ := mret tt;
  certificate_cleanup := mret tt;
  conf_Read := mret None;
  conf_Write _ := mret tt;
  conf_Append _ := mret tt;
  conf_Remove := mret tt;
}.

Lemma ex_status_loaded (m : gmap string request) n : printable n ->
  n ∈ read_loaded ((fun n => status_line n " unrouted;") <$> base.filter printable (elements (dom m))) <-> n ∈ dom m.
Proof.
  intros Hn. unfold read_loaded. rewrite elem_of_list_to_set, list_elem_of_omap. split.
  - intros (line & (k & -> & [Hk Hin]%list_elem_of_filter)%list_elem_of_fmap & Hl).
    rewrite status_line_read in Hl by done. injection Hl as <-. by apply elem_of_elements.
  - intros Hin. exists (status_line n " unrouted;"). split; [|by apply status_line_read].
    apply list_elem_of_fmap. exists n. split; [done|]. apply list_elem_of_filter. split; [done|]. by apply elem_of_elements.
Qed.

#[local] Instance ex_pluto_laws : PlutoLaws (gmap string request).
Proof.
  refine {| pluto_conns := fun m => m |}; try done.
  - intros args m m' Hr. by injection Hr.
  - intros m lines m' n [= <- _] Hn. by apply ex_status_loaded.
  - intros n m m' [= <-]. apply elem_of_dom. rewrite lookup_insert_eq. by eexists.
  - intros n n' m Hne. cbn. by apply lookup_insert_ne.
Defined.
#[local] Existing Instance k8snet_ref.
#[local] Existing Instance Metrics.gauge_ref.

Definition ex_spec (cluster ip : string) (subnets : list string) (config : gmap string string) : EndpointSpec :=
  mkSpec cluster ("submariner-cable-" +:+ cluster) "" [] "node" subnets "" [ip] "" [] false "libreswan" config.
Definition ex_east : EndpointSpec := ex_spec "east" "10.0.0.1" ["10.1.0.0/16"; "10.2.0.0/16"] ∅.
Definition ex_west : EndpointSpec := ex_spec "west" "10.0.0.2" ["10.3.0.0/16"] {[ PreferredServerConfig := "true" ]}.
Definition ex_info (spec : EndpointSpec) (ip : string) : NATEndpointInfo := mkInfo (mkEndpoint "e" 1 spec) false ip IPv4.
Definition ex_driver (spec : EndpointSpec) (mode : AuthMode) (l : list Connection) (missed : option (gmap string Z)) :
    libreswan (gmap string request) (gmap Labels Z) :=
  mkLibreswan spec l [] "" "" "4500" 4500 false false true mode missed ∅ (Metrics.mkMetrics ∅ ∅ ∅ ∅ ∅ ∅ ∅ ∅).

Lemma tunnel_ends_match_witness :
  let i := (ConnectToEndpoint 0 (ex_info ex_west "10.0.0.2") (ex_driver ex_east AuthModePSK [] None)).2 in
  let j := (ConnectToEndpoint 0 (ex_info ex_east "10.0.0.1") (ex_driver ex_west AuthModePSK [] None)).2 in
  exists qi qj, host i !! "submariner-cable-west-v4-1-0" = Some qi /\ host j !! "submariner-cable-east-v4-0-1" = Some qj /\
    left_value clientArg qi = Some "10.2.0.0/16" /\ meets qi qj /\ meets qj qi.
Proof.
  intros i j.
  assert (Hi : (ConnectToEndpoint 0 (ex_info ex_west "10.0.0.2") (ex_driver ex_east AuthModePSK [] None)).1 = Ok "10.0.0.2")
    by (vm_compute; reflexivity).
  assert (Hj : (ConnectToEndpoint 0 (ex_info ex_east "10.0.0.1") (ex_driver ex_west AuthModePSK [] None)).1 = Ok "10.0.0.1")
    by (vm_compute; reflexivity).
  apply run_pair in Hi, Hj. fold i in Hi. fold j in Hj.
  clearbody i j.
  destruct (tunnel_ends_match 0 (ex_driver ex_east AuthModePSK [] None) (ex_driver ex_west AuthModePSK [] None) i j
    (ex_info ex_west "10.0.0.2") (ex_info ex_east "10.0.0.1") "10.0.0.2" "10.0.0.1" IPv4
    eq_refl eq_refl eq_refl eq_refl eq_refl eq_refl ltac:(discriminate) eq_refl
    ltac:(vm_compute; reflexivity) ltac:(vm_compute; reflexivity)
    ltac:(vm_compute; reflexivity) ltac:(vm_compute; reflexivity) Hi Hj)
    as (ls & rs & Hl & Hr & Hpairs).
  vm_compute in Hl, Hr. injection Hl as <-. injection Hr as <-.
  destruct (Hpairs 1%nat _ 0%nat _ eq_refl eq_refl) as (qi & qj & H1 & H2 & H3 & _ & H4 & H5 & _).
  assert (Hni : toConnectionName (CableName ex_west) IPv4 1 0 = "submariner-cable-west-v4-1-0") by (vm_compute; reflexivity).
  assert (Hnj : toConnectionName (CableName ex_east) IPv4 0 1 = "submariner-cable-east-v4-0-1") by (vm_compute; reflexivity).
  cbn [localEndpoint ex_driver] in H1, H2. rewrite Hni in H1. rewrite Hnj in H2.
  exists qi, qj. exact (conj H1 (conj H2 (conj H3 (conj H4 H5)))).
Defined.



(** When the private address of the remote gateway is one of its subnets and another
    address is used, the disconnection computes fewer names than the connection. *)
Lemma disconnect_leaves_connection :
  let remote := ex_spec "west" "10.0.0.2" ["10.0.0.2/32"; "10.3.0.0/16"] ∅ in
  let i := ex_driver (ex_spec "east" "10.0.0.1" ["10.1.0.0/16"] ∅) AuthModePSK [] None in
  let i1 := (ConnectToEndpoint 0 (ex_info remote "1.2.3.4") i).2 in
  let i2 := (DisconnectFromEndpoint remote IPv4 i1).2 in
  length (connections i1) = 1%nat /\ size (host i1) = 2%nat /\
  (DisconnectFromEndpoint remote IPv4 i1).1 = Ok tt /\ connections i2 = [] /\
  dom (host i2) = {[ "submariner-cable-west-v4-0-1" ]}.
Proof. repeat split; vm_compute; reflexivity. Qed.

Definition ex_connection (st : ConnectionStatus) : Connection := mkConnection st "" ex_west "10.0.0.2" false None.

Lemma cert_disconnect_keeps_loaded_witness :
  let i := (ConnectToEndpoint 0 (ex_info ex_west "10.0.0.2") (ex_driver ex_east AuthModeCert [] None)).2 in
  let i' := (DisconnectFromEndpoint ex_west IPv4 i).2 in
  length (connections i) = 1%nat /\ connections i' = [] /\ size (host i') = 2%nat.
Proof.
  intros i i'. split; [vm_compute; reflexivity|]. split; [vm_compute; reflexivity|].
  assert (Hs : size (host i) = 2%nat) by (vm_compute; reflexivity).
  assert (Ha : authMode i = AuthModeCert) by (vm_compute; reflexivity).
  pose proof (cert_disconnect_keeps_loaded i ex_west IPv4 Ha) as Hk. fold i' in Hk. clearbody i' i.
  change (host i' = host i) in Hk. by rewrite Hk.
Defined.

(** East's connections to west are gone at a refresh, there at the next one, and gone
    at three more: only the last one loads them. *)
Definition ex_gone : libreswan (gmap string request) (gmap Labels Z) :=
  ex_driver ex_east AuthModeCert [ex_connection Connecting] (Some ∅).
Definition ex_next (st : ConnectionStatus) (i : libreswan (gmap string request) (gmap Labels Z)) :=
  with_connections [ex_connection st] [] (reconcileCertModeConnections i).2.
Definition ex_up := ex_next Connected ex_gone.
Definition ex_miss1 := ex_next Connecting ex_up.
Definition ex_miss2 := ex_next Connecting ex_miss1.
Definition ex_miss3 := ex_next Connecting ex_miss2.

Lemma reconcile_repairs_witness :
  host ex_miss3 = ∅ /\ streak "submariner-cable-west-v4" [ex_miss3; ex_miss2; ex_miss1; ex_up; ex_gone] = 3 /\
  host (reconcileCertModeConnections ex_miss2).2 = host ex_miss2 /\
  "submariner-cable-west-v4-1-0" ∈ dom (host (reconcileCertModeConnections ex_miss3).2).
Proof.
  assert (Hh2 : history [ex_miss2; ex_miss1; ex_up; ex_gone])
    by (do 3 (apply history_next; [|reflexivity|reflexivity]); apply history_start; reflexivity).
  assert (Hh3 : history [ex_miss3; ex_miss2; ex_miss1; ex_up; ex_gone])
    by (apply history_next; [exact Hh2|reflexivity|reflexivity]).
  assert (Hd : due "submariner-cable-west-v4" [ex_miss3; ex_miss2; ex_miss1; ex_up; ex_gone])
    by (split; vm_compute; reflexivity).
  split; [vm_compute; reflexivity|]. split; [vm_compute; reflexivity|]. split.
  - destruct (reconcile_repairs ex_miss2 _ _ (surjective_pairing _)) as [_ Hrep].
    apply (Hrep _ Hh2 (NoDup_singleton _)). intros c ->%list_elem_of_singleton [_ Hd2]. vm_compute in Hd2. discriminate Hd2.
  - destruct (reconcile_repairs ex_miss3 _ _ (surjective_pairing _)) as [_ Hrep].
    destruct (Hrep _ Hh3 (NoDup_singleton _)) as (_ & _ & Hload).
    assert (Hw : well_formed ex_miss3 (ex_connection Connecting) ["10.1.0.0/16"; "10.2.0.0/16"] ["10.3.0.0/16"])
      by (split; [|split]; vm_compute; reflexivity).
    destruct Hload as [_ Hload].
    + split; [done|split; [done|split; [|done]]]. intros s n w. reflexivity.
    + intros c ->%list_elem_of_singleton _. eexists _, _. exact Hw.
    + apply (Hload (ex_connection Connecting) ["10.1.0.0/16"; "10.2.0.0/16"] ["10.3.0.0/16"]); [left|exact Hd|exact Hw|].
      apply list_elem_of_lookup_2 with (i := 1%nat). vm_compute. reflexivity.
Defined.

(** * The engine over the driver *)
(** The engine over this driver, from its creation and through any starts, stops,
    requests, removals and NAT results, never has two connections to one cluster in
    a family, although the engine walks a slice whose array the driver modifies. *)
Lemma libreswan_engine_single {W G N} `{!Pluto W} `{!GaugeVec G} `{K8sNet} `{!K8sNetLaws} `{!NATIface N} (now : Z)
    (conf : specification) prefer resolve (w : W) (m : Metrics.metrics G) (clusterID : string) (spec : EndpointSpec) (nd : N)
    (owner : string -> string) (es : list CableEngine.engine_event) (i : libreswan W G) (cluster : string) (f : IPFamily) :
  Forall (CableEngine.event_ok owner) es ->
  CableEngine.driver
    (CableEngine.engine_run (Driver0 := libreswan_driver now)
       (fun spec _ => NewLibreswan conf spec (prefer spec) resolve w m) es (CableEngine.NewEngine clusterID spec nd)) = Some i ->
  f <> IPFamilyUnknown -> (CableEngine.count_cluster cluster f (connections i) <= 1)%nat.
Proof.
  intros Hes Hdr Hf. set (laws := libreswan_driver_laws (W := W) (G := G) now).
  set (new := fun (spec : EndpointSpec) (_ : string) => NewLibreswan conf spec (prefer spec) resolve w m) in *.
  assert (Hnew : forall spec id d, new spec id = Ok d -> connections d = []).
  { intros s id d. unfold new, NewLibreswan. cbv zeta. destruct (if _ =?? _ then _ else _); [|done].
    destruct (Strconv.ParseUint _ _); [|done]. destruct (GetBackendPort _ _ _) as [? [|]]; [done|].
    intros (local & _ & (psk & _ & [= <-])%bind_ok_inv)%bind_ok_inv. done. }
  assert (forall es i, Forall (CableEngine.event_ok owner) es ->
    CableEngine.engine_wf (DriverLaws0 := laws) owner i ->
    CableEngine.engine_wf (DriverLaws0 := laws) owner
      (CableEngine.engine_run (Driver0 := libreswan_driver now) new es i)) as Hrun.
  { clear - Hnew. intros es i Hes. revert i. induction Hes as [|e es He _ IH]; intros i Hi; [done|].
    apply IH. apply CableEngine.engine_step_wf; [|done|done]. intros s id d Hd. split; [done|]. by apply Hnew in Hd. }
  specialize (Hrun es (CableEngine.NewEngine clusterID spec nd) Hes).
  destruct Hrun as [_ Hs]; [split; [apply map_Forall_empty|done]|].
  rewrite Hdr in Hs. by apply Hs.
Qed.
End Libreswan.
