(* ===== verification/CertHandler.v ===== *)
(** The certificates of the libreswan driver in the NSS database
    (src/pkg/cable/libreswan/certificate_handler.go): the callback for signed
    certificates and its clean-up.  PEM, X.509, PKCS#12, SHA-256, certutil, pk12util
    and the files are a class. *)
From stdpp Require Import base gmap list strings.
From Stdlib Require Import ZArith Lia Ascii.
From S2P Require Import Prelude GoNet GoStrings Libreswan.

Module CertHandler.

Definition CACertName : string := "subm-ca-cert".
Definition ClientCertName : string := Libreswan.ClientCertName.

(** A block of PEM: its type and its bytes. *)
Record Block := mkBlock { block_Type : string; block_Bytes : string }.

(** The libraries on data, and the commands and files on a host. *)
Class NSSTools (W : Type) := {
  Certificate : Type;
  PrivateKey : Type;
  pem_Decode : string -> option (Block * string);
  ParseCertificate : string -> result string Certificate;
  ParsePKCS8PrivateKey : string -> result string PrivateKey;
  ParsePKCS1PrivateKey : string -> result string PrivateKey;
  EncodeWithFriendlyName : string -> PrivateKey -> Certificate -> list Certificate -> string -> result string string;
  Sum256 : string -> list ascii;
  os_Stat : string -> eff W string unit;
  CreateTemp : eff W string string;
  file_Write : string -> string -> eff W string unit;
  file_Close : string -> eff W string unit;
  os_Remove : string -> W -> W;
  certutil : list string -> string -> eff W string unit;
  pk12util : list string -> eff W string unit;
}.

Record CertificateHandler := mkHandler { nssDBDir : string; lastCertHash : string }.

Definition NewCertificateHandler (RootDir : string) : CertificateHandler :=
  mkHandler (RootDir +:+ "/var/lib/ipsec/nss") "".

Definition NSSDatabaseFile (c : CertificateHandler) : string := nssDBDir c +:+ "/cert9.db".

(** The data of the secret that the callback reads. *)
Record SecretData := mkSecret { tlsCert : string; tlsKey : string; caCert : string }.

(** * Decoding *)
Section decoding.
Context {W : Type} `{!NSSTools W}.

(** [pem.Decode] leaves a shorter text, so that the length of the data bounds the
    number of rounds. *)
Fixpoint decode_chain (fuel : nat) (rest : string) (leaf : option Certificate) (chain : list Certificate) :
    result string (option Certificate * list Certificate) :=
  match pem_Decode rest, fuel with
  | None, _ => Ok (leaf, chain)
  | Some _, O => Err "out of fuel"
  | Some (block, rest), S fuel =>
      if block_Type block =?? "CERTIFICATE" then
        match ParseCertificate (block_Bytes block) with
        | Err e => Err "error parsing certificate data"
        | Ok c => match leaf with
                  | None => decode_chain fuel rest (Some c) chain
                  | Some _ => decode_chain fuel rest leaf (chain ++ [c])
                  end
        end
      else Err "unexpected block type in certificate data"
  end.

Definition decodeLeafAndCertificateChain (certData : string) : result string (Certificate * list Certificate) :=
  r ← decode_chain (String.length certData) certData None [];
  match r with
  | (None, _) => Err "no certificate found in certificate data"
  | (Some leaf, chain) => Ok (leaf, chain)
  end.

(** The first block decides. *)
Definition decodePrivateKey (keyData : string) : result string PrivateKey :=
  match pem_Decode keyData with
  | None => Err "no private key found in key data"
  | Some (block, _) =>
      if block_Type block =?? "PRIVATE KEY" then
        map_err (fun _ => "error parsing key data") (ParsePKCS8PrivateKey (block_Bytes block))
      else if block_Type block =?? "RSA PRIVATE KEY" then
        map_err (fun _ => "error parsing key data") (ParsePKCS1PrivateKey (block_Bytes block))
      else Err "unexpected block type in key data"
  end.
End decoding.

(** * The handler *)
Section handler.
Context {W : Type} `{!NSSTools W}.
Implicit Types (c : CertificateHandler).

Abbreviation M := (eff W string).

Definition newCertUtilCmd c (args : list string) : list string := args ++ ["-d"; "sql:" +:+ nssDBDir c].

Definition wrap {A} (e : string) (m : M A) : M A := fun w => let '(r, w) := m w in (map_err (fun _ => e) r, w).

Definition initNSSDatabase c : M unit :=
  r ← attempt (os_Stat (NSSDatabaseFile c));
  match r : result string unit with
  | Ok _ => mret tt
  | Err _ => wrap "failed to initialize NSS database" (certutil (newCertUtilCmd c ["-N"; "--empty-password"]) "")
  end.

Definition loadCertificate c (certData nickname trustFlags : string) : M unit :=
  wrap "failed to load certificate" (certutil (newCertUtilCmd c ["-A"; "-n"; nickname; "-t"; trustFlags; "-a"]) certData).

(** [defer os.Remove]: the temporary file goes whatever happens after its creation. *)
Definition deferred_remove (name : string) (m : M unit) : M unit := fun w => let '(r, w) := m w in (r, os_Remove name w).

Definition loadPrivateKey c (certData keyData nickname : string) : M unit :=
  chain ← lift_result (decodeLeafAndCertificateChain certData);
  parsedKey ← lift_result (decodePrivateKey keyData);
  p12File ← wrap "failed to create temporary pkcs12 file" CreateTemp;
  deferred_remove p12File (
    pkcsData ← wrap "error encoding to PKCS#12" (lift_result (EncodeWithFriendlyName nickname parsedKey chain.1 chain.2 ""));
    _ ← wrap "error writing PKCS#12 file" (file_Write p12File pkcsData);
    _ ← wrap "error closing PKCS#12 file" (file_Close p12File);
    wrap "failed to import PKCS#12 into NSS database" (pk12util ["-i"; p12File; "-d"; "sql:" +:+ nssDBDir c; "-W"; ""])).

Definition loadCertificatesIntoNSS c (d : SecretData) : M unit :=
  _ ← wrap "failed to load CA certificate" (loadCertificate c (caCert d) CACertName "CT,");
  wrap "failed to load client certificate with key" (loadPrivateKey c (tlsCert d) (tlsKey d) ClientCertName).

(** The verb [%x] on bytes. *)
Definition hex_byte (c : ascii) : list ascii :=
  let n := nat_of_ascii c in [Strings.hex_char (n / 16); Strings.hex_char (n mod 16)].

Definition Sprintf_x (bytes : list ascii) : string := Strings.text (flat_map hex_byte bytes).

Definition certHash (d : SecretData) : string :=
  let certData := tlsCert d +:+ tlsKey d +:+ caCert d in Sprintf_x (Sum256 certData).

Definition OnSignedCallback (d : SecretData) : eff (CertificateHandler * W) string unit := fun '(c, w) =>
  if certHash d =?? lastCertHash c then (Ok tt, (c, w))
  else match (_ ← wrap "failed to initialize NSS database" (initNSSDatabase c);
              wrap "failed to load certificates into NSS database" (loadCertificatesIntoNSS c d)) w with
       | (Ok _, w) => (Ok tt, (mkHandler (nssDBDir c) (certHash d), w))
       | (Err e, w) => (Err e, (c, w))
       end.

Definition Cleanup c : M unit :=
  for_each (fun certName => ignore (certutil (newCertUtilCmd c ["-D"; "-n"; certName]) "")) [CACertName; ClientCertName].

(** The callbacks for a sequence of secrets; errors are left to the caller. *)
Definition callbacks (ds : list SecretData) (s : CertificateHandler * W) : CertificateHandler * W :=
  foldl (fun s d => (OnSignedCallback d s).2) s ds.
End handler.

(** * What the callback leaves in the database *)
(** The entries of the database by nickname, and the temporary files. *)
Class NSSLaws (W : Type) `{!NSSTools W} := {
  nss : W -> gmap string string;
  files : W -> gmap string string;
  friendlyName : string -> string;
  pem_shorter : forall s b rest, pem_Decode s = Some (b, rest) -> (String.length rest < String.length s)%nat;
  encode_name : forall n k leaf chain p d, EncodeWithFriendlyName n k leaf chain p = Ok d -> friendlyName d = n;
  sum256_length : forall s, length (Sum256 s) = 32%nat;
  stat_nss : forall f w, nss (os_Stat f w).2 = nss w;
  temp_nss : forall w, nss (CreateTemp w).2 = nss w;
  write_nss : forall f d w, nss (file_Write f d w).2 = nss w;
  write_file : forall f d w w', file_Write f d w = (Ok tt, w') -> files w' !! f = Some d;
  close_nss : forall f w, nss (file_Close f w).2 = nss w /\ files (file_Close f w).2 = files w;
  remove_nss : forall f w, nss (os_Remove f w) = nss w;
  certutil_new : forall args d w, nss (certutil ("-N" :: args) d w).2 = nss w;
  certutil_add : forall n t args d w r w', certutil ("-A" :: "-n" :: n :: "-t" :: t :: "-a" :: args) d w = (r, w') ->
    nss w' = if is_ok r then <[n := d]> (nss w) else nss w;
  pk12util_import : forall f args w r w', pk12util ("-i" :: f :: args) w = (r, w') ->
    nss w' = match r, files w !! f with Ok _, Some d => <[friendlyName d := d]> (nss w) | _, _ => nss w end;
}.

Section database.
Context {W : Type} `{!NSSTools W} `{!NSSLaws W}.
Implicit Types (c : CertificateHandler) (w : W).

(** The length of the data is fuel enough. *)
Lemma decode_chain_fuel n s leaf chain : (String.length s <= n)%nat -> decode_chain n s leaf chain <> Err "out of fuel".
Proof.
  revert s leaf chain. induction n as [|n IH]; intros s leaf chain Hn; cbn; destruct (pem_Decode s) as [[b rest]|] eqn:Hd; try done;
    apply pem_shorter in Hd; [lia|].
  destruct (_ =?? _); [|done]. destruct (ParseCertificate _); [|done]. destruct leaf; apply IH; lia.
Qed.

(** The PKCS#12 data of a secret. *)
Definition key_pair (d : SecretData) : result string string :=
  chain ← decodeLeafAndCertificateChain (tlsCert d);
  key ← decodePrivateKey (tlsKey d);
  EncodeWithFriendlyName ClientCertName key chain.1 chain.2 "".

(** The database has the CA and the key pair of the secret. *)
Definition holds (d : SecretData) w : Prop :=
  nss w !! CACertName = Some (caCert d) /\ exists p, key_pair d = Ok p /\ nss w !! ClientCertName = Some p.

Definition same_nss w w' : Prop := nss w' = nss w.

Lemma wrap_ok {A} e (m : eff W string A) w a w' : wrap e m w = (Ok a, w') -> m w = (Ok a, w').
Proof. unfold wrap. destruct (m w) as [[b|] w1]; [|done]. by intros [= <- <-]. Qed.

Lemma wrap_run {A} e (m : eff W string A) w r w' : wrap e m w = (r, w') -> exists r0, m w = (r0, w') /\ is_ok r0 = is_ok r.
Proof. unfold wrap. destruct (m w) as [r0 w1] eqn:Hm. intros [= <- <-]. exists r0. split; [done|]. by destruct r0. Qed.

Lemma init_nss c w r w' : initNSSDatabase c w = (r, w') -> nss w' = nss w.
Proof.
  unfold initNSSDatabase. intros Hr. apply eff_bind_inv in Hr as [(r0 & w1 & H1 & Hr)|(? & H1 & ->)];
    apply attempt_inv in H1 as (r1 & ? & H1); simplify_eq; pose proof (stat_nss (NSSDatabaseFile c) w) as Hs; rewrite H1 in Hs; cbn in Hs.
  destruct r1; [injection Hr as <- <-; done|]. apply wrap_run in Hr as (r2 & Hr & _).
  pose proof (certutil_new ["--empty-password"; "-d"; "sql:" +:+ nssDBDir c] "" w1) as Hn.
  change (certutil _ "" w1) with (certutil (newCertUtilCmd c ["-N"; "--empty-password"]) "" w1) in Hn.
  rewrite Hr in Hn. cbn in Hn. congruence.
Qed.

Lemma load_key_ok c cert key w w' : loadPrivateKey c cert key ClientCertName w = (Ok tt, w') ->
  exists chain k p, decodeLeafAndCertificateChain cert = Ok chain /\ decodePrivateKey key = Ok k /\
    EncodeWithFriendlyName ClientCertName k chain.1 chain.2 "" = Ok p /\ nss w' = <[ClientCertName := p]> (nss w).
Proof.
  unfold loadPrivateKey, lift_result. intros Hr.
  apply eff_bind_inv in Hr as [(chain & w1 & H1 & Hr)|(? & _ & [=])]. injection H1 as Hc <-.
  apply eff_bind_inv in Hr as [(k & w2 & H2 & Hr)|(? & _ & [=])]. injection H2 as Hk <-.
  apply eff_bind_inv in Hr as [(f & w3 & H3 & Hr)|(? & _ & [=])]. apply wrap_ok in H3.
  pose proof (temp_nss w) as Ht. rewrite H3 in Ht. cbn in Ht. unfold deferred_remove in Hr.
  match type of Hr with (let '(_, _) := ?m w3 in _) = _ => destruct (m w3) as [r w4] eqn:Hd end. injection Hr as -> <-. rewrite remove_nss.
  apply eff_bind_inv in Hd as [(p & w5 & H5 & Hd)|(? & _ & [=])]. apply wrap_ok in H5. injection H5 as Hp <-.
  apply eff_bind_inv in Hd as [([] & w6 & H6 & Hd)|(? & _ & [=])]. apply wrap_ok in H6.
  pose proof (write_nss f p w3) as Hw. rewrite H6 in Hw. cbn in Hw. apply write_file in H6.
  apply eff_bind_inv in Hd as [([] & w7 & H7 & Hd)|(? & _ & [=])]. apply wrap_ok in H7.
  destruct (close_nss f w6) as [Hn7 Hf7]. rewrite H7 in Hn7, Hf7. cbn in Hn7, Hf7. apply wrap_ok, pk12util_import in Hd.
  rewrite Hf7, H6 in Hd. apply encode_name in Hp as Hn. exists chain, k, p. split_and!; try done. rewrite Hd, Hn. congruence.
Qed.

(** Loading ends with both entries, or fails; the CA may be there already then. *)
Lemma load_ok c d w w' : loadCertificatesIntoNSS c d w = (Ok tt, w') -> holds d w'.
Proof.
  unfold loadCertificatesIntoNSS. intros Hr. apply eff_bind_inv in Hr as [([] & w1 & H1 & Hr)|(? & _ & [=])].
  apply wrap_ok, wrap_ok, certutil_add in H1. cbn in H1. apply wrap_ok, load_key_ok in Hr as (chain & k & p & Hc & Hk & Hp & Hn).
  split; [rewrite Hn, lookup_insert_ne, H1 by done; apply lookup_insert_eq|].
  exists p. split; [unfold key_pair; rewrite Hc; cbn; rewrite Hk; done|]. rewrite Hn. apply lookup_insert_eq.
Qed.

(** The hexadecimal digits tell the bytes. *)
Lemma hex_byte_inj (a b : ascii) : hex_byte a = hex_byte b -> a = b.
Proof.
  assert (Hd : exists f, forall x : ascii, f (hex_byte x) = x); [|destruct Hd as [f Hf]; intros He; by rewrite <- (Hf a), He].
  exists (fun l => match l with
    | [h; l] => let v x := if (nat_of_ascii x <? 58)%nat then (nat_of_ascii x - 48)%nat else (nat_of_ascii x - 87)%nat in
                ascii_of_nat (v h * 16 + v l)%nat
    | _ => "000"%char
    end).
  intros [[][][][][][][][]]; vm_compute; reflexivity.
Qed.

Lemma sprintf_x_inj l1 : forall l2, Sprintf_x l1 = Sprintf_x l2 -> l1 = l2.
Proof.
  unfold Sprintf_x. intros l2 He. apply (f_equal Strings.chars) in He. rewrite !Strings.chars_text in He.
  revert l2 He. induction l1 as [|a l1 IH]; intros [|b l2] He; try done.
  cbn [flat_map] in He. apply app_inj_1 in He as [Hc Hl]; [|done]. apply hex_byte_inj in Hc as ->. by rewrite (IH l2).
Qed.

Lemma certHash_not_empty d : certHash d <> "".
Proof.
  unfold certHash. pose proof (sum256_length (tlsCert d +:+ tlsKey d +:+ caCert d)) as Hl. by destruct (Sum256 _).
Qed.

(** A secret is remembered only when the database holds it. *)
Definition remembers (d : SecretData) c w : Prop := lastCertHash c = certHash d /\ holds d w.

Lemma callback_ok d c w s' : OnSignedCallback d (c, w) = (Ok tt, s') ->
  if certHash d =?? lastCertHash c then s' = (c, w) else remembers d s'.1 s'.2.
Proof.
  unfold OnSignedCallback. case_bool_decide; [by intros [= <-]|].
  match goal with |- (match ?m w with _ => _ end) = _ -> _ => destruct (m w) as [r w'] eqn:Hr end. destruct r as [[]|]; [|done]. intros [= <-].
  apply eff_bind_inv in Hr as [([] & w1 & _ & Hr)|(? & _ & [=])]. apply wrap_ok, load_ok in Hr. done.
Qed.

(** Every callback of the sequence succeeds. *)
Fixpoint all_succeed (ds : list SecretData) (s : CertificateHandler * W) : Prop :=
  match ds with
  | [] => True
  | d :: ds => (OnSignedCallback d s).1 = Ok tt /\ all_succeed ds (OnSignedCallback d s).2
  end.

(** C39: After any sequence of callbacks that succeed, from an empty memory, the
    database has the CA and the key pair of the last secret.  Secrets are told apart by
    the SHA-256 of the certificate, the key and the CA put together: this presumes that
    no two different texts of the sequence have the same SHA-256, and that no two
    different secrets of it give the same text, where one piece ends and the next one
    begins being left out of it. *)
Theorem nss_holds_latest ds d dir (w : W) :
  let certData d := tlsCert d +:+ tlsKey d +:+ caCert d in
  all_succeed (ds ++ [d]) (mkHandler dir "", w) ->
  (forall d1 d2, d1 ∈ ds ++ [d] -> d2 ∈ ds ++ [d] -> Sum256 (certData d1) = Sum256 (certData d2) -> certData d1 = certData d2) ->
  (forall d1 d2, d1 ∈ ds ++ [d] -> d2 ∈ ds ++ [d] -> certData d1 = certData d2 -> d1 = d2) ->
  holds d (callbacks (ds ++ [d]) (mkHandler dir "", w)).2.
Proof.
  intros certData Hs Hsum Hsplit.
  assert (Hinj : forall d1 d2, d1 ∈ ds ++ [d] -> d2 ∈ ds ++ [d] -> certHash d1 = certHash d2 -> d1 = d2).
  { intros d1 d2 H1 H2 He. apply Hsplit, Hsum; [done..|]. by apply sprintf_x_inj. }
  enough (Hrun : forall l s, l `suffix_of` ds ++ [d] -> l <> [] -> all_succeed l s ->
    lastCertHash s.1 = "" \/ (exists d0, d0 ∈ ds ++ [d] /\ remembers d0 s.1 s.2) ->
    exists d0, last l = Some d0 /\ remembers d0 (callbacks l s).1 (callbacks l s).2).
  { destruct (Hrun (ds ++ [d]) (mkHandler dir "", w)) as (d0 & Hd0 & _ & Hh); [done|by destruct ds|done|by left|].
    rewrite last_snoc in Hd0. by injection Hd0 as ->. }
  clear Hs. induction l as [|d1 l IH]; intros [c w1] Hsuf Hl Hs Hinv; [done|]. destruct Hs as [H1 Hs].
  assert (Hin : d1 ∈ ds ++ [d]) by (destruct Hsuf as [k ->]; set_solver).
  destruct (OnSignedCallback d1 (c, w1)) as [r s1] eqn:Hr. cbn in H1, Hs. subst r. apply callback_ok in Hr as Hok.
  assert (Hrem : remembers d1 s1.1 s1.2).
  { case_bool_decide as He; [|done]. subst s1.
    destruct Hinv as [Hinv|(d0 & Hd0 & Hh0 & Hh)]; cbn in *; [exfalso; apply (certHash_not_empty d1); congruence|].
    assert (d0 = d1) as -> by (apply Hinj; [done|done|congruence]). done. }
  unfold callbacks. cbn [foldl]. rewrite Hr. cbn [snd]. destruct l as [|d2 l]; [by exists d1|].
  apply (IH s1); [|done|done|right; by exists d1]. destruct Hsuf as [k ->]. exists (k ++ [d1]). by rewrite <- app_assoc.
Qed.

End database.

(** * Tools in which a certificate is a letter C and a key a letter K *)
Definition ex_decode (s : string) : option (Block * string) :=
  match s with
  | String.String c rest =>
      Some (mkBlock (if c =?? "C"%char then "CERTIFICATE" else if c =?? "K"%char then "PRIVATE KEY" else "OTHER") rest, rest)
  | String.EmptyString => None
  end.

Definition ex_certutil (args : list string) (d : string) (m : gmap string string) : gmap string string :=
  match args with
  | "-A" :: _ :: n :: _ => <[n := d]> m
  | "-D" :: _ :: n :: _ => delete n m
  | _ => m
  end.

#[local] Instance ex_tools : NSSTools (gmap string string * gmap string string) := {
  Certificate := string;
  PrivateKey := string;
  pem_Decode := ex_decode;
  ParseCertificate s := Ok s;
  ParsePKCS8PrivateKey s := Ok s;
  ParsePKCS1PrivateKey s := Ok s;
  EncodeWithFriendlyName n k leaf chain p := if n =?? ClientCertName then Ok (k +:+ "," +:+ leaf) else Err "other name";
  Sum256 s := take 32 (Strings.chars s ++ replicate 32 "000"%char);
  os_Stat _ := mret tt;
  CreateTemp := mret "tmp";
  file_Write f d := fun w => (Ok tt, (w.1, <[f := d]> w.2));
  file_Close _ := mret tt;
  os_Remove f w := (w.1, delete f w.2);
  certutil args d := fun w => (Ok tt, (ex_certutil args d w.1, w.2));
  pk12util args := fun w =>
    (Ok tt, (match args with
             | _ :: f :: _ => match w.2 !! f with Some d => <[ClientCertName := d]> w.1 | None => w.1 end
             | _ => w.1
             end, w.2));
}.

#[local] Instance ex_laws : NSSLaws (gmap string string * gmap string string).
Proof.
  refine {| nss := fst; files := snd; friendlyName := fun _ => ClientCertName |}; cbn; try done.
  - intros [|c s] b rest; [done|]. cbn. intros [= _ <-]. lia.
  - intros n k leaf chain p d. case_bool_decide; [by subst|done].
  - intros s. change (length (take 32 (Strings.chars s ++ replicate 32 "000"%char)) = 32%nat).
    rewrite length_take, length_app, length_replicate. lia.
  - intros f d w w' [= <-]. apply lookup_insert_eq.
  - by intros n t args d w r w' [= <- <-].
  - intros f args w r w' [= <- <-]. done.
Defined.

Definition ex_bad : SecretData := mkSecret "C" "Xbad" "CAbad".
Definition ex_start : CertificateHandler * (gmap string string * gmap string string) := (NewCertificateHandler "", (∅, ∅)).

Lemma nss_holds_latest_witness :
  (callbacks [mkSecret "C" "K1" "A1"; mkSecret "C" "K2" "A2"] ex_start).2.1 !! CACertName = Some "A2".
Proof.
  destruct (nss_holds_latest [mkSecret "C" "K1" "A1"] (mkSecret "C" "K2" "A2") (nssDBDir ex_start.1) ex_start.2) as [Hca _].
  - split; [vm_compute; reflexivity|split; [vm_compute; reflexivity|done]].
  - intros d1 d2 H1 H2 He. cbn in H1, H2. set_unfold. destruct H1 as [-> | [-> | []]], H2 as [-> | [-> | []]]; vm_compute in He; done.
  - intros d1 d2 H1 H2 He. cbn in H1, H2. set_unfold. destruct H1 as [-> | [-> | []]], H2 as [-> | [-> | []]]; vm_compute in He; done.
  - exact Hca.
Defined.

(** When the key of a new secret cannot be decoded after its CA was loaded, the old
    secret is still remembered: its data is not loaded when it comes again, and the
    database keeps the CA of the one and the key pair of the other. *)
Lemma old_certificate_skipped :
  let d := mkSecret "C" "K1" "A1" in
  let s := callbacks [d; ex_bad] ex_start in
  (OnSignedCallback ex_bad (callbacks [d] ex_start)).1 = Err "failed to load certificates into NSS database" /\
  (OnSignedCallback d s).1 = Ok tt /\ (OnSignedCallback d s).2.2.1 !! CACertName = Some "CAbad" /\
  is_ok (key_pair d) = true /\
  forall p, key_pair d = Ok p -> (OnSignedCallback d s).2.2.1 !! ClientCertName = Some p.
Proof. repeat split; [vm_compute; reflexivity..|]. intros p Hp. injection Hp as <-. vm_compute. reflexivity. Qed.
End CertHandler.
